(* ===== verification/_CoqProject ===== *)
-Q . S2P
Prelude.v
Text.v
Frame.v
Codec.v
CodecProps.v
Huffman.v
HpackTable.v
Policy.v
HpackEnc.v
HpackSync.v
Stream.v
Profile.v
Synthesis.v
Hpack.v
ConnState.v
Engine.v
EngineSend.v
EngineProps.v
Driver.v
DriverOwn.v
DriverProps.v
DriverDelivery.v
DriverRun.v
TlsError.v
LkError.v
Route.v
StateM.v
TlsCipher.v
TlsRecord.v
TlsChannel.v
TlsProfile.v
TlsExtensions.v
QuicParams.v
IpAddr.v
ProxyTunnel.v
ProxyTunnelProps.v
TlsKx.v
ClientHello.v
ClientHelloShuffle.v
ClientHelloParse.v
ClientHelloWire.v
ClientHelloProps.v
ClientHelloMirror.v
ClientHelloReplay.v
ServerHello.v
ServerHelloProps.v
TlsHkdf.v
CertChain.v
CertChainProps.v
SessionStore.v
SessionStoreProps.v
AltSvc.v
AltSvcProps.v
BrokenQuic.v
Pipeline.v
Retry.v
Hsts.v
Pool.v
PoolProps.v
HttpLib.v
Headers.v
Redirect.v
RedirectProps.v
Transport.v
TransportProps.v
TransportSys.v
TransportInv.v
TransportVersion.v
TransportCoalesce.v
RequestDemo.v
Tls12Prf.v
Tls13.v
Tls12.v
TlsDriver.v
Tls13Props.v
Tls13Runs.v
Tls13Safety.v
Tls12Props.v
TlsDriverProps.v
TlsDemo.v
