(* ===== verification/Prelude.v ===== *)
(** * lkrequest-rs: a verified model of its request layer and its HTTP/2 and TLS engines

    lkrequest-rs is an HTTP client that imitates browsers down to the wire.  Its
    crate [lkh2] (src/lkh2/src) implements HTTP/2 without I/O: bytes go in,
    events and outbound frames come out.  Its crate [lktls] (src/lktls/src) is a
    TLS client whose ClientHello follows a profile; [lkprofile]
    (src/lkprofile/src) turns captured ClientHellos into such profiles.  The crate
    [lkrequest] (src/lkrequest/src) is the client itself: it chooses a protocol,
    pools connections, merges headers, follows redirects and retries.  This
    library models lkh2 file by file; of lktls and lkprofile the record layer, the
    extensions, the ClientHello builder and parser, certificate verification,
    session tickets, the handshakes of TLS 1.3 and 1.2 and their drivers; of
    lkrequest everything between the caller's request and the connections.  It
    proves them correct against the RFCs they implement (7540/9113 for HTTP/2, 7541
    for HPACK, 9218 for priorities, 8446 and 5246 for TLS, 5869 for HKDF, 8701 for
    GREASE, 9000 for QUIC transport parameters, 7838 for Alt-Svc, 6797 for HSTS,
    9110 for redirects and replays), and shows where they differ.

    ** Parts of the program and where they are modelled

    lkh2:
    - frame.rs: frame types, flags, the 9-byte header, payload structs: [Frame];
    - codec.rs: the incremental decoder and the encoder: [Codec], theorems in
      [CodecProps];
    - hpack_enc/huffman.rs: the Huffman table and the 64-bit accumulator encoder:
      [Huffman] (Module [huffman]);
    - hpack_enc/table.rs: static and dynamic tables: [HpackTable] (Module [table]);
    - hpack_enc/mod.rs: integers, strings, representations, the encoder with its
      pending size update: [HpackEnc] (Module [hpack_enc]); [HpackSync] holds a
      decoder written from RFC 7541 and proves that the two stay in step;
    - hpack.rs: the front end; the third-party decoder is the class
      [HpackDecoder]: [Hpack] (Module [hpack]);
    - policy.rs: write grouping, flow-control and HPACK policies: [Policy]; the
      trait FlowControlPolicy is a class with a class of laws that the engine's
      theorems rely on;
    - profile.rs, synthesis.rs: fingerprint profiles, priorities, validation and
      synthesis: [Profile] (Module [profile]), [Synthesis] (Module [synthesis]);
    - stream.rs: stream states and windows: [Stream] (Module [stream]);
    - conn_state.rs: settings, stream table, windows, GOAWAY: [ConnState] (Module
      [conn_state]);
    - engine.rs: CONTINUATION assembler, handlers, process loop, header and body
      builders: [Engine] (Modules [continuation] and [engine]); [EngineSend] proves
      the sending side, [EngineProps] the receiving side and where it
      differs from its documentation or from HTTP/2;
    - driver.rs: the task around the engine and the handles of its callers:
      [Driver] (Module [driver]); [DriverOwn] tracks who owns the channels and
      permits, [DriverProps] proves the invariant of the whole system,
      [DriverDelivery] the delivery of responses, [DriverRun] the rounds of the
      loop.

    lktls:
    - error.rs: alerts and errors: [TlsError] (Module [error]);
    - crypto/aead.rs, crypto/tls12_cipher.rs: nonces, AEAD and CBC record
      protection: [TlsCipher] (Modules [aead], [tls12_cipher]); the primitives are
      the class [Crypto] with its laws;
    - record/: reader and writer: [TlsRecord] (Module [record]), theorems in
      [TlsChannel];
    - crypto/kx.rs: key pairs and shared secrets: [TlsKx] (Module [kx]);
    - profile/types.rs: [TlsProfile] (Module [types]);
    - extensions/: every encoder and parser, GREASE: [TlsExtensions] (Module
      [extensions]), transport parameters: [QuicParams];
    - handshake/client_hello.rs: validation, order, generated extensions, padding,
      assembly: [ClientHello] (Module [client_hello]), with [IpAddr] for the
      standard library's address parser; [ClientHelloShuffle] proves the shuffle;
    - handshake/server_hello.rs: [ServerHello] (Module [server_hello]), theorems in
      [ServerHelloProps];
    - crypto/hkdf.rs, extensions/pre_shared_key.rs: labels, secrets, binders:
      [TlsHkdf] (Module [hkdf]); the primitives are the class [Hkdf];
    - verify/: DER, signatures, chains, policy: [CertChain] (Module [certchain]),
      theorems in [CertChainProps]; aws-lc-rs and webpki are classes;
    - session_store.rs: tickets and their store: [SessionStore] (Module
      [session_store]), theorems in [SessionStoreProps];
    - handshake/tls13.rs: the client's state machine: [Tls13] (Module [tls13]), a
      state and error monad over the handshake record; [Tls13Props] proves the
      invariant of its states, [Tls13Runs] what a completed run establishes,
      [Tls13Safety] that no record panics it, [TlsDemo] runs it;
    - crypto/prf.rs: the TLS 1.2 PRF: [Tls12Prf] (Module [prf]);
    - handshake/tls12.rs: the TLS 1.2 state machine: [Tls12] (Module [tls12]);
      [Tls12Props] proves the invariant and what a completed run establishes,
      [TlsDemo] runs it;
    - handshake/driver.rs: the drivers that run record layer and handshakes for TLS
      and for QUIC: [TlsDriver] (Module [tls_driver]); [TlsDriverProps] proves the
      reassembly of messages and what a connection that is done guarantees, [TlsDemo]
      runs them.  The methods of both handshakes are computations of the
      monad of [StateM] (state, external world, error, panic).

    lkprofile:
    - client_hello.rs: parser and profile reconstruction: [ClientHelloParse]
      (Module [mirror]); [ClientHelloWire] relates encoders and decoders,
      [ClientHelloProps] describes what the builder emits, [ClientHelloMirror]
      what the parser recovers, [ClientHelloReplay] composes them.

    lkrequest:
    - error.rs: errors and their classification: [LkError] (Module [lk_error]);
      [Text] has the string functions of the standard library that these files use;
    - protocol.rs, proxy/config.rs: policies, proxies, route keys: [Route] (Modules
      [protocol], [proxy], [route]);
    - alt_svc.rs: header parser, cache and broken-QUIC tracker: [AltSvc] (Module
      [alt_svc]); theorems on the cache in [AltSvcProps], on the tracker in
      [BrokenQuic];
    - session/pipeline.rs and parts of session/mod.rs: discovery and decision:
      [Pipeline] (Module [pipeline], theorems in Module [pipeline_props]);
    - retry.rs and the loop of session/request.rs: [Retry] (Module [retry]);
    - hsts.rs: [Hsts] (Module [hsts]), the trait as a class;
    - connection_pool.rs: [Pool] (Module [pool]): the pool under its lock, the tasks
      and the counter of permits; [PoolProps] proves its invariant over any
      sequence of operations and the compare-and-exchange loop of the counter;
    - session/transport.rs, headers: [Headers] (Module [headers], theorems in
      Module [headers_props]); [HttpLib] has the http and url crates as classes with laws;
    - session/transport.rs, redirects: [Redirect] (Module [redirect]), theorems in
      [RedirectProps], those together with the headers in Module [redirect_h1];
    - session/transport.rs, connections: [Transport] (Module [transport]): the async
      functions as programs over effects (network, pool, tables); [TransportProps]
      is a program logic for them, [TransportSys] (Module [transport_sys]) their
      concurrent semantics: any number of requests, probes and preconnects
      interleave at their effects and may be dropped at each; [TransportInv] proves
      its invariant, [TransportVersion] bounds what is transmitted,
      [TransportCoalesce] follows the coalescing of handshakes;
    - proxy/connect.rs, proxy/socks5_udp.rs: tunnels through proxies and chains, UDP
      associations and their datagrams: [ProxyTunnel] (Modules [tunnel], [socks5_udp]);
      [ProxyTunnelProps] has the grammar of the protocols, the theorems and an example;
      [IpAddr] has the standard library's addresses;
    - [RequestDemo] instantiates this layer and runs it.

    The engine owns a codec, a connection state (which owns the streams and both
    HPACK contexts), an assembler and the two policies; [process] decodes a frame,
    hands it to its handler, and the handler updates the state and appends to the
    events and outbound frames ([Ctx]).  The builders encode a header list with
    the connection's HPACK encoder, split it, cut bodies by the windows and put
    aside what does not fit.  The driver feeds the engine from a transport, hands
    its events to callers over channels and starts queued requests; driver and
    callers are one transition system ([driver.sys_step]) over a store of channels.
    A TLS connection is a record writer at one end and a record reader at the
    other; [TlsChannel] runs any sequence of writes and key changes through both.
    In lkrequest a request goes through the retry loop, the redirect loop and one
    send per hop; a send takes a pooled connection or decides between TCP, QUIC and
    a race on what the Alt-Svc cache and the tracker have learned, reserves a permit,
    connects, and returns the connection to the pool.

    ** Conventions

    A machine integer is a [Z]; its range is a predicate and every cast or
    wrapping operation that matters is written out ([as_u32], [as_i32], ...;
    release-mode wrap-around).  [usize] is exact.  A byte string, and a Rust
    [String], is a list of [Z] in 0..255 ([is_bytes]).  A [Result] that may panic
    is an [Outcome]; elsewhere [option] with [None] for a panic or a loop that
    does not end.  A method on [&mut self] takes and returns the state.  Loops
    that are not structural carry fuel: the length of the buffer or of the data
    (each round consumes at least a byte), the number of table entries (each
    round evicts one), the bits of the integer; totality theorems show that this
    is enough.  The rejection sampling of the shuffle may run for ever on a bad
    generator; its fuel is a parameter.  A [HashMap] is a [gmap]; where its
    iteration order could matter it is a parameter.  The system generator is the
    class [SystemRandom], threaded as a state.

    ** What the theorems show

    - codec: decoding undoes encoding (C30) and never panics
      ([CodecProps.decode_total]);
    - HPACK: the Huffman encoder refines bit concatenation
      ([Huffman.huffman_encode_refines]); the dynamic table is exact
      ([HpackTable.dynamic_table_correct]); over any session an RFC 7541 decoder
      reads back every block (C11);
    - streams: the life cycle refines two independent directions, the 32-bit
      windows refine unbounded ledgers ([Stream]);
    - profiles: validation is exact, synthesis always validates ([Synthesis]);
    - connection: peer settings take effect in any iteration order ([ConnState]);
    - engine, sending: a header list reaches the peer exactly
      (C19), bodies are sent within the windows without
      loss (C28);
    - engine, receiving: any input is survived (C26),
      chunking is irrelevant (C25), connection credit is
      conserved (C35); [EngineProps] also has departures from HTTP/2 or
      the documentation;
    - driver: no request is lost (C6), responses are delivered
      exactly (C20), a round always finishes ([DriverRun]), a
      shutdown ends (C40);
    - TLS records: what is written is read, in order and across key changes
      (C2), nonces are never reused (C29);
    - ClientHello: mirroring a built message gives back its profile
      (C15); the shuffle is correct and complete
      ([ClientHelloShuffle]);
    - TLS 1.3 handshake: one that completes is authenticated
      (C5) and reports the secrets of RFC 8446
      (C9), records cannot panic it
      (C27); tickets are used once
      (C36); parsers and signature checks are exact
      ([ServerHelloProps], [CertChainProps]);
    - TLS 1.2 handshake: one that completes is authenticated
      (C10); the PRF is the one of RFC 5246
      (C37);
    - TLS connections: one that is done has the keys of an authenticated handshake
      with the configured host (C3), for QUIC the secrets
      (C7); but a resumed TLS 1.2 session may be handed out with
      an unkeyed writer (C12);
    - protocol choice: Alt-Svc lookups are sound and complete
      (C31, C32), the quarantine refines a
      ledger of failures (C18), QUIC is used only on evidence
      (C14), but evidence from DNS is never used
      ([Pipeline.pipeline_props.dns_discovery_unused]);
    - pool: the counter of permits linearises (C23), a reservation
      is refused only when the pool is full
      ([PoolProps.pool_props.reserve_refused_only_when_full]);
    - requests: permits are conserved through every interleaving and cancellation
      (C1); transmissions are bounded and keep to the
      demanded version (C8), except that resends escape
      method and version (C24); a coalesced handshake can lose its
      wake-up (C13); retries end and are replay-safe
      (C22);
    - headers and redirects: merging and ordering are exact (C33,
      C34); redirects confine credentials
      (C4), are bounded and upgraded
      (C21), but a redirected GET declares the old length
      ([RedirectProps.redirect_h1]); the learned HSTS store is exact
      (C38);
    - proxies: connections through a proxy or a chain carry exactly the dialogue of
      their hops, credentials only to their own (C16), and succeed when all
      hops accept (C39); datagrams survive the relays of an association
      (C17).

    ** What is not modelled, and the plan

    Logging, [Debug] and [serde] derives, buffer capacities and recycling.  The
    crates http, url, base64, hex, rand_core, fluke_hpack, aws-lc-rs, hyper, quinn and
    tokio are parameters, classes or, for channels, semaphores, tasks and [Notify], a
    store with their documented behaviour.  A hello built from a runtime ECHConfigList
    (HPKE) is left out of the handshake.  In [Transport] dialling, TLS, discovery and
    the reading of a response are effects with arbitrary answers, so its theorems hold
    whatever the network does; the unused h2c upgrade is left out.  The rest of
    lkrequest is configuration data (builders, presets) and I/O (resolvers,
    WebSocket, streaming), lkquic and lkh3 configure third-party stacks, the
    FFI crate and the tools are glue.  Next: profile synthesis and ECH of lktls,
    lkprofile's fingerprints, lkh2's adapter.rs. *)
From stdpp Require Export base tactics numbers list strings gmap pretty.
From Stdlib Require Export ZArith Lia.
Open Scope Z_scope.

(** ** Machine integers

    A [uN]/[iN] of the source is a [Z]; the predicates below are its range and
    [as_uN]/[as_i32] are Rust's truncating [as] casts. *)

Definition u8 (n : Z) : Prop := 0 <= n < 256.
Definition u16 (n : Z) : Prop := 0 <= n < 65536.
Definition u24 (n : Z) : Prop := 0 <= n < 16777216.
Definition u31 (n : Z) : Prop := 0 <= n < 2147483648.
Definition u32 (n : Z) : Prop := 0 <= n < 4294967296.
Definition u64 (n : Z) : Prop := 0 <= n < 18446744073709551616.
Definition i32 (n : Z) : Prop := -2147483648 <= n < 2147483648.

Definition I32_MAX : Z := 2147483647.

Definition as_u8 (n : Z) : Z := n mod 256.
Definition as_u16 (n : Z) : Z := n mod 65536.
Definition as_u32 (n : Z) : Z := n mod 4294967296.
Definition as_u64 (n : Z) : Z := n mod 18446744073709551616.
Definition as_i32 (n : Z) : Z := (n + 2147483648) mod 4294967296 - 2147483648.

#[export] Instance u8_dec n : Decision (u8 n).
Proof. unfold u8; apply _. Defined.
#[export] Instance u16_dec n : Decision (u16 n).
Proof. unfold u16; apply _. Defined.
#[export] Instance u24_dec n : Decision (u24 n).
Proof. unfold u24; apply _. Defined.
#[export] Instance u31_dec n : Decision (u31 n).
Proof. unfold u31; apply _. Defined.
#[export] Instance u32_dec n : Decision (u32 n).
Proof. unfold u32; apply _. Defined.
#[export] Instance u64_dec n : Decision (u64 n).
Proof. unfold u64; apply _. Defined.
#[export] Instance i32_dec n : Decision (i32 n).
Proof. unfold i32; apply _. Defined.

(** Linear arithmetic over the widths above; [width] also knows div and mod. *)
Ltac width :=
  unfold u8, u16, u24, u31, u32, u64, i32, I32_MAX in *;
  unfold as_u8, as_u16, as_u32, as_u64, as_i32 in *;
  Z.div_mod_to_equations; lia.

Create HintDb width_db.
#[export] Hint Extern 3 => width : width_db.

(** ** Outcomes

    A Rust function that returns [Result<A, E>] and may panic (out-of-range
    index, bad slice) is an [Outcome E A]. *)

Inductive Outcome (E A : Type) : Type :=
| Ok (a : A)
| Err (e : E)
| Panic.
Arguments Ok {E A} a.
Arguments Err {E A} e.
Arguments Panic {E A}.

#[export] Instance outcome_ret {E} : MRet (Outcome E) := fun A a => Ok a.
#[export] Instance outcome_bind {E} : MBind (Outcome E) := fun A B k o =>
  match o with Ok a => k a | Err e => Err e | Panic => Panic end.

(** [guard_ok b e] is [if !b { return Err(e) }]. *)
Definition guard_ok {E} (b : bool) (e : E) : Outcome E unit :=
  if b then Ok tt else Err e.

(** [outcome_ok P o]: the computation does not panic, and a value it returns
    satisfies [P]. *)
Definition outcome_ok {E A} (P : A -> Prop) (o : Outcome E A) : Prop :=
  match o with Ok a => P a | Err _ => True | Panic => False end.

Lemma outcome_ok_bind {E A B} (P : A -> Prop) (Q : B -> Prop) (o : Outcome E A)
    (k : A -> Outcome E B) :
  outcome_ok P o -> (forall a, P a -> outcome_ok Q (k a)) -> outcome_ok Q (o ≫= k).
Proof. destruct o; simpl; eauto. Qed.

Lemma outcome_ok_weaken {E A} (P Q : A -> Prop) (o : Outcome E A) :
  outcome_ok P o -> (forall a, P a -> Q a) -> outcome_ok Q o.
Proof. destruct o; simpl; auto. Qed.

Lemma outcome_ok_if {E A} (P : A -> Prop) (b : bool) (o1 o2 : Outcome E A) :
  (b = true -> outcome_ok P o1) -> (b = false -> outcome_ok P o2) ->
  outcome_ok P (if b then o1 else o2).
Proof. destruct b; auto. Qed.

(** ** Byte strings *)

Abbreviation bytes := (list Z).

Definition is_bytes (l : bytes) : Prop := Forall u8 l.

#[export] Instance is_bytes_dec l : Decision (is_bytes l).
Proof. unfold is_bytes; apply _. Defined.

(** [b"..."] literals and [str::as_bytes]. *)
Fixpoint ascii_bytes (s : string) : bytes :=
  match s with
  | EmptyString => []
  | String a s => Z.of_N (Ascii.N_of_ascii a) :: ascii_bytes s
  end.

(** [len()] of a slice. *)
Definition len {A} (l : list A) : Z := Z.of_nat (length l).

(** [l[i]] : panics out of range. *)
Definition idx {E A} (l : list A) (i : Z) : Outcome E A :=
  if decide (0 <= i) then
    match l !! Z.to_nat i with Some a => Ok a | None => Panic end
  else Panic.

(** [l[a..b]] and [Bytes::slice(a..b)] : panic unless [a <= b <= len]. *)
Definition slice {E A} (l : list A) (a b : Z) : Outcome E (list A) :=
  if decide (0 <= a <= b /\ b <= len l)
  then Ok (take (Z.to_nat (b - a)) (drop (Z.to_nat a) l))
  else Panic.

(** [l[..n]] and [l[n..]] when the caller has checked [n <= len]. *)
Definition take_z {A} (n : Z) (l : list A) : list A := take (Z.to_nat n) l.
Definition drop_z {A} (n : Z) (l : list A) : list A := drop (Z.to_nat n) l.

Definition is_empty {A} (l : list A) : bool :=
  match l with [] => true | _ => false end.

(** ** Big-endian encodings ([to_be_bytes], [from_be_bytes]) *)

Definition be16 (v : Z) : bytes := [as_u8 (v ≫ 8); as_u8 v].
Definition be32 (v : Z) : bytes :=
  [as_u8 (v ≫ 24); as_u8 (v ≫ 16); as_u8 (v ≫ 8); as_u8 v].
Definition be64 (v : Z) : bytes := be32 (v ≫ 32) ++ be32 (as_u32 v).
Definition from_be16 (a b : Z) : Z := Z.lor (a ≪ 8) b.
Definition from_be32 (a b c d : Z) : Z :=
  Z.lor (Z.lor (Z.lor (a ≪ 24) (b ≪ 16)) (c ≪ 8)) d.

#[global] Arguments len : simpl never.
#[global] Arguments idx : simpl never.
#[global] Arguments slice : simpl never.
#[global] Arguments take_z : simpl never.
#[global] Arguments drop_z : simpl never.
#[global] Arguments be16 : simpl never.
#[global] Arguments be32 : simpl never.
#[global] Arguments be64 : simpl never.
#[global] Arguments as_u8 : simpl never.
#[global] Arguments as_u32 : simpl never.
#[global] Arguments as_i32 : simpl never.
#[global] Arguments from_be16 : simpl never.
#[global] Arguments from_be32 : simpl never.

(** ** Bit-level lemmas *)

Lemma shiftr_div (a n : Z) : 0 <= n -> a ≫ n = a / 2 ^ n.
Proof. apply Z.shiftr_div_pow2. Qed.

Lemma shiftl_mul (a n : Z) : 0 <= n -> a ≪ n = a * 2 ^ n.
Proof. apply Z.shiftl_mul_pow2. Qed.

(** Or-ing a value below [2^n] into a number whose low [n] bits are clear. *)
Lemma lor_add_low (a b n : Z) :
  0 <= n -> 0 <= b < 2 ^ n -> Z.lor (a ≪ n) b = a * 2 ^ n + b.
Proof.
  intros Hn Hb.
  assert (Z.land (a ≪ n) b = 0) as Hland.
  { apply Z.bits_inj'; intros i Hi. rewrite Z.land_spec, Z.bits_0.
    destruct (decide (i < n)).
    - rewrite Z.shiftl_spec_low by lia. done.
    - rewrite <- (Z.mod_small b (2 ^ n)) by lia.
      rewrite Z.mod_pow2_bits_high by lia. apply andb_false_r. }
  pose proof (Z.add_lor_land (a ≪ n) b) as Hsum.
  rewrite Hland, shiftl_mul in Hsum by done. rewrite shiftl_mul by done. lia.
Qed.

(** Same, for two numbers whose set bits are separated by the bound [2^n]. *)
Lemma lor_add_aligned (a b n : Z) :
  0 <= n -> a mod 2 ^ n = 0 -> 0 <= b < 2 ^ n -> Z.lor a b = a + b.
Proof.
  intros Hn Ha Hb.
  assert (0 < 2 ^ n) by (apply Z.pow_pos_nonneg; lia).
  rewrite (Z.div_mod a (2 ^ n)) at 1 by lia.
  rewrite Ha, Z.add_0_r, Z.mul_comm, <- shiftl_mul, lor_add_low by done.
  rewrite (Z.div_mod a (2 ^ n)) at 2 by lia. lia.
Qed.

Lemma land_low_31 (a : Z) : Z.land a 2147483647 = a mod 2147483648.
Proof. change 2147483647 with (Z.ones 31). by rewrite Z.land_ones by lia. Qed.

Lemma land_bit_pow2 (a n : Z) :
  0 <= n -> Z.land a (2 ^ n) = (if Z.testbit a n then 2 ^ n else 0).
Proof.
  intros Hn. apply Z.bits_inj'; intros i Hi. rewrite Z.land_spec, Z.pow2_bits_eqb by done.
  destruct (Z.eqb_spec n i) as [->|Hne].
  - rewrite andb_true_r. destruct (Z.testbit a i) eqn:E; [|by rewrite Z.bits_0].
    by rewrite Z.pow2_bits_true.
  - rewrite andb_false_r. destruct (Z.testbit a n); [|by rewrite Z.bits_0].
    by rewrite Z.pow2_bits_false.
Qed.

Lemma from_be16_arith a b : u8 b -> from_be16 a b = a * 256 + b.
Proof. intros Hb. unfold from_be16. rewrite lor_add_low by (width || done). done. Qed.

Lemma from_be32_arith a b c d :
  u8 b -> u8 c -> u8 d ->
  from_be32 a b c d = a * 16777216 + b * 65536 + c * 256 + d.
Proof.
  intros Hb Hc Hd. unfold from_be32. rewrite !shiftl_mul by done.
  change (2 ^ 24) with 16777216. change (2 ^ 16) with 65536. change (2 ^ 8) with 256.
  unfold u8 in *.
  rewrite (lor_add_aligned (a * 16777216) (b * 65536) 24)
    by (try apply Z_mod_mult; lia).
  rewrite (lor_add_aligned _ (c * 256) 16) by (change (2 ^ 16) with 65536; width).
  rewrite (lor_add_aligned _ d 8) by (change (2 ^ 8) with 256; width).
  lia.
Qed.

Lemma from_be16_be16 v : u16 v -> from_be16 (as_u8 (v ≫ 8)) (as_u8 v) = v.
Proof.
  intros Hv. rewrite from_be16_arith, shiftr_div by width.
  change (2 ^ 8) with 256. width.
Qed.

Lemma from_be32_be32 v : u32 v ->
  from_be32 (as_u8 (v ≫ 24)) (as_u8 (v ≫ 16)) (as_u8 (v ≫ 8)) (as_u8 v) = v.
Proof.
  intros Hv. rewrite from_be32_arith by width. rewrite !shiftr_div by done.
  change (2 ^ 24) with 16777216. change (2 ^ 16) with 65536. change (2 ^ 8) with 256.
  width.
Qed.

Lemma be16_inj a b : u16 a -> u16 b -> be16 a = be16 b -> a = b.
Proof.
  intros Ha Hb [= H1 H2]. rewrite <- (from_be16_be16 a), <- (from_be16_be16 b) by done.
  congruence.
Qed.

Lemma be32_inj a b : u32 a -> u32 b -> be32 a = be32 b -> a = b.
Proof.
  intros Ha Hb [= H1 H2 H3 H4].
  rewrite <- (from_be32_be32 a), <- (from_be32_be32 b) by done. congruence.
Qed.

Lemma be64_inj a b : u64 a -> u64 b -> be64 a = be64 b -> a = b.
Proof.
  intros Ha Hb H. unfold be64 in H. apply app_inj_1 in H as [H1 H2]; [|done].
  apply be32_inj in H1; [|rewrite shiftr_div by lia; change (2 ^ 32) with 4294967296; width..].
  apply be32_inj in H2; [|width..].
  rewrite !shiftr_div in H1 by lia. change (2 ^ 32) with 4294967296 in H1. width.
Qed.

(** A boolean fact about bytes is checked on the 256 of them. *)
Lemma u8_forall (P : Z -> bool) (b : Z) :
  forallb P (seqZ 0 256) = true -> u8 b -> P b = true.
Proof.
  intros H Hb. rewrite forallb_forall in H. apply H.
  apply list_elem_of_In, elem_of_seqZ. width.
Qed.

Lemma as_u8_range n : u8 (as_u8 n).
Proof. width. Qed.
Lemma as_u32_range n : u32 (as_u32 n).
Proof. width. Qed.
Lemma as_i32_range n : i32 (as_i32 n).
Proof. width. Qed.
Lemma as_u8_small n : u8 n -> as_u8 n = n.
Proof. width. Qed.
Lemma as_u32_small n : u32 n -> as_u32 n = n.
Proof. width. Qed.
Lemma as_i32_small n : i32 n -> as_i32 n = n.
Proof. width. Qed.
#[export] Hint Resolve as_u8_range as_u32_range as_i32_range : width_db.

(** ** Lists and slices *)

Section lists.
Context {A : Type}.
Implicit Types l k : list A.

Lemma len_nil : len (@nil A) = 0.
Proof. done. Qed.
Lemma len_cons (a : A) l : len (a :: l) = 1 + len l.
Proof. unfold len; cbn [length]; lia. Qed.
Lemma len_app l k : len (l ++ k) = len l + len k.
Proof. unfold len; rewrite length_app; lia. Qed.
Lemma len_nonneg l : 0 <= len l.
Proof. unfold len; lia. Qed.
Lemma len_replicate n (a : A) : len (replicate n a) = Z.of_nat n.
Proof. unfold len; by rewrite length_replicate. Qed.
Lemma len_0_nil l : len l = 0 -> l = [].
Proof. destruct l; [done|]. rewrite len_cons. pose proof (len_nonneg l); lia. Qed.
Lemma len_take_z n l : 0 <= n -> len (take_z n l) = Z.min n (len l).
Proof. intros. unfold len, take_z. rewrite length_take. lia. Qed.
Lemma len_drop_z n l : 0 <= n -> len (drop_z n l) = Z.max 0 (len l - n).
Proof. intros. unfold len, drop_z. rewrite length_drop. lia. Qed.
Lemma take_drop_z n l : take_z n l ++ drop_z n l = l.
Proof. apply take_drop. Qed.
Lemma take_z_app_len l k : take_z (len l) (l ++ k) = l.
Proof. unfold take_z, len. rewrite Nat2Z.id. by rewrite take_app_length. Qed.
Lemma drop_z_app_len l k : drop_z (len l) (l ++ k) = k.
Proof. unfold drop_z, len. rewrite Nat2Z.id. by rewrite drop_app_length. Qed.
Lemma take_z_app_le n l k : n <= len l -> take_z n (l ++ k) = take_z n l.
Proof. intros. unfold take_z, len in *. apply take_app_le. lia. Qed.
Lemma drop_z_app_le n l k : n <= len l -> drop_z n (l ++ k) = drop_z n l ++ k.
Proof. intros. unfold drop_z, len in *. apply drop_app_le. lia. Qed.
Lemma take_z_all n l : len l <= n -> take_z n l = l.
Proof. intros. unfold take_z, len in *. apply take_ge. lia. Qed.
Lemma drop_z_all n l : len l <= n -> drop_z n l = [].
Proof. intros. unfold drop_z, len in *. apply drop_ge. lia. Qed.
Lemma drop_drop_z n m l : 0 <= n -> 0 <= m -> drop_z n (drop_z m l) = drop_z (m + n) l.
Proof. intros. unfold drop_z. rewrite drop_drop. f_equal. lia. Qed.
Lemma is_empty_len l : is_empty l = bool_decide (len l = 0).
Proof.
  destruct l; [done|]. rewrite len_cons. pose proof (len_nonneg l).
  by rewrite bool_decide_false by lia.
Qed.

(** In-range indexing and slicing do not panic. *)
Lemma idx_ok {E} l i : 0 <= i < len l -> exists a, idx (E := E) l i = Ok a /\ l !! Z.to_nat i = Some a.
Proof.
  intros Hi. unfold idx. rewrite decide_True by lia.
  destruct (lookup_lt_is_Some_2 l (Z.to_nat i)) as [a Ha]; [unfold len in Hi; lia|].
  exists a. by rewrite Ha.
Qed.
Lemma idx_app_r {E} (l k : list A) i :
  0 <= i -> idx (E := E) (l ++ k) (len l + i) = idx k i.
Proof.
  intros Hi. unfold idx. pose proof (len_nonneg l).
  rewrite !decide_True by lia. unfold len in *.
  rewrite lookup_app_r by lia.
  by replace (Z.to_nat (Z.of_nat (length l) + i) - length l)%nat with (Z.to_nat i) by lia.
Qed.

Lemma idx_at {E} (l k : list A) (a : A) i : i = len l -> idx (E := E) (l ++ a :: k) i = Ok a.
Proof. intros ->. replace (len l) with (len l + 0) by lia. by rewrite idx_app_r. Qed.
Lemma slice_ok {E} l a b : 0 <= a <= b -> b <= len l ->
  slice (E := E) l a b = Ok (take_z (b - a) (drop_z a l)).
Proof. intros. unfold slice. by rewrite decide_True. Qed.
(** The slice that cuts a middle segment out of a concatenation. *)
Lemma slice_middle {E} l m k a b :
  a = len l -> b = len l + len m -> slice (E := E) (l ++ m ++ k) a b = Ok m.
Proof.
  intros -> ->. pose proof (len_nonneg l). pose proof (len_nonneg m).
  pose proof (len_nonneg k).
  rewrite slice_ok by (rewrite ?len_app; lia). rewrite drop_z_app_len.
  replace (len l + len m - len l) with (len m) by lia. by rewrite take_z_app_len.
Qed.
End lists.

Lemma is_bytes_nil : is_bytes [].
Proof. constructor. Qed.
Lemma is_bytes_cons b l : is_bytes (b :: l) <-> u8 b /\ is_bytes l.
Proof. apply Forall_cons. Qed.
Lemma is_bytes_app l k : is_bytes (l ++ k) <-> is_bytes l /\ is_bytes k.
Proof. apply Forall_app. Qed.
Lemma is_bytes_take n l : is_bytes l -> is_bytes (take n l).
Proof. apply Forall_take. Qed.
Lemma is_bytes_drop n l : is_bytes l -> is_bytes (drop n l).
Proof. apply Forall_drop. Qed.
Lemma is_bytes_take_z n l : is_bytes l -> is_bytes (take_z n l).
Proof. apply Forall_take. Qed.
Lemma is_bytes_drop_z n l : is_bytes l -> is_bytes (drop_z n l).
Proof. apply Forall_drop. Qed.
Lemma is_bytes_replicate n b : u8 b -> is_bytes (replicate n b).
Proof. intros. by apply Forall_replicate. Qed.
Lemma is_bytes_be16 v : is_bytes (be16 v).
Proof. repeat constructor; width. Qed.
Lemma is_bytes_be32 v : is_bytes (be32 v).
Proof. repeat constructor; width. Qed.
Lemma is_bytes_be64 v : is_bytes (be64 v).
Proof. apply is_bytes_app; auto using is_bytes_be32. Qed.
#[export] Hint Resolve is_bytes_nil is_bytes_be16 is_bytes_be32 is_bytes_be64
  is_bytes_take is_bytes_drop is_bytes_take_z is_bytes_drop_z : width_db.

Create Rewrite HintDb len_db.
Lemma len_be16 v : len (be16 v) = 2.
Proof. done. Qed.
Lemma len_be32 v : len (be32 v) = 4.
Proof. done. Qed.
Lemma len_be64 v : len (be64 v) = 8.
Proof. done. Qed.
#[export] Hint Rewrite @len_nil @len_cons @len_app @len_replicate len_be16 len_be32 len_be64 : len_db.

(** [slen] normalises every list length in the goal and the context and calls [lia]. *)
Ltac slen :=
  autorewrite with len_db in *;
  repeat match goal with
  | |- context [len ?l] =>
      lazymatch goal with
      | _ : 0 <= len l |- _ => fail
      | _ => pose proof (len_nonneg l)
      end
  | _ : context [len ?l] |- _ =>
      lazymatch goal with
      | _ : 0 <= len l |- _ => fail
      | _ => pose proof (len_nonneg l)
      end
  end; lia.

(** Case analysis on the conditions and matches of the model's code. *)
Ltac cases_if :=
  repeat match goal with
  | |- context [bool_decide ?P] => destruct (bool_decide_reflect P)
  | |- context [decide ?P] => destruct (decide P)
  end.

(** ** Panic-freedom of the primitive reads *)

Lemma idx_wp {E A} (P : A -> Prop) (l : list A) i :
  Forall P l -> 0 <= i < len l -> outcome_ok P (idx (E := E) l i).
Proof.
  intros HP Hi. destruct (idx_ok (E := E) l i Hi) as (a & -> & Hl). simpl.
  by eapply Forall_lookup_1.
Qed.

Lemma slice_wp {E} (l : bytes) a b :
  is_bytes l -> 0 <= a <= b -> b <= len l ->
  outcome_ok (fun s => is_bytes s /\ len s = b - a) (slice (E := E) l a b).
Proof.
  intros Hl Ha Hb. rewrite slice_ok by done. simpl. split; [auto with width_db|].
  rewrite len_take_z, len_drop_z by lia. lia.
Qed.

Lemma from_be32_range a b c d : u8 a -> u8 b -> u8 c -> u8 d -> u32 (from_be32 a b c d).
Proof. intros. rewrite from_be32_arith by done. width. Qed.
Lemma from_be16_range a b : u8 a -> u8 b -> u16 (from_be16 a b).
Proof. intros. rewrite from_be16_arith by done. width. Qed.

(** ** [slice::chunks(n)]

    The pieces of [n] elements of a slice, the last one possibly shorter; the
    length of the slice bounds the number of pieces. *)

Fixpoint chunks_go {A} (fuel : nat) (n : Z) (l : list A) : list (list A) :=
  match fuel with
  | O => []
  | S fuel =>
      if is_empty l then [] else take_z n l :: chunks_go fuel n (drop_z n l)
  end.
Definition chunks {A} (n : Z) (l : list A) : list (list A) := chunks_go (length l) n l.

Lemma chunks_go_spec {A} fuel n : forall l : list A, 0 < n -> (length l <= fuel)%nat ->
  concat (chunks_go fuel n l) = l /\
  Forall (fun c => 0 < len c <= n) (chunks_go fuel n l).
Proof.
  induction fuel as [|fuel IH]; intros l Hn Hl; simpl.
  { destruct l; simpl in *; [auto|lia]. }
  destruct l as [|a l]; simpl is_empty; cbv iota; [auto|].
  destruct (IH (drop_z n (a :: l)) Hn) as [IH1 IH2].
  { unfold drop_z. rewrite length_drop. cbn [length] in *. lia. }
  split.
  - simpl. rewrite IH1. apply take_drop_z.
  - constructor; [|done]. rewrite len_take_z by lia. slen.
Qed.

Lemma chunks_concat {A} n (l : list A) : 0 < n -> concat (chunks n l) = l.
Proof. intros. by apply chunks_go_spec. Qed.
Lemma chunks_bound {A} n (l : list A) :
  0 < n -> Forall (fun c => 0 < len c <= n) (chunks n l).
Proof. intros. by apply chunks_go_spec. Qed.
