(* ===== verification/Text.v ===== *)
(** * The parts of [str] and [String] the program uses

    A Rust [String] is its UTF-8 bytes, and every pattern the program searches
    for is ASCII, so the byte-level functions below agree with the character
    level ones. *)
From S2P Require Import Prelude.

(** [s.split(c)] for an ASCII [c]. *)
Fixpoint split_on (c : Z) (s : bytes) : list bytes :=
  match s with
  | [] => [[]]
  | b :: s =>
      if b =? c then [] :: split_on c s
      else match split_on c s with
           | [] => [[b]]
           | p :: ps => (b :: p) :: ps
           end
  end.

(** The UTF-8 encodings of the characters with the White_Space property. *)
Definition white_space : list bytes :=
  ((fun b => [b]) <$> [9; 10; 11; 12; 13; 32]) ++
  [[0xC2; 0x85]; [0xC2; 0xA0]; [0xE1; 0x9A; 0x80]] ++
  ((fun b => [0xE2; 0x80; b]) <$>
     [0x80; 0x81; 0x82; 0x83; 0x84; 0x85; 0x86; 0x87; 0x88; 0x89; 0x8A; 0xA8; 0xA9; 0xAF]) ++
  [[0xE2; 0x81; 0x9F]; [0xE3; 0x80; 0x80]].

Fixpoint strip_prefix (p s : bytes) : option bytes :=
  match p, s with
  | [], _ => Some s
  | a :: p, b :: s => if a =? b then strip_prefix p s else None
  | _ :: _, [] => None
  end.

(** Strip one of the given prefixes repeatedly; every one is non-empty, so the
    length of the string bounds the rounds. *)
Fixpoint strip_any (pats : list bytes) (s : bytes) : option bytes :=
  match pats with
  | [] => None
  | p :: pats => match strip_prefix p s with Some s' => Some s' | None => strip_any pats s end
  end.
Fixpoint trim_loop (fuel : nat) (pats : list bytes) (s : bytes) : bytes :=
  match fuel with
  | O => s
  | S fuel => match strip_any pats s with Some s' => trim_loop fuel pats s' | None => s end
  end.
Definition trim (s : bytes) : bytes :=
  let s := trim_loop (length s) white_space s in
  reverse (trim_loop (length s) (reverse <$> white_space) (reverse s)).

(** [s.parse::<u8>()] and [s.parse::<u16>()]: an optional [+], then digits, and
    an error on overflow at any digit. *)
Fixpoint parse_digits (max : Z) (acc : Z) (s : bytes) : option Z :=
  match s with
  | [] => Some acc
  | b :: s =>
      if (48 <=? b) && (b <=? 57) then
        let acc := acc * 10 + (b - 48) in
        if max <? acc then None else parse_digits max acc s
      else None
  end.
Definition parse_uint (max : Z) (s : bytes) : option Z :=
  match s with
  | [] => None
  | [43] => None
  | 43 :: s => parse_digits max 0 s
  | _ => parse_digits max 0 s
  end.

(** [s.split_once(c)] and [s.rsplit_once(c)] for an ASCII [c]. *)
Fixpoint split_once (c : Z) (s : bytes) : option (bytes * bytes) :=
  match s with
  | [] => None
  | b :: s =>
      if b =? c then Some ([], s)
      else match split_once c s with
           | Some (l, r) => Some (b :: l, r)
           | None => None
           end
  end.
Definition rsplit_once (c : Z) (s : bytes) : option (bytes * bytes) :=
  match split_once c (reverse s) with
  | Some (r, l) => Some (reverse l, reverse r)
  | None => None
  end.

Definition strip_suffix (p s : bytes) : option bytes :=
  reverse <$> strip_prefix (reverse p) (reverse s).
Definition starts_with (p s : bytes) : bool := bool_decide (is_Some (strip_prefix p s)).
Definition ends_with (p s : bytes) : bool := bool_decide (is_Some (strip_suffix p s)).

(** [s.contains(p)]. *)
Fixpoint contains (p s : bytes) : bool :=
  starts_with p s || match s with [] => false | _ :: s => contains p s end.

(** [trim_start_matches], [trim_end_matches] and [trim_matches] of one ASCII
    character. *)
Fixpoint trim_start_matches (c : Z) (s : bytes) : bytes :=
  match s with
  | b :: s' => if b =? c then trim_start_matches c s' else s
  | [] => []
  end.
Definition trim_end_matches (c : Z) (s : bytes) : bytes :=
  reverse (trim_start_matches c (reverse s)).
Definition trim_matches (c : Z) (s : bytes) : bytes :=
  trim_end_matches c (trim_start_matches c s).

Definition ascii_lower (b : Z) : Z := if (65 <=? b) && (b <=? 90) then b + 32 else b.
Definition to_ascii_lowercase (s : bytes) : bytes := ascii_lower <$> s.
Definition eq_ignore_ascii_case (s t : bytes) : bool :=
  bool_decide (to_ascii_lowercase s = to_ascii_lowercase t).

(** [parts.join(sep)]. *)
Fixpoint join_with (sep : bytes) (parts : list bytes) : bytes :=
  match parts with
  | [] => []
  | [p] => p
  | p :: ps => p ++ sep ++ join_with sep ps
  end.

(** The decimal [Display] of an unsigned integer; a 64-bit one has at most 20
    digits. *)
Fixpoint dec_digits (fuel : nat) (n : Z) (acc : bytes) : bytes :=
  match fuel with
  | O => acc
  | S fuel =>
      let acc := (48 + n mod 10) :: acc in
      if n <? 10 then acc else dec_digits fuel (n / 10) acc
  end.
Definition show_dec (n : Z) : bytes := dec_digits 20 n [].

(** ** Specifications *)

Lemma text_strip_prefix p : forall s r, strip_prefix p s = Some r <-> s = p ++ r.
Proof.
  induction p as [|a p IH]; intros [|b s] r; simpl; try naive_solver.
  destruct (Z.eqb_spec a b); naive_solver.
Qed.
Lemma strip_suffix_Some p s r : strip_suffix p s = Some r <-> s = r ++ p.
Proof.
  unfold strip_suffix. rewrite fmap_Some. split.
  - intros (x & Hx & ->). apply text_strip_prefix in Hx.
    apply (f_equal reverse) in Hx. by rewrite reverse_involutive, reverse_app, reverse_involutive in Hx.
  - intros ->. exists (reverse r). rewrite reverse_involutive. split; [|done].
    apply text_strip_prefix. by rewrite reverse_app.
Qed.
Lemma starts_with_iff p s : starts_with p s = true <-> exists r, s = p ++ r.
Proof.
  unfold starts_with. rewrite bool_decide_eq_true. unfold is_Some. by setoid_rewrite text_strip_prefix.
Qed.
Lemma ends_with_iff p s : ends_with p s = true <-> exists r, s = r ++ p.
Proof.
  unfold ends_with. rewrite bool_decide_eq_true. unfold is_Some. by setoid_rewrite strip_suffix_Some.
Qed.
Lemma contains_iff p s : contains p s = true <-> exists l r, s = l ++ p ++ r.
Proof.
  induction s as [|b s IH]; cbn [contains]; rewrite orb_true_iff, starts_with_iff.
  - split; [intros [[r ->]|[=]]; by exists [], r|].
    intros (l & r & E). left. exists r. symmetry in E. apply app_nil in E as [-> E]. done.
  - rewrite IH. split.
    + intros [[r ->]|(l & r & ->)]; [by exists [], r|by exists (b :: l), r].
    + intros ([|x l] & r & [= E]); [left; by exists r|right; naive_solver].
Qed.

Lemma split_once_app c l r : c ∉ l -> split_once c (l ++ c :: r) = Some (l, r).
Proof.
  induction l as [|b l IH]; intros Hl; simpl; [by rewrite Z.eqb_refl|].
  apply not_elem_of_cons in Hl as [Hb Hl].
  destruct (Z.eqb_spec b c); [congruence|]. by rewrite IH.
Qed.
Lemma split_once_inv c s : forall l r, split_once c s = Some (l, r) -> s = l ++ c :: r /\ c ∉ l.
Proof.
  induction s as [|b s IH]; intros l r; simpl; [done|].
  destruct (Z.eqb_spec b c) as [->|Hb].
  - intros [= <- <-]. split; [done|apply not_elem_of_nil].
  - destruct (split_once c s) as [[l' r']|]; [|done]. intros [= <- <-].
    destruct (IH _ _ eq_refl) as [-> Hl]. split; [done|]. apply not_elem_of_cons. done.
Qed.
Lemma rsplit_once_app c l r : c ∉ r -> rsplit_once c (l ++ c :: r) = Some (l, r).
Proof.
  intros Hr. unfold rsplit_once. rewrite reverse_app, reverse_cons, <- app_assoc. simpl.
  rewrite split_once_app by (by rewrite elem_of_reverse). by rewrite !reverse_involutive.
Qed.
Lemma rsplit_once_inv c s l r : rsplit_once c s = Some (l, r) -> s = l ++ c :: r /\ c ∉ r.
Proof.
  unfold rsplit_once. destruct (split_once c (reverse s)) as [[r' l']|] eqn:E; [|done].
  intros [= <- <-]. apply split_once_inv in E as [E Hr].
  apply (f_equal reverse) in E. rewrite reverse_involutive, reverse_app, reverse_cons, <- app_assoc in E.
  split; [done|]. by rewrite elem_of_reverse.
Qed.

Lemma trim_start_matches_id c b s : b <> c -> trim_start_matches c (b :: s) = b :: s.
Proof. simpl. by destruct (Z.eqb_spec b c). Qed.
Lemma trim_start_matches_decomp c s :
  exists k, s = replicate k c ++ trim_start_matches c s /\ head (trim_start_matches c s) <> Some c.
Proof.
  induction s as [|b s (k & E & Hd)]; simpl; [by exists O|].
  destruct (Z.eqb_spec b c) as [->|Hb].
  - exists (S k). split; [simpl; congruence|done].
  - exists O. split; [done|simpl; congruence].
Qed.
Lemma trim_end_matches_decomp c s :
  exists k, s = trim_end_matches c s ++ replicate k c /\ last (trim_end_matches c s) <> Some c.
Proof.
  unfold trim_end_matches. destruct (trim_start_matches_decomp c (reverse s)) as (k & E & Hd).
  exists k. split.
  - apply (f_equal reverse) in E. rewrite reverse_involutive, reverse_app in E.
    rewrite E at 1. f_equal. by rewrite reverse_replicate.
  - by rewrite last_reverse.
Qed.
Lemma trim_end_matches_id c s : last s <> Some c -> trim_end_matches c s = s.
Proof.
  intros H. unfold trim_end_matches. rewrite <- (reverse_involutive s) in H at 1.
  rewrite last_reverse in H. destruct (reverse s) as [|b t] eqn:E.
  - apply (f_equal reverse) in E. rewrite reverse_involutive in E. by subst.
  - rewrite trim_start_matches_id by (simpl in H; congruence). by rewrite <- E, reverse_involutive.
Qed.

Lemma ascii_lower_idem b : ascii_lower (ascii_lower b) = ascii_lower b.
Proof. unfold ascii_lower. repeat case_match; lia. Qed.
Lemma to_ascii_lowercase_idem s : to_ascii_lowercase (to_ascii_lowercase s) = to_ascii_lowercase s.
Proof.
  unfold to_ascii_lowercase. rewrite <- list_fmap_compose. apply list_fmap_ext.
  intros ???. apply ascii_lower_idem.
Qed.
(** The decimal printer and parser agree. *)
Lemma parse_digits_app max s : forall acc n t,
  parse_digits max acc s = Some n -> parse_digits max acc (s ++ t) = parse_digits max n t.
Proof.
  induction s as [|b s IH]; intros acc n t; simpl; [by intros [= ->]|].
  repeat case_match; try done. apply IH.
Qed.
Lemma dec_digits_parse max fuel : forall n acc,
  0 <= n <= max -> n < 10 ^ Z.of_nat fuel ->
  parse_digits max 0 (dec_digits fuel n acc) = parse_digits max n acc.
Proof.
  induction fuel as [|fuel IH]; intros n acc Hn Hf; [simpl in Hf; by replace n with 0 by lia|].
  cbn [dec_digits]. rewrite Nat2Z.inj_succ, Z.pow_succ_r in Hf by lia.
  pose proof (Z.div_mod n 10 ltac:(lia)). pose proof (Z.mod_pos_bound n 10 ltac:(lia)).
  assert (Hd : forall q acc, q * 10 + n mod 10 = n -> 0 <= q ->
      parse_digits max q ((48 + n mod 10) :: acc) = parse_digits max n acc).
  { intros q acc' Hq Hq0. cbn [parse_digits].
    replace (48 <=? 48 + n mod 10) with true by lia. replace (48 + n mod 10 <=? 57) with true by lia.
    cbn [andb]. replace (q * 10 + (48 + n mod 10 - 48)) with n by lia.
    by replace (max <? n) with false by lia. }
  destruct (Z.ltb_spec n 10).
  - apply Hd; [rewrite Z.mod_small; lia|lia].
  - rewrite IH by lia. apply Hd; lia.
Qed.

Definition digit (b : Z) : Prop := 48 <= b <= 57.

Lemma dec_digits_digits fuel : forall n acc,
  0 <= n -> Forall digit acc -> Forall digit (dec_digits fuel n acc).
Proof.
  induction fuel as [|fuel IH]; intros n acc Hn Hacc; [done|]. cbn [dec_digits].
  pose proof (Z.mod_pos_bound n 10 ltac:(lia)).
  assert (Forall digit ((48 + n mod 10) :: acc)) by (constructor; [unfold digit; lia|done]).
  case_match; [done|]. apply IH; [apply Z.div_pos; lia|done].
Qed.
Lemma show_dec_digits n : 0 <= n -> Forall digit (show_dec n).
Proof. intros Hn. apply dec_digits_digits; [done|constructor]. Qed.
Lemma dec_digits_ne fuel : forall n acc, acc <> [] \/ fuel <> O -> dec_digits fuel n acc <> [].
Proof.
  induction fuel as [|fuel IH]; intros n acc Ha; [naive_solver|]. cbn [dec_digits].
  case_match; [done|]. apply IH. by left.
Qed.
Lemma show_dec_ne n : show_dec n <> [].
Proof. apply dec_digits_ne. by right. Qed.

Lemma parse_uint_no_plus max b s : b <> 43 -> parse_uint max (b :: s) = parse_digits max 0 (b :: s).
Proof.
  intros Hb. unfold parse_uint. destruct b as [|p|p]; [done| |done].
  do 6 (destruct p as [p|p|]; try done).
Qed.
Lemma parse_uint_digits max s : Forall digit s -> s <> [] -> parse_uint max s = parse_digits max 0 s.
Proof.
  intros Hs Hne. destruct s as [|b s]; [done|]. apply Forall_cons in Hs as [Hb _].
  apply parse_uint_no_plus. unfold digit in Hb. lia.
Qed.
(** Printing an unsigned integer and parsing it gives it back. *)
Lemma parse_uint_show max n : 0 <= n <= max -> n < 10 ^ 20 -> parse_uint max (show_dec n) = Some n.
Proof.
  intros Hn Hm. rewrite parse_uint_digits; [|apply show_dec_digits; lia|apply show_dec_ne].
  unfold show_dec. by rewrite dec_digits_parse.
Qed.
Lemma show_dec_inj n m : u64 n -> u64 m -> show_dec n = show_dec m -> n = m.
Proof.
  unfold u64. intros Hn Hm E.
  pose proof (parse_uint_show (2 ^ 64) n ltac:(lia) ltac:(lia)) as H1.
  pose proof (parse_uint_show (2 ^ 64) m ltac:(lia) ltac:(lia)) as H2. rewrite E in H1. congruence.
Qed.

(** A parsed number is within its type. *)
Lemma parse_digits_range max s : forall acc n,
  0 <= acc <= max -> parse_digits max acc s = Some n -> 0 <= n <= max.
Proof.
  induction s as [|b s IH]; intros acc n Ha; simpl; [by intros [= <-]|].
  repeat (case_match; try done). apply IH. lia.
Qed.
Lemma parse_uint_range max s n : 0 <= max -> parse_uint max s = Some n -> 0 <= n <= max.
Proof.
  intros Hm. unfold parse_uint. repeat (case_match; try done); subst;
    intros H; by apply parse_digits_range in H.
Qed.

(** [trim] leaves text without white space alone. *)
Definition visible (b : Z) : Prop := 33 <= b < 127.

Lemma strip_any_visible pats b s :
  Forall (fun p => exists a q, p = a :: q /\ a <> b) pats -> strip_any pats (b :: s) = None.
Proof.
  induction 1 as [|p pats (a & q & -> & Hab) _ IH]; [done|]. simpl.
  by destruct (Z.eqb_spec a b).
Qed.
Lemma trim_loop_visible fuel pats s :
  (forall b, visible b -> Forall (fun p => exists a q, p = a :: q /\ a <> b) pats) ->
  Forall visible s -> trim_loop fuel pats s = s.
Proof.
  intros Hp Hs. destruct fuel as [|fuel]; [done|]. cbn [trim_loop].
  destruct Hs as [|b s Hb _]; [|by rewrite strip_any_visible by auto].
  assert (strip_any pats [] = None) as ->; [|done].
  specialize (Hp 33 ltac:(unfold visible; lia)). induction Hp as [|p pats (a & q & -> & _) _ IH]; done.
Qed.
Lemma trim_visible s : Forall visible s -> trim s = s.
Proof.
  intros Hs. unfold trim. rewrite (trim_loop_visible _ white_space) by
    (try done; intros b Hb; unfold visible in Hb; repeat constructor; eexists _, _; split; try done; lia).
  rewrite trim_loop_visible, reverse_involutive; [done| |by rewrite Forall_reverse].
  intros b Hb. unfold visible in Hb. repeat constructor; eexists _, _; split; try done; lia.
Qed.
