(* ===== verification/Frame.v ===== *)
(** * HTTP/2 frames (lkh2/src/frame.rs)

    The ten frame types, their flag byte, the 9-byte frame header with its
    parser and encoder, and the frame payload structures.  The last part states
    which frames are well formed (every field in its wire width) and proves the
    header round trip the codec is built on. *)
From S2P Require Import Prelude.

Definition FRAME_HEADER_SIZE : Z := 9.

(** ** Frame type *)

Inductive H2FrameType : Type :=
| TData | THeaders | TPriority | TRstStream | TSettings
| TPushPromise | TPing | TGoAway | TWindowUpdate | TContinuation.

#[export] Instance H2FrameType_eq_dec : EqDecision H2FrameType.
Proof. solve_decision. Defined.

Module FrameType.
Definition from_u8 (value : Z) : option H2FrameType :=
  match value with
  | 0 => Some TData
  | 1 => Some THeaders
  | 2 => Some TPriority
  | 3 => Some TRstStream
  | 4 => Some TSettings
  | 5 => Some TPushPromise
  | 6 => Some TPing
  | 7 => Some TGoAway
  | 8 => Some TWindowUpdate
  | 9 => Some TContinuation
  | _ => None
  end.

Definition as_u8 (t : H2FrameType) : Z :=
  match t with
  | TData => 0
  | THeaders => 1
  | TPriority => 2
  | TRstStream => 3
  | TSettings => 4
  | TPushPromise => 5
  | TPing => 6
  | TGoAway => 7
  | TWindowUpdate => 8
  | TContinuation => 9
  end.

Definition display (t : H2FrameType) : string :=
  match t with
  | TData => "DATA"
  | THeaders => "HEADERS"
  | TPriority => "PRIORITY"
  | TRstStream => "RST_STREAM"
  | TSettings => "SETTINGS"
  | TPushPromise => "PUSH_PROMISE"
  | TPing => "PING"
  | TGoAway => "GOAWAY"
  | TWindowUpdate => "WINDOW_UPDATE"
  | TContinuation => "CONTINUATION"
  end.
End FrameType.

(** ** Frame flags: [H2FrameFlags] is a newtype over the flag byte *)

Module Flags.
Definition NONE : Z := 0.
Definition END_STREAM : Z := 1.
Definition END_HEADERS : Z := 4.
Definition PADDED : Z := 8.
Definition PRIORITY : Z := 32.
Definition ACK : Z := 1.

Definition is_end_stream (f : Z) : bool := negb (Z.land f END_STREAM =? 0).
Definition is_end_headers (f : Z) : bool := negb (Z.land f END_HEADERS =? 0).
Definition is_padded (f : Z) : bool := negb (Z.land f PADDED =? 0).
Definition is_priority (f : Z) : bool := negb (Z.land f PRIORITY =? 0).
Definition is_ack (f : Z) : bool := negb (Z.land f ACK =? 0).

Definition set (f flag : Z) : Z := Z.lor f flag.
(** [self.0 &= !flag] at width 8. *)
Definition clear (f flag : Z) : Z := Z.land f (255 - flag).
End Flags.

(** ** Frame header *)

Record H2FrameHeader : Type := mkHeader {
  h_length : Z;
  h_type : H2FrameType;
  h_flags : Z;
  h_stream_id : Z;
}.

Module Header.
Definition new (t : H2FrameType) (flags stream_id length : Z) : H2FrameHeader :=
  {| h_length := length; h_type := t; h_flags := flags;
     h_stream_id := Z.land stream_id 0x7FFFFFFF |}.

(** [parse] of a [&[u8; 9]]. *)
Definition parse (d0 d1 d2 d3 d4 d5 d6 d7 d8 : Z) : option H2FrameHeader :=
  let length := Z.lor (Z.lor (d0 ≪ 16) (d1 ≪ 8)) d2 in
  t ← FrameType.from_u8 d3;
  let flags := d4 in
  let stream_id := Z.lor (Z.lor (Z.lor (d5 ≪ 24) (d6 ≪ 16)) (d7 ≪ 8)) d8 in
  let stream_id := Z.land stream_id 0x7FFFFFFF in
  Some {| h_length := length; h_type := t; h_flags := flags;
          h_stream_id := stream_id |}.

Definition encode (h : H2FrameHeader) : bytes :=
  [ as_u8 (h_length h ≫ 16); as_u8 (h_length h ≫ 8); as_u8 (h_length h);
    FrameType.as_u8 (h_type h); h_flags h;
    as_u8 (h_stream_id h ≫ 24); as_u8 (h_stream_id h ≫ 16);
    as_u8 (h_stream_id h ≫ 8); as_u8 (h_stream_id h) ].

Definition total_size (h : H2FrameHeader) : Z := FRAME_HEADER_SIZE + h_length h.
End Header.

#[global] Arguments Header.new : simpl never.
#[global] Arguments Header.encode : simpl never.

(** ** Frame payloads *)

Record DataFrame : Type := mkData {
  df_stream_id : Z; df_data : bytes; df_end_stream : bool; df_padding : option Z }.

Record PrioritySpec : Type := mkPrio {
  ps_exclusive : bool; ps_stream_dependency : Z; ps_weight : Z }.

Record HeadersFrame : Type := mkHeaders {
  hf_stream_id : Z; hf_header_block : bytes; hf_end_stream : bool;
  hf_end_headers : bool; hf_priority : option PrioritySpec; hf_padding : option Z }.

Record PriorityFrame : Type := mkPriority {
  pf_stream_id : Z; pf_priority : PrioritySpec }.

Record RstStreamFrame : Type := mkRst { rf_stream_id : Z; rf_error_code : Z }.

Record SettingsParameter : Type := mkParam { sp_id : Z; sp_value : Z }.

Record SettingsFrame : Type := mkSettings {
  sf_ack : bool; sf_settings : list SettingsParameter }.

Record PushPromiseFrame : Type := mkPush {
  pp_stream_id : Z; pp_promised_stream_id : Z; pp_header_block : bytes;
  pp_end_headers : bool; pp_padding : option Z }.

Record PingFrame : Type := mkPing { pi_ack : bool; pi_data : bytes }.

Record GoAwayFrame : Type := mkGoAway {
  ga_last_stream_id : Z; ga_error_code : Z; ga_debug_data : bytes }.

Record WindowUpdateFrame : Type := mkWindowUpdate {
  wu_stream_id : Z; wu_increment : Z }.

Record ContinuationFrame : Type := mkContinuation {
  cf_stream_id : Z; cf_header_block : bytes; cf_end_headers : bool }.

Record UnknownFrame : Type := mkUnknown {
  uf_frame_type : Z; uf_stream_id : Z; uf_flags : Z; uf_payload : bytes }.

Inductive H2Frame : Type :=
| FData (f : DataFrame)
| FHeaders (f : HeadersFrame)
| FPriority (f : PriorityFrame)
| FRstStream (f : RstStreamFrame)
| FSettings (f : SettingsFrame)
| FPushPromise (f : PushPromiseFrame)
| FPing (f : PingFrame)
| FGoAway (f : GoAwayFrame)
| FWindowUpdate (f : WindowUpdateFrame)
| FContinuation (f : ContinuationFrame)
| FUnknown (f : UnknownFrame).

(** [H2FrameType::from_u8(t).unwrap_or(H2FrameType::Data)]. *)
Definition type_or_data (t : Z) : H2FrameType := default TData (FrameType.from_u8 t).

Module Frame.
Definition stream_id (f : H2Frame) : Z :=
  match f with
  | FData f => df_stream_id f
  | FHeaders f => hf_stream_id f
  | FPriority f => pf_stream_id f
  | FRstStream f => rf_stream_id f
  | FSettings _ => 0
  | FPushPromise f => pp_stream_id f
  | FPing _ => 0
  | FGoAway _ => 0
  | FWindowUpdate f => wu_stream_id f
  | FContinuation f => cf_stream_id f
  | FUnknown f => uf_stream_id f
  end.

Definition frame_type (f : H2Frame) : H2FrameType :=
  match f with
  | FData _ => TData
  | FHeaders _ => THeaders
  | FPriority _ => TPriority
  | FRstStream _ => TRstStream
  | FSettings _ => TSettings
  | FPushPromise _ => TPushPromise
  | FPing _ => TPing
  | FGoAway _ => TGoAway
  | FWindowUpdate _ => TWindowUpdate
  | FContinuation _ => TContinuation
  | FUnknown f => type_or_data (uf_frame_type f)
  end.

Definition is_end_stream (f : H2Frame) : bool :=
  match f with
  | FData f => df_end_stream f
  | FHeaders f => hf_end_stream f
  | _ => false
  end.
End Frame.

(** ** SETTINGS identifiers *)

Inductive SettingsId : Type :=
| HeaderTableSize | EnablePush | MaxConcurrentStreams | InitialWindowSize
| MaxFrameSize | MaxHeaderListSize | EnableConnectProtocol | NoRfc7540Priorities.

Module SettingsIdM.
Definition from_u16 (value : Z) : option SettingsId :=
  match value with
  | 1 => Some HeaderTableSize
  | 2 => Some EnablePush
  | 3 => Some MaxConcurrentStreams
  | 4 => Some InitialWindowSize
  | 5 => Some MaxFrameSize
  | 6 => Some MaxHeaderListSize
  | 8 => Some EnableConnectProtocol
  | 9 => Some NoRfc7540Priorities
  | _ => None
  end.
End SettingsIdM.

(** ** Lemmas *)

Lemma from_u8_as_u8 t : FrameType.from_u8 (FrameType.as_u8 t) = Some t.
Proof. by destruct t. Qed.

Lemma as_u8_from_u8 v t : FrameType.from_u8 v = Some t -> FrameType.as_u8 t = v.
Proof.
  unfold FrameType.from_u8. intros H.
  repeat match type of H with
  | match ?x with _ => _ end = _ => destruct x; try discriminate H
  end; by injection H as <-.
Qed.

(** Setting a flag bit is read back by the corresponding test and leaves the
    tests for the other bits alone.  All flag bits are powers of two. *)
Lemma flag_test f n :
  0 <= n -> negb (Z.land f (2 ^ n) =? 0) = Z.testbit f n.
Proof.
  intros Hn. rewrite land_bit_pow2 by done.
  assert (0 < 2 ^ n) by (apply Z.pow_pos_nonneg; lia).
  destruct (Z.testbit f n); [|done]. by destruct (Z.eqb_spec (2 ^ n) 0); [lia|].
Qed.

Lemma header_length_arith d0 d1 d2 :
  u8 d0 -> u8 d1 -> u8 d2 ->
  Z.lor (Z.lor (d0 ≪ 16) (d1 ≪ 8)) d2 = d0 * 65536 + d1 * 256 + d2.
Proof.
  intros H0 H1 H2. rewrite !shiftl_mul by done.
  change (2 ^ 16) with 65536. change (2 ^ 8) with 256.
  rewrite (lor_add_aligned (d0 * 65536) (d1 * 256) 16) by (change (2 ^ 16) with 65536; width).
  rewrite (lor_add_aligned _ d2 8) by (change (2 ^ 8) with 256; width). lia.
Qed.

(** The 24-bit length field survives encoding. *)
Lemma header_length_roundtrip n : u24 n ->
  Z.lor (Z.lor (as_u8 (n ≫ 16) ≪ 16) (as_u8 (n ≫ 8) ≪ 8)) (as_u8 n) = n.
Proof.
  intros Hn. rewrite header_length_arith by width.
  rewrite !shiftr_div by done. change (2 ^ 16) with 65536. change (2 ^ 8) with 256. width.
Qed.

Definition parse_list (l : bytes) : option H2FrameHeader :=
  match l with
  | [d0; d1; d2; d3; d4; d5; d6; d7; d8] => Header.parse d0 d1 d2 d3 d4 d5 d6 d7 d8
  | _ => None
  end.

Definition header_wf (h : H2FrameHeader) : Prop :=
  u24 (h_length h) /\ u8 (h_flags h) /\ u31 (h_stream_id h).

#[export] Instance header_wf_dec h : Decision (header_wf h).
Proof. unfold header_wf; apply _. Defined.

Lemma header_roundtrip h : header_wf h -> parse_list (Header.encode h) = Some h.
Proof.
  intros (Hl & Hf & Hs). unfold parse_list, Header.encode, Header.parse.
  rewrite from_u8_as_u8. simpl.
  rewrite header_length_roundtrip by done.
  change (Z.lor (Z.lor (Z.lor (?a ≪ 24) (?b ≪ 16)) (?c ≪ 8)) ?d) with (from_be32 a b c d).
  rewrite from_be32_be32 by width. rewrite land_low_31.
  destruct h as [l t f s]; simpl in *. do 2 f_equal. width.
Qed.

Lemma is_bytes_header_encode h : u8 (h_flags h) -> is_bytes (Header.encode h).
Proof.
  intros. repeat (apply is_bytes_cons; split); try apply is_bytes_nil; try width.
  destruct (h_type h); simpl; width.
Qed.

Lemma len_header_encode h : len (Header.encode h) = 9.
Proof. done. Qed.
#[export] Hint Rewrite len_header_encode : len_db.
