(* ===== verification/Codec.v ===== *)
(** * HTTP/2 frame codec (lkh2/src/codec.rs)

    [H2Codec::decode] splits one frame off an input buffer and
    [H2Codec::encode] appends one to an output buffer.  A [BytesMut] is the
    list of its readable bytes; [decode] returns the buffer left behind. *)
From S2P Require Import Prelude Frame.

(** ** Errors and results *)

Inductive CodecError : Type :=
| InvalidFormat (msg : string)
| TooLarge (size max : Z).

Definition codec_error_display (e : CodecError) : string :=
  match e with
  | InvalidFormat msg => "invalid frame: " +:+ msg
  | TooLarge size max =>
      "frame too large: " +:+ pretty size +:+ " bytes (max " +:+ pretty max +:+ ")"
  end.

Inductive DecodeResult : Type :=
| RFrame (f : H2Frame)
| NeedMoreData (min_bytes : Z)
| DError (e : CodecError).

Definition DEFAULT_MAX_FRAME_SIZE : Z := 16384.
Definition MAX_FRAME_SIZE_LIMIT : Z := 16777215.

Record H2Codec : Type := mkCodec { max_frame_size : Z }.

Definition codec_new : H2Codec := {| max_frame_size := DEFAULT_MAX_FRAME_SIZE |}.

(** [size.clamp(DEFAULT_MAX_FRAME_SIZE, MAX_FRAME_SIZE_LIMIT)]. *)
Definition set_max_frame_size (c : H2Codec) (size : Z) : H2Codec :=
  {| max_frame_size := Z.max DEFAULT_MAX_FRAME_SIZE (Z.min size MAX_FRAME_SIZE_LIMIT) |}.

Abbreviation CResult := (Outcome CodecError H2Frame).

(** [u32::from_be_bytes([p[o], p[o+1], p[o+2], p[o+3]])]. *)
Definition read_u32 (p : bytes) (o : Z) : Outcome CodecError Z :=
  a ← idx p o; b ← idx p (o + 1); c ← idx p (o + 2); d ← idx p (o + 3);
  Ok (from_be32 a b c d).

#[global] Arguments read_u32 : simpl never.

Definition mask31 (v : Z) : Z := Z.land v 0x7FFFFFFF.

(** ** Decoding, one function per frame type *)

Definition decode_data (h : H2FrameHeader) (payload : bytes) : CResult :=
  if h_stream_id h =? 0 then Err (InvalidFormat "DATA frame with stream ID 0") else
  '(data, padding) ←
    (if Flags.is_padded (h_flags h) then
       if is_empty payload then Err (InvalidFormat "missing pad length") else
       pad_len ← idx payload 0;
       if len payload <=? pad_len then Err (InvalidFormat "padding too large") else
       data ← slice payload 1 (len payload - pad_len);
       Ok (data, Some pad_len)
     else Ok (payload, None));
  Ok (FData {| df_stream_id := h_stream_id h; df_data := data;
               df_end_stream := Flags.is_end_stream (h_flags h);
               df_padding := padding |}).

(** The pad-length prologue shared by HEADERS and PUSH_PROMISE. *)
Definition read_padding (h : H2FrameHeader) (payload : bytes)
    : Outcome CodecError (Z * option Z) :=
  if Flags.is_padded (h_flags h) then
    if is_empty payload then Err (InvalidFormat "missing pad length") else
    p ← idx payload 0; Ok (1, Some p)
  else Ok (0, None).

Definition decode_headers (h : H2FrameHeader) (payload : bytes) : CResult :=
  if h_stream_id h =? 0 then Err (InvalidFormat "HEADERS frame with stream ID 0") else
  '(offset, padding) ← read_padding h payload;
  '(offset, priority) ←
    (if Flags.is_priority (h_flags h) then
       if len payload <? offset + 5
       then Err (InvalidFormat "HEADERS: missing priority data") else
       dep ← read_u32 payload offset;
       weight ← idx payload (offset + 4);
       Ok (offset + 5,
           Some {| ps_exclusive := negb (Z.land dep 0x80000000 =? 0);
                   ps_stream_dependency := mask31 dep; ps_weight := weight |})
     else Ok (offset, None));
  let pad_len := default 0 padding in
  if len payload <? offset + pad_len then Err (InvalidFormat "invalid padding") else
  header_block ← slice payload offset (len payload - pad_len);
  Ok (FHeaders {| hf_stream_id := h_stream_id h; hf_header_block := header_block;
                  hf_end_stream := Flags.is_end_stream (h_flags h);
                  hf_end_headers := Flags.is_end_headers (h_flags h);
                  hf_priority := priority; hf_padding := padding |}).

Definition decode_priority (h : H2FrameHeader) (payload : bytes) : CResult :=
  if h_stream_id h =? 0 then Err (InvalidFormat "PRIORITY frame with stream ID 0") else
  if negb (len payload =? 5) then
    Err (InvalidFormat ("PRIORITY frame must be 5 bytes, got " +:+ pretty (len payload))) else
  dep ← read_u32 payload 0;
  weight ← idx payload 4;
  Ok (FPriority {| pf_stream_id := h_stream_id h;
                   pf_priority :=
                     {| ps_exclusive := negb (Z.land dep 0x80000000 =? 0);
                        ps_stream_dependency := mask31 dep; ps_weight := weight |} |}).

Definition decode_rst_stream (h : H2FrameHeader) (payload : bytes) : CResult :=
  if h_stream_id h =? 0 then Err (InvalidFormat "RST_STREAM frame with stream ID 0") else
  if negb (len payload =? 4) then
    Err (InvalidFormat ("RST_STREAM must be 4 bytes, got " +:+ pretty (len payload))) else
  error_code ← read_u32 payload 0;
  Ok (FRstStream {| rf_stream_id := h_stream_id h; rf_error_code := error_code |}).

(** The [while offset < payload.len()] loop; [fuel] bounds its iterations and
    running out of it counts as a panic (which C2 excludes). *)
Fixpoint settings_loop (fuel : nat) (payload : bytes) (offset : Z)
    : Outcome CodecError (list SettingsParameter) :=
  if offset <? len payload then
    match fuel with
    | O => Panic
    | S fuel =>
        a ← idx payload offset; b ← idx payload (offset + 1);
        value ← read_u32 payload (offset + 2);
        rest ← settings_loop fuel payload (offset + 6);
        Ok ({| sp_id := from_be16 a b; sp_value := value |} :: rest)
    end
  else Ok [].

Definition decode_settings (h : H2FrameHeader) (payload : bytes) : CResult :=
  if negb (h_stream_id h =? 0)
  then Err (InvalidFormat "SETTINGS frame must have stream ID 0") else
  let ack := Flags.is_ack (h_flags h) in
  if ack && negb (is_empty payload)
  then Err (InvalidFormat "SETTINGS ACK must have empty payload") else
  if negb (len payload mod 6 =? 0)
  then Err (InvalidFormat "SETTINGS payload must be multiple of 6 bytes") else
  settings ← settings_loop (length payload) payload 0;
  Ok (FSettings {| sf_ack := ack; sf_settings := settings |}).

Definition decode_push_promise (h : H2FrameHeader) (payload : bytes) : CResult :=
  if h_stream_id h =? 0 then Err (InvalidFormat "PUSH_PROMISE frame with stream ID 0") else
  '(offset, padding) ← read_padding h payload;
  if len payload <? offset + 4
  then Err (InvalidFormat "PUSH_PROMISE: missing promised stream ID") else
  promised ← read_u32 payload offset;
  let offset := offset + 4 in
  let pad_len := default 0 padding in
  if len payload <? offset + pad_len then Err (InvalidFormat "invalid padding") else
  header_block ← slice payload offset (len payload - pad_len);
  Ok (FPushPromise {| pp_stream_id := h_stream_id h;
                      pp_promised_stream_id := mask31 promised;
                      pp_header_block := header_block;
                      pp_end_headers := Flags.is_end_headers (h_flags h);
                      pp_padding := padding |}).

Definition decode_ping (h : H2FrameHeader) (payload : bytes) : CResult :=
  if negb (h_stream_id h =? 0)
  then Err (InvalidFormat "PING frame must have stream ID 0") else
  if negb (len payload =? 8) then
    Err (InvalidFormat ("PING must be 8 bytes, got " +:+ pretty (len payload))) else
  data ← slice payload 0 8;
  Ok (FPing {| pi_ack := Flags.is_ack (h_flags h); pi_data := data |}).

Definition decode_goaway (h : H2FrameHeader) (payload : bytes) : CResult :=
  if negb (h_stream_id h =? 0)
  then Err (InvalidFormat "GOAWAY frame must have stream ID 0") else
  if len payload <? 8 then
    Err (InvalidFormat ("GOAWAY must be at least 8 bytes, got " +:+ pretty (len payload))) else
  last ← read_u32 payload 0;
  error_code ← read_u32 payload 4;
  debug_data ← (if 8 <? len payload then slice payload 8 (len payload) else Ok []);
  Ok (FGoAway {| ga_last_stream_id := mask31 last; ga_error_code := error_code;
                 ga_debug_data := debug_data |}).

Definition decode_window_update (h : H2FrameHeader) (payload : bytes) : CResult :=
  if negb (len payload =? 4) then
    Err (InvalidFormat ("WINDOW_UPDATE must be 4 bytes, got " +:+ pretty (len payload))) else
  increment ← read_u32 payload 0;
  Ok (FWindowUpdate {| wu_stream_id := h_stream_id h; wu_increment := mask31 increment |}).

Definition decode_continuation (h : H2FrameHeader) (payload : bytes) : CResult :=
  if h_stream_id h =? 0 then Err (InvalidFormat "CONTINUATION frame with stream ID 0") else
  Ok (FContinuation {| cf_stream_id := h_stream_id h; cf_header_block := payload;
                       cf_end_headers := Flags.is_end_headers (h_flags h) |}).

Definition decode_payload (h : H2FrameHeader) (payload : bytes) : CResult :=
  match h_type h with
  | TData => decode_data h payload
  | THeaders => decode_headers h payload
  | TPriority => decode_priority h payload
  | TRstStream => decode_rst_stream h payload
  | TSettings => decode_settings h payload
  | TPushPromise => decode_push_promise h payload
  | TPing => decode_ping h payload
  | TGoAway => decode_goaway h payload
  | TWindowUpdate => decode_window_update h payload
  | TContinuation => decode_continuation h payload
  end.

(** [decode] : [None] is a panic; otherwise the result and the bytes left in
    the buffer. *)
Definition decode (c : H2Codec) (buf : bytes) : option (DecodeResult * bytes) :=
  if len buf <? FRAME_HEADER_SIZE
  then Some (NeedMoreData (FRAME_HEADER_SIZE - len buf), buf) else
  match buf with
  | b0 :: b1 :: b2 :: b3 :: b4 :: b5 :: b6 :: b7 :: b8 :: _ =>
      let raw_length := Z.lor (Z.lor (b0 ≪ 16) (b1 ≪ 8)) b2 in
      let raw_stream_id := Z.land (from_be32 b5 b6 b7 b8) 0x7FFFFFFF in
      match Header.parse b0 b1 b2 b3 b4 b5 b6 b7 b8 with
      | None =>
          let total_skip := FRAME_HEADER_SIZE + raw_length in
          if len buf <? total_skip
          then Some (NeedMoreData (total_skip - len buf), buf)
          else Some (RFrame (FUnknown {| uf_frame_type := b3; uf_stream_id := raw_stream_id;
                                         uf_flags := b4; uf_payload := [] |}),
                     drop_z total_skip buf)
      | Some h =>
          if max_frame_size c <? h_length h
          then Some (DError (TooLarge (h_length h) (max_frame_size c)), buf) else
          let total_size := Header.total_size h in
          if len buf <? total_size
          then Some (NeedMoreData (total_size - len buf), buf) else
          let buf := drop_z FRAME_HEADER_SIZE buf in
          let payload := take_z (h_length h) buf in
          let buf := drop_z (h_length h) buf in
          match decode_payload h payload with
          | Ok f => Some (RFrame f, buf)
          | Err e => Some (DError e, buf)
          | Panic => None
          end
      end
  | _ => None
  end.

(** ** Encoding, one function per frame type; each appends to [buf] *)

(** [buf.resize(buf.len() + pad_len, 0)] when padded. *)
Definition zeros (padding : option Z) : bytes :=
  match padding with Some n => replicate (Z.to_nat n) 0 | None => [] end.
Definition pad_byte (padding : option Z) : bytes :=
  match padding with Some n => [n] | None => [] end.

Definition set_if (b : bool) (flag flags : Z) : Z :=
  if b then Flags.set flags flag else flags.

Definition encode_data (f : DataFrame) (buf : bytes) : bytes :=
  let flags := set_if (df_end_stream f) Flags.END_STREAM Flags.NONE in
  let '(flags, payload_len) :=
    match df_padding f with
    | Some pad_len => (Flags.set flags Flags.PADDED, 1 + len (df_data f) + pad_len)
    | None => (flags, len (df_data f))
    end in
  let header := Header.new TData flags (df_stream_id f) (as_u32 payload_len) in
  buf ++ Header.encode header ++ pad_byte (df_padding f) ++ df_data f ++ zeros (df_padding f).

Definition encode_priority_spec (p : PrioritySpec) : bytes :=
  let dep := if ps_exclusive p then Z.lor (ps_stream_dependency p) 0x80000000
             else ps_stream_dependency p in
  be32 dep ++ [ps_weight p].

#[global] Arguments encode_priority_spec : simpl never.

Definition encode_headers (f : HeadersFrame) (buf : bytes) : bytes :=
  let flags := set_if (hf_end_stream f) Flags.END_STREAM Flags.NONE in
  let flags := set_if (hf_end_headers f) Flags.END_HEADERS flags in
  let flags := set_if (bool_decide (is_Some (hf_priority f))) Flags.PRIORITY flags in
  let priority_len := match hf_priority f with Some _ => 5 | None => 0 end in
  let '(flags, payload_len) :=
    match hf_padding f with
    | Some pad_len =>
        (Flags.set flags Flags.PADDED, 1 + priority_len + len (hf_header_block f) + pad_len)
    | None => (flags, priority_len + len (hf_header_block f))
    end in
  let header := Header.new THeaders flags (hf_stream_id f) (as_u32 payload_len) in
  buf ++ Header.encode header ++ pad_byte (hf_padding f)
    ++ match hf_priority f with Some p => encode_priority_spec p | None => [] end
    ++ hf_header_block f ++ zeros (hf_padding f).

Definition encode_priority (f : PriorityFrame) (buf : bytes) : bytes :=
  let header := Header.new TPriority Flags.NONE (pf_stream_id f) 5 in
  buf ++ Header.encode header ++ encode_priority_spec (pf_priority f).

Definition encode_rst_stream (f : RstStreamFrame) (buf : bytes) : bytes :=
  let header := Header.new TRstStream Flags.NONE (rf_stream_id f) 4 in
  buf ++ Header.encode header ++ be32 (rf_error_code f).

Definition encode_param (s : SettingsParameter) : bytes := be16 (sp_id s) ++ be32 (sp_value s).

Definition encode_settings (f : SettingsFrame) (buf : bytes) : bytes :=
  let flags := if sf_ack f then Flags.ACK else Flags.NONE in
  let payload_len := if sf_ack f then 0 else len (sf_settings f) * 6 in
  let header := Header.new TSettings flags 0 (as_u32 payload_len) in
  buf ++ Header.encode header
    ++ (if sf_ack f then [] else mjoin (encode_param <$> sf_settings f)).

Definition encode_ping (f : PingFrame) (buf : bytes) : bytes :=
  let flags := if pi_ack f then Flags.ACK else Flags.NONE in
  let header := Header.new TPing flags 0 8 in
  buf ++ Header.encode header ++ pi_data f.

Definition encode_goaway (f : GoAwayFrame) (buf : bytes) : bytes :=
  let payload_len := 8 + len (ga_debug_data f) in
  let header := Header.new TGoAway Flags.NONE 0 (as_u32 payload_len) in
  buf ++ Header.encode header ++ be32 (ga_last_stream_id f) ++ be32 (ga_error_code f)
    ++ ga_debug_data f.

Definition encode_window_update (f : WindowUpdateFrame) (buf : bytes) : bytes :=
  let header := Header.new TWindowUpdate Flags.NONE (wu_stream_id f) 4 in
  buf ++ Header.encode header ++ be32 (wu_increment f).

Definition encode_continuation (f : ContinuationFrame) (buf : bytes) : bytes :=
  let flags := set_if (cf_end_headers f) Flags.END_HEADERS Flags.NONE in
  let header := Header.new TContinuation flags (cf_stream_id f)
                  (as_u32 (len (cf_header_block f))) in
  buf ++ Header.encode header ++ cf_header_block f.

Definition encode_push_promise (f : PushPromiseFrame) (buf : bytes) : bytes :=
  let flags := set_if (pp_end_headers f) Flags.END_HEADERS Flags.NONE in
  let '(flags, payload_len) :=
    match pp_padding f with
    | Some pad_len => (Flags.set flags Flags.PADDED, 1 + 4 + len (pp_header_block f) + pad_len)
    | None => (flags, 4 + len (pp_header_block f))
    end in
  let header := Header.new TPushPromise flags (pp_stream_id f) (as_u32 payload_len) in
  buf ++ Header.encode header ++ pad_byte (pp_padding f)
    ++ be32 (pp_promised_stream_id f) ++ pp_header_block f ++ zeros (pp_padding f).

Definition encode_unknown (f : UnknownFrame) (buf : bytes) : bytes :=
  let header := {| h_length := as_u32 (len (uf_payload f));
                   h_type := type_or_data (uf_frame_type f);
                   h_flags := uf_flags f; h_stream_id := uf_stream_id f |} in
  buf ++ Header.encode header ++ uf_payload f.

Definition encode (frame : H2Frame) (buf : bytes) : bytes :=
  match frame with
  | FData f => encode_data f buf
  | FHeaders f => encode_headers f buf
  | FPriority f => encode_priority f buf
  | FRstStream f => encode_rst_stream f buf
  | FSettings f => encode_settings f buf
  | FPushPromise f => encode_push_promise f buf
  | FPing f => encode_ping f buf
  | FGoAway f => encode_goaway f buf
  | FWindowUpdate f => encode_window_update f buf
  | FContinuation f => encode_continuation f buf
  | FUnknown f => encode_unknown f buf
  end.
