(* ===== verification/CodecProps.v ===== *)
(** * Correctness of the frame codec

    The decoder never panics, returns only well-formed frames, is a left
    inverse of the encoder, and is insensitive to how the byte stream is cut
    into chunks. *)
From S2P Require Import Prelude Frame Codec.

(** ** Well-formed frames: every field fits its wire width *)

Definition opt_u8 (p : option Z) : Prop := match p with Some n => u8 n | None => True end.

Definition prio_wf (p : PrioritySpec) : Prop := u31 (ps_stream_dependency p) /\ u8 (ps_weight p).

Definition param_wf (s : SettingsParameter) : Prop := u16 (sp_id s) /\ u32 (sp_value s).

Definition stream_wf (id : Z) : Prop := u31 id /\ id <> 0.

Definition frame_wf (f : H2Frame) : Prop :=
  match f with
  | FData f => stream_wf (df_stream_id f) /\ is_bytes (df_data f) /\ opt_u8 (df_padding f)
  | FHeaders f =>
      stream_wf (hf_stream_id f) /\ is_bytes (hf_header_block f) /\ opt_u8 (hf_padding f) /\
      match hf_priority f with Some p => prio_wf p | None => True end
  | FPriority f => stream_wf (pf_stream_id f) /\ prio_wf (pf_priority f)
  | FRstStream f => stream_wf (rf_stream_id f) /\ u32 (rf_error_code f)
  | FSettings f =>
      Forall param_wf (sf_settings f) /\ (sf_ack f = true -> sf_settings f = [])
  | FPushPromise f =>
      stream_wf (pp_stream_id f) /\ u31 (pp_promised_stream_id f) /\
      is_bytes (pp_header_block f) /\ opt_u8 (pp_padding f)
  | FPing f => len (pi_data f) = 8 /\ is_bytes (pi_data f)
  | FGoAway f =>
      u31 (ga_last_stream_id f) /\ u32 (ga_error_code f) /\ is_bytes (ga_debug_data f)
  | FWindowUpdate f => u31 (wu_stream_id f) /\ u31 (wu_increment f)
  | FContinuation f => stream_wf (cf_stream_id f) /\ is_bytes (cf_header_block f)
  | FUnknown _ => False
  end.

Definition pad_len (p : option Z) : Z := match p with Some n => 1 + n | None => 0 end.

(** Length of the payload [encode] writes after the frame header. *)
Definition payload_len (f : H2Frame) : Z :=
  match f with
  | FData f => pad_len (df_padding f) + len (df_data f)
  | FHeaders f =>
      pad_len (hf_padding f) + (match hf_priority f with Some _ => 5 | None => 0 end)
      + len (hf_header_block f)
  | FPriority _ => 5
  | FRstStream _ => 4
  | FSettings f => if sf_ack f then 0 else 6 * len (sf_settings f)
  | FPushPromise f => pad_len (pp_padding f) + 4 + len (pp_header_block f)
  | FPing _ => 8
  | FGoAway f => 8 + len (ga_debug_data f)
  | FWindowUpdate _ => 4
  | FContinuation f => len (cf_header_block f)
  | FUnknown f => len (uf_payload f)
  end.

(** ** Reading back what was written *)


Lemma read_u32_at pre v post o :
  o = len pre -> u32 v -> read_u32 (pre ++ be32 v ++ post) o = Ok v.
Proof.
  intros -> Hv. unfold read_u32.
  replace (idx (pre ++ be32 v ++ post) (len pre)) with
    (idx (E := CodecError) (pre ++ be32 v ++ post) (len pre + 0)) by (f_equal; lia).
  rewrite !idx_app_r by lia. unfold be32. simpl.
  change (idx _ 0) with (Ok (E := CodecError) (as_u8 (v ≫ 24))).
  change (idx _ 1) with (Ok (E := CodecError) (as_u8 (v ≫ 16))).
  change (idx _ 2) with (Ok (E := CodecError) (as_u8 (v ≫ 8))).
  change (idx _ 3) with (Ok (E := CodecError) (as_u8 v)). simpl.
  by rewrite from_be32_be32.
Qed.

Lemma mask31_u31 v : u31 v -> mask31 v = v.
Proof. intros. unfold mask31. rewrite land_low_31. width. Qed.

Lemma mask31_range v : u31 (mask31 v).
Proof. unfold mask31. rewrite land_low_31. width. Qed.

Lemma dep_bits (e : bool) d : u31 d ->
  let dep := if e then Z.lor d 0x80000000 else d in
  u32 dep /\ negb (Z.land dep 0x80000000 =? 0) = e /\ mask31 dep = d.
Proof.
  intros Hd. change 2147483648 with (2 ^ 31).
  assert (Z.lor d (2 ^ 31) = d + 2 ^ 31) as Hor.
  { rewrite Z.lor_comm, (lor_add_aligned _ _ 31); [lia|done|done|].
    change (2 ^ 31) with 2147483648. width. }
  cbv zeta. rewrite flag_test by done. destruct e; rewrite ?Hor.
  - split; [change (2 ^ 31) with 2147483648; width|]. split.
    + rewrite <- Hor, Z.lor_spec, Z.pow2_bits_true by done. apply orb_true_r.
    + unfold mask31. rewrite land_low_31. change (2 ^ 31) with 2147483648. width.
  - split; [width|]. split; [|by apply mask31_u31].
    rewrite <- (Z.mod_small d (2 ^ 31)) by (change (2 ^ 31) with 2147483648; width).
    by apply Z.mod_pow2_bits_high.
Qed.

(** ** The frame header in front of a payload *)

Lemma decode_header c h payload rest :
  header_wf h -> h_length h = len payload -> h_length h <= max_frame_size c ->
  decode c (Header.encode h ++ payload ++ rest) =
    match decode_payload h payload with
    | Ok f => Some (RFrame f, rest)
    | Err e => Some (DError e, rest)
    | Panic => None
    end.
Proof.
  intros Hwf Hlen Hmax. unfold decode, FRAME_HEADER_SIZE.
  assert (len (Header.encode h ++ payload ++ rest) = 9 + len payload + len rest) as Hl by slen.
  rewrite Hl. pose proof (len_nonneg payload). pose proof (len_nonneg rest).
  destruct (Z.ltb_spec (9 + len payload + len rest) 9); [lia|].
  pose proof (header_roundtrip h Hwf) as Hrt. unfold parse_list in Hrt.
  change (drop_z 9 (Header.encode h ++ payload ++ rest)) with (payload ++ rest).
  unfold Header.encode in *. cbn [app]. rewrite Hrt.
  destruct (Z.ltb_spec (max_frame_size c) (h_length h)); [lia|].
  unfold Header.total_size, FRAME_HEADER_SIZE.
  destruct (Z.ltb_spec (9 + len payload + len rest) (9 + h_length h)); [lia|].
  by rewrite Hlen, take_z_app_len, drop_z_app_len.
Qed.

Lemma header_new_wf t flags id n :
  u31 id -> u8 flags -> u24 n ->
  Header.new t flags id n = mkHeader n t flags id /\ header_wf (Header.new t flags id n).
Proof.
  intros. unfold Header.new, header_wf. simpl. change 0x7FFFFFFF with 2147483647.
  rewrite land_low_31. replace (id mod 2147483648) with id by width. done.
Qed.

Lemma as_u32_u24 n : u24 n -> as_u32 n = n.
Proof. width. Qed.

(** The bytes written for a frame are a header in front of [payload_len]
    bytes; [payload_of] is that payload and [header_of] that header. *)
Definition payload_of (f : H2Frame) : bytes := drop 9 (encode f []).

Definition header_of (f : H2Frame) : bytes := take 9 (encode f []).

Lemma settings_loop_ok ps : Forall param_wf ps -> forall fuel pre,
  (length ps <= fuel)%nat ->
  settings_loop fuel (pre ++ mjoin (encode_param <$> ps)) (len pre) = Ok ps.
Proof.
  induction 1 as [|s ps [Hid Hv] Hps IH]; intros fuel pre Hf.
  - destruct fuel; simpl; rewrite app_nil_r; by rewrite Z.ltb_irrefl.
  - destruct fuel as [|fuel]; [simpl in Hf; lia|]. cbn [settings_loop].
    change (mjoin (encode_param <$> s :: ps))
      with (encode_param s ++ mjoin (encode_param <$> ps)).
    set (tl := mjoin (encode_param <$> ps)).
    set (a := as_u8 (sp_id s ≫ 8)). set (b := as_u8 (sp_id s)).
    rewrite (proj2 (Z.ltb_lt _ _)) by (unfold encode_param, be16, be32; slen).
    assert (pre ++ encode_param s ++ tl = pre ++ a :: b :: be32 (sp_value s) ++ tl) as -> by done.
    rewrite (idx_at pre _ a (len pre)) by done. cbn [mbind outcome_bind].
    rewrite (cons_middle a), app_assoc, (idx_at _ _ b (len pre + 1)) by slen. cbn [mbind outcome_bind].
    rewrite (cons_middle b), app_assoc, read_u32_at by (done || slen). cbn [mbind outcome_bind].
    rewrite app_assoc.
    replace (len pre + 6) with (len (((pre ++ [a]) ++ [b]) ++ be32 (sp_value s)))
      by (unfold be32; slen).
    rewrite IH by (simpl in Hf; lia). cbn [mbind outcome_bind].
    unfold a, b. rewrite from_be16_be16 by done. by destruct s.
Qed.

(** ** Round trip, one lemma per frame type *)

Lemma decode_encoded c t flags id n payload rest f :
  u31 id -> u8 flags -> n = len payload -> n <= max_frame_size c ->
  max_frame_size c <= MAX_FRAME_SIZE_LIMIT ->
  decode_payload (mkHeader n t flags id) payload = Ok f ->
  decode c ((Header.encode (Header.new t flags id (as_u32 n)) ++ payload) ++ rest)
    = Some (RFrame f, rest).
Proof.
  intros Hid Hfl Hn Hmax Hlim Hdec. unfold MAX_FRAME_SIZE_LIMIT in *.
  pose proof (len_nonneg payload).
  assert (u24 n) as Hn24 by width.
  rewrite (as_u32_u24 n Hn24).
  destruct (header_new_wf t flags id n) as [Heq Hwf]; [done..|].
  rewrite <- app_assoc, decode_header; [|done| |]; rewrite Heq in *; try done.
  by rewrite Hdec.
Qed.

(** The flag bytes the encoders build are closed terms once the frame's
    booleans are known. *)
Ltac flag_u8 := vm_compute; split; [discriminate | reflexivity].

Ltac fields :=
  cbn [df_stream_id df_data df_end_stream df_padding
       hf_stream_id hf_header_block hf_end_stream hf_end_headers hf_priority hf_padding
       pf_stream_id pf_priority rf_stream_id rf_error_code sf_ack sf_settings
       pp_stream_id pp_promised_stream_id pp_header_block pp_end_headers pp_padding
       pi_ack pi_data ga_last_stream_id ga_error_code ga_debug_data
       wu_stream_id wu_increment cf_stream_id cf_header_block cf_end_headers
       h_length h_type h_flags h_stream_id pad_byte zeros payload_len pad_len default
       mbind outcome_bind option_bind frame_wf opt_u8 is_empty negb] in *.

Lemma len_priority_spec p : len (encode_priority_spec p) = 5.
Proof. done. Qed.
#[local] Hint Rewrite len_priority_spec : len_db.

Section roundtrip.
Context (c : H2Codec) (Hlim : max_frame_size c <= MAX_FRAME_SIZE_LIMIT).

Lemma len_zeros p : opt_u8 p -> len (pad_byte p) + len (zeros p) = pad_len p.
Proof. destruct p as [n|]; simpl; [|done]. intros Hn. autorewrite with len_db. width. Qed.

Lemma rt_data f rest :
  frame_wf (FData f) -> payload_len (FData f) <= max_frame_size c ->
  decode c (encode (FData f) [] ++ rest) = Some (RFrame (FData f), rest).
Proof.
  destruct f as [id data es pad]. intros ((Hid & Hnz) & Hd & Hp) Hmax.
  unfold encode, encode_data. fields.
  pose proof (len_zeros pad Hp) as Hz.
  destruct pad as [n|]; rewrite app_nil_l; fields.
  - apply decode_encoded; [done|destruct es; flag_u8|slen|lia|done|].
    unfold decode_payload, decode_data. fields. rewrite (proj2 (Z.eqb_neq _ _)) by done.
    replace (Flags.is_padded _) with true by (by destruct es).
    change (idx ([n] ++ _) 0) with (Ok (E := CodecError) n). fields. cbn [app is_empty].
    rewrite (proj2 (Z.leb_gt _ _)) by (width || slen).
    change (n :: data ++ replicate (Z.to_nat n) 0) with ([n] ++ data ++ replicate (Z.to_nat n) 0).
    rewrite slice_middle by slen. fields. by destruct es.
  - rewrite app_nil_r, app_nil_l.
    apply decode_encoded; [done|destruct es; flag_u8|slen|lia|done|].
    unfold decode_payload, decode_data. fields. rewrite (proj2 (Z.eqb_neq _ _)) by done.
    by destruct es.
Qed.


Definition dep_word (p : PrioritySpec) : Z :=
  if ps_exclusive p then Z.lor (ps_stream_dependency p) 0x80000000
  else ps_stream_dependency p.

Lemma read_priority pre p post o :
  o = len pre -> prio_wf p ->
  read_u32 (pre ++ encode_priority_spec p ++ post) o = Ok (dep_word p) /\
  idx (E := CodecError) (pre ++ encode_priority_spec p ++ post) (o + 4) = Ok (ps_weight p).
Proof.
  intros -> [Hd Hw]. destruct (dep_bits (ps_exclusive p) _ Hd) as (Hdep & _ & _).
  unfold encode_priority_spec, dep_word. rewrite <- app_assoc, read_u32_at by done.
  split; [done|]. rewrite app_assoc. change ([ps_weight p] ++ post) with (ps_weight p :: post).
  rewrite idx_at; [done|]. rewrite len_app. by unfold be32.
Qed.

(** Decoding the dependency word gives back the priority it was made from. *)
Lemma dep_word_back p : prio_wf p ->
  {| ps_exclusive := negb (Z.land (dep_word p) 0x80000000 =? 0);
     ps_stream_dependency := mask31 (dep_word p); ps_weight := ps_weight p |} = p.
Proof.
  intros [Hd Hw]. destruct (dep_bits (ps_exclusive p) _ Hd) as (_ & He & Hm).
  unfold dep_word in *. rewrite He, Hm. by destruct p.
Qed.

(** The padding prologue of HEADERS and PUSH_PROMISE. *)
Lemma read_padding_ok h p payload :
  Flags.is_padded (h_flags h) = bool_decide (is_Some p) ->
  read_padding h (pad_byte p ++ payload) = Ok (len (pad_byte p), p).
Proof.
  intros Hf. unfold read_padding. rewrite Hf.
  destruct p as [n|]; [|done]. by rewrite bool_decide_true by eauto.
Qed.

Definition priority_bytes (p : option PrioritySpec) : bytes :=
  match p with Some p => encode_priority_spec p | None => [] end.

Lemma rt_headers f rest :
  frame_wf (FHeaders f) -> payload_len (FHeaders f) <= max_frame_size c ->
  decode c (encode (FHeaders f) [] ++ rest) = Some (RFrame (FHeaders f), rest).
Proof.
  destruct f as [id hb es eh pr pad]. intros ((Hid & Hnz) & Hb & Hp & Hpr) Hmax.
  unfold encode, encode_headers. fields. fold (priority_bytes pr).
  pose proof (len_zeros pad Hp) as Hz.
  set (flags := set_if (bool_decide (is_Some pad)) Flags.PADDED
    (set_if (bool_decide (is_Some pr)) Flags.PRIORITY
      (set_if eh Flags.END_HEADERS (set_if es Flags.END_STREAM Flags.NONE)))).
  set (n := pad_len pad + len (priority_bytes pr) + len hb).
  match goal with |- decode c ((let '(_, _) := ?m in _) ++ _) = _ =>
    replace m with (flags, n) by (unfold flags, n; destruct pad, pr; simpl; f_equal; slen) end.
  rewrite app_nil_l.
  assert (payload_len (FHeaders (mkHeaders id hb es eh pr pad)) = n) as Hn
    by (unfold n; destruct pr; fields; unfold priority_bytes; rewrite ?len_priority_spec; slen).
  assert (Flags.is_padded flags = bool_decide (is_Some pad) /\
          Flags.is_priority flags = bool_decide (is_Some pr) /\
          Flags.is_end_stream flags = es /\ Flags.is_end_headers flags = eh) as (F1 & F2 & F3 & F4)
    by (unfold flags; destruct es, eh, pr, pad; done).
  fields. rewrite Hn in Hmax.
  apply decode_encoded; [done|unfold flags; destruct es, eh, pr, pad; flag_u8|..].
  { unfold n. slen. } { done. } { done. }
  unfold decode_payload, decode_headers. fields.
  rewrite (proj2 (Z.eqb_neq _ _)) by done.
  rewrite (read_padding_ok _ pad) by done. fields. rewrite F2, F3, F4.
  assert (len (pad_byte pad ++ priority_bytes pr ++ hb ++ zeros pad) = n) as Hlen
    by (unfold n; slen).
  assert (default 0 pad = len (zeros pad)) as Hdef
    by (destruct pad; simpl in *; [|done]; slen).
  destruct pr as [p|]; cbn [priority_bytes] in *.
  - rewrite (bool_decide_true (is_Some (Some p))) by eauto.
    rewrite Hlen, (proj2 (Z.ltb_ge _ _)) by (unfold n; rewrite len_priority_spec; slen).
    destruct (read_priority (pad_byte pad) p (hb ++ zeros pad) _ eq_refl Hpr) as [-> ->].
    fields. rewrite dep_word_back, Hdef by done.
    rewrite (proj2 (Z.ltb_ge _ _)) by (unfold n; rewrite len_priority_spec; slen).
    rewrite app_assoc, slice_middle; [done|by rewrite len_app|].
    rewrite len_app, len_priority_spec. unfold n. rewrite len_priority_spec. lia.
  - rewrite (bool_decide_false (is_Some None)) by (by intros [? ?]). fields.
    rewrite Hlen, Hdef, (proj2 (Z.ltb_ge _ _)) by (unfold n; slen).
    rewrite app_nil_l, slice_middle; [done|done|]. unfold n. slen.
Qed.

Lemma rt_priority f rest :
  frame_wf (FPriority f) -> 5 <= max_frame_size c ->
  decode c (encode (FPriority f) [] ++ rest) = Some (RFrame (FPriority f), rest).
Proof.
  destruct f as [id p]. intros ((Hid & Hnz) & Hp) Hmax.
  unfold encode, encode_priority. fields. rewrite app_nil_l.
  apply (decode_encoded c TPriority Flags.NONE id 5); [done|flag_u8|slen|done|done|].
  unfold decode_payload, decode_priority. fields.
  rewrite (proj2 (Z.eqb_neq _ _)) by done.
  rewrite len_priority_spec. cbn [Z.eqb Pos.eqb negb].
  destruct (read_priority [] p [] 0 eq_refl Hp) as [Hr Hi]. rewrite app_nil_l, app_nil_r in Hr, Hi.
  rewrite Hr. fields. change 4 with (0 + 4). rewrite Hi. fields. by rewrite dep_word_back.
Qed.

(** A payload that is a single 32-bit word. *)
Lemma read_word v : u32 v -> read_u32 (be32 v) 0 = Ok v.
Proof. intros Hv. pose proof (read_u32_at [] v [] 0 eq_refl Hv) as H. by rewrite app_nil_r in H. Qed.

Lemma rt_rst_stream f rest :
  frame_wf (FRstStream f) -> 4 <= max_frame_size c ->
  decode c (encode (FRstStream f) [] ++ rest) = Some (RFrame (FRstStream f), rest).
Proof.
  destruct f as [id e]. intros ((Hid & Hnz) & He) Hmax.
  unfold encode, encode_rst_stream. fields. rewrite app_nil_l.
  apply (decode_encoded c TRstStream Flags.NONE id 4); [done|flag_u8|slen|done|done|].
  unfold decode_payload, decode_rst_stream. fields.
  rewrite (proj2 (Z.eqb_neq _ _)) by done.
  rewrite len_be32. cbn [Z.eqb Pos.eqb negb]. by rewrite read_word.
Qed.

Lemma rt_window_update f rest :
  frame_wf (FWindowUpdate f) -> 4 <= max_frame_size c ->
  decode c (encode (FWindowUpdate f) [] ++ rest) = Some (RFrame (FWindowUpdate f), rest).
Proof.
  destruct f as [id n]. intros (Hid & Hn) Hmax.
  unfold encode, encode_window_update. fields. rewrite app_nil_l.
  apply (decode_encoded c TWindowUpdate Flags.NONE id 4); [done|flag_u8|slen|done|done|].
  unfold decode_payload, decode_window_update. fields.
  rewrite len_be32. cbn [Z.eqb Pos.eqb negb]. rewrite read_word by width. fields.
  by rewrite mask31_u31.
Qed.

Lemma len_params ps : len (mjoin (encode_param <$> ps)) = 6 * len ps.
Proof.
  induction ps as [|s ps IH]; [done|].
  change (mjoin (encode_param <$> s :: ps)) with (encode_param s ++ mjoin (encode_param <$> ps)).
  unfold encode_param at 1. slen.
Qed.

Lemma rt_settings f rest :
  frame_wf (FSettings f) -> payload_len (FSettings f) <= max_frame_size c ->
  decode c (encode (FSettings f) [] ++ rest) = Some (RFrame (FSettings f), rest).
Proof.
  destruct f as [ack ps]. intros (Hps & Hack) Hmax.
  unfold encode, encode_settings. fields. rewrite app_nil_l. destruct ack.
  - specialize (Hack eq_refl). subst ps.
    by apply (decode_encoded c TSettings Flags.ACK 0 0).
  - apply decode_encoded; [done|flag_u8|rewrite len_params; lia|lia|done|].
    unfold decode_payload, decode_settings. fields.
    change (Flags.is_ack Flags.NONE) with false. cbn [Z.eqb Pos.eqb negb andb].
    rewrite len_params, Z.mul_comm, Z.mod_mul by done. cbn [Z.eqb Pos.eqb negb].
    pose proof (settings_loop_ok ps Hps (length (mjoin (encode_param <$> ps))) []) as Hl.
    rewrite app_nil_l in Hl. change (len []) with 0 in Hl. rewrite Hl; [done|].
    pose proof (len_params ps). unfold len in *. lia.
Qed.

Lemma rt_push_promise f rest :
  frame_wf (FPushPromise f) -> payload_len (FPushPromise f) <= max_frame_size c ->
  decode c (encode (FPushPromise f) [] ++ rest) = Some (RFrame (FPushPromise f), rest).
Proof.
  destruct f as [id pid hb eh pad]. intros ((Hid & Hnz) & Hpid & Hb & Hp) Hmax.
  unfold encode, encode_push_promise. fields.
  pose proof (len_zeros pad Hp) as Hz.
  set (flags := set_if (bool_decide (is_Some pad)) Flags.PADDED
                  (set_if eh Flags.END_HEADERS Flags.NONE)).
  set (n := pad_len pad + 4 + len hb) in *.
  match goal with |- decode c ((let '(_, _) := ?m in _) ++ _) = _ =>
    replace m with (flags, n) by (unfold flags, n; destruct pad; simpl; f_equal; slen) end.
  rewrite app_nil_l.
  assert (Flags.is_padded flags = bool_decide (is_Some pad) /\
          Flags.is_end_headers flags = eh) as (F1 & F2) by (unfold flags; destruct eh, pad; done).
  apply decode_encoded; [done|unfold flags; destruct eh, pad; flag_u8|unfold n; slen|done|done|].
  unfold decode_payload, decode_push_promise. fields.
  rewrite (proj2 (Z.eqb_neq _ _)) by done.
  rewrite (read_padding_ok _ pad) by done. fields. rewrite F2.
  assert (len (pad_byte pad ++ be32 pid ++ hb ++ zeros pad) = n) as -> by (unfold n; slen).
  assert (default 0 pad = len (zeros pad)) as Hdef by (destruct pad; simpl in *; [|done]; slen).
  rewrite (proj2 (Z.ltb_ge _ _)) by (unfold n; slen).
  rewrite read_u32_at by (done || width). fields.
  rewrite Hdef, (proj2 (Z.ltb_ge _ _)) by (unfold n; slen).
  rewrite app_assoc, slice_middle by (unfold n; slen). fields. by rewrite mask31_u31.
Qed.

Lemma rt_ping f rest :
  frame_wf (FPing f) -> 8 <= max_frame_size c ->
  decode c (encode (FPing f) [] ++ rest) = Some (RFrame (FPing f), rest).
Proof.
  destruct f as [ack d]. intros (Hl & Hd) Hmax.
  unfold encode, encode_ping. fields. rewrite app_nil_l.
  apply (decode_encoded c TPing _ 0 8); [done|destruct ack; flag_u8|done|done|done|].
  unfold decode_payload, decode_ping. fields. rewrite Hl. cbn [Z.eqb Pos.eqb negb].
  rewrite slice_ok by lia. fields. rewrite take_z_all by (rewrite len_drop_z; lia).
  by destruct ack.
Qed.

Lemma rt_goaway f rest :
  frame_wf (FGoAway f) -> payload_len (FGoAway f) <= max_frame_size c ->
  decode c (encode (FGoAway f) [] ++ rest) = Some (RFrame (FGoAway f), rest).
Proof.
  destruct f as [last e d]. intros (Hl & He & Hd) Hmax.
  unfold encode, encode_goaway. fields. rewrite app_nil_l.
  apply decode_encoded; [done|flag_u8|slen|done|done|].
  unfold decode_payload, decode_goaway. fields. cbn [Z.eqb Pos.eqb negb].
  assert (len (be32 last ++ be32 e ++ d) = 8 + len d) as -> by slen.
  rewrite (proj2 (Z.ltb_ge _ _)) by slen.
  pose proof (read_u32_at [] last (be32 e ++ d) 0 eq_refl) as Hr.
  rewrite app_nil_l in Hr. rewrite Hr by width. fields.
  rewrite (read_u32_at (be32 last) e) by done. fields. rewrite mask31_u31 by done.
  destruct (Z.ltb_spec 8 (8 + len d)).
  - replace (be32 last ++ be32 e ++ d) with ((be32 last ++ be32 e) ++ d ++ [])
      by (by rewrite app_nil_r, <- app_assoc).
    rewrite slice_middle by slen. fields. done.
  - rewrite (len_0_nil d) by slen. done.
Qed.

Lemma rt_continuation f rest :
  frame_wf (FContinuation f) -> payload_len (FContinuation f) <= max_frame_size c ->
  decode c (encode (FContinuation f) [] ++ rest) = Some (RFrame (FContinuation f), rest).
Proof.
  destruct f as [id hb eh]. intros ((Hid & Hnz) & Hb) Hmax.
  unfold encode, encode_continuation. fields. rewrite app_nil_l.
  apply decode_encoded; [done|destruct eh; flag_u8|done|done|done|].
  unfold decode_payload, decode_continuation. fields.
  rewrite (proj2 (Z.eqb_neq _ _)) by done. by destruct eh.
Qed.

Lemma roundtrip_frame f rest :
  frame_wf f -> payload_len f <= max_frame_size c ->
  decode c (encode f [] ++ rest) = Some (RFrame f, rest).
Proof.
  intros Hwf Hlen. destruct f; try done;
    eauto using rt_data, rt_headers, rt_priority, rt_rst_stream, rt_settings, rt_push_promise,
      rt_ping, rt_goaway, rt_window_update, rt_continuation.
Qed.

End roundtrip.

(** ** The decoder never panics and returns well-formed frames *)

Section safety.
Context (h : H2FrameHeader) (Hwf : header_wf h).

Lemma read_u32_wp p o :
  is_bytes p -> 0 <= o -> o + 4 <= len p -> outcome_ok u32 (read_u32 p o).
Proof.
  intros Hp H0 Hlen. unfold read_u32.
  do 4 (eapply outcome_ok_bind; [apply (idx_wp u8); [done|lia]|intros ? ?]).
  simpl. by apply from_be32_range.
Qed.

Lemma stream_wf_nonzero : (h_stream_id h =? 0) = false -> stream_wf (h_stream_id h).
Proof. destruct Hwf as (_ & _ & Hid). intros H%Z.eqb_neq. done. Qed.

Lemma decode_data_safe p : is_bytes p -> outcome_ok frame_wf (decode_data h p).
Proof.
  intros Hp. unfold decode_data. apply outcome_ok_if; [done|].
  intros Hid%stream_wf_nonzero.
  eapply (outcome_ok_bind (fun '(d, pad) => is_bytes d /\ opt_u8 pad)); [|by intros [d pad] []].
  apply outcome_ok_if; intros _; [|done]. rewrite is_empty_len. apply outcome_ok_if; [done|].
  intros He%bool_decide_eq_false_1.
  eapply outcome_ok_bind; [apply (idx_wp u8); [done|slen]|].
  intros pl Hpl. apply outcome_ok_if; [done|]. intros Hlt%Z.leb_gt.
  eapply outcome_ok_bind; [apply slice_wp; [done|width|width]|]. by intros d [Hd _].
Qed.

Lemma read_padding_wp p :
  is_bytes p ->
  outcome_ok (fun '(o, pad) => o = len (pad_byte pad) /\ o <= len p /\ opt_u8 pad)
    (read_padding h p).
Proof.
  intros Hp. unfold read_padding. apply outcome_ok_if; intros _; [|simpl; split_and!; slen || done].
  rewrite is_empty_len. apply outcome_ok_if; [done|]. intros He%bool_decide_eq_false_1.
  eapply outcome_ok_bind; [apply (idx_wp u8); [done|slen]|].
  intros b Hb. simpl. split_and!; [done|slen|done].
Qed.

Lemma opt_u8_default p : opt_u8 p -> 0 <= default 0 p.
Proof. destruct p; simpl; width. Qed.

Lemma prio_wf_decoded dep w : u8 w -> prio_wf (mkPrio (negb (Z.land dep 0x80000000 =? 0)) (mask31 dep) w).
Proof. split; [apply mask31_range|done]. Qed.

Lemma decode_headers_safe p : is_bytes p -> outcome_ok frame_wf (decode_headers h p).
Proof.
  intros Hp. unfold decode_headers. apply outcome_ok_if; [done|].
  intros Hid%stream_wf_nonzero.
  eapply outcome_ok_bind; [by apply read_padding_wp|]. intros [o pad] (Ho & Hle & Hpad).
  assert (0 <= o) by (subst; apply len_nonneg).
  eapply (outcome_ok_bind (fun '(o', pr) => 0 <= o' /\
            match pr with Some q => prio_wf q | None => True end)).
  { apply outcome_ok_if; intros _; [|done]. apply outcome_ok_if; [done|].
    intros Hlt%Z.ltb_ge.
    eapply outcome_ok_bind; [apply read_u32_wp; [done|lia|lia]|]. intros dep Hdep.
    eapply outcome_ok_bind; [apply (idx_wp u8); [done|lia]|]. intros w Hw.
    simpl. split; [lia|by apply prio_wf_decoded]. }
  intros [o' pr] [Ho' Hpr]. apply outcome_ok_if; [done|]. intros Hlt%Z.ltb_ge.
  pose proof (opt_u8_default pad Hpad).
  eapply outcome_ok_bind; [apply slice_wp; [done|lia|lia]|]. by intros s [Hs _].
Qed.

Lemma decode_push_promise_safe p : is_bytes p -> outcome_ok frame_wf (decode_push_promise h p).
Proof.
  intros Hp. unfold decode_push_promise. apply outcome_ok_if; [done|].
  intros Hid%stream_wf_nonzero.
  eapply outcome_ok_bind; [by apply read_padding_wp|]. intros [o pad] (Ho & Hle & Hpad).
  assert (0 <= o) by (subst; apply len_nonneg). pose proof (opt_u8_default pad Hpad).
  apply outcome_ok_if; [done|]. intros Hlt%Z.ltb_ge.
  eapply outcome_ok_bind; [apply read_u32_wp; [done|lia|lia]|]. intros pid Hpid.
  apply outcome_ok_if; [done|]. intros Hlt'%Z.ltb_ge.
  eapply outcome_ok_bind; [apply slice_wp; [done|lia|lia]|]. intros s [Hs _].
  split; [done|]. split; [apply mask31_range|done].
Qed.

(** Fixed-size payloads: [len payload] equals the constant. *)
Lemma decode_fixed_safe p :
  is_bytes p ->
  outcome_ok frame_wf (decode_priority h p) /\
  outcome_ok frame_wf (decode_rst_stream h p) /\
  outcome_ok frame_wf (decode_ping h p) /\
  outcome_ok frame_wf (decode_window_update h p).
Proof.
  intros Hp. destruct Hwf as (_ & _ & Hid31).
  split_and!; unfold decode_priority, decode_rst_stream, decode_ping, decode_window_update;
    repeat (apply outcome_ok_if; [done|]; intros ?).
  - eapply outcome_ok_bind; [apply read_u32_wp; [done|lia|lia]|]. intros dep Hdep.
    eapply outcome_ok_bind; [apply (idx_wp u8); [done|lia]|]. intros w Hw.
    split; [by apply stream_wf_nonzero|by apply prio_wf_decoded].
  - eapply outcome_ok_bind; [apply read_u32_wp; [done|lia|lia]|]. intros e He.
    split; [by apply stream_wf_nonzero|done].
  - eapply outcome_ok_bind; [apply slice_wp; [done|lia|lia]|]. by intros d [Hd Hl].
  - eapply outcome_ok_bind; [apply read_u32_wp; [done|lia|lia]|]. intros n Hn.
    split; [done|apply mask31_range].
Qed.

Lemma settings_loop_safe p : is_bytes p -> forall fuel o,
  0 <= o -> (len p - o) mod 6 = 0 -> len p - o <= Z.of_nat fuel ->
  outcome_ok (Forall param_wf) (settings_loop fuel p o).
Proof.
  intros Hp. induction fuel as [|fuel IH]; intros o Ho Hmod Hfuel; cbn [settings_loop].
  - rewrite (proj2 (Z.ltb_ge _ _)) by lia. constructor.
  - destruct (Z.ltb_spec o (len p)); [|constructor].
    assert (o + 6 <= len p) by (Z.div_mod_to_equations; lia).
    do 2 (eapply outcome_ok_bind; [apply (idx_wp u8); [done|lia]|intros ? ?]).
    eapply outcome_ok_bind; [apply read_u32_wp; [done|lia|lia]|]. intros v Hv.
    eapply outcome_ok_bind; [apply IH; Z.div_mod_to_equations; lia|]. intros ps Hps.
    constructor; [|done]. split; [by apply from_be16_range|done].
Qed.

Lemma decode_settings_safe p : is_bytes p -> outcome_ok frame_wf (decode_settings h p).
Proof.
  intros Hp. unfold decode_settings. apply outcome_ok_if; [done|]. intros _.
  apply outcome_ok_if; [done|]. intros Hack. apply outcome_ok_if; [done|]. intros Hmod.
  destruct (Flags.is_ack (h_flags h)) eqn:Eack.
  - destruct p as [|b p]; [|done]. by simpl.
  - apply negb_false_iff, Z.eqb_eq in Hmod.
    eapply outcome_ok_bind; [apply (settings_loop_safe p Hp); rewrite ?Z.sub_0_r; unfold len in *; lia|].
    intros ps Hps. done.
Qed.

Lemma decode_goaway_safe p : is_bytes p -> outcome_ok frame_wf (decode_goaway h p).
Proof.
  intros Hp. unfold decode_goaway. do 2 (apply outcome_ok_if; [done|]; intros ?).
  eapply outcome_ok_bind; [apply read_u32_wp; [done|lia|lia]|]. intros last Hlast.
  eapply outcome_ok_bind; [apply read_u32_wp; [done|lia|lia]|]. intros e He.
  eapply (outcome_ok_bind is_bytes).
  { apply outcome_ok_if; intros ?; [|constructor].
    eapply outcome_ok_weaken; [apply slice_wp; [done|lia|lia]|]. by intros s []. }
  intros d Hd. split; [apply mask31_range|done].
Qed.

Lemma decode_payload_safe p : is_bytes p -> outcome_ok frame_wf (decode_payload h p).
Proof.
  intros Hp. destruct (decode_fixed_safe p Hp) as (? & ? & ? & ?).
  unfold decode_payload. destruct (h_type h); try done;
    eauto using decode_data_safe, decode_headers_safe, decode_settings_safe,
      decode_push_promise_safe, decode_goaway_safe.
  unfold decode_continuation. apply outcome_ok_if; [done|]. intros Hid%stream_wf_nonzero.
  by split.
Qed.
End safety.

(** ** One step of [decode] as a relation between buffer and result

    [decode_view] describes the five ways [decode] can return. *)
Inductive decode_view (c : H2Codec) (buf : bytes) : DecodeResult -> bytes -> Prop :=
| view_short :
    len buf < 9 -> decode_view c buf (NeedMoreData (9 - len buf)) buf
| view_partial n :
    9 <= len buf < 9 + n -> decode_view c buf (NeedMoreData (9 + n - len buf)) buf
| view_unknown u n :
    0 <= n -> 9 + n <= len buf -> FrameType.from_u8 (uf_frame_type u) = None ->
    uf_payload u = [] -> u31 (uf_stream_id u) ->
    decode_view c buf (RFrame (FUnknown u)) (drop_z (9 + n) buf)
| view_too_large h :
    9 <= len buf -> max_frame_size c < h_length h ->
    decode_view c buf (DError (TooLarge (h_length h) (max_frame_size c))) buf
| view_frame h f n :
    header_wf h -> 0 <= n -> 9 + n <= len buf -> n <= max_frame_size c -> frame_wf f ->
    decode_payload h (take_z n (drop_z 9 buf)) = Ok f ->
    decode_view c buf (RFrame f) (drop_z (9 + n) buf)
| view_invalid e n :
    0 <= n -> 9 + n <= len buf ->
    decode_view c buf (DError e) (drop_z (9 + n) buf).

(** [decode] on a buffer with a complete frame header, by the header parse. *)
Lemma parse_wf d0 d1 d2 d3 d4 d5 d6 d7 d8 h :
  Forall u8 [d0; d1; d2; d3; d4; d5; d6; d7; d8] ->
  Header.parse d0 d1 d2 d3 d4 d5 d6 d7 d8 = Some h -> header_wf h.
Proof.
  rewrite !Forall_cons. intros (H0 & H1 & H2 & H3 & H4 & H5 & H6 & H7 & H8 & _) Hp.
  unfold Header.parse in Hp.
  destruct (FrameType.from_u8 d3); [|done]. injection Hp as <-.
  unfold header_wf; simpl. rewrite header_length_arith by done. rewrite land_low_31. width.
Qed.

Lemma decode_spec c buf :
  is_bytes buf -> exists r rest, decode c buf = Some (r, rest) /\ decode_view c buf r rest.
Proof.
  intros Hb. unfold decode, FRAME_HEADER_SIZE.
  destruct (Z.ltb_spec (len buf) 9); [eauto using decode_view|].
  destruct buf as [|b0 [|b1 [|b2 [|b3 [|b4 [|b5 [|b6 [|b7 [|b8 tl]]]]]]]]]; try (slen).
  set (buf := b0 :: _) in *.
  assert (Forall u8 [b0; b1; b2; b3; b4; b5; b6; b7; b8]) as H9.
  { apply (Forall_take _ 9 buf). done. }
  pose proof H9 as H9'. rewrite !Forall_cons in H9'.
  destruct H9' as (H0 & H1 & H2 & H3 & H4 & H5 & H6 & H7 & H8 & _).
  destruct (Header.parse _ _ _ _ _ _ _ _ _) as [h|] eqn:Eh.
  - pose proof (parse_wf _ _ _ _ _ _ _ _ _ _ H9 Eh) as Hwf.
    assert (0 <= h_length h) by (destruct Hwf as (? & _); width).
    destruct (Z.ltb_spec (max_frame_size c) (h_length h)); [eauto using decode_view|].
    unfold Header.total_size, FRAME_HEADER_SIZE.
    destruct (Z.ltb_spec (len buf) (9 + h_length h));
      [do 2 eexists; split; [done|]; apply view_partial; lia|].
    cbv zeta. rewrite drop_drop_z by lia.
    pose proof (decode_payload_safe h Hwf (take_z (h_length h) (drop_z 9 buf))) as Hs.
    specialize (Hs ltac:(auto with width_db)).
    destruct (decode_payload h _) as [f|e|] eqn:Ed; simpl in Hs; [| |done].
    + do 2 eexists. split; [done|]. by eapply view_frame.
    + do 2 eexists. split; [done|]. by eapply view_invalid.
  - rewrite header_length_arith by done.
    assert (0 <= b0 * 65536 + b1 * 256 + b2) by width.
    destruct (Z.ltb_spec (len buf) (9 + (b0 * 65536 + b1 * 256 + b2)));
      [do 2 eexists; split; [done|]; apply view_partial; lia|].
    do 2 eexists. split; [done|]. apply view_unknown; simpl; try done.
    + unfold Header.parse in Eh. by destruct (FrameType.from_u8 b3).
    + apply mask31_range.
Qed.

(** ** Buffer growth *)

(** [decode] once nine bytes [b0..b8] are present, in front of [tl]. *)
Definition decode_body (c : H2Codec) (b0 b1 b2 b3 b4 b5 b6 b7 b8 : Z) (buf : bytes)
    : option (DecodeResult * bytes) :=
  let raw_length := Z.lor (Z.lor (b0 ≪ 16) (b1 ≪ 8)) b2 in
  match Header.parse b0 b1 b2 b3 b4 b5 b6 b7 b8 with
  | None =>
      if len buf <? 9 + raw_length
      then Some (NeedMoreData (9 + raw_length - len buf), buf)
      else Some (RFrame (FUnknown (mkUnknown b3 (Z.land (from_be32 b5 b6 b7 b8) 0x7FFFFFFF) b4 [])),
                 drop_z (9 + raw_length) buf)
  | Some h =>
      if max_frame_size c <? h_length h
      then Some (DError (TooLarge (h_length h) (max_frame_size c)), buf) else
      if len buf <? 9 + h_length h
      then Some (NeedMoreData (9 + h_length h - len buf), buf) else
      match decode_payload h (take_z (h_length h) (drop_z 9 buf)) with
      | Ok f => Some (RFrame f, drop_z (h_length h) (drop_z 9 buf))
      | Err e => Some (DError e, drop_z (h_length h) (drop_z 9 buf))
      | Panic => None
      end
  end.

Lemma decode_eq c b0 b1 b2 b3 b4 b5 b6 b7 b8 tl :
  let buf := b0 :: b1 :: b2 :: b3 :: b4 :: b5 :: b6 :: b7 :: b8 :: tl in
  decode c buf = decode_body c b0 b1 b2 b3 b4 b5 b6 b7 b8 buf.
Proof.
  intros buf. unfold decode, FRAME_HEADER_SIZE.
  rewrite (proj2 (Z.ltb_ge _ _)) by (unfold buf; slen). done.
Qed.

(** Appending bytes behind a complete frame does not change what is decoded. *)
Lemma decode_app c buf more r rest :
  decode c buf = Some (r, rest) -> (forall n, r <> NeedMoreData n) ->
  decode c (buf ++ more) = Some (r, rest ++ more).
Proof.
  intros Hd Hr. destruct (Z.ltb_spec (len buf) 9) as [Hlt|Hge].
  { unfold decode, FRAME_HEADER_SIZE in Hd. rewrite (proj2 (Z.ltb_lt _ _)) in Hd by done.
    injection Hd as <- <-. by destruct (Hr (9 - len buf)). }
  destruct buf as [|b0 [|b1 [|b2 [|b3 [|b4 [|b5 [|b6 [|b7 [|b8 tl]]]]]]]]]; try (slen).
  cbn [app]. rewrite decode_eq in *. set (buf := b0 :: _) in Hd, Hge.
  change (b0 :: _ :: _ :: _ :: _ :: _ :: _ :: _ :: _ :: tl ++ more) with (buf ++ more).
  unfold decode_body in *. destruct (Header.parse _ _ _ _ _ _ _ _ _) as [h|].
  - destruct (max_frame_size c <? h_length h); [by injection Hd as <- <-|].
    destruct (Z.ltb_spec (len buf) (9 + h_length h)) as [Hlt|Hge'].
    { injection Hd as <- <-. by destruct (Hr (9 + h_length h - len buf)). }
    rewrite (proj2 (Z.ltb_ge _ _)) by slen.
    assert (h_length h <= len (drop_z 9 buf)) by (rewrite len_drop_z; lia).
    rewrite (drop_z_app_le 9), take_z_app_le, drop_z_app_le by lia.
    destruct (decode_payload h _); by simplify_eq.
  - match goal with |- context [len _ <? 9 + ?n] => set (k := n) in * end.
    destruct (Z.ltb_spec (len buf) (9 + k)) as [Hlt|Hge'].
    { injection Hd as <- <-. by destruct (Hr (9 + k - len buf)). }
    rewrite (proj2 (Z.ltb_ge _ _)) by slen.
    rewrite drop_z_app_le by lia. by simplify_eq.
Qed.

(** Too few bytes stay too few until the announced number has arrived. *)
Lemma decode_need_more c buf more n b :
  decode c buf = Some (NeedMoreData n, b) ->
  b = buf /\ 0 < n /\
  (len more < n -> exists m, decode c (buf ++ more) = Some (NeedMoreData m, buf ++ more)).
Proof.
  intros Hd. destruct (Z.ltb_spec (len buf) 9) as [Hlt|Hge].
  { unfold decode, FRAME_HEADER_SIZE in *. rewrite (proj2 (Z.ltb_lt _ _)) in Hd by done.
    injection Hd as <- <-. split; [done|]. split; [lia|]. intros Hlen.
    rewrite (proj2 (Z.ltb_lt _ _)) by slen. eauto. }
  destruct buf as [|b0 [|b1 [|b2 [|b3 [|b4 [|b5 [|b6 [|b7 [|b8 tl]]]]]]]]]; try (slen).
  cbn [app]. rewrite decode_eq in *. set (buf := b0 :: _) in *.
  change (b0 :: _ :: _ :: _ :: _ :: _ :: _ :: _ :: _ :: tl ++ more) with (buf ++ more).
  unfold decode_body in *. destruct (Header.parse _ _ _ _ _ _ _ _ _) as [h|].
  - destruct (max_frame_size c <? h_length h); [done|].
    destruct (Z.ltb_spec (len buf) (9 + h_length h)); [|by destruct (decode_payload h _)].
    injection Hd as <- <-. split; [done|]. split; [lia|]. intros Hlen.
    rewrite (proj2 (Z.ltb_lt _ _)) by slen. eauto.
  - match goal with |- context [len _ <? 9 + ?k] =>
      destruct (Z.ltb_spec (len buf) (9 + k)); [|done] end.
    injection Hd as <- <-. split; [done|]. split; [lia|]. intros Hlen.
    rewrite (proj2 (Z.ltb_lt _ _)) by slen. eauto.
Qed.

Lemma encode_append f buf : encode f buf = buf ++ encode f [].
Proof.
  destruct f as [f|f|f|f|f|f|f|f|f|f|f]; try done; simpl.
  - unfold encode_data. by destruct (df_padding f).
  - unfold encode_headers. by destruct (hf_padding f).
  - unfold encode_push_promise. by destruct (pp_padding f).
Qed.

Lemma len_encode f : frame_wf f -> len (encode f []) = 9 + payload_len f.
Proof.
  intros Hwf. destruct f as [f|f|f|f|f|f|f|f|f|f|f]; simpl in Hwf; try done; simpl.
  - destruct Hwf as (_ & _ & Hp). unfold encode_data. apply len_zeros in Hp.
    destruct (df_padding f); slen.
  - destruct Hwf as (_ & _ & Hp & _). unfold encode_headers. apply len_zeros in Hp.
    destruct (hf_padding f), (hf_priority f); slen.
  - unfold encode_settings. destruct (sf_ack f); [slen|].
    rewrite !len_app, len_params. slen.
  - destruct Hwf as (_ & _ & _ & Hp). unfold encode_push_promise. apply len_zeros in Hp.
    destruct (pp_padding f); slen.
  - destruct Hwf as (Hl & _). unfold encode_ping. slen.
  - unfold encode_goaway. slen.
  - unfold encode_continuation. slen.
Qed.

(** ** Frame sequences *)

(** [for frame in frames { H2Codec::encode(frame, buf) }]. *)
Definition encode_frames (fs : list H2Frame) (buf : bytes) : bytes :=
  foldl (fun b f => encode f b) buf fs.

(** [buf] decodes to the frames [fs] with [rest] left over. *)
Inductive decodes (c : H2Codec) : bytes -> list H2Frame -> bytes -> Prop :=
| decodes_nil buf : decodes c buf [] buf
| decodes_cons buf f buf' fs rest :
    decode c buf = Some (RFrame f, buf') -> decodes c buf' fs rest ->
    decodes c buf (f :: fs) rest.

Lemma encode_frames_append fs buf : encode_frames fs buf = buf ++ encode_frames fs [].
Proof.
  revert buf. induction fs as [|f fs IH]; intros buf; [by rewrite app_nil_r|].
  unfold encode_frames in *. cbn [foldl]. rewrite IH, (IH (encode f [])).
  by rewrite (encode_append f buf), <- app_assoc.
Qed.

Lemma encode_frames_cons f fs : encode_frames (f :: fs) [] = encode f [] ++ encode_frames fs [].
Proof. unfold encode_frames. cbn [foldl]. apply encode_frames_append. Qed.

Lemma decodes_encode c fs rest :
  max_frame_size c <= MAX_FRAME_SIZE_LIMIT ->
  Forall (fun f => frame_wf f /\ payload_len f <= max_frame_size c) fs ->
  decodes c (encode_frames fs [] ++ rest) fs rest.
Proof.
  intros Hc. induction 1 as [|f fs [Hwf Hl] Hfs IH]; [constructor|].
  rewrite encode_frames_cons, <- app_assoc.
  econstructor; [by apply roundtrip_frame|done].
Qed.

(** ** The codec's contract *)

(** C30. Decoding undoes encoding: the bytes of a well-formed frame, in front of
    any further input, decode to exactly that frame and leave the further
    input untouched. *)
Theorem decode_encode_roundtrip (c : H2Codec) (f : H2Frame) (rest : bytes) :
  max_frame_size c <= MAX_FRAME_SIZE_LIMIT ->
  frame_wf f -> payload_len f <= max_frame_size c ->
  decode c (encode f [] ++ rest) = Some (RFrame f, rest).
Proof. intros. by apply roundtrip_frame. Qed.

Lemma decode_encode_roundtrip_witness :
  decode codec_new
    (encode (FHeaders (mkHeaders 1 [130; 134] true true (Some (mkPrio true 0 0)) (Some 3))) []
       ++ [1; 2])
  = Some (RFrame (FHeaders (mkHeaders 1 [130; 134] true true (Some (mkPrio true 0 0)) (Some 3))),
          [1; 2]).
Proof.
  apply decode_encode_roundtrip; [done| |by vm_compute].
  repeat split; repeat constructor; done.
Defined.

(** On any input bytes the decoder returns without panicking; what it leaves
    is a suffix of the input, a frame consumes at least its 9-byte header and
    is well formed (or of an unknown type), and a request for more data leaves
    the buffer alone and asks for at least one byte. *)
Theorem decode_total (c : H2Codec) (buf : bytes) :
  is_bytes buf ->
  exists r rest used, decode c buf = Some (r, rest) /\ buf = used ++ rest /\
    match r with
    | RFrame (FUnknown u) =>
        9 <= len used /\ FrameType.from_u8 (uf_frame_type u) = None /\ u31 (uf_stream_id u)
    | RFrame f => 9 <= len used /\ frame_wf f
    | NeedMoreData n => used = [] /\ 0 < n
    | DError _ => True
    end.
Proof.
  intros Hb. destruct (decode_spec c buf Hb) as (r & rest & -> & Hv). exists r, rest.
  destruct Hv as [|n|u n|h|h f n|e n].
  1-2,4: exists []; split_and!; first [done|lia].
  all: exists (take_z (9 + n) buf); split; [done|]; split; [by rewrite take_drop_z|].
  - split; [rewrite len_take_z; lia|done].
  - assert (9 <= len (take_z (9 + n) buf)) by (rewrite len_take_z; lia). by destruct f.
  - done.
Qed.

Lemma decode_total_witness :
  exists r rest used, decode codec_new [0; 0; 1; 9; 4; 0; 0; 0; 3; 7; 255] = Some (r, rest) /\
    [0; 0; 1; 9; 4; 0; 0; 0; 3; 7; 255] = used ++ rest /\
    match r with
    | RFrame (FUnknown u) =>
        9 <= len used /\ FrameType.from_u8 (uf_frame_type u) = None /\ u31 (uf_stream_id u)
    | RFrame f => 9 <= len used /\ frame_wf f
    | NeedMoreData n => used = [] /\ 0 < n
    | DError _ => True
    end.
Proof. apply (decode_total codec_new). repeat constructor; done. Defined.

(** The decoder does not depend on how the stream is cut: once a buffer
    decodes to a frame or an error, the same result is obtained with more input
    behind it, and while it asks for [n] more bytes any shorter addition only
    makes it ask again. *)
Theorem decode_chunk_independent (c : H2Codec) (buf more : bytes) r rest :
  decode c buf = Some (r, rest) ->
  match r with
  | NeedMoreData n => len more < n ->
      exists m, decode c (buf ++ more) = Some (NeedMoreData m, buf ++ more)
  | _ => decode c (buf ++ more) = Some (r, rest ++ more)
  end.
Proof.
  intros Hd. destruct r as [f|n|e]; [by apply decode_app| |by apply decode_app].
  by destruct (decode_need_more c buf more n rest Hd) as (_ & _ & H).
Qed.

Lemma decode_chunk_independent_witness :
  decode codec_new ([0; 0; 0; 4; 1; 0; 0; 0; 0] ++ [7; 7])
  = Some (RFrame (FSettings (mkSettings true [])), [] ++ [7; 7]).
Proof.
  apply (decode_chunk_independent codec_new [0; 0; 0; 4; 1; 0; 0; 0; 0] [7; 7]
           (RFrame (FSettings (mkSettings true []))) []).
  by vm_compute.
Defined.
