(* ===== verification/Huffman.v ===== *)
(** * HPACK Huffman encoding (lkh2/src/hpack_enc/huffman.rs)

    The code table of RFC 7541 Appendix B as the source has it, the length
    computation, and the encoder with its 64-bit accumulator.  The reference
    definition is bit-level: the concatenation of the codes, padded with ones
    and cut into bytes; a reference decoder (RFC 7541, 5.2) inverts it. *)
From S2P Require Import Prelude.

Module huffman.

(** (num_bits, code) for each byte value, and EOS at index 256. *)
Definition ENCODE_TABLE : list (Z * Z) :=
  [
    (13, 0x1ff8); (23, 0x007fffd8); (28, 0x0fffffe2); (28, 0x0fffffe3); (28, 0x0fffffe4);
    (28, 0x0fffffe5); (28, 0x0fffffe6); (28, 0x0fffffe7); (28, 0x0fffffe8);
    (24, 0x00ffffea); (30, 0x3ffffffc); (28, 0x0fffffe9); (28, 0x0fffffea);
    (30, 0x3ffffffd); (28, 0x0fffffeb); (28, 0x0fffffec); (28, 0x0fffffed);
    (28, 0x0fffffee); (28, 0x0fffffef); (28, 0x0ffffff0); (28, 0x0ffffff1);
    (28, 0x0ffffff2); (30, 0x3ffffffe); (28, 0x0ffffff3); (28, 0x0ffffff4);
    (28, 0x0ffffff5); (28, 0x0ffffff6); (28, 0x0ffffff7); (28, 0x0ffffff8);
    (28, 0x0ffffff9); (28, 0x0ffffffa); (28, 0x0ffffffb); (6, 0x14); (10, 0x3f8);
    (10, 0x3f9); (12, 0xffa); (13, 0x1ff9); (6, 0x15); (8, 0xf8); (11, 0x7fa); (10, 0x3fa);
    (10, 0x3fb); (8, 0xf9); (11, 0x7fb); (8, 0xfa); (6, 0x16); (6, 0x17); (6, 0x18);
    (5, 0x0); (5, 0x1); (5, 0x2); (6, 0x19); (6, 0x1a); (6, 0x1b); (6, 0x1c); (6, 0x1d);
    (6, 0x1e); (6, 0x1f); (7, 0x5c); (8, 0xfb); (15, 0x7ffc); (6, 0x20); (12, 0xffb);
    (10, 0x3fc); (13, 0x1ffa); (6, 0x21); (7, 0x5d); (7, 0x5e); (7, 0x5f); (7, 0x60);
    (7, 0x61); (7, 0x62); (7, 0x63); (7, 0x64); (7, 0x65); (7, 0x66); (7, 0x67); (7, 0x68);
    (7, 0x69); (7, 0x6a); (7, 0x6b); (7, 0x6c); (7, 0x6d); (7, 0x6e); (7, 0x6f); (7, 0x70);
    (7, 0x71); (7, 0x72); (8, 0xfc); (7, 0x73); (8, 0xfd); (13, 0x1ffb); (19, 0x7fff0);
    (13, 0x1ffc); (14, 0x3ffc); (6, 0x22); (15, 0x7ffd); (5, 0x3); (6, 0x23); (5, 0x4);
    (6, 0x24); (5, 0x5); (6, 0x25); (6, 0x26); (6, 0x27); (5, 0x6); (7, 0x74); (7, 0x75);
    (6, 0x28); (6, 0x29); (6, 0x2a); (5, 0x7); (6, 0x2b); (7, 0x76); (6, 0x2c); (5, 0x8);
    (5, 0x9); (6, 0x2d); (7, 0x77); (7, 0x78); (7, 0x79); (7, 0x7a); (7, 0x7b);
    (15, 0x7ffe); (11, 0x7fc); (14, 0x3ffd); (13, 0x1ffd); (28, 0x0ffffffc); (20, 0xfffe6);
    (22, 0x003fffd2); (20, 0xfffe7); (20, 0xfffe8); (22, 0x003fffd3); (22, 0x003fffd4);
    (22, 0x003fffd5); (23, 0x007fffd9); (22, 0x003fffd6); (23, 0x007fffda);
    (23, 0x007fffdb); (23, 0x007fffdc); (23, 0x007fffdd); (23, 0x007fffde);
    (24, 0x00ffffeb); (23, 0x007fffdf); (24, 0x00ffffec); (24, 0x00ffffed);
    (22, 0x003fffd7); (23, 0x007fffe0); (24, 0x00ffffee); (23, 0x007fffe1);
    (23, 0x007fffe2); (23, 0x007fffe3); (23, 0x007fffe4); (21, 0x001fffdc);
    (22, 0x003fffd8); (23, 0x007fffe5); (22, 0x003fffd9); (23, 0x007fffe6);
    (23, 0x007fffe7); (24, 0x00ffffef); (22, 0x003fffda); (21, 0x001fffdd); (20, 0xfffe9);
    (22, 0x003fffdb); (22, 0x003fffdc); (23, 0x007fffe8); (23, 0x007fffe9);
    (21, 0x001fffde); (23, 0x007fffea); (22, 0x003fffdd); (22, 0x003fffde);
    (24, 0x00fffff0); (21, 0x001fffdf); (22, 0x003fffdf); (23, 0x007fffeb);
    (23, 0x007fffec); (21, 0x001fffe0); (21, 0x001fffe1); (22, 0x003fffe0);
    (21, 0x001fffe2); (23, 0x007fffed); (22, 0x003fffe1); (23, 0x007fffee);
    (23, 0x007fffef); (20, 0xfffea); (22, 0x003fffe2); (22, 0x003fffe3); (22, 0x003fffe4);
    (23, 0x007ffff0); (22, 0x003fffe5); (22, 0x003fffe6); (23, 0x007ffff1);
    (26, 0x03ffffe0); (26, 0x03ffffe1); (20, 0xfffeb); (19, 0x7fff1); (22, 0x003fffe7);
    (23, 0x007ffff2); (22, 0x003fffe8); (25, 0x01ffffec); (26, 0x03ffffe2);
    (26, 0x03ffffe3); (26, 0x03ffffe4); (27, 0x07ffffde); (27, 0x07ffffdf);
    (26, 0x03ffffe5); (24, 0x00fffff1); (25, 0x01ffffed); (19, 0x7fff2); (21, 0x001fffe3);
    (26, 0x03ffffe6); (27, 0x07ffffe0); (27, 0x07ffffe1); (26, 0x03ffffe7);
    (27, 0x07ffffe2); (24, 0x00fffff2); (21, 0x001fffe4); (21, 0x001fffe5);
    (26, 0x03ffffe8); (26, 0x03ffffe9); (28, 0x0ffffffd); (27, 0x07ffffe3);
    (27, 0x07ffffe4); (27, 0x07ffffe5); (20, 0xfffec); (24, 0x00fffff3); (20, 0xfffed);
    (21, 0x001fffe6); (22, 0x003fffe9); (21, 0x001fffe7); (21, 0x001fffe8);
    (23, 0x007ffff3); (22, 0x003fffea); (22, 0x003fffeb); (25, 0x01ffffee);
    (25, 0x01ffffef); (24, 0x00fffff4); (24, 0x00fffff5); (26, 0x03ffffea);
    (23, 0x007ffff4); (26, 0x03ffffeb); (27, 0x07ffffe6); (26, 0x03ffffec);
    (26, 0x03ffffed); (27, 0x07ffffe7); (27, 0x07ffffe8); (27, 0x07ffffe9);
    (27, 0x07ffffea); (27, 0x07ffffeb); (28, 0x0ffffffe); (27, 0x07ffffec);
    (27, 0x07ffffed); (27, 0x07ffffee); (27, 0x07ffffef); (27, 0x07fffff0);
    (26, 0x03ffffee); (30, 0x3fffffff)
  ].

(** [ENCODE_TABLE[b as usize]] : panics out of range. *)
Definition table_entry (b : Z) : option (Z * Z) := ENCODE_TABLE !! Z.to_nat b.

(** Sum of the code lengths of [src]; [None] is an out-of-range index. *)
Fixpoint code_bits (src : bytes) : option Z :=
  match src with
  | [] => Some 0
  | b :: src => e ← table_entry b; n ← code_bits src; Some (e.1 + n)
  end.

(** [bits.div_ceil(8)]. *)
Definition encoded_len (src : bytes) : option Z :=
  n ← code_bits src; Some ((n + 7) / 8).

(** [while bits_left <= 32 { push; bits <<= 8; bits_left += 8 }]; running out
    of [fuel] is [None]. *)
Fixpoint flush (fuel : nat) (bits bits_left : Z) (dst : bytes) : option (Z * Z * bytes) :=
  if bits_left <=? 32 then
    match fuel with
    | O => None
    | S fuel => flush fuel (as_u64 (bits ≪ 8)) (bits_left + 8) (dst ++ [as_u8 (bits ≫ 32)])
    end
  else Some (bits, bits_left, dst).

(** One iteration of the [for &b in src] loop. *)
Definition encode_step (st : Z * Z * bytes) (b : Z) : option (Z * Z * bytes) :=
  let '(bits, bits_left, dst) := st in
  '(nbits, code) ← table_entry b;
  if bits_left <? nbits then None (* usize subtraction underflow *) else
  let bits := Z.lor bits (as_u64 (code ≪ (bits_left - nbits))) in
  flush 5 bits (bits_left - nbits) dst.

Fixpoint encode_loop (st : Z * Z * bytes) (src : bytes) : option (Z * Z * bytes) :=
  match src with
  | [] => Some st
  | b :: src => st' ← encode_step st b; encode_loop st' src
  end.

Definition encode (src : bytes) (dst : bytes) : option bytes :=
  '(bits, bits_left, dst) ← encode_loop (0, 40, dst) src;
  if negb (bits_left =? 40) then
    let bits := Z.lor bits ((1 ≪ bits_left) - 1) in
    Some (dst ++ [as_u8 (bits ≫ 32)])
  else Some dst.

End huffman.
Import huffman.

(** ** Reference definitions *)

(** The [n] low bits of [v], most significant first. *)
Fixpoint bits_of (n : nat) (v : Z) : list bool :=
  match n with
  | O => []
  | S n => Z.testbit v (Z.of_nat n) :: bits_of n v
  end.

Fixpoint bits_val (l : list bool) : Z :=
  match l with
  | [] => 0
  | b :: l => Z.b2z b * 2 ^ len l + bits_val l
  end.

Definition code_of (b : Z) : list bool :=
  match table_entry b with
  | Some (n, code) => bits_of (Z.to_nat n) code
  | None => []
  end.

Definition huff_bits (src : bytes) : list bool := mjoin (code_of <$> src).

(** Cut into bytes, the last one padded with ones. *)
Fixpoint pack_bits (l : list bool) : bytes :=
  match l with
  | [] => []
  | b7 :: b6 :: b5 :: b4 :: b3 :: b2 :: b1 :: b0 :: tl =>
      bits_val [b7; b6; b5; b4; b3; b2; b1; b0] :: pack_bits tl
  | l => [bits_val (l ++ replicate (8 - length l) true)]
  end.

Definition unpack_bits (bs : bytes) : list bool := mjoin (bits_of 8 <$> bs).

Fixpoint strip_prefix (p l : list bool) : option (list bool) :=
  match p, l with
  | [], _ => Some l
  | a :: p, b :: l => if Bool.eqb a b then strip_prefix p l else None
  | _ :: _, [] => None
  end.

(** The first symbol, from [i] on, whose code is a prefix of the input. *)
Fixpoint find_sym (i : Z) (cs : list (list bool)) (l : list bool) : option (Z * list bool) :=
  match cs with
  | [] => None
  | c :: cs =>
      match strip_prefix c l with
      | Some rest => Some (i, rest)
      | None => find_sym (i + 1) cs l
      end
  end.

Definition codes : list (list bool) := (fun e => bits_of (Z.to_nat e.1) e.2) <$> ENCODE_TABLE.

(** RFC 7541, 5.2: decode symbol by symbol; what is left over must be fewer
    than 8 bits, all ones; the EOS symbol is an error. *)
Fixpoint huff_decode (fuel : nat) (l : list bool) : option bytes :=
  match find_sym 0 codes l with
  | Some (s, rest) =>
      if s =? 256 then None else
      match fuel with
      | O => None
      | S fuel => tl ← huff_decode fuel rest; Some (s :: tl)
      end
  | None => if (length l <? 8)%nat && forallb id l then Some [] else None
  end.

Definition huffman_decode (bs : bytes) : option bytes :=
  huff_decode (length (unpack_bits bs)) (unpack_bits bs).

#[global] Opaque ENCODE_TABLE.

(** ** Facts about the table, by computation *)

Definition table_ok : bool :=
  forallb (fun e => (5 <=? e.1) && (e.1 <=? 30) && (0 <=? e.2) && (e.2 <? 2 ^ e.1)) ENCODE_TABLE.

Lemma table_ok_true : table_ok = true.
Proof. by vm_compute. Qed.

Lemma len_table : length ENCODE_TABLE = 257%nat.
Proof. by vm_compute. Qed.

Lemma table_entry_byte b : 0 <= b <= 256 ->
  exists n code, table_entry b = Some (n, code) /\ 5 <= n <= 30 /\ 0 <= code < 2 ^ n.
Proof.
  intros Hb. unfold table_entry.
  destruct (lookup_lt_is_Some_2 ENCODE_TABLE (Z.to_nat b)) as [[n code] He];
    [rewrite len_table; lia|].
  exists n, code. split; [done|].
  pose proof table_ok_true as Ht. unfold table_ok in Ht. rewrite forallb_forall in Ht.
  assert (In (n, code) ENCODE_TABLE) as Hin.
  { apply list_elem_of_In, list_elem_of_lookup. eauto. }
  apply Ht in Hin. cbn [fst snd] in Hin. rewrite !andb_true_iff in Hin. lia.
Qed.

(** No code is a prefix of another one. *)
Definition prefix_free (cs : list (list bool)) : bool :=
  forallb (fun i => forallb (fun j =>
    Nat.eqb i j ||
    match cs !! i, cs !! j with
    | Some a, Some b => match strip_prefix a b with Some _ => false | None => true end
    | _, _ => true
    end) (seq 0 (length cs))) (seq 0 (length cs)).

Lemma codes_prefix_free : prefix_free codes = true.
Proof. by vm_compute. Qed.

(** ** Bit strings and their values *)

Lemma length_bits_of n v : length (bits_of n v) = n.
Proof. induction n; simpl; auto. Qed.

Lemma bits_val_bound l : 0 <= bits_val l < 2 ^ len l.
Proof.
  induction l as [|b l IH]; [by vm_compute|]. cbn [bits_val].
  rewrite len_cons, Z.pow_add_r by (lia || apply len_nonneg).
  destruct b; simpl Z.b2z; lia.
Qed.

Lemma bits_val_app l k : bits_val (l ++ k) = bits_val l * 2 ^ len k + bits_val k.
Proof.
  induction l as [|b l IH]; [done|]. cbn [app bits_val]. rewrite IH, len_app.
  rewrite Z.pow_add_r by apply len_nonneg. lia.
Qed.

Lemma bits_val_bits_of n v : bits_val (bits_of n v) = v mod 2 ^ Z.of_nat n.
Proof.
  induction n as [|n IH]; [by rewrite Z.mod_1_r|]. cbn [bits_of bits_val].
  unfold len. rewrite IH, length_bits_of, Nat2Z.inj_succ, Z.pow_succ_r by lia.
  assert (0 < 2 ^ Z.of_nat n) by (apply Z.pow_pos_nonneg; lia).
  rewrite (Z.mul_comm 2), Z.rem_mul_r by lia. rewrite <- Z.testbit_spec' by lia. lia.
Qed.

Lemma bits_of_val l : bits_of (length l) (bits_val l) = l.
Proof.
  enough (forall n, (n <= length l)%nat ->
    bits_of n (bits_val l) = drop (length l - n) l) as H.
  { rewrite H by lia. by rewrite Nat.sub_diag. }
  induction l as [|b l IH]; intros n Hn; [simpl in Hn; by replace n with 0%nat by lia|].
  assert (forall m, (m <= length l)%nat ->
    bits_of m (Z.b2z b * 2 ^ len l + bits_val l) = bits_of m (bits_val l)) as Hlow.
  { induction m as [|m IHm]; intros Hm; [done|]. cbn [bits_of]. rewrite IHm by lia. f_equal.
    rewrite <- (Z.mod_pow2_bits_low (_ + _) (len l)), <- (Z.mod_pow2_bits_low (bits_val l) (len l))
      by (unfold len; lia).
    by rewrite Z.add_comm, Z_mod_plus_full. }
  cbn [bits_val]. destruct (decide (n <= length l)%nat) as [Hle|Hgt].
  - rewrite Hlow, IH by done. cbn [length].
    by replace (S (length l) - n)%nat with (S (length l - n)) by lia.
  - simpl in Hn. replace n with (S (length l)) by lia. cbn [bits_of length].
    rewrite Hlow, IH by lia. rewrite !Nat.sub_diag. cbn [drop]. f_equal.
    pose proof (bits_val_bound l) as Hb. unfold len in *.
    apply Z.b2z_inj. rewrite Z.testbit_spec' by lia.
    rewrite Z.div_add_l by (apply Z.pow_nonzero; lia).
    rewrite (Z.div_small (bits_val l)) by done. by destruct b.
Qed.

Lemma code_of_entry b n code :
  table_entry b = Some (n, code) -> 0 <= n -> 0 <= code < 2 ^ n ->
  len (code_of b) = n /\ bits_val (code_of b) = code.
Proof.
  intros He Hn Hc. unfold code_of. rewrite He. unfold len.
  rewrite length_bits_of, bits_val_bits_of, Z2Nat.id by done.
  split; [done|]. by apply Z.mod_small.
Qed.

Lemma pack_bits_8 (l tl : list bool) :
  length l = 8%nat -> pack_bits (l ++ tl) = bits_val l :: pack_bits tl.
Proof. do 9 (destruct l as [|? l]; try done). Qed.

Lemma pack_bits_short (l : list bool) :
  (0 < length l < 8)%nat -> pack_bits l = [bits_val (l ++ replicate (8 - length l) true)].
Proof. do 8 (destruct l as [|? l]; simpl; try lia; try done). Qed.

(** ** The 64-bit accumulator

    [acc_inv bits bl p]: the low 40 bits of [bits] hold the pending bit string
    [p] left-aligned, the [bl = 40 - len p] bits below it clear.  Bits already
    written out may linger above position 40. *)
Definition acc_inv (bits bl : Z) (p : list bool) : Prop :=
  bl = 40 - len p /\ 0 <= bl /\ 0 <= bits < 2 ^ 64 /\
  bits mod 2 ^ 40 = bits_val p * 2 ^ bl.

Lemma pow2_pos n : 0 <= n -> 0 < 2 ^ n.
Proof. intros. by apply Z.pow_pos_nonneg. Qed.

Lemma pow2_split a b : 0 <= a -> 0 <= b -> 2 ^ (a + b) = 2 ^ a * 2 ^ b.
Proof. intros. by apply Z.pow_add_r. Qed.

(** Writing out the top byte of the 40-bit window. *)
Lemma acc_shift bits bl p q :
  acc_inv bits bl (p ++ q) -> length p = 8%nat ->
  as_u8 (bits ≫ 32) = bits_val p /\ acc_inv (as_u64 (bits ≪ 8)) (bl + 8) q.
Proof.
  intros (-> & Hbl & Hb & Hm) Hp.
  assert (len p = 8) as Hp8 by (unfold len; by rewrite Hp).
  rewrite len_app in *. rewrite Hp8 in *. pose proof (len_nonneg q).
  pose proof (bits_val_bound p) as Bp. pose proof (bits_val_bound q) as Bq.
  rewrite Hp8 in Bp. rewrite bits_val_app in Hm.
  set (P := bits_val p) in *. set (Q := bits_val q) in *.
  assert (bits mod 2 ^ 40 = P * 2 ^ 32 + Q * 2 ^ (32 - len q)) as Hm'.
  { rewrite Hm. replace (2 ^ 32) with (2 ^ len q * 2 ^ (32 - len q))
      by (rewrite <- pow2_split by lia; f_equal; lia).
    replace (40 - (8 + len q)) with (32 - len q) by lia. lia. }
  assert (0 <= Q * 2 ^ (32 - len q) < 2 ^ 32) as HQ.
  { replace (2 ^ 32) with (2 ^ len q * 2 ^ (32 - len q))
      by (rewrite <- pow2_split by lia; f_equal; lia).
    pose proof (pow2_pos (32 - len q)). nia. }
  change (2 ^ 40) with 1099511627776 in *. change (2 ^ 32) with 4294967296 in *.
  change (2 ^ 8) with 256 in *. change (2 ^ 64) with 18446744073709551616 in *.
  set (R := Q * 2 ^ (32 - len q)) in *.
  split.
  - rewrite shiftr_div by done. change (2 ^ 32) with 4294967296. unfold as_u8.
    clearbody R P. clear - Hm' HQ Bp Hb. Z.div_mod_to_equations. lia.
  - unfold acc_inv, as_u64. split; [lia|]. split; [lia|].
    rewrite shiftl_mul by done. change (2 ^ 8) with 256. split; [apply Z.mod_pos_bound; lia|].
    change (2 ^ 40) with 1099511627776.
    replace (40 - (8 + len q) + 8) with (8 + (32 - len q)) by lia.
    rewrite pow2_split by lia. change (2 ^ 8) with 256. fold Q.
    replace (Q * (256 * 2 ^ (32 - len q))) with (256 * R) by (unfold R; ring).
    clearbody R P. clear - Hm' HQ Bp Hb. Z.div_mod_to_equations. lia.
Qed.

Lemma pack_bits_app q tl k :
  length q = (8 * k)%nat -> pack_bits (q ++ tl) = pack_bits q ++ pack_bits tl.
Proof.
  revert q. induction k as [|k IH]; intros q Hq.
  { destruct q; [done|simpl in Hq; lia]. }
  rewrite <- (take_drop 8 q), <- app_assoc.
  rewrite (pack_bits_8 _ (drop 8 q ++ tl)), (pack_bits_8 _ (drop 8 q)) by (rewrite length_take; lia).
  rewrite IH by (rewrite length_drop; lia). done.
Qed.

Lemma flush_spec fuel : forall bits bl p dst,
  acc_inv bits bl p -> (length p < 8 * S fuel)%nat ->
  exists bits' p' q k,
    flush fuel bits bl dst = Some (bits', 40 - len p', dst ++ pack_bits q) /\
    p = q ++ p' /\ length q = (8 * k)%nat /\ (length p' < 8)%nat /\ acc_inv bits' (40 - len p') p'.
Proof.
  induction fuel as [|fuel IH]; intros bits bl p dst Hinv Hlen; pose proof Hinv as (Hbl & _);
    cbn [flush].
  - rewrite (proj2 (Z.leb_gt _ _)) by (unfold len in *; lia).
    exists bits, p, [], 0%nat. cbn [pack_bits]. rewrite app_nil_r, <- Hbl.
    split_and!; auto; lia.
  - destruct (Z.leb_spec bl 32) as [Hle|Hgt].
    + assert (8 <= length p)%nat by (unfold len in *; lia).
      rewrite <- (take_drop 8 p) in Hinv.
      destruct (acc_shift _ _ _ _ Hinv) as [Hbyte Hinv']; [rewrite length_take; lia|].
      destruct (IH _ _ _ (dst ++ [as_u8 (bits ≫ 32)]) Hinv') as (b' & p' & q & k & Hf & Hp & Hq & Hl & Hi).
      { rewrite length_drop. lia. }
      exists b', p', (take 8 p ++ q), (S k). split_and!; [|..|done|done].
      * rewrite Hf, Hbyte, pack_bits_8 by (rewrite length_take; lia). by rewrite <- app_assoc.
      * by rewrite <- app_assoc, <- Hp, take_drop.
      * rewrite length_app, length_take. lia.
    + exists bits, p, [], 0%nat. cbn [pack_bits]. rewrite app_nil_r, <- Hbl.
      split_and!; auto; unfold len in *; lia.
Qed.

(** Or-ing a code in below the pending bits. *)
Lemma acc_add bits bl p n code cs :
  acc_inv bits bl p -> 0 <= n <= bl -> len cs = n -> bits_val cs = code -> 0 <= code < 2 ^ n ->
  acc_inv (Z.lor bits (as_u64 (code ≪ (bl - n)))) (bl - n) (p ++ cs).
Proof.
  intros (-> & Hbl & Hb & Hm) Hn Hcs Hv Hc.
  pose proof (len_nonneg p). set (s := 40 - len p - n).
  assert (2 ^ (40 - len p) = 2 ^ n * 2 ^ s) as Hsplit
    by (rewrite <- pow2_split by lia; f_equal; lia).
  pose proof (pow2_pos s ltac:(lia)) as Hs. pose proof (pow2_pos n ltac:(lia)).
  assert (2 ^ 40 = 2 ^ len p * 2 ^ (40 - len p)) as H40
    by (rewrite <- pow2_split by lia; f_equal; lia).
  assert (0 <= code * 2 ^ s < 2 ^ (40 - len p)) as Hcode by nia.
  assert (2 ^ (40 - len p) <= 2 ^ 40) by (apply Z.pow_le_mono_r; lia).
  rewrite shiftl_mul by lia. fold s.
  unfold as_u64. rewrite Z.mod_small by (change (2 ^ 40) with 1099511627776 in *; lia).
  assert (bits mod 2 ^ (40 - len p) = 0) as Hlow.
  { pose proof (pow2_pos (40 - len p) ltac:(lia)). pose proof (pow2_pos (len p) ltac:(lia)).
    rewrite (Z.div_mod bits (2 ^ 40)) by (by vm_compute). rewrite Hm, H40.
    replace (2 ^ len p * 2 ^ (40 - len p) * (bits / (2 ^ len p * 2 ^ (40 - len p))) +
             bits_val p * 2 ^ (40 - len p))
      with ((2 ^ len p * (bits / (2 ^ len p * 2 ^ (40 - len p))) + bits_val p) * 2 ^ (40 - len p))
      by ring.
    by apply Z_mod_mult. }
  rewrite (lor_add_aligned _ _ (40 - len p)) by (lia || done).
  assert (code * 2 ^ s + bits mod 2 ^ 40 < 2 ^ 40).
  { pose proof (bits_val_bound p). rewrite Hm, H40. nia. }
  unfold acc_inv. rewrite len_app, Hcs. split; [lia|]. split; [lia|].
  change (2 ^ 64) with 18446744073709551616 in *.
  rewrite bits_val_app, Hv, Hcs. fold s.
  replace ((bits_val p * 2 ^ n + code) * 2 ^ s)
    with (bits_val p * 2 ^ (40 - len p) + code * 2 ^ s) by (rewrite Hsplit; ring).
  rewrite <- Hm. change (2 ^ 40) with 1099511627776 in *.
  set (R := code * 2 ^ s) in *. clearbody R.
  assert (0 <= R) by lia. clear -Hb H2 H3. Z.div_mod_to_equations. lia.
Qed.

Lemma encode_loop_spec src : is_bytes src -> forall bits p dst,
  acc_inv bits (40 - len p) p -> (length p < 8)%nat ->
  exists bits' p' q k,
    encode_loop (bits, 40 - len p, dst) src = Some (bits', 40 - len p', dst ++ pack_bits q) /\
    p ++ huff_bits src = q ++ p' /\ length q = (8 * k)%nat /\
    (length p' < 8)%nat /\ acc_inv bits' (40 - len p') p'.
Proof.
  induction 1 as [|b src Hb Hsrc IH]; intros bits p dst Hinv Hp; cbn [encode_loop].
  { exists bits, p, [], 0%nat. cbn [pack_bits]. rewrite !app_nil_r. done. }
  destruct (table_entry_byte b ltac:(width)) as (n & code & He & Hn & Hc).
  destruct (code_of_entry b n code He ltac:(lia) Hc) as [Hl Hv].
  unfold encode_step. rewrite He. cbn [mbind option_bind].
  rewrite (proj2 (Z.ltb_ge _ _)) by (unfold len; lia).
  pose proof (acc_add _ _ _ n code _ Hinv ltac:(unfold len; lia) Hl Hv Hc) as Hinv'.
  destruct (flush_spec 5 _ _ _ dst Hinv') as (b1 & p1 & q1 & k1 & -> & Hq1 & Hk1 & Hp1 & Hi1).
  { rewrite length_app. unfold len in Hl. lia. }
  cbn [mbind option_bind].
  destruct (IH b1 p1 (dst ++ pack_bits q1) Hi1 Hp1) as (b2 & p2 & q2 & k2 & -> & Hq2 & Hk2 & Hp2 & Hi2).
  exists b2, p2, (q1 ++ q2), (k1 + k2)%nat. split_and!; [|..|done|done].
  - by rewrite (pack_bits_app q1 q2 k1 Hk1), app_assoc.
  - change (huff_bits (b :: src)) with (code_of b ++ huff_bits src).
    rewrite app_assoc, Hq1, <- !app_assoc. by f_equal.
  - rewrite length_app. lia.
Qed.

(** Padding the last byte with ones. *)
Lemma acc_pad bits p :
  acc_inv bits (40 - len p) p -> (0 < length p < 8)%nat ->
  as_u8 (Z.lor bits ((1 ≪ (40 - len p)) - 1) ≫ 32)
    = bits_val (p ++ replicate (8 - length p) true).
Proof.
  intros Hinv Hp. pose proof Hinv as (_ & Hbl & _).
  set (ones := replicate (Z.to_nat (40 - len p)) true).
  assert (forall n, bits_val (replicate n true) = 2 ^ Z.of_nat n - 1) as Hones.
  { induction n as [|n IHn]; [done|]. cbn [replicate bits_val]. rewrite IHn, len_replicate.
    rewrite Nat2Z.inj_succ, Z.pow_succ_r by lia. simpl Z.b2z. lia. }
  assert (bits_val ones = (1 ≪ (40 - len p)) - 1) as Hv.
  { unfold ones. rewrite Hones, Z2Nat.id by done. by rewrite Z.shiftl_1_l. }
  assert (len ones = 40 - len p) as Hl by (unfold ones; rewrite len_replicate; lia).
  pose proof (acc_add _ _ _ (40 - len p) (bits_val ones) ones Hinv ltac:(lia) Hl eq_refl) as Hadd.
  rewrite Z.sub_diag, Z.shiftl_0_r in Hadd.
  specialize (Hadd ltac:(rewrite <- Hl; apply bits_val_bound)).
  unfold as_u64 in Hadd. rewrite Z.mod_small in Hadd.
  2:{ pose proof (bits_val_bound ones). rewrite Hl in *.
      pose proof (Z.pow_le_mono_r 2 (40 - len p) 40 ltac:(lia) ltac:(unfold len; lia)).
      change (2 ^ 40) with 1099511627776 in *. lia. }
  rewrite <- Hv. unfold ones in *.
  replace (Z.to_nat (40 - len p)) with ((8 - length p) + 32)%nat in * by (unfold len; lia).
  rewrite replicate_add, app_assoc in Hadd.
  apply (acc_shift _ _ (p ++ replicate (8 - length p) true)) in Hadd; [|by rewrite length_app, length_replicate; lia].
  destruct Hadd as [<- _]. by rewrite replicate_add.
Qed.

Lemma encode_ref src dst :
  is_bytes src -> encode src dst = Some (dst ++ pack_bits (huff_bits src)).
Proof.
  intros Hsrc. unfold encode.
  destruct (encode_loop_spec src Hsrc 0 [] dst) as (b & p & q & k & Hl & Hb & Hk & Hp & Hi);
    [by vm_compute|simpl; lia|].
  change (40 - len []) with 40 in Hl. rewrite Hl. cbn [mbind option_bind].
  rewrite app_nil_l in Hb. rewrite Hb, (pack_bits_app q p k Hk).
  destruct (decide (length p = 0%nat)) as [H0|H0].
  - destruct p; [|done]. cbn [pack_bits]. by rewrite app_nil_r.
  - rewrite (proj2 (Z.eqb_neq _ _)) by (unfold len; lia). cbn [negb].
    rewrite acc_pad, (pack_bits_short p) by (done || lia). by rewrite <- app_assoc.
Qed.

Lemma len_pack_bits l : len (pack_bits l) = (len l + 7) / 8.
Proof.
  remember (length l) as n eqn:Hn. revert l Hn.
  induction n as [n IH] using (well_founded_induction Nat.lt_wf_0). intros l Hn.
  destruct (decide (8 <= n)%nat) as [H8|H8].
  - rewrite <- (take_drop 8 l) at 1. rewrite pack_bits_8 by (rewrite length_take; lia).
    rewrite len_cons, (IH (n - 8)%nat) by (rewrite ?length_drop; lia).
    unfold len. rewrite length_drop, <- Hn. Z.div_mod_to_equations. lia.
  - destruct (decide (n = 0)%nat) as [->|H0]; [by destruct l|].
    rewrite pack_bits_short by lia. unfold len. rewrite <- Hn. cbn [length].
    Z.div_mod_to_equations. lia.
Qed.

Lemma code_bits_len src : is_bytes src -> code_bits src = Some (len (huff_bits src)).
Proof.
  induction 1 as [|b src Hb Hsrc IH]; [done|]. cbn [code_bits].
  destruct (table_entry_byte b ltac:(width)) as (n & code & He & Hn & Hc).
  destruct (code_of_entry b n code He ltac:(lia) Hc) as [Hl _].
  rewrite He, IH. cbn [mbind option_bind fst].
  change (huff_bits (b :: src)) with (code_of b ++ huff_bits src).
  by rewrite len_app, Hl.
Qed.

Lemma encoded_len_ref src :
  is_bytes src -> encoded_len src = Some (len (pack_bits (huff_bits src))).
Proof.
  intros Hsrc. unfold encoded_len. rewrite code_bits_len by done. cbn [mbind option_bind].
  by rewrite len_pack_bits.
Qed.

(** ** The reference decoder inverts the encoder *)

Lemma strip_prefix_app p l : strip_prefix p (p ++ l) = Some l.
Proof. induction p as [|b p IH]; [done|]. simpl. by rewrite Bool.eqb_reflx. Qed.

Lemma strip_prefix_Some p l r : strip_prefix p l = Some r -> l = p ++ r.
Proof.
  revert l. induction p as [|a p IH]; intros l H; simpl in *; [by simplify_eq|].
  destruct l as [|b l]; [done|]. destruct (Bool.eqb_spec a b); [|done].
  subst. f_equal. auto.
Qed.

(** A code that is a prefix of [c ++ rest] is comparable with [c]. *)
Lemma strip_prefix_compare a c rest r :
  strip_prefix a (c ++ rest) = Some r ->
  (exists x, strip_prefix a c = Some x) \/ (exists x, strip_prefix c a = Some x).
Proof.
  revert c r. induction a as [|x a IH]; intros c r H; [left; by eexists|].
  destruct c as [|y c]; [right; by eexists|]. simpl in H |- *.
  destruct x, y; simpl in *; try done; eauto.
Qed.

Lemma codes_lookup_prefix i j a b :
  codes !! i = Some a -> codes !! j = Some b -> i <> j -> strip_prefix a b = None.
Proof.
  intros Ha Hb Hij. pose proof codes_prefix_free as Hp. unfold prefix_free in Hp.
  rewrite forallb_forall in Hp. pose proof (lookup_lt_Some _ _ _ Ha). pose proof (lookup_lt_Some _ _ _ Hb).
  assert (In i (seq 0 (length codes))) as Hi by (apply in_seq; lia).
  apply Hp in Hi. rewrite forallb_forall in Hi.
  assert (In j (seq 0 (length codes))) as Hj by (apply in_seq; lia).
  apply Hi in Hj. rewrite Ha, Hb in Hj.
  destruct (Nat.eqb_spec i j); [done|]. simpl in Hj. by destruct (strip_prefix a b).
Qed.

Lemma find_sym_spec cs i c rest :
  (forall k a, cs !! k = Some a -> (k < i)%nat -> strip_prefix a (c ++ rest) = None) ->
  cs !! i = Some c -> forall n, find_sym n cs (c ++ rest) = Some (n + Z.of_nat i, rest).
Proof.
  revert i. induction cs as [|d cs IH]; intros i Hlt Hi n; [done|]. destruct i as [|i]; simpl in *.
  - simplify_eq. rewrite strip_prefix_app. do 2 f_equal. lia.
  - rewrite (Hlt 0%nat d) by (done || lia). rewrite (IH i); [do 2 f_equal; lia| |done].
    intros k a Hk Hki. apply (Hlt (S k)); [done|lia].
Qed.

Lemma find_sym_code i c rest :
  codes !! i = Some c -> find_sym 0 codes (c ++ rest) = Some (Z.of_nat i, rest).
Proof.
  intros Hi. rewrite (find_sym_spec codes i c rest); [done| |done].
  intros k a Hk Hki. destruct (strip_prefix a (c ++ rest)) eqn:E; [|done].
  destruct (strip_prefix_compare _ _ _ _ E) as [[x Hx]|[x Hx]].
  - rewrite (codes_lookup_prefix k i a c) in Hx by (done || lia). done.
  - rewrite (codes_lookup_prefix i k c a) in Hx by (done || lia). done.
Qed.

Lemma codes_code_of b : 0 <= b <= 256 -> codes !! Z.to_nat b = Some (code_of b).
Proof.
  intros Hb. destruct (table_entry_byte b Hb) as (n & code & He & _).
  unfold codes, code_of. rewrite list_lookup_fmap, He. by unfold table_entry in He; rewrite He.
Qed.

Lemma find_sym_byte b rest : u8 b -> find_sym 0 codes (code_of b ++ rest) = Some (b, rest).
Proof.
  intros Hb. rewrite (find_sym_code (Z.to_nat b)); [do 2 f_equal; width|].
  apply codes_code_of. width.
Qed.

(** Fewer than eight ones are a proper prefix of the EOS code, so no symbol is
    found in them. *)
Lemma find_sym_padding n : (n < 8)%nat -> find_sym 0 codes (replicate n true) = None.
Proof. intros. do 8 (destruct n as [|n]; [by vm_compute|]). lia. Qed.

Lemma huff_decode_spec src n : is_bytes src -> (n < 8)%nat -> forall fuel,
  (length src <= fuel)%nat -> huff_decode fuel (huff_bits src ++ replicate n true) = Some src.
Proof.
  intros Hsrc Hn. induction Hsrc as [|b src Hb Hsrc IH]; intros fuel Hf.
  - change (huff_bits []) with (@nil bool). rewrite app_nil_l.
    destruct fuel; cbn [huff_decode]; rewrite find_sym_padding by done;
      rewrite length_replicate; (do 8 (destruct n as [|n]; [done|])); lia.
  - change (huff_bits (b :: src)) with (code_of b ++ huff_bits src).
    destruct fuel as [|fuel]; [simpl in Hf; lia|]. cbn [huff_decode].
    rewrite <- app_assoc, find_sym_byte by done.
    rewrite (proj2 (Z.eqb_neq _ _)) by width. rewrite IH by (simpl in Hf; lia). done.
Qed.

Lemma unpack_pack l : exists n, (n < 8)%nat /\ unpack_bits (pack_bits l) = l ++ replicate n true.
Proof.
  remember (length l) as m eqn:Hm. revert l Hm.
  induction m as [m IH] using (well_founded_induction Nat.lt_wf_0). intros l Hm.
  assert (forall k : list bool, length k = 8%nat -> bits_of 8 (bits_val k) = k) as H8.
  { intros k Hk. rewrite <- Hk. apply bits_of_val. }
  destruct (decide (8 <= m)%nat) as [Hge|Hlt].
  - destruct (IH (m - 8)%nat ltac:(lia) (drop 8 l)) as (n & Hn & Hu); [rewrite length_drop; lia|].
    exists n. split; [done|]. rewrite <- (take_drop 8 l) at 1.
    rewrite pack_bits_8 by (rewrite length_take; lia).
    change (unpack_bits (?x :: ?y)) with (bits_of 8 x ++ unpack_bits y).
    rewrite H8, Hu, app_assoc, take_drop by (rewrite length_take; lia). done.
  - destruct (decide (m = 0)%nat) as [->|H0].
    { destruct l; [|done]. exists 0%nat. split; [lia|done]. }
    exists (8 - length l)%nat. split; [lia|]. rewrite pack_bits_short by lia.
    change (unpack_bits [?x]) with (bits_of 8 x ++ []). rewrite app_nil_r.
    apply H8. rewrite length_app, length_replicate. lia.
Qed.

Lemma huffman_decode_pack src :
  is_bytes src -> huffman_decode (pack_bits (huff_bits src)) = Some src.
Proof.
  intros Hsrc. unfold huffman_decode.
  destruct (unpack_pack (huff_bits src)) as (n & Hn & ->).
  apply huff_decode_spec; [done|done|]. rewrite length_app.
  assert (length src <= length (huff_bits src))%nat; [|lia].
  clear n Hn. induction Hsrc as [|b src Hb Hsrc IH]; [simpl; lia|].
  change (huff_bits (b :: src)) with (code_of b ++ huff_bits src). rewrite length_app.
  destruct (table_entry_byte b ltac:(width)) as (n & code & He & Hn & Hc).
  destruct (code_of_entry b n code He ltac:(lia) Hc) as [Hl _]. unfold len in Hl.
  cbn [length]. lia.
Qed.

Lemma is_bytes_pack l : is_bytes (pack_bits l).
Proof.
  remember (length l) as m eqn:Hm. revert l Hm.
  induction m as [m IH] using (well_founded_induction Nat.lt_wf_0). intros l Hm.
  assert (forall k : list bool, length k = 8%nat -> u8 (bits_val k)) as H8.
  { intros k Hk. pose proof (bits_val_bound k) as Hb. unfold len in Hb. rewrite Hk in Hb.
    change (2 ^ Z.of_nat 8) with 256 in Hb. done. }
  destruct (decide (8 <= m)%nat) as [Hge|Hlt].
  - rewrite <- (take_drop 8 l), pack_bits_8 by (rewrite length_take; lia).
    apply is_bytes_cons. split; [apply H8; rewrite length_take; lia|].
    apply (IH (m - 8)%nat); [lia|]. rewrite length_drop. lia.
  - destruct (decide (m = 0)%nat) as [->|H0]; [destruct l; [constructor|done]|].
    rewrite pack_bits_short by lia. apply is_bytes_cons. split; [|constructor].
    apply H8. rewrite length_app, length_replicate. lia.
Qed.

(** ** Claims *)

(** The Huffman encoder with its 64-bit accumulator neither underflows nor
    loses bits: on every byte string it appends exactly the concatenated codes,
    padded with ones to a byte boundary, and [encoded_len] predicts the number
    of bytes it appends. *)
Theorem huffman_encode_refines (src dst : bytes) :
  is_bytes src ->
  encode src dst = Some (dst ++ pack_bits (huff_bits src)) /\
  encoded_len src = Some (len (pack_bits (huff_bits src))).
Proof. intros Hsrc. split; [by apply encode_ref|by apply encoded_len_ref]. Qed.

Lemma huffman_encode_refines_witness :
  encode (ascii_bytes "hello") [7] = Some ([7] ++ pack_bits (huff_bits (ascii_bytes "hello"))) /\
  encoded_len (ascii_bytes "hello") = Some (len (pack_bits (huff_bits (ascii_bytes "hello")))).
Proof. apply huffman_encode_refines. repeat constructor; done. Defined.

(** Huffman coding loses nothing: decoding by the rules of RFC 7541 section
    5.2 (greedy prefix decoding, padding of fewer than eight ones, EOS refused)
    gives back every encoded byte string. *)
Theorem huffman_roundtrip (src : bytes) :
  is_bytes src -> (out ← encode src []; huffman_decode out) = Some src.
Proof. intros Hsrc. rewrite encode_ref by done. by apply huffman_decode_pack. Qed.

Lemma huffman_roundtrip_witness :
  (out ← encode (ascii_bytes "www.example.com") []; huffman_decode out)
  = Some (ascii_bytes "www.example.com").
Proof. apply huffman_roundtrip. repeat constructor; done. Defined.
