(* ===== verification/HpackTable.v ===== *)
(** * HPACK tables (lkh2/src/hpack_enc/table.rs)

    The static table, the dynamic table with its eviction loops, and the header
    search.  The invariant ties the cached [size] to the entries; eviction is
    shown equal to "keep the longest newest-first prefix that fits". *)
From S2P Require Import Prelude.

Module table.

Definition static_strings : list (string * string) :=
  [
   (":authority", "");
   (":method", "GET");
   (":method", "POST");
   (":path", "/");
   (":path", "/index.html");
   (":scheme", "http");
   (":scheme", "https");
   (":status", "200");
   (":status", "204");
   (":status", "206");
   (":status", "304");
   (":status", "400");
   (":status", "404");
   (":status", "500");
   ("accept-charset", "");
   ("accept-encoding", "gzip, deflate");
   ("accept-language", "");
   ("accept-ranges", "");
   ("accept", "");
   ("access-control-allow-origin", "");
   ("age", "");
   ("allow", "");
   ("authorization", "");
   ("cache-control", "");
   ("content-disposition", "");
   ("content-encoding", "");
   ("content-language", "");
   ("content-length", "");
   ("content-location", "");
   ("content-range", "");
   ("content-type", "");
   ("cookie", "");
   ("date", "");
   ("etag", "");
   ("expect", "");
   ("expires", "");
   ("from", "");
   ("host", "");
   ("if-match", "");
   ("if-modified-since", "");
   ("if-none-match", "");
   ("if-range", "");
   ("if-unmodified-since", "");
   ("last-modified", "");
   ("link", "");
   ("location", "");
   ("max-forwards", "");
   ("proxy-authenticate", "");
   ("proxy-authorization", "");
   ("range", "");
   ("referer", "");
   ("refresh", "");
   ("retry-after", "");
   ("server", "");
   ("set-cookie", "");
   ("strict-transport-security", "");
   ("transfer-encoding", "");
   ("user-agent", "");
   ("vary", "");
   ("via", "");
   ("www-authenticate", "")
  ]%string.

Definition STATIC_TABLE : list (bytes * bytes) :=
  (fun '(n, v) => (ascii_bytes n, ascii_bytes v)) <$> static_strings.

Definition STATIC_TABLE_LEN : Z := 61.

Inductive TableMatch : Type :=
| Full (idx : Z)
| NameOnly (idx : Z).

(** [entries] is the [VecDeque], front (newest) first. *)
Record DynamicTable : Type := mkTable {
  entries : list (bytes * bytes);
  size : Z;
  max_size : Z;
}.

Definition new (max_size : Z) : DynamicTable :=
  {| entries := []; size := 0; max_size := max_size |}.

Definition entry_size (name value : bytes) : Z := len name + len value + 32.

Definition pop_back {A} (l : list A) : option (list A * A) :=
  match reverse l with
  | [] => None
  | x :: r => Some (reverse r, x)
  end.

(** [while self.size + extra > self.max_size { if let Some((n, v)) = pop_back
    { self.size -= entry_size } }].  With the table empty the source would spin
    forever, so running out of [fuel] is [None]. *)
Fixpoint evict (fuel : nat) (extra : Z) (t : DynamicTable) : option DynamicTable :=
  if max_size t <? size t + extra then
    match fuel with
    | O => None
    | S fuel =>
        match pop_back (entries t) with
        | Some (rest, (n, v)) =>
            evict fuel extra {| entries := rest; size := size t - entry_size n v;
                                max_size := max_size t |}
        | None => evict fuel extra t
        end
    end
  else Some t.

Definition insert (name value : bytes) (t : DynamicTable) : option DynamicTable :=
  let entry_sz := entry_size name value in
  if max_size t <? entry_sz then
    Some {| entries := []; size := 0; max_size := max_size t |}
  else
    t ← evict (S (length (entries t))) entry_sz t;
    Some {| entries := (name, value) :: entries t; size := size t + entry_sz;
            max_size := max_size t |}.

Definition get (t : DynamicTable) (idx : Z) : option (bytes * bytes) :=
  if decide (0 <= idx) then entries t !! Z.to_nat idx else None.

Definition set_max_size (new_max : Z) (t : DynamicTable) : option DynamicTable :=
  evict (S (length (entries t))) 0
    {| entries := entries t; size := size t; max_size := new_max |}.

(** One search loop of [find_header], entries numbered from [i]: [inl idx] is
    the early [return Some(Full(idx))], [inr m] falls through with the name
    match so far. *)
Fixpoint scan (i : Z) (tbl : list (bytes * bytes)) (name value : bytes) (name_match : option Z)
    : Z + option Z :=
  match tbl with
  | [] => inr name_match
  | (n, v) :: tbl =>
      if bool_decide (n = name) then
        if bool_decide (v = value) then inl i
        else scan (i + 1) tbl name value
               (match name_match with None => Some i | Some _ => name_match end)
      else scan (i + 1) tbl name value name_match
  end.

Definition find_header (name value : bytes) (dynamic : DynamicTable) : option TableMatch :=
  match scan 1 STATIC_TABLE name value None with
  | inl idx => Some (Full idx)
  | inr name_match =>
      match scan (STATIC_TABLE_LEN + 1) (entries dynamic) name value name_match with
      | inl idx => Some (Full idx)
      | inr name_match => NameOnly <$> name_match
      end
  end.

End table.
Import table.

#[global] Opaque STATIC_TABLE.

(** ** Invariant and eviction *)

Definition entries_size (l : list (bytes * bytes)) : Z :=
  foldr (fun e acc => entry_size e.1 e.2 + acc) 0 l.

Definition table_inv (t : DynamicTable) : Prop :=
  size t = entries_size (entries t) /\ size t <= max_size t.

(** RFC 7541, 4.3 and 4.4: the newest entries that fit the budget. *)
Fixpoint fit (budget : Z) (l : list (bytes * bytes)) : list (bytes * bytes) :=
  match l with
  | [] => []
  | e :: l => if entry_size e.1 e.2 <=? budget
              then e :: fit (budget - entry_size e.1 e.2) l else []
  end.

Lemma entry_size_pos n v : 32 <= entry_size n v.
Proof. unfold entry_size. pose proof (len_nonneg n). pose proof (len_nonneg v). lia. Qed.

Lemma entries_size_cons e l : entries_size (e :: l) = entry_size e.1 e.2 + entries_size l.
Proof. done. Qed.
#[global] Arguments entries_size : simpl never.

Lemma entries_size_app l k : entries_size (l ++ k) = entries_size l + entries_size k.
Proof. induction l as [|e l IH]; [done|]. cbn [app]. rewrite !entries_size_cons. lia. Qed.

Lemma entries_size_nonneg l : 0 <= entries_size l.
Proof.
  induction l as [|e l IH]; [done|]. rewrite entries_size_cons.
  pose proof (entry_size_pos e.1 e.2). lia.
Qed.

Lemma fit_all b l : entries_size l <= b -> fit b l = l.
Proof.
  revert b. induction l as [|e l IH]; intros b H; [done|]. cbn [fit].
  rewrite entries_size_cons in H. pose proof (entries_size_nonneg l).
  rewrite (proj2 (Z.leb_le _ _)) by lia. rewrite IH by lia. done.
Qed.

Lemma fit_drop_last b l x : b < entries_size (l ++ [x]) -> fit b (l ++ [x]) = fit b l.
Proof.
  revert b. induction l as [|e l IH]; intros b H; cbn [fit app] in *;
    rewrite entries_size_cons in H.
  - change (entries_size []) with 0 in H. by rewrite (proj2 (Z.leb_gt _ _)) by lia.
  - destruct (entry_size e.1 e.2 <=? b); [|done]. f_equal. apply IH. lia.
Qed.

Lemma fit_size b l : 0 <= b -> entries_size (fit b l) <= b.
Proof.
  revert b. induction l as [|e l IH]; intros b Hb; cbn [fit]; [done|].
  destruct (Z.leb_spec (entry_size e.1 e.2) b); [|done]. rewrite entries_size_cons.
  specialize (IH (b - entry_size e.1 e.2) ltac:(lia)). lia.
Qed.

Lemma pop_back_snoc {A} (l : list A) x : pop_back (l ++ [x]) = Some (l, x).
Proof. unfold pop_back. by rewrite reverse_snoc, reverse_involutive. Qed.

(** The eviction loop terminates and keeps exactly the entries that fit. *)
Lemma evict_spec extra : forall fuel l sz mx,
  sz = entries_size l -> 0 <= extra <= mx -> (length l <= fuel)%nat ->
  evict fuel extra (mkTable l sz mx)
    = Some (mkTable (fit (mx - extra) l) (entries_size (fit (mx - extra) l)) mx).
Proof.
  induction fuel as [|fuel IH]; intros l sz mx Hsz Hex Hlen; subst sz.
  - destruct l; [|simpl in Hlen; lia]. cbn [evict entries size max_size].
    change (entries_size []) with 0. rewrite (proj2 (Z.ltb_ge _ _)) by lia. done.
  - destruct (decide (mx < entries_size l + extra)) as [Hlt|Hge].
    + destruct l as [|x l _] using rev_ind; [change (entries_size []) with 0 in Hlt; lia|].
      cbn [evict entries size max_size]. rewrite (proj2 (Z.ltb_lt _ _)) by done.
      rewrite pop_back_snoc. destruct x as [n v].
      rewrite IH; [by rewrite fit_drop_last by lia| |done|rewrite length_app in Hlen; simpl in Hlen; lia].
      rewrite entries_size_app, entries_size_cons. change (entries_size []) with 0. simpl. lia.
    + cbn [evict entries size max_size]. rewrite (proj2 (Z.ltb_ge _ _)) by lia.
      by rewrite fit_all by lia.
Qed.

Lemma insert_spec n v t :
  table_inv t -> 0 <= max_size t ->
  insert n v t = Some (mkTable (fit (max_size t) ((n, v) :: entries t))
                         (entries_size (fit (max_size t) ((n, v) :: entries t))) (max_size t)).
Proof.
  intros [Hsz Hle] Hmx. destruct t as [l sz mx]. unfold insert.
  cbn [entries size max_size fit fst snd] in *. pose proof (entry_size_pos n v).
  destruct (Z.ltb_spec mx (entry_size n v)) as [Hlt|Hge].
  - by rewrite (proj2 (Z.leb_gt _ _)) by lia.
  - rewrite (proj2 (Z.leb_le _ _)) by lia.
    rewrite evict_spec by (done || lia). cbn [mbind option_bind entries size max_size].
    rewrite entries_size_cons. cbn [fst snd]. do 2 f_equal. lia.
Qed.

Lemma set_max_size_spec mx t :
  table_inv t -> 0 <= mx ->
  set_max_size mx t = Some (mkTable (fit mx (entries t)) (entries_size (fit mx (entries t))) mx).
Proof.
  intros [Hsz Hle] Hmx. unfold set_max_size.
  rewrite evict_spec by (done || lia). by rewrite Z.sub_0_r.
Qed.

Lemma fit_inv b l : 0 <= b -> table_inv (mkTable (fit b l) (entries_size (fit b l)) b).
Proof. intros. split; [done|]. by apply fit_size. Qed.

(** ** Header search

    RFC 7541, 2.3.3: the static entries are numbered 1..61 and the dynamic ones
    follow, newest first. *)
Definition table_get (dyn : list (bytes * bytes)) (i : Z) : option (bytes * bytes) :=
  if decide (1 <= i) then (STATIC_TABLE ++ dyn) !! Z.to_nat (i - 1) else None.

Lemma len_static : len STATIC_TABLE = STATIC_TABLE_LEN.
Proof. by vm_compute. Qed.

Lemma scan_app i a b n v nm :
  scan i (a ++ b) n v nm =
  match scan i a n v nm with
  | inl j => inl j
  | inr nm => scan (i + len a) b n v nm
  end.
Proof.
  revert i nm. induction a as [|[n' v'] a IH]; intros i nm; simpl.
  - change (len []) with 0. by rewrite Z.add_0_r.
  - rewrite len_cons. replace (i + (1 + len a)) with (i + 1 + len a) by lia.
    repeat case_bool_decide; rewrite ?IH; done.
Qed.

Lemma find_header_scan n v t :
  find_header n v t =
  match scan 1 (STATIC_TABLE ++ entries t) n v None with
  | inl i => Some (Full i)
  | inr nm => NameOnly <$> nm
  end.
Proof.
  unfold find_header. rewrite scan_app, len_static, (Z.add_comm 1).
  by destruct (scan 1 STATIC_TABLE n v None).
Qed.

Lemma scan_spec l n v : forall i nm,
  match scan i l n v nm with
  | inl j => exists k, j = i + Z.of_nat k /\ l !! k = Some (n, v) /\
               (forall k', (k' < k)%nat -> l !! k' <> Some (n, v))
  | inr m => (forall k, l !! k <> Some (n, v)) /\
      match nm with
      | Some x => m = Some x
      | None =>
          match m with
          | Some j => exists k v', j = i + Z.of_nat k /\ l !! k = Some (n, v') /\
                        (forall k' v'', (k' < k)%nat -> l !! k' <> Some (n, v''))
          | None => forall k v', l !! k <> Some (n, v')
          end
      end
  end.
Proof.
  induction l as [|[n' v'] l IH]; intros i nm; simpl.
  { split; [by intros k|]. destruct nm; [done|]. by intros k. }
  case_bool_decide as Hn; [case_bool_decide as Hv|].
  - subst. exists 0%nat. split; [lia|]. split; [done|]. intros k' Hk. lia.
  - subst n'. specialize (IH (i + 1) (match nm with None => Some i | Some _ => nm end)).
    destruct (scan _ l _ _ _) as [j|m].
    + destruct IH as (k & -> & Hk & Hlt). exists (S k). split; [lia|]. split; [done|].
      intros [|k'] Hk'; simpl; [naive_solver|apply Hlt; lia].
    + destruct IH as [Hno Hm]. split; [intros [|k]; simpl; [naive_solver|apply Hno]|].
      destruct nm as [x|]; simpl in Hm; [done|]. subst m.
      exists 0%nat, v'. split; [lia|]. split; [done|]. intros; lia.
  - specialize (IH (i + 1) nm). destruct (scan _ l _ _ _) as [j|m].
    + destruct IH as (k & -> & Hk & Hlt). exists (S k). split; [lia|]. split; [done|].
      intros [|k'] Hk'; simpl; [naive_solver|apply Hlt; lia].
    + destruct IH as [Hno Hm]. split; [intros [|k]; simpl; [naive_solver|apply Hno]|].
      destruct nm as [x|]; [done|]. destruct m as [j|].
      * destruct Hm as (k & v'' & -> & Hk & Hlt). exists (S k), v''. split; [lia|].
        split; [done|]. intros [|k'] v3 Hk'; simpl; [naive_solver|apply Hlt; lia].
      * intros [|k] v''; simpl; [naive_solver|apply Hm].
Qed.

Lemma table_get_nat l k : table_get l (1 + Z.of_nat k) = (STATIC_TABLE ++ l) !! k.
Proof.
  unfold table_get. rewrite decide_True by lia.
  by replace (Z.to_nat (1 + Z.of_nat k - 1)) with k by lia.
Qed.

Lemma table_get_Some l i e :
  table_get l i = Some e -> exists k, i = 1 + Z.of_nat k /\ (STATIC_TABLE ++ l) !! k = Some e.
Proof.
  unfold table_get. destruct (decide (1 <= i)); [|done]. intros H.
  exists (Z.to_nat (i - 1)). split; [lia|done].
Qed.

(** What [find_header] reports, in terms of the table's address space. *)
Lemma find_header_spec n v t :
  match find_header n v t with
  | Some (Full i) =>
      table_get (entries t) i = Some (n, v) /\
      (forall j, j < i -> table_get (entries t) j <> Some (n, v))
  | Some (NameOnly i) =>
      (exists v', table_get (entries t) i = Some (n, v')) /\
      (forall j, table_get (entries t) j <> Some (n, v)) /\
      (forall j v', j < i -> table_get (entries t) j <> Some (n, v'))
  | None => forall j v', table_get (entries t) j <> Some (n, v')
  end.
Proof.
  rewrite find_header_scan.
  pose proof (scan_spec (STATIC_TABLE ++ entries t) n v 1 None) as H.
  destruct (scan _ _ _ _ _) as [i|[i|]]; simpl.
  - destruct H as (k & -> & Hk & Hlt). rewrite table_get_nat. split; [done|].
    intros j Hj (k' & -> & Hk')%table_get_Some. by apply (Hlt k'); [lia|].
  - destruct H as (Hno & k & v' & -> & Hk & Hlt). rewrite table_get_nat.
    split; [by eexists|]. split.
    + intros j (k' & -> & Hk')%table_get_Some. by apply (Hno k').
    + intros j v'' Hj (k' & -> & Hk')%table_get_Some. by apply (Hlt k' v''); [lia|].
  - destruct H as (_ & Hno). intros j v' (k' & -> & Hk')%table_get_Some. by apply (Hno k' v').
Qed.

Lemma table_get_pos l i e : table_get l i = Some e -> 1 <= i.
Proof. intros (k & -> & _)%table_get_Some. lia. Qed.

(** ** Claims *)

(** The dynamic table's eviction loops terminate, keep [size] equal to the
    sum of the RFC 7541 entry sizes and at most [max_size], and leave exactly
    the newest entries that fit: inserting an oversized entry empties the
    table, and shrinking the table keeps the longest prefix that still fits. *)
Theorem dynamic_table_correct (n v : bytes) (mx : Z) (t : DynamicTable) :
  table_inv t -> 0 <= max_size t -> 0 <= mx ->
  (exists t', insert n v t = Some t' /\ table_inv t' /\ max_size t' = max_size t /\
     entries t' = fit (max_size t) ((n, v) :: entries t)) /\
  (exists t', set_max_size mx t = Some t' /\ table_inv t' /\ max_size t' = mx /\
     entries t' = fit mx (entries t)).
Proof.
  intros Hinv Hmax Hmx. split.
  - eexists. split; [by apply insert_spec|]. split; [by apply fit_inv|]. done.
  - eexists. split; [by apply set_max_size_spec|]. split; [by apply fit_inv|]. done.
Qed.

Lemma dynamic_table_correct_witness :
  let t := mkTable [(ascii_bytes "cccc", ascii_bytes "dddd"); (ascii_bytes "aaaa", ascii_bytes "bbbb")] 80 100 in
  (exists t', insert (ascii_bytes "eeee") (ascii_bytes "ffff") t = Some t' /\ table_inv t' /\
     max_size t' = 100 /\
     entries t' = fit 100 ((ascii_bytes "eeee", ascii_bytes "ffff") :: entries t)) /\
  (exists t', set_max_size 50 t = Some t' /\ table_inv t' /\ max_size t' = 50 /\
     entries t' = fit 50 (entries t)).
Proof.
  apply (dynamic_table_correct (ascii_bytes "eeee") (ascii_bytes "ffff") 50
    (mkTable [(ascii_bytes "cccc", ascii_bytes "dddd"); (ascii_bytes "aaaa", ascii_bytes "bbbb")] 80 100));
    [split; [by vm_compute|simpl; lia]|simpl; lia|lia].
Defined.

(** Header search is exact: [Full] is the smallest index holding the name
    and the value, [NameOnly] the smallest index holding the name when no entry
    holds both, and [None] means the name occurs nowhere in the static and
    dynamic tables. *)
Theorem find_header_correct (n v : bytes) (t : DynamicTable) :
  match find_header n v t with
  | Some (Full i) =>
      table_get (entries t) i = Some (n, v) /\
      (forall j, j < i -> table_get (entries t) j <> Some (n, v))
  | Some (NameOnly i) =>
      (exists v', table_get (entries t) i = Some (n, v')) /\
      (forall j, table_get (entries t) j <> Some (n, v)) /\
      (forall j v', j < i -> table_get (entries t) j <> Some (n, v'))
  | None => forall j v', table_get (entries t) j <> Some (n, v')
  end.
Proof. apply find_header_spec. Qed.
