(* ===== verification/Policy.v ===== *)
(** * Engine policies (lkh2/src/policy.rs)

    How outbound frames are grouped into TLS writes, when WINDOW_UPDATE is sent
    for received data, and how each header is HPACK-encoded.  The two trait
    objects the engine calls are interfaces here: [FlowControlPolicy] is a class
    with an instance per implementation and a class of laws the engine's
    receive-window theorem is proved against. *)
From S2P Require Import Prelude Frame.
From Stdlib Require Import SpecFloat.

(** ** Frame write policy *)

Abbreviation FrameGroup := (list H2Frame).

Record ConfigurableWritePolicy : Type := mkWritePolicy {
  split_headers : bool;
  split_data : bool;
}.

Definition default_policy : ConfigurableWritePolicy := mkWritePolicy false false.
Definition chrome_policy : ConfigurableWritePolicy := mkWritePolicy true true.
Definition safari_policy : ConfigurableWritePolicy := mkWritePolicy false true.

Definition isolate (p : ConfigurableWritePolicy) (f : H2Frame) : bool :=
  match f with
  | FHeaders _ => split_headers p
  | FData _ => split_data p
  | _ => false
  end.

(** The [for frame in frames] loop and the flush behind it. *)
Fixpoint group_loop (p : ConfigurableWritePolicy) (frames : list H2Frame)
    (groups : list FrameGroup) (current : FrameGroup) : list FrameGroup :=
  match frames with
  | [] => if negb (is_empty current) then groups ++ [current] else groups
  | frame :: frames =>
      if isolate p frame then
        let groups := if negb (is_empty current) then groups ++ [current] else groups in
        group_loop p frames (groups ++ [[frame]]) []
      else group_loop p frames groups (current ++ [frame])
  end.

Definition group_frames (p : ConfigurableWritePolicy) (frames : list H2Frame)
    : list FrameGroup :=
  if is_empty frames then [] else
  if negb (split_headers p) && negb (split_data p) then [frames] else
  group_loop p frames [] [].

(** ** Flow control policy *)

(** [on_data_received stream_id data_len current_window initial_window]. *)
Class FlowControlPolicy (S : Type) : Type := {
  on_data_received : S -> Z -> Z -> Z -> Z -> option Z * S;
  on_stream_closed : S -> Z -> S;
}.

Inductive ImmediateFlowControl : Type := mkImmediate.

#[export] Instance immediate_policy : FlowControlPolicy ImmediateFlowControl := {
  on_data_received st _ data_len _ _ := (if 0 <? data_len then Some data_len else None, st);
  on_stream_closed st _ := st;
}.

(** [f32] arithmetic: IEEE binary32, round to nearest even. *)
Abbreviation f32 := spec_float.
Definition f32_of_u32 (n : Z) : f32 := binary_normalize 24 128 n 0 false.
Definition f32_mul (a b : f32) : f32 := SFmul 24 128 a b.

(** [x as u32] : truncation, saturating at the ends; NaN gives 0. *)
Definition f32_as_u32 (x : f32) : Z :=
  match x with
  | S754_zero _ | S754_nan => 0
  | S754_infinity s => if s then 0 else 4294967295
  | S754_finite s m e =>
      if s then 0
      else Z.min 4294967295 (if 0 <=? e then Zpos m * 2 ^ e else Zpos m / 2 ^ (- e))
  end.

(** [x.clamp(lo, hi)] of [f32]. *)
Definition f32_clamp (x lo hi : f32) : f32 :=
  let x := if SFltb x lo then lo else x in
  if SFltb hi x then hi else x.

Definition f32_tenth : f32 := S754_finite false 13421773 (-27).
Definition f32_half : f32 := S754_finite false 8388608 (-24).
Definition f32_one : f32 := S754_finite false 8388608 (-23).

Record ThresholdFlowControl : Type := mkThreshold {
  threshold_ratio : f32;
  accumulated : gmap Z Z;
}.

Definition threshold_new (ratio : f32) : ThresholdFlowControl :=
  {| threshold_ratio := f32_clamp ratio f32_tenth f32_one; accumulated := ∅ |}.

Definition threshold_chrome : ThresholdFlowControl := threshold_new f32_half.
Definition threshold_firefox : ThresholdFlowControl := threshold_new f32_half.

(** [(initial_window as f32 * self.threshold_ratio) as u32]. *)
Definition threshold_of (ratio : f32) (initial_window : Z) : Z :=
  f32_as_u32 (f32_mul (f32_of_u32 initial_window) ratio).

Definition threshold_on_data_received (st : ThresholdFlowControl)
    (stream_id data_len current_window initial_window : Z) : option Z * ThresholdFlowControl :=
  if data_len =? 0 then (None, st) else
  let acc := as_u32 (default 0 (accumulated st !! stream_id) + data_len) in
  if threshold_of (threshold_ratio st) initial_window <=? acc
  then (Some acc, mkThreshold (threshold_ratio st) (<[stream_id := 0]> (accumulated st)))
  else (None, mkThreshold (threshold_ratio st) (<[stream_id := acc]> (accumulated st))).

#[export] Instance threshold_policy : FlowControlPolicy ThresholdFlowControl := {
  on_data_received := threshold_on_data_received;
  on_stream_closed st stream_id :=
    mkThreshold (threshold_ratio st) (delete stream_id (accumulated st));
}.

(** ** HPACK encode policy *)

Inductive HpackFieldEncoding : Type :=
| Indexed
| IncrementalIndexing (huffman_value : bool)
| WithoutIndexing (huffman_value : bool)
| NeverIndexed (huffman_value : bool).

(** The trait's one method: [encoding_for name value]. *)
Abbreviation HpackEncodePolicy := (bytes -> bytes -> HpackFieldEncoding).

(** [name.starts_with(':')]. *)
Definition is_pseudo (name : bytes) : bool :=
  match name with b :: _ => b =? 58 | [] => false end.

Definition DefaultHpackPolicy : HpackEncodePolicy := fun _ _ => Indexed.

Definition ChromeHpackPolicy : HpackEncodePolicy := fun name _ =>
  if is_pseudo name then Indexed else IncrementalIndexing true.

Definition FirefoxHpackPolicy : HpackEncodePolicy := fun name _ =>
  if is_pseudo name then Indexed else IncrementalIndexing true.

Definition SafariHpackPolicy : HpackEncodePolicy := fun name value =>
  if is_pseudo name then Indexed
  else if len value <=? 3 then IncrementalIndexing false
  else IncrementalIndexing true.

(** ** Behaviour bundle

    [Box<dyn FlowControlPolicy>] of the bundle: one of the two implementations. *)
Inductive FlowControl : Type :=
| FCImmediate (p : ImmediateFlowControl)
| FCThreshold (p : ThresholdFlowControl).

#[export] Instance flow_control_dyn : FlowControlPolicy FlowControl := {
  on_data_received st id n w i :=
    match st with
    | FCImmediate p => let '(r, p) := on_data_received p id n w i in (r, FCImmediate p)
    | FCThreshold p => let '(r, p) := on_data_received p id n w i in (r, FCThreshold p)
    end;
  on_stream_closed st id :=
    match st with
    | FCImmediate p => FCImmediate (on_stream_closed p id)
    | FCThreshold p => FCThreshold (on_stream_closed p id)
    end;
}.

Record H2Behavior : Type := mkBehavior {
  write_policy : ConfigurableWritePolicy;
  flow_control : FlowControl;
  hpack_policy : HpackEncodePolicy;
}.

Definition default_behavior : H2Behavior :=
  mkBehavior (mkWritePolicy false false) (FCImmediate mkImmediate) DefaultHpackPolicy.
Definition chrome_behavior : H2Behavior :=
  mkBehavior (mkWritePolicy true true) (FCThreshold threshold_chrome) ChromeHpackPolicy.
Definition firefox_behavior : H2Behavior :=
  mkBehavior (mkWritePolicy true true) (FCThreshold threshold_firefox) FirefoxHpackPolicy.
Definition safari_behavior : H2Behavior :=
  mkBehavior (mkWritePolicy false true) (FCThreshold (threshold_new f32_half)) SafariHpackPolicy.

(** ** The flow-control contract

    [owed st id] is the credit the policy still owes the peer on [id]: bytes
    received and not yet returned by a WINDOW_UPDATE. *)
Class FlowControlLaws (S : Type) `{FlowControlPolicy S} : Type := {
  owed : S -> Z -> Z;
  owed_nonneg st id : 0 <= owed st id;
  on_data_credit st id n w i r st' :
    0 <= n -> owed st id + n < 4294967296 ->
    on_data_received st id n w i = (r, st') ->
    owed st' id + default 0 r = owed st id + n /\
    (forall inc, r = Some inc -> 0 < inc) /\
    (forall id', id' <> id -> owed st' id' = owed st id');
  on_data_u32 st id n w i inc st' :
    u32 n -> on_data_received st id n w i = (Some inc, st') -> u32 inc;
  on_closed_owed st id id' :
    owed (on_stream_closed st id) id' = (if decide (id' = id) then 0 else owed st id');
}.

#[export] Program Instance immediate_laws : FlowControlLaws ImmediateFlowControl := {
  owed _ _ := 0;
}.
Next Obligation. done. Qed.
Next Obligation.
  simpl. intros st id n w i r st' Hn Hlt [= <- <-].
  destruct (Z.ltb_spec 0 n); simpl; split_and!; try done; try lia. intros inc [= <-]. lia.
Qed.
Next Obligation. simpl. intros st id n w i inc st' Hn. destruct (0 <? n); congruence. Qed.
Next Obligation. intros. by destruct (decide _). Qed.

#[export] Program Instance threshold_laws : FlowControlLaws ThresholdFlowControl := {
  owed st id := as_u32 (default 0 (accumulated st !! id));
}.
Next Obligation. intros. simpl. apply as_u32_range. Qed.
Next Obligation.
  cbn [on_data_received threshold_policy]. unfold threshold_on_data_received.
  intros st id n w i r st' Hn Hlt Hd.
  destruct (Z.eqb_spec n 0) as [->|Hn0]; [injection Hd as <- <-; simpl; split_and!; done || lia|].
  set (a := default 0 (accumulated st !! id)) in *.
  assert (as_u32 (a + n) = as_u32 a + n) as Ha.
  { unfold as_u32 in *. Z.div_mod_to_equations. lia. }
  destruct (_ <=? _); injection Hd as <- <-; simpl; rewrite lookup_insert_eq; simpl.
  - change (as_u32 0) with 0. pose proof (as_u32_range a). split; [lia|].
    split; [intros inc [= <-]; unfold u32 in *; lia|].
    intros id' Hid. by rewrite lookup_insert_ne.
  - rewrite Ha. split; [|split; [done|]].
    + rewrite <- Ha. rewrite (as_u32_small (as_u32 _)) by apply as_u32_range. lia.
    + intros id' Hid. by rewrite lookup_insert_ne.
Qed.
Next Obligation.
  cbn [on_data_received threshold_policy]. unfold threshold_on_data_received.
  intros st id n w i inc st' Hn. repeat case_match; intros [= <- _]; apply as_u32_range.
Qed.
Next Obligation.
  intros st id id'. simpl. rewrite lookup_delete.
  destruct (decide (id = id')), (decide (id' = id)); subst; done || congruence.
Qed.

#[export] Program Instance flow_control_laws : FlowControlLaws FlowControl := {
  owed st id := match st with FCImmediate p => owed p id | FCThreshold p => owed p id end;
}.
Next Obligation. intros [p|p] id; [exact (owed_nonneg p id)|exact (owed_nonneg p id)]. Qed.
Next Obligation.
  intros [p|p] id n w i r st' Hn Hlt Hd; cbn [on_data_received flow_control_dyn] in Hd.
  - destruct (on_data_received p id n w i) as [r' p'] eqn:E. injection Hd as <- <-.
    by apply (on_data_credit p id n w i r' p').
  - destruct (on_data_received p id n w i) as [r' p'] eqn:E. injection Hd as <- <-.
    by apply (on_data_credit p id n w i r' p').
Qed.
Next Obligation.
  intros [p|p] id n w i inc st' Hn Hd; cbn [on_data_received flow_control_dyn] in Hd;
    destruct (on_data_received p id n w i) as [r' p'] eqn:E; injection Hd as -> <-;
    by eapply (on_data_u32 p id n w i inc p').
Qed.
Next Obligation. intros [p|p] id id'; [exact (on_closed_owed p id id')|exact (on_closed_owed p id id')]. Qed.

(** ** Write grouping *)

Lemma group_loop_concat p fs : forall gs cur,
  mjoin (group_loop p fs gs cur) = mjoin gs ++ cur ++ fs.
Proof.
  induction fs as [|f fs IH]; intros gs cur; cbn [group_loop].
  - rewrite app_nil_r. destruct cur as [|x cur]; cbn [is_empty negb]; [by rewrite app_nil_r|].
    rewrite join_app. simpl. by rewrite app_nil_r.
  - destruct (isolate p f).
    + rewrite IH, join_app. simpl. destruct cur as [|x cur]; cbn [is_empty negb]; [by rewrite <- app_assoc|].
      rewrite join_app. simpl. by rewrite app_nil_r, <- !app_assoc.
    + by rewrite IH, <- app_assoc.
Qed.

(** A group is one isolated frame, or a non-empty run of frames that are not. *)
Definition group_ok (p : ConfigurableWritePolicy) (g : FrameGroup) : Prop :=
  (exists f, g = [f] /\ isolate p f = true) \/
  (g <> [] /\ Forall (fun f => isolate p f = false) g).

Lemma group_loop_ok p fs : forall gs cur,
  Forall (group_ok p) gs -> Forall (fun f => isolate p f = false) cur ->
  Forall (group_ok p) (group_loop p fs gs cur).
Proof.
  assert (forall gs cur, Forall (group_ok p) gs -> Forall (fun f => isolate p f = false) cur ->
    Forall (group_ok p) (if negb (is_empty cur) then gs ++ [cur] else gs)) as Hfl.
  { intros gs [|x cur] Hg Hc; [done|]. apply Forall_app. split; [done|].
    constructor; [right; by split|constructor]. }
  induction fs as [|f fs IH]; intros gs cur Hg Hc; cbn [group_loop]; [by apply Hfl|].
  destruct (isolate p f) eqn:E; apply IH.
  - apply Forall_app. split; [by apply Hfl|]. constructor; [left; by exists f|constructor].
  - constructor.
  - done.
  - apply Forall_app. split; [done|]. by constructor; [|constructor].
Qed.

Lemma group_frames_concat p fs : mjoin (group_frames p fs) = fs.
Proof.
  unfold group_frames. destruct fs as [|f fs]; [done|]. cbn [is_empty].
  destruct (_ && _); [simpl; by rewrite app_nil_r|]. by rewrite group_loop_concat.
Qed.

(** Grouping outbound frames into writes never drops, duplicates or
    reorders a frame; no group is empty; a HEADERS or DATA frame the policy
    isolates is alone in its write. *)
Theorem group_frames_correct (p : ConfigurableWritePolicy) (fs : list H2Frame) :
  mjoin (group_frames p fs) = fs /\ Forall (group_ok p) (group_frames p fs).
Proof.
  split; [apply group_frames_concat|]. unfold group_frames.
  destruct fs as [|f fs]; [constructor|]. cbn [is_empty].
  destruct (split_headers p) eqn:Eh, (split_data p) eqn:Ed; cbn [negb andb];
    try (apply group_loop_ok; constructor).
  constructor; [|constructor]. right. split; [done|].
  apply Forall_forall. intros x _. destruct x; simpl; congruence.
Qed.

(** Both window-update policies are credit-exact: the increment returned now
    plus what is still owed equals what was owed plus the bytes received, other
    streams are untouched, and an increment is never zero. *)
Theorem flow_control_credit (st : FlowControl) (id n w i : Z) :
  0 <= n -> owed st id + n < 4294967296 ->
  let '(r, st') := on_data_received st id n w i in
  owed st' id + default 0 r = owed st id + n /\ r <> Some 0 /\
  (forall id', id' <> id -> owed st' id' = owed st id').
Proof.
  intros Hn Hlt. destruct (on_data_received st id n w i) as [r st'] eqn:E.
  destruct (on_data_credit st id n w i r st' Hn Hlt E) as (Hc & Hpos & Hoth).
  split; [done|]. split; [|done]. intros ->. by specialize (Hpos 0 eq_refl).
Qed.

Lemma flow_control_credit_witness :
  let '(r, st') := on_data_received (FCThreshold threshold_chrome) 1 40000 0 65535 in
  owed st' 1 + default 0 r = owed (FCThreshold threshold_chrome) 1 + 40000 /\ r <> Some 0 /\
  (forall id', id' <> 1 -> owed st' id' = owed (FCThreshold threshold_chrome) id').
Proof. apply (flow_control_credit (FCThreshold threshold_chrome) 1 40000 0 65535); by vm_compute. Defined.
