(* ===== verification/HpackEnc.v ===== *)
(** * HPACK encoder (lkh2/src/hpack_enc/mod.rs)

    Integer and string literals, the header-field representations and the
    policy-driven encoder with its dynamic table.  [None] is a panic (or a loop
    that does not end); [hpack_block_roundtrip] in [HpackSync] excludes it. *)
From S2P Require Import Prelude Policy Huffman HpackTable.

Module hpack_enc.

(** [while value >= 128 { push(value % 128 + 128); value /= 128 } push(value)]. *)
Fixpoint int_loop (fuel : nat) (value : Z) : option bytes :=
  if 128 <=? value then
    match fuel with
    | O => None
    | S fuel => tl ← int_loop fuel (value / 128); Some (as_u8 (value mod 128 + 128) :: tl)
    end
  else Some [as_u8 value].

(** Enough iterations for [value]: each one divides it by 128. *)
Definition int_fuel (value : Z) : nat := S (Z.to_nat (Z.log2 value)).

Definition encode_integer (value prefix_bits leading : Z) (buf : bytes) : option bytes :=
  let mask := (1 ≪ prefix_bits) - 1 in
  let leading := Z.land leading (255 - as_u8 mask) in
  if value <? mask then Some (buf ++ [Z.lor leading (as_u8 value)])
  else
    tl ← int_loop (int_fuel (value - mask)) (value - mask);
    Some (buf ++ Z.lor leading (as_u8 mask) :: tl).

Definition encode_string (src : bytes) (use_huffman : bool) (buf : bytes) : option bytes :=
  let raw := buf ← encode_integer (len src) 7 0x00 buf; Some (buf ++ src) in
  if use_huffman then
    huff_len ← huffman.encoded_len src;
    if huff_len <=? len src then
      buf ← encode_integer huff_len 7 0x80 buf;
      huffman.encode src buf
    else raw
  else raw.

Definition encode_indexed (index : Z) (buf : bytes) : option bytes :=
  encode_integer index 7 0x80 buf.

Definition encode_literal_indexed_name (name_index : Z) (value : bytes) (huffman_value : bool)
    (buf : bytes) : option bytes :=
  buf ← encode_integer name_index 6 0x40 buf; encode_string value huffman_value buf.

Definition encode_literal_new_name (name value : bytes) (huffman_value : bool)
    (buf : bytes) : option bytes :=
  buf ← encode_string name true (buf ++ [0x40]); encode_string value huffman_value buf.

Definition encode_literal_without_indexing_indexed_name (name_index : Z) (value : bytes)
    (huffman_value : bool) (buf : bytes) : option bytes :=
  buf ← encode_integer name_index 4 0x00 buf; encode_string value huffman_value buf.

Definition encode_literal_without_indexing_new_name (name value : bytes) (huffman_value : bool)
    (buf : bytes) : option bytes :=
  buf ← encode_string name true (buf ++ [0x00]); encode_string value huffman_value buf.

Definition encode_literal_never_indexed_indexed_name (name_index : Z) (value : bytes)
    (huffman_value : bool) (buf : bytes) : option bytes :=
  buf ← encode_integer name_index 4 0x10 buf; encode_string value huffman_value buf.

Definition encode_literal_never_indexed_new_name (name value : bytes) (huffman_value : bool)
    (buf : bytes) : option bytes :=
  buf ← encode_string name true (buf ++ [0x10]); encode_string value huffman_value buf.

(** ** The encoder *)

Record Encoder : Type := mkEncoder {
  dynamic : table.DynamicTable;
  pending_table_size_update : option Z;
}.

Definition new (max_table_size : Z) : Encoder :=
  {| dynamic := table.new max_table_size; pending_table_size_update := None |}.

Definition set_max_table_size (size : Z) (e : Encoder) : option Encoder :=
  d ← table.set_max_size size (dynamic e);
  Some {| dynamic := d; pending_table_size_update := Some size |}.

Definition emit_pending_table_size_update (e : Encoder) (buf : bytes) : option (Encoder * bytes) :=
  match pending_table_size_update e with
  | Some new_size =>
      buf ← encode_integer new_size 5 0x20 buf;
      Some ({| dynamic := dynamic e; pending_table_size_update := None |}, buf)
  | None => Some (e, buf)
  end.

Definition insert_dynamic (name value : bytes) (e : Encoder) : option Encoder :=
  d ← table.insert name value (dynamic e);
  Some {| dynamic := d; pending_table_size_update := pending_table_size_update e |}.

Definition encode_header (e : Encoder) (name value : bytes) (encoding : HpackFieldEncoding)
    (buf : bytes) : option (Encoder * bytes) :=
  let table_match := table.find_header name value (dynamic e) in
  match encoding with
  | Indexed =>
      match table_match with
      | Some (table.Full idx) => buf ← encode_indexed idx buf; Some (e, buf)
      | Some (table.NameOnly idx) =>
          buf ← encode_literal_indexed_name idx value true buf;
          e ← insert_dynamic name value e; Some (e, buf)
      | None =>
          buf ← encode_literal_new_name name value true buf;
          e ← insert_dynamic name value e; Some (e, buf)
      end
  | IncrementalIndexing huffman_value =>
      match table_match with
      | Some (table.Full idx) => buf ← encode_indexed idx buf; Some (e, buf)
      | Some (table.NameOnly idx) =>
          buf ← encode_literal_indexed_name idx value huffman_value buf;
          e ← insert_dynamic name value e; Some (e, buf)
      | None =>
          buf ← encode_literal_new_name name value huffman_value buf;
          e ← insert_dynamic name value e; Some (e, buf)
      end
  | WithoutIndexing huffman_value =>
      match table_match with
      | Some (table.Full idx) | Some (table.NameOnly idx) =>
          buf ← encode_literal_without_indexing_indexed_name idx value huffman_value buf;
          Some (e, buf)
      | None =>
          buf ← encode_literal_without_indexing_new_name name value huffman_value buf;
          Some (e, buf)
      end
  | NeverIndexed huffman_value =>
      match table_match with
      | Some (table.Full idx) | Some (table.NameOnly idx) =>
          buf ← encode_literal_never_indexed_indexed_name idx value huffman_value buf;
          Some (e, buf)
      | None =>
          buf ← encode_literal_never_indexed_new_name name value huffman_value buf;
          Some (e, buf)
      end
  end.

Fixpoint encode_loop (policy : HpackEncodePolicy) (headers : list (bytes * bytes))
    (e : Encoder) (buf : bytes) : option (Encoder * bytes) :=
  match headers with
  | [] => Some (e, buf)
  | (n, v) :: headers =>
      '(e, buf) ← encode_header e n v (policy n v) buf;
      encode_loop policy headers e buf
  end.

Definition encode_with_policy (headers : list (bytes * bytes)) (policy : HpackEncodePolicy)
    (e : Encoder) : option (Encoder * bytes) :=
  '(e, buf) ← emit_pending_table_size_update e [];
  encode_loop policy headers e buf.

(** [encode_header_default]'s choice of representation. *)
Definition default_encoding : HpackEncodePolicy := fun name _ =>
  if is_pseudo name then Indexed else IncrementalIndexing true.

Definition encode_header_default (e : Encoder) (name value buf : bytes)
    : option (Encoder * bytes) :=
  encode_header e name value (default_encoding name value) buf.

Fixpoint encode_default_loop (headers : list (bytes * bytes)) (e : Encoder) (buf : bytes)
    : option (Encoder * bytes) :=
  match headers with
  | [] => Some (e, buf)
  | (n, v) :: headers =>
      '(e, buf) ← encode_header_default e n v buf; encode_default_loop headers e buf
  end.

Definition encode_owned (headers : list (bytes * bytes)) (e : Encoder) : option (Encoder * bytes) :=
  '(e, buf) ← emit_pending_table_size_update e [];
  encode_default_loop headers e buf.

(** The same over an iterator of borrowed pairs. *)
Definition encode (headers : list (bytes * bytes)) (e : Encoder) : option (Encoder * bytes) :=
  '(e, buf) ← emit_pending_table_size_update e [];
  encode_default_loop headers e buf.

Definition with_default_size : Encoder := new 4096.

End hpack_enc.

(** [encode_owned] is [encode_with_policy] under the default choice. *)
Lemma encode_owned_policy headers e :
  hpack_enc.encode_owned headers e
  = hpack_enc.encode_with_policy headers hpack_enc.default_encoding e.
Proof.
  unfold hpack_enc.encode_owned, hpack_enc.encode_with_policy.
  destruct (hpack_enc.emit_pending_table_size_update e []) as [[e' buf]|]; [|done].
  cbn [mbind option_bind]. revert e' buf.
  induction headers as [|[n v] hs IH]; intros e' buf; [done|].
  cbn [hpack_enc.encode_default_loop hpack_enc.encode_loop].
  unfold hpack_enc.encode_header_default.
  destruct (hpack_enc.encode_header _ _ _ _ _) as [[e'' buf']|]; [|done].
  cbn [mbind option_bind]. apply IH.
Qed.
