(* ===== verification/HpackSync.v ===== *)
(** * HPACK: what a conforming decoder makes of the encoder's output

    [Rfc7541] is a reference decoder written from RFC 7541: integers (5.1),
    strings (5.2), the field representations (6.1, 6.2) and the dynamic table
    size update (6.3, only before the first field and not above the limit the
    decoder announced).  The encoder and the decoder keep their dynamic tables
    in step, block after block. *)
From S2P Require Import Prelude Policy Huffman HpackTable HpackEnc.
Import table hpack_enc.

Module Rfc7541.

Record Decoder : Type := mkDecoder {
  d_entries : list (bytes * bytes);
  d_max : Z;
}.

Definition new (size : Z) : Decoder := {| d_entries := []; d_max := size |}.

Fixpoint int_cont (bs : bytes) (acc shift : Z) : option (Z * bytes) :=
  match bs with
  | [] => None
  | b :: bs =>
      let acc := acc + (b mod 128) * 2 ^ shift in
      if 128 <=? b then int_cont bs acc (shift + 7) else Some (acc, bs)
  end.

Definition decode_int (prefix_bits : Z) (bs : bytes) : option (Z * bytes) :=
  match bs with
  | [] => None
  | b :: bs =>
      let mask := 2 ^ prefix_bits - 1 in
      let x := b mod 2 ^ prefix_bits in
      if x <? mask then Some (x, bs) else int_cont bs mask 0
  end.

Definition decode_string (bs : bytes) : option (bytes * bytes) :=
  match bs with
  | [] => None
  | b :: _ =>
      '(n, bs') ← decode_int 7 bs;
      if len bs' <? n then None else
      let raw := take_z n bs' in
      s ← (if 128 <=? b then huffman_decode raw else Some raw);
      Some (s, drop_z n bs')
  end.

(** A literal: the name by index, or spelled out when the index is 0. *)
Definition decode_literal (d : Decoder) (prefix_bits : Z) (bs : bytes)
    : option (bytes * bytes * bytes) :=
  '(i, bs) ← decode_int prefix_bits bs;
  '(name, bs) ←
    (if i =? 0 then decode_string bs
     else e ← table_get (d_entries d) i; Some (e.1, bs));
  '(value, bs) ← decode_string bs;
  Some (name, value, bs).

Definition add_entry (d : Decoder) (name value : bytes) : Decoder :=
  {| d_entries := fit (d_max d) ((name, value) :: d_entries d); d_max := d_max d |}.

Definition resize (d : Decoder) (size : Z) : Decoder :=
  {| d_entries := fit size (d_entries d); d_max := size |}.

Inductive item : Type :=
| Field (name value : bytes)
| SizeUpdate.

(** One representation; [first] while no field has been decoded yet. *)
Definition decode_item (limit : Z) (first : bool) (d : Decoder) (bs : bytes)
    : option (item * Decoder * bytes) :=
  match bs with
  | [] => None
  | b :: _ =>
      if 128 <=? b then
        '(i, bs) ← decode_int 7 bs;
        e ← table_get (d_entries d) i;
        Some (Field e.1 e.2, d, bs)
      else if 64 <=? b then
        '(n, v, bs) ← decode_literal d 6 bs;
        Some (Field n v, add_entry d n v, bs)
      else if 32 <=? b then
        '(size, bs) ← decode_int 5 bs;
        if first && (size <=? limit) then Some (SizeUpdate, resize d size, bs) else None
      else
        '(n, v, bs) ← decode_literal d 4 bs;
        Some (Field n v, d, bs)
  end.

Fixpoint decode_block (fuel : nat) (limit : Z) (first : bool) (d : Decoder) (bs : bytes)
    : option (list (bytes * bytes) * Decoder) :=
  if is_empty bs then Some ([], d) else
  match fuel with
  | O => None
  | S fuel =>
      '(it, d, bs) ← decode_item limit first d bs;
      match it with
      | Field n v => '(hs, d) ← decode_block fuel limit false d bs; Some ((n, v) :: hs, d)
      | SizeUpdate => decode_block fuel limit first d bs
      end
  end.

(** Every representation takes at least one byte. *)
Definition decode (limit : Z) (d : Decoder) (block : bytes)
    : option (list (bytes * bytes) * Decoder) :=
  decode_block (length block) limit true d block.

End Rfc7541.
Import Rfc7541.

(** ** Integers *)

Lemma int_loop_total fuel : forall v, 0 <= v ->
  (v < 128 ^ Z.of_nat fuel \/ v < 128) ->
  exists out, int_loop fuel v = Some out /\ is_bytes out /\ out <> [] /\
    forall acc s rest, 0 <= s -> int_cont (out ++ rest) acc s = Some (acc + v * 2 ^ s, rest).
Proof.
  induction fuel as [|fuel IH]; intros v Hv Hf; cbn [int_loop].
  - assert (v < 128) by (simpl in Hf; lia). rewrite (proj2 (Z.leb_gt _ _)) by lia.
    exists [as_u8 v]. split; [done|]. split; [repeat constructor; width|]. split; [done|].
    intros acc s rest Hs. cbn [app int_cont]. rewrite as_u8_small by width.
    rewrite (proj2 (Z.leb_gt _ _)) by lia. rewrite Z.mod_small by lia. done.
  - destruct (Z.leb_spec 128 v) as [Hge|Hlt].
    + destruct (IH (v / 128)) as (out & -> & Hb & Hne & Hc).
      { apply Z.div_pos; lia. }
      { left. destruct Hf as [Hf|]; [|lia]. apply Z.div_lt_upper_bound; [lia|].
        rewrite Nat2Z.inj_succ, Z.pow_succ_r in Hf by lia. done. }
      exists (as_u8 (v mod 128 + 128) :: out). split; [done|].
      pose proof (Z.mod_pos_bound v 128 ltac:(lia)).
      split; [apply is_bytes_cons; split; [width|done]|]. split; [done|].
      intros acc s rest Hs. cbn [app int_cont]. rewrite as_u8_small by width.
      rewrite (proj2 (Z.leb_le _ _)) by lia. rewrite Hc by lia. do 2 f_equal.
      replace ((v mod 128 + 128) mod 128) with (v mod 128)
        by (Z.div_mod_to_equations; lia).
      rewrite Z.pow_add_r by lia. change (2 ^ 7) with 128.
      pose proof (Z.div_mod v 128 ltac:(lia)) as Hd.
      replace (v * 2 ^ s) with ((128 * (v / 128) + v mod 128) * 2 ^ s) by (by rewrite <- Hd). ring.
    + exists [as_u8 v]. split; [done|]. split; [repeat constructor; width|]. split; [done|].
      intros acc s rest Hs. cbn [app int_cont]. rewrite as_u8_small by width.
      rewrite (proj2 (Z.leb_gt _ _)) by lia. rewrite Z.mod_small by lia. done.
Qed.

Lemma int_fuel_enough v : 0 <= v -> v < 128 ^ Z.of_nat (int_fuel v).
Proof.
  intros Hv. unfold int_fuel. destruct (decide (v = 0)) as [->|Hne]; [by vm_compute|].
  pose proof (Z.log2_spec v ltac:(lia)) as [_ Hlt].
  pose proof (Z.log2_nonneg v). rewrite Nat2Z.inj_succ, Z2Nat.id by done.
  eapply Z.lt_le_trans; [exact Hlt|]. apply Z.pow_le_mono_l. lia.
Qed.

(** A prefix and a leading-bit pattern that do not overlap. *)
Definition prefix_ok (p leading : Z) : Prop :=
  1 <= p <= 7 /\ leading mod 2 ^ p = 0 /\ 0 <= leading <= 256 - 2 ^ p /\
  Z.land leading (255 - as_u8 ((1 ≪ p) - 1)) = leading.

#[export] Instance prefix_ok_dec p l : Decision (prefix_ok p l).
Proof. unfold prefix_ok; apply _. Defined.

Lemma encode_integer_spec v p leading buf :
  0 <= v -> prefix_ok p leading ->
  exists x tl, encode_integer v p leading buf = Some (buf ++ (leading + x) :: tl) /\
    0 <= x < 2 ^ p /\ is_bytes ((leading + x) :: tl) /\
    forall rest, decode_int p ((leading + x) :: tl ++ rest) = Some (v, rest).
Proof.
  intros Hv (Hp & Hal & Hlead & Hland). unfold encode_integer. rewrite Hland.
  rewrite Z.shiftl_1_l.
  assert (2 <= 2 ^ p <= 128) as Hpow.
  { split; [change 2 with (2 ^ 1) at 1|change 128 with (2 ^ 7)]; apply Z.pow_le_mono_r; lia. }
  assert (forall x, 0 <= x < 2 ^ p -> Z.lor leading (as_u8 x) = leading + x /\ (leading + x) mod 2 ^ p = x) as Hlor.
  { intros x Hx. rewrite as_u8_small by (unfold u8; lia).
    rewrite (lor_add_aligned _ _ p) by (done || lia). split; [done|].
    rewrite Z.add_mod, Hal, Z.add_0_l, Z.mod_mod by lia. by apply Z.mod_small. }
  destruct (Z.ltb_spec v (2 ^ p - 1)) as [Hlt|Hge].
  - destruct (Hlor v ltac:(lia)) as [-> Hmod]. exists v, []. split; [done|]. split; [lia|].
    split; [repeat constructor; unfold u8; lia|].
    intros rest. unfold decode_int. rewrite Hmod. rewrite (proj2 (Z.ltb_lt _ _)) by lia. done.
  - destruct (Hlor (2 ^ p - 1) ltac:(lia)) as [Hb Hmod].
    destruct (int_loop_total (int_fuel (v - (2 ^ p - 1))) (v - (2 ^ p - 1)))
      as (tl & -> & Htl & _ & Hc); [lia|left; apply int_fuel_enough; lia|].
    cbn [mbind option_bind]. rewrite Hb. exists (2 ^ p - 1), tl. split; [done|]. split; [lia|].
    split; [apply is_bytes_cons; split; [unfold u8; lia|done]|].
    intros rest. unfold decode_int. rewrite Hmod.
    rewrite (proj2 (Z.ltb_ge _ _)) by lia. rewrite Hc by lia. do 2 f_equal. lia.
Qed.

(** ** Strings *)

Lemma encode_string_spec src h buf :
  is_bytes src ->
  exists out, encode_string src h buf = Some (buf ++ out) /\ is_bytes out /\
    forall rest, decode_string (out ++ rest) = Some (src, rest).
Proof.
  intros Hsrc. unfold encode_string.
  assert (exists out, (buf ← encode_integer (len src) 7 0x00 buf; Some (buf ++ src)) = Some (buf ++ out)
    /\ is_bytes out /\ forall rest, decode_string (out ++ rest) = Some (src, rest)) as Hraw.
  { destruct (encode_integer_spec (len src) 7 0 buf) as (x & tl & -> & Hx & Hb & Hd);
      [apply len_nonneg|by apply (bool_decide_unpack _)|].
    exists (((0 + x) :: tl) ++ src). cbn [mbind option_bind]. rewrite <- app_assoc. split; [done|].
    split; [by apply is_bytes_app|]. intros rest. unfold decode_string. rewrite <- app_assoc. cbn [app].
    rewrite Hd. cbn [mbind option_bind]. change (2 ^ 7) with 128 in Hx.
    rewrite (proj2 (Z.ltb_ge _ _)) by slen. rewrite (proj2 (Z.leb_gt _ _)) by lia.
    rewrite take_z_app_len, drop_z_app_len. done. }
  destruct h; [|done]. rewrite encoded_len_ref by done. cbn [mbind option_bind].
  destruct (_ <=? _); [|done]. set (hf := pack_bits (huff_bits src)).
  destruct (encode_integer_spec (len hf) 7 128 buf) as (x & tl & -> & Hx & Hb & Hd);
    [apply len_nonneg|by apply (bool_decide_unpack _)|].
  cbn [mbind option_bind]. rewrite encode_ref by done.
  exists (((128 + x) :: tl) ++ hf). rewrite <- app_assoc. split; [done|].
  split; [apply is_bytes_app; split; [done|apply is_bytes_pack]|].
  intros rest. unfold decode_string. rewrite <- app_assoc. cbn [app].
  rewrite Hd. cbn [mbind option_bind].
  rewrite (proj2 (Z.ltb_ge _ _)) by slen. rewrite (proj2 (Z.leb_le _ _)) by lia.
  rewrite take_z_app_len, drop_z_app_len. unfold hf. by rewrite huffman_decode_pack.
Qed.

(** ** Representations *)

(** A decoder that mirrors an encoder: the same table size, and a table that
    holds the encoder's entries at the same indices (it may remember older ones
    that the encoder has evicted). *)
Definition mirrors (e : Encoder) (d : Decoder) : Prop :=
  d_max d = max_size (dynamic e) /\ entries (dynamic e) `prefix_of` d_entries d.

Definition enc_inv (e : Encoder) : Prop :=
  table_inv (dynamic e) /\ 0 <= max_size (dynamic e) /\
  match pending_table_size_update e with Some s => s = max_size (dynamic e) | None => True end.

Lemma table_get_prefix l k i x :
  l `prefix_of` k -> table_get l i = Some x -> table_get k i = Some x.
Proof.
  intros [k' ->]. unfold table_get. destruct (decide _); [|done]. rewrite app_assoc.
  apply lookup_app_l_Some.
Qed.

Lemma fit_prefix s l : fit s l `prefix_of` l.
Proof.
  revert s. induction l as [|x l IH]; intros s; [done|]. cbn [fit].
  destruct (_ <=? _); [by apply prefix_cons|apply prefix_nil].
Qed.

Lemma fit_mono s l k : l `prefix_of` k -> fit s l `prefix_of` fit s k.
Proof.
  intros [k' ->]. revert s. induction l as [|x l IH]; intros s; [apply prefix_nil|].
  cbn [app fit]. destruct (_ <=? _); [by apply prefix_cons|done].
Qed.

Lemma insert_dynamic_spec n v e :
  enc_inv e -> exists e', insert_dynamic n v e = Some e' /\ enc_inv e' /\
    pending_table_size_update e' = pending_table_size_update e /\
    max_size (dynamic e') = max_size (dynamic e) /\
    forall d, mirrors e d -> mirrors e' (add_entry d n v).
Proof.
  intros (Hi & Hm & Hp). unfold insert_dynamic. rewrite insert_spec by done. eexists. split; [done|].
  split; [split; [by apply fit_inv|done]|]. clear Hp. do 2 (split; [done|]). intros d [Hd Hp].
  split; [done|]. cbn [entries dynamic add_entry d_entries]. rewrite Hd.
  by apply fit_mono, prefix_cons.
Qed.

(** One header: the encoder emits a representation that a mirroring decoder
    reads back, and the two mirror each other again. *)
Definition header_step (e : Encoder) (n v buf : bytes) (r : option (Encoder * bytes)) : Prop :=
  exists e' out, r = Some (e', buf ++ out) /\ is_bytes out /\ out <> [] /\ enc_inv e' /\
    pending_table_size_update e' = pending_table_size_update e /\
    max_size (dynamic e') = max_size (dynamic e) /\
    forall d, mirrors e d -> exists d', mirrors e' d' /\
      forall limit first rest,
        decode_item limit first d (out ++ rest) = Some (Field n v, d', rest).

Lemma header_step_full e n v i buf :
  enc_inv e -> table_get (entries (dynamic e)) i = Some (n, v) ->
  header_step e n v buf (buf ← encode_indexed i buf; Some (e, buf)).
Proof.
  intros He Hg. pose proof (table_get_pos _ _ _ Hg). unfold encode_indexed.
  destruct (encode_integer_spec i 7 128 buf) as (x & tl & -> & Hx & Hb & Hd);
    [lia|by apply (bool_decide_unpack _)|].
  exists e, ((128 + x) :: tl). split_and!; try done. intros d Hdm. exists d. split; [done|].
  intros limit first rest.
  unfold decode_item. cbn [app]. rewrite (proj2 (Z.leb_le _ _)) by lia. rewrite Hd.
  cbn [mbind option_bind]. by rewrite (table_get_prefix _ _ _ _ (proj2 Hdm) Hg).
Qed.

(** The bytes of a literal representation: a first byte with the pattern
    [leading], read back by every mirroring decoder. *)
Definition emits_literal (e : Encoder) (p leading : Z) (n v buf : bytes) (r : option bytes) : Prop :=
  exists x tl, r = Some (buf ++ (leading + x) :: tl) /\ 0 <= x < 2 ^ p /\
    is_bytes ((leading + x) :: tl) /\
    forall d rest, mirrors e d -> decode_literal d p ((leading + x) :: tl ++ rest) = Some (n, v, rest).

(** Literals that add to the table (prefix 6) and that do not (prefix 4). *)
Lemma header_step_insert e n v buf r :
  enc_inv e -> emits_literal e 6 64 n v buf r ->
  header_step e n v buf (buf ← r; e ← insert_dynamic n v e; Some (e, buf)).
Proof.
  intros He (x & tl & -> & Hx & Hb & Hd). cbn [mbind option_bind].
  destruct (insert_dynamic_spec n v e He) as (e' & -> & He' & Hp & Hmx & Hm).
  exists e', ((64 + x) :: tl). split_and!; try done. intros d Hdm. eexists. split; [by apply Hm|].
  intros limit first rest. unfold decode_item. cbn [app]. change (2 ^ 6) with 64 in Hx.
  rewrite (proj2 (Z.leb_gt _ _)) by lia. rewrite (proj2 (Z.leb_le _ _)) by lia.
  by rewrite Hd.
Qed.

Lemma header_step_plain e n v leading buf r :
  enc_inv e -> 0 <= leading <= 16 -> emits_literal e 4 leading n v buf r ->
  header_step e n v buf (buf ← r; Some (e, buf)).
Proof.
  intros He Hl (x & tl & -> & Hx & Hb & Hd). cbn [mbind option_bind].
  exists e, ((leading + x) :: tl). split_and!; try done. intros d Hdm. exists d. split; [done|].
  intros limit first rest. change (2 ^ 4) with 16 in Hx.
  unfold decode_item. cbn [app]. rewrite !(proj2 (Z.leb_gt _ _)) by lia.
  by rewrite Hd.
Qed.

(** A literal whose name is an index, under any of the three prefixes. *)
Lemma literal_indexed_spec e p leading i n v v' h buf :
  prefix_ok p leading -> is_bytes v -> table_get (entries (dynamic e)) i = Some (n, v') ->
  emits_literal e p leading n v buf (buf ← encode_integer i p leading buf; encode_string v h buf).
Proof.
  intros Hp Hv Hg. pose proof (table_get_pos _ _ _ Hg) as Hi.
  destruct (encode_integer_spec i p leading buf) as (x & tl & -> & Hx & Hb & Hd); [lia|done|].
  cbn [mbind option_bind].
  destruct (encode_string_spec v h (buf ++ (leading + x) :: tl) Hv) as (out & -> & Ho & Hs).
  exists x, (tl ++ out). rewrite <- app_assoc. split; [done|]. split; [done|].
  split; [by apply (is_bytes_app (_ :: tl) out)|]. intros d rest [_ Hpre]. unfold decode_literal.
  rewrite <- app_assoc, Hd. cbn [mbind option_bind]. rewrite (proj2 (Z.eqb_neq _ _)) by lia.
  rewrite (table_get_prefix _ _ _ _ Hpre Hg). cbn [mbind option_bind fst]. by rewrite Hs.
Qed.

(** A literal that spells its name. *)
Lemma literal_new_spec e p leading n v h buf :
  prefix_ok p leading -> is_bytes n -> is_bytes v ->
  emits_literal e p leading n v buf
    (buf ← encode_string n true (buf ++ [leading]); encode_string v h buf).
Proof.
  intros (Hp & Hal & Hl & _) Hn Hv.
  destruct (encode_string_spec n true (buf ++ [leading]) Hn) as (o1 & -> & Ho1 & Hs1).
  cbn [mbind option_bind].
  destruct (encode_string_spec v h ((buf ++ [leading]) ++ o1) Hv) as (o2 & -> & Ho2 & Hs2).
  exists 0, (o1 ++ o2). rewrite Z.add_0_r, <- !app_assoc. split; [done|].
  assert (2 <= 2 ^ p) by (change 2 with (2 ^ 1) at 1; apply Z.pow_le_mono_r; lia).
  split; [lia|].
  split; [apply is_bytes_cons; split; [unfold u8; lia|by apply is_bytes_app]|].
  intros d rest _. unfold decode_literal, decode_int. rewrite Hal.
  rewrite (proj2 (Z.ltb_lt _ _)) by lia. cbn [mbind option_bind].
  rewrite Z.eqb_refl, <- app_assoc, Hs1. cbn [mbind option_bind]. by rewrite Hs2.
Qed.

Local Ltac lit :=
  solve [eapply literal_indexed_spec; eassumption | apply literal_new_spec; assumption].

Lemma encode_header_step e n v enc buf :
  enc_inv e -> is_bytes n -> is_bytes v ->
  header_step e n v buf (encode_header e n v enc buf).
Proof.
  intros He Hn Hv. unfold encode_header.
  assert (prefix_ok 6 64) as P6 by by apply (bool_decide_unpack _).
  assert (prefix_ok 4 0) as P0 by by apply (bool_decide_unpack _).
  assert (prefix_ok 4 16) as P1 by by apply (bool_decide_unpack _).
  pose proof (find_header_spec n v (dynamic e)) as Hf.
  destruct (table.find_header n v (dynamic e)) as [[i|i]|];
    [destruct Hf as [Hg _]|destruct Hf as [[v' Hg] _]|clear Hf];
    destruct enc;
    first
      [ by apply header_step_full
      | apply header_step_insert
      | apply (header_step_plain e n v 0); [done|lia|lit]
      | apply (header_step_plain e n v 16); [done|lia|lit] ];
    first [done|lit].
Qed.

Lemma encode_loop_step policy hs : forall e buf,
  enc_inv e -> Forall (fun h => is_bytes h.1 /\ is_bytes h.2) hs ->
  exists e' out, encode_loop policy hs e buf = Some (e', buf ++ out) /\ is_bytes out /\
    enc_inv e' /\ pending_table_size_update e' = pending_table_size_update e /\
    max_size (dynamic e') = max_size (dynamic e) /\
    forall d, mirrors e d -> exists d', mirrors e' d' /\
      forall fuel limit first, (length out <= fuel)%nat ->
        decode_block fuel limit first d out = Some (hs, d').
Proof.
  induction hs as [|[n v] hs IH]; intros e buf He Hhs; cbn [encode_loop].
  { exists e, []. rewrite app_nil_r. split_and!; try done; [constructor|].
    intros d Hd. exists d. split; [done|]. by intros []. }
  apply Forall_cons in Hhs as [[Hn Hv] Hhs].
  destruct (encode_header_step e n v (policy n v) buf He Hn Hv)
    as (e1 & o1 & -> & Ho1 & Hne & He1 & Hp1 & Hm1 & Hd1).
  cbn [mbind option_bind].
  destruct (IH e1 (buf ++ o1) He1 Hhs) as (e2 & o2 & -> & Ho2 & He2 & Hp2 & Hm2 & Hd2).
  exists e2, (o1 ++ o2). rewrite <- app_assoc. split_and!; try done; try congruence.
  { by apply is_bytes_app. }
  intros d Hd. destruct (Hd1 d Hd) as (d1 & Hd1' & Hdec).
  destruct (Hd2 d1 Hd1') as (d2 & Hd2' & Hblk). exists d2. split; [done|].
  intros fuel limit first Hf. destruct o1 as [|b o1]; [done|].
  destruct fuel as [|fuel]; [simpl in Hf; lia|].
  specialize (Hdec limit first o2). cbn [app decode_block is_empty] in *. rewrite Hdec.
  cbn [mbind option_bind]. rewrite Hblk; [done|]. rewrite length_cons, length_app in Hf. lia.
Qed.

(** ** Encoder and decoder in step, also across table resizes *)

(** While a resize is pending it has not reached the decoder: its table still
    has to be cut to the new size. *)
Definition in_sync (e : Encoder) (d : Decoder) : Prop :=
  enc_inv e /\
  match pending_table_size_update e with
  | None => mirrors e d
  | Some s => mirrors e (resize d s)
  end.

Lemma set_max_table_size_sync s e d :
  in_sync e d -> 0 <= s ->
  exists e', set_max_table_size s e = Some e' /\ in_sync e' d /\ max_size (dynamic e') = s.
Proof.
  intros [(Hi & Hm & _) Hp] Hs. unfold set_max_table_size. rewrite set_max_size_spec by done.
  eexists. split; [done|]. split; [|done]. split; [split; [by apply fit_inv|done]|].
  cbn [pending_table_size_update dynamic max_size entries]. split; [done|].
  cbn [dynamic entries resize d_entries]. apply fit_mono.
  destruct (pending_table_size_update e) as [s0|]; [|by destruct Hp].
  destruct Hp as [_ Hp]. etrans; [exact Hp|]. apply fit_prefix.
Qed.

Lemma encode_block_sync limit policy hs e d :
  in_sync e d -> max_size (dynamic e) <= limit ->
  Forall (fun h => is_bytes h.1 /\ is_bytes h.2) hs ->
  exists e' out d', encode_with_policy hs policy e = Some (e', out) /\ is_bytes out /\
    decode limit d out = Some (hs, d') /\ in_sync e' d' /\
    max_size (dynamic e') = max_size (dynamic e).
Proof.
  intros [He Hp] Hl Hhs. unfold encode_with_policy, emit_pending_table_size_update.
  destruct (pending_table_size_update e) as [s|] eqn:Es.
  - destruct He as (Hi & Hm & Hs). rewrite Es in Hs. rename Hp into Hmir.
    destruct (encode_integer_spec s 5 32 []) as (x & tl & -> & Hx & Hb & Hd);
      [lia|by apply (bool_decide_unpack _)|].
    cbn [mbind option_bind]. set (e0 := mkEncoder (dynamic e) None).
    destruct (encode_loop_step policy hs e0 ([] ++ (32 + x) :: tl)) as
      (e' & out & -> & Ho & He' & Hp' & Hm' & Hd'); [by split|done|].
    destruct (Hd' (resize d s) Hmir) as (d' & Hdm & Hdec).
    exists e', (((32 + x) :: tl) ++ out), d'. cbn [app].
    split_and!; try done.
    { by apply (is_bytes_app (_ :: tl)). }
    2:{ split; [done|]. by rewrite Hp'. }
    unfold decode. cbn [length decode_block is_empty]. unfold decode_item at 1.
    change (2 ^ 5) with 32 in Hx.
    rewrite !(proj2 (Z.leb_gt _ _)) by lia. rewrite (proj2 (Z.leb_le _ _)) by lia.
    rewrite Hd. cbn [mbind option_bind andb]. rewrite (proj2 (Z.leb_le _ _)) by lia.
    apply Hdec. rewrite length_app. lia.
  - cbn [mbind option_bind].
    destruct (encode_loop_step policy hs e []) as (e' & out & -> & Ho & He' & Hp' & Hm' & Hd');
      [done..|].
    destruct (Hd' d Hp) as (d' & Hdm & Hdec).
    exists e', out, d'. split_and!; try done; [by apply Hdec|].
    split; [done|]. by rewrite Hp', Es.
Qed.

(** A connection's header traffic: table resizes and header blocks in any
    order.  [session] runs the encoder and hands every block to the decoder. *)
Inductive hpack_op : Type :=
| Resize (size : Z)
| Block (headers : list (bytes * bytes)).

Fixpoint session (limit : Z) (policy : HpackEncodePolicy) (ops : list hpack_op)
    (e : Encoder) (d : Decoder) : option (list (list (bytes * bytes))) :=
  match ops with
  | [] => Some []
  | Resize s :: ops => e ← set_max_table_size s e; session limit policy ops e d
  | Block hs :: ops =>
      '(e, block) ← encode_with_policy hs policy e;
      '(hs', d) ← decode limit d block;
      rest ← session limit policy ops e d; Some (hs' :: rest)
  end.

Definition op_ok (limit : Z) (op : hpack_op) : Prop :=
  match op with
  | Resize s => 0 <= s /\ s <= limit
  | Block hs => Forall (fun h => is_bytes h.1 /\ is_bytes h.2) hs
  end.

#[export] Instance op_ok_dec limit op : Decision (op_ok limit op).
Proof. destruct op; simpl; apply _. Defined.

Definition op_blocks (ops : list hpack_op) : list (list (bytes * bytes)) :=
  omap (fun op => match op with Resize _ => None | Block hs => Some hs end) ops.

Lemma session_sync limit policy ops : forall e d,
  in_sync e d -> max_size (dynamic e) <= limit -> Forall (op_ok limit) ops ->
  session limit policy ops e d = Some (op_blocks ops).
Proof.
  induction ops as [|[s|hs] ops IH]; intros e d Hs Hl Hops; [done|..];
    apply Forall_cons in Hops as [Hop Hops]; cbn [session].
  - destruct (set_max_table_size_sync s e d Hs) as (e' & -> & Hs' & Hm); [by destruct Hop|].
    cbn [mbind option_bind]. rewrite IH; [done|done| |done]. rewrite Hm. by destruct Hop.
  - destruct (encode_block_sync limit policy hs e d Hs Hl Hop)
      as (e' & out & d' & -> & _ & Hd & Hs' & Hm).
    cbn [mbind option_bind]. rewrite Hd. cbn [mbind option_bind].
    rewrite IH; [done|done|by rewrite Hm|done].
Qed.

Lemma new_in_sync n : 0 <= n -> in_sync (hpack_enc.new n) (Rfc7541.new n).
Proof. intros Hn. split; [split; [split; [done|]|]|split]; done. Qed.

(** The invariant alone makes encoding total. *)
Lemma encode_with_policy_total hs policy e :
  enc_inv e -> Forall (fun h => is_bytes h.1 /\ is_bytes h.2) hs ->
  exists e' out, encode_with_policy hs policy e = Some (e', out) /\ is_bytes out /\ enc_inv e'.
Proof.
  intros He Hhs.
  assert (in_sync e (mkDecoder (entries (dynamic e)) (max_size (dynamic e)))) as Hs.
  { split; [done|]. destruct He as ([Hsz Hle] & Hm & Hp).
    destruct (pending_table_size_update e) as [s|]; [|done]. subst s. split; [done|].
    cbn. by rewrite fit_all by lia. }
  destruct (encode_block_sync (max_size (dynamic e)) policy hs e _ Hs ltac:(lia) Hhs)
    as (e' & out & d' & H1 & H2 & _ & [H3 _] & _). by exists e', out.
Qed.

(** A resize to 0 and back before the next block: only the last size is
    announced, so a decoder keeps the entries the encoder has evicted (RFC 7541,
    4.2 asks for the smallest size to be announced as well). *)
Lemma double_resize_not_announced :
  let h := (ascii_bytes "x-a", ascii_bytes "1") in
  let r :=
    '(e, b1) ← encode_with_policy [h] DefaultHpackPolicy with_default_size;
    '(_, d) ← decode 4096 (Rfc7541.new 4096) b1;
    e ← set_max_table_size 0 e;
    e ← set_max_table_size 4096 e;
    '(e, b2) ← encode_with_policy [] DefaultHpackPolicy e;
    '(_, d) ← decode 4096 d b2;
    Some (entries (dynamic e), d_entries d) in
  r = Some ([], [h]).
Proof. by vm_compute. Qed.

(** ** Claims *)

(** C11. HPACK end to end: for every policy and every sequence of header blocks
    and table resizes (within the size the peer allows), the encoder never
    panics or loops, and a decoder written from RFC 7541 reads back every block
    as exactly the headers that were encoded, in order, because the two dynamic
    tables stay in step. *)
Theorem hpack_session_correct (limit n : Z) (policy : HpackEncodePolicy) (ops : list hpack_op) :
  0 <= n <= limit -> Forall (op_ok limit) ops ->
  session limit policy ops (hpack_enc.new n) (Rfc7541.new n) = Some (op_blocks ops).
Proof. intros Hn Hops. apply session_sync; [apply new_in_sync; lia|simpl; lia|done]. Qed.

Lemma hpack_session_correct_witness :
  let h := (ascii_bytes "x-a", ascii_bytes "1") in
  let ops := [Block [h; h]; Resize 0; Resize 4096; Block [h]; Block [h; (ascii_bytes ":method", ascii_bytes "GET")]] in
  session 4096 SafariHpackPolicy ops (hpack_enc.new 4096) (Rfc7541.new 4096) = Some (op_blocks ops).
Proof.
  apply (hpack_session_correct 4096 4096); [lia|by apply (bool_decide_unpack _)].
Defined.
