(* ===== verification/Stream.v ===== *)
(** * Streams (lkh2/src/stream.rs)

    The stream state machine of RFC 7540 section 5.1 and the two flow-control
    windows of a stream.  Windows are [i32]; the source computes in [i64] and
    casts back, so every cast is written out ([as_i32]) and [stream_inv] is the
    invariant under which no cast truncates. *)
From S2P Require Import Prelude.

Inductive StreamState : Type :=
| Idle
| ReservedLocal
| ReservedRemote
| Open
| HalfClosedLocal
| HalfClosedRemote
| Closed.

#[export] Instance StreamState_eq_dec : EqDecision StreamState.
Proof. solve_decision. Defined.

Inductive StreamError : Type :=
| InvalidTransition (from : StreamState) (event : string)
| StreamFlowControlError (window requested : Z)
| WindowOverflow.

Module stream.

Definition can_send (s : StreamState) : bool :=
  match s with Open | HalfClosedRemote => true | _ => false end.
Definition can_receive (s : StreamState) : bool :=
  match s with Open | HalfClosedLocal => true | _ => false end.
Definition is_closed (s : StreamState) : bool :=
  match s with Closed => true | _ => false end.
Definition is_active (s : StreamState) : bool :=
  match s with Idle | Closed => false | _ => true end.

Definition state_display (s : StreamState) : string :=
  match s with
  | Idle => "idle"
  | ReservedLocal => "reserved (local)"
  | ReservedRemote => "reserved (remote)"
  | Open => "open"
  | HalfClosedLocal => "half-closed (local)"
  | HalfClosedRemote => "half-closed (remote)"
  | Closed => "closed"
  end.

Record H2Stream : Type := mkStream {
  id : Z;
  state : StreamState;
  send_window : Z;
  recv_window : Z;
  initial_window_size : Z;
}.

Definition with_state (s : H2Stream) (x : StreamState) : H2Stream :=
  mkStream (id s) x (send_window s) (recv_window s) (initial_window_size s).
Definition with_send_window (s : H2Stream) (w : Z) : H2Stream :=
  mkStream (id s) (state s) w (recv_window s) (initial_window_size s).
Definition with_recv_window (s : H2Stream) (w : Z) : H2Stream :=
  mkStream (id s) (state s) (send_window s) w (initial_window_size s).

Definition DEFAULT_INITIAL_WINDOW_SIZE : Z := 65535.

Definition new (id initial_window_size : Z) : H2Stream :=
  mkStream id Idle (as_i32 initial_window_size) (as_i32 initial_window_size) initial_window_size.

Definition new_with_windows (id send_initial_window recv_initial_window : Z) : H2Stream :=
  mkStream id Idle (as_i32 send_initial_window) (as_i32 recv_initial_window) send_initial_window.

Definition with_default_window (id : Z) : H2Stream := new id DEFAULT_INITIAL_WINDOW_SIZE.

Definition send_window_available (s : H2Stream) : Z := Z.max (send_window s) 0.

Definition open (s : H2Stream) : Outcome StreamError H2Stream :=
  match state s with
  | Idle | ReservedLocal | ReservedRemote => Ok (with_state s Open)
  | _ => Err (InvalidTransition (state s) "open")
  end.

Definition send_end_stream (s : H2Stream) : Outcome StreamError H2Stream :=
  match state s with
  | Open => Ok (with_state s HalfClosedLocal)
  | HalfClosedRemote => Ok (with_state s Closed)
  | _ => Err (InvalidTransition (state s) "send_end_stream")
  end.

Definition recv_end_stream (s : H2Stream) : Outcome StreamError H2Stream :=
  match state s with
  | Open => Ok (with_state s HalfClosedRemote)
  | HalfClosedLocal => Ok (with_state s Closed)
  | _ => Err (InvalidTransition (state s) "recv_end_stream")
  end.

Definition reset (s : H2Stream) : H2Stream := with_state s Closed.

(** Returns how much was taken. *)
Definition consume_send_window (amount : Z) (s : H2Stream) : Z * H2Stream :=
  let available := Z.max (send_window s) 0 in
  let consumed := Z.min amount available in
  (consumed, with_send_window s (as_i32 (send_window s - as_i32 consumed))).

Definition consume_recv_window (amount : Z) (s : H2Stream) : Outcome StreamError H2Stream :=
  if (recv_window s <? 0) || (as_u32 (recv_window s) <? amount)
  then Err (StreamFlowControlError (recv_window s) amount)
  else Ok (with_recv_window s (as_i32 (recv_window s - as_i32 amount))).

Definition update_send_window (increment : Z) (s : H2Stream) : Outcome StreamError H2Stream :=
  let new_window := send_window s + increment in
  if I32_MAX <? new_window then Err WindowOverflow
  else Ok (with_send_window s (as_i32 new_window)).

Definition update_recv_window (increment : Z) (s : H2Stream) : Outcome StreamError H2Stream :=
  let new_window := recv_window s + increment in
  if I32_MAX <? new_window then Err WindowOverflow
  else Ok (with_recv_window s (as_i32 new_window)).

Definition apply_initial_window_size (new_size : Z) (s : H2Stream) : Outcome StreamError H2Stream :=
  let delta := new_size - initial_window_size s in
  let new_window := send_window s + delta in
  if I32_MAX <? new_window then Err WindowOverflow
  else Ok (mkStream (id s) (state s) (as_i32 new_window) (recv_window s) new_size).

Definition error_display (e : StreamError) : string :=
  match e with
  | InvalidTransition from event =>
      "invalid transition from " +:+ state_display from +:+ " on event " +:+ event
  | StreamFlowControlError window requested =>
      "flow control error: window=" +:+ pretty window +:+ ", requested=" +:+ pretty requested
  | WindowOverflow => "window size overflow"
  end.

End stream.
Import stream.

(** ** Windows

    The send window may go negative when the peer shrinks its initial window,
    but never by more than what fits: the debt [initial - send] is at most
    [i32::MAX], because only a positive window is ever consumed. *)
Definition stream_inv (s : H2Stream) : Prop :=
  i32 (send_window s) /\ i32 (recv_window s) /\ 0 <= recv_window s /\
  u31 (initial_window_size s) /\ initial_window_size s - send_window s <= I32_MAX.

#[export] Instance stream_inv_dec s : Decision (stream_inv s).
Proof. unfold stream_inv; apply _. Defined.

Lemma stream_new_inv id send recv :
  u31 send -> u31 recv -> stream_inv (new_with_windows id send recv).
Proof.
  intros Hs Hr. unfold stream_inv, new_with_windows. cbn. rewrite !as_i32_small by width. width.
Qed.

Lemma consume_send_spec amount s :
  stream_inv s -> u32 amount ->
  let c := Z.min amount (Z.max (send_window s) 0) in
  consume_send_window amount s = (c, with_send_window s (send_window s - c)) /\
  stream_inv (with_send_window s (send_window s - c)).
Proof.
  intros (Hs & Hr & H0 & Hi & Hd) Ha c. unfold consume_send_window. fold c.
  assert (i32 c /\ 0 <= c /\ (c <= 0 \/ c <= send_window s)) as (Hc & Hc0 & Hcs) by (subst c; width).
  rewrite (as_i32_small c) by done. rewrite as_i32_small by width. split; [done|].
  unfold stream_inv. cbn. width.
Qed.

Lemma consume_recv_spec amount s :
  stream_inv s -> u32 amount ->
  consume_recv_window amount s =
    (if decide (amount <= recv_window s)
     then Ok (with_recv_window s (recv_window s - amount))
     else Err (StreamFlowControlError (recv_window s) amount)) /\
  (amount <= recv_window s -> stream_inv (with_recv_window s (recv_window s - amount))).
Proof.
  intros (Hs & Hr & H0 & Hi & Hd) Ha. unfold consume_recv_window.
  rewrite (proj2 (Z.ltb_ge (recv_window s) 0)) by lia. cbn [orb].
  rewrite as_u32_small by width. split.
  - destruct (decide _) as [Hle|Hgt].
    + rewrite (proj2 (Z.ltb_ge _ _)) by lia. rewrite (as_i32_small amount) by width.
      by rewrite as_i32_small by width.
    + by rewrite (proj2 (Z.ltb_lt _ _)) by lia.
  - intros Hle. unfold stream_inv. cbn. width.
Qed.

Lemma update_send_spec inc s :
  stream_inv s -> u32 inc ->
  update_send_window inc s =
    (if decide (send_window s + inc <= I32_MAX)
     then Ok (with_send_window s (send_window s + inc)) else Err WindowOverflow) /\
  (send_window s + inc <= I32_MAX -> stream_inv (with_send_window s (send_window s + inc))).
Proof.
  intros (Hs & Hr & H0 & Hi & Hd) Ha. unfold update_send_window. split.
  - destruct (decide _) as [Hle|Hgt].
    + rewrite (proj2 (Z.ltb_ge _ _)) by lia. by rewrite as_i32_small by width.
    + by rewrite (proj2 (Z.ltb_lt _ _)) by lia.
  - intros Hle. unfold stream_inv. cbn. width.
Qed.

Lemma update_recv_spec inc s :
  stream_inv s -> u32 inc ->
  update_recv_window inc s =
    (if decide (recv_window s + inc <= I32_MAX)
     then Ok (with_recv_window s (recv_window s + inc)) else Err WindowOverflow) /\
  (recv_window s + inc <= I32_MAX -> stream_inv (with_recv_window s (recv_window s + inc))).
Proof.
  intros (Hs & Hr & H0 & Hi & Hd) Ha. unfold update_recv_window. split.
  - destruct (decide _) as [Hle|Hgt].
    + rewrite (proj2 (Z.ltb_ge _ _)) by lia. by rewrite as_i32_small by width.
    + by rewrite (proj2 (Z.ltb_lt _ _)) by lia.
  - intros Hle. unfold stream_inv. cbn. width.
Qed.

Lemma apply_initial_spec n s :
  stream_inv s -> u31 n ->
  let s' := mkStream (id s) (state s) (send_window s + (n - initial_window_size s))
              (recv_window s) n in
  apply_initial_window_size n s =
    (if decide (send_window s' <= I32_MAX) then Ok s' else Err WindowOverflow) /\
  (send_window s' <= I32_MAX -> stream_inv s').
Proof.
  intros (Hs & Hr & H0 & Hi & Hd) Hn s'. unfold apply_initial_window_size. cbn in *. split.
  - destruct (decide _) as [Hle|Hgt].
    + rewrite (proj2 (Z.ltb_ge _ _)) by lia. by rewrite as_i32_small by width.
    + by rewrite (proj2 (Z.ltb_lt _ _)) by lia.
  - intros Hle. unfold stream_inv. cbn. width.
Qed.

(** ** Operation sequences *)

Inductive stream_op : Type :=
| OpOpen
| OpSendEnd
| OpRecvEnd
| OpReset
| OpConsumeSend (amount : Z)
| OpConsumeRecv (amount : Z)
| OpUpdateSend (increment : Z)
| OpUpdateRecv (increment : Z)
| OpApplyInitial (new_size : Z).

(** An operation that returns an error leaves the stream as it was. *)
Definition or_keep (s : H2Stream) (r : Outcome StreamError H2Stream) : H2Stream :=
  match r with Ok s' => s' | _ => s end.

Definition stream_exec (s : H2Stream) (op : stream_op) : H2Stream :=
  match op with
  | OpOpen => or_keep s (open s)
  | OpSendEnd => or_keep s (send_end_stream s)
  | OpRecvEnd => or_keep s (recv_end_stream s)
  | OpReset => reset s
  | OpConsumeSend a => (consume_send_window a s).2
  | OpConsumeRecv a => or_keep s (consume_recv_window a s)
  | OpUpdateSend i => or_keep s (update_send_window i s)
  | OpUpdateRecv i => or_keep s (update_recv_window i s)
  | OpApplyInitial n => or_keep s (apply_initial_window_size n s)
  end.

(** The argument ranges the types and the SETTINGS check give. *)
Definition stream_op_ok (op : stream_op) : Prop :=
  match op with
  | OpConsumeSend a | OpConsumeRecv a | OpUpdateSend a | OpUpdateRecv a => u32 a
  | OpApplyInitial n => u31 n
  | _ => True
  end.

(** *** Abstract life cycle: not opened yet, or the two directions open or ended. *)
Inductive phase : Type :=
| NotOpen
| Live (tx rx : bool).

Definition phase_of (s : StreamState) : phase :=
  match s with
  | Idle | ReservedLocal | ReservedRemote => NotOpen
  | Open => Live true true
  | HalfClosedLocal => Live false true
  | HalfClosedRemote => Live true false
  | Closed => Live false false
  end.

Definition phase_step (p : phase) (op : stream_op) : phase :=
  match op, p with
  | OpOpen, NotOpen => Live true true
  | OpSendEnd, Live true rx => Live false rx
  | OpRecvEnd, Live tx true => Live tx false
  | OpReset, _ => Live false false
  | _, _ => p
  end.

Lemma phase_exec s op : phase_of (state (stream_exec s op)) = phase_step (phase_of (state s)) op.
Proof.
  destruct s as [i st sw rw iw], op; destruct st; cbn; try done;
    unfold consume_recv_window, update_send_window, update_recv_window, apply_initial_window_size;
    case_match; done.
Qed.

(** *** Abstract flow control: ledgers over unbounded integers. *)
Record ledger : Type := mkLedger {
  l_initial : Z;      (* the peer's current initial window *)
  l_credited : Z;     (* WINDOW_UPDATE increments received *)
  l_sent : Z;         (* bytes sent *)
  l_recv_initial : Z; (* our initial window for this stream *)
  l_granted : Z;      (* increments we sent *)
  l_received : Z;     (* bytes received *)
}.

Definition l_send (l : ledger) : Z := l_initial l + l_credited l - l_sent l.
Definition l_recv (l : ledger) : Z := l_recv_initial l + l_granted l - l_received l.

Definition ledger_step (l : ledger) (op : stream_op) : ledger :=
  match op with
  | OpConsumeSend a =>
      mkLedger (l_initial l) (l_credited l) (l_sent l + Z.min a (Z.max (l_send l) 0))
        (l_recv_initial l) (l_granted l) (l_received l)
  | OpConsumeRecv a =>
      if decide (a <= l_recv l)
      then mkLedger (l_initial l) (l_credited l) (l_sent l)
             (l_recv_initial l) (l_granted l) (l_received l + a)
      else l
  | OpUpdateSend i =>
      if decide (l_send l + i <= I32_MAX)
      then mkLedger (l_initial l) (l_credited l + i) (l_sent l)
             (l_recv_initial l) (l_granted l) (l_received l)
      else l
  | OpUpdateRecv i =>
      if decide (l_recv l + i <= I32_MAX)
      then mkLedger (l_initial l) (l_credited l) (l_sent l)
             (l_recv_initial l) (l_granted l + i) (l_received l)
      else l
  | OpApplyInitial n =>
      if decide (l_send l + (n - l_initial l) <= I32_MAX)
      then mkLedger n (l_credited l) (l_sent l) (l_recv_initial l) (l_granted l) (l_received l)
      else l
  | _ => l
  end.

Definition ledger_rel (s : H2Stream) (l : ledger) : Prop :=
  stream_inv s /\ send_window s = l_send l /\ recv_window s = l_recv l /\
  initial_window_size s = l_initial l.

Lemma stream_inv_state s x : stream_inv s -> stream_inv (with_state s x).
Proof. done. Qed.

Lemma ledger_exec s l op :
  ledger_rel s l -> stream_op_ok op -> ledger_rel (stream_exec s op) (ledger_step l op).
Proof.
  intros (Hinv & Hs & Hr & Hi) Hop.
  assert (forall x, ledger_rel (with_state s x) l) as Hst by (intros x; by split_and!).
  assert (ledger_rel s l) as Hkeep by by split_and!.
  destruct op; cbn [stream_exec ledger_step stream_op_ok] in *.
  - unfold open. destruct (state s); apply Hst || done.
  - unfold send_end_stream. destruct (state s); apply Hst || done.
  - unfold recv_end_stream. destruct (state s); apply Hst || done.
  - apply Hst.
  - destruct (consume_send_spec amount s Hinv Hop) as [-> Hinv']. cbn [snd].
    split; [done|]. unfold l_send, l_recv in *. cbn. rewrite <- Hs. split_and!; lia.
  - destruct (consume_recv_spec amount s Hinv Hop) as [-> Hinv']. rewrite <- Hr.
    destruct (decide _); [|done]. split; [by apply Hinv'|].
    unfold l_send, l_recv in *. cbn. split_and!; lia.
  - destruct (update_send_spec increment s Hinv Hop) as [-> Hinv']. rewrite <- Hs.
    destruct (decide _); [|done]. split; [by apply Hinv'|].
    unfold l_send, l_recv in *. cbn. split_and!; lia.
  - destruct (update_recv_spec increment s Hinv Hop) as [-> Hinv']. rewrite <- Hr.
    destruct (decide _); [|done]. split; [by apply Hinv'|].
    unfold l_send, l_recv in *. cbn. split_and!; lia.
  - destruct (apply_initial_spec new_size s Hinv Hop) as [-> Hinv']. cbn in Hinv' |- *.
    rewrite <- Hs, <- Hi. destruct (decide _); [|done]. split; [by apply Hinv'|].
    unfold l_send, l_recv in *. cbn. split_and!; lia.
Qed.

(** ** Claims *)

(** The stream state machine implements the two-direction life cycle of RFC
    7540 section 5.1 on every sequence of operations: a stream opens once, each
    direction ends once and independently, a reset ends both, nothing reopens
    it; it may send (receive) exactly while that direction is open, and it is
    closed exactly when both have ended. *)
Theorem stream_lifecycle_refines (s : H2Stream) (ops : list stream_op) :
  let s' := foldl stream_exec s ops in
  let p' := foldl phase_step (phase_of (state s)) ops in
  phase_of (state s') = p' /\
  (can_send (state s') = true <-> exists rx, p' = Live true rx) /\
  (can_receive (state s') = true <-> exists tx, p' = Live tx true) /\
  (is_closed (state s') = true <-> p' = Live false false).
Proof.
  intros s' p'. assert (phase_of (state s') = p') as Hp.
  { subst s' p'. clear -s. revert s. induction ops as [|op ops IH]; intros s; [done|].
    cbn [foldl]. by rewrite IH, phase_exec. }
  split; [done|]. rewrite <- Hp. destruct (state s'); cbn; naive_solver.
Qed.

(** Flow control of a stream is exact: over any sequence of operations the
    32-bit windows equal the unbounded ledgers (initial window plus credit minus
    bytes), so no cast truncates, an increment past 2^31-1 is refused without
    effect, a shrunken initial window makes the send window negative rather
    than wrap, and the receive window never goes below zero. *)
Theorem stream_windows_exact (id send recv : Z) (ops : list stream_op) :
  u31 send -> u31 recv -> Forall stream_op_ok ops ->
  let s := foldl stream_exec (new_with_windows id send recv) ops in
  let l := foldl ledger_step (mkLedger send 0 0 recv 0 0) ops in
  send_window s = l_send l /\ recv_window s = l_recv l /\ initial_window_size s = l_initial l /\
  i32 (send_window s) /\ 0 <= recv_window s <= I32_MAX.
Proof.
  intros Hs Hr Hops s l. assert (ledger_rel s l) as (Hinv & ? & ? & ?).
  { subst s l. assert (ledger_rel (new_with_windows id send recv) (mkLedger send 0 0 recv 0 0)) as H0.
    { split; [by apply stream_new_inv|]. unfold l_send, l_recv. cbn.
      rewrite !as_i32_small by width. split_and!; lia. }
    revert H0. generalize (new_with_windows id send recv) (mkLedger send 0 0 recv 0 0).
    induction Hops as [|op ops Hop Hops IH]; intros s l H0; [done|]. cbn [foldl].
    by apply IH, ledger_exec. }
  destruct Hinv as (Hw & Hw' & ? & _). split_and!; try done. width.
Qed.

Lemma stream_windows_exact_witness :
  let ops := [OpOpen; OpConsumeSend 65535; OpApplyInitial 0; OpUpdateSend 100; OpConsumeRecv 7] in
  let s := foldl stream_exec (new_with_windows 1 65535 100) ops in
  let l := foldl ledger_step (mkLedger 65535 0 0 100 0 0) ops in
  send_window s = l_send l /\ recv_window s = l_recv l /\ initial_window_size s = l_initial l /\
  i32 (send_window s) /\ 0 <= recv_window s <= I32_MAX.
Proof.
  apply (stream_windows_exact 1 65535 100); [by vm_compute|by vm_compute|].
  repeat constructor; by vm_compute.
Defined.
