(* ===== verification/Profile.v ===== *)
(** * HTTP/2 fingerprint profiles (lkh2/src/profile.rs)

    The profile data, the browser presets, the RFC 9218 request priority with
    its header syntax, and the conversion of a profile to wire frames.  A Rust
    [String] is its UTF-8 bytes.  [base64] is a crate outside the repository: the
    encoder that uses it takes it as an argument. *)
From S2P Require Import Prelude Text Frame Codec CodecProps Policy.

Module profile.

Inductive H2SettingId : Type :=
| HeaderTableSize
| EnablePush
| MaxConcurrentStreams
| InitialWindowSize
| MaxFrameSize
| MaxHeaderListSize
| EnableConnectProtocol
| NoRfc7540Priorities
| Unknown (raw : Z).

Definition as_u16 (i : H2SettingId) : Z :=
  match i with
  | HeaderTableSize => 0x01
  | EnablePush => 0x02
  | MaxConcurrentStreams => 0x03
  | InitialWindowSize => 0x04
  | MaxFrameSize => 0x05
  | MaxHeaderListSize => 0x06
  | EnableConnectProtocol => 0x08
  | NoRfc7540Priorities => 0x09
  | Unknown raw => raw
  end.

Record H2Setting : Type := mkSetting {
  hs_id : H2SettingId;
  hs_value : Z;
}.

Inductive PseudoHeaderId : Type := Method | Authority | Scheme | Path.

#[export] Instance PseudoHeaderId_eq_dec : EqDecision PseudoHeaderId.
Proof. solve_decision. Defined.

Record HeadersPriority : Type := mkHeadersPriority {
  hp_stream_dependency : Z;
  hp_weight : Z;
  hp_exclusive : bool;
}.

Record ProfilePriorityFrame : Type := mkProfilePriorityFrame {
  ppf_stream_id : Z;
  ppf_dependency : Z;
  ppf_weight : Z;
  ppf_exclusive : bool;
}.

(** ** Request priority (RFC 9218) *)

Record RequestPriority : Type := mkRequestPriority {
  urgency : Z;
  incremental : bool;
}.

Definition navigation : RequestPriority := mkRequestPriority 0 true.
Definition fetch : RequestPriority := mkRequestPriority 1 true.
Definition css : RequestPriority := mkRequestPriority 0 false.
Definition script : RequestPriority := mkRequestPriority 1 false.
Definition image : RequestPriority := mkRequestPriority 2 true.
Definition background : RequestPriority := mkRequestPriority 3 false.
Definition custom (urgency : Z) (incremental : bool) : RequestPriority :=
  mkRequestPriority (Z.min urgency 7) incremental.
Definition priority_default : RequestPriority := mkRequestPriority 3 false.

Definition from_sec_fetch_dest (dest : bytes) : option RequestPriority :=
  if bool_decide (dest ∈ [ascii_bytes "document"; ascii_bytes "iframe"; ascii_bytes "frame"])
  then Some navigation
  else if bool_decide (dest = ascii_bytes "style") then Some css
  else if bool_decide (dest = ascii_bytes "script") then Some script
  else if bool_decide (dest = ascii_bytes "image") then Some image
  else if bool_decide (dest = ascii_bytes "empty") then Some fetch
  else None.

Definition to_header_value (p : RequestPriority) : bytes :=
  if incremental p then ascii_bytes ("u=" +:+ pretty (urgency p) +:+ ", i")
  else ascii_bytes ("u=" +:+ pretty (urgency p)).

(** One round of [for part in value.split(',')]. *)
Definition header_value_part (acc : option Z * bool) (part : bytes) : option Z * bool :=
  let '(urgency, incremental) := acc in
  let part := trim part in
  match strip_prefix (ascii_bytes "u=") part with
  | Some rest => ((fun v => Z.min v 7) <$> parse_uint 255 (trim rest), incremental)
  | None =>
      if bool_decide (part = ascii_bytes "i") then (urgency, true)
      else match strip_prefix (ascii_bytes "i=") part with
           | Some rest =>
               let rest := trim rest in
               (urgency, bool_decide (rest = ascii_bytes "?1") || bool_decide (rest = ascii_bytes "1"))
           | None => (urgency, incremental)
           end
  end.

Definition from_header_value (value : bytes) : option RequestPriority :=
  let '(urgency, incremental) := foldl header_value_part (None, false) (split_on 44 value) in
  u ← urgency; Some (mkRequestPriority u incremental).

Inductive StreamDepPolicy : Type := Flat | Chain.

Record PriorityConfig : Type := mkPriorityConfig {
  urgency_weights : option (list Z);
  pc_exclusive : bool;
  stream_dep_policy : StreamDepPolicy;
  auto_priority_header : bool;
  default_urgency : Z;
  default_incremental : bool;
}.

Definition pc_default : PriorityConfig := mkPriorityConfig None false Flat false 3 false.
Definition pc_chrome : PriorityConfig :=
  mkPriorityConfig (Some [255; 219; 146; 110; 73; 36; 0; 0]) true Chain true 1 true.
Definition pc_firefox : PriorityConfig := mkPriorityConfig None false Flat true 3 false.
Definition pc_safari18 : PriorityConfig := mkPriorityConfig None true Flat false 3 false.
Definition pc_safari26 : PriorityConfig := mkPriorityConfig None false Flat true 3 false.

Definition effective_priority (c : PriorityConfig) (explicit : option RequestPriority)
    : RequestPriority :=
  default (mkRequestPriority (default_urgency c) (default_incremental c)) explicit.

(** [w[urgency.min(7)]] of an 8-element array. *)
Definition weight_for_urgency (c : PriorityConfig) (urgency : Z) : option Z :=
  w ← urgency_weights c; w !! Z.to_nat (Z.min urgency 7).

(** ** Profiles *)

Record H2Profile : Type := mkProfile {
  settings : list H2Setting;
  window_update : Z;
  pseudo_header_order : list PseudoHeaderId;
  headers_priority : option HeadersPriority;
  priority_frames : list ProfilePriorityFrame;
  priority_config : PriorityConfig;
  p_behavior : option H2Behavior;
}.

Definition chrome_144_h2 : H2Profile := {|
  settings := [mkSetting HeaderTableSize 65536; mkSetting EnablePush 0;
               mkSetting InitialWindowSize 6291456; mkSetting MaxHeaderListSize 262144];
  window_update := 15663105;
  pseudo_header_order := [Method; Authority; Scheme; Path];
  headers_priority := Some (mkHeadersPriority 0 255 true);
  priority_frames := [];
  priority_config := pc_chrome;
  p_behavior := Some chrome_behavior |}.

Definition chrome_145_h2 : H2Profile := {|
  settings := [mkSetting HeaderTableSize 65536; mkSetting EnablePush 0;
               mkSetting InitialWindowSize 6291456; mkSetting MaxHeaderListSize 262144];
  window_update := 15663105;
  pseudo_header_order := [Method; Authority; Scheme; Path];
  headers_priority := Some (mkHeadersPriority 0 255 true);
  priority_frames := [];
  priority_config := pc_chrome;
  p_behavior := Some chrome_behavior |}.

Definition chrome_146_h2 : H2Profile := chrome_144_h2.
Definition chrome_147_h2 : H2Profile := chrome_144_h2.
Definition chrome_148_h2 : H2Profile := chrome_144_h2.
Definition chrome_149_h2 : H2Profile := chrome_144_h2.
Definition chrome_150_h2 : H2Profile := chrome_144_h2.
Definition chrome_151_h2 : H2Profile := chrome_150_h2.
Definition chrome_131_h2 : H2Profile := chrome_144_h2.

Definition firefox_133_h2 : H2Profile := {|
  settings := [mkSetting HeaderTableSize 65536; mkSetting InitialWindowSize 131072;
               mkSetting MaxFrameSize 16384];
  window_update := 12517377;
  pseudo_header_order := [Method; Path; Authority; Scheme];
  headers_priority := Some (mkHeadersPriority 0 42 false);
  priority_frames := [];
  priority_config := pc_firefox;
  p_behavior := Some firefox_behavior |}.

Definition firefox_147_h2 : H2Profile := {|
  settings := [mkSetting HeaderTableSize 65536; mkSetting EnablePush 0;
               mkSetting InitialWindowSize 131072; mkSetting MaxFrameSize 16384];
  window_update := 12517377;
  pseudo_header_order := [Method; Path; Authority; Scheme];
  headers_priority := Some (mkHeadersPriority 0 42 false);
  priority_frames := [];
  priority_config := pc_firefox;
  p_behavior := Some firefox_behavior |}.

Definition safari_18_h2 : H2Profile := {|
  settings := [mkSetting InitialWindowSize 4194304; mkSetting MaxConcurrentStreams 100];
  window_update := 10485760;
  pseudo_header_order := [Method; Scheme; Path; Authority];
  headers_priority := Some (mkHeadersPriority 0 255 true);
  priority_frames := [];
  priority_config := pc_safari18;
  p_behavior := Some safari_behavior |}.

Definition safari_26_h2 : H2Profile := {|
  settings := [mkSetting EnablePush 0; mkSetting MaxConcurrentStreams 100;
               mkSetting InitialWindowSize 2097152; mkSetting NoRfc7540Priorities 1];
  window_update := 10420225;
  pseudo_header_order := [Method; Scheme; Authority; Path];
  headers_priority := None;
  priority_frames := [];
  priority_config := pc_safari26;
  p_behavior := Some safari_behavior |}.

Definition with_behavior (p : H2Profile) (b : H2Behavior) : H2Profile :=
  mkProfile (settings p) (window_update p) (pseudo_header_order p) (headers_priority p)
    (priority_frames p) (priority_config p) (Some b).

Definition behavior (p : H2Profile) : H2Behavior := default default_behavior (p_behavior p).

(** ** Wire frames *)

Definition encode_alps_h2_settings (p : H2Profile) : bytes :=
  foldl (fun buf s => buf ++ be16 (as_u16 (hs_id s)) ++ be32 (hs_value s)) [] (settings p).

Definition encode_h2_settings_base64url (base64url_nopad : bytes -> bytes) (p : H2Profile) : bytes :=
  base64url_nopad (encode_alps_h2_settings p).

Definition to_settings_frame (p : H2Profile) : SettingsFrame :=
  {| sf_ack := false;
     sf_settings := (fun s => {| sp_id := as_u16 (hs_id s); sp_value := hs_value s |}) <$> settings p |}.

Definition to_window_update_frame (p : H2Profile) : option WindowUpdateFrame :=
  if window_update p =? 0 then None
  else Some {| wu_stream_id := 0; wu_increment := window_update p |}.

Definition to_headers_priority_spec (p : H2Profile) : option PrioritySpec :=
  (fun hp => {| ps_exclusive := hp_exclusive hp; ps_stream_dependency := hp_stream_dependency hp;
                ps_weight := hp_weight hp |}) <$> headers_priority p.

Definition to_native_priority_frames (p : H2Profile) : list PriorityFrame :=
  (fun pf => {| pf_stream_id := ppf_stream_id pf;
                pf_priority := {| ps_exclusive := ppf_exclusive pf;
                                  ps_stream_dependency := ppf_dependency pf;
                                  ps_weight := ppf_weight pf |} |}) <$> priority_frames p.

Definition to_preface_frames (p : H2Profile) : list H2Frame :=
  let frames := [FSettings (to_settings_frame p)] in
  let frames := match to_window_update_frame p with
                | Some wu => frames ++ [FWindowUpdate wu]
                | None => frames
                end in
  frames ++ (FPriority <$> to_native_priority_frames p).

(** ** HTTP header order presets *)

Definition chrome_144_header_order : list bytes := ascii_bytes <$>
  ["sec-ch-ua"; "sec-ch-ua-mobile"; "sec-ch-ua-platform"; "upgrade-insecure-requests";
   "user-agent"; "accept"; "sec-fetch-site"; "sec-fetch-mode"; "sec-fetch-user";
   "sec-fetch-dest"; "accept-encoding"; "accept-language"; "priority"; "cookie"]%string.

Definition chrome_full_header_order : list bytes := ascii_bytes <$>
  ["content-length"; "sec-ch-ua"; "sec-ch-ua-mobile"; "sec-ch-ua-platform";
   "upgrade-insecure-requests"; "user-agent"; "accept"; "content-type"; "origin";
   "sec-fetch-site"; "sec-fetch-mode"; "sec-fetch-user"; "sec-fetch-dest";
   "sec-fetch-storage-access"; "referer"; "accept-encoding"; "accept-language"; "priority";
   "cookie"]%string.

Definition chrome_145_header_order : list bytes := chrome_144_header_order.
Definition chrome_146_header_order : list bytes := chrome_144_header_order.
Definition chrome_147_header_order : list bytes := chrome_144_header_order.
Definition chrome_148_header_order : list bytes := chrome_144_header_order.
Definition chrome_149_header_order : list bytes := chrome_144_header_order.
Definition chrome_150_header_order : list bytes := chrome_144_header_order.
Definition chrome_151_header_order : list bytes := chrome_150_header_order.
Definition chrome_131_header_order : list bytes := chrome_144_header_order.

Definition firefox_147_header_order : list bytes := ascii_bytes <$>
  ["user-agent"; "accept"; "accept-language"; "accept-encoding"; "upgrade-insecure-requests";
   "sec-fetch-dest"; "sec-fetch-mode"; "sec-fetch-site"; "sec-fetch-user"; "priority"; "te";
   "cookie"]%string.
Definition firefox_133_header_order : list bytes := firefox_147_header_order.

Definition safari_26_header_order : list bytes := ascii_bytes <$>
  ["sec-fetch-dest"; "user-agent"; "accept"; "sec-fetch-site"; "sec-fetch-mode";
   "accept-language"; "priority"; "accept-encoding"; "cookie"]%string.
Definition safari_18_header_order : list bytes := safari_26_header_order.

End profile.
Import profile.

(** ** Priority header values *)

(** The parser's running state always holds a clamped urgency. *)
Lemma header_value_parts_clamped parts : forall acc,
  (forall u, acc.1 = Some u -> 0 <= u <= 7) ->
  forall u, (foldl header_value_part acc parts).1 = Some u -> 0 <= u <= 7.
Proof.
  assert (forall s m acc v, 0 <= acc -> parse_digits m acc s = Some v -> 0 <= v) as Hd.
  { induction s as [|b s IH]; intros m acc v Ha; cbn [parse_digits]; [intros [= <-]; done|].
    destruct (_ && _) eqn:Eb; [|done]. destruct (_ <? _); [done|]. apply IH. lia. }
  assert (forall s v, parse_uint 255 s = Some v -> 0 <= v) as Hp.
  { intros s v. unfold parse_uint. repeat case_match; try done; by apply Hd. }
  induction parts as [|part parts IH]; intros acc Hacc u; [apply Hacc|]. cbn [foldl].
  apply IH. clear u. intros u. destruct acc as [a i]. unfold header_value_part.
  destruct (strip_prefix (ascii_bytes "u=") (trim part)) as [rest|].
  - cbn [fst]. intros (v & Hv & ->)%fmap_Some. apply Hp in Hv. lia.
  - destruct (bool_decide _); [apply Hacc|].
    destruct (strip_prefix (ascii_bytes "i=") _); apply Hacc.
Qed.

Definition check_priority (u : nat) (i : bool) : bool :=
  let p := mkRequestPriority (Z.of_nat u) i in
  match from_header_value (to_header_value p) with
  | Some q => bool_decide (urgency q = Z.min (urgency p) 7) && eqb (incremental q) i
  | None => false
  end.

Lemma check_priority_all : forallb (fun u => check_priority u true && check_priority u false) (seq 0 256) = true.
Proof. by vm_compute. Qed.

Lemma priority_roundtrip_all u i :
  u8 u -> from_header_value (to_header_value (mkRequestPriority u i)) = Some (custom u i).
Proof.
  intros Hu. pose proof check_priority_all as H. rewrite forallb_forall in H.
  specialize (H (Z.to_nat u) ltac:(apply in_seq; unfold u8 in Hu; lia)).
  apply andb_prop in H as [Ht Hf]. assert (check_priority (Z.to_nat u) i = true) as Hc by by destruct i.
  unfold check_priority in Hc. rewrite Z2Nat.id in Hc by (unfold u8 in Hu; lia).
  destruct (from_header_value _) as [[u' i']|]; [|done].
  apply andb_prop in Hc as [Hc1 Hc2]. apply bool_decide_eq_true in Hc1.
  apply eqb_prop in Hc2. cbn in *. by subst.
Qed.

(** ** Preface *)

(** The profile's numbers fit the wire. *)
Definition profile_wf (p : H2Profile) : Prop :=
  Forall (fun s => u16 (as_u16 (hs_id s)) /\ u32 (hs_value s)) (settings p) /\
  u31 (window_update p) /\
  Forall (fun f => stream_wf (ppf_stream_id f) /\ u31 (ppf_dependency f) /\ u8 (ppf_weight f))
    (priority_frames p).

Lemma alps_payload_foldl (l : list H2Setting) buf :
  foldl (fun buf s => buf ++ be16 (as_u16 (hs_id s)) ++ be32 (hs_value s)) buf l
  = buf ++ mjoin (encode_param <$>
             ((fun s => {| sp_id := as_u16 (hs_id s); sp_value := hs_value s |}) <$> l)).
Proof.
  revert buf. induction l as [|s l IH]; intros buf; cbn [foldl]; [by rewrite app_nil_r|].
  rewrite IH. cbn [fmap list_fmap mjoin list_join]. by rewrite <- !app_assoc.
Qed.

Lemma preface_wf c p :
  profile_wf p -> 16384 <= max_frame_size c -> 6 * len (settings p) <= max_frame_size c ->
  Forall (fun f => frame_wf f /\ payload_len f <= max_frame_size c) (to_preface_frames p).
Proof.
  intros (Hs & Hw & Hp) Hc Hl. unfold to_preface_frames, to_window_update_frame.
  assert (frame_wf (FSettings (to_settings_frame p)) /\
    payload_len (FSettings (to_settings_frame p)) <= max_frame_size c) as Hset.
  { split; [|cbn; unfold len in *; rewrite length_fmap; lia]. split; [|discriminate]. cbn.
    apply Forall_fmap. eapply Forall_impl; [exact Hs|]. done. }
  apply Forall_app. split.
  - destruct (_ =? _); [by constructor|]. apply Forall_app.
    split; (constructor; [|constructor]); [done|]. cbn. split; [split; [width|done]|lia].
  - unfold to_native_priority_frames. do 2 apply Forall_fmap. eapply Forall_impl; [exact Hp|].
    intros f (H1 & H2 & H3). cbn. split; [done|lia].
Qed.

(** ** Claims *)

(** The [priority] header value is a faithful encoding of a request's
    priority: what is printed parses back to the same incremental flag and the
    urgency clamped to 7; and whatever string is parsed, the urgency that comes
    out is within 0..7, so the weight lookup of a configured profile never
    indexes past its eight weights. *)
Theorem priority_header_roundtrip (u : Z) (i : bool) (value : bytes) (c : PriorityConfig) (w : list Z) :
  u8 u -> urgency_weights c = Some w -> length w = 8%nat ->
  from_header_value (to_header_value (mkRequestPriority u i)) = Some (custom u i) /\
  forall q, from_header_value value = Some q ->
    0 <= urgency q <= 7 /\ weight_for_urgency c (urgency q) = w !! Z.to_nat (urgency q) /\
    is_Some (weight_for_urgency c (urgency q)).
Proof.
  intros Hu Hw Hl. split; [by apply priority_roundtrip_all|]. intros q Hq.
  assert (0 <= urgency q <= 7) as Hr.
  { unfold from_header_value in Hq.
    pose proof (header_value_parts_clamped (split_on 44 value) (None, false)) as Hc.
    destruct (foldl _ _ _) as [[u'|] i'] eqn:E; [|done]. injection Hq as <-. by apply Hc. }
  split; [done|]. unfold weight_for_urgency. rewrite Hw. cbn [mbind option_bind].
  rewrite Z.min_l by lia. split; [done|]. apply lookup_lt_is_Some_2. lia.
Qed.

Lemma priority_header_roundtrip_witness :
  from_header_value (to_header_value (mkRequestPriority 9 true)) = Some (custom 9 true) /\
  forall q, from_header_value (ascii_bytes " u=5 ,i=?1") = Some q ->
    0 <= urgency q <= 7 /\
    weight_for_urgency pc_chrome (urgency q)
      = [255; 219; 146; 110; 73; 36; 0; 0] !! Z.to_nat (urgency q) /\
    is_Some (weight_for_urgency pc_chrome (urgency q)).
Proof. apply (priority_header_roundtrip 9 true (ascii_bytes " u=5 ,i=?1") pc_chrome); done. Defined.

(** A profile's connection preface reaches the peer intact: its frames are
    SETTINGS first, then the connection WINDOW_UPDATE when it is non-zero, then
    the PRIORITY frames in order; encoding them and decoding the bytes gives
    back exactly that list; and the HTTP2-Settings payload is byte for byte the
    payload of that SETTINGS frame. *)
Theorem preface_roundtrip (c : H2Codec) (p : H2Profile) (rest : bytes) :
  profile_wf p -> 16384 <= max_frame_size c <= MAX_FRAME_SIZE_LIMIT ->
  6 * len (settings p) <= max_frame_size c ->
  decodes c (encode_frames (to_preface_frames p) [] ++ rest) (to_preface_frames p) rest /\
  head (to_preface_frames p) = Some (FSettings (to_settings_frame p)) /\
  omap (fun f => match f with FWindowUpdate w => Some (wu_increment w) | _ => None end)
    (to_preface_frames p) = (if window_update p =? 0 then [] else [window_update p]) /\
  omap (fun f => match f with FPriority q => Some q | _ => None end) (to_preface_frames p)
    = to_native_priority_frames p /\
  encode_frames [FSettings (to_settings_frame p)] []
    = Header.encode (Header.new TSettings Flags.NONE 0 (as_u32 (len (settings p) * 6)))
        ++ encode_alps_h2_settings p.
Proof.
  intros Hwf Hc Hl. split_and!.
  - apply decodes_encode; [lia|]. apply preface_wf; [done|lia|done].
  - unfold to_preface_frames. by destruct (to_window_update_frame p).
  - unfold to_preface_frames, to_window_update_frame. rewrite omap_app.
    replace (omap _ (FPriority <$> _)) with (@nil Z)
      by (induction (to_native_priority_frames p); [done|done]).
    by destruct (_ =? _).
  - unfold to_preface_frames. rewrite omap_app.
    replace (omap _ (FPriority <$> to_native_priority_frames p)) with (to_native_priority_frames p)
      by (induction (to_native_priority_frames p) as [|x l IH]; [done|cbn; by rewrite <- IH]).
    by destruct (to_window_update_frame p).
  - unfold encode_alps_h2_settings. rewrite alps_payload_foldl.
    unfold encode_frames. cbn [foldl encode]. unfold encode_settings.
    cbn [to_settings_frame sf_ack sf_settings app].
    by replace (len ((fun s => mkParam (as_u16 (hs_id s)) (hs_value s)) <$> settings p))
      with (len (settings p)) by (unfold len; by rewrite length_fmap).
Qed.

Lemma preface_roundtrip_witness :
  decodes codec_new (encode_frames (to_preface_frames safari_26_h2) [] ++ [1])
    (to_preface_frames safari_26_h2) [1] /\
  head (to_preface_frames safari_26_h2) = Some (FSettings (to_settings_frame safari_26_h2)) /\
  omap (fun f => match f with FWindowUpdate w => Some (wu_increment w) | _ => None end)
    (to_preface_frames safari_26_h2) = [10420225] /\
  omap (fun f => match f with FPriority q => Some q | _ => None end)
    (to_preface_frames safari_26_h2) = [] /\
  encode_frames [FSettings (to_settings_frame safari_26_h2)] []
    = Header.encode (Header.new TSettings Flags.NONE 0 24) ++ encode_alps_h2_settings safari_26_h2.
Proof.
  apply (preface_roundtrip codec_new safari_26_h2 [1]); [|by vm_compute..].
  split_and!; [|by vm_compute|constructor]. repeat constructor; by vm_compute.
Defined.
