(* ===== verification/Synthesis.v ===== *)
(** * Fingerprint synthesis (lkh2/src/synthesis.rs)

    [validate] and the two synthesizers.  The random source is the caller's
    ([rand_core::RngCore], a trait of another crate): an interface here, and the
    theorems hold for every implementation of it.  [None] is a panic (an empty
    list of bases). *)
From S2P Require Import Prelude Frame Codec Policy Profile.
Import profile.

Class RngCore (R : Type) : Type := { next_u64 : R -> Z * R }.

Module synthesis.

Inductive InvalidH2Spec : Type :=
| PseudoHeaderOrderInvalid
| DuplicateSetting (id : Z)
| MaxFrameSizeOutOfRange (v : Z)
| InitialWindowTooLarge (v : Z)
| EnablePushNotBoolean (v : Z)
| WindowUpdateTooLarge (v : Z).

Definition DEFAULT_CONN_WINDOW : Z := 65535.
Definition MAX_WINDOW : Z := 0x7fffffff.

(** The counters [(m, a, s, p)]. *)
Definition count_pseudo (acc : Z * Z * Z * Z) (ph : PseudoHeaderId) : Z * Z * Z * Z :=
  let '(m, a, s, p) := acc in
  match ph with
  | Method => (m + 1, a, s, p)
  | Authority => (m, a + 1, s, p)
  | Scheme => (m, a, s + 1, p)
  | Path => (m, a, s, p + 1)
  end.

Definition check_value (id value : Z) : option InvalidH2Spec :=
  if (id =? 0x02) && (1 <? value) then Some (EnablePushNotBoolean value)
  else if (id =? 0x04) && (MAX_WINDOW <? value) then Some (InitialWindowTooLarge value)
  else if (id =? 0x05) && negb ((16384 <=? value) && (value <=? 16777215))
  then Some (MaxFrameSizeOutOfRange value)
  else None.

(** The SETTINGS loop, with the ids seen so far. *)
Fixpoint check_settings (seen : gset Z) (l : list H2Setting) : option InvalidH2Spec :=
  match l with
  | [] => None
  | s :: l =>
      let id := as_u16 (hs_id s) in
      if bool_decide (id ∈ seen) then Some (DuplicateSetting id)
      else match check_value id (hs_value s) with
           | Some e => Some e
           | None => check_settings ({[id]} ∪ seen) l
           end
  end.

Definition validate (p : H2Profile) : Outcome InvalidH2Spec unit :=
  if negb (bool_decide (foldl count_pseudo (0, 0, 0, 0) (pseudo_header_order p) = (1, 1, 1, 1)))
  then Err PseudoHeaderOrderInvalid else
  match check_settings ∅ (settings p) with
  | Some e => Err e
  | None =>
      if MAX_WINDOW - DEFAULT_CONN_WINDOW <? window_update p
      then Err (WindowUpdateTooLarge (window_update p))
      else Ok tt
  end.

(** ** Synthesizers *)

Record H2Constraints : Type := mkConstraints { bases : list H2Profile }.

Definition recombine : H2Constraints := mkConstraints
  [chrome_131_h2; chrome_144_h2; chrome_145_h2; chrome_146_h2; chrome_147_h2; chrome_148_h2;
   chrome_149_h2; chrome_150_h2; chrome_151_h2; firefox_133_h2; firefox_147_h2;
   safari_18_h2; safari_26_h2].

(** [v.swap(i, j)]: panics out of range. *)
Definition swap {A} (v : list A) (i j : nat) : option (list A) :=
  x ← v !! i; y ← v !! j; Some (<[j := x]> (<[i := y]> v)).

Section rng.
Context {R : Type} `{RngCore R}.

(** [for i in (1..v.len()).rev()], with [i] counting down to 1. *)
Fixpoint shuffle_loop {A} (i : nat) (r : R) (v : list A) : option (R * list A) :=
  match i with
  | O => Some (r, v)
  | S i' =>
      let '(x, r) := next_u64 r in
      v ← swap v i (Z.to_nat (x mod (Z.of_nat i + 1)));
      shuffle_loop i' r v
  end.

Definition shuffle {A} (r : R) (v : list A) : option (R * list A) :=
  shuffle_loop (length v - 1) r v.

Definition synthesize (r : R) (c : H2Constraints) : option (R * H2Profile) :=
  let '(x, r) := next_u64 r in
  if is_empty (bases c) then None else
  base ← bases c !! Z.to_nat (x mod len (bases c));
  '(r, order) ← shuffle r (pseudo_header_order base);
  '(r, sets) ← shuffle r (settings base);
  Some (r, mkProfile sets (window_update base) order (headers_priority base)
             (priority_frames base) (priority_config base) (p_behavior base)).

Definition rand_u32 (r : R) (lo hi : Z) : Z * R :=
  let '(x, r) := next_u64 r in
  (as_u32 (lo + as_u32 (x mod (hi - lo + 1))), r).

Definition perturb (r : R) (s : H2Setting) : R * H2Setting :=
  let id := as_u16 (hs_id s) in
  let '(v, r) :=
    if id =? 0x01 then rand_u32 r 0 65536
    else if id =? 0x03 then rand_u32 r 64 1024
    else if id =? 0x04 then rand_u32 r 65535 16777216
    else if id =? 0x05 then rand_u32 r 16384 65536
    else if id =? 0x06 then rand_u32 r 16384 262144
    else (hs_value s, r) in
  (r, mkSetting (hs_id s) v).

Fixpoint perturb_loop (r : R) (l : list H2Setting) : R * list H2Setting :=
  match l with
  | [] => (r, [])
  | s :: l => let '(r, s) := perturb r s in let '(r, l) := perturb_loop r l in (r, s :: l)
  end.

Definition synthesize_full (r : R) (c : H2Constraints) : option (R * H2Profile) :=
  '(r, p) ← synthesize r c;
  let '(r, sets) := perturb_loop r (settings p) in
  Some (r, mkProfile sets (window_update p) (pseudo_header_order p) (headers_priority p)
             (priority_frames p) (priority_config p) (p_behavior p)).

End rng.

End synthesis.
Import synthesis.

(** ** What validation means *)

(** The RFC 7540/9113 ranges of the setting values. *)
Definition value_ok (id value : Z) : Prop :=
  (id = 2 -> value <= 1) /\ (id = 4 -> value <= I32_MAX) /\ (id = 5 -> 16384 <= value <= 16777215).

Definition valid (p : H2Profile) : Prop :=
  pseudo_header_order p ≡ₚ [Method; Authority; Scheme; Path] /\
  NoDup (as_u16 ∘ hs_id <$> settings p) /\
  Forall (fun s => value_ok (as_u16 (hs_id s)) (hs_value s)) (settings p) /\
  window_update p + 65535 <= I32_MAX.

(** How often a pseudo-header occurs. *)
Definition occ (x : PseudoHeaderId) (l : list PseudoHeaderId) : Z := len (filter (eq x) l).

Lemma count_pseudo_occ l : forall m a s p,
  foldl count_pseudo (m, a, s, p) l
  = (m + occ Method l, a + occ Authority l, s + occ Scheme l, p + occ Path l).
Proof.
  unfold occ. induction l as [|x l IH]; intros m a s p; cbn [foldl].
  - cbn. change (len []) with 0. by rewrite !Z.add_0_r.
  - destruct x; cbn [count_pseudo]; rewrite IH;
      repeat first [rewrite filter_cons_True by done | rewrite filter_cons_False by done];
      rewrite !len_cons; repeat apply (f_equal2 pair); lia.
Qed.

Lemma occ_app x l k : occ x (l ++ k) = occ x l + occ x k.
Proof. unfold occ. by rewrite filter_app, len_app. Qed.

#[global] Instance occ_proper : Proper ((=) ==> (≡ₚ) ==> (=)) occ.
Proof. intros x ? <- l k Hlk. unfold occ, len. by rewrite Hlk. Qed.

Lemma length_occ l : len l = occ Method l + occ Authority l + occ Scheme l + occ Path l.
Proof.
  unfold occ. induction l as [|x l IH]; [done|]. destruct x;
    repeat first [rewrite filter_cons_True by done | rewrite filter_cons_False by done];
    rewrite !len_cons; lia.
Qed.

(** Each of the four exactly once is a permutation of the four. *)
Lemma occ_once l :
  occ Method l = 1 -> occ Authority l = 1 -> occ Scheme l = 1 -> occ Path l = 1 ->
  l ≡ₚ [Method; Authority; Scheme; Path].
Proof.
  intros Hm Ha Hs Hp. assert (forall x, x ∈ l) as Hin.
  { intros x. assert (occ x l = 1) as Hx by by destruct x.
    unfold occ in Hx. destruct (filter (eq x) l) as [|y k] eqn:E; [done|].
    assert (y ∈ filter (eq x) l) as Hy by (rewrite E; left).
    apply list_elem_of_filter in Hy as [-> Hy]. done. }
  symmetry. apply submseteq_length_Permutation.
  - apply NoDup_submseteq; [|intros x _; apply Hin].
    repeat constructor; set_solver.
  - pose proof (length_occ l) as H. unfold len in H. simpl. lia.
Qed.

Lemma pseudo_count_iff l :
  foldl count_pseudo (0, 0, 0, 0) l = (1, 1, 1, 1) <-> l ≡ₚ [Method; Authority; Scheme; Path].
Proof.
  rewrite count_pseudo_occ, !Z.add_0_l. split.
  - intros [= Hm Ha Hs Hp]. by apply occ_once.
  - intros Hl. by rewrite Hl.
Qed.

Lemma check_value_iff id v : check_value id v = None <-> value_ok id v.
Proof.
  unfold check_value, value_ok, MAX_WINDOW, I32_MAX.
  destruct (Z.eqb_spec id 2); cbn [andb]; [subst; destruct (Z.ltb_spec 1 v); cbn; naive_solver lia|].
  destruct (Z.eqb_spec id 4); cbn [andb].
  { subst. destruct (Z.ltb_spec 2147483647 v); cbn; naive_solver lia. }
  destruct (Z.eqb_spec id 5); cbn [andb]; [|naive_solver].
  destruct (Z.leb_spec 16384 v), (Z.leb_spec v 16777215); cbn; naive_solver lia.
Qed.

Lemma check_settings_iff l : forall seen,
  check_settings seen l = None <->
  NoDup (as_u16 ∘ hs_id <$> l) /\ (forall s, s ∈ l -> as_u16 (hs_id s) ∉ seen) /\
  Forall (fun s => value_ok (as_u16 (hs_id s)) (hs_value s)) l.
Proof.
  induction l as [|s l IH]; intros seen; cbn [check_settings].
  { split; [intros _|done]. split_and!; [constructor|set_solver|constructor]. }
  rewrite fmap_cons, NoDup_cons, Forall_cons. cbn [compose].
  case_bool_decide as Hin; [split; [done|]; intros (_ & Hd & _); by edestruct (Hd s); [left|]|].
  rewrite <- check_value_iff. destruct (check_value _ _) as [e|] eqn:Ev; [naive_solver|].
  rewrite IH. rewrite list_elem_of_fmap. split.
  - intros (Hnd & Hs & Hv). split_and!; try done.
    + intros (x & Hx & Hxl). apply (Hs x Hxl). cbn in Hx. rewrite <- Hx. set_solver.
    + intros x [->|Hx]%elem_of_cons; [done|]. specialize (Hs x Hx). set_solver.
  - intros ((Hni & Hnd) & Hs & _ & Hv). split_and!; try done.
    intros x Hx [Hx'%elem_of_singleton|Hx']%elem_of_union; [|eapply Hs; [by right|done]].
    apply Hni. by exists x.
Qed.

Lemma validate_iff p : validate p = Ok tt <-> valid p.
Proof.
  unfold validate, valid. rewrite <- pseudo_count_iff.
  case_bool_decide as Hc; cbn [negb]; [|naive_solver].
  destruct (check_settings ∅ (settings p)) as [e|] eqn:Es.
  - split; [done|]. intros (_ & Hnd & Hv & _).
    assert (check_settings ∅ (settings p) = None); [|congruence].
    apply check_settings_iff. split_and!; [done|set_solver|done].
  - apply check_settings_iff in Es as (Hnd & _ & Hv).
    unfold MAX_WINDOW, DEFAULT_CONN_WINDOW, I32_MAX.
    destruct (Z.ltb_spec (0x7fffffff - 65535) (window_update p)); naive_solver lia.
Qed.

(** ** Shuffling *)

Section rng_props.
Context {R : Type} `{RngCore R}.

Lemma shuffle_loop_perm {A} i : forall (r : R) (v : list A),
  (i < length v \/ i = 0)%nat -> exists r' v', shuffle_loop i r v = Some (r', v') /\ v' ≡ₚ v.
Proof.
  induction i as [|i IH]; intros r v Hi; [by exists r, v|]. cbn [shuffle_loop].
  destruct (next_u64 r) as [x r1]. unfold swap.
  pose proof (Z.mod_pos_bound x (Z.of_nat (S i) + 1) ltac:(lia)).
  destruct (lookup_lt_is_Some_2 v (S i)) as [a Ha]; [lia|].
  destruct (lookup_lt_is_Some_2 v (Z.to_nat (x mod (Z.of_nat (S i) + 1)))) as [b Hb]; [lia|].
  rewrite Ha, Hb. cbn [mbind option_bind].
  pose proof (Permutation_insert_swap v _ _ a b Ha Hb) as Hp.
  destruct (IH r1 (<[Z.to_nat (x mod (Z.of_nat (S i) + 1)) := a]> (<[S i := b]> v)))
    as (r' & v' & -> & Hv'); [rewrite !length_insert; lia|].
  exists r', v'. split; [done|]. by rewrite Hv'.
Qed.

Lemma shuffle_perm {A} (r : R) (v : list A) :
  exists r' v', shuffle r v = Some (r', v') /\ v' ≡ₚ v.
Proof. apply shuffle_loop_perm. lia. Qed.

Lemma synthesize_spec (r : R) c :
  bases c <> [] ->
  exists r' base p, synthesize r c = Some (r', p) /\ base ∈ bases c /\
    pseudo_header_order p ≡ₚ pseudo_header_order base /\ settings p ≡ₚ settings base /\
    window_update p = window_update base /\ headers_priority p = headers_priority base /\
    priority_frames p = priority_frames base /\ priority_config p = priority_config base /\
    p_behavior p = p_behavior base.
Proof.
  intros Hne. unfold synthesize. destruct (next_u64 r) as [x r1].
  assert (0 < len (bases c)) as Hpos by (destruct (bases c); [done|slen]).
  pose proof (Z.mod_pos_bound x (len (bases c)) Hpos) as Hm. unfold len in Hm, Hpos.
  destruct (bases c) as [|b0 bs] eqn:Eb; [done|]. cbn [is_empty]. rewrite <- Eb in *.
  destruct (lookup_lt_is_Some_2 (bases c) (Z.to_nat (x mod len (bases c)))) as [base Hb];
    [unfold len; lia|].
  rewrite Hb. cbn [mbind option_bind].
  destruct (shuffle_perm r1 (pseudo_header_order base)) as (r2 & order & -> & Ho).
  cbn [mbind option_bind].
  destruct (shuffle_perm r2 (settings base)) as (r3 & sets & -> & Hs). cbn [mbind option_bind].
  exists r3, base. eexists. split; [done|]. split; [by eapply list_elem_of_lookup_2|]. done.
Qed.

Lemma rand_u32_range (r : R) lo hi : 0 <= lo <= hi -> hi < 4294967296 ->
  lo <= (rand_u32 r lo hi).1 <= hi.
Proof.
  intros Hlo Hhi. unfold rand_u32. destruct (next_u64 r) as [x r']. cbn [fst].
  pose proof (Z.mod_pos_bound x (hi - lo + 1) ltac:(lia)).
  rewrite (as_u32_small (x mod _)) by (unfold u32; lia). rewrite as_u32_small by (unfold u32; lia). lia.
Qed.

(** The ranges [synthesize_full] draws from. *)
Definition novel_range (id : Z) (old new : Z) : Prop :=
  if decide (id = 1) then 0 <= new <= 65536
  else if decide (id = 3) then 64 <= new <= 1024
  else if decide (id = 4) then 65535 <= new <= 16777216
  else if decide (id = 5) then 16384 <= new <= 65536
  else if decide (id = 6) then 16384 <= new <= 262144
  else new = old.

Lemma perturb_spec (r : R) s :
  hs_id (perturb r s).2 = hs_id s /\
  novel_range (as_u16 (hs_id s)) (hs_value s) (hs_value (perturb r s).2).
Proof.
  unfold perturb, novel_range.
  repeat (lazymatch goal with
  | |- context [_ =? ?n] =>
      destruct (Z.eqb_spec (as_u16 (hs_id s)) n);
        [rewrite decide_True by done|rewrite decide_False by done]; cbv iota
  end; try (lazymatch goal with |- context [let '(_, _) := rand_u32 r ?a ?b in _] =>
         pose proof (rand_u32_range r a b ltac:(lia) ltac:(lia)); destruct (rand_u32 r a b)
       end; cbn in *; split; done || lia)).
  done.
Qed.

Lemma perturb_loop_spec l : forall (r : R),
  Forall2 (fun s s' => hs_id s' = hs_id s /\ novel_range (as_u16 (hs_id s)) (hs_value s) (hs_value s'))
    l (perturb_loop r l).2.
Proof.
  induction l as [|s l IH]; intros r; [constructor|]. cbn [perturb_loop].
  pose proof (perturb_spec r s) as Hs. destruct (perturb r s) as [r1 s1].
  specialize (IH r1). destruct (perturb_loop r1 l) as [r2 l2]. by constructor.
Qed.

End rng_props.

Lemma valid_perm p q :
  valid p -> pseudo_header_order q ≡ₚ pseudo_header_order p -> settings q ≡ₚ settings p ->
  window_update q = window_update p -> valid q.
Proof.
  intros (H1 & H2 & H3 & H4) Ho Hs Hw. unfold valid. rewrite Ho, Hw, Hs. done.
Qed.

Lemma novel_value_ok id old new : value_ok id old -> novel_range id old new -> value_ok id new.
Proof.
  unfold value_ok, novel_range, I32_MAX. intros (H2 & H4 & H5) Hn.
  repeat destruct (decide _); subst; split_and!; intros; lia.
Qed.

(** ** Claims *)

(** Validation is exact: it accepts a profile if and only if the pseudo-header
    order is a permutation of the four pseudo-headers, no SETTINGS id repeats,
    ENABLE_PUSH, INITIAL_WINDOW_SIZE and MAX_FRAME_SIZE are in their RFC ranges,
    and the WINDOW_UPDATE keeps the connection window within 2^31-1; and it never
    panics. *)
Theorem validate_exact (p : H2Profile) :
  (validate p = Ok tt <-> valid p) /\ validate p <> Panic.
Proof.
  split; [apply validate_iff|]. unfold validate. repeat case_match; done.
Qed.

(** Synthesis never panics on a non-empty list of bases and, whatever the
    random source returns, yields a profile that validates when the bases do:
    [synthesize] only reorders the SETTINGS and pseudo-headers of one base, and
    [synthesize_full] also keeps every SETTINGS id of that base in the shuffled
    order while drawing each tunable value from its fixed range and leaving the
    others untouched. *)
Theorem synthesize_valid {R : Type} `{RngCore R} (r : R) (c : H2Constraints) :
  bases c <> [] -> Forall (fun b => validate b = Ok tt) (bases c) ->
  (exists r' p base, synthesize r c = Some (r', p) /\ base ∈ bases c /\ validate p = Ok tt /\
     pseudo_header_order p ≡ₚ pseudo_header_order base /\ settings p ≡ₚ settings base /\
     window_update p = window_update base) /\
  (exists r' p base sets, synthesize_full r c = Some (r', p) /\ base ∈ bases c /\
     validate p = Ok tt /\ sets ≡ₚ settings base /\
     Forall2 (fun s s' => hs_id s' = hs_id s /\
                novel_range (as_u16 (hs_id s)) (hs_value s) (hs_value s')) sets (settings p)).
Proof.
  intros Hne Hall. destruct (synthesize_spec r c Hne)
    as (r' & base & p & Hs & Hin & Ho & Hset & Hw & _).
  rewrite Forall_forall in Hall. pose proof (Hall base Hin) as Hb. rewrite validate_iff in Hb.
  assert (valid p) as Hp by by eapply valid_perm.
  split; [exists r', p, base; rewrite validate_iff; by split_and!|].
  unfold synthesize_full. rewrite Hs. cbn [mbind option_bind].
  pose proof (perturb_loop_spec (settings p) r') as Hpert.
  destruct (perturb_loop r' (settings p)) as [r2 sets]. cbn [snd] in Hpert.
  eexists r2, _, base, (settings p). split; [done|]. rewrite validate_iff. split_and!; try done.
  destruct Hp as (H1 & H2 & H3 & H4). split; [done|]. cbn [settings].
  assert (as_u16 ∘ hs_id <$> sets = as_u16 ∘ hs_id <$> settings p) as Hids.
  { clear -Hpert. induction Hpert as [|s s' l l' [Hi _] _ IH]; [done|]. cbn. by rewrite Hi, IH. }
  split; [by rewrite Hids|]. split; [|done].
  clear -Hpert H3. induction Hpert as [|s s' l l' [Hi Hn] _ IH]; [constructor|].
  apply Forall_cons in H3 as [Hv H3]. constructor; [|by apply IH].
  rewrite Hi. by eapply novel_value_ok.
Qed.

(** A linear congruential source, to run the synthesizers. *)
#[export] Instance lcg : RngCore Z :=
  {| next_u64 s := let s := (s * 6364136223846793005 + 1442695040888963407) mod 18446744073709551616 in (s, s) |}.

Lemma synthesize_valid_witness :
  (exists r' p base, synthesize 7 recombine = Some (r', p) /\ base ∈ bases recombine /\
     validate p = Ok tt /\
     pseudo_header_order p ≡ₚ pseudo_header_order base /\ settings p ≡ₚ settings base /\
     window_update p = window_update base) /\
  (exists r' p base sets, synthesize_full 7 recombine = Some (r', p) /\ base ∈ bases recombine /\
     validate p = Ok tt /\ sets ≡ₚ settings base /\
     Forall2 (fun s s' => hs_id s' = hs_id s /\
                novel_range (as_u16 (hs_id s)) (hs_value s) (hs_value s')) sets (settings p)).
Proof. apply (synthesize_valid 7 recombine); [done|]. repeat constructor. Defined.
