(* ===== verification/Hpack.v ===== *)
(** * HPACK front end (lkh2/src/hpack.rs)

    The decoder is the crate [fluke_hpack]: an interface here
    ([HpackDecoder], one operation per call the source makes), with the
    reference decoder of [HpackSync] as an instance.  The encoder is the
    repository's own ([HpackEnc]).  Header strings are UTF-8 byte strings;
    [String::from_utf8_lossy] of the standard library is written out. *)
From S2P Require Import Prelude Text Policy Huffman HpackTable HpackEnc HpackSync Profile.

(** ** UTF-8 *)

(** One round of the standard library's chunk iterator on a non-empty input:
    whether a character was read, and how many bytes it (or the ill-formed
    sequence) takes. A read past the end gives 0. *)
Definition safe_get (s : bytes) (i : nat) : Z := default 0 (s !! i).
Definition is_cont (b : Z) : bool := Z.land b 192 =? 128.
Definition between (a b c : Z) : bool := (a <=? b) && (b <=? c).

Definition second_ok (b b1 : Z) : bool :=
  ((b =? 0xE0) && between 0xA0 b1 0xBF) || (between 0xE1 b 0xEC && between 0x80 b1 0xBF) ||
  ((b =? 0xED) && between 0x80 b1 0x9F) || (between 0xEE b 0xEF && between 0x80 b1 0xBF) ||
  ((b =? 0xF0) && between 0x90 b1 0xBF) || (between 0xF1 b 0xF3 && between 0x80 b1 0xBF) ||
  ((b =? 0xF4) && between 0x80 b1 0x8F).

Definition utf8_width (b : Z) : Z :=
  if b <? 128 then 1
  else if between 0xC2 b 0xDF then 2
  else if between 0xE0 b 0xEF then 3
  else if between 0xF0 b 0xF4 then 4
  else 0.

Definition utf8_step (s : bytes) : bool * nat :=
  let b := safe_get s 0 in
  let w := utf8_width b in
  if w =? 1 then (true, 1%nat)
  else if w =? 2 then if is_cont (safe_get s 1) then (true, 2%nat) else (false, 1%nat)
  else if w =? 3 then
    if negb (second_ok b (safe_get s 1)) then (false, 1%nat)
    else if is_cont (safe_get s 2) then (true, 3%nat) else (false, 2%nat)
  else if w =? 4 then
    if negb (second_ok b (safe_get s 1)) then (false, 1%nat)
    else if negb (is_cont (safe_get s 2)) then (false, 2%nat)
    else if is_cont (safe_get s 3) then (true, 4%nat) else (false, 3%nat)
  else (false, 1%nat).

Definition REPLACEMENT : bytes := [0xEF; 0xBF; 0xBD].

(** Every round consumes at least a byte: the length is enough fuel. *)
Fixpoint utf8_loop (fuel : nat) (s : bytes) : bool * bytes :=
  match s, fuel with
  | [], _ | _, O => (true, [])
  | _, S fuel =>
      let '(ok, n) := utf8_step s in
      let '(all_ok, out) := utf8_loop fuel (drop n s) in
      (ok && all_ok, (if ok then take n s else REPLACEMENT) ++ out)
  end.

Definition is_utf8 (s : bytes) : bool := (utf8_loop (length s) s).1.
Definition from_utf8_lossy (s : bytes) : bytes := (utf8_loop (length s) s).2.

(** ** Interface of the decoder crate *)

Class HpackDecoder (D : Type) : Type := {
  hd_new : D;
  hd_set_max_table_size : Z -> D -> D;
  (** the headers, or the error's [Debug] text, with the decoder's new state *)
  hd_decode : bytes -> D -> (string + list (bytes * bytes)) * D;
}.

Inductive HpackError : Type :=
| DecodingError (msg : string)
| EncodingError (msg : string).

Module hpack.

Definition vec_to_string_lossy (b : bytes) : bytes :=
  if is_utf8 b then b else from_utf8_lossy b.

Section decoder.
Context {D : Type} `{HpackDecoder D}.

Definition HeaderDecoder_new (table_size : Z) : D :=
  if negb (table_size =? 4096) then hd_set_max_table_size table_size hd_new else hd_new.

Definition decode (data : bytes) (d : D) : Outcome HpackError (list (bytes * bytes)) * D :=
  let '(r, d) := hd_decode data d in
  (match r with
   | inl e => Err (DecodingError e)
   | inr headers =>
       Ok ((fun '(n, v) => (vec_to_string_lossy n, vec_to_string_lossy v)) <$> headers)
   end, d).

Definition set_max_table_size (size : Z) (d : D) : D := hd_set_max_table_size size d.

End decoder.

(** [HeaderEncoder] only forwards to [hpack_enc::Encoder]. *)
Definition HeaderEncoder_new (table_size : Z) : hpack_enc.Encoder := hpack_enc.new table_size.
Definition encode := hpack_enc.encode.
Definition encode_owned := hpack_enc.encode_owned.
Definition encode_with_policy := hpack_enc.encode_with_policy.
Definition encoder_set_max_table_size := hpack_enc.set_max_table_size.

Definition error_display (e : HpackError) : string :=
  match e with
  | DecodingError msg => "HPACK decoding error: " +:+ msg
  | EncodingError msg => "HPACK encoding error: " +:+ msg
  end.

Fixpoint get_pseudo_header (headers : list (bytes * bytes)) (name : bytes) : option bytes :=
  match headers with
  | [] => None
  | (n, v) :: headers => if bool_decide (n = name) then Some v else get_pseudo_header headers name
  end.

Definition get_status (headers : list (bytes * bytes)) : option Z :=
  s ← get_pseudo_header headers (ascii_bytes ":status"); parse_uint 65535 s.

End hpack.

(** ** The reference decoder behind the interface *)

Record RefDecoder : Type := mkRefDecoder {
  ref_limit : Z;
  ref_table : Rfc7541.Decoder;
}.

#[export] Instance ref_decoder : HpackDecoder RefDecoder := {
  hd_new := mkRefDecoder 4096 (Rfc7541.new 4096);
  hd_set_max_table_size n d := mkRefDecoder n (ref_table d);
  hd_decode block d :=
    match Rfc7541.decode (ref_limit d) (ref_table d) block with
    | Some (hs, t) => (inr hs, mkRefDecoder (ref_limit d) t)
    | None => (inl "error"%string, d)
    end;
}.

(** ** Lossy conversion yields UTF-8 and keeps UTF-8 *)

Lemma utf8_step_pos s : (1 <= (utf8_step s).2)%nat.
Proof. unfold utf8_step. repeat case_match; simpl; lia. Qed.

Lemma safe_get_cons b s i : safe_get (b :: s) (S i) = safe_get s i.
Proof. done. Qed.

Lemma is_cont_pos b : is_cont b = true -> b <> 0.
Proof. by intros ? ->. Qed.

Lemma safe_get_length s i : safe_get s i <> 0 -> (i < length s)%nat.
Proof.
  unfold safe_get. destruct (s !! i) eqn:E; [|done]. intros _. by apply lookup_lt_Some in E.
Qed.

Lemma second_ok_pos b b1 : second_ok b b1 = true -> b1 <> 0.
Proof.
  intros Hs ->. revert Hs. unfold second_ok, between. cbn. by rewrite !andb_false_r.
Qed.

(** A character read is within the input and is read again in front of anything. *)
Lemma utf8_step_char s n :
  s <> [] -> utf8_step s = (true, n) ->
  (n <= length s)%nat /\ forall t, utf8_step (take n s ++ t) = (true, n).
Proof.
  destruct s as [|b s]; [done|]. intros _. unfold utf8_step.
  change (safe_get (b :: s) 0) with b. rewrite !safe_get_cons.
  set (w := utf8_width b).
  destruct (w =? 1) eqn:E1; [intros [= <-]; split; [simpl; lia|]; intros t; cbn; fold w; by rewrite E1|].
  destruct (w =? 2) eqn:E2.
  { destruct (is_cont (safe_get s 0)) eqn:C1; [|done]. intros [= <-].
    pose proof (safe_get_length _ _ (is_cont_pos _ C1)). destruct s as [|b1 s]; [done|].
    split; [simpl; lia|]. intros t. cbn in *. fold w. by rewrite E1, E2, C1. }
  destruct (w =? 3) eqn:E3.
  { destruct (second_ok b (safe_get s 0)) eqn:C1; [|done]. cbn [negb].
    destruct (is_cont (safe_get s 1)) eqn:C2; [|done]. intros [= <-].
    pose proof (safe_get_length _ _ (is_cont_pos _ C2)).
    destruct s as [|b1 [|b2 s]]; [simpl in *; lia..|]. split; [simpl; lia|].
    intros t. cbn in *. fold w. by rewrite E1, E2, E3, C1, C2. }
  destruct (w =? 4) eqn:E4; [|done].
  destruct (second_ok b (safe_get s 0)) eqn:C1; [|done]. cbn [negb].
  destruct (is_cont (safe_get s 1)) eqn:C2; [|done]. cbn [negb].
  destruct (is_cont (safe_get s 2)) eqn:C3; [|done]. intros [= <-].
  pose proof (safe_get_length _ _ (is_cont_pos _ C3)).
  destruct s as [|b1 [|b2 [|b3 s]]]; [simpl in *; lia..|]. split; [simpl; lia|].
  intros t. cbn in *. fold w. by rewrite E1, E2, E3, E4, C1, C2, C3.
Qed.

Lemma utf8_loop_fuel f : forall g s,
  (length s <= f)%nat -> (length s <= g)%nat -> utf8_loop f s = utf8_loop g s.
Proof.
  induction f as [|f IH]; intros g [|b s] Hf Hg; [by destruct g|simpl in Hf; lia|by destruct g|].
  destruct g as [|g]; [simpl in Hg; lia|]. cbn [utf8_loop].
  pose proof (utf8_step_pos (b :: s)). destruct (utf8_step (b :: s)) as [ok n]. cbn [snd] in *.
  rewrite (IH g); [done|..]; rewrite length_drop; lia.
Qed.

(** Unfolding by one character or ill-formed sequence. *)
Lemma utf8_unfold s :
  s <> [] ->
  let '(ok, n) := utf8_step s in
  is_utf8 s = ok && is_utf8 (drop n s) /\
  from_utf8_lossy s = (if ok then take n s else REPLACEMENT) ++ from_utf8_lossy (drop n s).
Proof.
  intros Hs. destruct s as [|b s]; [done|]. unfold is_utf8, from_utf8_lossy.
  pose proof (utf8_step_pos (b :: s)). destruct (utf8_step (b :: s)) as [ok n] eqn:E.
  cbn [length utf8_loop]. rewrite E. cbn [snd] in *.
  rewrite (utf8_loop_fuel (length s) (length (drop n (b :: s)))) by (rewrite ?length_drop; simpl; lia).
  by destruct (utf8_loop _ (drop n (b :: s))).
Qed.

Lemma utf8_char_app s n t :
  s <> [] -> utf8_step s = (true, n) -> is_utf8 (take n s ++ t) = is_utf8 t.
Proof.
  intros Hs E. destruct (utf8_step_char s n Hs E) as [Hn Ht].
  pose proof (utf8_step_pos s) as Hp. rewrite E in Hp. cbn in Hp.
  assert (take n s ++ t <> []) as Hne by (destruct s, n; simpl in *; done || lia).
  pose proof (utf8_unfold _ Hne) as Hu. rewrite Ht in Hu. destruct Hu as [-> _].
  rewrite drop_app_length' by (rewrite length_take; lia). done.
Qed.

Lemma utf8_replacement t : is_utf8 (REPLACEMENT ++ t) = is_utf8 t.
Proof. by apply (utf8_char_app REPLACEMENT 3 t). Qed.

Lemma lossy_spec s :
  is_utf8 (from_utf8_lossy s) = true /\ (is_utf8 s = true -> from_utf8_lossy s = s).
Proof.
  induction s as [s IH] using (induction_ltof1 _ (@length Z)). unfold ltof in IH.
  destruct (decide (s = [])) as [->|Hs]; [done|].
  pose proof (utf8_unfold s Hs) as Hu. pose proof (utf8_step_pos s) as Hp.
  destruct (utf8_step s) as [ok n] eqn:E. cbn [snd] in Hp. destruct Hu as [-> ->].
  destruct (IH (drop n s)) as [IH1 IH2].
  { rewrite length_drop. destruct s; [done|]. simpl. lia. }
  destruct ok.
  - rewrite (utf8_char_app s n) by done. split; [done|]. cbn [andb]. intros H.
    rewrite IH2 by done. apply take_drop.
  - by rewrite utf8_replacement.
Qed.

(** Header names and values handed to the application are always valid
    UTF-8, and bytes that already are valid UTF-8 pass through unchanged. *)
Theorem vec_to_string_lossy_utf8 (b : bytes) :
  is_utf8 (hpack.vec_to_string_lossy b) = true /\
  (is_utf8 b = true -> hpack.vec_to_string_lossy b = b).
Proof.
  unfold hpack.vec_to_string_lossy. destruct (is_utf8 b) eqn:E; [done|].
  split; [apply lossy_spec|done].
Qed.
