(* ===== verification/ConnState.v ===== *)
(** * Connection state (lkh2/src/conn_state.rs)

    Settings of both sides, the stream table, the connection windows, the HPACK
    contexts and the GOAWAY state.  [D] is the decoder behind the interface of
    [Hpack].  The stream table is a [HashMap], whose iteration order the
    language leaves open: the one loop that can stop in the middle takes the
    order as an argument [iter]. *)
From S2P Require Import Prelude Frame Policy Huffman HpackTable HpackEnc HpackSync Profile Synthesis Hpack Stream.

(** ** Settings *)

Record H2Settings : Type := mkH2Settings {
  header_table_size : Z;
  enable_push : bool;
  max_concurrent_streams : option Z;
  initial_window_size : Z;
  max_frame_size : Z;
  max_header_list_size : option Z;
}.

Record SettingsError : Type := mkSettingsError { se_id : Z; se_value : Z; se_reason : string }.

Definition hex_digit (n : Z) : string :=
  default "" (["0"; "1"; "2"; "3"; "4"; "5"; "6"; "7"; "8"; "9"; "a"; "b"; "c"; "d"; "e"; "f"]%string
                !! Z.to_nat n).
(** [{:04x}] of a [u16]. *)
Definition hex4 (n : Z) : string :=
  hex_digit (n / 4096 mod 16) +:+ hex_digit (n / 256 mod 16) +:+ hex_digit (n / 16 mod 16)
    +:+ hex_digit (n mod 16).

Inductive H2ErrorCode : Type :=
| NoError | ProtocolErrorCode | InternalError | FlowControlErrorCode | SettingsTimeout
| StreamClosedCode | FrameSizeError | RefusedStream | Cancel | CompressionError | ConnectError
| EnhanceYourCalm | InadequateSecurity | Http11Required.

#[export] Instance H2ErrorCode_eq_dec : EqDecision H2ErrorCode.
Proof. solve_decision. Defined.

Inductive ConnectionError : Type :=
| CSettingsError (msg : string)
| CHpackError (e : HpackError)
| CFlowControlError (msg : string)
| CStreamError (e : StreamError)
| CProtocolError (msg : string).

Module conn_state.

Definition DEFAULT_INITIAL_WINDOW_SIZE : Z := 65535.
Definition DEFAULT_HEADER_TABLE_SIZE : Z := 4096.

Definition settings_default : H2Settings :=
  mkH2Settings DEFAULT_HEADER_TABLE_SIZE true None DEFAULT_INITIAL_WINDOW_SIZE 16384 None.

Definition settings_client : H2Settings :=
  mkH2Settings DEFAULT_HEADER_TABLE_SIZE false None DEFAULT_INITIAL_WINDOW_SIZE 16384 None.

Definition apply (param : SettingsParameter) (s : H2Settings) : Outcome SettingsError H2Settings :=
  let v := sp_value param in
  match SettingsIdM.from_u16 (sp_id param) with
  | Some HeaderTableSize =>
      Ok (mkH2Settings v (enable_push s) (max_concurrent_streams s) (initial_window_size s)
            (max_frame_size s) (max_header_list_size s))
  | Some EnablePush =>
      if 1 <? v then Err (mkSettingsError (sp_id param) v "ENABLE_PUSH must be 0 or 1")
      else Ok (mkH2Settings (header_table_size s) (v =? 1) (max_concurrent_streams s)
                 (initial_window_size s) (max_frame_size s) (max_header_list_size s))
  | Some MaxConcurrentStreams =>
      Ok (mkH2Settings (header_table_size s) (enable_push s) (Some v) (initial_window_size s)
            (max_frame_size s) (max_header_list_size s))
  | Some InitialWindowSize =>
      if 0x7FFFFFFF <? v
      then Err (mkSettingsError (sp_id param) v "INITIAL_WINDOW_SIZE must not exceed 2^31-1")
      else Ok (mkH2Settings (header_table_size s) (enable_push s) (max_concurrent_streams s) v
                 (max_frame_size s) (max_header_list_size s))
  | Some MaxFrameSize =>
      if negb ((16384 <=? v) && (v <=? 16777215))
      then Err (mkSettingsError (sp_id param) v "MAX_FRAME_SIZE must be between 16384 and 16777215")
      else Ok (mkH2Settings (header_table_size s) (enable_push s) (max_concurrent_streams s)
                 (initial_window_size s) v (max_header_list_size s))
  | Some MaxHeaderListSize =>
      Ok (mkH2Settings (header_table_size s) (enable_push s) (max_concurrent_streams s)
            (initial_window_size s) (max_frame_size s) (Some v))
  | _ => Ok s
  end.

Definition settings_error_display (e : SettingsError) : string :=
  "invalid setting 0x" +:+ hex4 (se_id e) +:+ "=" +:+ pretty (se_value e) +:+ ": " +:+ se_reason e.

(** ** Error codes *)

Definition from_u32 (value : Z) : H2ErrorCode :=
  match value with
  | 0x0 => NoError | 0x1 => ProtocolErrorCode | 0x2 => InternalError | 0x3 => FlowControlErrorCode
  | 0x4 => SettingsTimeout | 0x5 => StreamClosedCode | 0x6 => FrameSizeError
  | 0x7 => RefusedStream | 0x8 => Cancel | 0x9 => CompressionError | 0xa => ConnectError
  | 0xb => EnhanceYourCalm | 0xc => InadequateSecurity | 0xd => Http11Required
  | _ => InternalError
  end.

Definition code_as_u32 (c : H2ErrorCode) : Z :=
  match c with
  | NoError => 0x0 | ProtocolErrorCode => 0x1 | InternalError => 0x2 | FlowControlErrorCode => 0x3
  | SettingsTimeout => 0x4 | StreamClosedCode => 0x5 | FrameSizeError => 0x6
  | RefusedStream => 0x7 | Cancel => 0x8 | CompressionError => 0x9 | ConnectError => 0xa
  | EnhanceYourCalm => 0xb | InadequateSecurity => 0xc | Http11Required => 0xd
  end.

Definition code_display (c : H2ErrorCode) : string :=
  match c with
  | NoError => "NO_ERROR" | ProtocolErrorCode => "PROTOCOL_ERROR"
  | InternalError => "INTERNAL_ERROR" | FlowControlErrorCode => "FLOW_CONTROL_ERROR"
  | SettingsTimeout => "SETTINGS_TIMEOUT" | StreamClosedCode => "STREAM_CLOSED"
  | FrameSizeError => "FRAME_SIZE_ERROR" | RefusedStream => "REFUSED_STREAM"
  | Cancel => "CANCEL" | CompressionError => "COMPRESSION_ERROR"
  | ConnectError => "CONNECT_ERROR" | EnhanceYourCalm => "ENHANCE_YOUR_CALM"
  | InadequateSecurity => "INADEQUATE_SECURITY" | Http11Required => "HTTP_1_1_REQUIRED"
  end.

Definition error_display (e : ConnectionError) : string :=
  match e with
  | CSettingsError msg => "settings error: " +:+ msg
  | CHpackError e => "HPACK error: " +:+ hpack.error_display e
  | CFlowControlError msg => "flow control error: " +:+ msg
  | CStreamError e => "stream error: " +:+ stream.error_display e
  | CProtocolError msg => "protocol error: " +:+ msg
  end.

(** ** Connection state *)

Record ConnState (D : Type) : Type := mkConn {
  is_client : bool;
  local_settings : H2Settings;
  remote_settings : H2Settings;
  streams : gmap Z stream.H2Stream;
  next_stream_id : Z;
  hpack_decoder : D;
  hpack_encoder : hpack_enc.Encoder;
  send_window : Z;
  recv_window : Z;
  preface_received : bool;
  settings_acked : bool;
  pending_settings : list H2Settings;
  error : option H2ErrorCode;
  goaway_received : bool;
  goaway_last_stream_id : option Z;
}.
#[global] Arguments mkConn {D}.
#[global] Arguments is_client {D}.
#[global] Arguments local_settings {D}.
#[global] Arguments remote_settings {D}.
#[global] Arguments streams {D}.
#[global] Arguments next_stream_id {D}.
#[global] Arguments hpack_decoder {D}.
#[global] Arguments hpack_encoder {D}.
#[global] Arguments send_window {D}.
#[global] Arguments recv_window {D}.
#[global] Arguments preface_received {D}.
#[global] Arguments settings_acked {D}.
#[global] Arguments pending_settings {D}.
#[global] Arguments error {D}.
#[global] Arguments goaway_received {D}.
#[global] Arguments goaway_last_stream_id {D}.

(** Field updates. *)
Definition with_streams {D} (x : gmap Z stream.H2Stream) (s : ConnState D) : ConnState D :=
  mkConn (is_client s) (local_settings s) (remote_settings s) (x) (next_stream_id s)
    (hpack_decoder s) (hpack_encoder s) (send_window s) (recv_window s) (preface_received s)
    (settings_acked s) (pending_settings s) (error s) (goaway_received s)
    (goaway_last_stream_id s).
Definition with_send_window {D} (x : Z) (s : ConnState D) : ConnState D :=
  mkConn (is_client s) (local_settings s) (remote_settings s) (streams s) (next_stream_id s)
    (hpack_decoder s) (hpack_encoder s) (x) (recv_window s) (preface_received s)
    (settings_acked s) (pending_settings s) (error s) (goaway_received s)
    (goaway_last_stream_id s).
Definition with_recv_window {D} (x : Z) (s : ConnState D) : ConnState D :=
  mkConn (is_client s) (local_settings s) (remote_settings s) (streams s) (next_stream_id s)
    (hpack_decoder s) (hpack_encoder s) (send_window s) (x) (preface_received s)
    (settings_acked s) (pending_settings s) (error s) (goaway_received s)
    (goaway_last_stream_id s).
Definition with_remote_settings {D} (x : H2Settings) (s : ConnState D) : ConnState D :=
  mkConn (is_client s) (local_settings s) (x) (streams s) (next_stream_id s) (hpack_decoder
    s) (hpack_encoder s) (send_window s) (recv_window s) (preface_received s) (settings_acked
    s) (pending_settings s) (error s) (goaway_received s) (goaway_last_stream_id s).
Definition with_decoder {D} (x : D) (s : ConnState D) : ConnState D :=
  mkConn (is_client s) (local_settings s) (remote_settings s) (streams s) (next_stream_id s)
    (x) (hpack_encoder s) (send_window s) (recv_window s) (preface_received s) (settings_acked
    s) (pending_settings s) (error s) (goaway_received s) (goaway_last_stream_id s).
Definition with_encoder {D} (x : hpack_enc.Encoder) (s : ConnState D) : ConnState D :=
  mkConn (is_client s) (local_settings s) (remote_settings s) (streams s) (next_stream_id s)
    (hpack_decoder s) (x) (send_window s) (recv_window s) (preface_received s) (settings_acked
    s) (pending_settings s) (error s) (goaway_received s) (goaway_last_stream_id s).
Definition with_pending_settings {D} (x : list H2Settings) (s : ConnState D) : ConnState D :=
  mkConn (is_client s) (local_settings s) (remote_settings s) (streams s) (next_stream_id s)
    (hpack_decoder s) (hpack_encoder s) (send_window s) (recv_window s) (preface_received s)
    (settings_acked s) (x) (error s) (goaway_received s) (goaway_last_stream_id s).

Section conn.
Context {D : Type} `{HpackDecoder D}.
Implicit Types s : ConnState D.

Definition new (is_client : bool) : ConnState D :=
  let local_settings := if is_client then settings_client else settings_default in
  {| is_client := is_client;
     local_settings := local_settings;
     remote_settings := settings_default;
     streams := ∅;
     next_stream_id := if is_client then 1 else 2;
     hpack_decoder := hpack.HeaderDecoder_new (header_table_size local_settings);
     hpack_encoder := hpack.HeaderEncoder_new (header_table_size local_settings);
     send_window := as_i32 DEFAULT_INITIAL_WINDOW_SIZE;
     recv_window := as_i32 DEFAULT_INITIAL_WINDOW_SIZE;
     preface_received := false;
     settings_acked := false;
     pending_settings := [];
     error := None;
     goaway_received := false;
     goaway_last_stream_id := None |}.

Definition client : ConnState D := new true.
Definition server : ConnState D := new false.

Definition send_window_available s : Z := Z.max (send_window s) 0.

Definition has_error s : bool := match error s with Some _ => true | None => false end.

Definition mark_preface_received s : ConnState D :=
  mkConn (is_client s) (local_settings s) (remote_settings s) (streams s) (next_stream_id s)
    (hpack_decoder s) (hpack_encoder s) (send_window s) (recv_window s) true (settings_acked s)
    (pending_settings s) (error s) (goaway_received s) (goaway_last_stream_id s).

Definition effective_local_initial_window_size s : Z :=
  match last (pending_settings s) with
  | Some p => initial_window_size p
  | None => initial_window_size (local_settings s)
  end.

(** [&mut] access to the entry is the entry and the state holding it. *)
Definition get_or_create_stream (stream_id : Z) s : stream.H2Stream * ConnState D :=
  let send_window := initial_window_size (remote_settings s) in
  let recv_window := effective_local_initial_window_size s in
  match streams s !! stream_id with
  | Some st => (st, s)
  | None =>
      let st := stream.new_with_windows stream_id send_window recv_window in
      (st, with_streams (<[stream_id := st]> (streams s)) s)
  end.

Definition get_stream (stream_id : Z) s : option stream.H2Stream := streams s !! stream_id.

(** [if let Some(stream) = get_stream_mut(id) { ... }] replacing the entry. *)
Definition put_stream (stream_id : Z) (st : stream.H2Stream) s : ConnState D :=
  with_streams (<[stream_id := st]> (streams s)) s.

Definition active_stream_count s : Z :=
  Z.of_nat (size (filter (fun kv => stream.is_active (stream.state kv.2) = true) (streams s))).

Definition can_open_stream s : bool :=
  match max_concurrent_streams (remote_settings s) with
  | Some max => active_stream_count s <? max
  | None => true
  end.

(** [let _ = stream.open()] keeps the stream on an error. *)
Definition open_stream s : Z * ConnState D :=
  let stream_id := next_stream_id s in
  let send_window := initial_window_size (remote_settings s) in
  let recv_window := effective_local_initial_window_size s in
  let st := stream.new_with_windows stream_id send_window recv_window in
  let st := or_keep st (stream.open st) in
  (stream_id,
   mkConn (is_client s) (local_settings s) (remote_settings s) (<[stream_id := st]> (streams s))
     (as_u32 (next_stream_id s + 2)) (hpack_decoder s) (hpack_encoder s) (conn_state.send_window s)
     (conn_state.recv_window s) (preface_received s) (settings_acked s) (pending_settings s)
     (error s) (goaway_received s) (goaway_last_stream_id s)).

(** [let _ = pending.apply(&param)]: an invalid value is skipped. *)
Definition apply_ignoring (p : H2Settings) (x : profile.H2Setting) : H2Settings :=
  match apply {| sp_id := profile.as_u16 (profile.hs_id x); sp_value := profile.hs_value x |} p with
  | Ok p' => p'
  | _ => p
  end.

Definition apply_profile_settings (l : list profile.H2Setting) s : ConnState D :=
  with_pending_settings (pending_settings s ++ [foldl apply_ignoring (local_settings s) l]) s.

(** The loop over the parameters: the settings reached, and the error that
    stopped it. *)
Fixpoint apply_all (params : list SettingsParameter) (r : H2Settings)
    : option SettingsError * H2Settings :=
  match params with
  | [] => (None, r)
  | p :: params =>
      match apply p r with
      | Ok r' => apply_all params r'
      | Err e => (Some e, r)
      | Panic => (None, r)
      end
  end.

(** [for stream in self.streams.values_mut()] over the keys in some order. *)
Fixpoint apply_windows (ids : list Z) (new_window : Z) (m : gmap Z stream.H2Stream)
    : option StreamError * gmap Z stream.H2Stream :=
  match ids with
  | [] => (None, m)
  | i :: ids =>
      match m !! i with
      | None => apply_windows ids new_window m
      | Some st =>
          match stream.apply_initial_window_size new_window st with
          | Ok st' => apply_windows ids new_window (<[i := st']> m)
          | Err e => (Some e, m)
          | Panic => (None, m)
          end
      end
  end.

Definition ack_settings s : ConnState D :=
  match pending_settings s with
  | [] => s
  | pending :: rest =>
      let dec :=
        if negb (header_table_size pending =? header_table_size (local_settings s))
        then hpack.set_max_table_size (header_table_size pending) (hpack_decoder s)
        else hpack_decoder s in
      mkConn (is_client s) pending (remote_settings s) (streams s) (next_stream_id s) dec
        (hpack_encoder s) (send_window s) (recv_window s) (preface_received s) true rest
        (error s) (goaway_received s) (goaway_last_stream_id s)
  end.

Definition apply_remote_settings (iter : gmap Z stream.H2Stream -> list Z) (f : SettingsFrame) s
    : option ConnectionError * ConnState D :=
  if sf_ack f then (None, ack_settings s) else
  let '(err, remote) := apply_all (sf_settings f) (remote_settings s) in
  let s := with_remote_settings remote s in
  match err with
  | Some e => (Some (CSettingsError (settings_error_display e)), s)
  | None =>
      let '(err, m) := apply_windows (iter (streams s)) (initial_window_size remote) (streams s) in
      (match err with
       | Some e => Some (CFlowControlError (stream.error_display e))
       | None => None
       end, with_streams m s)
  end.

Definition header_list_size (headers : list (bytes * bytes)) : Z :=
  foldr (fun h acc => len h.1 + len h.2 + 32 + acc) 0 headers.

Definition decode_header_block (block : bytes) s
    : Outcome ConnectionError (list (bytes * bytes)) * ConnState D :=
  let '(r, d) := hpack.decode block (hpack_decoder s) in
  let s := with_decoder d s in
  (match r with
   | Err e => Err (CHpackError e)
   | Panic => Panic
   | Ok headers =>
       let max_size := default (256 * 1024) (max_header_list_size (local_settings s)) in
       let total := header_list_size headers in
       if max_size <? total
       then Err (CHpackError (DecodingError
              ("header list size " +:+ pretty total +:+ " exceeds limit " +:+ pretty max_size)))
       else Ok headers
   end, s).

(** [None]: the encoder would panic or loop. *)
Definition set_encoder_table_size (size : Z) s : option (ConnState D) :=
  e ← hpack.encoder_set_max_table_size size (hpack_encoder s); Some (with_encoder e s).

Definition encode_headers (headers : list (bytes * bytes)) s : option (bytes * ConnState D) :=
  '(e, block) ← hpack.encode_owned headers (hpack_encoder s); Some (block, with_encoder e s).

Definition encode_headers_with_policy (headers : list (bytes * bytes)) (policy : HpackEncodePolicy) s
    : option (bytes * ConnState D) :=
  '(e, block) ← hpack.encode_with_policy headers policy (hpack_encoder s);
  Some (block, with_encoder e s).

Definition consume_send_window (amount : Z) s : Z * ConnState D :=
  let available := Z.max (send_window s) 0 in
  let consumed := Z.min amount available in
  (consumed, with_send_window (as_i32 (send_window s - as_i32 consumed)) s).

Definition consume_recv_window (amount : Z) s : Outcome ConnectionError (ConnState D) :=
  if (recv_window s <? 0) || (as_u32 (recv_window s) <? amount)
  then Err (CFlowControlError ("connection receive window exhausted: window="
              +:+ pretty (recv_window s) +:+ ", requested=" +:+ pretty amount))
  else Ok (with_recv_window (as_i32 (recv_window s - as_i32 amount)) s).

Definition update_send_window (increment : Z) s : Outcome ConnectionError (ConnState D) :=
  let new_window := send_window s + increment in
  if I32_MAX <? new_window then Err (CFlowControlError "connection send window overflow")
  else Ok (with_send_window (as_i32 new_window) s).

Definition update_recv_window (increment : Z) s : Outcome ConnectionError (ConnState D) :=
  let new_window := recv_window s + increment in
  if I32_MAX <? new_window then Err (CFlowControlError "connection receive window overflow")
  else Ok (with_recv_window (as_i32 new_window) s).

Definition handle_goaway (last_stream_id error_code : Z) s : ConnState D :=
  mkConn (is_client s) (local_settings s) (remote_settings s) (streams s) (next_stream_id s)
    (hpack_decoder s) (hpack_encoder s) (send_window s) (recv_window s) (preface_received s)
    (settings_acked s) (pending_settings s)
    (if negb (error_code =? 0) then Some (from_u32 error_code) else error s)
    true (Some last_stream_id).

Definition cleanup_closed_streams s : ConnState D :=
  with_streams (filter (fun kv => stream.is_closed (stream.state kv.2) = false) (streams s)) s.

End conn.

End conn_state.
Import conn_state.

(** ** Settings lemmas *)

Definition settings_inv (s : H2Settings) : Prop :=
  u32 (header_table_size s) /\ u31 (initial_window_size s) /\
  16384 <= max_frame_size s <= 16777215.

#[export] Instance settings_inv_dec s : Decision (settings_inv s).
Proof. unfold settings_inv; apply _. Defined.

(** A parameter is refused exactly when its value is outside the RFC range the
    profile validator checks too. *)
Lemma apply_total p s :
  (value_ok (sp_id p) (sp_value p) /\ exists s', apply p s = Ok s') \/
  (~ value_ok (sp_id p) (sp_value p) /\ exists e, apply p s = Err e).
Proof.
  destruct p as [i v]. rewrite <- check_value_iff. unfold apply, synthesis.check_value. cbn [sp_id sp_value].
  destruct (SettingsIdM.from_u16 i) as [x|] eqn:E.
  - destruct x; (* the id is the constant of its constructor *)
      repeat (destruct i as [|i|i]; try discriminate E);
      cbn [Z.eqb Pos.eqb andb];
      try (left; split; [done|by eexists]);
      unfold synthesis.MAX_WINDOW;
      case_match; cbn [andb negb]; try (left; split; [done|by eexists]); right; split; try done;
      by eexists.
  - left. split; [|by eexists].
    assert (i <> 2 /\ i <> 4 /\ i <> 5) as (H2 & H4 & H5)
      by (split_and!; intros ->; discriminate E).
    rewrite !(proj2 (Z.eqb_neq _ _)) by done. done.
Qed.

Lemma apply_inv p s s' :
  u32 (sp_value p) -> settings_inv s -> apply p s = Ok s' -> settings_inv s'.
Proof.
  intros Hv (Hh & Hw & Hm) Ha. unfold apply in Ha.
  destruct (SettingsIdM.from_u16 (sp_id p)) as [[]|]; repeat case_match; simplify_eq;
    unfold settings_inv; cbn; split_and!; try done; try lia.
  apply Z.ltb_ge in H. unfold u31, u32 in *. lia.
Qed.

Lemma apply_all_ok ps : forall r,
  Forall (fun p => value_ok (sp_id p) (sp_value p)) ps -> exists r', apply_all ps r = (None, r').
Proof.
  induction ps as [|p ps IH]; intros r Hps; [by eexists|]. cbn [apply_all].
  apply Forall_cons in Hps as [Hp Hps].
  destruct (apply_total p r) as [[_ [r' ->]]|[Hn _]]; [by apply IH|done].
Qed.

Lemma apply_all_err ps : forall r,
  ~ Forall (fun p => value_ok (sp_id p) (sp_value p)) ps -> exists e r', apply_all ps r = (Some e, r').
Proof.
  induction ps as [|p ps IH]; intros r Hps; [by destruct Hps|]. cbn [apply_all].
  destruct (apply_total p r) as [[Hv [r' ->]]|[_ [e ->]]]; [|by eexists _, _].
  apply IH. intros Hf. apply Hps. by constructor.
Qed.

Lemma apply_all_inv ps : forall r, Forall (fun p => u32 (sp_value p)) ps ->
  settings_inv r -> settings_inv (apply_all ps r).2.
Proof.
  induction ps as [|p ps IH]; intros r Hps Hr; [done|]. cbn [apply_all].
  apply Forall_cons in Hps as [Hp Hps].
  destruct (apply p r) as [r'|e|] eqn:E; [|done|done]. apply IH; [done|]. by eapply apply_inv.
Qed.

(** Two settings in a frame: the later value wins. *)
Lemma apply_ignoring_all ps r :
  Forall (fun p => value_ok (profile.as_u16 (profile.hs_id p)) (profile.hs_value p)) ps ->
  apply_all ((fun x => mkParam (profile.as_u16 (profile.hs_id x)) (profile.hs_value x)) <$> ps) r
  = (None, foldl apply_ignoring r ps).
Proof.
  revert r. induction ps as [|p ps IH]; intros r Hps; [done|].
  apply Forall_cons in Hps as [Hp Hps]. cbn [fmap list_fmap apply_all foldl].
  destruct (apply_total (mkParam (profile.as_u16 (profile.hs_id p)) (profile.hs_value p)) r)
    as [[_ [r' Hr']]|[Hn _]]; [|done].
  unfold apply_ignoring at 2. rewrite Hr'. by apply IH.
Qed.

(** ** The initial-window loop over the stream table *)

Definition shifted (w : Z) (st : stream.H2Stream) : stream.H2Stream :=
  stream.mkStream (stream.id st) (stream.state st)
    (stream.send_window st + (w - stream.initial_window_size st)) (stream.recv_window st) w.

Definition fits (w : Z) (st : stream.H2Stream) : Prop := stream.send_window (shifted w st) <= I32_MAX.

#[export] Instance fits_dec w st : Decision (fits w st).
Proof. unfold fits; apply _. Defined.

Definition streams_inv (m : gmap Z stream.H2Stream) : Prop :=
  map_Forall (fun i st => stream_inv st /\ stream.id st = i) m.

Lemma apply_initial_shifted w st : stream_inv st -> u31 w ->
  stream.apply_initial_window_size w st = (if decide (fits w st) then Ok (shifted w st) else Err WindowOverflow) /\
  (fits w st -> stream_inv (shifted w st)).
Proof. intros Hi Hw. by apply apply_initial_spec. Qed.

Lemma streams_inv_insert m i st :
  streams_inv m -> stream_inv st -> stream.id st = i -> streams_inv (<[i := st]> m).
Proof. intros Hm Hs Hi. by apply map_Forall_insert_2. Qed.

Lemma apply_windows_inv w ids : forall m,
  streams_inv m -> u31 w -> streams_inv (apply_windows ids w m).2.
Proof.
  induction ids as [|i ids IH]; intros m Hm Hw; [done|]. cbn [apply_windows].
  destruct (m !! i) as [st|] eqn:E; [|by apply IH]. destruct (Hm i st E) as [Hst Hid].
  destruct (apply_initial_shifted w st Hst Hw) as [-> Hs].
  destruct (decide _) as [Hf|]; [|done]. apply IH; [|done].
  apply streams_inv_insert; [done|by apply Hs|done].
Qed.

Lemma apply_windows_spec w ids : forall m,
  streams_inv m -> u31 w -> NoDup ids ->
  (forall i st, i ∈ ids -> m !! i = Some st -> fits w st) ->
  exists m', apply_windows ids w m = (None, m') /\
    forall j, m' !! j = (if decide (j ∈ ids) then shifted w <$> m !! j else m !! j).
Proof.
  induction ids as [|i ids IH]; intros m Hm Hw Hnd Hfit; cbn [apply_windows].
  { exists m. split; [done|]. intros j. by rewrite decide_False by apply not_elem_of_nil. }
  apply NoDup_cons in Hnd as [Hni Hnd].
  destruct (m !! i) as [st|] eqn:E.
  - destruct (Hm i st E) as [Hst Hid]. destruct (apply_initial_shifted w st Hst Hw) as [-> Hs].
    assert (fits w st) as Hf by (by eapply Hfit; [left|]). rewrite decide_True by done.
    destruct (IH (<[i := shifted w st]> m)) as (m' & -> & Hm'); try done.
    + apply streams_inv_insert; [done|by apply Hs|done].
    + intros j st' Hj. rewrite lookup_insert_ne by (intros ->; done). intros Hj'.
      eapply Hfit; [by right|done].
    + exists m'. split; [done|]. intros j. rewrite Hm'.
      destruct (decide (j = i)) as [->|Hne].
      * rewrite decide_False, lookup_insert_eq, decide_True by (done || left). by rewrite E.
      * rewrite lookup_insert_ne by done. destruct (decide (j ∈ ids)) as [Hin|Hout].
        -- by rewrite decide_True by (by right).
        -- by rewrite decide_False by (by intros [|]%elem_of_cons).
  - destruct (IH m Hm Hw Hnd) as (m' & -> & Hm').
    { intros j st Hj. eapply Hfit. by right. }
    exists m'. split; [done|]. intros j. rewrite Hm'. destruct (decide (j = i)) as [->|Hne].
    + rewrite decide_False, decide_True by (done || left). by rewrite E.
    + destruct (decide (j ∈ ids)) as [Hin|Hout].
      * by rewrite decide_True by (by right).
      * by rewrite decide_False by (by intros [|]%elem_of_cons).
Qed.

Lemma apply_windows_overflow w ids : forall m,
  streams_inv m -> u31 w -> NoDup ids ->
  (exists i st, i ∈ ids /\ m !! i = Some st /\ ~ fits w st) ->
  (apply_windows ids w m).1 = Some WindowOverflow.
Proof.
  induction ids as [|i ids IH]; intros m Hm Hw Hnd (j & st & Hj & Hst & Hn);
    [by apply not_elem_of_nil in Hj|]. cbn [apply_windows].
  apply NoDup_cons in Hnd as [Hni Hnd]. destruct (m !! i) as [st'|] eqn:E.
  - destruct (Hm i st' E) as [Hi Hid]. destruct (apply_initial_shifted w st' Hi Hw) as [-> Hs].
    destruct (decide (fits w st')) as [Hf|]; [|done]. apply IH; try done.
    + apply streams_inv_insert; [done|by apply Hs|done].
    + apply elem_of_cons in Hj as [->|Hj]; [by simplify_eq|]. exists j, st.
      rewrite lookup_insert_ne by (intros ->; done). done.
  - apply IH; try done. apply elem_of_cons in Hj as [->|Hj]; [congruence|]. by exists j, st.
Qed.

(** ** Invariant *)

Definition conn_inv {D} (s : ConnState D) : Prop :=
  settings_inv (remote_settings s) /\ settings_inv (local_settings s) /\
  Forall settings_inv (pending_settings s) /\ streams_inv (streams s) /\
  0 <= send_window s <= I32_MAX /\ 0 <= recv_window s <= I32_MAX /\
  enc_inv (hpack_encoder s) /\ u32 (next_stream_id s).

Section conn_props.
Context {D : Type} `{HpackDecoder D}.
Implicit Types s : ConnState D.

Lemma conn_inv_streams m s : conn_inv s -> streams_inv m -> conn_inv (with_streams m s).
Proof. unfold conn_inv; cbn; tauto. Qed.

Lemma conn_inv_put i st st' s :
  conn_inv s -> streams s !! i = Some st -> stream_inv st' -> stream.id st' = stream.id st ->
  conn_inv (put_stream i st' s).
Proof.
  intros Hinv Hs Hi Hid. apply conn_inv_streams; [done|].
  destruct Hinv as (_ & _ & _ & Hm & _). destruct (Hm i st Hs) as [_ Hid'].
  apply streams_inv_insert; [done|done|congruence].
Qed.

Lemma conn_inv_stream i st s : conn_inv s -> streams s !! i = Some st -> stream_inv st.
Proof. intros (_ & _ & _ & Hm & _) Hs. by destruct (Hm i st Hs). Qed.

Lemma conn_inv_send x s : conn_inv s -> 0 <= x <= I32_MAX -> conn_inv (with_send_window x s).
Proof. unfold conn_inv; cbn; tauto. Qed.

Lemma conn_inv_recv x s : conn_inv s -> 0 <= x <= I32_MAX -> conn_inv (with_recv_window x s).
Proof. unfold conn_inv; cbn; tauto. Qed.

Lemma conn_inv_encoder e s : conn_inv s -> enc_inv e -> conn_inv (with_encoder e s).
Proof. unfold conn_inv; cbn; tauto. Qed.

Lemma conn_inv_decoder d s : conn_inv s -> conn_inv (with_decoder d s).
Proof. unfold conn_inv; cbn; tauto. Qed.

Lemma conn_inv_remote r s : conn_inv s -> settings_inv r -> conn_inv (with_remote_settings r s).
Proof. unfold conn_inv; cbn; tauto. Qed.

Lemma conn_inv_goaway l e s : conn_inv s -> conn_inv (handle_goaway l e s).
Proof. unfold conn_inv; cbn; tauto. Qed.

Lemma conn_inv_cleanup s : conn_inv s -> conn_inv (cleanup_closed_streams s).
Proof.
  intros Hinv. apply conn_inv_streams; [done|]. destruct Hinv as (_ & _ & _ & Hm & _).
  intros i st [Hi _]%map_lookup_filter_Some. by apply Hm.
Qed.

Lemma conn_inv_ack s : conn_inv s -> conn_inv (ack_settings s).
Proof.
  unfold conn_inv, ack_settings. destruct (pending_settings s) as [|p ps] eqn:E; cbn;
    rewrite ?E, ?Forall_cons; tauto.
Qed.

Lemma conn_inv_new b : conn_inv (new (D := D) b).
Proof.
  assert (settings_inv settings_default /\ settings_inv settings_client) as [Hd Hc]
    by by split; apply (bool_decide_unpack _).
  assert (enc_inv (hpack_enc.new 4096)) as He by by apply (new_in_sync 4096).
  unfold conn_inv. cbn [new remote_settings local_settings pending_settings streams send_window
    recv_window hpack_encoder next_stream_id].
  split; [done|]. split; [by destruct b|]. split; [constructor|]. split; [apply map_Forall_empty|].
  do 2 (split; [by vm_compute|]). by destruct b.
Qed.

Lemma conn_consume_send_spec n s :
  conn_inv s -> u32 n ->
  consume_send_window n s = (Z.min n (send_window s), with_send_window (send_window s - Z.min n (send_window s)) s) /\
  conn_inv (with_send_window (send_window s - Z.min n (send_window s)) s).
Proof.
  intros Hinv Hn. pose proof Hinv as (_ & _ & _ & _ & Hs & _). unfold consume_send_window.
  rewrite Z.max_l by lia. rewrite (as_i32_small (Z.min _ _)) by width. rewrite as_i32_small by width.
  split; [done|]. apply conn_inv_send; [done|]. unfold u32 in Hn. lia.
Qed.

Lemma conn_consume_recv_spec n s :
  conn_inv s -> u32 n ->
  if decide (n <= recv_window s)
  then consume_recv_window n s = Ok (with_recv_window (recv_window s - n) s) /\
       conn_inv (with_recv_window (recv_window s - n) s)
  else exists e, consume_recv_window n s = Err e.
Proof.
  intros Hinv Hn. pose proof Hinv as (_ & _ & _ & _ & _ & Hr & _). unfold consume_recv_window.
  rewrite (proj2 (Z.ltb_ge (recv_window s) 0)) by lia. cbn [orb]. rewrite as_u32_small by width.
  destruct (decide _).
  - rewrite (proj2 (Z.ltb_ge _ _)) by lia. rewrite (as_i32_small n) by width.
    rewrite as_i32_small by width. split; [done|]. apply conn_inv_recv; [done|]. unfold u32 in Hn. lia.
  - rewrite (proj2 (Z.ltb_lt _ _)) by lia. by eexists.
Qed.

Lemma conn_update_send_spec n s :
  conn_inv s -> u32 n ->
  if decide (send_window s + n <= I32_MAX)
  then update_send_window n s = Ok (with_send_window (send_window s + n) s) /\
       conn_inv (with_send_window (send_window s + n) s)
  else exists e, update_send_window n s = Err e.
Proof.
  intros Hinv Hn. pose proof Hinv as (_ & _ & _ & _ & Hs & _). unfold update_send_window.
  destruct (decide _).
  - rewrite (proj2 (Z.ltb_ge _ _)) by lia. rewrite as_i32_small by width. split; [done|].
    apply conn_inv_send; [done|]. unfold u32 in Hn. lia.
  - rewrite (proj2 (Z.ltb_lt _ _)) by lia. by eexists.
Qed.

Lemma conn_update_recv_spec n s :
  conn_inv s -> u32 n ->
  if decide (recv_window s + n <= I32_MAX)
  then update_recv_window n s = Ok (with_recv_window (recv_window s + n) s) /\
       conn_inv (with_recv_window (recv_window s + n) s)
  else exists e, update_recv_window n s = Err e.
Proof.
  intros Hinv Hn. pose proof Hinv as (_ & _ & _ & _ & _ & Hr & _). unfold update_recv_window.
  destruct (decide _).
  - rewrite (proj2 (Z.ltb_ge _ _)) by lia. rewrite as_i32_small by width. split; [done|].
    apply conn_inv_recv; [done|]. unfold u32 in Hn. lia.
  - rewrite (proj2 (Z.ltb_lt _ _)) by lia. by eexists.
Qed.

Lemma effective_window_u31 s : conn_inv s -> u31 (effective_local_initial_window_size s).
Proof.
  intros (_ & Hl & Hp & _). unfold effective_local_initial_window_size.
  destruct (last (pending_settings s)) as [p|] eqn:E; [|by destruct Hl as (_ & ? & _)].
  apply last_Some_elem_of in E. rewrite Forall_forall in Hp. by destruct (Hp p E) as (_ & ? & _).
Qed.

Lemma open_stream_spec s :
  conn_inv s ->
  let '(id, s') := open_stream s in
  id = next_stream_id s /\ conn_inv s' /\
  exists st, streams s' = <[id := st]> (streams s) /\ stream.state st = Open /\
    stream.send_window st = initial_window_size (remote_settings s) /\
    stream.recv_window st = effective_local_initial_window_size s /\ stream_inv st.
Proof.
  intros Hinv. pose proof (effective_window_u31 s Hinv) as Hr.
  pose proof Hinv as ((_ & Hs & _) & _). cbn.
  pose proof (stream_new_inv (next_stream_id s) _ _ Hs Hr) as Hst.
  split; [done|]. split.
  - assert (streams_inv (<[next_stream_id s := stream.mkStream (next_stream_id s) Open
        (as_i32 (initial_window_size (remote_settings s)))
        (as_i32 (effective_local_initial_window_size s)) (initial_window_size (remote_settings s))]>
        (streams s))) by (apply streams_inv_insert; [by destruct Hinv as (_ & _ & _ & ? & _)|done|done]).
    pose proof (as_u32_range (next_stream_id s + 2)). unfold conn_inv in *. cbn in *. tauto.
  - eexists. split; [done|]. cbn. rewrite !as_i32_small by width. done.
Qed.

Lemma apply_remote_inv iter f s :
  conn_inv s -> Forall (fun p => u32 (sp_value p)) (sf_settings f) ->
  conn_inv (apply_remote_settings iter f s).2.
Proof.
  intros Hinv Hps. unfold apply_remote_settings. destruct (sf_ack f); [by apply conn_inv_ack|].
  pose proof (apply_all_inv (sf_settings f) (remote_settings s) Hps (proj1 Hinv)) as Hr.
  destruct (apply_all (sf_settings f) (remote_settings s)) as [[e|] r]; cbn [snd] in *.
  - by apply conn_inv_remote.
  - pose proof (apply_windows_inv (initial_window_size r) (iter (streams s)) (streams s)) as Hw.
    cbn [with_remote_settings streams].
    destruct (apply_windows _ _ _) as [e m]. apply conn_inv_streams; [by apply conn_inv_remote|].
    apply Hw; [by destruct Hinv as (_ & _ & _ & ? & _)|by destruct Hr as (_ & ? & _)].
Qed.

Lemma apply_profile_inv l s :
  conn_inv s -> Forall (fun x => u32 (profile.hs_value x)) l -> conn_inv (apply_profile_settings l s).
Proof.
  intros Hinv Hl. assert (settings_inv (foldl apply_ignoring (local_settings s) l)) as Hf.
  { assert (settings_inv (local_settings s)) as H0 by by destruct Hinv as (_ & ? & _).
    revert H0. generalize (local_settings s). induction Hl as [|x l Hx Hl IH]; intros r Hr; [done|].
    cbn [foldl]. apply IH. unfold apply_ignoring. case_match eqn:E; [|done|done].
    by eapply (apply_inv (mkParam _ _)). }
  destruct Hinv as (?&?&?&?&?&?&?&?). unfold conn_inv. cbn.
  rewrite Forall_app, Forall_singleton. tauto.
Qed.

Lemma set_encoder_table_size_spec n s :
  conn_inv s -> 0 <= n -> exists e, set_encoder_table_size n s = Some (with_encoder e s) /\
    enc_inv e /\ table.max_size (hpack_enc.dynamic e) = n.
Proof.
  intros Hinv Hn. destruct Hinv as (_ & _ & _ & _ & _ & _ & (Hi & Hm & _) & _).
  unfold set_encoder_table_size, hpack.encoder_set_max_table_size, hpack_enc.set_max_table_size.
  rewrite set_max_size_spec by done. cbn [mbind option_bind].
  eexists. split; [done|]. split; [split; [by apply fit_inv|done]|done].
Qed.

(** The policy a block is encoded with: the default choice when none is set. *)
Lemma encode_headers_spec hs policy s :
  conn_inv s -> Forall (fun h => is_bytes h.1 /\ is_bytes h.2) hs ->
  exists block e, encode_headers_with_policy hs policy s = Some (block, with_encoder e s) /\
    is_bytes block /\ enc_inv e /\
    hpack_enc.encode_with_policy hs policy (hpack_encoder s) = Some (e, block).
Proof.
  intros Hinv Hhs. destruct Hinv as (_ & _ & _ & _ & _ & _ & He & _).
  destruct (encode_with_policy_total hs policy _ He Hhs) as (e & block & Hs & Hb & He').
  exists block, e. unfold encode_headers_with_policy, hpack.encode_with_policy. by rewrite Hs.
Qed.

Lemma encode_headers_default hs s :
  encode_headers hs s = encode_headers_with_policy hs hpack_enc.default_encoding s.
Proof.
  unfold encode_headers, encode_headers_with_policy, hpack.encode_owned, hpack.encode_with_policy.
  by rewrite encode_owned_policy.
Qed.

End conn_props.

(** ** Claims *)

(** An iteration order of the hash map: its keys, each once, in some order. *)
Definition iter_ok (iter : gmap Z stream.H2Stream -> list Z) : Prop :=
  forall m, iter m ≡ₚ (map_to_list m).*1.

Lemma iter_ok_spec iter m : iter_ok iter ->
  NoDup (iter m) /\ forall i, i ∈ iter m <-> is_Some (m !! i).
Proof.
  intros Hi. split; [rewrite (Hi m); apply NoDup_fst_map_to_list|]. intros i. rewrite (Hi m).
  rewrite list_elem_of_fmap. split.
  - intros ([j st] & -> & Hj%elem_of_map_to_list). by eexists.
  - intros [st Hst]. exists (i, st). split; [done|]. by apply elem_of_map_to_list.
Qed.

Lemma apply_remote_settings_ok {D} `{HpackDecoder D} iter f (s : ConnState D) :
  conn_inv s -> iter_ok iter -> sf_ack f = false -> Forall (fun p => u32 (sp_value p)) (sf_settings f) ->
  Forall (fun p => value_ok (sp_id p) (sp_value p)) (sf_settings f) ->
  let remote := (apply_all (sf_settings f) (remote_settings s)).2 in
  map_Forall (fun _ => fits (initial_window_size remote)) (streams s) ->
  let s' := with_streams (shifted (initial_window_size remote) <$> streams s) (with_remote_settings remote s) in
  apply_remote_settings iter f s = (None, s') /\ conn_inv s'.
Proof.
  intros Hinv Hit Hack Hps Hok remote Hf s'.
  assert (apply_remote_settings iter f s = (None, s')) as Heq.
  { unfold apply_remote_settings. rewrite Hack.
    pose proof (apply_all_inv (sf_settings f) (remote_settings s) Hps (proj1 Hinv)) as (_ & Hw & _).
    assert (streams_inv (streams s)) as Hm by by destruct Hinv as (_ & _ & _ & ? & _).
    destruct (iter_ok_spec iter (streams s) Hit) as [Hnd Hin].
    destruct (apply_all_ok (sf_settings f) (remote_settings s) Hok) as [r Hr].
    subst s'. subst remote. rewrite Hr in *. cbn [snd with_remote_settings streams] in *.
    destruct (apply_windows_spec (initial_window_size r) _ _ Hm Hw Hnd) as (m' & -> & Hl).
    { intros i st _ Hst. by apply (Hf i st Hst). }
    do 2 f_equal. apply map_eq. intros j. rewrite Hl, lookup_fmap.
    destruct (decide (j ∈ iter (streams s))) as [|Hj]; [done|].
    destruct (streams s !! j) eqn:E; [|done]. destruct Hj. apply Hin. by eexists. }
  split; [done|]. pose proof (apply_remote_inv iter f s Hinv Hps) as Hi. by rewrite Heq in Hi.
Qed.

(** A peer SETTINGS frame is applied as RFC 7540 prescribes, whatever order
    the stream table is walked in: with all values in range and no window
    overflowing, the parameters take effect in order (the later wins) and every
    stream's send window moves by exactly the change of the initial window,
    nothing else changing; a value out of range is reported before any stream
    is touched; a window pushed past 2^31-1 is reported as a flow-control error. *)
Theorem remote_settings_applied {D : Type} `{HpackDecoder D}
    (iter : gmap Z stream.H2Stream -> list Z) (f : SettingsFrame) (s : ConnState D) :
  conn_inv s -> iter_ok iter -> sf_ack f = false -> Forall (fun p => u32 (sp_value p)) (sf_settings f) ->
  let '(r, s') := apply_remote_settings iter f s in
  let remote := (apply_all (sf_settings f) (remote_settings s)).2 in
  let in_range := Forall (fun p => value_ok (sp_id p) (sp_value p)) (sf_settings f) in
  let w := initial_window_size remote in
  (in_range -> map_Forall (fun _ => fits w) (streams s) ->
     r = None /\ s' = with_streams (shifted w <$> streams s) (with_remote_settings remote s)) /\
  (~ in_range -> (exists msg, r = Some (CSettingsError msg)) /\ streams s' = streams s) /\
  (in_range -> ~ map_Forall (fun _ => fits w) (streams s) ->
     r = Some (CFlowControlError "window size overflow")).
Proof.
  intros Hinv Hit Hack Hps.
  pose proof (apply_remote_settings_ok iter f s Hinv Hit Hack Hps) as Hgood.
  destruct (apply_remote_settings iter f s) as [r s'] eqn:Er.
  split; [intros Hok Hf; by destruct (Hgood Hok Hf) as [[= -> ->] _]|]. clear Hgood.
  unfold apply_remote_settings in Er. rewrite Hack in Er.
  pose proof (apply_all_inv (sf_settings f) (remote_settings s) Hps (proj1 Hinv)) as (_ & Hw & _).
  pose proof (apply_all_ok (sf_settings f) (remote_settings s)) as Hok.
  pose proof (apply_all_err (sf_settings f) (remote_settings s)) as Herr.
  destruct (apply_all (sf_settings f) (remote_settings s)) as [[e|] rem] eqn:Ea; cbn [snd] in *.
  { injection Er as <- <-. split; [|intros Hr; by destruct (Hok Hr)].
    intros _. split; [by eexists|done]. }
  split; [intros Hn; by destruct (Herr Hn) as (? & ? & ?)|].
  intros _ Hf. apply map_not_Forall in Hf; [|apply _]. destruct Hf as (i & st & Hst & Hnf).
  destruct (iter_ok_spec iter (streams s) Hit) as [Hnd Hin].
  assert (streams_inv (streams s)) as Hm by by destruct Hinv as (_ & _ & _ & ? & _).
  pose proof (apply_windows_overflow (initial_window_size rem) _ _ Hm Hw Hnd) as Hover.
  cbn [with_remote_settings streams] in Er. destruct (apply_windows _ _ _) as [err m'].
  injection Er as <- _. cbn [fst] in Hover. rewrite Hover; [done|]. exists i, st.
  split; [apply Hin; by eexists|done].
Qed.

Definition any_order (m : gmap Z stream.H2Stream) : list Z := (map_to_list m).*1.

Lemma remote_settings_applied_witness :
  let s : ConnState RefDecoder := (open_stream client).2 in
  let f := mkSettings false [mkParam 4 100; mkParam 4 70000; mkParam 5 32768] in
  let '(r, s') := apply_remote_settings any_order f s in
  let remote := (apply_all (sf_settings f) (remote_settings s)).2 in
  let in_range := Forall (fun p => value_ok (sp_id p) (sp_value p)) (sf_settings f) in
  let w := initial_window_size remote in
  (in_range -> map_Forall (fun _ => fits w) (streams s) ->
     r = None /\ s' = with_streams (shifted w <$> streams s) (with_remote_settings remote s)) /\
  (~ in_range -> (exists msg, r = Some (CSettingsError msg)) /\ streams s' = streams s) /\
  (in_range -> ~ map_Forall (fun _ => fits w) (streams s) ->
     r = Some (CFlowControlError "window size overflow")).
Proof.
  apply (remote_settings_applied any_order (mkSettings false [mkParam 4 100; mkParam 4 70000; mkParam 5 32768])
           ((open_stream client).2 : ConnState RefDecoder)).
  - exact (proj1 (proj2 (open_stream_spec client (conn_inv_new true)))).
  - intros m. reflexivity.
  - done.
  - repeat constructor; by vm_compute.
Defined.

(** What a validated profile advertises is what the connection enforces: no
    parameter is silently skipped when the profile is applied, streams opened
    before the acknowledgement already get the advertised receive window, and
    the acknowledgement makes exactly the advertised settings the local ones. *)
Theorem profile_settings_enforced {D : Type} `{HpackDecoder D}
    (iter : gmap Z stream.H2Stream -> list Z) (p : profile.H2Profile) (s : ConnState D) :
  synthesis.validate p = Ok tt -> pending_settings s = [] ->
  let s1 := apply_profile_settings (profile.settings p) s in
  let '(r, s2) := apply_remote_settings iter (mkSettings true []) s1 in
  exists advertised,
    apply_all (sf_settings (profile.to_settings_frame p)) (local_settings s) = (None, advertised) /\
    effective_local_initial_window_size s1 = initial_window_size advertised /\
    r = None /\ local_settings s2 = advertised /\ pending_settings s2 = [] /\
    settings_acked s2 = true.
Proof.
  intros Hv Hp. apply validate_iff in Hv as (_ & _ & Hv & _).
  exists (foldl apply_ignoring (local_settings s) (profile.settings p)).
  split; [by apply apply_ignoring_all|].
  unfold effective_local_initial_window_size. cbn [apply_profile_settings with_pending_settings pending_settings].
  rewrite last_snoc. split; [done|]. split; [done|].
  unfold ack_settings. cbn [apply_profile_settings with_pending_settings pending_settings].
  rewrite Hp. done.
Qed.

Lemma profile_settings_enforced_witness :
  let s1 := apply_profile_settings (profile.settings profile.firefox_147_h2) (client : ConnState RefDecoder) in
  let '(r, s2) := apply_remote_settings any_order (mkSettings true []) s1 in
  exists advertised,
    apply_all (sf_settings (profile.to_settings_frame profile.firefox_147_h2)) settings_client
      = (None, advertised) /\
    effective_local_initial_window_size s1 = initial_window_size advertised /\
    r = None /\ local_settings s2 = advertised /\ pending_settings s2 = [] /\
    settings_acked s2 = true.
Proof.
  apply (profile_settings_enforced any_order profile.firefox_147_h2 (client : ConnState RefDecoder));
    [by vm_compute|done].
Defined.
