(* ===== verification/Engine.v ===== *)
(** * Protocol engine (lkh2/src/engine.rs)

    The Sans-I/O engine: bytes in, events and outbound frames out.  It composes
    the codec, the connection state, the CONTINUATION assembler and the two
    policies.  [D] is the HPACK decoder and [F] the flow-control policy, both
    behind their interfaces.  [iter] is the iteration order of the stream table
    (see [ConnState]).  [None] is a panic or a loop that does not end; the
    theorems of [EngineProps] exclude it.  The recycled event and frame buffers
    of the source are always cleared before use and are not part of the state. *)
From S2P Require Import Prelude Frame Codec Policy Profile HpackEnc Hpack Stream ConnState.
Import profile.

(** ** CONTINUATION assembler *)

Inductive AssemblyResult : Type :=
| Incomplete
| Complete (stream_id : Z) (header_block : bytes) (end_stream : bool)
| AssemblyError (msg : string).

Record ContinuationAssembler : Type := mkAssembler {
  bufs : gmap Z (bytes * bool * Z);
  active_stream : option Z;
  max_header_block_size : Z;
}.

Module continuation.

Definition DEFAULT_MAX_HEADER_BLOCK_SIZE : Z := 256 * 1024.
Definition MAX_CONTINUATION_FRAMES : Z := 64.

Definition new : ContinuationAssembler := mkAssembler ∅ None DEFAULT_MAX_HEADER_BLOCK_SIZE.

Definition set_max_header_block_size (size : Z) (a : ContinuationAssembler) : ContinuationAssembler :=
  mkAssembler (bufs a) (active_stream a) size.

Definition is_active (a : ContinuationAssembler) : bool :=
  match active_stream a with Some _ => true | None => false end.

Definition push_headers (stream_id : Z) (header_block : bytes) (end_stream end_headers : bool)
    (a : ContinuationAssembler) : AssemblyResult * ContinuationAssembler :=
  if end_headers then (Complete stream_id header_block end_stream, a) else
  if max_header_block_size a <? len header_block then
    (AssemblyError ("header block size " +:+ pretty (len header_block) +:+ " exceeds limit "
                      +:+ pretty (max_header_block_size a)), a)
  else
    (Incomplete,
     mkAssembler (<[stream_id := (header_block, end_stream, 0)]> (bufs a)) (Some stream_id)
       (max_header_block_size a)).

(** The limits, checked before the buffer is extended. *)
Definition overflow (stream_id : Z) (header_block : bytes) (a : ContinuationAssembler) : option string :=
  match bufs a !! stream_id with
  | Some (buf, _, count) =>
      let new_count := count + 1 in
      let new_len := len buf + len header_block in
      if MAX_CONTINUATION_FRAMES <? new_count then
        Some ("too many CONTINUATION frames (" +:+ pretty new_count +:+ ") for stream "
                +:+ pretty stream_id)
      else if max_header_block_size a <? new_len then
        Some ("accumulated header block size " +:+ pretty new_len +:+ " exceeds limit "
                +:+ pretty (max_header_block_size a))
      else None
  | None => None
  end.

Definition push_continuation (stream_id : Z) (header_block : bytes) (end_headers : bool)
    (a : ContinuationAssembler) : AssemblyResult * ContinuationAssembler :=
  match active_stream a with
  | None =>
      (AssemblyError ("CONTINUATION received for stream " +:+ pretty stream_id
                        +:+ " without preceding HEADERS"), a)
  | Some expected =>
      if negb (expected =? stream_id) then
        (AssemblyError ("unexpected CONTINUATION for stream " +:+ pretty stream_id
                          +:+ ", expected " +:+ pretty expected), a)
      else
        match overflow stream_id header_block a with
        | Some msg =>
            (AssemblyError msg,
             mkAssembler (delete stream_id (bufs a)) None (max_header_block_size a))
        | None =>
            let bufs' :=
              match bufs a !! stream_id with
              | Some (buf, es, count) =>
                  <[stream_id := (buf ++ header_block, es, count + 1)]> (bufs a)
              | None => bufs a
              end in
            match end_headers, bufs' !! stream_id with
            | true, Some (block, end_stream, _) =>
                (Complete stream_id block end_stream,
                 mkAssembler (delete stream_id bufs') None (max_header_block_size a))
            | _, _ => (Incomplete, mkAssembler bufs' (active_stream a) (max_header_block_size a))
            end
        end
  end.

End continuation.

(** ** Events *)

Inductive H2Event : Type :=
| SettingsAcked
| LocalSettingsAcked
| ResponseHeaders (stream_id : Z) (headers : list (bytes * bytes)) (end_stream : bool)
| ResponseData (stream_id : Z) (data : bytes) (end_stream : bool)
| StreamReset (stream_id error_code : Z)
| PingAck
| GoAwayEvent (last_stream_id error_code : Z) (debug_data : bytes)
| WindowUpdateEvent (stream_id increment : Z)
| EError (msg : string).

(** ** Engine state *)

Record PendingBodyData : Type := mkPending {
  pd_stream_id : Z;
  pd_data : bytes;
  pd_end_stream : bool;
}.

Record H2Engine (D F : Type) : Type := mkEngine {
  e_codec : H2Codec;
  e_state : conn_state.ConnState D;
  e_pseudo_header_order : list PseudoHeaderId;
  e_continuation : ContinuationAssembler;
  e_remote_settings_received : bool;
  e_headers_priority : option PrioritySpec;
  e_priority_config : PriorityConfig;
  e_last_client_stream_id : option Z;
  e_flow_control : F;
  e_hpack_policy : option HpackEncodePolicy;
  e_last_peer_stream_id : Z;
  e_conn_initial_recv_window : Z;
  e_pending_data : list PendingBodyData;
}.
#[global] Arguments mkEngine {D F}.
#[global] Arguments e_codec {D F}.
#[global] Arguments e_state {D F}.
#[global] Arguments e_pseudo_header_order {D F}.
#[global] Arguments e_continuation {D F}.
#[global] Arguments e_remote_settings_received {D F}.
#[global] Arguments e_headers_priority {D F}.
#[global] Arguments e_priority_config {D F}.
#[global] Arguments e_last_client_stream_id {D F}.
#[global] Arguments e_flow_control {D F}.
#[global] Arguments e_hpack_policy {D F}.
#[global] Arguments e_last_peer_stream_id {D F}.
#[global] Arguments e_conn_initial_recv_window {D F}.
#[global] Arguments e_pending_data {D F}.

Module engine.

(** Field updates. *)
Definition with_state {D F} (x : conn_state.ConnState D) (e : H2Engine D F) : H2Engine D F :=
  mkEngine (e_codec e) x (e_pseudo_header_order e) (e_continuation e)
    (e_remote_settings_received e) (e_headers_priority e) (e_priority_config e)
    (e_last_client_stream_id e) (e_flow_control e) (e_hpack_policy e) (e_last_peer_stream_id
    e) (e_conn_initial_recv_window e) (e_pending_data e).
Definition with_continuation {D F} (x : ContinuationAssembler) (e : H2Engine D F) : H2Engine D F :=
  mkEngine (e_codec e) (e_state e) (e_pseudo_header_order e) x (e_remote_settings_received
    e) (e_headers_priority e) (e_priority_config e) (e_last_client_stream_id e)
    (e_flow_control e) (e_hpack_policy e) (e_last_peer_stream_id e)
    (e_conn_initial_recv_window e) (e_pending_data e).
Definition with_remote_settings_received {D F} (x : bool) (e : H2Engine D F) : H2Engine D F :=
  mkEngine (e_codec e) (e_state e) (e_pseudo_header_order e) (e_continuation e) x
    (e_headers_priority e) (e_priority_config e) (e_last_client_stream_id e) (e_flow_control
    e) (e_hpack_policy e) (e_last_peer_stream_id e) (e_conn_initial_recv_window e)
    (e_pending_data e).
Definition with_last_client_stream_id {D F} (x : option Z) (e : H2Engine D F) : H2Engine D F :=
  mkEngine (e_codec e) (e_state e) (e_pseudo_header_order e) (e_continuation e)
    (e_remote_settings_received e) (e_headers_priority e) (e_priority_config e) x
    (e_flow_control e) (e_hpack_policy e) (e_last_peer_stream_id e)
    (e_conn_initial_recv_window e) (e_pending_data e).
Definition with_flow_control {D F} (x : F) (e : H2Engine D F) : H2Engine D F :=
  mkEngine (e_codec e) (e_state e) (e_pseudo_header_order e) (e_continuation e)
    (e_remote_settings_received e) (e_headers_priority e) (e_priority_config e)
    (e_last_client_stream_id e) x (e_hpack_policy e) (e_last_peer_stream_id e)
    (e_conn_initial_recv_window e) (e_pending_data e).
Definition with_pending_data {D F} (x : list PendingBodyData) (e : H2Engine D F) : H2Engine D F :=
  mkEngine (e_codec e) (e_state e) (e_pseudo_header_order e) (e_continuation e)
    (e_remote_settings_received e) (e_headers_priority e) (e_priority_config e)
    (e_last_client_stream_id e) (e_flow_control e) (e_hpack_policy e) (e_last_peer_stream_id
    e) (e_conn_initial_recv_window e) x.

(** [65535u32.saturating_add(window_update)]. *)
Definition saturating_add_u32 (a b : Z) : Z := Z.min (a + b) 4294967295.

Section engine.
Context {D F : Type} `{HpackDecoder D} `{FlowControlPolicy F}.
Context (iter : gmap Z stream.H2Stream -> list Z).
Implicit Types e : H2Engine D F.

(** ** Construction *)

Fixpoint find_setting (p : H2SettingId -> bool) (l : list H2Setting) : option Z :=
  match l with
  | [] => None
  | s :: l => if p (hs_id s) then Some (hs_value s) else find_setting p l
  end.

Definition is_max_header_list_size (i : H2SettingId) : bool :=
  match i with MaxHeaderListSize => true | _ => false end.
Definition is_max_frame_size (i : H2SettingId) : bool :=
  match i with MaxFrameSize => true | _ => false end.

Definition client_with_policies (p : H2Profile) (flow_control : F)
    (hpack_policy : option HpackEncodePolicy) : H2Engine D F * list H2Frame :=
  let preface_frames := to_preface_frames p in
  let state := conn_state.apply_profile_settings (settings p) conn_state.client in
  let state :=
    if 0 <? window_update p then
      match conn_state.update_recv_window (window_update p) state with
      | Ok state' => state'
      | _ => state
      end
    else state in
  let continuation :=
    match find_setting is_max_header_list_size (settings p) with
    | Some v => continuation.set_max_header_block_size v continuation.new
    | None => continuation.new
    end in
  let codec :=
    match find_setting is_max_frame_size (settings p) with
    | Some v => set_max_frame_size codec_new v
    | None => codec_new
    end in
  ({| e_codec := codec;
      e_state := state;
      e_pseudo_header_order := pseudo_header_order p;
      e_continuation := continuation;
      e_remote_settings_received := false;
      e_headers_priority := to_headers_priority_spec p;
      e_priority_config := priority_config p;
      e_last_client_stream_id := None;
      e_flow_control := flow_control;
      e_hpack_policy := hpack_policy;
      e_last_peer_stream_id := 0;
      e_conn_initial_recv_window := saturating_add_u32 65535 (window_update p);
      e_pending_data := [] |},
   preface_frames).

(** ** Frame builders *)

Definition reset_stream (stream_id : Z) (s : conn_state.ConnState D) : conn_state.ConnState D :=
  match conn_state.get_stream stream_id s with
  | Some st => conn_state.put_stream stream_id (stream.reset st) s
  | None => s
  end.

Definition make_rst_stream (stream_id error_code : Z) e : H2Frame * H2Engine D F :=
  (FRstStream (mkRst stream_id error_code), with_state (reset_stream stream_id (e_state e)) e).

Definition make_window_update (stream_id increment : Z) : H2Frame :=
  FWindowUpdate (mkWindowUpdate stream_id increment).
Definition make_settings_ack : H2Frame := FSettings (mkSettings true []).
Definition make_goaway (code : H2ErrorCode) e : H2Frame :=
  FGoAway (mkGoAway (e_last_peer_stream_id e) (conn_state.code_as_u32 code) []).
Definition make_ping_ack (data : bytes) : H2Frame := FPing (mkPing true data).

(** [let _ = stream.send_end_stream()] on a stream that may be gone. *)
Definition end_stream_local (stream_id : Z) (s : conn_state.ConnState D) : conn_state.ConnState D :=
  match conn_state.get_stream stream_id s with
  | Some st => conn_state.put_stream stream_id (or_keep st (stream.send_end_stream st)) s
  | None => s
  end.

(** ** HEADERS *)

Definition resolve_priority (req_priority : option RequestPriority) e : option PrioritySpec :=
  let cfg := e_priority_config e in
  let rp := effective_priority cfg req_priority in
  match weight_for_urgency cfg (urgency rp) with
  | Some weight =>
      let dep := match stream_dep_policy cfg with
                 | Flat => 0
                 | Chain => default 0 (e_last_client_stream_id e)
                 end in
      Some (mkPrio (pc_exclusive cfg) dep weight)
  | None => e_headers_priority e
  end.

(** [while !remaining.is_empty()]: does not end for a frame size of 0. *)
Fixpoint continuation_loop (fuel : nat) (stream_id max_frame_size : Z) (remaining : bytes)
    : option (list H2Frame) :=
  if is_empty remaining then Some [] else
  match fuel with
  | O => None
  | S fuel =>
      let chunk_len := Z.min (len remaining) max_frame_size in
      let rest := drop_z chunk_len remaining in
      frames ← continuation_loop fuel stream_id max_frame_size rest;
      Some (FContinuation (mkContinuation stream_id (take_z chunk_len remaining) (is_empty rest))
              :: frames)
  end.

Definition split_headers_block (stream_id max_frame_size : Z) (priority : option PrioritySpec)
    (header_block : bytes) (end_stream : bool) : option (list H2Frame) :=
  let priority_overhead := match priority with Some _ => 5 | None => 0 end in
  let first_max := Z.max 0 (max_frame_size - priority_overhead) in
  if len header_block <=? first_max then
    Some [FHeaders (mkHeaders stream_id header_block end_stream true priority None)]
  else
    let first_block := take_z first_max header_block in
    let remaining := drop_z first_max header_block in
    frames ← continuation_loop (length remaining) stream_id max_frame_size remaining;
    Some (FHeaders (mkHeaders stream_id first_block end_stream false priority None) :: frames).

Definition build_headers (stream_id : Z) (headers : list (bytes * bytes)) (end_stream : bool)
    (req_priority : option RequestPriority) e : option (list H2Frame * H2Engine D F) :=
  let priority := resolve_priority req_priority e in
  '(header_block, state) ←
    match e_hpack_policy e with
    | Some policy => conn_state.encode_headers_with_policy headers policy (e_state e)
    | None => conn_state.encode_headers headers (e_state e)
    end;
  frames ← split_headers_block stream_id
             (ConnState.max_frame_size (conn_state.remote_settings state)) priority header_block end_stream;
  let state := if end_stream then end_stream_local stream_id state else state in
  Some (frames, with_last_client_stream_id (Some stream_id) (with_state state e)).

(** ** DATA *)

Definition stream_avail (stream_id : Z) e : Z :=
  match conn_state.get_stream stream_id (e_state e) with
  | Some s => stream.send_window_available s
  | None => 0
  end.

(** Both windows pay for a chunk of [n] bytes. *)
Definition consume_windows (stream_id n : Z) e : H2Engine D F :=
  let state := (conn_state.consume_send_window (as_u32 n) (e_state e)).2 in
  with_state
    (match conn_state.get_stream stream_id state with
     | Some s => conn_state.put_stream stream_id (stream.consume_send_window (as_u32 n) s).2 state
     | None => state
     end) e.

(** [while !remaining.is_empty()]; the flag tells that the loop returned early
    with the rest put aside. *)
Fixpoint data_loop (fuel : nat) (stream_id : Z) (remaining : bytes) (end_stream : bool) e
    : option (list H2Frame * bool * H2Engine D F) :=
  if is_empty remaining then Some ([], false, e) else
  match fuel with
  | O => None
  | S fuel =>
      let max_frame_size := ConnState.max_frame_size (conn_state.remote_settings (e_state e)) in
      let window := Z.min (conn_state.send_window_available (e_state e)) (stream_avail stream_id e) in
      if window =? 0 then
        Some ([], true,
              with_pending_data (e_pending_data e ++ [mkPending stream_id remaining end_stream]) e)
      else
        let chunk_size := Z.min (Z.min (len remaining) max_frame_size) window in
        let chunk := take_z chunk_size remaining in
        let remaining := drop_z chunk_size remaining in
        let e := consume_windows stream_id chunk_size e in
        let frame_end_stream := end_stream && is_empty remaining in
        let e := if frame_end_stream
                 then with_state (end_stream_local stream_id (e_state e)) e else e in
        '(frames, early, e) ← data_loop fuel stream_id remaining end_stream e;
        Some (FData (mkData stream_id chunk frame_end_stream None) :: frames, early, e)
  end.

Definition build_data (stream_id : Z) (data : bytes) (end_stream : bool) e
    : option (list H2Frame * H2Engine D F) :=
  '(frames, early, e) ← data_loop (length data) stream_id data end_stream e;
  if negb early && is_empty frames && end_stream then
    Some ([FData (mkData stream_id [] true None)],
          with_state (end_stream_local stream_id (e_state e)) e)
  else Some (frames, e).

Fixpoint drain_loop (pending : list PendingBodyData) e : option (list H2Frame * H2Engine D F) :=
  match pending with
  | [] => Some ([], e)
  | p :: pending =>
      '(new_frames, e) ← build_data (pd_stream_id p) (pd_data p) (pd_end_stream p) e;
      '(frames, e) ← drain_loop pending e;
      Some (new_frames ++ frames, e)
  end.

Definition drain_pending_data e : option (list H2Frame * H2Engine D F) :=
  drain_loop (e_pending_data e) (with_pending_data [] e).

(** ** Inbound frames

    A handler extends the events and the outbound frames of the current
    [process] call. *)

Record Ctx : Type := mkCtx {
  c_engine : H2Engine D F;
  c_events : list H2Event;
  c_outbound : list H2Frame;
}.

Definition event (ev : H2Event) (c : Ctx) : Ctx :=
  mkCtx (c_engine c) (c_events c ++ [ev]) (c_outbound c).
Definition emit (f : H2Frame) (c : Ctx) : Ctx :=
  mkCtx (c_engine c) (c_events c) (c_outbound c ++ [f]).
Definition set_engine (e : H2Engine D F) (c : Ctx) : Ctx :=
  mkCtx e (c_events c) (c_outbound c).
Definition set_state (s : conn_state.ConnState D) (c : Ctx) : Ctx :=
  set_engine (with_state s (c_engine c)) c.
Definition c_state (c : Ctx) : conn_state.ConnState D := e_state (c_engine c).

Definition emit_rst_stream (stream_id error_code : Z) (c : Ctx) : Ctx :=
  let '(f, e) := make_rst_stream stream_id error_code (c_engine c) in emit f (set_engine e c).
Definition emit_window_update (stream_id increment : Z) (c : Ctx) : Ctx :=
  emit (make_window_update stream_id increment) c.
Definition emit_settings_ack (c : Ctx) : Ctx := emit make_settings_ack c.
Definition emit_goaway (code : H2ErrorCode) (c : Ctx) : Ctx := emit (make_goaway code (c_engine c)) c.
Definition emit_ping_ack (data : bytes) (c : Ctx) : Ctx := emit (make_ping_ack data) c.

Definition handle_settings (f : SettingsFrame) (c : Ctx) : option Ctx :=
  if sf_ack f then
    let c := event LocalSettingsAcked c in
    let '(r, s) := conn_state.apply_remote_settings iter f (c_state c) in
    let c := set_state s c in
    Some (match r with
          | Some err => event (EError (conn_state.error_display err)) c
          | None => c
          end)
  else
    let old_header_table_size := header_table_size (conn_state.remote_settings (c_state c)) in
    let '(r, s) := conn_state.apply_remote_settings iter f (c_state c) in
    let c := set_state s c in
    match r with
    | Some err =>
        Some (event (EError (conn_state.error_display err)) (emit_goaway ProtocolErrorCode c))
    | None =>
        let new_header_table_size := header_table_size (conn_state.remote_settings s) in
        s ← (if negb (new_header_table_size =? old_header_table_size)
             then conn_state.set_encoder_table_size new_header_table_size s
             else Some s);
        let c := emit_settings_ack (set_state s c) in
        let c := set_engine (with_remote_settings_received true (c_engine c)) c in
        Some (event SettingsAcked c)
    end.

Definition complete_headers (stream_id : Z) (header_block : bytes) (end_stream : bool) (c : Ctx) : Ctx :=
  let '(r, s) := conn_state.decode_header_block header_block (c_state c) in
  let c := set_state s c in
  match r with
  | Ok headers =>
      match conn_state.get_stream stream_id s with
      | None =>
          event (EError ("received HEADERS for unknown stream " +:+ pretty stream_id)) c
      | Some st =>
          let c := if end_stream
                   then set_state (conn_state.put_stream stream_id
                                     (or_keep st (stream.recv_end_stream st)) s) c
                   else c in
          event (ResponseHeaders stream_id headers end_stream) c
      end
  | Err err =>
      event (EError ("HPACK decode error on stream " +:+ pretty stream_id +:+ ": "
                       +:+ conn_state.error_display err))
        (emit_goaway CompressionError c)
  | Panic => c
  end.

(** The three outcomes of the assembler. *)
Definition on_assembly (r : AssemblyResult) (c : Ctx) : Ctx :=
  match r with
  | Complete stream_id header_block end_stream => complete_headers stream_id header_block end_stream c
  | Incomplete => c
  | AssemblyError msg => event (EError msg) (emit_goaway ProtocolErrorCode c)
  end.

Definition handle_headers (f : HeadersFrame) (c : Ctx) : Ctx :=
  let '(r, a) := continuation.push_headers (hf_stream_id f) (hf_header_block f) (hf_end_stream f)
                   (hf_end_headers f) (e_continuation (c_engine c)) in
  on_assembly r (set_engine (with_continuation a (c_engine c)) c).

Definition handle_continuation (f : ContinuationFrame) (c : Ctx) : Ctx :=
  let '(r, a) := continuation.push_continuation (cf_stream_id f) (cf_header_block f)
                   (cf_end_headers f) (e_continuation (c_engine c)) in
  on_assembly r (set_engine (with_continuation a (c_engine c)) c).

(** One [on_data_received] call: the WINDOW_UPDATE it asks for, if any, and the
    policy's new state. *)
Definition credit_connection (flow_len : Z) (c : Ctx) : Ctx :=
  let e := c_engine c in
  let '(r, fc) := on_data_received (e_flow_control e) 0 flow_len
                    (conn_state.recv_window (e_state e)) (e_conn_initial_recv_window e) in
  let c := set_engine (with_flow_control fc e) c in
  match r with
  | Some increment =>
      let c := emit_window_update 0 increment c in
      match conn_state.update_recv_window increment (c_state c) with
      | Ok s => set_state s c
      | _ => c
      end
  | None => c
  end.

Definition credit_stream (stream_id flow_len stream_recv_window stream_initial_window : Z) (c : Ctx)
    : Ctx :=
  let e := c_engine c in
  let '(r, fc) := on_data_received (e_flow_control e) stream_id flow_len
                    stream_recv_window stream_initial_window in
  let c := set_engine (with_flow_control fc e) c in
  match r with
  | Some increment =>
      let c := emit_window_update stream_id increment c in
      match conn_state.get_stream stream_id (c_state c) with
      | Some st =>
          set_state (conn_state.put_stream stream_id
                       (or_keep st (stream.update_recv_window increment st)) (c_state c)) c
      | None => c
      end
  | None => c
  end.

Definition flow_len_of (f : DataFrame) : Z :=
  match df_padding f with
  | Some pad_len => as_u32 (1 + as_u32 (len (df_data f)) + pad_len)
  | None => as_u32 (len (df_data f))
  end.

(** [handle_data] behind the window checks. *)
Definition finish_data (f : DataFrame) (flow_len stream_recv_window stream_initial_window : Z) (c : Ctx)
    : Ctx :=
  let c := if 0 <? flow_len
           then credit_stream (df_stream_id f) flow_len stream_recv_window stream_initial_window
                  (credit_connection flow_len c)
           else c in
  let c := if df_end_stream f
           then let e := c_engine c in
                let e := with_flow_control (on_stream_closed (e_flow_control e) (df_stream_id f)) e in
                set_engine (with_state (conn_state.cleanup_closed_streams (e_state e)) e) c
           else c in
  event (ResponseData (df_stream_id f) (df_data f) (df_end_stream f)) c.

Definition handle_data (f : DataFrame) (c : Ctx) : Ctx :=
  let flow_len := flow_len_of f in
  match conn_state.consume_recv_window flow_len (c_state c) with
  | Ok s =>
      let c := set_state s c in
      match conn_state.get_stream (df_stream_id f) s with
      | Some st =>
          if negb (stream.can_receive (stream.state st)) then
            emit_rst_stream (df_stream_id f) (conn_state.code_as_u32 StreamClosedCode) c
          else
            match stream.consume_recv_window flow_len st with
            | Ok st' =>
                let st'' := if df_end_stream f then or_keep st' (stream.recv_end_stream st') else st' in
                finish_data f flow_len (stream.recv_window st') (stream.initial_window_size st')
                  (set_state (conn_state.put_stream (df_stream_id f) st'' s) c)
            | _ =>
                event (StreamReset (df_stream_id f) (conn_state.code_as_u32 FlowControlErrorCode))
                  (emit_rst_stream (df_stream_id f) (conn_state.code_as_u32 FlowControlErrorCode) c)
            end
      | None => finish_data f flow_len 0 65535 c
      end
  | Err err => event (EError (conn_state.error_display err)) (emit_goaway FlowControlErrorCode c)
  | Panic => c
  end.

(** The window, or the error path that ends the handler. *)
Definition grow_send_window (f : WindowUpdateFrame) (c : Ctx) : Ctx + Ctx :=
  if wu_stream_id f =? 0 then
    match conn_state.update_send_window (wu_increment f) (c_state c) with
    | Ok s => inl (set_state s c)
    | Err err =>
        inr (event (EError (conn_state.error_display err)) (emit_goaway FlowControlErrorCode c))
    | Panic => inl c
    end
  else
    match conn_state.get_stream (wu_stream_id f) (c_state c) with
    | None => inl c
    | Some st =>
        match stream.update_send_window (wu_increment f) st with
        | Ok st' => inl (set_state (conn_state.put_stream (wu_stream_id f) st' (c_state c)) c)
        | Err err =>
            inr (event (EError (stream.error_display err))
                   (emit_rst_stream (wu_stream_id f) (conn_state.code_as_u32 FlowControlErrorCode) c))
        | Panic => inl c
        end
    end.

Definition handle_window_update (f : WindowUpdateFrame) (c : Ctx) : option Ctx :=
  if wu_increment f =? 0 then
    Some (if wu_stream_id f =? 0
          then event (EError "WINDOW_UPDATE increment=0 on connection")
                 (emit_goaway ProtocolErrorCode c)
          else emit_rst_stream (wu_stream_id f) (conn_state.code_as_u32 ProtocolErrorCode) c)
  else
    match grow_send_window f c with
    | inr c => Some c
    | inl c =>
        '(drained, e) ← (if negb (is_empty (e_pending_data (c_engine c)))
                         then drain_pending_data (c_engine c)
                         else Some ([], c_engine c));
        Some (event (WindowUpdateEvent (wu_stream_id f) (wu_increment f))
                (mkCtx e (c_events c) (c_outbound c ++ drained)))
    end.

Definition handle_ping (f : PingFrame) (c : Ctx) : Ctx :=
  if negb (pi_ack f) then event PingAck (emit_ping_ack (pi_data f) c) else c.

Definition handle_goaway (f : GoAwayFrame) (c : Ctx) : Ctx :=
  event (GoAwayEvent (ga_last_stream_id f) (ga_error_code f) (ga_debug_data f))
    (set_state (conn_state.handle_goaway (ga_last_stream_id f) (ga_error_code f) (c_state c)) c).

Definition handle_rst_stream (f : RstStreamFrame) (c : Ctx) : Ctx :=
  let s := reset_stream (rf_stream_id f) (c_state c) in
  event (StreamReset (rf_stream_id f) (rf_error_code f))
    (set_state (conn_state.cleanup_closed_streams s) c).

Definition handle_frame (f : H2Frame) (c : Ctx) : option Ctx :=
  match f with
  | FSettings f => handle_settings f c
  | FHeaders f => Some (handle_headers f c)
  | FData f => Some (handle_data f c)
  | FWindowUpdate f => handle_window_update f c
  | FPing f => Some (handle_ping f c)
  | FGoAway f => Some (handle_goaway f c)
  | FRstStream f => Some (handle_rst_stream f c)
  | FContinuation f => Some (handle_continuation f c)
  | FPushPromise _ =>
      Some (event (EError "server push not supported") (emit_goaway ProtocolErrorCode c))
  | FPriority _ | FUnknown _ => Some c
  end.

(** The decode loop; a frame takes at least its header off the buffer. *)
Fixpoint process_loop (fuel : nat) (input : bytes) (c : Ctx) : option (bytes * Ctx) :=
  match fuel with
  | O => None
  | S fuel =>
      '(r, input) ← decode (e_codec (c_engine c)) input;
      match r with
      | RFrame f => c ← handle_frame f c; process_loop fuel input c
      | NeedMoreData _ => Some (input, c)
      | DError err =>
          Some (input, event (EError (codec_error_display err)) (emit_goaway ProtocolErrorCode c))
      end
  end.

Definition process (input : bytes) e : option (bytes * Ctx) :=
  process_loop (S (length input)) input (mkCtx e [] []).

Definition can_open_stream e : bool := conn_state.can_open_stream (e_state e).
Definition open_stream e : Z * H2Engine D F :=
  let '(id, s) := conn_state.open_stream (e_state e) in (id, with_state s e).
Definition is_goaway e : bool := conn_state.has_error (e_state e).
Definition send_window e : Z := conn_state.send_window (e_state e).

(** The [send_*] variants encode the frames they build. *)
Definition encode_frames (frames : list H2Frame) (output : bytes) : bytes :=
  foldl (fun b f => encode f b) output frames.
Definition send_headers (stream_id : Z) (headers : list (bytes * bytes)) (end_stream : bool)
    (output : bytes) e : option (bytes * H2Engine D F) :=
  '(frames, e) ← build_headers stream_id headers end_stream None e;
  Some (encode_frames frames output, e).
Definition send_data (stream_id : Z) (data : bytes) (end_stream : bool) (output : bytes) e
    : option (bytes * H2Engine D F) :=
  '(frames, e) ← build_data stream_id data end_stream e; Some (encode_frames frames output, e).
Definition send_rst_stream (stream_id error_code : Z) (output : bytes) e : bytes * H2Engine D F :=
  let '(f, e) := make_rst_stream stream_id error_code e in (encode f output, e).
Definition send_window_update (stream_id increment : Z) (output : bytes) : bytes :=
  encode (make_window_update stream_id increment) output.

(** ** Requests

    A request as the engine reads it: the components of its [http::Uri], the
    header pairs in iteration order and the body. *)

Record Uri : Type := mkUri {
  u_authority : option bytes;
  u_scheme : option bytes;
  u_path_and_query : option bytes;
}.

Definition pseudo_headers (order : list PseudoHeaderId) (method scheme authority path : bytes)
    : list (bytes * bytes) :=
  (fun pseudo =>
     match pseudo with
     | Method => (ascii_bytes ":method", method)
     | Authority => (ascii_bytes ":authority", authority)
     | Scheme => (ascii_bytes ":scheme", scheme)
     | Path => (ascii_bytes ":path", path)
     end) <$> order.

Definition order_headers (method scheme authority path : bytes) (extra : list (bytes * bytes)) e
    : list (bytes * bytes) :=
  pseudo_headers (e_pseudo_header_order e) method scheme authority path ++ extra.

(** [to_str]: the text of a [http::HeaderValue], when it has one; a header
    without is left out. *)
Definition order_headers_ref (to_str : bytes -> option bytes) (method scheme authority path : bytes)
    (header_map : list (bytes * bytes)) e : list (bytes * bytes) :=
  pseudo_headers (e_pseudo_header_order e) method scheme authority path ++
  omap (fun '(name, value) => (fun v => (name, v)) <$> to_str value) header_map.

Definition uri_authority (u : Uri) : bytes := default [] (u_authority u).
Definition uri_scheme (u : Uri) : bytes := default (ascii_bytes "https") (u_scheme u).
Definition uri_path (u : Uri) : bytes := default (ascii_bytes "/") (u_path_and_query u).

(** HEADERS, then DATA when there is a non-empty body. *)
Definition build_message (stream_id : Z) (ordered : list (bytes * bytes)) (body : option bytes)
    (priority : option RequestPriority) e : option (list H2Frame * H2Engine D F) :=
  let has_body := match body with Some b => negb (is_empty b) | None => false end in
  '(frames, e) ← build_headers stream_id ordered (negb has_body) priority e;
  match body with
  | Some body_data =>
      if negb (is_empty body_data) then
        '(data, e) ← build_data stream_id body_data true e; Some (frames ++ data, e)
      else Some (frames, e)
  | None => Some (frames, e)
  end.

Definition build_request (to_str : bytes -> option bytes) (stream_id : Z) (method : bytes) (uri : Uri)
    (headers : list (bytes * bytes)) (body : option bytes) (priority : option RequestPriority) e
    : option (list H2Frame * H2Engine D F) :=
  let ordered := order_headers_ref to_str method (uri_scheme uri) (uri_authority uri) (uri_path uri)
                   headers e in
  build_message stream_id ordered body priority e.

Definition build_native_request (stream_id : Z) (method : bytes) (uri : Uri)
    (ordered_headers : list (bytes * bytes)) (body : option bytes) (priority : option RequestPriority) e
    : option (list H2Frame * H2Engine D F) :=
  let ordered := pseudo_headers (e_pseudo_header_order e) method (uri_scheme uri) (uri_authority uri)
                   (uri_path uri) ++ ordered_headers in
  build_message stream_id ordered body priority e.

End engine.

Definition client {D} `{HpackDecoder D} (p : H2Profile) : H2Engine D ImmediateFlowControl * list H2Frame :=
  client_with_policies p mkImmediate None.

End engine.
