(* ===== verification/EngineSend.v ===== *)
(** * Sending: header blocks and bodies

    What [build_headers] and [build_data] of [Engine] put on the wire: a header
    block split into frames is put together again by the receiving assembler, a
    body is cut into frames within the peer's frame size and both windows, and
    nothing is lost, duplicated or reordered when flow control blocks. *)
From S2P Require Import Prelude Frame Codec CodecProps Policy Huffman HpackTable HpackEnc HpackSync Profile Synthesis Hpack Stream ConnState Engine.
Import profile engine.

(** ** Splitting and reassembling a header block *)

(** A receiver that passes HEADERS and CONTINUATION frames to its assembler. *)
Definition feed (f : H2Frame) (a : ContinuationAssembler) : AssemblyResult * ContinuationAssembler :=
  match f with
  | FHeaders f => continuation.push_headers (hf_stream_id f) (hf_header_block f) (hf_end_stream f)
                    (hf_end_headers f) a
  | FContinuation f => continuation.push_continuation (cf_stream_id f) (cf_header_block f)
                         (cf_end_headers f) a
  | _ => (Incomplete, a)
  end.

Fixpoint feed_all (fs : list H2Frame) (a : ContinuationAssembler)
    : list AssemblyResult * ContinuationAssembler :=
  match fs with
  | [] => ([], a)
  | f :: fs => let '(r, a) := feed f a in let '(rs, a) := feed_all fs a in (r :: rs, a)
  end.

(** CONTINUATION frames of one stream, none of them empty or too large. *)
Definition cont_ok (id mfs : Z) (f : H2Frame) : Prop :=
  exists b eh, f = FContinuation (mkContinuation id b eh) /\ 0 < len b <= mfs.

Lemma continuation_loop_total id mfs : 1 <= mfs -> forall fuel rem,
  (length rem <= fuel)%nat ->
  exists fs, continuation_loop fuel id mfs rem = Some fs /\ Forall (cont_ok id mfs) fs /\
    (rem = [] <-> fs = []).
Proof.
  intros Hmfs. induction fuel as [|fuel IH]; intros rem Hf.
  { destruct rem; [|simpl in Hf; lia]. by exists []. }
  destruct rem as [|b rem]; [by exists []|]. cbn [continuation_loop is_empty].
  set (rem' := b :: rem) in *. assert (0 < len rem') as Hpos by (unfold rem'; slen).
  destruct (IH (drop_z (Z.min (len rem') mfs) rem')) as (fs & -> & Hfs & _).
  { unfold drop_z. rewrite length_drop. unfold len in *. lia. }
  eexists. split; [done|]. split; [|done]. constructor; [|done].
  eexists _, _. split; [done|]. rewrite len_take_z by lia. lia.
Qed.

Lemma feed_continuations id mfs mx m es : 1 <= mfs -> m !! id = None -> forall fuel rem buf count fs,
  rem <> [] -> (length rem <= fuel)%nat -> continuation_loop fuel id mfs rem = Some fs ->
  len buf + len rem <= mx -> 0 <= count -> count + len fs <= 64 ->
  feed_all fs (mkAssembler (<[id := (buf, es, count)]> m) (Some id) mx)
  = (replicate (length fs - 1) Incomplete ++ [Complete id (buf ++ rem) es], mkAssembler m None mx).
Proof.
  intros Hmfs Hm. induction fuel as [|fuel IH]; intros rem buf count fs Hne Hf Hl Hmx Hc0 Hc.
  { destruct rem; [done|simpl in Hf; lia]. }
  destruct rem as [|b rem]; [done|]. cbn [continuation_loop is_empty] in Hl.
  set (rem' := b :: rem) in *. set (n := Z.min (len rem') mfs) in *.
  assert (0 < len rem') as Hpos by (unfold rem'; slen).
  destruct (continuation_loop fuel id mfs (drop_z n rem')) as [fs'|] eqn:El; [|done].
  injection Hl as <-. cbn [feed_all feed cf_stream_id cf_header_block cf_end_headers].
  unfold continuation.push_continuation. cbn [active_stream].
  rewrite Z.eqb_refl. cbn [negb]. unfold continuation.overflow. cbn [bufs max_header_block_size].
  rewrite lookup_insert_eq. rewrite len_cons in Hc. pose proof (len_nonneg fs').
  assert (len (take_z n rem') = n) as Hlt by (rewrite len_take_z by lia; lia).
  rewrite (proj2 (Z.ltb_ge continuation.MAX_CONTINUATION_FRAMES _))
    by (unfold continuation.MAX_CONTINUATION_FRAMES; lia).
  rewrite (proj2 (Z.ltb_ge _ _)) by lia.
  rewrite insert_insert_eq, lookup_insert_eq.
  destruct (drop_z n rem') as [|r rs] eqn:Ed.
  - assert (fs' = []) as -> by (destruct fuel; cbn in El; congruence).
    cbn [is_empty length Nat.sub replicate app feed_all].
    assert (take_z n rem' = rem') as -> by (rewrite <- (take_drop_z n rem') at 2; by rewrite Ed, app_nil_r).
    by rewrite delete_insert_id.
  - cbn [is_empty].
    assert (length (r :: rs) <= fuel)%nat as Hfuel.
    { rewrite <- Ed. unfold drop_z. rewrite length_drop. unfold len in *. lia. }
    rewrite (IH (r :: rs) (buf ++ take_z n rem') (count + 1) fs'); try done.
    + destruct (continuation_loop_total id mfs Hmfs fuel (r :: rs) Hfuel) as (fs2 & Hl2 & _ & Hne2).
      rewrite El in Hl2. injection Hl2 as <-.
      assert (fs' <> []) as Hfs' by (intros Hn; by apply Hne2 in Hn).
      destruct fs' as [|f0 fs']; [done|]. cbn [length Nat.sub]. rewrite Nat.sub_0_r.
      cbn [replicate app]. rewrite <- app_assoc, <- Ed, take_drop_z. done.
    + rewrite len_app, <- Ed, len_drop_z by lia. lia.
    + lia.
    + lia.
Qed.

Lemma continuation_loop_count id mfs : 1 <= mfs -> forall fuel rem fs,
  continuation_loop fuel id mfs rem = Some fs -> len fs * mfs < len rem + mfs.
Proof.
  intros Hmfs. induction fuel as [|fuel IH]; intros rem fs Hl; cbn [continuation_loop] in Hl;
    (destruct rem as [|b rem]; cbn [is_empty] in Hl; [injection Hl as <-; unfold len; simpl; lia|]); [done|].
  set (rem' := b :: rem) in *. set (n := Z.min (len rem') mfs) in *.
  assert (0 < len rem') as Hpos by (unfold rem'; slen).
  destruct (continuation_loop fuel id mfs (drop_z n rem')) as [fs'|] eqn:El; [|done].
  injection Hl as <-. specialize (IH _ _ El). rewrite len_drop_z in IH by lia. rewrite len_cons.
  pose proof (len_nonneg fs'). subst n.
  destruct (Z.min_spec (len rem') mfs) as [[Hlt E]|[Hge E]]; rewrite E in IH.
  - assert (len fs' = 0) as -> by nia. lia.
  - rewrite Z.max_r in IH by lia. lia.
Qed.

Lemma continuation_frames_wf id mfs : stream_wf id -> 1 <= mfs -> forall fuel rem fs,
  is_bytes rem -> continuation_loop fuel id mfs rem = Some fs ->
  Forall (fun f => frame_wf f /\ payload_len f <= mfs) fs.
Proof.
  intros Hid Hmfs. induction fuel as [|fuel IH]; intros rem fs Hb Hl; cbn [continuation_loop] in Hl;
    (destruct rem as [|b rem]; cbn [is_empty] in Hl; [injection Hl as <-; constructor|]); [done|].
  set (rem' := b :: rem) in *. set (n := Z.min (len rem') mfs) in *.
  assert (0 < len rem') as Hpos by (unfold rem'; slen).
  destruct (continuation_loop fuel id mfs (drop_z n rem')) as [fs'|] eqn:El; [|done].
  injection Hl as <-. constructor; [|eapply IH; [|done]; auto with width_db].
  cbn. split; [split; [done|auto with width_db]|]. rewrite len_take_z by lia. lia.
Qed.

Definition opt_prio_wf (p : option PrioritySpec) : Prop :=
  match p with Some p => prio_wf p | None => True end.

Lemma split_headers_spec id mfs prio block es :
  stream_wf id -> 6 <= mfs -> opt_prio_wf prio -> is_bytes block ->
  exists fs, split_headers_block id mfs prio block es = Some fs /\
    Forall (fun f => frame_wf f /\ payload_len f <= mfs) fs /\
    forall a, active_stream a = None -> bufs a !! id = None ->
      len block <= max_header_block_size a -> len block <= 64 * mfs ->
      feed_all fs a = (replicate (length fs - 1) Incomplete ++ [Complete id block es], a).
Proof.
  intros Hid Hmfs Hp Hb. unfold split_headers_block.
  set (ov := match prio with Some _ => 5 | None => 0 end).
  assert (0 <= ov <= 5) as Hov by (subst ov; destruct prio; lia).
  rewrite Z.max_r by lia. destruct (Z.leb_spec (len block) (mfs - ov)) as [Hle|Hgt].
  - eexists. split; [done|]. split; [|done]. constructor; [|constructor]. cbn.
    split; [done|]. subst ov. destruct prio; cbn; lia.
  - destruct (continuation_loop_total id mfs ltac:(lia) (length (drop_z (mfs - ov) block))
      (drop_z (mfs - ov) block) ltac:(lia)) as (fs & Hl & Hfs & Hne).
    rewrite Hl. cbn [mbind option_bind].
    eexists. split; [done|]. split.
    + constructor; [|eapply (continuation_frames_wf id mfs); [done|lia| |done]; auto with width_db].
      cbn. split; [split_and!; auto with width_db|]. rewrite len_take_z by lia.
      subst ov. destruct prio; cbn; lia.
    + intros a Ha Hm Hlim Hcnt. cbn [feed_all feed hf_stream_id hf_header_block hf_end_stream hf_end_headers].
      unfold continuation.push_headers. cbn [length Nat.sub]. rewrite Nat.sub_0_r.
      rewrite (proj2 (Z.ltb_ge _ _)) by (rewrite len_take_z by lia; lia).
      assert (drop_z (mfs - ov) block <> []) as Hdne.
      { intros Hd. apply (f_equal len) in Hd. rewrite len_drop_z in Hd by lia.
        change (len []) with 0 in Hd. lia. }
      pose proof (continuation_loop_count id mfs ltac:(lia) _ _ _ Hl) as Hc.
      rewrite len_drop_z in Hc by lia.
      rewrite (feed_continuations id mfs (max_header_block_size a) (bufs a) es ltac:(lia) Hm _
        (drop_z (mfs - ov) block) (take_z (mfs - ov) block) 0 fs Hdne ltac:(reflexivity) Hl).
      * rewrite take_drop_z. destruct fs as [|f fs]; [by destruct Hdne; apply Hne|].
        cbn [length Nat.sub replicate app]. rewrite Nat.sub_0_r.
        destruct a. cbn in *. by subst.
      * rewrite len_take_z, len_drop_z by lia. lia.
      * lia.
      * pose proof (len_nonneg fs). nia.
Qed.

(** ** Engine invariant, sending side *)

Section send.
Context {D F : Type} `{HpackDecoder D} `{FlowControlPolicy F}.
Implicit Types e : H2Engine D F.

(** What [resolve_priority] reads is in the range of its wire fields. *)
Definition prio_inv e : Prop :=
  opt_prio_wf (e_headers_priority e) /\
  match urgency_weights (e_priority_config e) with Some w => Forall u8 w | None => True end /\
  match e_last_client_stream_id e with Some i => u31 i | None => True end.

Definition engine_inv e : Prop :=
  conn_inv (e_state e) /\ prio_inv e /\
  Codec.max_frame_size (e_codec e) <= MAX_FRAME_SIZE_LIMIT /\
  Forall (fun p => pd_data p <> []) (e_pending_data e).

Lemma resolve_priority_wf rp e : prio_inv e -> opt_prio_wf (resolve_priority rp e).
Proof.
  intros (Hh & Hw & Hl). unfold resolve_priority, weight_for_urgency.
  destruct (urgency_weights (e_priority_config e)) as [w|]; [|done]. cbn [mbind option_bind].
  destruct (w !! _) as [x|] eqn:E; [|done]. split; [|by eapply Forall_lookup_1 in E].
  cbn. destruct (stream_dep_policy _); [width|]. destruct (e_last_client_stream_id e); [done|by vm_compute].
Qed.

Lemma end_stream_local_inv i (s : conn_state.ConnState D) :
  conn_inv s -> conn_inv (end_stream_local i s).
Proof.
  intros Hs. unfold end_stream_local, conn_state.get_stream.
  destruct (conn_state.streams s !! i) as [st|] eqn:E; [|done].
  eapply conn_inv_put; [done|done| |].
  - pose proof (conn_inv_stream _ _ _ Hs E). unfold stream.send_end_stream. by destruct (stream.state st).
  - unfold stream.send_end_stream. by destruct (stream.state st).
Qed.

Lemma end_stream_local_frame i (s : conn_state.ConnState D) :
  conn_state.hpack_encoder (end_stream_local i s) = conn_state.hpack_encoder s /\
  conn_state.remote_settings (end_stream_local i s) = conn_state.remote_settings s /\
  conn_state.send_window (end_stream_local i s) = conn_state.send_window s.
Proof. unfold end_stream_local. by destruct (conn_state.get_stream i s). Qed.

(** The encoding policy in force. *)
Definition policy_of e : HpackEncodePolicy := default hpack_enc.default_encoding (e_hpack_policy e).

(** [build_headers] in one equation. *)
Lemma build_headers_spec id hs es rp e :
  engine_inv e -> stream_wf id -> Forall (fun h => is_bytes h.1 /\ is_bytes h.2) hs ->
  exists block enc fs e',
    hpack_enc.encode_with_policy hs (policy_of e) (conn_state.hpack_encoder (e_state e)) = Some (enc, block) /\
    is_bytes block /\
    split_headers_block id (ConnState.max_frame_size (conn_state.remote_settings (e_state e)))
      (resolve_priority rp e) block es = Some fs /\
    build_headers id hs es rp e = Some (fs, e') /\
    engine_inv e' /\ conn_state.hpack_encoder (e_state e') = enc /\
    e_pending_data e' = e_pending_data e /\ e_last_client_stream_id e' = Some id /\
    conn_state.remote_settings (e_state e') = conn_state.remote_settings (e_state e) /\
    conn_state.send_window (e_state e') = conn_state.send_window (e_state e).
Proof.
  intros (Hc & Hp & Hcodec & Hpend) Hid Hhs.
  destruct (encode_headers_spec hs (policy_of e) (e_state e) Hc Hhs) as (block & enc & He & Hb & Henc & Hraw).
  pose proof (resolve_priority_wf rp e Hp) as Hprio.
  pose proof Hc as ((_ & _ & Hmfs) & _).
  destruct (split_headers_spec id (ConnState.max_frame_size (conn_state.remote_settings (e_state e)))
    (resolve_priority rp e) block es Hid ltac:(lia) Hprio Hb) as (fs & Hfs & _).
  set (s1 := conn_state.with_encoder enc (e_state e)) in *.
  set (s2 := if es then end_stream_local id s1 else s1).
  exists block, enc, fs, (with_last_client_stream_id (Some id) (with_state s2 e)).
  assert (conn_inv s1) as Hs1 by by apply conn_inv_encoder.
  assert (conn_inv s2) as Hs2 by (subst s2; destruct es; [by apply end_stream_local_inv|done]).
  assert (conn_state.hpack_encoder s2 = enc /\
    conn_state.remote_settings s2 = conn_state.remote_settings (e_state e) /\
    conn_state.send_window s2 = conn_state.send_window (e_state e)) as (H1 & H2 & H3).
  { subst s2. destruct es; [|done]. destruct (end_stream_local_frame id s1) as (-> & -> & ->). done. }
  split_and!; try done.
  - unfold build_headers.
    replace (match e_hpack_policy e with
             | Some policy => conn_state.encode_headers_with_policy hs policy (e_state e)
             | None => conn_state.encode_headers hs (e_state e)
             end) with (Some (block, s1)).
    + cbn [mbind option_bind]. change (conn_state.remote_settings s1) with (conn_state.remote_settings (e_state e)).
      rewrite Hfs. done.
    + rewrite <- He. unfold policy_of. destruct (e_hpack_policy e); [done|]. by rewrite encode_headers_default.
  - split; [done|]. split; [|done]. destruct Hp as (? & ? & _). split_and!; try done. by destruct Hid.
Qed.

(** ** Bodies *)

Definition mfs_of e : Z := ConnState.max_frame_size (conn_state.remote_settings (e_state e)).

(** What can be sent on a stream now. *)
Definition window_of id e : Z :=
  Z.min (conn_state.send_window_available (e_state e)) (stream_avail id e).

(** The parts of the state a body on stream [id] does not touch. *)
Definition same_but id e e' : Prop :=
  conn_state.remote_settings (e_state e') = conn_state.remote_settings (e_state e) /\
  conn_state.hpack_encoder (e_state e') = conn_state.hpack_encoder (e_state e) /\
  conn_state.recv_window (e_state e') = conn_state.recv_window (e_state e) /\
  forall j, j <> id -> conn_state.streams (e_state e') !! j = conn_state.streams (e_state e) !! j.

Lemma same_but_trans id e1 e2 e3 : same_but id e1 e2 -> same_but id e2 e3 -> same_but id e1 e3.
Proof.
  intros (A1 & B1 & C1 & H1) (A2 & B2 & C2 & H2). split_and!; try congruence.
  intros j Hj. by rewrite H2, H1.
Qed.

Lemma window_of_stream id e : window_of id e <> 0 -> engine_inv e ->
  exists st, conn_state.streams (e_state e) !! id = Some st /\ 0 < stream.send_window st /\
    stream_avail id e = stream.send_window st /\ 0 < window_of id e.
Proof.
  intros Hw (Hc & _). pose proof Hc as (_ & _ & _ & _ & Hs & _).
  unfold window_of, stream_avail, conn_state.send_window_available in *. unfold conn_state.get_stream in *.
  destruct (conn_state.streams (e_state e) !! id) as [st|]; [|lia].
  exists st. unfold stream.send_window_available in *. split; [done|]. lia.
Qed.

Lemma consume_windows_spec id n e :
  engine_inv e -> 0 < n <= window_of id e -> n < 4294967296 ->
  let e' := consume_windows id n e in
  engine_inv e' /\ same_but id e e' /\ e_pending_data e' = e_pending_data e /\
  conn_state.send_window (e_state e') = conn_state.send_window (e_state e) - n /\
  stream_avail id e' = stream_avail id e - n.
Proof.
  intros Hinv Hn Hn32 e'. destruct (window_of_stream id e ltac:(lia) Hinv) as (st & Hst & Hpos & Hav & _).
  pose proof Hinv as (Hc & Hp & Hcodec & Hpend). pose proof Hc as (_ & _ & _ & _ & Hs & _).
  unfold window_of, conn_state.send_window_available in Hn. rewrite Hav in Hn.
  subst e'. unfold consume_windows. rewrite as_u32_small by (unfold u32; lia).
  destruct (conn_consume_send_spec n (e_state e) Hc ltac:(unfold u32; lia)) as [-> Hc1].
  rewrite Z.min_l in * by lia. cbn [snd].
  unfold conn_state.get_stream. cbn [conn_state.with_send_window conn_state.streams]. rewrite Hst.
  pose proof (conn_inv_stream _ _ _ Hc Hst) as Hsti.
  destruct (consume_send_spec n st Hsti ltac:(unfold u32; lia)) as [-> Hsti'].
  cbn [snd]. rewrite (Z.max_l (stream.send_window st)), (Z.min_l n) in * by lia.
  split; [|split; [|split; [done|split; [done|]]]].
  - split; [|done]. cbn [with_state e_state]. eapply conn_inv_put; [done|exact Hst|done|done].
  - do 3 (split; [done|]). intros j Hj. cbn. by rewrite lookup_insert_ne.
  - rewrite Hav. unfold stream_avail, conn_state.get_stream, stream.send_window_available. cbn.
    rewrite lookup_insert_eq. cbn. lia.
Qed.

Lemma end_local_spec id e :
  engine_inv e ->
  let e' := with_state (end_stream_local id (e_state e)) e in
  engine_inv e' /\ same_but id e e' /\ e_pending_data e' = e_pending_data e /\
  conn_state.send_window (e_state e') = conn_state.send_window (e_state e) /\
  stream_avail id e' = stream_avail id e.
Proof.
  intros (Hc & Hp & Hcodec & Hpend) e'. subst e'. cbn [with_state e_state e_pending_data].
  split; [split; [by apply end_stream_local_inv|done]|].
  unfold same_but, stream_avail, end_stream_local, conn_state.get_stream. cbn [with_state e_state].
  destruct (conn_state.streams (e_state e) !! id) as [st|] eqn:E; [|rewrite E; split_and!; done].
  cbn. rewrite lookup_insert_eq. split; [|split; [done|split; [done|]]].
  - do 3 (split; [done|]). intros j Hj. by rewrite lookup_insert_ne.
  - unfold stream.send_end_stream. by destruct (stream.state st).
Qed.

Definition body (f : H2Frame) : bytes := match f with FData d => df_data d | _ => [] end.
Definition bodies (fs : list H2Frame) : bytes := mjoin (body <$> fs).

(** A DATA frame of the stream within the frame size, with a given END_STREAM. *)
Definition data_ok (id mfs : Z) (es : bool) (f : H2Frame) : Prop :=
  exists b, f = FData (mkData id b es None) /\ 0 < len b <= mfs.

(** A body that was sent: [es] is on the last frame and on no other. *)
Definition sent_whole (id mfs : Z) (es : bool) (fs : list H2Frame) : Prop :=
  exists fs0 f, fs = fs0 ++ [f] /\ Forall (data_ok id mfs false) fs0 /\ data_ok id mfs es f.

(** The state after frames for stream [id] went out. *)
Definition paid id (fs : list H2Frame) e e' : Prop :=
  engine_inv e' /\ same_but id e e' /\
  conn_state.send_window (e_state e') = conn_state.send_window (e_state e) - len (bodies fs) /\
  stream_avail id e' = stream_avail id e - len (bodies fs) /\
  (fs <> [] -> len (bodies fs) <= window_of id e).

Definition data_post id (data : bytes) (es : bool) e (fs : list H2Frame) (early : bool) e' : Prop :=
  paid id fs e e' /\
  if early then
    exists tl, tl <> [] /\ data = bodies fs ++ tl /\ Forall (data_ok id (mfs_of e) false) fs /\
      e_pending_data e' = e_pending_data e ++ [mkPending id tl es] /\ window_of id e' = 0
  else
    data = bodies fs /\ e_pending_data e' = e_pending_data e /\
    (data = [] /\ fs = [] \/ sent_whole id (mfs_of e) es fs).

Lemma same_but_refl id e : same_but id e e.
Proof. by split_and!. Qed.

Lemma paid_nil id e : engine_inv e -> paid id [] e e.
Proof. intros He. split; [done|]. split; [apply same_but_refl|]. unfold bodies; cbn; rewrite (@len_nil Z), !Z.sub_0_r. done. Qed.

Lemma bodies_cons f fs : bodies (f :: fs) = body f ++ bodies fs.
Proof. done. Qed.
Lemma bodies_app fs gs : bodies (fs ++ gs) = bodies fs ++ bodies gs.
Proof. unfold bodies. by rewrite fmap_app, join_app. Qed.

(** One frame, then the rest. *)
Lemma paid_cons id f fs e e1 e2 :
  engine_inv e -> 0 <= window_of id e ->
  conn_state.send_window (e_state e1) = conn_state.send_window (e_state e) - len (body f) ->
  stream_avail id e1 = stream_avail id e - len (body f) ->
  len (body f) <= window_of id e ->
  same_but id e e1 -> paid id fs e1 e2 -> paid id (f :: fs) e e2.
Proof.
  intros He Hw0 Hs Ha Hle Hsb (Hi & Hsb' & Hs' & Ha' & Hw).
  assert (len (bodies (f :: fs)) = len (body f) + len (bodies fs)) as Hl
    by by rewrite bodies_cons, len_app.
  split; [done|]. split; [by eapply same_but_trans|]. rewrite Hl. split; [lia|]. split; [lia|].
  intros _. destruct fs as [|g fs]; [change (len (bodies [])) with 0; lia|].
  specialize (Hw ltac:(done)). unfold window_of in *.
  unfold conn_state.send_window_available in *. lia.
Qed.

Lemma window_of_nonneg id e : 0 <= window_of id e.
Proof.
  unfold window_of, conn_state.send_window_available, stream_avail.
  destruct (conn_state.get_stream id (e_state e)); unfold stream.send_window_available; lia.
Qed.

Lemma sent_whole_cons id mfs es f fs :
  data_ok id mfs false f -> sent_whole id mfs es fs -> sent_whole id mfs es (f :: fs).
Proof. intros Hf (fs0 & g & -> & Hfs & Hg). exists (f :: fs0), g. split_and!; [done|by constructor|done]. Qed.

(** A used-up window: the rest is put aside. *)
Lemma data_post_blocked id es rem e :
  engine_inv e -> rem <> [] -> window_of id e = 0 ->
  data_post id rem es e [] true (with_pending_data (e_pending_data e ++ [mkPending id rem es]) e).
Proof.
  intros (Hc & Hp & Hcodec & Hpend) Hrem Hw. split.
  - split; [split_and!; try done; cbn; apply Forall_app; split; [done|by constructor; [|constructor]]|].
    split; [by split_and!|]. unfold bodies; cbn; rewrite (@len_nil Z), !Z.sub_0_r. done.
  - exists rem. split_and!; try done; constructor.
Qed.

(** One chunk of [n] bytes, paid for, in front of what follows. *)
Lemma data_post_step id es rem n e e2 fs early e3 :
  engine_inv e -> 0 < n <= window_of id e -> n <= len rem -> n <= mfs_of e -> same_but id e e2 ->
  e_pending_data e2 = e_pending_data e ->
  conn_state.send_window (e_state e2) = conn_state.send_window (e_state e) - n ->
  stream_avail id e2 = stream_avail id e - n ->
  data_post id (drop_z n rem) es e2 fs early e3 ->
  data_post id rem es e (FData (mkData id (take_z n rem) (es && is_empty (drop_z n rem)) None) :: fs) early e3.
Proof.
  intros He Hn Hnl Hnm Hsb Hpd2 Hs2 Ha2 [Hpaid Hpost]. set (fes := es && is_empty (drop_z n rem)).
  pose proof (window_of_nonneg id e) as Hwn.
  assert (len (take_z n rem) = n) as Hlt by (rewrite len_take_z by lia; lia).
  assert (mfs_of e2 = mfs_of e) as Hme by (unfold mfs_of; by destruct Hsb as (-> & _)).
  assert (fes = true -> drop_z n rem = []) as Hfes.
  { subst fes. destruct es; [|done]. by destruct (drop_z n rem). }
  split; [eapply (paid_cons id _ fs e e2); try done; cbn [body df_data]; rewrite Hlt; lia|].
  destruct early.
  - destruct Hpost as (tl & Htl & Hd & Hfs & Hpd & Hw). exists tl. split; [done|].
    assert (fes = false) as ->.
    { destruct fes; [|done]. rewrite Hfes in Hd by done. by destruct (bodies fs), tl. }
    split; [rewrite bodies_cons, <- app_assoc, <- Hd; cbn [body df_data]; by rewrite take_drop_z|].
    rewrite Hme in Hfs. split; [constructor; [|done]; eexists; split; [done|lia]|].
    split; [congruence|done].
  - destruct Hpost as (Hd & Hpd & Hcase). rewrite Hme in Hcase.
    split; [rewrite bodies_cons, <- Hd; cbn [body df_data]; by rewrite take_drop_z|]. split; [congruence|]. right.
    destruct Hcase as [[Hd0 ->]|Hw].
    + exists [], (FData (mkData id (take_z n rem) fes None)). split; [done|]. split; [constructor|].
      eexists. split; [|rewrite Hlt; lia]. subst fes. rewrite Hd0. by rewrite andb_true_r.
    + apply sent_whole_cons; [|done]. exists (take_z n rem). split; [|lia].
      assert (fes = false) as ->; [|done]. destruct fes; [|done].
      destruct Hw as (fs0 & g & -> & _ & (c & -> & Hc)). rewrite Hfes in Hd by done.
      apply (f_equal len) in Hd. rewrite bodies_app, len_app, (bodies_cons _ []), len_app in Hd.
      pose proof (len_nonneg (bodies fs0)). change (bodies []) with (@nil Z) in Hd.
      rewrite !(@len_nil Z) in Hd. cbn [body df_data] in Hd. lia.
Qed.

Lemma data_loop_spec id es : forall fuel rem e,
  engine_inv e -> (length rem <= fuel)%nat ->
  exists fs early e', data_loop fuel id rem es e = Some (fs, early, e') /\
    data_post id rem es e fs early e'.
Proof.
  induction fuel as [|fuel IH]; intros rem e He Hf; (destruct rem as [|b rem];
    [exists [], false, e; split; [done|]; split; [by apply paid_nil|]; split; [done|]; split; [done|]; by left|]).
  { simpl in Hf. lia. }
  cbn [data_loop is_empty]. set (rem' := b :: rem) in *.
  assert (0 < len rem') as Hpos by (unfold rem'; slen).
  fold (window_of id e). fold (mfs_of e).
  destruct (Z.eqb_spec (window_of id e) 0) as [Hw0|Hw0].
  { eexists [], true, _. split; [done|]. by apply data_post_blocked. }
  pose proof (window_of_nonneg id e) as Hwn.
  assert (16384 <= mfs_of e <= 16777215) as Hmfs by (by destruct He as (((_ & _ & ?) & _) & _)).
  set (n := Z.min (Z.min (len rem') (mfs_of e)) (window_of id e)).
  assert (0 < n <= window_of id e /\ n <= len rem' /\ n <= mfs_of e) as (Hn & Hnl & Hnm) by lia.
  destruct (consume_windows_spec id n e He Hn ltac:(lia)) as (He1 & Hsb1 & Hpd1 & Hs1 & Ha1).
  set (e1 := consume_windows id n e) in *. set (fes := es && is_empty (drop_z n rem')).
  set (e2 := if fes then with_state (end_stream_local id (e_state e1)) e1 else e1).
  assert (engine_inv e2 /\ same_but id e1 e2 /\ e_pending_data e2 = e_pending_data e1 /\
    conn_state.send_window (e_state e2) = conn_state.send_window (e_state e1) /\
    stream_avail id e2 = stream_avail id e1) as (He2 & Hsb2 & Hpd2 & Hs2 & Ha2).
  { subst e2. destruct fes; [by apply end_local_spec|]. split; [done|]. split; [apply same_but_refl|done]. }
  destruct (IH (drop_z n rem') e2 He2) as (fs & early & e3 & -> & Hpost).
  { unfold drop_z. rewrite length_drop. unfold len in *. lia. }
  cbn [mbind option_bind]. eexists _, early, e3. split; [done|].
  apply (data_post_step id es rem' n e e2); [done|done|done|done|by eapply same_but_trans|congruence|lia|lia|done].
Qed.

(** [build_data]: everything is sent, or the rest is put aside because a window
    is exhausted; an empty body with END_STREAM is one empty frame. *)
Definition build_post id (data : bytes) (es : bool) e (fs : list H2Frame) e' : Prop :=
  paid id fs e e' /\
  ((exists tl, tl <> [] /\ data = bodies fs ++ tl /\ Forall (data_ok id (mfs_of e) false) fs /\
      e_pending_data e' = e_pending_data e ++ [mkPending id tl es] /\ window_of id e' = 0) \/
   (data = bodies fs /\ e_pending_data e' = e_pending_data e /\
      (sent_whole id (mfs_of e) es fs \/
       data = [] /\ fs = if es then [FData (mkData id [] true None)] else []))).

Lemma build_data_spec id data es e :
  engine_inv e -> exists fs e', build_data id data es e = Some (fs, e') /\ build_post id data es e fs e'.
Proof.
  intros He. unfold build_data.
  destruct (data_loop_spec id es (length data) data e He ltac:(lia)) as (fs & early & e' & -> & Hpaid & Hpost).
  cbn [mbind option_bind]. destruct early; cbn [negb andb].
  { eexists _, _. split; [done|]. split; [done|]. by left. }
  destruct Hpost as (Hd & Hpd & [[-> ->]|Hw]).
  - cbn [is_empty andb]. destruct es.
    + destruct Hpaid as (He' & Hsb & Hs & Ha & _).
      destruct (end_local_spec id e' He') as (He2 & Hsb2 & Hpd2 & Hs2 & Ha2).
      eexists _, _. split; [done|]. split.
      * split; [done|]. split; [by eapply same_but_trans|]. rewrite Hs2, Ha2, Hs, Ha.
        split; [done|]. split; [done|]. intros _. apply window_of_nonneg.
      * right. split; [done|]. split; [congruence|]. by right.
    + eexists _, _. split; [done|]. split; [done|]. right. split; [done|]. split; [done|]. by right.
  - assert (is_empty fs = false) as -> by (destruct Hw as ([|] & ? & -> & _); done).
    eexists _, _. split; [done|]. split; [done|]. right. split; [done|]. split; [done|]. by left.
Qed.

(** ** Draining what flow control held back *)

(** The bytes of one stream among frames, and among held-back items. *)
Definition stream_bytes id (fs : list H2Frame) : bytes :=
  mjoin ((fun f => if decide (Frame.stream_id f = id) then body f else []) <$> fs).
Definition pending_bytes id (ps : list PendingBodyData) : bytes :=
  mjoin ((fun p => if decide (pd_stream_id p = id) then pd_data p else []) <$> ps).

Lemma stream_bytes_app id fs gs : stream_bytes id (fs ++ gs) = stream_bytes id fs ++ stream_bytes id gs.
Proof. unfold stream_bytes. by rewrite fmap_app, join_app. Qed.
Lemma pending_bytes_app id ps qs : pending_bytes id (ps ++ qs) = pending_bytes id ps ++ pending_bytes id qs.
Proof. unfold pending_bytes. by rewrite fmap_app, join_app. Qed.
Lemma pending_bytes_one id j tl es : pending_bytes id [mkPending j tl es] = if decide (j = id) then tl else [].
Proof. unfold pending_bytes. cbn. by rewrite app_nil_r. Qed.

(** All frames [build_data] returns are of its stream. *)
Lemma build_post_stream id data es e fs e' :
  build_post id data es e fs e' ->
  forall j, stream_bytes j fs = if decide (id = j) then bodies fs else [].
Proof.
  intros (_ & Hc) j. assert (Forall (fun f => Frame.stream_id f = id) fs) as Hall.
  { destruct Hc as [(tl & _ & _ & Hfs & _)|(_ & _ & [(fs0 & f & -> & Hfs & (b & -> & _))|[_ ->]])].
    - eapply Forall_impl; [exact Hfs|]. by intros ? (? & -> & _).
    - apply Forall_app. split; [|by constructor].
      eapply Forall_impl; [exact Hfs|]. by intros ? (? & -> & _).
    - destruct es; by repeat constructor. }
  clear Hc. induction Hall as [|f fs Hf _ IH]; [by destruct (decide _)|].
  change (stream_bytes j (f :: fs)) with
    ((if decide (Frame.stream_id f = j) then body f else []) ++ stream_bytes j fs).
  rewrite bodies_cons, IH, Hf. by destruct (decide (id = j)).
Qed.

Lemma paid_window id fs e e' j : paid id fs e e' -> window_of j e' <= window_of j e.
Proof.
  intros (_ & (_ & _ & _ & Hsb) & Hs & Ha & _). pose proof (len_nonneg (bodies fs)).
  unfold window_of, conn_state.send_window_available.
  destruct (decide (j = id)) as [->|Hj]; [lia|].
  assert (stream_avail j e' = stream_avail j e) as ->
    by (unfold stream_avail, conn_state.get_stream; by rewrite Hsb). lia.
Qed.

Lemma build_post_total id data es e fs e' :
  build_post id data es e fs e' ->
  exists new, e_pending_data e' = e_pending_data e ++ new /\
    (forall j, stream_bytes j fs ++ pending_bytes j new = if decide (id = j) then data else []) /\
    (forall j, window_of j e = 0 -> stream_bytes j fs = []) /\
    (forall j, pending_bytes j new <> [] -> window_of j e' = 0).
Proof.
  intros Hp. pose proof (build_post_stream _ _ _ _ _ _ Hp) as Hsb. pose proof Hp as (Hpaid & Hc).
  assert (forall j, window_of j e = 0 -> stream_bytes j fs = []) as Hblocked.
  { intros j Hj. rewrite Hsb. destruct (decide (id = j)) as [->|]; [|done].
    destruct Hpaid as (_ & _ & _ & _ & Hw). destruct fs as [|f fs]; [done|].
    specialize (Hw ltac:(done)). apply len_0_nil. pose proof (len_nonneg (bodies (f :: fs))). lia. }
  destruct Hc as [(tl & Htl & Hd & _ & Hpd & Hw)|(Hd & Hpd & _)].
  - exists [mkPending id tl es]. split; [done|]. split_and!; [|done|].
    + intros j. rewrite Hsb, pending_bytes_one, Hd. by destruct (decide _).
    + intros j. rewrite pending_bytes_one. by destruct (decide (id = j)) as [->|].
  - exists []. rewrite app_nil_r. split; [done|]. split_and!; [|done|done].
    intros j. rewrite Hsb, Hd. unfold pending_bytes. cbn. rewrite app_nil_r. by destruct (decide _).
Qed.

Lemma drain_loop_spec ps : forall e,
  engine_inv e ->
  exists fs e' new, drain_loop ps e = Some (fs, e') /\ engine_inv e' /\
    e_pending_data e' = e_pending_data e ++ new /\
    (forall j, stream_bytes j fs ++ pending_bytes j new = pending_bytes j ps) /\
    (forall j, window_of j e' <= window_of j e) /\
    (forall j, window_of j e = 0 -> stream_bytes j fs = []) /\
    (forall j, pending_bytes j new <> [] -> window_of j e' = 0).
Proof.
  induction ps as [|p ps IH]; intros e He; cbn [drain_loop].
  { exists [], e, []. rewrite app_nil_r. by split_and!. }
  destruct (build_data_spec (pd_stream_id p) (pd_data p) (pd_end_stream p) e He) as (fs1 & e1 & -> & Hpost).
  pose proof Hpost as (Hpaid & _). pose proof Hpaid as (He1 & _).
  destruct (build_post_total _ _ _ _ _ _ Hpost) as (new1 & Hpd1 & Hb1 & Hbl1 & Hz1).
  cbn [mbind option_bind].
  destruct (IH e1 He1) as (fs2 & e2 & new2 & -> & He2 & Hpd2 & Hb2 & Hw2 & Hbl2 & Hz2).
  cbn [mbind option_bind]. exists (fs1 ++ fs2), e2, (new1 ++ new2).
  pose proof (fun j => paid_window _ _ _ _ j Hpaid) as Hw1.
  pose proof (fun j => window_of_nonneg j e2) as Hnn.
  split_and!; try done.
  - by rewrite Hpd2, Hpd1, app_assoc.
  - intros j. rewrite stream_bytes_app, pending_bytes_app.
    change (pending_bytes j (p :: ps)) with
      ((if decide (pd_stream_id p = j) then pd_data p else []) ++ pending_bytes j ps).
    rewrite <- Hb1, <- Hb2. destruct (pending_bytes j new1) as [|x xs] eqn:E.
    + cbn [app]. by rewrite !app_nil_r, <- app_assoc.
    + rewrite Hbl2 by (apply Hz1; by rewrite E). by rewrite <- !app_assoc.
  - intros j. specialize (Hw1 j). specialize (Hw2 j). lia.
  - intros j Hj. rewrite stream_bytes_app, Hbl1, Hbl2; [done| |done].
    specialize (Hw1 j). pose proof (window_of_nonneg j e1). lia.
  - intros j Hj. rewrite pending_bytes_app in Hj.
    destruct (pending_bytes j new1) as [|x xs] eqn:E; [by apply Hz2|].
    specialize (Hz1 j ltac:(by rewrite E)). specialize (Hw2 j). specialize (Hnn j). lia.
Qed.

Lemma drain_spec e :
  engine_inv e ->
  exists fs e', drain_pending_data e = Some (fs, e') /\ engine_inv e' /\
    (forall j, stream_bytes j fs ++ pending_bytes j (e_pending_data e') = pending_bytes j (e_pending_data e)) /\
    (forall j, pending_bytes j (e_pending_data e') <> [] -> window_of j e' = 0).
Proof.
  intros He. unfold drain_pending_data.
  destruct (drain_loop_spec (e_pending_data e) (with_pending_data [] e)) as
    (fs & e' & new & -> & He' & Hpd & Hb & _ & _ & Hz).
  { destruct He as (? & ? & ? & _). by split_and!. }
  cbn [with_pending_data e_pending_data app] in Hpd. exists fs, e'. rewrite Hpd. done.
Qed.

End send.

(** ** A fresh engine satisfies the invariant *)

Definition profile_ok (p : H2Profile) : Prop :=
  Forall (fun s => u32 (hs_value s)) (settings p) /\ u32 (window_update p) /\
  opt_prio_wf (to_headers_priority_spec p) /\
  match urgency_weights (priority_config p) with Some w => Forall u8 w | None => True end.

Lemma client_engine_inv {D F} `{HpackDecoder D} `{FlowControlPolicy F} p (fc : F) pol :
  profile_ok p -> engine_inv (client_with_policies (D := D) p fc pol).1.
Proof.
  intros (Hs & Hw & Hp & Hu). split_and!.
  - cbn [client_with_policies fst e_state].
    set (s0 := conn_state.apply_profile_settings (settings p) conn_state.client).
    assert (conn_inv s0) as H0'.
    { subst s0. apply apply_profile_inv; [apply conn_inv_new|done]. }
    destruct (0 <? window_update p); [|done].
    pose proof (conn_update_recv_spec (window_update p) s0 H0' Hw) as Hspec.
    destruct (decide _); [by destruct Hspec as [-> ?]|by destruct Hspec as [? ->]].
  - split_and!; done.
  - cbn [client_with_policies fst e_codec].
    destruct (find_setting _ _); [|done]. unfold set_max_frame_size, DEFAULT_MAX_FRAME_SIZE, MAX_FRAME_SIZE_LIMIT. cbn [Codec.max_frame_size]. lia.
  - constructor.
Qed.

(** ** Claims *)

(** C19. A request's header block reaches the peer exactly, through every layer:
    [build_headers] always returns; the frames decode from their bytes under any
    codec that admits the peer's frame size; the peer's CONTINUATION assembler
    completes with the whole block, the right stream and END_STREAM flag, and is
    idle again; and an RFC 7541 decoder in step with our encoder reads the exact
    header list and stays in step. *)
Theorem request_headers_reach_peer {D F : Type} `{HpackDecoder D} `{FlowControlPolicy F}
    (id : Z) (hs : list (bytes * bytes)) (es : bool) (rp : option RequestPriority)
    (e : H2Engine D F) (c : H2Codec) (d : Rfc7541.Decoder) (limit : Z) :
  engine_inv e -> stream_wf id -> Forall (fun h => is_bytes h.1 /\ is_bytes h.2) hs ->
  in_sync (conn_state.hpack_encoder (e_state e)) d ->
  table.max_size (hpack_enc.dynamic (conn_state.hpack_encoder (e_state e))) <= limit ->
  mfs_of e <= Codec.max_frame_size c <= MAX_FRAME_SIZE_LIMIT ->
  exists fs e' block d', build_headers id hs es rp e = Some (fs, e') /\ engine_inv e' /\
    decodes c (CodecProps.encode_frames fs []) fs [] /\
    (forall a, active_stream a = None -> bufs a !! id = None ->
       len block <= max_header_block_size a -> len block <= 64 * mfs_of e ->
       feed_all fs a = (replicate (length fs - 1) Incomplete ++ [Complete id block es], a)) /\
    Rfc7541.decode limit d block = Some (hs, d') /\
    in_sync (conn_state.hpack_encoder (e_state e')) d'.
Proof.
  intros He Hid Hhs Hsync Hlim Hc.
  destruct (build_headers_spec id hs es rp e He Hid Hhs)
    as (block & enc & fs & e' & Henc & Hb & Hsplit & Hbuild & He' & Henc' & _).
  destruct (encode_block_sync limit (policy_of e) hs _ d Hsync Hlim Hhs)
    as (enc2 & block2 & d' & Henc2 & _ & Hdec & Hsync' & _).
  rewrite Henc in Henc2. injection Henc2 as <- <-.
  pose proof He as (((_ & _ & Hmfs) & _) & Hp & _).
  destruct (split_headers_spec id (mfs_of e) (resolve_priority rp e) block es Hid
    ltac:(unfold mfs_of; lia) (resolve_priority_wf rp e Hp) Hb) as (fs2 & Hsplit2 & Hwf & Hfeed).
  unfold mfs_of in Hsplit2. rewrite Hsplit in Hsplit2. injection Hsplit2 as <-.
  exists fs, e', block, d'. split; [done|]. split; [done|]. split.
  - rewrite <- (app_nil_r (CodecProps.encode_frames fs [])). apply decodes_encode; [lia|].
    eapply Forall_impl; [exact Hwf|]. intros f [? ?]. split; [done|]. lia.
  - split; [done|]. split; [done|]. by rewrite Henc'.
Qed.

(** The engine of the witnesses: a Firefox client with one stream open. *)
Definition demo_engine : H2Engine RefDecoder ImmediateFlowControl :=
  (open_stream (client_with_policies firefox_147_h2 mkImmediate (Some FirefoxHpackPolicy)).1).2.

Lemma demo_engine_inv : engine_inv demo_engine.
Proof.
  assert (engine_inv (client_with_policies (D := RefDecoder) firefox_147_h2 mkImmediate
    (Some FirefoxHpackPolicy)).1) as He.
  { apply client_engine_inv. split_and!; try done; repeat constructor; by vm_compute. }
  destruct He as (Hc & Hp & Hcodec & Hpd). split; [|split; [exact Hp|split; [exact Hcodec|exact Hpd]]].
  exact (proj1 (proj2 (open_stream_spec _ Hc))).
Qed.

Lemma request_headers_reach_peer_witness :
  let hs := [(ascii_bytes ":method", ascii_bytes "GET"); (ascii_bytes "x-a", ascii_bytes "1")] in
  exists fs e' block d', build_headers 1 hs true None demo_engine = Some (fs, e') /\ engine_inv e' /\
    decodes codec_new (CodecProps.encode_frames fs []) fs [] /\
    (forall a, active_stream a = None -> bufs a !! 1 = None ->
       len block <= max_header_block_size a -> len block <= 64 * mfs_of demo_engine ->
       feed_all fs a = (replicate (length fs - 1) Incomplete ++ [Complete 1 block true], a)) /\
    Rfc7541.decode 4096 (Rfc7541.new 4096) block = Some (hs, d') /\
    in_sync (conn_state.hpack_encoder (e_state e')) d'.
Proof.
  apply (request_headers_reach_peer 1 _ true None demo_engine codec_new (Rfc7541.new 4096) 4096).
  - exact demo_engine_inv.
  - by vm_compute.
  - repeat constructor; by vm_compute.
  - by apply (new_in_sync 4096).
  - by vm_compute.
  - by vm_compute.
Defined.

Lemma data_flags id mfs fs es :
  Forall (data_ok id mfs es) fs -> Frame.is_end_stream <$> fs = replicate (length fs) es.
Proof. induction 1 as [|f fs (b & -> & _) _ IH]; [done|]. cbn. by f_equal. Qed.

(** C28. Sending a body always returns and accounts for every byte: the bodies of
    the DATA frames followed by the part put aside are the data; each frame fits
    the peer's frame size; the bytes sent fit both windows and are charged to
    both; something is put aside only when a window is exhausted; and END_STREAM
    is on the last frame of a complete body and nowhere else. *)
Theorem body_sent_exactly {D F : Type} `{HpackDecoder D} `{FlowControlPolicy F}
    (id : Z) (data : bytes) (es : bool) (e : H2Engine D F) :
  engine_inv e ->
  exists fs rest e', build_data id data es e = Some (fs, e') /\ engine_inv e' /\
    data = bodies fs ++ rest /\
    Forall (fun f => exists b l, f = FData (mkData id b l None) /\ len b <= mfs_of e) fs /\
    len (bodies fs) <= window_of id e /\
    conn_state.send_window (e_state e') = conn_state.send_window (e_state e) - len (bodies fs) /\
    stream_avail id e' = stream_avail id e - len (bodies fs) /\
    e_pending_data e' = e_pending_data e ++ (if is_empty rest then [] else [mkPending id rest es]) /\
    (rest <> [] -> window_of id e' = 0) /\
    Frame.is_end_stream <$> fs =
      (if is_empty rest then if is_empty fs then [] else replicate (length fs - 1) false ++ [es]
       else replicate (length fs) false).
Proof.
  intros He. destruct (build_data_spec id data es e He) as (fs & e' & Hb & Hpaid & Hcase).
  pose proof Hpaid as (He' & _ & Hs & Ha & Hw).
  assert (len (bodies fs) <= window_of id e) as Hwin.
  { destruct fs; [apply window_of_nonneg|by apply Hw]. }
  assert (0 <= mfs_of e) as Hmfs by (destruct He as (((_ & _ & ?) & _) & _); unfold mfs_of; lia).
  assert (forall l fs, Forall (data_ok id (mfs_of e) l) fs ->
    Forall (fun f => exists b l, f = FData (mkData id b l None) /\ len b <= mfs_of e) fs) as Hshape.
  { intros l fs0 H'. eapply Forall_impl; [exact H'|]. intros f (b & -> & Hb'). exists b, l. split; [done|lia]. }
  destruct Hcase as [(tl & Htl & Hd & Hfs & Hpd & Hz)|(Hd & Hpd & Hc)].
  - exists fs, tl, e'. split_and!; try done; [by eapply Hshape|by destruct tl|].
    rewrite (data_flags _ _ _ _ Hfs). by destruct tl.
  - exists fs, [], e'. rewrite !app_nil_r. split_and!; try done.
    + destruct Hc as [(fs0 & f & -> & Hfs & Hf)|[_ ->]].
      * apply Forall_app. split; [by eapply Hshape|]. eapply Hshape. by constructor; [|constructor].
      * destruct es; [|constructor]. constructor; [|constructor]. eexists _, _. split; [done|].
        by rewrite (@len_nil Z).
    + cbn [is_empty]. destruct Hc as [(fs0 & f & -> & Hfs & Hf)|[_ ->]]; [|by destruct es].
      rewrite fmap_app, (data_flags _ _ _ _ Hfs). destruct Hf as (b & -> & _).
      rewrite length_app. cbn [length]. replace (length fs0 + 1 - 1)%nat with (length fs0) by lia.
      by destruct fs0.
Qed.

Lemma body_sent_exactly_witness :
  exists fs rest e', build_data 1 (replicate 70000 7) true demo_engine = Some (fs, e') /\ engine_inv e' /\
    replicate 70000 7 = bodies fs ++ rest /\
    Forall (fun f => exists b l, f = FData (mkData 1 b l None) /\ len b <= mfs_of demo_engine) fs /\
    len (bodies fs) <= window_of 1 demo_engine /\
    conn_state.send_window (e_state e') = conn_state.send_window (e_state demo_engine) - len (bodies fs) /\
    stream_avail 1 e' = stream_avail 1 demo_engine - len (bodies fs) /\
    e_pending_data e' = e_pending_data demo_engine ++ (if is_empty rest then [] else [mkPending 1 rest true]) /\
    (rest <> [] -> window_of 1 e' = 0) /\
    Frame.is_end_stream <$> fs =
      (if is_empty rest then if is_empty fs then [] else replicate (length fs - 1) false ++ [true]
       else replicate (length fs) false).
Proof. apply (body_sent_exactly 1 (replicate 70000 7) true demo_engine). exact demo_engine_inv. Defined.

(** When windows open again, draining what flow control held back always
    returns and keeps every stream's bytes in order and complete: what goes out
    for a stream followed by what is still held back is what was held back
    before, and a stream still has held-back bytes only if its window (or the
    connection's) is used up. *)
Theorem drain_keeps_order {D F : Type} `{HpackDecoder D} `{FlowControlPolicy F} (e : H2Engine D F) :
  engine_inv e ->
  exists fs e', drain_pending_data e = Some (fs, e') /\ engine_inv e' /\
    (forall j, stream_bytes j fs ++ pending_bytes j (e_pending_data e') = pending_bytes j (e_pending_data e)) /\
    (forall j, pending_bytes j (e_pending_data e') <> [] -> window_of j e' = 0).
Proof. apply drain_spec. Qed.

Lemma drain_keeps_order_witness :
  let e := with_pending_data [mkPending 1 (replicate 65000 1) false; mkPending 1 (replicate 10000 2) true]
             demo_engine in
  exists fs e', drain_pending_data e = Some (fs, e') /\ engine_inv e' /\
    (forall j, stream_bytes j fs ++ pending_bytes j (e_pending_data e') = pending_bytes j (e_pending_data e)) /\
    (forall j, pending_bytes j (e_pending_data e') <> [] -> window_of j e' = 0).
Proof.
  apply drain_keeps_order. destruct demo_engine_inv as (Hc & Hp & Hcodec & _).
  split; [exact Hc|]. split; [exact Hp|]. split; [exact Hcodec|]. repeat constructor; done.
Defined.
