(* ===== verification/EngineProps.v ===== *)
(** * Receiving: what [process] does with arbitrary input

    The engine never panics or loops on any byte sequence, keeps its invariant,
    does not depend on how the input is cut into reads, returns flow-control
    credit exactly, and answers SETTINGS and PING. *)
From S2P Require Import Prelude Frame Codec CodecProps Huffman HpackTable Policy HpackEnc HpackSync Stream Profile Synthesis Hpack ConnState Engine EngineSend.
Import profile engine.

Section receive.
Context {D F : Type} `{HpackDecoder D} `{FlowControlLaws F}.
Context (iter : gmap Z stream.H2Stream -> list Z).
Implicit Types (e : H2Engine D F) (c : Ctx (D := D) (F := F)).

Definition ctx_inv c : Prop := engine_inv (c_engine c).

(** A frame as the decoder returns it. *)
Definition frame_in (f : H2Frame) : Prop :=
  match f with FUnknown _ => True | _ => frame_wf f end.

(** ** Invariant preservation *)

Lemma engine_inv_state s e : engine_inv e -> conn_inv s -> engine_inv (with_state s e).
Proof. intros (_ & ? & ? & ?) ?. by split_and!. Qed.
Lemma engine_inv_conn e : engine_inv e -> conn_inv (e_state e).
Proof. by intros (? & _). Qed.
Lemma engine_inv_continuation a e : engine_inv e -> engine_inv (with_continuation a e).
Proof. done. Qed.
Lemma engine_inv_flow fc e : engine_inv e -> engine_inv (with_flow_control fc e).
Proof. done. Qed.

Lemma event_inv ev c : ctx_inv c -> ctx_inv (event ev c).
Proof. done. Qed.

Lemma reset_stream_inv i (s : conn_state.ConnState D) : conn_inv s -> conn_inv (reset_stream i s).
Proof.
  intros Hs. unfold reset_stream, conn_state.get_stream.
  destruct (conn_state.streams s !! i) as [st|] eqn:E; [|done].
  by eapply conn_inv_put; [done|done|apply (conn_inv_stream _ _ _ Hs E)|].
Qed.

Lemma emit_rst_inv i code c : ctx_inv c -> ctx_inv (emit_rst_stream i code c).
Proof. intros Hc. apply engine_inv_state; [done|]. apply reset_stream_inv, engine_inv_conn, Hc. Qed.

Lemma handle_settings_inv f c :
  ctx_inv c -> frame_wf (FSettings f) -> exists c', handle_settings iter f c = Some c' /\ ctx_inv c'.
Proof.
  intros Hc [Hps _]. unfold handle_settings.
  assert (Forall (fun p => u32 (sp_value p)) (sf_settings f)) as Hu
    by (eapply Forall_impl; [exact Hps|]; by intros p [_ ?]).
  pose proof (apply_remote_inv iter f (c_state c) (engine_inv_conn _ Hc) Hu) as Hs.
  destruct (sf_ack f) eqn:Ea.
  - change (c_state (event LocalSettingsAcked c)) with (c_state c).
    destruct (conn_state.apply_remote_settings iter f (c_state c)) as [r s].
    eexists. split; [done|]. destruct r; by apply (engine_inv_state _ (c_engine c)).
  - destruct (conn_state.apply_remote_settings iter f (c_state c)) as [r s]. cbn [snd] in Hs.
    destruct r as [err|]; [eexists; split; [done|]; by apply engine_inv_state|].
    destruct (negb _).
    + destruct (set_encoder_table_size_spec (header_table_size (conn_state.remote_settings s)) s Hs)
        as (enc & -> & He & _); [by destruct Hs as (((? & _) & _) & _)|].
      eexists. split; [done|]. apply (engine_inv_state _ (c_engine c)); [done|].
      by apply conn_inv_encoder.
    + eexists. split; [done|]. by apply (engine_inv_state _ (c_engine c)).
Qed.

Lemma recv_end_inv st : stream_inv st -> stream_inv (or_keep st (stream.recv_end_stream st)) /\
  stream.id (or_keep st (stream.recv_end_stream st)) = stream.id st.
Proof. unfold stream.recv_end_stream. by destruct (stream.state st). Qed.

Lemma complete_headers_inv i block es c : ctx_inv c -> ctx_inv (complete_headers i block es c).
Proof.
  intros Hc. unfold complete_headers, conn_state.decode_header_block.
  destruct (hpack.decode _ _) as [r d].
  assert (conn_inv (conn_state.with_decoder d (c_state c))) as Hs
    by (apply conn_inv_decoder, engine_inv_conn, Hc).
  assert (forall c', c_engine c' = with_state (conn_state.with_decoder d (c_state c)) (c_engine c) ->
    ctx_inv c') as Hk by (intros c' Hc'; unfold ctx_inv; rewrite Hc'; by apply engine_inv_state).
  destruct r as [hs|err|]; [|by apply Hk|by apply Hk]. destruct (_ <? _); [by apply Hk|].
  unfold conn_state.get_stream.
  destruct (conn_state.streams (conn_state.with_decoder d (c_state c)) !! i) as [st|] eqn:E; [|by apply Hk].
  destruct es; [|by apply Hk]. apply (engine_inv_state _ (with_state _ (c_engine c))).
  - by apply engine_inv_state.
  - destruct (recv_end_inv st (conn_inv_stream _ _ _ Hs E)). by eapply conn_inv_put.
Qed.

Lemma on_assembly_inv r c : ctx_inv c -> ctx_inv (on_assembly r c).
Proof. intros Hc. destruct r; [done|by apply complete_headers_inv|done]. Qed.

Lemma credit_connection_inv n c : u32 n -> ctx_inv c -> ctx_inv (credit_connection n c).
Proof.
  intros Hn Hc. unfold credit_connection. destruct (on_data_received _ _ _ _ _) as [r fc] eqn:Ed.
  destruct r as [inc|]; [|by apply engine_inv_flow].
  cbn [emit_window_update emit set_engine c_engine c_state with_flow_control e_state].
  pose proof (conn_update_recv_spec inc (e_state (c_engine c)) (engine_inv_conn _ Hc)
    (on_data_u32 _ _ _ _ _ _ _ Hn Ed)) as Hspec.
  unfold c_state. cbn [emit_window_update emit set_engine c_engine with_flow_control e_state].
  destruct (decide _); [destruct Hspec as [-> Hs]|destruct Hspec as [err ->]].
  - by apply (engine_inv_state _ (with_flow_control fc (c_engine c))).
  - done.
Qed.

Lemma update_recv_keep_inv inc st : u32 inc -> stream_inv st ->
  stream_inv (or_keep st (stream.update_recv_window inc st)) /\
  stream.id (or_keep st (stream.update_recv_window inc st)) = stream.id st.
Proof.
  intros Hi Hs. destruct (update_recv_spec inc st Hs Hi) as [-> Hk].
  destruct (decide _); [|done]. split; [by apply Hk|done].
Qed.

Lemma credit_stream_inv i n w iw c : u32 n -> ctx_inv c -> ctx_inv (credit_stream i n w iw c).
Proof.
  intros Hn Hc. unfold credit_stream. destruct (on_data_received _ _ _ _ _) as [r fc] eqn:Ed.
  destruct r as [inc|]; [|by apply engine_inv_flow].
  unfold c_state, conn_state.get_stream.
  cbn [emit_window_update emit set_engine c_engine with_flow_control e_state].
  destruct (conn_state.streams (e_state (c_engine c)) !! i) as [st|] eqn:E; [|done].
  apply (engine_inv_state _ (with_flow_control fc (c_engine c))); [done|].
  destruct (update_recv_keep_inv inc st (on_data_u32 _ _ _ _ _ _ _ Hn Ed)
    (conn_inv_stream _ _ _ (engine_inv_conn _ Hc) E)).
  by eapply conn_inv_put; [apply engine_inv_conn, Hc|..].
Qed.

Lemma flow_len_u32 f : u32 (flow_len_of f).
Proof. unfold flow_len_of. destruct (df_padding f); apply as_u32_range. Qed.

Lemma finish_data_inv f w iw c : ctx_inv c -> ctx_inv (finish_data f (flow_len_of f) w iw c).
Proof.
  intros Hc. unfold finish_data. pose proof (flow_len_u32 f) as Hn.
  set (c1 := if 0 <? flow_len_of f then _ else c).
  assert (ctx_inv c1) as Hi1.
  { subst c1. destruct (0 <? _); [|done]. by apply credit_stream_inv, credit_connection_inv. }
  destruct (df_end_stream f); [|done].
  apply (engine_inv_state _ (with_flow_control _ (c_engine c1))); [done|].
  apply conn_inv_cleanup, engine_inv_conn, Hi1.
Qed.

Lemma handle_data_inv f c : ctx_inv c -> ctx_inv (handle_data f c).
Proof.
  intros Hc. unfold handle_data. pose proof (flow_len_u32 f) as Hn.
  pose proof (conn_consume_recv_spec (flow_len_of f) (c_state c) (engine_inv_conn _ Hc) Hn) as Hspec.
  destruct (decide _); [destruct Hspec as [-> Hs]|by destruct Hspec as [err ->]].
  set (s := conn_state.with_recv_window _ _) in *.
  assert (ctx_inv (set_state s c)) as Hi1 by by apply engine_inv_state.
  unfold conn_state.get_stream. destruct (conn_state.streams s !! _) as [st|] eqn:E;
    [|by apply finish_data_inv].
  destruct (negb _); [by apply emit_rst_inv|].
  destruct (consume_recv_spec (flow_len_of f) st (conn_inv_stream _ _ _ Hs E) Hn) as [-> Hk].
  destruct (decide _) as [Hle|]; cbv iota beta; [|by apply event_inv, emit_rst_inv].
  apply finish_data_inv, engine_inv_state; [done|].
  destruct (recv_end_inv _ (Hk Hle)) as [Hr1 Hr2].
  apply (conn_inv_put _ st); [done|done|..]; destruct (df_end_stream f); try done; by apply Hk.
Qed.

Lemma handle_window_update_inv f c :
  ctx_inv c -> frame_wf (FWindowUpdate f) ->
  exists c', handle_window_update f c = Some c' /\ ctx_inv c'.
Proof.
  intros Hc [_ Hinc]. assert (u32 (wu_increment f)) as Hu by (unfold u31, u32 in *; lia).
  unfold handle_window_update. destruct (_ =? 0).
  { eexists. split; [done|]. destruct (_ =? 0); [done|by apply emit_rst_inv]. }
  assert (match grow_send_window f c with inl c' | inr c' => ctx_inv c' end) as Hg.
  { unfold grow_send_window. destruct (_ =? 0).
    - pose proof (conn_update_send_spec _ (c_state c) (engine_inv_conn _ Hc) Hu) as Hspec.
      destruct (decide _); [destruct Hspec as [-> Hs]|by destruct Hspec as [err ->]].
      by apply engine_inv_state.
    - unfold conn_state.get_stream. destruct (conn_state.streams (c_state c) !! _) as [st|] eqn:E; [|done].
      destruct (update_send_spec _ st (conn_inv_stream _ _ _ (engine_inv_conn _ Hc) E) Hu) as [-> Hk].
      destruct (decide _) as [Hle|]; cbv iota beta; [|by apply event_inv, emit_rst_inv].
      apply engine_inv_state; [done|]. eapply conn_inv_put; [apply engine_inv_conn, Hc|done|by apply Hk|done]. }
  destruct (grow_send_window f c) as [c1|c1]; [|by eexists].
  destruct (negb _); [|by eexists].
  destruct (drain_spec (c_engine c1) Hg) as (fs & e' & -> & He' & _). by eexists.
Qed.

Lemma handle_frame_inv f c :
  ctx_inv c -> frame_in f -> exists c', handle_frame iter f c = Some c' /\ ctx_inv c'.
Proof.
  intros Hc Hf. destruct f; cbn [handle_frame frame_in] in *.
  - eexists. split; [done|]. by apply handle_data_inv.
  - eexists. split; [done|]. unfold handle_headers. destruct (continuation.push_headers _ _ _ _ _) as [r a].
    by apply on_assembly_inv.
  - by eexists.
  - eexists. split; [done|]. apply engine_inv_state; [done|].
    apply conn_inv_cleanup, reset_stream_inv, engine_inv_conn, Hc.
  - by apply handle_settings_inv.
  - by eexists.
  - eexists. split; [done|]. unfold handle_ping. by destruct (negb _).
  - eexists. split; [done|]. apply engine_inv_state; [done|]. apply conn_inv_goaway, engine_inv_conn, Hc.
  - by apply handle_window_update_inv.
  - eexists. split; [done|]. unfold handle_continuation.
    destruct (continuation.push_continuation _ _ _ _) as [r a]. by apply on_assembly_inv.
  - by eexists.
Qed.

(** ** The decode loop *)

Lemma decode_frame_view codec input f rest :
  decode_view codec input (RFrame f) rest ->
  frame_in f /\ exists used, input = used ++ rest /\ 9 <= len used.
Proof.
  inversion 1; subst; (split; [try done; by destruct f|]).
  all: exists (take_z (9 + n) input); rewrite take_drop_z, len_take_z by lia; split; [done|lia].
Qed.

Lemma process_loop_total : forall fuel input c,
  ctx_inv c -> is_bytes input -> (length input < fuel)%nat ->
  exists rest c' used, process_loop iter fuel input c = Some (rest, c') /\ ctx_inv c' /\
    input = used ++ rest.
Proof.
  induction fuel as [|fuel IH]; intros input c Hc Hb Hf; [lia|]. cbn [process_loop].
  destruct (decode_spec (e_codec (c_engine c)) input Hb) as (r & rest & -> & Hv).
  cbn [mbind option_bind]. destruct r as [f|n|err].
  - destruct (decode_frame_view _ _ _ _ Hv) as (Hf' & used & -> & Hu).
    destruct (handle_frame_inv f c Hc Hf') as (c1 & -> & Hc1). cbn [mbind option_bind].
    apply is_bytes_app in Hb as [_ Hb].
    destruct (IH rest c1 Hc1 Hb) as (rest2 & c2 & used2 & -> & Hc2 & ->).
    { rewrite length_app in Hf. unfold len in Hu. lia. }
    exists rest2, c2, (used ++ used2). split; [done|]. split; [done|]. by rewrite <- app_assoc.
  - exists rest, c, []. split; [done|]. split; [done|]. by inversion Hv; subst.
  - eexists rest, _. inversion Hv; subst.
    + exists []. done.
    + exists (take_z (9 + n) input). split; [done|]. split; [done|]. by rewrite take_drop_z.
Qed.

(** More fuel does not change a result. *)
Lemma process_loop_mono : forall fuel fuel' input c r,
  process_loop iter fuel input c = Some r -> (fuel <= fuel')%nat ->
  process_loop iter fuel' input c = Some r.
Proof.
  induction fuel as [|fuel IH]; intros fuel' input c r Hr Hle; [done|].
  destruct fuel' as [|fuel']; [lia|]. cbn [process_loop] in *.
  destruct (decode _ input) as [[[f|n|err] rest]|]; [|done|done|done].
  cbn [mbind option_bind] in *. destruct (handle_frame iter f c) as [c1|]; [|done].
  cbn [mbind option_bind] in *. apply (IH fuel'); [done|lia].
Qed.

(** ** Events and frames only accumulate *)

(** The same context behind earlier events and frames. *)
Definition behind (ev : list H2Event) (out : list H2Frame) c : Ctx :=
  mkCtx (c_engine c) (ev ++ c_events c) (out ++ c_outbound c).

Lemma event_behind ev out x c : event x (behind ev out c) = behind ev out (event x c).
Proof. unfold event, behind. cbn. by rewrite app_assoc. Qed.
Lemma emit_behind ev out f c : emit f (behind ev out c) = behind ev out (emit f c).
Proof. unfold emit, behind. cbn. by rewrite app_assoc. Qed.
Lemma set_engine_behind ev out e c : set_engine e (behind ev out c) = behind ev out (set_engine e c).
Proof. done. Qed.
Lemma set_state_behind ev out s c : set_state s (behind ev out c) = behind ev out (set_state s c).
Proof. done. Qed.
Lemma engine_behind ev out c : c_engine (behind ev out c) = c_engine c.
Proof. done. Qed.
Lemma state_behind ev out c : c_state (behind ev out c) = c_state c.
Proof. done. Qed.
Lemma emit_goaway_behind ev out x c : emit_goaway x (behind ev out c) = behind ev out (emit_goaway x c).
Proof. apply emit_behind. Qed.
Lemma emit_window_update_behind ev out i n c :
  emit_window_update i n (behind ev out c) = behind ev out (emit_window_update i n c).
Proof. apply emit_behind. Qed.
Lemma emit_rst_behind ev out i x c : emit_rst_stream i x (behind ev out c) = behind ev out (emit_rst_stream i x c).
Proof. unfold emit_rst_stream. cbn. rewrite <- emit_behind. done. Qed.

Create Rewrite HintDb behind_db.
Hint Rewrite event_behind emit_behind set_engine_behind set_state_behind engine_behind state_behind
  emit_goaway_behind emit_window_update_behind emit_rst_behind : behind_db.

Local Ltac bh := repeat first [progress autorewrite with behind_db | case_match]; try done; try congruence.

Lemma complete_headers_behind ev out i b es c :
  complete_headers i b es (behind ev out c) = behind ev out (complete_headers i b es c).
Proof. unfold complete_headers. rewrite state_behind. destruct (conn_state.decode_header_block _ _) as [r s]. bh. Qed.

Lemma on_assembly_behind ev out r c : on_assembly r (behind ev out c) = behind ev out (on_assembly r c).
Proof. destruct r; cbn [on_assembly]; [done|apply complete_headers_behind|bh]. Qed.

Lemma credit_connection_behind ev out n c :
  credit_connection n (behind ev out c) = behind ev out (credit_connection n c).
Proof. unfold credit_connection. rewrite engine_behind. destruct (on_data_received _ _ _ _ _) as [r fc]. bh. Qed.

Lemma credit_stream_behind ev out i n w iw c :
  credit_stream i n w iw (behind ev out c) = behind ev out (credit_stream i n w iw c).
Proof. unfold credit_stream. rewrite engine_behind. destruct (on_data_received _ _ _ _ _) as [r fc]. bh. Qed.

Lemma finish_data_behind ev out f n w iw c :
  finish_data f n w iw (behind ev out c) = behind ev out (finish_data f n w iw c).
Proof.
  unfold finish_data. rewrite credit_connection_behind, credit_stream_behind.
  destruct (0 <? n), (df_end_stream f); bh.
Qed.

Lemma handle_data_behind ev out f c : handle_data f (behind ev out c) = behind ev out (handle_data f c).
Proof.
  unfold handle_data. rewrite state_behind. destruct (conn_state.consume_recv_window _ _) as [s|err|]; [|bh|done].
  rewrite set_state_behind. destruct (conn_state.get_stream _ s) as [st|]; [|by rewrite finish_data_behind].
  destruct (negb _); [bh|]. destruct (stream.consume_recv_window _ st); [|bh|bh].
  by rewrite set_state_behind, finish_data_behind.
Qed.

Lemma handle_window_update_behind ev out f c :
  handle_window_update f (behind ev out c) = behind ev out <$> handle_window_update f c.
Proof.
  unfold handle_window_update. destruct (wu_increment f =? 0); [cbn; f_equal; bh|].
  assert (grow_send_window f (behind ev out c) =
    match grow_send_window f c with inl c => inl (behind ev out c) | inr c => inr (behind ev out c) end) as ->.
  { unfold grow_send_window. rewrite state_behind. bh. }
  destruct (grow_send_window f c) as [c1|c1]; [|done]. rewrite engine_behind.
  destruct (if negb _ then _ else _) as [[fs e']|]; [|done]. cbn.
  unfold event, behind. cbn. by rewrite !app_assoc.
Qed.

Lemma handle_settings_behind ev out f c :
  handle_settings iter f (behind ev out c) = behind ev out <$> handle_settings iter f c.
Proof.
  unfold handle_settings. rewrite event_behind, !state_behind.
  destruct (sf_ack f).
  - destruct (conn_state.apply_remote_settings iter f _) as [r s]. cbn. f_equal. bh.
  - destruct (conn_state.apply_remote_settings iter f _) as [[err|] s]; [cbn; f_equal; bh|].
    destruct (if negb _ then _ else _) as [s'|]; [|done]. cbn [mbind option_bind fmap option_fmap option_map].
    f_equal. unfold emit_settings_ack. bh.
Qed.

Lemma handle_frame_behind ev out f c :
  handle_frame iter f (behind ev out c) = behind ev out <$> handle_frame iter f c.
Proof.
  destruct f; cbn [handle_frame]; try (cbn; f_equal; bh).
  - apply handle_data_behind.
  - unfold handle_headers. rewrite engine_behind. destruct (continuation.push_headers _ _ _ _ _) as [r a].
    by rewrite set_engine_behind, on_assembly_behind.
  - unfold handle_rst_stream. bh.
  - apply handle_settings_behind.
  - unfold handle_ping, emit_ping_ack. bh.
  - unfold handle_goaway. bh.
  - apply handle_window_update_behind.
  - unfold handle_continuation. rewrite engine_behind.
    destruct (continuation.push_continuation _ _ _ _) as [r a].
    by rewrite set_engine_behind, on_assembly_behind.
Qed.

Lemma process_loop_behind ev out : forall fuel input c,
  process_loop iter fuel input (behind ev out c)
  = (fun '(rest, c) => (rest, behind ev out c)) <$> process_loop iter fuel input c.
Proof.
  induction fuel as [|fuel IH]; intros input c; [done|]. cbn [process_loop]. rewrite engine_behind.
  destruct (decode _ input) as [[[f|n|err] rest]|]; [|done| |done]; cbn [mbind option_bind].
  - rewrite handle_frame_behind. destruct (handle_frame iter f c) as [c1|]; [|done]. apply IH.
  - cbn. do 2 f_equal. bh.
Qed.

(** ** Independence of how the input is cut *)

(** [input] is a sequence of frames the engine handles one after the other,
    with [rest] left: no codec error in between. *)
Inductive frames_run : bytes -> Ctx -> bytes -> Ctx -> Prop :=
| run_done input c : frames_run input c input c
| run_frame input f input' c c1 rest c2 :
    decode (e_codec (c_engine c)) input = Some (RFrame f, input') ->
    handle_frame iter f c = Some c1 ->
    frames_run input' c1 rest c2 ->
    frames_run input c rest c2.

Definition wants_more (buf : bytes) c : Prop :=
  exists n, decode (e_codec (c_engine c)) buf = Some (NeedMoreData n, buf).

(** A prefix of such an input is processed without a codec error, and what is
    left of it continues to the same end. *)
Lemma run_prefix : forall fuel a b c rest c',
  ctx_inv c -> is_bytes a -> (length a < fuel)%nat ->
  frames_run (a ++ b) c rest c' -> wants_more rest c' ->
  exists r1 c1, process_loop iter fuel a c = Some (r1, c1) /\ ctx_inv c1 /\ is_bytes r1 /\
    wants_more r1 c1 /\ frames_run (r1 ++ b) c1 rest c'.
Proof.
  induction fuel as [|fuel IH]; intros a b c rest c' Hc Hb Hf Hrun [n Hn]; [lia|].
  cbn [process_loop].
  destruct (decode_spec (e_codec (c_engine c)) a Hb) as (r & ra & Hd & Hv). rewrite Hd.
  cbn [mbind option_bind]. destruct r as [f|m|err].
  - pose proof (decode_app _ _ b _ _ Hd ltac:(done)) as Hd'.
    inversion Hrun as [|? f' ? ? c1 ? ? Hdf Hh Hrun']; subst; [congruence|].
    rewrite Hd' in Hdf. injection Hdf as <- <-. rewrite Hh. cbn [mbind option_bind].
    destruct (decode_frame_view _ _ _ _ Hv) as (Hf' & used & -> & Hu).
    destruct (handle_frame_inv f c Hc Hf') as (c1' & Hh' & Hc1). rewrite Hh in Hh'. injection Hh' as <-.
    apply is_bytes_app in Hb as [_ Hb]. apply (IH ra b c1 rest c'); [done|done| |done|by exists n].
    rewrite length_app in Hf. unfold len in Hu. lia.
  - assert (ra = a) as -> by by inversion Hv. exists a, c. split_and!; try done. by exists m.
  - pose proof (decode_app _ _ b _ _ Hd ltac:(done)) as Hd'. inversion Hrun; subst; congruence.
Qed.

Lemma run_stuck buf c rest c' :
  frames_run buf c rest c' -> wants_more buf c -> rest = buf /\ c' = c.
Proof. intros Hrun [n Hn]. inversion Hrun; subst; [done|congruence]. Qed.

(** The driver's read loop: append what was read, process, keep the leftover. *)
Fixpoint feed_chunks (chunks : list bytes) (buf : bytes) c : option (bytes * Ctx) :=
  match chunks with
  | [] => Some (buf, c)
  | chunk :: chunks =>
      '(buf, c1) ← process iter (buf ++ chunk) (c_engine c);
      feed_chunks chunks buf (behind (c_events c) (c_outbound c) c1)
  end.

Lemma behind_start c : behind (c_events c) (c_outbound c) (mkCtx (c_engine c) [] []) = c.
Proof. unfold behind. cbn. rewrite !app_nil_r. by destruct c. Qed.

Lemma feed_chunks_run chunks : forall buf c rest c',
  ctx_inv c -> is_bytes (buf ++ mjoin chunks) -> wants_more buf c ->
  frames_run (buf ++ mjoin chunks) c rest c' -> wants_more rest c' ->
  feed_chunks chunks buf c = Some (rest, c').
Proof.
  induction chunks as [|chunk chunks IH]; intros buf c rest c' Hc Hb Hw Hrun Hrest; cbn [feed_chunks].
  - cbn in Hrun. rewrite app_nil_r in Hrun. by destruct (run_stuck _ _ _ _ Hrun Hw) as [-> ->].
  - change (mjoin (chunk :: chunks)) with (chunk ++ mjoin chunks) in *. rewrite app_assoc in Hb, Hrun.
    apply is_bytes_app in Hb as [Hb1 Hb2].
    destruct (run_prefix (S (length (buf ++ chunk))) _ _ c rest c' Hc Hb1 ltac:(lia) Hrun Hrest)
      as (r1 & c1 & Hp & Hc1 & Hr1 & Hw1 & Hrun1).
    unfold process. rewrite <- (behind_start c), process_loop_behind in Hp.
    destruct (process_loop iter _ _ (mkCtx (c_engine c) [] [])) as [[r1' c1']|]; [|done].
    injection Hp as -> <-. cbn [mbind option_bind].
    apply IH; try done. by apply is_bytes_app.
Qed.

(** ** Receive-window credit *)

(** What the peer may still send plus what we owe it: the credit in circulation. *)
Definition conn_credit e : Z := conn_state.recv_window (e_state e) + owed (e_flow_control e) 0.

Lemma credit_connection_spec n c :
  ctx_inv c -> u32 n -> owed (e_flow_control (c_engine c)) 0 + n < 4294967296 ->
  conn_credit (c_engine c) + n <= I32_MAX ->
  conn_credit (c_engine (credit_connection n c)) = conn_credit (c_engine c) + n.
Proof.
  intros Hc Hn Hlt Hmax. unfold credit_connection.
  destruct (on_data_received _ _ _ _ _) as [r fc] eqn:Ed.
  destruct (on_data_credit _ _ _ _ _ _ _ (proj1 Hn) Hlt Ed) as (Hcr & Hpos & _).
  unfold conn_credit in *. destruct r as [inc|]; cbn in Hcr.
  - pose proof (owed_nonneg fc 0). specialize (Hpos inc eq_refl).
    pose proof (conn_update_recv_spec inc (e_state (c_engine c)) (engine_inv_conn _ Hc)
      (on_data_u32 _ _ _ _ _ _ _ Hn Ed)) as Hspec.
    rewrite decide_True in Hspec by lia. destruct Hspec as [Hspec _].
    unfold c_state. cbn [emit_window_update emit set_engine c_engine with_flow_control e_state].
    rewrite Hspec. cbn. lia.
  - cbn. lia.
Qed.

Lemma credit_stream_other i n w iw c :
  u32 n -> i <> 0 -> owed (e_flow_control (c_engine c)) i + n < 4294967296 ->
  conn_credit (c_engine (credit_stream i n w iw c)) = conn_credit (c_engine c).
Proof.
  intros Hn Hi Hlt. unfold credit_stream. destruct (on_data_received _ _ _ _ _) as [r fc] eqn:Ed.
  destruct (on_data_credit _ _ _ _ _ _ _ (proj1 Hn) Hlt Ed) as (_ & _ & Hoth).
  specialize (Hoth 0 ltac:(lia)). unfold conn_credit. destruct r as [inc|]; cbn; [|lia].
  unfold c_state. cbn. destruct (conn_state.get_stream _ _); cbn; lia.
Qed.

Lemma credit_connection_flow_other n c i :
  u32 n -> i <> 0 -> owed (e_flow_control (c_engine c)) 0 + n < 4294967296 ->
  owed (e_flow_control (c_engine (credit_connection n c))) i = owed (e_flow_control (c_engine c)) i.
Proof.
  intros Hn Hi Hlt. unfold credit_connection. destruct (on_data_received _ _ _ _ _) as [r fc] eqn:Ed.
  destruct (on_data_credit _ _ _ _ _ _ _ (proj1 Hn) Hlt Ed) as (_ & _ & Hoth).
  specialize (Hoth i Hi). destruct r as [inc|]; [|done]. unfold c_state.
  destruct (conn_state.update_recv_window inc _); done.
Qed.

Lemma finish_data_credit f w iw c :
  ctx_inv c -> df_stream_id f <> 0 -> let n := flow_len_of f in
  owed (e_flow_control (c_engine c)) 0 + n < 4294967296 ->
  owed (e_flow_control (c_engine c)) (df_stream_id f) + n < 4294967296 ->
  conn_credit (c_engine c) + n <= I32_MAX ->
  conn_credit (c_engine (finish_data f n w iw c)) = conn_credit (c_engine c) + n.
Proof.
  intros Hc Hid n Ho0 Hoi Hmax. pose proof (flow_len_u32 f) as Hn. fold n in Hn.
  unfold finish_data. set (c1 := if 0 <? n then _ else c).
  assert (conn_credit (c_engine c1) = conn_credit (c_engine c) + n) as H1'.
  { subst c1. destruct (Z.ltb_spec 0 n); [|unfold u32 in Hn; lia].
    rewrite credit_stream_other; [by apply credit_connection_spec|done|done|].
    by rewrite credit_connection_flow_other. }
  destruct (df_end_stream f); [|done]. rewrite <- H1'. unfold conn_credit. cbn.
  rewrite on_closed_owed. by rewrite decide_False by done.
Qed.

(** The window is paid before the stream is looked at. *)
Lemma handle_data_paid f c :
  ctx_inv c -> flow_len_of f <= conn_state.recv_window (c_state c) ->
  exists s, conn_state.consume_recv_window (flow_len_of f) (c_state c) = Ok s /\ conn_inv s /\
    conn_state.streams s = conn_state.streams (c_state c) /\
    conn_credit (c_engine (set_state s c)) = conn_credit (c_engine c) - flow_len_of f.
Proof.
  intros Hc Hle.
  pose proof (conn_consume_recv_spec (flow_len_of f) (c_state c) (engine_inv_conn _ Hc) (flow_len_u32 f)) as Hs.
  rewrite decide_True in Hs by done. destruct Hs as [Hs1 Hs2]. eexists. split; [done|]. split; [done|].
  split; [done|]. unfold conn_credit, c_state. cbn. lia.
Qed.

(** The stream takes the frame: it is unknown, or may receive and has the window. *)
Definition accepts f c : Prop :=
  match conn_state.streams (c_state c) !! df_stream_id f with
  | Some st => stream.can_receive (stream.state st) = true /\ flow_len_of f <= stream.recv_window st
  | None => True
  end.

Lemma handle_data_accepted f c :
  ctx_inv c -> df_stream_id f <> 0 ->
  flow_len_of f <= conn_state.recv_window (c_state c) -> accepts f c ->
  conn_credit (c_engine c) <= I32_MAX ->
  owed (e_flow_control (c_engine c)) (df_stream_id f) + flow_len_of f < 4294967296 ->
  conn_credit (c_engine (handle_data f c)) = conn_credit (c_engine c) /\
  c_events (handle_data f c)
    = c_events c ++ [ResponseData (df_stream_id f) (df_data f) (df_end_stream f)].
Proof.
  intros Hc Hid Hle Hacc Hmax Howed. pose proof (flow_len_u32 f) as Hn.
  destruct (handle_data_paid f c Hc Hle) as (s & Hs & Hsi & Hst & Hcr).
  assert (ctx_inv (set_state s c)) as Hci by by apply engine_inv_state.
  pose proof (owed_nonneg (e_flow_control (c_engine c)) 0) as Ho.
  assert (owed (e_flow_control (c_engine c)) 0 + flow_len_of f < 4294967296) as Ho0.
  { unfold conn_credit in Hmax. change (e_state (c_engine c)) with (c_state c) in Hmax. unfold I32_MAX in Hmax. lia. }
  assert (forall w iw c', ctx_inv c' -> conn_credit (c_engine c') = conn_credit (c_engine (set_state s c)) ->
    e_flow_control (c_engine c') = e_flow_control (c_engine c) -> c_events c' = c_events c ->
    conn_credit (c_engine (finish_data f (flow_len_of f) w iw c')) = conn_credit (c_engine c) /\
    c_events (finish_data f (flow_len_of f) w iw c')
      = c_events c ++ [ResponseData (df_stream_id f) (df_data f) (df_end_stream f)]) as Hfin.
  { intros w iw c' Hc' Hcc Hfc Hev. split.
    - rewrite finish_data_credit; [lia|done|done|by rewrite Hfc|by rewrite Hfc|lia].
    - rewrite <- Hev. unfold finish_data, event. cbn [c_events]. f_equal.
      unfold credit_stream, credit_connection. repeat case_match; done. }
  unfold handle_data. rewrite Hs. unfold conn_state.get_stream, accepts in *. rewrite Hst.
  destruct (conn_state.streams (c_state c) !! df_stream_id f) as [st|] eqn:Est; [|by apply Hfin].
  destruct Hacc as [-> Hw]. cbn [negb].
  assert (stream_inv st) as Hsti by (apply (conn_inv_stream (df_stream_id f) st s Hsi); by rewrite Hst).
  destruct (consume_recv_spec (flow_len_of f) st Hsti Hn) as [-> Hk].
  rewrite decide_True by done. destruct (recv_end_inv _ (Hk Hw)) as [Hr1 Hr2].
  apply Hfin; try done. apply engine_inv_state; [done|].
  apply (conn_inv_put _ st); [done|by rewrite Hst|..]; destruct (df_end_stream f); try done; by apply Hk.
Qed.

(** ** SETTINGS *)

(** Our encoder's table is the size the peer announced last. *)
Definition encoder_size_synced e : Prop :=
  table.max_size (hpack_enc.dynamic (conn_state.hpack_encoder (e_state e)))
  = header_table_size (conn_state.remote_settings (e_state e)).

Lemma handle_settings_ok f c :
  ctx_inv c -> iter_ok iter -> frame_wf (FSettings f) -> sf_ack f = false ->
  Forall (fun p => value_ok (sp_id p) (sp_value p)) (sf_settings f) ->
  let remote := (conn_state.apply_all (sf_settings f) (conn_state.remote_settings (c_state c))).2 in
  map_Forall (fun _ => fits (initial_window_size remote)) (conn_state.streams (c_state c)) ->
  encoder_size_synced (c_engine c) ->
  exists c', handle_settings iter f c = Some c' /\
    conn_state.remote_settings (c_state c') = remote /\
    conn_state.streams (c_state c') = shifted (initial_window_size remote) <$> conn_state.streams (c_state c) /\
    encoder_size_synced (c_engine c') /\
    c_outbound c' = c_outbound c ++ [make_settings_ack] /\ c_events c' = c_events c ++ [SettingsAcked] /\
    e_pending_data (c_engine c') = e_pending_data (c_engine c).
Proof.
  intros Hc Hit [Hps _] Hack Hok remote Hfit Hsync.
  assert (Forall (fun p => u32 (sp_value p)) (sf_settings f)) as Hu
    by (eapply Forall_impl; [exact Hps|]; by intros p [_ ?]).
  destruct (apply_remote_settings_ok iter f (c_state c) (engine_inv_conn _ Hc) Hit Hack Hu Hok Hfit) as [Hr Hinv].
  unfold handle_settings. rewrite Hack, Hr. fold remote in Hinv |- *.
  set (s := conn_state.with_streams _ _) in *.
  change (conn_state.remote_settings s) with remote.
  destruct (Z.eqb_spec (header_table_size remote) (header_table_size (conn_state.remote_settings (c_state c))))
    as [Heq|Hne]; cbn [negb].
  - eexists. split; [done|]. split_and!; try done. exact (eq_trans Hsync (eq_sym Heq)).
  - destruct (set_encoder_table_size_spec (header_table_size remote) s Hinv) as (enc & -> & He & Hm);
      [by destruct Hinv as (((? & _) & _) & _)|].
    eexists. split; [done|]. split_and!; done.
Qed.

End receive.

(** ** Claims *)

(** C26. The engine survives any input: for every byte sequence a peer may send
    and every engine state satisfying the invariant, [process] returns (it
    neither panics nor loops), consumes a prefix of the input, and leaves an
    engine that satisfies the invariant again, so every window, stream, HPACK
    context and held-back body stays in range. *)
Theorem process_survives_any_input {D F : Type} `{HpackDecoder D} `{FlowControlLaws F}
    (iter : gmap Z stream.H2Stream -> list Z) (input : bytes) (e : H2Engine D F) :
  engine_inv e -> is_bytes input ->
  exists rest c used, process iter input e = Some (rest, c) /\ input = used ++ rest /\
    engine_inv (c_engine c).
Proof.
  intros He Hb.
  destruct (process_loop_total iter (S (length input)) input (mkCtx e [] []) He Hb ltac:(lia))
    as (rest & c & used & Hp & Hc & Hu).
  by exists rest, c, used.
Qed.

Lemma process_survives_any_input_witness :
  let input := [0; 0; 8; 6; 0; 0; 0; 0; 0; 1; 2; 3; 4; 5; 6; 7; 8; 255; 255; 255; 0; 9] in
  exists rest c used, process any_order input demo_engine = Some (rest, c) /\ input = used ++ rest /\
    engine_inv (c_engine c).
Proof.
  apply (process_survives_any_input any_order); [exact demo_engine_inv|].
  repeat constructor; by vm_compute.
Defined.



(** C35. Receive windows do not drift: for a DATA frame the connection accepts
    (on a stream that accepts it or is already gone), the connection's receive
    window plus the credit still owed by the policy is the same before and
    after, under every policy that honours its contract, exactly the received
    data is delivered, and the engine's invariant is kept. *)
Theorem data_credit_conserved {D F : Type} `{HpackDecoder D} `{FlowControlLaws F}
    (f : DataFrame) (c : Ctx (D := D) (F := F)) :
  engine_inv (c_engine c) -> df_stream_id f <> 0 ->
  flow_len_of f <= conn_state.recv_window (c_state c) -> accepts f c ->
  conn_credit (c_engine c) <= I32_MAX ->
  owed (e_flow_control (c_engine c)) (df_stream_id f) + flow_len_of f < 4294967296 ->
  conn_credit (c_engine (handle_data f c)) = conn_credit (c_engine c) /\
  c_events (handle_data f c)
    = c_events c ++ [ResponseData (df_stream_id f) (df_data f) (df_end_stream f)] /\
  engine_inv (c_engine (handle_data f c)).
Proof.
  intros He Hid Hle Hacc Hmax Howed.
  destruct (handle_data_accepted f c He Hid Hle Hacc Hmax Howed) as [H1' H2'].
  split; [done|]. split; [done|]. by apply handle_data_inv.
Qed.

Lemma data_credit_conserved_witness :
  let f := mkData 1 (replicate 100 7) false (Some 3) in
  let c := mkCtx demo_engine [] [] in
  conn_credit (c_engine (handle_data f c)) = conn_credit (c_engine c) /\
  c_events (handle_data f c) = [ResponseData 1 (replicate 100 7) false] /\
  engine_inv (c_engine (handle_data f c)).
Proof.
  apply (data_credit_conserved (mkData 1 (replicate 100 7) false (Some 3)) (mkCtx demo_engine [] [])).
  - exact demo_engine_inv.
  - done.
  - by vm_compute.
  - by vm_compute.
  - by vm_compute.
  - by vm_compute.
Defined.

(** A valid SETTINGS frame is answered with exactly one acknowledgement and
    takes effect at once: the peer's settings are the old ones updated in order,
    every stream's send window moves with the initial window, and our HPACK
    encoder's table is resized to exactly the size the peer announced (the
    condition under which header blocks stay decodable). *)
Theorem settings_acknowledged {D F : Type} `{HpackDecoder D} `{FlowControlLaws F}
    (iter : gmap Z stream.H2Stream -> list Z) (f : SettingsFrame) (c : Ctx (D := D) (F := F)) :
  engine_inv (c_engine c) -> iter_ok iter -> frame_wf (FSettings f) -> sf_ack f = false ->
  Forall (fun p => value_ok (sp_id p) (sp_value p)) (sf_settings f) ->
  let remote := (conn_state.apply_all (sf_settings f) (conn_state.remote_settings (c_state c))).2 in
  map_Forall (fun _ => fits (initial_window_size remote)) (conn_state.streams (c_state c)) ->
  encoder_size_synced (c_engine c) ->
  exists c', handle_settings iter f c = Some c' /\
    conn_state.remote_settings (c_state c') = remote /\
    conn_state.streams (c_state c')
      = shifted (initial_window_size remote) <$> conn_state.streams (c_state c) /\
    encoder_size_synced (c_engine c') /\
    c_outbound c' = c_outbound c ++ [make_settings_ack] /\ c_events c' = c_events c ++ [SettingsAcked].
Proof.
  intros He Hit Hwf Hack Hok remote Hfit Hsync.
  destruct (handle_settings_ok iter f c He Hit Hwf Hack Hok Hfit Hsync)
    as (c' & H1' & H2' & H3' & H4' & H5' & H6' & _). by exists c'.
Qed.

Lemma settings_acknowledged_witness :
  let f := mkSettings false [mkParam 1 100; mkParam 4 70000] in
  let c := mkCtx demo_engine [] [] in
  let remote := (conn_state.apply_all (sf_settings f) (conn_state.remote_settings (c_state c))).2 in
  exists c', handle_settings any_order f c = Some c' /\
    conn_state.remote_settings (c_state c') = remote /\
    conn_state.streams (c_state c')
      = shifted (initial_window_size remote) <$> conn_state.streams (c_state c) /\
    encoder_size_synced (c_engine c') /\
    c_outbound c' = [make_settings_ack] /\ c_events c' = [SettingsAcked].
Proof.
  apply (settings_acknowledged any_order (mkSettings false [mkParam 1 100; mkParam 4 70000])
           (mkCtx demo_engine [] [])).
  - exact demo_engine_inv.
  - intros m. reflexivity.
  - split; [|done]. repeat constructor; by vm_compute.
  - done.
  - repeat constructor; by vm_compute.
  - apply (bool_decide_unpack _). by vm_compute.
  - by vm_compute.
Defined.

(** * Behaviours of the engine that differ from its documentation or from HTTP/2

    Theorems and evaluated runs of the model: each shows one behaviour of
    engine.rs that the theorems of the other files do not rule out. *)
Import profile engine.

(** A peer SETTINGS frame with one parameter. *)
Definition setting (id value : Z) (e : H2Engine RefDecoder ImmediateFlowControl) :=
  handle_settings any_order (mkSettings false [mkParam id value]) (mkCtx e [] []).

(** Raising INITIAL_WINDOW_SIZE opens the stream's window, but the body that
    waits for it is not sent: only a WINDOW_UPDATE frame drains it. *)
Example settings_raise_does_not_drain :
  let run :=
    c1 ← setting 4 3 demo_engine;
    '(fs, e2) ← build_data 1 [1; 2; 3; 4; 5] true (c_engine c1);
    c3 ← setting 4 100 e2;
    Some (bodies fs, window_of 1 (c_engine c3), e_pending_data (c_engine c3), c_outbound c3) in
  run = Some ([1; 2; 3], 97, [mkPending 1 [4; 5] true], [make_settings_ack]).
Proof. by vm_compute. Qed.

(** Between HEADERS without END_HEADERS and its CONTINUATION any other frame is
    handled as usual. *)
Example interleaved_frame_accepted :
  let c0 := mkCtx demo_engine [] [] in
  let c1 := handle_headers (mkHeaders 1 [130] false false None None) c0 in
  continuation.is_active (e_continuation (c_engine c1)) = true /\
  handle_frame any_order (FPing (mkPing false [1; 2; 3; 4; 5; 6; 7; 8])) c1
  = Some (mkCtx (c_engine c1) [PingAck] [FPing (mkPing true [1; 2; 3; 4; 5; 6; 7; 8])]).
Proof. by vm_compute. Qed.

(** A Firefox client with the Firefox policy on a server that announces a 1 MiB
    initial window (for what it receives). *)
Definition firefox_engine : H2Engine RefDecoder FlowControl :=
  let b := behavior firefox_147_h2 in
  (client_with_policies firefox_147_h2 (flow_control b) (Some (hpack_policy b))).1.

Definition receive (n : nat) (e : H2Engine RefDecoder FlowControl) : Ctx :=
  handle_data (mkData 1 (replicate n 0) false None) (mkCtx e [] []).

Fixpoint receive_many (k n : nat) (e : H2Engine RefDecoder FlowControl) : list H2Frame * H2Engine RefDecoder FlowControl :=
  match k with
  | O => ([], e)
  | S k => let c := receive n e in let '(fs, e) := receive_many k n (c_engine c) in (c_outbound c ++ fs, e)
  end.

(** ** Claims *)

(** A DATA frame for a stream that may no longer receive costs connection
    window that is never given back: under every lawful policy the window plus
    the credit the policy still owes drops by the frame's flow-controlled length,
    and the only frame sent is the RST_STREAM. *)
Theorem closed_stream_data_leaks_credit {D F : Type} `{HpackDecoder D} `{FlowControlLaws F}
    (f : DataFrame) (c : Ctx (D := D) (F := F)) st :
  engine_inv (c_engine c) -> flow_len_of f <= conn_state.recv_window (c_state c) ->
  conn_state.streams (c_state c) !! df_stream_id f = Some st ->
  stream.can_receive (stream.state st) = false ->
  conn_credit (c_engine (handle_data f c)) = conn_credit (c_engine c) - flow_len_of f /\
  c_outbound (handle_data f c)
    = c_outbound c ++ [FRstStream (mkRst (df_stream_id f) (conn_state.code_as_u32 StreamClosedCode))].
Proof.
  intros Hc Hle Hst Hcl. destruct (handle_data_paid f c Hc Hle) as (s & Hs & Hsi & Hst' & Hcr).
  unfold handle_data. rewrite Hs. unfold conn_state.get_stream. rewrite Hst', Hst, Hcl. cbn [negb].
  split; [|done]. rewrite <- Hcr. unfold emit_rst_stream, conn_credit. cbn.
  unfold reset_stream, conn_state.get_stream. by destruct (conn_state.streams s !! _).
Qed.

(** Stream 1 of the demonstration engine after the peer has ended it. *)
Definition ended : Ctx (D := RefDecoder) (F := ImmediateFlowControl) :=
  handle_data (mkData 1 [1; 2] true None) (mkCtx demo_engine [] []).

Lemma closed_stream_data_leaks_credit_witness :
  let f := mkData 1 [3; 4; 5] false None in
  conn_credit (c_engine (handle_data f ended)) = conn_credit (c_engine ended) - 3.
Proof.
  refine (proj1 (closed_stream_data_leaks_credit (mkData 1 [3; 4; 5] false None) ended _ _ _ eq_refl _)).
  - apply handle_data_inv, demo_engine_inv.
  - by vm_compute.
  - by vm_compute.
Defined.

(** No SETTINGS frame ever sends a waiting body, not even one that raises
    the initial window: whatever the peer announces, the held-back bodies stay
    as they are and no frame that carries body bytes is put out. *)
Theorem settings_never_drain {D F : Type} `{HpackDecoder D} `{FlowControlPolicy F}
    (iter : gmap Z stream.H2Stream -> list Z) (f : SettingsFrame) (c c' : Ctx (D := D) (F := F)) :
  handle_settings iter f c = Some c' ->
  e_pending_data (c_engine c') = e_pending_data (c_engine c) /\
  exists out, c_outbound c' = c_outbound c ++ out /\ bodies out = [].
Proof.
  unfold handle_settings. intros Hs. destruct (sf_ack f).
  - destruct (conn_state.apply_remote_settings _ _ _) as [[err|] s]; injection Hs as <-.
    all: split; [done|]; exists []; by rewrite app_nil_r.
  - destruct (conn_state.apply_remote_settings _ _ _) as [[err|] s].
    + injection Hs as <-. split; [done|]. by eexists.
    + destruct (if negb _ then _ else _) as [s'|]; [|done]. injection Hs as <-.
      split; [done|]. by eexists.
Qed.

(** The demonstration engine with two bytes of stream 1 waiting for a window. *)
Definition waiting : Ctx (D := RefDecoder) (F := ImmediateFlowControl) :=
  default (mkCtx demo_engine [] [])
    (c1 ← setting 4 3 demo_engine;
     '(fs, e2) ← build_data 1 [1; 2; 3; 4; 5] true (c_engine c1);
     Some (mkCtx e2 [] fs)).

Lemma settings_never_drain_witness :
  match handle_settings any_order (mkSettings false [mkParam 4 100]) waiting with
  | Some c' => e_pending_data (c_engine c') = [mkPending 1 [4; 5] true]
  | None => False
  end.
Proof.
  destruct (handle_settings any_order (mkSettings false [mkParam 4 100]) waiting) as [c'|] eqn:Es.
  - apply (settings_never_drain any_order (mkSettings false [mkParam 4 100])) in Es as [-> _].
    by vm_compute.
  - by vm_compute in Es.
Defined.

(** Seen from the peer: on this run, after the window has opened through
    SETTINGS, data handed over later overtakes the held-back part of the body
    and the stream carries 1 2 3 6 7 4 5 for the body 1 2 3 4 5 6 7. *)
Theorem held_back_body_is_overtaken :
  let run :=
    c1 ← setting 4 3 demo_engine;
    '(fs1, e2) ← build_data 1 [1; 2; 3; 4; 5] false (c_engine c1);
    c3 ← setting 4 100 e2;
    '(fs2, e4) ← build_data 1 [6; 7] false (c_engine c3);
    c5 ← handle_window_update (mkWindowUpdate 0 10) (mkCtx e4 [] []);
    Some (stream_bytes 1 (fs1 ++ fs2 ++ c_outbound c5)) in
  run = Some [1; 2; 3; 6; 7; 4; 5].
Proof. by vm_compute. Qed.

(** An oversized frame is never consumed: whatever engine meets a header
    that announces more than the maximum frame size, and however much input
    follows, [process] reports the error, queues one GOAWAY and returns the same
    engine and the whole input, so that the next call does it all again. *)
Theorem oversized_frame_never_consumed {D F : Type} `{HpackDecoder D} `{FlowControlPolicy F}
    (iter : gmap Z stream.H2Stream -> list Z) b0 b1 b2 b3 b4 b5 b6 b7 b8 (rest : bytes) h
    (e : H2Engine D F) :
  Header.parse b0 b1 b2 b3 b4 b5 b6 b7 b8 = Some h ->
  Codec.max_frame_size (e_codec e) < h_length h ->
  let input := b0 :: b1 :: b2 :: b3 :: b4 :: b5 :: b6 :: b7 :: b8 :: rest in
  process iter input e =
    Some (input, mkCtx e [EError (codec_error_display (TooLarge (h_length h) (Codec.max_frame_size (e_codec e))))]
                   [make_goaway ProtocolErrorCode e]).
Proof.
  intros Hh Hlt input. unfold process.
  assert (decode (e_codec e) input
    = Some (DError (TooLarge (h_length h) (Codec.max_frame_size (e_codec e))), input)) as Hd.
  { unfold decode. destruct (Z.ltb_spec (len input) FRAME_HEADER_SIZE) as [Hs|_].
    - exfalso. unfold input, len, FRAME_HEADER_SIZE in Hs. cbn [length] in Hs. lia.
    - unfold input. rewrite Hh. destruct (Z.ltb_spec (Codec.max_frame_size (e_codec e)) (h_length h)); [done|lia]. }
  cbn [process_loop c_engine]. by rewrite Hd.
Qed.

Lemma oversized_frame_never_consumed_witness :
  let input := [255; 255; 255; 0; 0; 0; 0; 0; 1; 42] in
  exists msg, process any_order input demo_engine
    = Some (input, mkCtx demo_engine [EError msg] [make_goaway ProtocolErrorCode demo_engine]).
Proof.
  eexists. eapply (oversized_frame_never_consumed any_order 255 255 255 0 0 0 0 0 1 [42]).
  - reflexivity.
  - by vm_compute.
Defined.

(** [is_goaway] does not tell that a GOAWAY was received: after a graceful
    one (NO_ERROR) it answers what it answered before, on every connection,
    although the connection has recorded the GOAWAY; nor does [can_open_stream],
    which offers new streams as before. *)
Theorem graceful_goaway_not_reported {D F : Type} `{HpackDecoder D} `{FlowControlPolicy F}
    (f : GoAwayFrame) (c : Ctx (D := D) (F := F)) :
  ga_error_code f = 0 ->
  let e' := c_engine (handle_goaway f c) in
  is_goaway e' = is_goaway (c_engine c) /\ can_open_stream e' = can_open_stream (c_engine c) /\
  conn_state.goaway_received (e_state e') = true.
Proof. intros Hcode. unfold is_goaway, handle_goaway. cbn. by rewrite Hcode. Qed.

Lemma graceful_goaway_not_reported_witness :
  let e' := c_engine (handle_goaway (mkGoAway 7 0 []) (mkCtx demo_engine [] [])) in
  is_goaway e' = false /\ can_open_stream e' = true /\
  conn_state.goaway_received (e_state e') = true.
Proof. by apply (graceful_goaway_not_reported (mkGoAway 7 0 []) (mkCtx demo_engine [] [])). Defined.

(** On this run the Firefox policy's threshold is computed from the
    server's window, half a MiB, while the client's own stream window is 128
    KiB: the server fills it without any stream WINDOW_UPDATE, and the next byte
    resets the stream. *)
Theorem firefox_stream_starves :
  let run :=
    c1 ← handle_settings any_order (mkSettings false [mkParam 4 1048576]) (mkCtx firefox_engine [] []);
    let e2 := (open_stream (c_engine c1)).2 in
    let '(fs, e3) := receive_many 64 2048 e2 in
    st ← conn_state.streams (e_state e3) !! 1;
    Some (fs, stream.recv_window st, c_outbound (receive 1 e3)) in
  run = Some ([], 0, [FRstStream (mkRst 1 (conn_state.code_as_u32 FlowControlErrorCode))]).
Proof. by vm_compute. Qed.
