(* ===== verification/Driver.v ===== *)
(** * Connection driver (lkh2/src/driver.rs)

    The task that owns a connection: it writes the preface, reads from the
    transport into the engine, hands the engine's events to the callers that
    wait for them and starts queued requests when the peer allows another
    stream.

    A channel is shared between the driver and a caller, so channels live in a
    store ([World]) and a sender is the key of its channel; moving a sender moves
    the key, and a sender that goes out of scope is dropped explicitly.  The
    transport is the class [Transport].  The iteration order of the table of
    pending streams is the parameter [order].  [None] is a panic of the engine.
    Tracing is not modelled; a time is a number of milliseconds. *)
From S2P Require Import Prelude Frame Codec Policy Profile Hpack Stream ConnState Engine.
Import profile engine.

Module driver.

(** ** Messages *)

Inductive DriverError : Type :=
| Io (msg : bytes)
| Protocol (msg : bytes)
| StreamResetError (code : Z)
| GoAwayError (msg : bytes)
| Shutdown
| ChannelClosed.

#[export] Instance DriverError_eq_dec : EqDecision DriverError.
Proof. solve_decision. Defined.

Definition error_display (e : DriverError) : bytes :=
  match e with
  | Io msg => ascii_bytes "I/O error: " ++ msg
  | Protocol msg => ascii_bytes "protocol error: " ++ msg
  | StreamResetError code => ascii_bytes ("stream reset: error_code=" +:+ pretty code)
  | GoAwayError msg => ascii_bytes "GOAWAY: " ++ msg
  | Shutdown => ascii_bytes "connection shut down"
  | ChannelClosed => ascii_bytes "channel closed"
  end.

(** [Result<A, DriverError>] as it travels through the channels. *)
Inductive Reply (A : Type) : Type :=
| ROk (a : A)
| RErr (e : DriverError).
#[global] Arguments ROk {A} a.
#[global] Arguments RErr {A} e.

Record NativeResponseHeaders : Type := mkResponse {
  status : Z;
  response_headers : list (bytes * bytes);
}.

(** [http::Request<Option<Bytes>>] by its parts, and the adapter's
    [NativeH2Request]. *)
Record HttpRequest : Type := mkHttpRequest {
  rq_method : bytes;
  rq_uri : Uri;
  rq_headers : list (bytes * bytes);
  rq_body : option bytes;
  rq_priority : option RequestPriority;
}.

Record NativeH2Request : Type := mkNativeRequest {
  nr_method : bytes;
  nr_uri : Uri;
  nr_ordered_headers : list (bytes * bytes);
  nr_body : option bytes;
  nr_priority : option RequestPriority;
}.

Inductive DriverCommand : Type :=
| SendRequest (request_id : Z) (request : HttpRequest) (headers_tx body_tx : Z) (pending_permit : bool)
| SendNativeRequest (request_id : Z) (request : NativeH2Request) (headers_tx body_tx : Z)
    (pending_permit : bool)
| CmdShutdown.

Inductive QueuedRequest : Type :=
| Request (request_id : Z) (request : HttpRequest) (headers_tx body_tx : Z) (pending_permit : bool)
| NativeRequest (request_id : Z) (request : NativeH2Request) (headers_tx body_tx : Z)
    (pending_permit : bool).

Record PendingStream : Type := mkPendingStream {
  ps_headers_tx : option Z;
  ps_body_tx : Z;
}.

(** ** Channels *)

(** A tokio oneshot: what became of its sender, and whether the receiver is
    gone. *)
Inductive OneshotState (A : Type) : Type :=
| Unsent
| Sent (a : A)
| Dropped.
#[global] Arguments Unsent {A}.
#[global] Arguments Sent {A} a.
#[global] Arguments Dropped {A}.

Record Oneshot (A : Type) : Type := mkOneshot {
  os_state : OneshotState A;
  os_closed : bool;
}.
#[global] Arguments mkOneshot {A}.
#[global] Arguments os_state {A}.
#[global] Arguments os_closed {A}.

(** A tokio unbounded channel with one sender: everything sent so far, whether
    the sender is alive and whether the receiver is gone. *)
Record Mpsc (A : Type) : Type := mkMpsc {
  mp_sent : list A;
  mp_alive : bool;
  mp_closed : bool;
}.
#[global] Arguments mkMpsc {A}.
#[global] Arguments mp_sent {A}.
#[global] Arguments mp_alive {A}.
#[global] Arguments mp_closed {A}.

Abbreviation HeadersChannel := (Oneshot (Reply NativeResponseHeaders)).
Abbreviation BodyChannel := (Mpsc (Reply bytes)).

(** [w_slots]: the free permits of the semaphore, when there is one. *)
Record World : Type := mkWorld {
  w_headers : gmap Z HeadersChannel;
  w_bodies : gmap Z BodyChannel;
  w_slots : option Z;
}.

Definition with_headers (m : gmap Z HeadersChannel) (w : World) : World :=
  mkWorld m (w_bodies w) (w_slots w).
Definition with_bodies (m : gmap Z BodyChannel) (w : World) : World :=
  mkWorld (w_headers w) m (w_slots w).

(** [headers_tx.send(r)]: a value for a closed receiver is lost. *)
Definition oneshot_send (t : Z) (r : Reply NativeResponseHeaders) (w : World) : World :=
  with_headers (alter (fun c => mkOneshot (if os_closed c then Dropped else Sent r) (os_closed c)) t
                  (w_headers w)) w.
Definition oneshot_drop (t : Z) (w : World) : World :=
  with_headers (alter (fun c => mkOneshot Dropped (os_closed c)) t (w_headers w)) w.
Definition mpsc_send (t : Z) (x : Reply bytes) (w : World) : World :=
  with_bodies (alter (fun c => mkMpsc (if mp_closed c then mp_sent c else mp_sent c ++ [x])
                                 (mp_alive c) (mp_closed c)) t (w_bodies w)) w.
Definition mpsc_drop (t : Z) (w : World) : World :=
  with_bodies (alter (fun c => mkMpsc (mp_sent c) false (mp_closed c)) t (w_bodies w)) w.
Definition permit_drop (permit : bool) (w : World) : World :=
  if permit then mkWorld (w_headers w) (w_bodies w) (Z.succ <$> w_slots w) else w.

Definition headers_closed (t : Z) (w : World) : bool :=
  match w_headers w !! t with Some c => os_closed c | None => true end.
Definition body_closed (t : Z) (w : World) : bool :=
  match w_bodies w !! t with Some c => mp_closed c | None => true end.

(** [oneshot::channel()] and [mpsc::unbounded_channel()] under a new key. *)
Definition new_channels (t : Z) (w : World) : World :=
  mkWorld (<[t := mkOneshot Unsent false]> (w_headers w)) (<[t := mkMpsc [] true false]> (w_bodies w))
    (w_slots w).

(** ** The first request *)

Record FirstRequest : Type := mkFirst {
  fr_request : HttpRequest;
  fr_headers_tx : Z;
  fr_body_tx : Z;
}.

(** [FirstRequest::new]; the receivers are the other ends of the key. *)
Definition FirstRequest_new (request : HttpRequest) (t : Z) (w : World) : FirstRequest * World :=
  (mkFirst request t t, new_channels t w).

(** ** Queued requests *)

Definition request_id (q : QueuedRequest) : Z :=
  match q with Request i _ _ _ _ | NativeRequest i _ _ _ _ => i end.
Definition q_headers_tx (q : QueuedRequest) : Z :=
  match q with Request _ _ h _ _ | NativeRequest _ _ h _ _ => h end.
Definition q_body_tx (q : QueuedRequest) : Z :=
  match q with Request _ _ _ b _ | NativeRequest _ _ _ b _ => b end.
Definition q_permit (q : QueuedRequest) : bool :=
  match q with Request _ _ _ _ p | NativeRequest _ _ _ _ p => p end.

Definition is_canceled (q : QueuedRequest) (w : World) : bool :=
  headers_closed (q_headers_tx q) w && body_closed (q_body_tx q) w.

(** A request, or a pending stream, that goes out of scope. *)
Definition drop_request (q : QueuedRequest) (w : World) : World :=
  permit_drop (q_permit q) (mpsc_drop (q_body_tx q) (oneshot_drop (q_headers_tx q) w)).

Definition drop_option (t : option Z) (w : World) : World :=
  match t with Some t => oneshot_drop t w | None => w end.
Definition send_option (t : option Z) (r : Reply NativeResponseHeaders) (w : World) : World :=
  match t with Some t => oneshot_send t r w | None => w end.

Definition drop_stream (ps : PendingStream) (w : World) : World :=
  mpsc_drop (ps_body_tx ps) (drop_option (ps_headers_tx ps) w).

(** [waiting.iter().position(..)] and [waiting.remove(index)]. *)
Fixpoint remove_waiting_request (waiting : list QueuedRequest) (id : Z) (w : World)
    : bool * list QueuedRequest * World :=
  match waiting with
  | [] => (false, [], w)
  | q :: waiting =>
      if request_id q =? id then (true, waiting, drop_request q w)
      else let '(found, waiting, w) := remove_waiting_request waiting id w in (found, q :: waiting, w)
  end.

(** Both errors, then the request is dropped with its permit. *)
Definition notify_request (err : DriverError) (w : World) (q : QueuedRequest) : World :=
  permit_drop (q_permit q)
    (mpsc_drop (q_body_tx q)
       (mpsc_send (q_body_tx q) (RErr err) (oneshot_send (q_headers_tx q) (RErr err) w))).

Definition notify_waiting_error (waiting : list QueuedRequest) (err : DriverError) (w : World) : World :=
  foldl (notify_request err) w waiting.

Definition notify_stream (err : DriverError) (ps : PendingStream) (w : World) : World :=
  mpsc_drop (ps_body_tx ps)
    (mpsc_send (ps_body_tx ps) (RErr err) (send_option (ps_headers_tx ps) (RErr err) w)).

(** ** Pending streams *)

Abbreviation Pending := (gmap Z PendingStream).

(** [HashMap::insert]: a stream that was there under the key is dropped. *)
Definition insert_pending (stream_id : Z) (ps : PendingStream) (pending : Pending) (w : World)
    : Pending * World :=
  (<[stream_id := ps]> pending,
   match pending !! stream_id with Some old => drop_stream old w | None => w end).

(** ** Events *)

Definition is_interim_status (status : Z) : bool := (100 <=? status) && (status <? 200).

Section events.
Context (order : Pending -> list (Z * PendingStream)).

Definition notify_all_error (pending : Pending) (err : DriverError) (w : World) : World :=
  foldl (fun w kv => notify_stream err kv.2 w) w (order pending).

Definition goaway_message (error_code : Z) (debug_data : bytes) : bytes :=
  ascii_bytes ("error_code=" +:+ pretty error_code +:+ ", debug=") ++ from_utf8_lossy debug_data.

(** One stale stream of a graceful GOAWAY: its body sender is dropped. *)
Definition reject_stream (sid : Z) (st : Pending * World) : Pending * World :=
  let '(pending, w) := st in
  match pending !! sid with
  | Some ps =>
      (delete sid pending,
       mpsc_drop (ps_body_tx ps)
         (send_option (ps_headers_tx ps)
            (RErr (GoAwayError (ascii_bytes "stream rejected by GOAWAY"))) w))
  | None => (pending, w)
  end.

Definition on_response_headers (stream_id : Z) (hs : list (bytes * bytes)) (end_stream : bool)
    (pending : Pending) (w : World) : Pending * World :=
  match pending !! stream_id with
  | None => (pending, w)
  | Some ps =>
      let status := default 0 (hpack.get_status hs) in
      if is_interim_status status then (pending, w) else
      let w := send_option (ps_headers_tx ps) (ROk (mkResponse status hs)) w in
      let ps := mkPendingStream None (ps_body_tx ps) in
      if end_stream then (delete stream_id pending, drop_stream ps w)
      else (<[stream_id := ps]> pending, w)
  end.

Definition on_response_data (stream_id : Z) (data : bytes) (end_stream : bool) (pending : Pending)
    (w : World) : Pending * World :=
  match pending !! stream_id with
  | None => (pending, w)
  | Some ps =>
      let w := if negb (is_empty data) then mpsc_send (ps_body_tx ps) (ROk data) w else w in
      if end_stream then (delete stream_id pending, drop_stream ps w) else (pending, w)
  end.

Definition handle_event (ev : H2Event) (st : Pending * World) : Pending * World :=
  let '(pending, w) := st in
  match ev with
  | ResponseHeaders stream_id hs end_stream => on_response_headers stream_id hs end_stream pending w
  | ResponseData stream_id data end_stream => on_response_data stream_id data end_stream pending w
  | StreamReset stream_id error_code =>
      match pending !! stream_id with
      | Some ps => (delete stream_id pending, notify_stream (StreamResetError error_code) ps w)
      | None => (pending, w)
      end
  | GoAwayEvent last_stream_id error_code debug_data =>
      if negb (error_code =? 0) then
        (∅, notify_all_error pending (GoAwayError (goaway_message error_code debug_data)) w)
      else
        let stale := filter (fun sid => last_stream_id < sid) (order pending).*1 in
        foldl (fun st sid => reject_stream sid st) (pending, w) stale
  | EError _ | _ => (pending, w)
  end.

Definition handle_events (evs : list H2Event) (st : Pending * World) : Pending * World :=
  foldl (fun st ev => handle_event ev st) st evs.

End events.

(** ** Transport

    [AsyncWrite]: each call gives the error's text or nothing, and the new state
    of the transport. *)
Class Transport (S : Type) : Type := {
  write_all : bytes -> S -> option bytes * S;
  flush : S -> option bytes * S;
}.

Section write.
Context {S : Type} `{Transport S}.

(** [stream.write_all(&output).await?; stream.flush().await?]. *)
Definition write_flush (output : bytes) (s : S) : option bytes * S :=
  let '(r, s) := write_all output s in
  match r with
  | Some err => (Some err, s)
  | None => flush s
  end.

Fixpoint write_groups (groups : list FrameGroup) (s : S) : option bytes * S :=
  match groups with
  | [] => (None, s)
  | group :: groups =>
      let output := encode_frames group [] in
      if negb (is_empty output) then
        let '(r, s) := write_flush output s in
        match r with
        | Some err => (Some err, s)
        | None => write_groups groups s
        end
      else write_groups groups s
  end.

Definition encode_and_write_frames (write_policy : ConfigurableWritePolicy) (frames : list H2Frame)
    (s : S) : option bytes * S :=
  write_groups (group_frames write_policy frames) s.

(** [b"PRI * HTTP/2.0\r\n\r\nSM\r\n\r\n"]. *)
Definition CONNECTION_PREFACE : bytes :=
  ascii_bytes "PRI * HTTP/2.0" ++ [13; 10; 13; 10] ++ ascii_bytes "SM" ++ [13; 10; 13; 10].

(** The preface loop; [first] is [i == 0]. *)
Fixpoint write_preface (first : bool) (groups : list FrameGroup) (s : S) : option bytes * S :=
  match groups with
  | [] => (None, s)
  | group :: groups =>
      let buf := if first then CONNECTION_PREFACE else [] in
      let '(r, s) := write_flush (encode_frames group buf) s in
      match r with
      | Some err => (Some err, s)
      | None => write_preface false groups s
      end
  end.

End write.

(** ** The driver task *)

Record Driver (D F S : Type) : Type := mkDriver {
  d_stream : S;
  d_engine : H2Engine D F;
  d_write_policy : ConfigurableWritePolicy;
  d_read_buf : bytes;
  d_pending : Pending;
  d_waiting : list QueuedRequest;
  d_shutdown : bool;
  d_cancel_rx_open : bool;
  d_shutdown_deadline : option Z;
}.
#[global] Arguments mkDriver {D F S}.
#[global] Arguments d_stream {D F S}.
#[global] Arguments d_engine {D F S}.
#[global] Arguments d_write_policy {D F S}.
#[global] Arguments d_read_buf {D F S}.
#[global] Arguments d_pending {D F S}.
#[global] Arguments d_waiting {D F S}.
#[global] Arguments d_shutdown {D F S}.
#[global] Arguments d_cancel_rx_open {D F S}.
#[global] Arguments d_shutdown_deadline {D F S}.

(** What [stream.read_buf] gives. *)
Inductive ReadResult : Type :=
| ReadEof
| ReadOk (data : bytes)
| ReadErr (msg : bytes).

(** The branch of the [select!] that is ready. *)
Inductive Branch : Type :=
| Cancelled (request_id : option Z)
| Read (r : ReadResult)
| Command (cmd : option DriverCommand)
| Deadline.

Inductive Flow : Type := Continue | Break.

Section loop.
Context {D F S : Type} `{HpackDecoder D} `{FlowControlPolicy F} `{Transport S}.
Context (iter : gmap Z stream.H2Stream -> list Z) (order : Pending -> list (Z * PendingStream)).
Context (to_str : bytes -> option bytes).
Implicit Types (d : Driver D F S) (w : World).

Definition with_queues (pending : Pending) (waiting : list QueuedRequest) d : Driver D F S :=
  mkDriver (d_stream d) (d_engine d) (d_write_policy d) (d_read_buf d) pending waiting (d_shutdown d)
    (d_cancel_rx_open d) (d_shutdown_deadline d).
Definition with_io (s : S) (e : H2Engine D F) (buf : bytes) d : Driver D F S :=
  mkDriver s e (d_write_policy d) buf (d_pending d) (d_waiting d) (d_shutdown d)
    (d_cancel_rx_open d) (d_shutdown_deadline d).
Definition with_cancel_open (b : bool) d : Driver D F S :=
  mkDriver (d_stream d) (d_engine d) (d_write_policy d) (d_read_buf d) (d_pending d) (d_waiting d)
    (d_shutdown d) b (d_shutdown_deadline d).
Definition with_shutdown (deadline : option Z) d : Driver D F S :=
  mkDriver (d_stream d) (d_engine d) (d_write_policy d) (d_read_buf d) (d_pending d) (d_waiting d)
    true (d_cancel_rx_open d) deadline.

Definition queues_empty d : bool :=
  bool_decide (d_pending d = ∅) && is_empty (d_waiting d).

(** [notify_all_error] and [notify_waiting_error], which also drain the queues. *)
Definition fail_all (err : DriverError) d w : Driver D F S * World :=
  (with_queues ∅ [] d, notify_waiting_error (d_waiting d) err (notify_all_error order (d_pending d) err w)).

(** *** Starting a request *)

Definition build_queued (stream_id : Z) (q : QueuedRequest) (e : H2Engine D F)
    : option (list H2Frame * H2Engine D F) :=
  match q with
  | Request _ r _ _ _ =>
      build_request to_str stream_id (rq_method r) (rq_uri r) (rq_headers r) (rq_body r) (rq_priority r) e
  | NativeRequest _ r _ _ _ =>
      build_native_request stream_id (nr_method r) (nr_uri r) (nr_ordered_headers r) (nr_body r)
        (nr_priority r) e
  end.

(** The [while engine.can_open_stream()] loop, over the queue it pops. *)
Fixpoint dispatch_loop (policy : ConfigurableWritePolicy) (waiting : list QueuedRequest) (s : S)
    (e : H2Engine D F) (pending : Pending) w
    : option (option DriverError * S * H2Engine D F * Pending * list QueuedRequest * World) :=
  match waiting with
  | [] => Some (None, s, e, pending, [], w)
  | q :: rest =>
      if negb (can_open_stream e) then Some (None, s, e, pending, waiting, w) else
      if is_canceled q w then dispatch_loop policy rest s e pending (drop_request q w) else
      let '(stream_id, e) := open_stream e in
      '(frames, e) ← build_queued stream_id q e;
      let w := permit_drop (q_permit q) w in
      let '(pending, w) :=
        insert_pending stream_id (mkPendingStream (Some (q_headers_tx q)) (q_body_tx q)) pending w in
      let '(r, s) := encode_and_write_frames policy frames s in
      match r with
      | Some err =>
          let error := Io err in
          let '(pending, w) :=
            match pending !! stream_id with
            | Some ps => (delete stream_id pending, notify_stream error ps w)
            | None => (pending, w)
            end in
          Some (Some error, s, e, pending, rest, w)
      | None => dispatch_loop policy rest s e pending w
      end
  end.

Definition dispatch_waiting_requests d w : option (option DriverError * Driver D F S * World) :=
  if is_goaway (d_engine d) then
    Some (None, with_queues (d_pending d) [] d,
          notify_waiting_error (d_waiting d) (GoAwayError (ascii_bytes "connection is draining")) w)
  else
    '(r, s, e, pending, waiting, w) ←
      dispatch_loop (d_write_policy d) (d_waiting d) (d_stream d) (d_engine d) (d_pending d) w;
    Some (r, with_queues pending waiting (with_io s e (d_read_buf d) d), w).

(** [into_parts] of the first request; headers without text are left out. *)
Definition native_of_http (r : HttpRequest) : NativeH2Request :=
  mkNativeRequest (rq_method r) (rq_uri r)
    (omap (fun '(name, value) => if is_pseudo name then None else (fun v => (name, v)) <$> to_str value)
       (rq_headers r))
    (rq_body r) (rq_priority r).

Definition write_first_request (first_req : FirstRequest) d w
    : option (option DriverError * Driver D F S * World) :=
  let '(stream_id, e) := open_stream (d_engine d) in
  let r := native_of_http (fr_request first_req) in
  '(frames, e) ← build_native_request stream_id (nr_method r) (nr_uri r) (nr_ordered_headers r)
                   (nr_body r) (nr_priority r) e;
  let '(pending, w) :=
    insert_pending stream_id (mkPendingStream (Some (fr_headers_tx first_req)) (fr_body_tx first_req))
      (d_pending d) w in
  let '(r, s) := encode_and_write_frames (d_write_policy d) frames (d_stream d) in
  match r with
  | Some err =>
      let '(pending, w) :=
        match pending !! stream_id with
        | Some ps => (delete stream_id pending,
                      mpsc_drop (ps_body_tx ps) (send_option (ps_headers_tx ps) (RErr (Io err)) w))
        | None => (pending, w)
        end in
      Some (Some (Io err), with_queues pending (d_waiting d) (with_io s e (d_read_buf d) d), w)
  | None => Some (None, with_queues pending (d_waiting d) (with_io s e (d_read_buf d) d), w)
  end.

(** The task up to the main loop: the error for [ready_tx], or the driver in
    front of the loop. *)
Definition driver_start (s : S) (e : H2Engine D F) (preface_frames : list H2Frame)
    (policy : ConfigurableWritePolicy) (first_request : option FirstRequest) w
    : option (option DriverError * Driver D F S * World) :=
  let '(r, s) := write_preface true (group_frames policy preface_frames) s in
  let d := mkDriver s e policy [] ∅ [] false true None in
  match r with
  | Some err =>
      let w := match first_request with
               | Some f => mpsc_drop (fr_body_tx f) (oneshot_drop (fr_headers_tx f) w)
               | None => w
               end in
      Some (Some (Io err), d, w)
  | None =>
      match first_request with
      | Some f => write_first_request f d w
      | None => Some (None, d, w)
      end
  end.

(** *** The main loop *)

Definition on_cancelled (r : option Z) d w : Driver D F S * World :=
  match r with
  | Some id =>
      let '(_, waiting, w) := remove_waiting_request (d_waiting d) id w in
      (with_queues (d_pending d) waiting d, w)
  | None => (with_cancel_open false d, w)
  end.

Definition on_read (r : ReadResult) d w : option (Flow * Driver D F S * World) :=
  match r with
  | ReadEof => let '(d, w) := fail_all (Io (ascii_bytes "connection closed")) d w in Some (Break, d, w)
  | ReadErr msg => let '(d, w) := fail_all (Io msg) d w in Some (Break, d, w)
  | ReadOk data =>
      '(rest, c) ← process iter (d_read_buf d ++ data) (d_engine d);
      let '(r, s) := if negb (is_empty (c_outbound c))
                     then encode_and_write_frames (d_write_policy d) (c_outbound c) (d_stream d)
                     else (None, d_stream d) in
      let d := with_io s (c_engine c) rest d in
      match r with
      | Some err => let '(d, w) := fail_all (Io err) d w in Some (Break, d, w)
      | None =>
          let '(pending, w) := handle_events order (c_events c) (d_pending d, w) in
          Some (Continue, with_queues pending (d_waiting d) d, w)
      end
  end.

Definition queue_request (q : QueuedRequest) d w : Driver D F S * World :=
  if negb (is_canceled q w) then (with_queues (d_pending d) (d_waiting d ++ [q]) d, w)
  else (d, drop_request q w).

Definition on_command (now : Z) (cmd : option DriverCommand) d w : Flow * Driver D F S * World :=
  match cmd with
  | Some (SendRequest id r headers_tx body_tx permit) =>
      let '(d, w) := queue_request (Request id r headers_tx body_tx permit) d w in (Continue, d, w)
  | Some (SendNativeRequest id r headers_tx body_tx permit) =>
      let '(d, w) := queue_request (NativeRequest id r headers_tx body_tx permit) d w in (Continue, d, w)
  | Some CmdShutdown | None =>
      if queues_empty d then (Break, with_shutdown (d_shutdown_deadline d) d, w)
      else (Continue,
            with_shutdown (match d_shutdown_deadline d with
                           | None => Some (now + 30000)
                           | Some t => Some t
                           end) d, w)
  end.

Definition on_deadline d w : Driver D F S * World := fail_all Shutdown d w.

(** The preconditions of the branches; the sleep ends at its deadline. *)
Definition enabled (now : Z) (b : Branch) d : bool :=
  match b with
  | Cancelled _ => d_cancel_rx_open d
  | Read _ => true
  | Command _ => negb (d_shutdown d)
  | Deadline => match d_shutdown_deadline d with Some t => t <=? now | None => false end
  end.

Definition on_branch (now : Z) (b : Branch) d w : option (Flow * Driver D F S * World) :=
  match b with
  | Cancelled r => let '(d, w) := on_cancelled r d w in Some (Continue, d, w)
  | Read r => on_read r d w
  | Command cmd => Some (on_command now cmd d w)
  | Deadline => let '(d, w) := on_deadline d w in Some (Break, d, w)
  end.

(** One round of the loop. *)
Definition driver_round (now : Z) (b : Branch) d w : option (Flow * Driver D F S * World) :=
  '(flow, d, w) ← on_branch now b d w;
  match flow with
  | Break => Some (Break, d, w)
  | Continue =>
      '(r, d, w) ← dispatch_waiting_requests d w;
      match r with
      | Some error => let '(d, w) := fail_all error d w in Some (Break, d, w)
      | None => Some (if d_shutdown d && queues_empty d then Break else Continue, d, w)
      end
  end.

(** The task's end: what is left in the queues goes out of scope. *)
Definition driver_exit d w : World :=
  foldl (fun w q => drop_request q w) (foldl (fun w kv => drop_stream kv.2 w) w (order (d_pending d)))
    (d_waiting d).

(** ** Callers

    The driver with the handles around it: the two command queues, the permits
    in the hands of callers that have not enqueued their request yet, and the
    callers that wait for response headers, by their channel.  [None] in place of
    the driver: the task has ended. *)

Record Sys : Type := mkSys {
  sy_driver : option (Driver D F S);
  sy_world : World;
  sy_cmds : list DriverCommand;
  sy_cancels : list Z;
  sy_next_request_id : Z;
  sy_holding : nat;
  sy_callers : gmap Z Z;
}.

Definition with_slots (slots : option Z) w : World := mkWorld (w_headers w) (w_bodies w) slots.

(** [spawn_driver_with_first_request_and_config], the caller of the driver task:
    the error it returns, or the running system. *)
Definition spawn_driver (s : S) (p : H2Profile) (flow_control : F) (hpack_policy : HpackEncodePolicy)
    (policy : ConfigurableWritePolicy) (first_request : option FirstRequest)
    (max_pending_requests : option Z) w : option (Reply Sys) :=
  if bool_decide (max_pending_requests = Some 0) then
    Some (RErr (Protocol (ascii_bytes "max_pending_requests must be greater than zero")))
  else
    let '(e, preface_frames) := client_with_policies p flow_control (Some hpack_policy) in
    '(r, d, w) ← driver_start s e preface_frames policy first_request (with_slots max_pending_requests w);
    Some (match r with
          | Some err => RErr (Io (error_display err))
          | None => ROk (mkSys (Some d) w [] [] 1 0 ∅)
          end).

(** [acquire_pending_permit]; the outer [None] is a caller that waits. *)
Definition acquire_pending_permit (sy : Sys) : option (Reply bool * Sys) :=
  match w_slots (sy_world sy) with
  | None => Some (ROk false, sy)
  | Some free =>
      match sy_driver sy with
      | None => Some (RErr Shutdown, sy)
      | Some _ =>
          if 0 <? free then
            Some (ROk true,
                  mkSys (sy_driver sy) (with_slots (Some (free - 1)) (sy_world sy)) (sy_cmds sy)
                    (sy_cancels sy) (sy_next_request_id sy) (1 + sy_holding sy) (sy_callers sy))
          else None
      end
  end.

(** A caller that goes away with its permit. *)
Definition release_permit (sy : Sys) : option Sys :=
  match sy_holding sy with
  | O => None
  | Datatypes.S holding =>
      Some (mkSys (sy_driver sy) (permit_drop true (sy_world sy)) (sy_cmds sy) (sy_cancels sy)
              (sy_next_request_id sy) holding (sy_callers sy))
  end.

(** The permit goes from the caller's hand into the command; there is one when
    there is a semaphore. *)
Definition take_permit (permit : bool) (holding : nat) : option nat :=
  if permit then match holding with O => None | Datatypes.S holding => Some holding end
  else Some holding.

Definition make_command (id : Z) (request : HttpRequest + NativeH2Request) (t : Z) (permit : bool)
    : DriverCommand :=
  match request with
  | inl r => SendRequest id r t t permit
  | inr r => SendNativeRequest id r t t permit
  end.

(** [send_request] and [send_native_request] from the permit to the command
    queue of 64, with channels under the new key [t]; the outer [None] is a
    caller that waits (or a key in use).  The receivers of a command that could
    not be sent are dropped with it. *)
Definition send_request (request : HttpRequest + NativeH2Request) (t : Z) (sy : Sys)
    : option (Reply unit * Sys) :=
  let w := sy_world sy in
  let permit := bool_decide (is_Some (w_slots w)) in
  if bool_decide (is_Some (w_headers w !! t) \/ is_Some (w_bodies w !! t)) then None else
  holding ← take_permit permit (sy_holding sy);
  let id := sy_next_request_id sy in
  let next := as_u64 (id + 1) in
  match sy_driver sy with
  | None =>
      Some (RErr ChannelClosed,
            mkSys None (permit_drop permit w) (sy_cmds sy) (sy_cancels sy) next holding (sy_callers sy))
  | Some d =>
      if (length (sy_cmds sy) <? 64)%nat then
        Some (ROk tt,
              mkSys (Some d) (new_channels t w) (sy_cmds sy ++ [make_command id request t permit])
                (sy_cancels sy) next holding (<[t := id]> (sy_callers sy)))
      else None
  end.

Definition close_headers (t : Z) w : World :=
  with_headers (alter (fun c => mkOneshot (os_state c) true) t (w_headers w)) w.
Definition close_body (t : Z) w : World :=
  with_bodies (alter (fun c => mkMpsc (mp_sent c) (mp_alive c) true) t (w_bodies w)) w.

(** A waiting caller is dropped: both receivers go, and the armed
    [RequestCancelGuard] reports the request. *)
Definition cancel_request (t : Z) (sy : Sys) : option Sys :=
  id ← sy_callers sy !! t;
  Some (mkSys (sy_driver sy) (close_body t (close_headers t (sy_world sy))) (sy_cmds sy)
          (sy_cancels sy ++ [id]) (sy_next_request_id sy) (sy_holding sy) (delete t (sy_callers sy))).

(** [headers_rx.await] is ready: the guard is disarmed unless the sender was
    dropped; on an error the body receiver goes with the call. *)
Definition await_headers (t : Z) (sy : Sys) : option (Reply NativeResponseHeaders * Sys) :=
  id ← sy_callers sy !! t;
  c ← w_headers (sy_world sy) !! t;
  let callers := delete t (sy_callers sy) in
  let w := close_headers t (sy_world sy) in
  match os_state c with
  | Unsent => None
  | Dropped =>
      Some (RErr ChannelClosed,
            mkSys (sy_driver sy) (close_body t w) (sy_cmds sy) (sy_cancels sy ++ [id])
              (sy_next_request_id sy) (sy_holding sy) callers)
  | Sent r =>
      Some (r, mkSys (sy_driver sy) (match r with ROk _ => w | RErr _ => close_body t w end)
                 (sy_cmds sy) (sy_cancels sy) (sy_next_request_id sy) (sy_holding sy) callers)
  end.

(** The consumer of a body goes away. *)
Definition drop_body (t : Z) (sy : Sys) : Sys :=
  mkSys (sy_driver sy) (close_body t (sy_world sy)) (sy_cmds sy) (sy_cancels sy)
    (sy_next_request_id sy) (sy_holding sy) (sy_callers sy).

Definition drop_command (w : World) (cmd : DriverCommand) : World :=
  match cmd with
  | SendRequest _ _ h b p | SendNativeRequest _ _ h b p =>
      permit_drop p (mpsc_drop b (oneshot_drop h w))
  | CmdShutdown => w
  end.

(** A round of the driver in the system; when the loop ends, everything the
    task and the command queue still own is dropped. *)
Definition system_round (now : Z) (b : Branch) (cmds : list DriverCommand) (cancels : list Z)
    (sy : Sys) : option Sys :=
  d ← sy_driver sy;
  if negb (enabled now b d) then None else
  '(flow, d, w) ← driver_round now b d (sy_world sy);
  Some (match flow with
        | Continue =>
            mkSys (Some d) w cmds cancels (sy_next_request_id sy) (sy_holding sy) (sy_callers sy)
        | Break =>
            mkSys None (foldl drop_command (driver_exit d w) cmds) [] cancels (sy_next_request_id sy)
              (sy_holding sy) (sy_callers sy)
        end).

(** What a branch takes from the queues. *)
Definition pop_queues (b : Branch) (cmds : list DriverCommand) (cancels : list Z)
    : option (list DriverCommand * list Z) :=
  match b, cmds, cancels with
  | Cancelled (Some id), _, id' :: cancels => if id =? id' then Some (cmds, cancels) else None
  | Cancelled (Some _), _, [] => None
  | Cancelled None, _, _ => if is_empty cancels then Some (cmds, cancels) else None
  | Command (Some _), _ :: rest, _ => Some (rest, cancels)
  | Command (Some _), [], _ => None
  | Command None, _, _ => if is_empty cmds then Some (cmds, cancels) else None
  | _, _, _ => Some (cmds, cancels)
  end.

(** A received command is the head of the queue. *)
Definition branch_matches (b : Branch) (cmds : list DriverCommand) : Prop :=
  match b with Command (Some cmd) => head cmds = Some cmd | _ => True end.

Inductive sys_step : Sys -> Sys -> Prop :=
| step_acquire r sy sy' : acquire_pending_permit sy = Some (r, sy') -> sys_step sy sy'
| step_release sy sy' : release_permit sy = Some sy' -> sys_step sy sy'
| step_send request t r sy sy' : send_request request t sy = Some (r, sy') -> sys_step sy sy'
| step_shutdown sy d :
    sy_driver sy = Some d ->
    sys_step sy (mkSys (Some d) (sy_world sy) (sy_cmds sy ++ [CmdShutdown]) (sy_cancels sy)
                   (sy_next_request_id sy) (sy_holding sy) (sy_callers sy))
| step_cancel t sy sy' : cancel_request t sy = Some sy' -> sys_step sy sy'
| step_await t r sy sy' : await_headers t sy = Some (r, sy') -> sys_step sy sy'
| step_drop_body t sy : sys_step sy (drop_body t sy)
| step_round now b cmds cancels sy sy' :
    branch_matches b (sy_cmds sy) -> pop_queues b (sy_cmds sy) (sy_cancels sy) = Some (cmds, cancels) ->
    system_round now b cmds cancels sy = Some sy' -> sys_step sy sy'.

End loop.

End driver.
