(* ===== verification/DriverOwn.v ===== *)
(** * Ownership of channels and permits in the driver

    A sender of a channel is a token, and so is a permit of the semaphore.  [owns]
    says that the tokens in somebody's hands are exactly the senders that have
    neither sent nor been dropped, each in one place only, and the permits that
    are out.  Every function of the driver is given a specification that moves
    tokens and leaves the rest alone; the invariant of the whole system follows
    by induction on its steps. *)
From S2P Require Import Prelude Frame Codec Policy Profile Hpack Stream ConnState Engine Driver.
Import profile engine driver.

(** ** Tokens *)

Inductive token : Type := TH (t : Z) | TB (t : Z) | TP.

#[export] Instance token_eq_dec : EqDecision token.
Proof. solve_decision. Defined.

Fixpoint cnt (k : token) (l : list token) : nat :=
  match l with
  | [] => 0
  | x :: l => (if decide (x = k) then 1 else 0) + cnt k l
  end.

Lemma cnt_app k l l' : cnt k (l ++ l') = (cnt k l + cnt k l')%nat.
Proof. induction l as [|x l IH]; [done|]. cbn. rewrite IH. lia. Qed.

Lemma cnt_permutation k l l' : l ≡ₚ l' -> cnt k l = cnt k l'.
Proof. induction 1; cbn; lia. Qed.

Definition unsent (t : Z) (w : World) : nat :=
  match w_headers w !! t with
  | Some c => match os_state c with Unsent => 1 | _ => 0 end
  | None => 0
  end.
Definition alive (t : Z) (w : World) : nat :=
  match w_bodies w !! t with Some c => if mp_alive c then 1 else 0 | None => 0 end.

(** What does not change: the size of the semaphore, and header channels known
    to exist. *)
Record Fixed : Type := mkFixed {
  g_max : option Z;
  g_known : Z -> Prop;
}.

Definition owns (g : Fixed) (w : World) (l : list token) : Prop :=
  (forall t, cnt (TH t) l = unsent t w) /\ (forall t, cnt (TB t) l = alive t w) /\
  match g_max g with
  | Some m => exists free, w_slots w = Some free /\ 0 <= free /\ free + Z.of_nat (cnt TP l) = m
  | None => w_slots w = None
  end /\
  (forall t, g_known g t -> is_Some (w_headers w !! t)).

(** Only the counts matter. *)
Lemma owns_ext g w l l' : (forall k, cnt k l = cnt k l') -> owns g w l -> owns g w l'.
Proof.
  intros E (H1 & H2 & H3 & H4). split_and!; [intros t; by rewrite <- E|intros t; by rewrite <- E| |done].
  destruct (g_max g); by rewrite <- ?E.
Qed.

(** Rearranging tokens. *)
Ltac tokens :=
  let k := fresh "k" in intros k; repeat (cbn [cnt app] in * || rewrite !cnt_app in *); lia.

Ltac reorder H := refine (owns_ext _ _ _ _ _ H); tokens.

(** *** The primitive operations *)

Lemma unsent_alter f t t' w :
  (forall c, os_state (f c) <> Unsent) ->
  unsent t' (with_headers (alter f t (w_headers w)) w) = if decide (t' = t) then 0%nat else unsent t' w.
Proof.
  intros Hf. unfold unsent. cbn. destruct (decide (t' = t)) as [->|Hne].
  - rewrite lookup_alter_eq. destruct (w_headers w !! t) as [c|]; [|done]. cbn.
    specialize (Hf c). by destruct (os_state (f c)).
  - by rewrite lookup_alter_ne.
Qed.

Lemma owns_headers_gone g w f t l :
  (forall c, os_state (f c) <> Unsent) -> owns g w (TH t :: l) ->
  owns g (with_headers (alter f t (w_headers w)) w) l.
Proof.
  intros Hf (H1 & H2 & H3 & H4). split_and!.
  - intros t'. rewrite unsent_alter by done. specialize (H1 t'). cbn in H1.
    assert (unsent t' w <= 1)%nat.
    { unfold unsent. destruct (w_headers w !! t') as [c|]; [|lia]. destruct (os_state c); lia. }
    destruct (decide (t' = t)) as [->|Hne].
    + rewrite decide_True in H1 by done. lia.
    + rewrite decide_False in H1 by congruence. done.
  - intros t'. specialize (H2 t'). cbn in H2. exact H2.
  - destruct (g_max g); [|done]. cbn [cnt] in H3. exact H3.
  - intros t' Hk. by apply lookup_alter_is_Some, H4.
Qed.

Lemma owns_send g w t r l : owns g w (TH t :: l) -> owns g (oneshot_send t r w) l.
Proof. apply owns_headers_gone. intros c. cbn. by destruct (os_closed c). Qed.

Lemma owns_drop_headers g w t l : owns g w (TH t :: l) -> owns g (oneshot_drop t w) l.
Proof. by apply owns_headers_gone. Qed.

Lemma owns_mpsc_send g w t x l : owns g w l -> owns g (mpsc_send t x w) l.
Proof.
  intros (H1 & H2 & H3 & H4). split_and!; [done| |done|done]. intros t'. rewrite H2. unfold alive. cbn.
  destruct (decide (t' = t)) as [->|]; [|by rewrite lookup_alter_ne].
  rewrite lookup_alter_eq. by destruct (w_bodies w !! t).
Qed.

Lemma owns_drop_body g w t l : owns g w (TB t :: l) -> owns g (mpsc_drop t w) l.
Proof.
  intros (H1 & H2 & H3 & H4). split_and!.
  - intros t'. specialize (H1 t'). cbn in H1. exact H1.
  - intros t'. specialize (H2 t'). cbn in H2. unfold alive in *. cbn.
    destruct (decide (t' = t)) as [->|Hne].
    + rewrite lookup_alter_eq. rewrite decide_True in H2 by done.
      destruct (w_bodies w !! t) as [c|]; cbn; [|lia]. destruct (mp_alive c); lia.
    + rewrite lookup_alter_ne by done. rewrite decide_False in H2 by congruence. done.
  - destruct (g_max g); [|done]. cbn [cnt] in H3. exact H3.
  - exact H4.
Qed.

Definition permit_tokens (p : bool) : list token := if p then [TP] else [].

Lemma owns_permit_drop g w p l : owns g w (permit_tokens p ++ l) -> owns g (permit_drop p w) l.
Proof.
  destruct p; [|done]. intros (H1 & H2 & H3 & H4). split_and!.
  - intros t. specialize (H1 t). cbn in H1. exact H1.
  - intros t. specialize (H2 t). cbn in H2. exact H2.
  - cbn [permit_drop w_slots]. destruct (g_max g) as [m|]; [|by rewrite H3].
    destruct H3 as (free & -> & Hf & Hm). exists (free + 1). split; [done|].
    cbn [cnt permit_tokens app] in Hm. rewrite decide_True in Hm by done. lia.
  - exact H4.
Qed.

(** Closing a receiver moves no token. *)
Lemma owns_close_headers g w t l : owns g w l -> owns g (close_headers t w) l.
Proof.
  intros (H1 & H2 & H3 & H4). split_and!; [|done|done|intros t' Hk; by apply lookup_alter_is_Some, H4].
  intros t'. rewrite H1. unfold unsent. cbn.
  destruct (decide (t' = t)) as [->|]; [|by rewrite lookup_alter_ne].
  rewrite lookup_alter_eq. by destruct (w_headers w !! t).
Qed.

Lemma owns_close_body g w t l : owns g w l -> owns g (close_body t w) l.
Proof.
  intros (H1 & H2 & H3 & H4). split_and!; [done| |done|done]. intros t'. rewrite H2. unfold alive. cbn.
  destruct (decide (t' = t)) as [->|]; [|by rewrite lookup_alter_ne].
  rewrite lookup_alter_eq. by destruct (w_bodies w !! t).
Qed.

#[global] Opaque oneshot_send oneshot_drop mpsc_send mpsc_drop permit_drop close_headers close_body.

(** ** Tokens of the driver's data *)

Definition q_tokens (q : QueuedRequest) : list token :=
  TH (q_headers_tx q) :: TB (q_body_tx q) :: permit_tokens (q_permit q).
Definition ps_tokens (ps : PendingStream) : list token :=
  match ps_headers_tx ps with Some t => [TH t] | None => [] end ++ [TB (ps_body_tx ps)].
Definition cmd_tokens (c : DriverCommand) : list token :=
  match c with
  | SendRequest _ _ h b p | SendNativeRequest _ _ h b p => TH h :: TB b :: permit_tokens p
  | CmdShutdown => []
  end.

Definition tokens_of {A} (f : A -> list token) (l : list A) : list token := mjoin (f <$> l).
Definition p_tokens (m : Pending) : list token := tokens_of (fun kv => ps_tokens kv.2) (map_to_list m).

Lemma tokens_of_cons {A} (f : A -> list token) x l : tokens_of f (x :: l) = f x ++ tokens_of f l.
Proof. done. Qed.

Lemma tokens_of_app {A} (f : A -> list token) l l' : tokens_of f (l ++ l') = tokens_of f l ++ tokens_of f l'.
Proof. unfold tokens_of. by rewrite fmap_app, join_app. Qed.

Lemma cnt_tokens_of {A} (f : A -> list token) l l' k : l ≡ₚ l' -> cnt k (tokens_of f l) = cnt k (tokens_of f l').
Proof.
  induction 1 as [| | |l1 l2 l3 _ IH1 _ IH2]; rewrite ?tokens_of_cons, ?cnt_app; [done|lia|lia|congruence].
Qed.

Lemma p_tokens_insert i ps m k :
  m !! i = None -> cnt k (p_tokens (<[i := ps]> m)) = (cnt k (ps_tokens ps) + cnt k (p_tokens m))%nat.
Proof.
  intros Hi. unfold p_tokens. rewrite (cnt_tokens_of _ _ _ k (map_to_list_insert m i ps Hi)).
  by rewrite tokens_of_cons, cnt_app.
Qed.

Lemma p_tokens_delete i ps m k :
  m !! i = Some ps -> cnt k (p_tokens m) = (cnt k (ps_tokens ps) + cnt k (p_tokens (delete i m)))%nat.
Proof.
  intros Hi. rewrite <- (insert_delete_id m i ps Hi) at 1. by rewrite p_tokens_insert by apply lookup_delete_eq.
Qed.

(** ** Specifications *)

Section specs.
Context (g : Fixed).
Implicit Types (w : World) (l : list token).

Lemma owns_foldl {A} (f : A -> list token) (step : World -> A -> World) xs : forall w l,
  (forall x w l, owns g w (f x ++ l) -> owns g (step w x) l) ->
  owns g w (tokens_of f xs ++ l) -> owns g (foldl step w xs) l.
Proof.
  induction xs as [|x xs IH]; intros w l Hstep Hw; [done|]. cbn [foldl]. apply IH; [done|].
  apply Hstep. rewrite tokens_of_cons in Hw. by rewrite <- app_assoc in Hw.
Qed.

Lemma owns_drop_request q w l : owns g w (q_tokens q ++ l) -> owns g (drop_request q w) l.
Proof.
  intros Hw. apply owns_permit_drop, owns_drop_body, owns_drop_headers.
  refine (owns_ext _ _ _ _ _ Hw). unfold q_tokens. tokens.
Qed.

Lemma owns_notify_request err q w l : owns g w (q_tokens q ++ l) -> owns g (notify_request err w q) l.
Proof.
  intros Hw. apply owns_permit_drop, owns_drop_body, owns_mpsc_send, owns_send.
  refine (owns_ext _ _ _ _ _ Hw). unfold q_tokens. tokens.
Qed.

Lemma owns_send_option t r w l :
  owns g w (match t with Some t => [TH t] | None => [] end ++ l) -> owns g (send_option t r w) l.
Proof. destruct t; [apply owns_send|done]. Qed.

Lemma owns_drop_option t w l :
  owns g w (match t with Some t => [TH t] | None => [] end ++ l) -> owns g (drop_option t w) l.
Proof. destruct t; [apply owns_drop_headers|done]. Qed.

Lemma owns_drop_stream ps w l : owns g w (ps_tokens ps ++ l) -> owns g (drop_stream ps w) l.
Proof. intros Hw. apply owns_drop_body, owns_drop_option. refine (owns_ext _ _ _ _ _ Hw). unfold ps_tokens. tokens. Qed.

Lemma owns_notify_stream err ps w l : owns g w (ps_tokens ps ++ l) -> owns g (notify_stream err ps w) l.
Proof.
  intros Hw. apply owns_drop_body, owns_mpsc_send, owns_send_option.
  refine (owns_ext _ _ _ _ _ Hw). unfold ps_tokens. tokens.
Qed.

Lemma owns_insert_pending i ps m w l :
  owns g w (ps_tokens ps ++ p_tokens m ++ l) ->
  let '(m', w') := insert_pending i ps m w in owns g w' (p_tokens m' ++ l).
Proof.
  unfold insert_pending. intros Hw. destruct (m !! i) as [old|] eqn:Hi.
  - apply owns_drop_stream. refine (owns_ext _ _ _ _ _ Hw). intros k.
    rewrite <- insert_delete_eq. rewrite !cnt_app, p_tokens_insert by apply lookup_delete_eq.
    rewrite (p_tokens_delete i old m k Hi). lia.
  - refine (owns_ext _ _ _ _ _ Hw). intros k. rewrite !cnt_app, p_tokens_insert by done. lia.
Qed.

Lemma owns_remove_pending i ps m w l :
  m !! i = Some ps -> owns g w (p_tokens m ++ l) -> owns g w (ps_tokens ps ++ p_tokens (delete i m) ++ l).
Proof. intros Hi Hw. refine (owns_ext _ _ _ _ _ Hw). intros k. rewrite !cnt_app, (p_tokens_delete i ps m k Hi). lia. Qed.

Lemma owns_remove_waiting id qs : forall w l,
  owns g w (tokens_of q_tokens qs ++ l) ->
  let '(_, qs', w') := remove_waiting_request qs id w in owns g w' (tokens_of q_tokens qs' ++ l).
Proof.
  induction qs as [|q qs IH]; intros w l Hw; [done|]. cbn [remove_waiting_request].
  rewrite tokens_of_cons in Hw. destruct (request_id q =? id).
  - apply owns_drop_request. by rewrite <- app_assoc in Hw.
  - specialize (IH w (q_tokens q ++ l)). destruct (remove_waiting_request qs id w) as [[b qs'] w'].
    rewrite tokens_of_cons. refine (owns_ext _ _ _ _ _ (IH _)); [tokens|].
    refine (owns_ext _ _ _ _ _ Hw). tokens.
Qed.

Lemma owns_notify_waiting err qs w l :
  owns g w (tokens_of q_tokens qs ++ l) -> owns g (notify_waiting_error qs err w) l.
Proof. apply owns_foldl. intros q w' l'. apply owns_notify_request. Qed.

(** [order] lists every pending stream once. *)
Definition order_ok (order : Pending -> list (Z * PendingStream)) : Prop :=
  forall m, order m ≡ₚ map_to_list m.

Context (order : Pending -> list (Z * PendingStream)) (Horder : order_ok order).

Lemma owns_order m w l :
  owns g w (p_tokens m ++ l) -> owns g w (tokens_of (fun kv => ps_tokens kv.2) (order m) ++ l).
Proof.
  intros Hw. refine (owns_ext _ _ _ _ _ Hw). intros k. rewrite !cnt_app.
  unfold p_tokens. by rewrite (cnt_tokens_of _ _ _ k (Horder m)).
Qed.

Lemma owns_notify_all m err w l : owns g w (p_tokens m ++ l) -> owns g (notify_all_error order m err w) l.
Proof. intros Hw. eapply owns_foldl, owns_order, Hw. intros kv w' l'. apply owns_notify_stream. Qed.

Lemma p_tokens_empty : p_tokens ∅ = [].
Proof. done. Qed.

Lemma owns_reject sid m w l :
  owns g w (p_tokens m ++ l) ->
  let '(m', w') := reject_stream sid (m, w) in owns g w' (p_tokens m' ++ l).
Proof.
  intros Hw. cbn. destruct (m !! sid) as [ps|] eqn:Hi; [|done].
  apply owns_drop_body, owns_send_option. pose proof (owns_remove_pending _ _ _ _ _ Hi Hw) as Hw'.
  refine (owns_ext _ _ _ _ _ Hw'). unfold ps_tokens. tokens.
Qed.

Lemma owns_reject_all sids : forall m w l,
  owns g w (p_tokens m ++ l) ->
  let '(m', w') := foldl (fun st sid => reject_stream sid st) (m, w) sids in owns g w' (p_tokens m' ++ l).
Proof.
  induction sids as [|sid sids IH]; intros m w l Hw; [done|]. cbn [foldl].
  pose proof (owns_reject sid m w l Hw) as Hr. destruct (reject_stream sid (m, w)) as [m' w'].
  by apply IH.
Qed.

Lemma owns_handle_event ev m w l :
  owns g w (p_tokens m ++ l) ->
  let '(m', w') := handle_event order ev (m, w) in owns g w' (p_tokens m' ++ l).
Proof.
  intros Hw. destruct ev as [| |i hs es|i data es|i code| |last code dbg|i inc|msg]; cbn [handle_event]; try done.
  - unfold on_response_headers. destruct (m !! i) as [ps|] eqn:Hi; [|done].
    destruct (is_interim_status _); [done|].
    assert (owns g (send_option (ps_headers_tx ps) (ROk (mkResponse (default 0 (hpack.get_status hs)) hs)) w)
      ([TB (ps_body_tx ps)] ++ p_tokens (delete i m) ++ l)) as Hs.
    { apply owns_send_option. pose proof (owns_remove_pending _ _ _ _ _ Hi Hw) as Hw'.
      unfold ps_tokens in Hw'. by rewrite <- app_assoc in Hw'. }
    destruct es; [by apply owns_drop_stream|]. refine (owns_ext _ _ _ _ _ Hs). intros k.
    rewrite <- insert_delete_eq. rewrite !cnt_app, p_tokens_insert by apply lookup_delete_eq. cbn. lia.
  - unfold on_response_data. destruct (m !! i) as [ps|] eqn:Hi; [|done].
    assert (owns g (if negb (is_empty data) then mpsc_send (ps_body_tx ps) (ROk data) w else w)
      (p_tokens m ++ l)) as Hs by (destruct (negb _); [by apply owns_mpsc_send|done]).
    destruct es; [|done]. by apply owns_drop_stream, owns_remove_pending.
  - destruct (m !! i) as [ps|] eqn:Hi; [|done]. by apply owns_notify_stream, owns_remove_pending.
  - destruct (negb (code =? 0)); [by apply owns_notify_all|]. by apply owns_reject_all.
Qed.

Lemma owns_handle_events evs : forall m w l,
  owns g w (p_tokens m ++ l) ->
  let '(m', w') := handle_events order evs (m, w) in owns g w' (p_tokens m' ++ l).
Proof.
  unfold handle_events. induction evs as [|ev evs IH]; intros m w l Hw; [done|]. cbn [foldl].
  pose proof (owns_handle_event ev m w l Hw) as Hr. destruct (handle_event order ev (m, w)) as [m' w'].
  by apply IH.
Qed.

End specs.

(** ** The driver *)

Section driver_specs.
Context {D F S : Type} `{HpackDecoder D} `{FlowControlPolicy F} `{Transport S}.
Context (g : Fixed) (iter : gmap Z stream.H2Stream -> list Z).
Context (order : Pending -> list (Z * PendingStream)) (Horder : order_ok order).
Context (to_str : bytes -> option bytes).
Implicit Types (d : Driver D F S) (e : H2Engine D F) (s : S) (w : World) (l : list token).

Definition d_tokens d : list token := p_tokens (d_pending d) ++ tokens_of q_tokens (d_waiting d).

Lemma owns_fail_all err d w l :
  owns g w (d_tokens d ++ l) ->
  let '(d', w') := fail_all order err d w in owns g w' (d_tokens d' ++ l).
Proof.
  intros Hw. cbn. apply owns_notify_waiting, owns_notify_all; [done|].
  unfold d_tokens in Hw. by rewrite <- app_assoc in Hw.
Qed.

Lemma owns_dispatch_loop policy qs : forall s e m w l r s' e' m' qs' w',
  owns g w (p_tokens m ++ tokens_of q_tokens qs ++ l) ->
  dispatch_loop to_str policy qs s e m w = Some (r, s', e', m', qs', w') ->
  owns g w' (p_tokens m' ++ tokens_of q_tokens qs' ++ l).
Proof.
  induction qs as [|q qs IH]; intros s e m w l r s' e' m' qs' w' Hw Hd; cbn [dispatch_loop] in Hd.
  { by injection Hd as <- <- <- <- <- <-. }
  destruct (negb (can_open_stream e)). { by injection Hd as <- <- <- <- <- <-. }
  assert (owns g w (q_tokens q ++ p_tokens m ++ tokens_of q_tokens qs ++ l)) as Hq.
  { rewrite tokens_of_cons in Hw. reorder Hw. }
  destruct (is_canceled q w). { eapply IH, Hd. by apply owns_drop_request. }
  destruct (open_stream e) as [i e1]. destruct (build_queued to_str i q e1) as [[fs e2]|]; [|done].
  cbn [mbind option_bind] in Hd.
  set (ps := mkPendingStream (Some (q_headers_tx q)) (q_body_tx q)) in *.
  assert (owns g (permit_drop (q_permit q) w) (ps_tokens ps ++ p_tokens m ++ tokens_of q_tokens qs ++ l)) as Hp.
  { apply owns_permit_drop. refine (owns_ext _ _ _ _ _ Hq). unfold ps_tokens, q_tokens. cbn [ps ps_headers_tx ps_body_tx]. tokens. }
  pose proof (owns_insert_pending g i ps m _ _ Hp) as Hi.
  destruct (insert_pending i ps m (permit_drop (q_permit q) w)) as [m1 w1].
  destruct (encode_and_write_frames policy fs s) as [[err|] s1].
  - destruct (m1 !! i) as [ps1|] eqn:E1; injection Hd as <- <- <- <- <- <-; [|done].
    by apply owns_notify_stream, owns_remove_pending.
  - by eapply IH, Hd.
Qed.

Lemma owns_dispatch d w l r d' w' :
  owns g w (d_tokens d ++ l) -> dispatch_waiting_requests to_str d w = Some (r, d', w') ->
  owns g w' (d_tokens d' ++ l).
Proof.
  unfold dispatch_waiting_requests, d_tokens. intros Hw Hd. rewrite <- app_assoc in *.
  destruct (is_goaway (d_engine d)).
  - injection Hd as <- <- <-. cbn. apply owns_notify_waiting. reorder Hw.
  - destruct (dispatch_loop _ _ _ _ _ _ _) as [[[[[[r0 s] e] m] qs] w1]|] eqn:E; [|done].
    cbn [mbind option_bind] in Hd. injection Hd as <- <- <-. by eapply owns_dispatch_loop.
Qed.

(** A command in the hands of the driver. *)
Definition branch_tokens (b : Branch) : list token :=
  match b with Command (Some c) => cmd_tokens c | _ => [] end.

Lemma owns_queue_request q d w l :
  owns g w (q_tokens q ++ d_tokens d ++ l) ->
  let '(d', w') := queue_request q d w in owns g w' (d_tokens d' ++ l).
Proof.
  intros Hw. unfold queue_request. destruct (negb _); [|by apply owns_drop_request].
  unfold d_tokens in *. cbn [with_queues d_pending d_waiting]. rewrite tokens_of_app. refine (owns_ext _ _ _ _ _ Hw). intros k.
  change (tokens_of q_tokens [q]) with (q_tokens q ++ []). rewrite !cnt_app. cbn [cnt]. lia.
Qed.

Lemma owns_on_branch now b d w l flow d' w' :
  owns g w (branch_tokens b ++ d_tokens d ++ l) -> on_branch iter order now b d w = Some (flow, d', w') ->
  owns g w' (d_tokens d' ++ l).
Proof.
  intros Hw Hb. destruct b as [[id|]|[|data|msg]|[[id r h b p|id r h b p|]|]|]; cbn [on_branch branch_tokens app] in *.
  - unfold on_cancelled in Hb. pose proof (owns_remove_waiting g id (d_waiting d) w (p_tokens (d_pending d) ++ l)) as Hr.
    destruct (remove_waiting_request (d_waiting d) id w) as [[b qs] w1]. injection Hb as <- <- <-.
    unfold d_tokens in *. cbn [with_queues d_pending d_waiting].
    refine (owns_ext _ _ _ _ _ (Hr _)); [tokens|]. reorder Hw.
  - by injection Hb as <- <- <-.
  - unfold on_read in Hb. pose proof (owns_fail_all (Io (ascii_bytes "connection closed")) d w l Hw) as Hf.
    destruct (fail_all _ _ _ _) as [d1 w1]. by injection Hb as <- <- <-.
  - unfold on_read in Hb. destruct (process _ _ _) as [[rest c]|]; [|done]. cbn [mbind option_bind] in Hb.
    destruct (if negb _ then _ else _) as [[err|] s].
    + pose proof (owns_fail_all (Io err) (with_io s (c_engine c) rest d) w l Hw) as Hf.
      destruct (fail_all _ _ _ _) as [d1 w1]. by injection Hb as <- <- <-.
    + unfold d_tokens in Hw. rewrite <- app_assoc in Hw.
      pose proof (owns_handle_events g order Horder (c_events c) _ _ _ Hw) as He.
      cbn [with_io d_pending] in Hb. destruct (handle_events _ _ _) as [m1 w1]. injection Hb as <- <- <-.
      unfold d_tokens. cbn [with_queues with_io d_pending d_waiting]. by rewrite <- app_assoc.
  - unfold on_read in Hb. pose proof (owns_fail_all (Io msg) d w l Hw) as Hf.
    destruct (fail_all _ _ _ _) as [d1 w1]. by injection Hb as <- <- <-.
  - cbn [on_command] in Hb. pose proof (owns_queue_request (Request id r h b p) d w l Hw) as Hq.
    destruct (queue_request _ _ _) as [d1 w1]. by injection Hb as <- <- <-.
  - cbn [on_command] in Hb. pose proof (owns_queue_request (NativeRequest id r h b p) d w l Hw) as Hq.
    destruct (queue_request _ _ _) as [d1 w1]. by injection Hb as <- <- <-.
  - cbn [on_command] in Hb. by destruct (queues_empty d); injection Hb as <- <- <-.
  - cbn [on_command] in Hb. by destruct (queues_empty d); injection Hb as <- <- <-.
  - unfold on_deadline in Hb. pose proof (owns_fail_all Shutdown d w l Hw) as Hf.
    destruct (fail_all _ _ _ _) as [d1 w1]. by injection Hb as <- <- <-.
Qed.

Lemma owns_round now b d w l flow d' w' :
  owns g w (branch_tokens b ++ d_tokens d ++ l) ->
  driver_round iter order to_str now b d w = Some (flow, d', w') -> owns g w' (d_tokens d' ++ l).
Proof.
  intros Hw Hr. unfold driver_round in Hr.
  destruct (on_branch iter order now b d w) as [[[fl d1] w1]|] eqn:Eb; [|done]. cbn [mbind option_bind] in Hr.
  pose proof (owns_on_branch _ _ _ _ _ _ _ _ Hw Eb) as H1'.
  destruct fl; [|by injection Hr as <- <- <-].
  destruct (dispatch_waiting_requests to_str d1 w1) as [[[r d2] w2]|] eqn:Ed; [|done]. cbn [mbind option_bind] in Hr.
  pose proof (owns_dispatch _ _ _ _ _ _ H1' Ed) as H2'. destruct r as [err|].
  - pose proof (owns_fail_all err d2 w2 l H2') as Hf. destruct (fail_all _ _ _ _) as [d3 w3].
    by injection Hr as <- <- <-.
  - by injection Hr as <- <- <-.
Qed.

Lemma owns_exit d w l : owns g w (d_tokens d ++ l) -> owns g (driver_exit order d w) l.
Proof.
  intros Hw. unfold driver_exit. eapply owns_foldl; [intros q w' l'; apply owns_drop_request|].
  eapply owns_foldl; [intros kv w' l'; apply owns_drop_stream|]. apply owns_order; [done|].
  unfold d_tokens in Hw. by rewrite <- app_assoc in Hw.
Qed.

End driver_specs.
