(* ===== verification/DriverProps.v ===== *)
(** * What the driver promises its callers

    No request is lost: every sender of a response is in exactly one place while
    the task runs and gone when it has ended, so every caller gets an answer.
    The semaphore bounds the requests that wait.  A response is delivered to its
    caller exactly.  The driver survives anything the peer sends, and ends. *)
From S2P Require Import Prelude Frame Codec CodecProps Policy Profile Hpack Stream ConnState Engine EngineSend EngineProps Driver DriverOwn.
Import profile engine driver.

(** ** The invariant of the system *)

Section system.
Context {D F S : Type} `{HpackDecoder D} `{FlowControlPolicy F} `{Transport S}.
Context (iter : gmap Z stream.H2Stream -> list Z) (order : Pending -> list (Z * PendingStream)).
Context (to_str : bytes -> option bytes) (Horder : order_ok order).
Implicit Types (d : Driver D F S) (sy : Sys (D := D) (F := F) (S := S)) (w : World).

(** *** Requests enter the queue only through commands *)

Definition queued_of (c : DriverCommand) : list QueuedRequest :=
  match c with
  | SendRequest id r h b p => [Request id r h b p]
  | SendNativeRequest id r h b p => [NativeRequest id r h b p]
  | CmdShutdown => []
  end.

Definition branch_queued (b : Branch) : list QueuedRequest :=
  match b with Command (Some c) => queued_of c | _ => [] end.

Lemma remove_waiting_sub id qs w : (remove_waiting_request qs id w).1.2 ⊆ qs.
Proof.
  induction qs as [|q qs IH]; [done|]. cbn. destruct (request_id q =? id); [set_solver|].
  destruct (remove_waiting_request qs id w) as [[b qs'] w']. cbn in *. set_solver.
Qed.

Lemma dispatch_loop_suffix policy qs : forall s (e : H2Engine D F) m w r s' e' m' qs' w',
  dispatch_loop to_str policy qs s e m w = Some (r, s', e', m', qs', w') -> exists used, qs = used ++ qs'.
Proof.
  induction qs as [|q qs IH]; intros s e m w r s' e' m' qs' w' Hd; cbn [dispatch_loop] in Hd.
  { injection Hd as <- <- <- <- <- <-. by exists []. }
  assert (forall qs'', (exists used, qs = used ++ qs'') -> exists used, q :: qs = used ++ qs'') as Hcons.
  { intros qs'' [used ->]. by exists (q :: used). }
  destruct (negb (can_open_stream e)). { injection Hd as <- <- <- <- <- <-. by exists []. }
  destruct (is_canceled q w); [by eapply Hcons, IH|].
  destruct (open_stream e) as [i e1]. destruct (build_queued to_str i q e1) as [[fs e2]|]; [|done].
  cbn [mbind option_bind] in Hd. destruct (insert_pending _ _ _ _) as [m1 w1].
  destruct (encode_and_write_frames policy fs s) as [[err|] s1]; [|by eapply Hcons, IH].
  apply Hcons. exists []. destruct (m1 !! i); by injection Hd as <- <- <- <- <- <-.
Qed.

Lemma on_branch_waiting now b d w flow d' w' :
  on_branch iter order now b d w = Some (flow, d', w') -> d_waiting d' ⊆ d_waiting d ++ branch_queued b.
Proof.
  intros Hb. destruct b as [[id|]|[|data|msg]|[[id r h b p|id r h b p|]|]|]; cbn [on_branch] in Hb.
  - cbn in Hb. pose proof (remove_waiting_sub id (d_waiting d) w) as Hs.
    destruct (remove_waiting_request (d_waiting d) id w) as [[b qs] w1]. injection Hb as <- <- <-. cbn in *. set_solver.
  - injection Hb as <- <- <-. cbn. set_solver.
  - injection Hb as <- <- <-. cbn. set_solver.
  - unfold on_read in Hb. destruct (process _ _ _) as [[rest c]|]; [|done]. cbn [mbind option_bind] in Hb.
    destruct (if negb _ then _ else _) as [[err|] s]; [injection Hb as <- <- <-; cbn; set_solver|].
    destruct (handle_events _ _ _) as [m1 w1]. injection Hb as <- <- <-. cbn. set_solver.
  - injection Hb as <- <- <-. cbn. set_solver.
  - cbn in Hb. unfold queue_request in Hb. destruct (negb _); injection Hb as <- <- <-; cbn; set_solver.
  - cbn in Hb. unfold queue_request in Hb. destruct (negb _); injection Hb as <- <- <-; cbn; set_solver.
  - cbn in Hb. destruct (queues_empty d); injection Hb as <- <- <-; cbn; set_solver.
  - cbn in Hb. destruct (queues_empty d); injection Hb as <- <- <-; cbn; set_solver.
  - injection Hb as <- <- <-. cbn. set_solver.
Qed.

Lemma round_waiting now b d w flow d' w' :
  driver_round iter order to_str now b d w = Some (flow, d', w') -> d_waiting d' ⊆ d_waiting d ++ branch_queued b.
Proof.
  unfold driver_round. intros Hr. destruct (on_branch iter order now b d w) as [[[fl d1] w1]|] eqn:Eb; [|done].
  apply on_branch_waiting in Eb. cbn [mbind option_bind] in Hr.
  destruct fl; [|by injection Hr as <- <- <-].
  unfold dispatch_waiting_requests in Hr. destruct (is_goaway (d_engine d1)).
  { cbn [mbind option_bind] in Hr. injection Hr as <- <- <-. cbn. set_solver. }
  destruct (dispatch_loop _ _ _ _ _ _ _) as [[[[[[r0 s] e] m] qs] w2]|] eqn:E; [|done].
  apply dispatch_loop_suffix in E as [used E]. rewrite E in Eb. cbn [mbind option_bind] in Hr.
  destruct r0; injection Hr as <- <- <-; cbn; set_solver.
Qed.

(** *** The invariant *)

Definition driver_tokens (od : option (Driver D F S)) : list token :=
  match od with Some d => d_tokens d | None => [] end.

Definition sys_tokens sy : list token :=
  driver_tokens (sy_driver sy) ++ tokens_of cmd_tokens (sy_cmds sy) ++ replicate (sy_holding sy) TP.

Definition fixed_of (max : option Z) (callers : gmap Z Z) : Fixed :=
  mkFixed max (fun t => is_Some (callers !! t)).

Definition cmd_permit (c : DriverCommand) : bool := forallb q_permit (queued_of c).

Record sys_inv (max : option Z) sy : Prop := mkInv {
  inv_owns : owns (fixed_of max (sy_callers sy)) (sy_world sy) (sys_tokens sy);
  inv_gone : sy_driver sy = None -> sy_cmds sy = [];
  inv_permits : is_Some max ->
    (forall c, c ∈ sy_cmds sy -> cmd_permit c = true) /\
    (forall d q, sy_driver sy = Some d -> q ∈ d_waiting d -> q_permit q = true);
}.

Lemma owns_known (g g' : Fixed) w l :
  g_max g = g_max g' -> (forall t, g_known g' t -> g_known g t) -> owns g w l -> owns g' w l.
Proof. intros Hm Hk (H1' & H2' & H3 & H4). unfold owns. rewrite <- Hm. split_and!; auto. Qed.

Lemma owns_forget max callers t w l :
  owns (fixed_of max callers) w l -> owns (fixed_of max (delete t callers)) w l.
Proof.
  apply owns_known; [done|]. cbn. intros t' [x Hx]. exists x. by apply lookup_delete_Some in Hx as [_ ?].
Qed.

Lemma owns_new_channels max callers t id w l :
  w_headers w !! t = None -> w_bodies w !! t = None -> owns (fixed_of max callers) w l ->
  owns (fixed_of max (<[t := id]> callers)) (new_channels t w) (TH t :: TB t :: l).
Proof.
  intros Hh Hb (H1' & H2' & H3 & H4). split_and!.
  - intros t'. cbn [cnt]. rewrite (decide_False (P := TB t = TH t')) by done. unfold unsent. cbn [new_channels w_headers].
    rewrite H1'. unfold unsent. destruct (decide (t' = t)) as [->|Hne].
    + rewrite lookup_insert_eq, Hh, decide_True by done. done.
    + rewrite lookup_insert_ne by done. by rewrite decide_False by congruence.
  - intros t'. cbn [cnt]. rewrite (decide_False (P := TH t = TB t')) by done. unfold alive. cbn [new_channels w_bodies].
    rewrite H2'. unfold alive. destruct (decide (t' = t)) as [->|Hne].
    + rewrite lookup_insert_eq, Hb, decide_True by done. done.
    + rewrite lookup_insert_ne by done. by rewrite decide_False by congruence.
  - cbn in *. done.
  - cbn. intros t' Hk. destruct (decide (t' = t)) as [->|Hne].
    + by rewrite lookup_insert_eq.
    + rewrite lookup_insert_ne in Hk by done. rewrite lookup_insert_ne by done. by apply H4.
Qed.

Lemma owns_acquire g w l free :
  w_slots w = Some free -> 0 < free -> owns g w l -> owns g (with_slots (Some (free - 1)) w) (TP :: l).
Proof.
  intros Hs Hf (H1' & H2' & H3 & H4). split_and!; [done|done| |done].
  destruct (g_max g) as [m|]; [|congruence]. destruct H3 as (free' & Hs' & ? & Hm). exists (free - 1).
  split; [done|]. cbn [cnt]. rewrite decide_True by done. assert (free' = free) by congruence. lia.
Qed.

Lemma cnt_replicate k n : cnt k (replicate n TP) = if decide (TP = k) then n else 0%nat.
Proof. induction n as [|n IH]; cbn; [by destruct (decide _)|]. rewrite IH. destruct (decide _); lia. Qed.

(** *** Preservation *)

Lemma acquire_inv max sy r sy' : sys_inv max sy -> acquire_pending_permit sy = Some (r, sy') -> sys_inv max sy'.
Proof.
  intros [Ho Hg Hp] Ha. unfold acquire_pending_permit in Ha.
  destruct (w_slots (sy_world sy)) as [free|] eqn:Es; [|injection Ha as <- <-; by split].
  destruct (sy_driver sy) as [d|] eqn:Ed; [|injection Ha as <- <-; split; by rewrite ?Ed].
  destruct (Z.ltb_spec 0 free); [|done]. injection Ha as <- <-. split; [|done|done]. cbn [sy_world sy_callers].
  refine (owns_ext _ _ _ _ _ (owns_acquire _ _ _ _ Es ltac:(lia) Ho)).
  unfold sys_tokens. cbn [sy_driver sy_cmds sy_holding]. rewrite Ed. cbn [replicate Nat.add driver_tokens]. tokens.
Qed.

Lemma release_inv max sy sy' : sys_inv max sy -> release_permit sy = Some sy' -> sys_inv max sy'.
Proof.
  intros [Ho Hg Hp] Ha. unfold release_permit in Ha. destruct (sy_holding sy) as [|n] eqn:En; [done|].
  injection Ha as <-. split; [|done|done]. apply (owns_permit_drop _ _ true).
  refine (owns_ext _ _ _ _ _ Ho). unfold sys_tokens. cbn [sy_driver sy_cmds sy_holding]. rewrite En. cbn [replicate permit_tokens]. tokens.
Qed.

Lemma send_request_inv max sy request t r sy' :
  sys_inv max sy -> send_request request t sy = Some (r, sy') -> sys_inv max sy'.
Proof.
  intros [Ho Hg Hp] Ha. unfold send_request in Ha. destruct (bool_decide (_ \/ _)) eqn:Ek; [done|].
  apply bool_decide_eq_false in Ek.
  set (permit := bool_decide (is_Some (w_slots (sy_world sy)))) in *.
  destruct (take_permit permit (sy_holding sy)) as [holding|] eqn:Et; [|done]. cbn [mbind option_bind] in Ha.
  assert (sy_holding sy = ((if permit then 1 else 0) + holding)%nat) as Eh.
  { unfold take_permit in Et. destruct permit; [|by injection Et as ->]. destruct (sy_holding sy); [done|]. by injection Et as ->. }
  assert (forall k, cnt k (sys_tokens sy)
    = cnt k (permit_tokens permit ++ driver_tokens (sy_driver sy) ++ tokens_of cmd_tokens (sy_cmds sy) ++ replicate holding TP)) as Etok.
  { intros k. unfold sys_tokens. rewrite Eh, !cnt_app, !cnt_replicate. destruct permit; cbn; destruct (decide _); lia. }
  pose proof (owns_ext _ _ _ _ Etok Ho) as Ho'.
  destruct (sy_driver sy) as [d|] eqn:Ed.
  - destruct (_ <? _)%nat; [|done]. injection Ha as <- <-. split; [|done|].
    + cbn [sy_world sy_callers]. assert (w_headers (sy_world sy) !! t = None) as Hh by (destruct (w_headers _ !! t); [|done]; destruct Ek; by left).
      assert (w_bodies (sy_world sy) !! t = None) as Hb by (destruct (w_bodies _ !! t); [|done]; destruct Ek; by right).
      refine (owns_ext _ _ _ _ _ (owns_new_channels _ _ _ _ _ _ Hh Hb Ho')).
      unfold sys_tokens. cbn [sy_driver sy_cmds sy_holding driver_tokens]. rewrite tokens_of_app. intros k.
      assert (tokens_of cmd_tokens [make_command (sy_next_request_id sy) request t permit]
        = TH t :: TB t :: permit_tokens permit ++ []) as -> by (destruct request; done).
      repeat (cbn [cnt app] || rewrite !cnt_app). lia.
    + intros Hm. destruct (Hp Hm) as [Hc Hq]. cbn. split; [|done]. intros c [Hin|Hin]%elem_of_app; [by apply Hc|].
      apply list_elem_of_singleton in Hin as ->.
      assert (permit = true) as ->.
      { subst permit. apply bool_decide_eq_true. destruct Ho as (_ & _ & H3 & _). cbn in H3.
        destruct Hm as [m ->]. destruct H3 as (free & -> & _). done. }
      by destruct request.
  - injection Ha as <- <-. split; cbn; [|by rewrite Hg|].
    + apply owns_permit_drop. cbn in Ho'. exact Ho'.
    + intros Hm. destruct (Hp Hm). done.
Qed.

Lemma system_round_inv max now b cmds cancels sy sy' :
  sys_inv max sy -> branch_matches b (sy_cmds sy) ->
  pop_queues b (sy_cmds sy) (sy_cancels sy) = Some (cmds, cancels) ->
  system_round iter order to_str now b cmds cancels sy = Some sy' -> sys_inv max sy'.
Proof.
  intros [Ho Hg Hp] Hm Hq Hr. unfold system_round in Hr. destruct (sy_driver sy) as [d|] eqn:Ed; [|done].
  cbn [mbind option_bind] in Hr. destruct (negb (enabled now b d)); [done|].
  destruct (driver_round iter order to_str now b d (sy_world sy)) as [[[fl d'] w']|] eqn:E; [|done].
  cbn [mbind option_bind] in Hr.
  assert (tokens_of cmd_tokens (sy_cmds sy) = branch_tokens b ++ tokens_of cmd_tokens cmds /\
    exists pre, sy_cmds sy = pre ++ cmds /\ (forall q, q ∈ branch_queued b -> exists c, c ∈ pre /\ q ∈ queued_of c))
    as [Etok (pre & Epre & Hpre)].
  { destruct b as [[id|]|rr|[c|]|]; cbn [pop_queues branch_matches branch_tokens branch_queued] in *.
    - destruct (sy_cancels sy) as [|id' l]; [done|]. destruct (id =? id'); [|done]. injection Hq as <- <-.
      split; [done|]. exists []. set_solver.
    - destruct (is_empty _); [|done]. injection Hq as <- <-. split; [done|]. exists []. set_solver.
    - destruct rr; injection Hq as <- <-; (split; [done|]); exists []; set_solver.
    - destruct (sy_cmds sy) as [|c' l]; [done|]. injection Hq as <- <-. cbn in Hm. injection Hm as ->.
      split; [by rewrite tokens_of_cons|]. exists [c]. split; [done|]. intros q Hqq. exists c. set_solver.
    - destruct (sy_cmds sy) as [|c' l]; [|done]. cbn in Hq. injection Hq as <- <-. split; [done|]. exists []. set_solver.
    - injection Hq as <- <-. split; [done|]. exists []. set_solver. }
  assert (owns (fixed_of max (sy_callers sy)) w'
    (d_tokens d' ++ tokens_of cmd_tokens cmds ++ replicate (sy_holding sy) TP)) as Ho'.
  { eapply owns_round, E; [done|]. refine (owns_ext _ _ _ _ _ Ho). unfold sys_tokens. rewrite Ed, Etok.
    cbn [driver_tokens]. tokens. }
  apply round_waiting in E.
  destruct fl; injection Hr as <-.
  - split; [done|done|]. intros Hx. destruct (Hp Hx) as [Hc Hw]. rewrite Epre in Hc. cbn. split; [set_solver|].
    intros d0 q [= <-] Hqq. apply E, elem_of_app in Hqq as [Hqq|Hqq]; [by eapply Hw|].
    destruct (Hpre q Hqq) as (c & Hin & Hqc). specialize (Hc c ltac:(set_solver)). unfold cmd_permit in Hc.
    rewrite forallb_forall in Hc. apply Hc. by apply list_elem_of_In.
  - split; [|done|].
    + cbn [sy_world sy_callers]. refine (owns_ext _ _ _ _ _ (owns_foldl _ cmd_tokens _ cmds _ (replicate (sy_holding sy) TP) _ _)); [done| |].
      * intros c w0 l0 Hc. destruct c; cbn in *; [| |done].
        all: apply owns_permit_drop, owns_drop_body, owns_drop_headers; refine (owns_ext _ _ _ _ _ Hc); tokens.
      * by apply owns_exit.
    + intros Hx. cbn. split; [set_solver|done].
Qed.

Lemma sys_step_inv max sy sy' : sys_inv max sy -> sys_step iter order to_str sy sy' -> sys_inv max sy'.
Proof.
  intros Hi Hs. destruct Hs as [r sy sy' Ha|sy sy' Ha|request t r sy sy' Ha|sy d Hd|t sy sy' Ha|t r sy sy' Ha|t sy|now b cmds cancels sy sy' Hm Hq Hr].
  - by eapply acquire_inv.
  - by eapply release_inv.
  - by eapply send_request_inv.
  - destruct Hi as [Ho Hg Hp]. split; [|done|].
    + cbn [sy_world sy_callers]. refine (owns_ext _ _ _ _ _ Ho). unfold sys_tokens.
      cbn [sy_driver sy_cmds sy_holding]. rewrite Hd, tokens_of_app. change (tokens_of cmd_tokens [CmdShutdown]) with (@nil token). tokens.
    + intros Hx. destruct (Hp Hx) as [Hc Hw]. cbn. rewrite Hd in Hw. split; [|done]. set_solver.
  - destruct Hi as [Ho Hg Hp]. unfold cancel_request in Ha. destruct (sy_callers sy !! t) as [id|]; [|done].
    injection Ha as <-. split; [|done|done]. by apply owns_close_body, owns_close_headers, owns_forget.
  - destruct Hi as [Ho Hg Hp]. unfold await_headers in Ha. destruct (sy_callers sy !! t) as [id|]; [|done].
    cbn [mbind option_bind] in Ha. destruct (w_headers (sy_world sy) !! t) as [c|]; [|done]. cbn [mbind option_bind] in Ha.
    destruct (os_state c) as [|rr|]; [done| |]; injection Ha as <- <-; (split; [|done|done]).
    + destruct rr; [|apply owns_close_body]; by apply owns_close_headers, owns_forget.
    + by apply owns_close_body, owns_close_headers, owns_forget.
  - destruct Hi as [Ho Hg Hp]. split; [|done|done]. by apply owns_close_body.
  - by eapply system_round_inv.
Qed.

(** *** The start *)

Definition empty_world : World := mkWorld ∅ ∅ None.

(** The first request, if there is one, with its channels. *)
Definition first_of (first : option (HttpRequest * Z)) : option FirstRequest * World :=
  match first with
  | Some (r, t) => let '(f, w) := FirstRequest_new r t empty_world in (Some f, w)
  | None => (None, empty_world)
  end.

Definition first_tokens (f : option FirstRequest) : list token :=
  match f with Some f => [TH (fr_headers_tx f); TB (fr_body_tx f)] | None => [] end.

Definition max_ok (max : option Z) : Prop := match max with Some m => 0 <= m | None => True end.

Lemma owns_first max first :
  max_ok max ->
  owns (fixed_of max ∅) (with_slots max (first_of first).2) (first_tokens (first_of first).1).
Proof.
  intros Hm.
  assert (owns (fixed_of None ∅) empty_world []) as H0'.
  { split_and!; try done. cbn. intros t [x Hx]. by rewrite lookup_empty in Hx. }
  assert (owns (fixed_of None ∅) (first_of first).2 (first_tokens (first_of first).1)) as (H1' & H2' & H3 & H4).
  { destruct first as [[r t]|]; [|done]. cbn [first_of FirstRequest_new fst snd first_tokens fr_headers_tx fr_body_tx].
    eapply (owns_known (fixed_of None (<[t := 0]> ∅))); [done| |by apply owns_new_channels].
    cbn. intros t' [x Hx]. by rewrite lookup_empty in Hx. }
  split_and!; [done|done| |done].
  assert (cnt TP (first_tokens (first_of first).1) = 0%nat) as Ec by (by destruct first as [[r t]|]).
  destruct max as [m|]; cbn in *; [|done]. exists m. rewrite Ec. split; [done|]. lia.
Qed.

Lemma driver_start_owns g s (e : H2Engine D F) preface policy f w l r d w' :
  owns g w (first_tokens f ++ l) ->
  driver_start to_str s e preface policy f w = Some (r, d, w') -> owns g w' (d_tokens d ++ l).
Proof.
  intros Hw Hd. unfold driver_start in Hd. destruct (write_preface _ _ _) as [[err|] s1].
  { injection Hd as <- <- <-. cbn. destruct f as [f|]; [|done]. apply owns_drop_body, owns_drop_headers. exact Hw. }
  destruct f as [f|]; [|by injection Hd as <- <- <-].
  unfold write_first_request in Hd. destruct (open_stream _) as [i e1].
  destruct (build_native_request _ _ _ _ _ _ _) as [[fs e2]|]; [|done]. cbn [mbind option_bind] in Hd.
  set (ps := mkPendingStream (Some (fr_headers_tx f)) (fr_body_tx f)) in *.
  pose proof (owns_insert_pending g i ps ∅ w l Hw) as Hi. cbn [d_pending] in Hd.
  destruct (insert_pending i ps ∅ w) as [m1 w1]. destruct (encode_and_write_frames _ _ _) as [[err|] s2].
  - destruct (m1 !! i) as [ps1|] eqn:E1; injection Hd as <- <- <-; unfold d_tokens; cbn [d_pending d_waiting with_queues with_io].
    + apply owns_drop_body, owns_send_option. pose proof (owns_remove_pending _ _ _ _ _ _ E1 Hi) as Hw'.
      refine (owns_ext _ _ _ _ _ Hw'). unfold ps_tokens. change (tokens_of q_tokens []) with (@nil token). tokens.
    + refine (owns_ext _ _ _ _ _ Hi). change (tokens_of q_tokens []) with (@nil token). tokens.
  - injection Hd as <- <- <-. unfold d_tokens. cbn [d_pending d_waiting with_queues with_io].
    refine (owns_ext _ _ _ _ _ Hi). change (tokens_of q_tokens []) with (@nil token). tokens.
Qed.

Lemma driver_start_waiting s (e : H2Engine D F) preface policy f w r d w' :
  driver_start to_str s e preface policy f w = Some (r, d, w') -> d_waiting d = [].
Proof.
  intros Hd. unfold driver_start in Hd. destruct (write_preface _ _ _) as [[err|] s1]; [by injection Hd as <- <- <-|].
  destruct f as [f|]; [|by injection Hd as <- <- <-].
  unfold write_first_request in Hd. destruct (open_stream _) as [i e1].
  destruct (build_native_request _ _ _ _ _ _ _) as [[fs e2]|]; [|done]. cbn [mbind option_bind] in Hd.
  destruct (insert_pending _ _ _ _) as [m1 w1]. destruct (encode_and_write_frames _ _ _) as [[err|] s2].
  - destruct (m1 !! i); by injection Hd as <- <- <-.
  - by injection Hd as <- <- <-.
Qed.

Lemma spawn_inv s p (fc : F) hp policy first max sy :
  max_ok max ->
  spawn_driver (D := D) to_str s p fc hp policy (first_of first).1 max (first_of first).2 = Some (ROk sy) ->
  sys_inv max sy.
Proof.
  intros Hm Hs. unfold spawn_driver in Hs. destruct (bool_decide _); [done|].
  destruct (client_with_policies p fc (Some hp)) as [e preface].
  destruct (driver_start _ _ _ _ _ _ _) as [[[r d] w]|] eqn:E; [|done]. cbn [mbind option_bind] in Hs.
  destruct r; [done|]. injection Hs as <-. pose proof (owns_first max first Hm) as Ho. rewrite <- (app_nil_r (first_tokens _)) in Ho.
  pose proof (driver_start_owns _ _ _ _ _ _ _ _ _ _ _ Ho E) as Hd. apply driver_start_waiting in E.
  split; [|done|].
  - exact Hd.
  - intros _. cbn. split; [set_solver|]. intros d0 q [= <-]. rewrite E. set_solver.
Qed.

Lemma reachable_inv s p (fc : F) hp policy first max sy0 sy :
  max_ok max ->
  spawn_driver (D := D) to_str s p fc hp policy (first_of first).1 max (first_of first).2 = Some (ROk sy0) ->
  rtc (sys_step iter order to_str) sy0 sy -> sys_inv max sy.
Proof.
  intros Hm Hs Hr. apply spawn_inv in Hs; [|done]. induction Hr as [|sy0 sy1 sy Hstep _ IH]; [done|].
  apply IH. by eapply sys_step_inv.
Qed.

(** *** What the invariant gives *)

Lemma inv_answered max sy t id :
  sys_inv max sy -> sy_driver sy = None -> sy_callers sy !! t = Some id ->
  exists r sy', await_headers t sy = Some (r, sy').
Proof.
  intros [(H1' & _ & _ & H4) Hg _] Hd Hc. destruct (H4 t) as [c Hh]; [by eexists|].
  specialize (H1' t). unfold sys_tokens in H1'. rewrite Hd, (Hg Hd), cnt_app in H1'. cbn [driver_tokens] in H1'.
  change (tokens_of cmd_tokens []) with (@nil token) in H1'. cbn [app cnt] in H1'.
  rewrite cnt_replicate in H1'. unfold unsent in H1'. rewrite Hh in H1'.
  unfold await_headers. rewrite Hc, Hh. cbn [mbind option_bind].
  destruct (os_state c) as [|r|]; [done|by eexists _, _|by eexists _, _].
Qed.

Lemma inv_ended max sy :
  sys_inv max sy -> sy_driver sy = None ->
  (forall t c, w_headers (sy_world sy) !! t = Some c -> os_state c <> Unsent) /\
  (forall t c, w_bodies (sy_world sy) !! t = Some c -> mp_alive c = false).
Proof.
  intros [(H1' & H2' & _ & _) Hg _] Hd.
  assert (forall k, k <> TP -> cnt k (sys_tokens sy) = 0%nat) as H0'.
  { intros k Hk. unfold sys_tokens. rewrite Hd, (Hg Hd), !cnt_app, cnt_replicate. by rewrite decide_False by done. }
  split; intros t c Hc.
  - specialize (H1' t). rewrite H0' in H1' by done. unfold unsent in H1'. rewrite Hc in H1'. by intros E; rewrite E in H1'.
  - specialize (H2' t). rewrite H0' in H2' by done. unfold alive in H2'. rewrite Hc in H2'. by destruct (mp_alive c).
Qed.

(** Where the sender of a response can be. *)
Definition places (t : Z) sy : list QueuedRequest * list QueuedRequest * list (Z * PendingStream) :=
  let waiting := match sy_driver sy with Some d => d_waiting d | None => [] end in
  let pending := match sy_driver sy with Some d => d_pending d | None => ∅ end in
  (filter (fun q => q_headers_tx q = t) (mjoin (queued_of <$> sy_cmds sy)),
   filter (fun q => q_headers_tx q = t) waiting,
   filter (fun kv => ps_headers_tx kv.2 = Some t) (map_to_list pending)).

Lemma cnt_queue t qs : cnt (TH t) (tokens_of q_tokens qs) = length (filter (fun q => q_headers_tx q = t) qs).
Proof.
  induction qs as [|q qs IH]; [done|]. rewrite tokens_of_cons, cnt_app, IH, filter_cons.
  assert (cnt (TH t) (q_tokens q) = if decide (q_headers_tx q = t) then 1%nat else 0%nat) as ->.
  { unfold q_tokens. cbn [cnt]. rewrite (decide_False (P := TB _ = TH _)) by done.
    assert (cnt (TH t) (permit_tokens (q_permit q)) = 0%nat) as -> by (by destruct (q_permit q)).
    destruct (decide (q_headers_tx q = t)) as [->|]; [by rewrite decide_True|by rewrite decide_False by congruence]. }
  destruct (decide (q_headers_tx q = t)); cbn; lia.
Qed.

Lemma tokens_of_commands cs : tokens_of cmd_tokens cs = tokens_of q_tokens (mjoin (queued_of <$> cs)).
Proof.
  induction cs as [|c cs IH]; [done|]. rewrite tokens_of_cons. cbn [fmap list_fmap mjoin list_join].
  change (mjoin (queued_of c :: (queued_of <$> cs))) with (queued_of c ++ mjoin (queued_of <$> cs)).
  rewrite tokens_of_app, IH. f_equal. destruct c; cbn; by rewrite ?app_nil_r.
Qed.

Lemma cnt_pending t (l : list (Z * PendingStream)) :
  cnt (TH t) (tokens_of (fun kv => ps_tokens kv.2) l) = length (filter (fun kv => ps_headers_tx kv.2 = Some t) l).
Proof.
  induction l as [|[i ps] l IH]; [done|]. rewrite tokens_of_cons, cnt_app, IH, filter_cons. cbn [snd].
  assert (cnt (TH t) (ps_tokens ps) = if decide (ps_headers_tx ps = Some t) then 1%nat else 0%nat) as ->.
  { unfold ps_tokens. rewrite cnt_app. cbn [cnt]. rewrite (decide_False (P := TB _ = TH _)) by done.
    destruct (ps_headers_tx ps) as [t'|]; [|by rewrite decide_False].
    cbn. destruct (decide (t' = t)) as [->|]; [by rewrite !decide_True|by rewrite !decide_False by congruence]. }
  destruct (decide (ps_headers_tx ps = Some t)); cbn; lia.
Qed.

Lemma inv_places max sy t c :
  sys_inv max sy -> w_headers (sy_world sy) !! t = Some c -> os_state c = Unsent ->
  let '(l1, l2, l3) := places t sy in (length l1 + length l2 + length l3 = 1)%nat.
Proof.
  intros [(H1' & _ & _ & _) _ _] Hc Hu. specialize (H1' t). unfold unsent in H1'. rewrite Hc, Hu in H1'.
  unfold sys_tokens in H1'. rewrite !cnt_app, cnt_replicate in H1'. rewrite decide_False in H1' by done.
  rewrite tokens_of_commands, cnt_queue in H1'. unfold places. destruct (sy_driver sy) as [d|]; cbn [driver_tokens] in H1'.
  - unfold d_tokens, p_tokens in H1'. rewrite cnt_app, cnt_queue, cnt_pending in H1'. lia.
  - rewrite map_to_list_empty. cbn in *. lia.
Qed.

(** Requests between the caller and the wire. *)
Definition queued sy : list QueuedRequest :=
  mjoin (queued_of <$> sy_cmds sy) ++ match sy_driver sy with Some d => d_waiting d | None => [] end.

Lemma cnt_permits qs : (forall q, q ∈ qs -> q_permit q = true) -> cnt TP (tokens_of q_tokens qs) = length qs.
Proof.
  induction qs as [|q qs IH]; intros Hq; [done|]. rewrite tokens_of_cons, cnt_app, IH by set_solver.
  unfold q_tokens. rewrite (Hq q) by set_solver. done.
Qed.

Lemma cnt_permits_pending (l : list (Z * PendingStream)) : cnt TP (tokens_of (fun kv => ps_tokens kv.2) l) = 0%nat.
Proof.
  induction l as [|[i ps] l IH]; [done|]. rewrite tokens_of_cons, cnt_app, IH. unfold ps_tokens. cbn.
  by destruct (ps_headers_tx ps).
Qed.

Lemma inv_permit_balance m sy :
  sys_inv (Some m) sy ->
  exists free, w_slots (sy_world sy) = Some free /\ 0 <= free /\
    free + Z.of_nat (sy_holding sy) + Z.of_nat (length (queued sy)) = m.
Proof.
  intros [(_ & _ & H3 & _) _ Hp]. destruct (Hp ltac:(by eexists)) as [Hc Hw]. cbn in H3.
  destruct H3 as (free & Hs & Hf & Hm). exists free. split; [done|]. split; [done|].
  unfold sys_tokens in Hm. rewrite !cnt_app, cnt_replicate in Hm. rewrite decide_True in Hm by done.
  rewrite tokens_of_commands, cnt_permits in Hm.
  2: { intros q (l & Hq & Hl)%list_elem_of_join. apply list_elem_of_fmap in Hl as (cmd & -> & Hcmd).
       specialize (Hc cmd Hcmd). unfold cmd_permit in Hc. rewrite forallb_forall in Hc. by apply Hc, list_elem_of_In. }
  unfold queued. rewrite length_app. destruct (sy_driver sy) as [d|] eqn:Ed; cbn [driver_tokens cnt length] in *; [|lia].
  unfold d_tokens, p_tokens in Hm. rewrite cnt_app, cnt_permits_pending, cnt_permits in Hm; [lia|].
  intros q Hq. by eapply Hw.
Qed.

End system.

(** ** A running system *)

(** A transport that accepts everything and keeps the writes. *)
#[export] Instance reliable : Transport (list bytes) := {
  write_all b s := (None, s ++ [b]);
  flush s := (None, s);
}.

Definition all_pending : Pending -> list (Z * PendingStream) := map_to_list.
Definition utf8_text (b : bytes) : option bytes := Some b.

Lemma all_pending_ok : order_ok all_pending.
Proof. by intros m. Qed.

Abbreviation DemoSys := (Sys (D := RefDecoder) (F := ImmediateFlowControl) (S := list bytes)).

Definition demo_spawn : option (Reply DemoSys) :=
  spawn_driver utf8_text [] firefox_147_h2 mkImmediate FirefoxHpackPolicy (mkWritePolicy true true) None (Some 2)
    empty_world.

Definition no_sys : DemoSys := mkSys None empty_world [] [] 0 0 ∅.
Definition demo_get : NativeH2Request :=
  mkNativeRequest (ascii_bytes "GET") (mkUri (Some (ascii_bytes "example.org")) None None) [] None None.

Definition demo0 : DemoSys := match demo_spawn with Some (ROk sy) => sy | _ => no_sys end.
Definition demo1 : DemoSys := from_option snd no_sys (acquire_pending_permit demo0).
Definition demo2 : DemoSys := from_option snd no_sys (send_request (inr demo_get) 100 demo1).
Definition demo3 : DemoSys :=
  default no_sys (system_round any_order all_pending utf8_text 0 (Command (head (sy_cmds demo2))) [] [] demo2).
Definition demo4 : DemoSys :=
  default no_sys (system_round any_order all_pending utf8_text 1 (Read ReadEof) [] [] demo3).

Lemma demo0_spawned : demo_spawn = Some (ROk demo0).
Proof. by vm_compute. Qed.

Lemma demo_queued : rtc (sys_step any_order all_pending utf8_text) demo0 demo2.
Proof.
  eapply rtc_l; [apply (step_acquire _ _ _ (ROk true) demo0 demo1); by vm_compute|].
  eapply rtc_l; [apply (step_send _ _ _ (inr demo_get) 100 (ROk tt) demo1 demo2); by vm_compute|]. apply rtc_refl.
Qed.

Lemma demo_ended : rtc (sys_step any_order all_pending utf8_text) demo0 demo4.
Proof.
  etrans; [apply demo_queued|].
  eapply rtc_l; [apply (step_round _ _ _ 0 (Command (head (sy_cmds demo2))) [] [] demo2 demo3); by vm_compute|].
  eapply rtc_l; [apply (step_round _ _ _ 1 (Read ReadEof) [] [] demo3 demo4); by vm_compute|]. apply rtc_refl.
Qed.

(** ** Claims *)

(** C6. No request is lost.  In every state the system can reach from the start
    of a connection, whatever callers, peer and transport do: a response that is
    still due has its sender in exactly one of the command queue, the waiting
    list and the table of pending streams; and once the driver task has ended,
    for whatever reason, every caller still waiting for headers gets an answer,
    and every body is complete or failed. *)
Theorem no_request_lost {D F S : Type} `{HpackDecoder D} `{FlowControlPolicy F} `{Transport S}
    (iter : gmap Z stream.H2Stream -> list Z) (order : Pending -> list (Z * PendingStream))
    (to_str : bytes -> option bytes) (s : S) (p : H2Profile) (fc : F) hp policy first max
    (sy0 sy : Sys (D := D)) :
  order_ok order -> max_ok max ->
  spawn_driver to_str s p fc hp policy (first_of first).1 max (first_of first).2 = Some (ROk sy0) ->
  rtc (sys_step iter order to_str) sy0 sy ->
  (forall t c, w_headers (sy_world sy) !! t = Some c -> os_state c = Unsent ->
     let '(l1, l2, l3) := places t sy in (length l1 + length l2 + length l3 = 1)%nat) /\
  (sy_driver sy = None ->
     (forall t id, sy_callers sy !! t = Some id -> exists r sy', await_headers t sy = Some (r, sy')) /\
     (forall t c, w_headers (sy_world sy) !! t = Some c -> os_state c <> Unsent) /\
     (forall t c, w_bodies (sy_world sy) !! t = Some c -> mp_alive c = false)).
Proof.
  intros Ho Hm Hs Hr. pose proof (reachable_inv iter order to_str Ho _ _ _ _ _ _ _ _ _ Hm Hs Hr) as Hinv.
  split; [intros t c; by eapply inv_places|]. intros Hd. split; [intros t id; by eapply inv_answered|].
  by eapply inv_ended.
Qed.

Lemma no_request_lost_witness :
  sy_callers demo4 !! 100 = Some 1 /\ exists r sy', await_headers 100 demo4 = Some (r, sy').
Proof.
  split; [by vm_compute|].
  refine (proj1 (proj2 (no_request_lost any_order all_pending utf8_text [] firefox_147_h2 mkImmediate
    FirefoxHpackPolicy (mkWritePolicy true true) None (Some 2) demo0 demo4 _ _ _ _) _) 100 1 _).
  - exact all_pending_ok.
  - by vm_compute.
  - exact demo0_spawned.
  - exact demo_ended.
  - by vm_compute.
  - by vm_compute.
Defined.

(** Backpressure is exact: with [max_pending_requests = m], in every
    reachable state the free permits, the callers holding one and the requests
    between the command queue and the wire add up to [m], so never more than [m]
    requests wait, and every permit comes back. *)
Theorem backpressure_exact {D F S : Type} `{HpackDecoder D} `{FlowControlPolicy F} `{Transport S}
    (iter : gmap Z stream.H2Stream -> list Z) (order : Pending -> list (Z * PendingStream))
    (to_str : bytes -> option bytes) (s : S) (p : H2Profile) (fc : F) hp policy first m
    (sy0 sy : Sys (D := D)) :
  order_ok order -> 0 <= m ->
  spawn_driver to_str s p fc hp policy (first_of first).1 (Some m) (first_of first).2 = Some (ROk sy0) ->
  rtc (sys_step iter order to_str) sy0 sy ->
  exists free, w_slots (sy_world sy) = Some free /\ 0 <= free /\
    free + Z.of_nat (sy_holding sy) + Z.of_nat (length (queued sy)) = m.
Proof.
  intros Ho Hm Hs Hr.
  pose proof (reachable_inv iter order to_str Ho _ _ _ _ _ _ (Some m) _ _ Hm Hs Hr) as Hinv.
  by eapply inv_permit_balance.
Qed.

Lemma backpressure_exact_witness :
  length (queued demo2) = 1%nat /\ exists free, w_slots (sy_world demo2) = Some free /\ 0 <= free /\
    free + Z.of_nat (sy_holding demo2) + Z.of_nat (length (queued demo2)) = 2.
Proof.
  split; [by vm_compute|].
  refine (backpressure_exact any_order all_pending utf8_text [] firefox_147_h2 mkImmediate
    FirefoxHpackPolicy (mkWritePolicy true true) None 2 demo0 demo2 _ _ _ _).
  - exact all_pending_ok.
  - done.
  - exact demo0_spawned.
  - exact demo_queued.
Defined.
