(* ===== verification/DriverDelivery.v ===== *)
(** * Responses reach their callers

    What the events of a stream do to the channels of its caller, with the events
    of other streams in between. *)
From S2P Require Import Prelude Frame Codec Policy Profile Hpack Stream ConnState Engine Driver DriverOwn DriverProps.
Import profile engine driver.
Transparent oneshot_send oneshot_drop mpsc_send mpsc_drop.

(** ** Events of one stream *)

(** The events that touch stream [id]. *)
Definition concerns (id : Z) (ev : H2Event) : bool :=
  match ev with
  | ResponseHeaders i _ _ | ResponseData i _ _ | StreamReset i _ => i =? id
  | GoAwayEvent last code _ => negb (code =? 0) || (last <? id)
  | _ => false
  end.

(** A response as the engine reports it: interim blocks, the final block, and the
    chunks of the body with END_STREAM on the last. *)
Fixpoint body_events (id : Z) (chunks : list bytes) : list H2Event :=
  match chunks with
  | [] => []
  | [d] => [ResponseData id d true]
  | d :: chunks => ResponseData id d false :: body_events id chunks
  end.

Definition response_events (id : Z) (interim : list (list (bytes * bytes))) (hs : list (bytes * bytes))
    (chunks : list bytes) : list H2Event :=
  ((fun h => ResponseHeaders id h false) <$> interim) ++
  ResponseHeaders id hs (is_empty chunks) :: body_events id chunks.

Definition status_of (hs : list (bytes * bytes)) : Z := default 0 (hpack.get_status hs).

(** ** Frame: an event only touches the channels of the streams it concerns *)

Lemma oneshot_send_ne t t' r w : t' <> t -> w_headers (oneshot_send t r w) !! t' = w_headers w !! t'.
Proof. intros. cbn. by rewrite lookup_alter_ne. Qed.
Lemma oneshot_drop_ne t t' w : t' <> t -> w_headers (oneshot_drop t w) !! t' = w_headers w !! t'.
Proof. intros. cbn. by rewrite lookup_alter_ne. Qed.
Lemma mpsc_send_ne t t' x w : t' <> t -> w_bodies (mpsc_send t x w) !! t' = w_bodies w !! t'.
Proof. intros. cbn. by rewrite lookup_alter_ne. Qed.
Lemma mpsc_drop_ne t t' w : t' <> t -> w_bodies (mpsc_drop t w) !! t' = w_bodies w !! t'.
Proof. intros. cbn. by rewrite lookup_alter_ne. Qed.

(** The channel keys [h] and [b] are not those of [ps]. *)
Definition avoids (h b : Z) (ps : PendingStream) : Prop := ps_headers_tx ps <> Some h /\ ps_body_tx ps <> b.

(** The two channels are as they were. *)
Definition same_channels (h b : Z) (w w' : World) : Prop :=
  w_headers w' !! h = w_headers w !! h /\ w_bodies w' !! b = w_bodies w !! b.

Lemma same_channels_trans h b w1 w2 w3 :
  same_channels h b w1 w2 -> same_channels h b w2 w3 -> same_channels h b w1 w3.
Proof. intros [H1 H2] [H3 H4]. split; congruence. Qed.

Lemma send_option_headers h t r w : t <> Some h -> w_headers (send_option t r w) !! h = w_headers w !! h.
Proof. destruct t; [|done]. intros Ht. apply oneshot_send_ne. congruence. Qed.

Lemma send_option_bodies t r w : w_bodies (send_option t r w) = w_bodies w.
Proof. by destruct t. Qed.

Lemma notify_stream_same h b err ps w : avoids h b ps -> same_channels h b w (notify_stream err ps w).
Proof.
  intros [Hh Hb]. unfold notify_stream. split.
  - apply send_option_headers, Hh.
  - rewrite mpsc_drop_ne, mpsc_send_ne by congruence. by rewrite send_option_bodies.
Qed.

Lemma drop_stream_same h b ps w : avoids h b ps -> same_channels h b w (drop_stream ps w).
Proof.
  intros [Hh Hb]. unfold drop_stream. split.
  - cbn. destruct (ps_headers_tx ps); [|done]. cbn. apply oneshot_drop_ne. congruence.
  - rewrite mpsc_drop_ne by congruence. by destruct (ps_headers_tx ps).
Qed.

Section delivery.
Context (order : Pending -> list (Z * PendingStream)) (Horder : order_ok order).
Implicit Types (m : Pending) (w : World).

Lemma notify_list_same h b err (l : list (Z * PendingStream)) : forall w,
  Forall (fun kv => avoids h b kv.2) l ->
  same_channels h b w (foldl (fun w kv => notify_stream err kv.2 w) w l).
Proof.
  induction l as [|[i ps] l IH]; intros w Hl; [done|]. apply Forall_cons in Hl as [Hp Hl]. cbn [foldl].
  eapply same_channels_trans; [by apply (notify_stream_same h b err ps)|]. by apply IH.
Qed.

Lemma order_elem m i ps : (i, ps) ∈ order m <-> m !! i = Some ps.
Proof. rewrite (Horder m). apply elem_of_map_to_list. Qed.

Lemma reject_lookup sids : forall m w id, id ∉ sids ->
  (foldl (fun st sid => reject_stream sid st) (m, w) sids).1 !! id = m !! id.
Proof.
  induction sids as [|sid sids IH]; intros m w id Hid; [done|]. cbn [foldl]. unfold reject_stream at 2.
  destruct (m !! sid) as [ps|]; rewrite IH by set_solver; [|done]. by rewrite lookup_delete_ne by set_solver.
Qed.

Lemma reject_same h b sids : forall m w,
  (forall j ps, j ∈ sids -> m !! j = Some ps -> avoids h b ps) ->
  same_channels h b w (foldl (fun st sid => reject_stream sid st) (m, w) sids).2.
Proof.
  induction sids as [|sid sids IH]; intros m w Hs; [done|]. cbn [foldl]. unfold reject_stream at 2.
  destruct (m !! sid) as [ps|] eqn:E; [|apply IH; set_solver].
  eapply same_channels_trans; [|apply IH].
  - destruct (Hs sid ps ltac:(set_solver) E) as [Hh Hb]. split.
    + apply send_option_headers, Hh.
    + rewrite mpsc_drop_ne by congruence. by rewrite send_option_bodies.
  - intros j ps' Hj Hl. apply lookup_delete_Some in Hl as [_ Hl]. eapply Hs; [|done]. set_solver.
Qed.

(** What an event leaves alone. *)
Lemma handle_event_frame ev m w :
  let '(m', w') := handle_event order ev (m, w) in
  (forall id, concerns id ev = false -> m' !! id = m !! id) /\
  (forall h b, (forall j ps, m !! j = Some ps -> concerns j ev = true -> avoids h b ps) -> same_channels h b w w').
Proof.
  destruct ev as [| |i hs es|i data es|i code| |last code dbg|i inc|msg]; cbn [handle_event concerns]; try done.
  - unfold on_response_headers. destruct (m !! i) as [ps|] eqn:E; [|done].
    destruct (is_interim_status _); [done|].
    assert (forall h b, (forall j ps, m !! j = Some ps -> (i =? j) = true -> avoids h b ps) -> avoids h b ps) as Ha.
    { intros h b Ha. eapply Ha; [done|lia]. }
    assert (forall h b, avoids h b ps -> same_channels h b w
      (send_option (ps_headers_tx ps) (ROk (mkResponse (default 0 (hpack.get_status hs)) hs)) w)) as Hsend.
    { intros h b [Hh _]. split; [by apply send_option_headers|by rewrite send_option_bodies]. }
    destruct es; (split; [intros id Hid|]).
    + by rewrite lookup_delete_ne by lia.
    + intros h b Hall. eapply same_channels_trans; [by apply Hsend, Ha|]. apply drop_stream_same.
      split; [done|]. by apply (Ha h b Hall).
    + by rewrite lookup_insert_ne by lia.
    + intros h b Hall. by apply Hsend, Ha.
  - unfold on_response_data. destruct (m !! i) as [ps|] eqn:E; [|done].
    assert (forall h b, (forall j ps, m !! j = Some ps -> (i =? j) = true -> avoids h b ps) ->
      avoids h b ps /\ same_channels h b w (if negb (is_empty data) then mpsc_send (ps_body_tx ps) (ROk data) w else w)) as Ha.
    { intros h b Hall. assert (avoids h b ps) as [Hh Hb] by (eapply Hall; [done|lia]). split; [done|].
      destruct (negb _); [|done]. split; [done|]. by rewrite mpsc_send_ne by congruence. }
    destruct es; (split; [intros id Hid|]).
    + by rewrite lookup_delete_ne by lia.
    + intros h b Hall. destruct (Ha h b Hall) as [Hp Hs]. eapply same_channels_trans; [done|]. by apply drop_stream_same.
    + done.
    + intros h b Hall. by apply Ha.
  - destruct (m !! i) as [ps|] eqn:E; [|done]. split; [intros id Hid; by rewrite lookup_delete_ne by lia|].
    intros h b Hall. apply notify_stream_same. eapply Hall; [done|lia].
  - destruct (code =? 0) eqn:Ec; cbn [negb orb].
    + set (stale := filter _ _). destruct (foldl _ _ stale) as [m' w'] eqn:Ef. split.
      * intros id Hid. change m' with (m', w').1. rewrite <- Ef. apply reject_lookup. subst stale.
        rewrite list_elem_of_filter. lia.
      * intros h b Hall. change w' with (m', w').2. rewrite <- Ef. apply reject_same. intros j ps Hj Hl.
        subst stale. apply list_elem_of_filter in Hj as [Hj _]. eapply Hall; [done|]. lia.
    + split; [done|]. intros h b Hall. apply notify_list_same, Forall_forall. intros [j ps] Hj.
      apply order_elem in Hj. by eapply Hall.
Qed.

(** ** Distinct channels *)

Context (g : Fixed).

Lemma headers_owner m w l j ps h :
  owns g w (p_tokens m ++ l) -> m !! j = Some ps -> ps_headers_tx ps = Some h ->
  unsent h w = 1%nat /\ forall j' ps', m !! j' = Some ps' -> ps_headers_tx ps' = Some h -> j' = j.
Proof.
  intros (Ho & _) Hj Hh. specialize (Ho h). rewrite cnt_app, (p_tokens_delete j ps m _ Hj) in Ho.
  assert (forall ps, ps_headers_tx ps = Some h -> (1 <= cnt (TH h) (ps_tokens ps))%nat) as Hc.
  { intros ps' Hp. unfold ps_tokens. rewrite Hp. cbn. rewrite decide_True by done. lia. }
  pose proof (Hc ps Hh). assert (unsent h w <= 1)%nat.
  { unfold unsent. destruct (w_headers w !! h) as [c|]; [|lia]. destruct (os_state c); lia. }
  split; [lia|]. intros j' ps' Hj' Hh'. destruct (decide (j' = j)) as [|Hne]; [done|]. exfalso.
  rewrite (p_tokens_delete j' ps' (delete j m)) in Ho by (by rewrite lookup_delete_ne).
  specialize (Hc ps' Hh'). lia.
Qed.

Lemma body_owner m w l j ps b :
  owns g w (p_tokens m ++ l) -> m !! j = Some ps -> ps_body_tx ps = b ->
  alive b w = 1%nat /\ forall j' ps', m !! j' = Some ps' -> ps_body_tx ps' = b -> j' = j.
Proof.
  intros (_ & Ho & _) Hj Hb. specialize (Ho b). rewrite cnt_app, (p_tokens_delete j ps m _ Hj) in Ho.
  assert (forall ps, ps_body_tx ps = b -> (1 <= cnt (TB b) (ps_tokens ps))%nat) as Hc.
  { intros ps' Hp. unfold ps_tokens. rewrite cnt_app. cbn. rewrite Hp, decide_True by done. lia. }
  pose proof (Hc ps Hb). assert (alive b w <= 1)%nat.
  { unfold alive. destruct (w_bodies w !! b) as [c|]; [|lia]. destruct (mp_alive c); lia. }
  split; [lia|]. intros j' ps' Hj' Hb'. destruct (decide (j' = j)) as [|Hne]; [done|]. exfalso.
  rewrite (p_tokens_delete j' ps' (delete j m)) in Ho by (by rewrite lookup_delete_ne).
  specialize (Hc ps' Hb'). lia.
Qed.

(** A stream keeps its place and its channels over the events of others. *)
Lemma unconcerned id ps h ev m w l :
  owns g w (p_tokens m ++ l) -> m !! id = Some ps -> concerns id ev = false ->
  (ps_headers_tx ps = Some h \/ unsent h w = 0%nat) ->
  let '(m', w') := handle_event order ev (m, w) in
  m' !! id = Some ps /\ same_channels h (ps_body_tx ps) w w' /\ owns g w' (p_tokens m' ++ l).
Proof.
  intros Ho Hid Hc Hh. pose proof (handle_event_frame ev m w) as Hf.
  pose proof (owns_handle_event g order Horder ev m w l Ho) as Ho'.
  destruct (handle_event order ev (m, w)) as [m' w']. destruct Hf as [Hf1 Hf2]. split; [by rewrite Hf1|].
  split; [|done]. apply Hf2. intros j ps' Hj Hcj. split.
  - intros Hp. destruct Hh as [Hh|Hh].
    + destruct (headers_owner _ _ _ _ _ _ Ho Hid Hh) as [_ Hu]. assert (j = id) as -> by eauto. congruence.
    + destruct (headers_owner _ _ _ _ _ _ Ho Hj Hp) as [Hu _]. lia.
  - intros Hp. destruct (body_owner _ _ _ _ _ _ Ho Hid eq_refl) as [_ Hu].
    assert (j = id) as -> by eauto. congruence.
Qed.

(** Once both senders are gone nothing changes any more. *)
Lemma finished h b evs : forall m w l,
  owns g w (p_tokens m ++ l) -> unsent h w = 0%nat -> alive b w = 0%nat ->
  same_channels h b w (handle_events order evs (m, w)).2.
Proof.
  induction evs as [|ev evs IH]; intros m w l Ho Hh Hb; [done|]. change (handle_events order (ev :: evs) (m, w)) with (handle_events order evs (handle_event order ev (m, w))).
 
  pose proof (handle_event_frame ev m w) as Hf. pose proof (owns_handle_event g order Horder ev m w l Ho) as Ho'.
  destruct (handle_event order ev (m, w)) as [m' w']. destruct Hf as [_ Hf].
  assert (same_channels h b w w') as Hs.
  { apply Hf. intros j ps Hj _. split.
    - intros Hp. destruct (headers_owner _ _ _ _ _ _ Ho Hj Hp) as [Hu _]. lia.
    - intros Hp. destruct (body_owner _ _ _ _ _ _ Ho Hj Hp) as [Hu _]. lia. }
  eapply same_channels_trans; [done|]. destruct Hs as [H1 H2]. eapply IH; [done| |].
  - unfold unsent in *. by rewrite H1.
  - unfold alive in *. by rewrite H2.
Qed.

Lemma body_events_cons id d chunks :
  body_events id (d :: chunks) = ResponseData id d (is_empty chunks) :: body_events id chunks.
Proof. by destruct chunks. Qed.

(** ** The body *)

Definition sent_chunks (chunks : list bytes) : list (Reply bytes) := ROk <$> filter (fun d => d <> []) chunks.

Lemma mpsc_send_at b x sent w :
  w_bodies w !! b = Some (mkMpsc sent true false) ->
  w_bodies (mpsc_send b x w) !! b = Some (mkMpsc (sent ++ [x]) true false).
Proof. intros E. cbn. by rewrite lookup_alter_eq, E. Qed.

Lemma body_delivered id h b r evs : forall chunks sent m w l,
  owns g w (p_tokens m ++ l) -> m !! id = Some (mkPendingStream None b) ->
  w_headers w !! h = Some (mkOneshot (Sent r) false) -> w_bodies w !! b = Some (mkMpsc sent true false) ->
  filter (fun ev => concerns id ev = true) evs = body_events id chunks -> chunks <> [] ->
  let w' := (handle_events order evs (m, w)).2 in
  w_headers w' !! h = Some (mkOneshot (Sent r) false) /\
  w_bodies w' !! b = Some (mkMpsc (sent ++ sent_chunks chunks) false false).
Proof.
  induction evs as [|ev evs IH]; intros chunks sent m w l Ho Hid Hh Hb Hev Hne.
  { destruct chunks as [|d [|? ?]]; done. }
  change (handle_events order (ev :: evs) (m, w)) with (handle_events order evs (handle_event order ev (m, w))).
  rewrite filter_cons in Hev. destruct (decide (concerns id ev = true)) as [Hc|Hc].
  - destruct chunks as [|d chunks]; [done|]. rewrite body_events_cons in Hev. injection Hev as -> Hev.
    pose proof (owns_handle_event g order Horder (ResponseData id d (is_empty chunks)) m w l Ho) as Ho'.
    cbn [handle_event] in *. unfold on_response_data in *. rewrite Hid in *. cbn [ps_body_tx] in *.
    set (w1 := if negb (is_empty d) then mpsc_send b (ROk d) w else w) in *.
    assert (w_headers w1 !! h = Some (mkOneshot (Sent r) false)) as Hh1 by (subst w1; by destruct (negb _)).
    assert (w_bodies w1 !! b = Some (mkMpsc (sent ++ sent_chunks [d]) true false)) as Hb1.
    { subst w1. destruct d as [|x d]; [by rewrite app_nil_r|]. by apply mpsc_send_at. }
    assert (sent_chunks (d :: chunks) = sent_chunks [d] ++ sent_chunks chunks) as ->.
    { unfold sent_chunks. change (d :: chunks) with ([d] ++ chunks). by rewrite filter_app, fmap_app. }
    rewrite app_assoc. destruct chunks as [|d' chunks]; cbn [is_empty] in *.
    + rewrite app_nil_r. set (w2 := drop_stream _ w1) in *.
      assert (w_headers w2 !! h = Some (mkOneshot (Sent r) false)) as Hh2 by done.
      assert (w_bodies w2 !! b = Some (mkMpsc (sent ++ sent_chunks [d]) false false)) as Hb2.
      { subst w2. cbn. by rewrite lookup_alter_eq, Hb1. }
      destruct (finished h b evs _ w2 l Ho') as [H1 H2].
      * unfold unsent. by rewrite Hh2.
      * unfold alive. by rewrite Hb2.
      * by rewrite H1, H2.
    + by eapply IH.
  - apply not_true_is_false in Hc. pose proof (unconcerned id _ h ev m w l Ho Hid Hc) as Hu.
    destruct (handle_event order ev (m, w)) as [m' w']. cbn [ps_body_tx ps_headers_tx] in Hu.
    destruct Hu as (Hid' & [H1 H2] & Ho'). { right. unfold unsent. by rewrite Hh. }
    eapply IH; [done|done|congruence|congruence|done|done].
Qed.

(** ** The whole response *)

Lemma response_delivered_events id h b interim hs chunks evs :
  Forall (fun i => is_interim_status (status_of i) = true) interim ->
  is_interim_status (status_of hs) = false -> forall m w l,
  owns g w (p_tokens m ++ l) -> m !! id = Some (mkPendingStream (Some h) b) ->
  w_headers w !! h = Some (mkOneshot Unsent false) -> w_bodies w !! b = Some (mkMpsc [] true false) ->
  filter (fun ev => concerns id ev = true) evs = response_events id interim hs chunks ->
  let w' := (handle_events order evs (m, w)).2 in
  w_headers w' !! h = Some (mkOneshot (Sent (ROk (mkResponse (status_of hs) hs))) false) /\
  w_bodies w' !! b = Some (mkMpsc (sent_chunks chunks) false false).
Proof.
  revert interim. induction evs as [|ev evs IH]; intros interim Hi Hs m w l Ho Hid Hh Hb Hev.
  { unfold response_events in Hev. by destruct interim. }
  change (handle_events order (ev :: evs) (m, w)) with (handle_events order evs (handle_event order ev (m, w))).
  rewrite filter_cons in Hev. destruct (decide (concerns id ev = true)) as [Hc|Hc].
  - destruct interim as [|i interim]; unfold response_events in Hev; cbn [fmap list_fmap app] in Hev; injection Hev as -> Hev.
    + pose proof (owns_handle_event g order Horder (ResponseHeaders id hs (is_empty chunks)) m w l Ho) as Ho'.
      cbn [handle_event] in *. unfold on_response_headers in *. rewrite Hid in *. fold (status_of hs) in *.
      rewrite Hs in *. cbn [ps_headers_tx ps_body_tx send_option] in *. set (w1 := oneshot_send _ _ w) in *.
      assert (w_headers w1 !! h = Some (mkOneshot (Sent (ROk (mkResponse (status_of hs) hs))) false)) as Hh1.
      { subst w1. cbn. by rewrite lookup_alter_eq, Hh. }
      assert (w_bodies w1 !! b = Some (mkMpsc [] true false)) as Hb1 by done.
      destruct chunks as [|d chunks]; cbn [is_empty] in *.
      * set (w2 := drop_stream _ w1) in *.
        assert (w_bodies w2 !! b = Some (mkMpsc [] false false)) as Hb2. { subst w2. cbn. by rewrite lookup_alter_eq, Hb. }
        assert (w_headers w2 !! h = Some (mkOneshot (Sent (ROk (mkResponse (status_of hs) hs))) false)) as Hh2
          by exact Hh1.
        destruct (finished h b evs _ w2 l Ho') as [H1 H2].
        -- unfold unsent. by rewrite Hh2.
        -- unfold alive. by rewrite Hb2.
        -- by rewrite H1, H2.
      * eapply (body_delivered id h b _ evs (d :: chunks) []); [done|by rewrite lookup_insert_eq|done|done|done|done].
    + apply Forall_cons in Hi as [Hi0 Hi]. cbn [handle_event]. unfold on_response_headers. rewrite Hid.
      fold (status_of i). rewrite Hi0. by eapply IH.
  - apply not_true_is_false in Hc. pose proof (unconcerned id _ h ev m w l Ho Hid Hc (or_introl eq_refl)) as Hu.
    destruct (handle_event order ev (m, w)) as [m' w']. cbn [ps_body_tx] in Hu. destruct Hu as (Hid' & [H1 H2] & Ho').
    eapply IH; [done|done|done|done|congruence|congruence|done].
Qed.

End delivery.

(** ** Claims *)

(** C20. A response is delivered to its caller exactly: whatever else happens on
    the connection in between (responses, resets and GOAWAY for other streams, in
    any order), when the engine reports for a stream any number of interim 1xx
    blocks, a final block and the chunks of the body, its caller receives exactly
    that final block with its status, the chunks in order without the empty ones,
    and then the end of the body; and nothing sent later changes it. *)
Theorem response_delivered (order : Pending -> list (Z * PendingStream)) (g : Fixed) (m : Pending) (w : World)
    (l : list token) id h b interim hs chunks evs :
  order_ok order -> owns g w (p_tokens m ++ l) -> m !! id = Some (mkPendingStream (Some h) b) ->
  w_headers w !! h = Some (mkOneshot Unsent false) -> w_bodies w !! b = Some (mkMpsc [] true false) ->
  Forall (fun i => is_interim_status (status_of i) = true) interim ->
  is_interim_status (status_of hs) = false ->
  filter (fun ev => concerns id ev = true) evs = response_events id interim hs chunks ->
  let w' := (handle_events order evs (m, w)).2 in
  w_headers w' !! h = Some (mkOneshot (Sent (ROk (mkResponse (status_of hs) hs))) false) /\
  w_bodies w' !! b = Some (mkMpsc (sent_chunks chunks) false false).
Proof. intros Ho Hown Hid Hh Hb Hi Hs Hev. by eapply response_delivered_events. Qed.

Definition two_callers : World := new_channels 2 (new_channels 1 empty_world).
Definition two_streams : Pending :=
  <[5 := mkPendingStream (Some 1) 1]> (<[7 := mkPendingStream (Some 2) 2]> ∅).

Lemma two_callers_owned : owns (fixed_of None (<[2 := 0]> (<[1 := 0]> ∅))) two_callers (p_tokens two_streams ++ []).
Proof.
  assert (owns (fixed_of None ∅) empty_world []) as H0.
  { split_and!; try done. cbn. intros t [x Hx]. by rewrite lookup_empty in Hx. }
  pose proof (owns_new_channels None ∅ 1 0 empty_world [] eq_refl eq_refl H0) as H1.
  pose proof (owns_new_channels None _ 2 0 (new_channels 1 empty_world) _ eq_refl eq_refl H1) as H2.
  refine (owns_ext _ _ _ _ _ H2). intros k. unfold two_streams. rewrite cnt_app, !p_tokens_insert by done.
  rewrite p_tokens_empty. unfold ps_tokens. cbn [ps_headers_tx ps_body_tx app cnt]. lia.
Qed.

Definition status_line (s : string) : list (bytes * bytes) := [(ascii_bytes ":status", ascii_bytes s)].

Lemma response_delivered_witness :
  let evs := [ResponseHeaders 5 (status_line "103") false; ResponseData 7 [9] false;
              ResponseHeaders 5 (status_line "200") false; StreamReset 7 8; ResponseData 5 [1; 2] false;
              GoAwayEvent 5 0 []; ResponseData 5 [] true] in
  let w' := (handle_events all_pending evs (two_streams, two_callers)).2 in
  w_headers w' !! 1 = Some (mkOneshot (Sent (ROk (mkResponse 200 (status_line "200")))) false) /\
  w_bodies w' !! 1 = Some (mkMpsc [ROk [1; 2]] false false).
Proof.
  refine (response_delivered all_pending _ two_streams two_callers [] 5 1 1 [status_line "103"]
    (status_line "200") [[1; 2]; []] _ _ two_callers_owned _ _ _ _ _ _).
  - exact all_pending_ok.
  - by vm_compute.
  - by vm_compute.
  - by vm_compute.
  - constructor; [by vm_compute|constructor].
  - by vm_compute.
  - by vm_compute.
Defined.
