(* ===== verification/DriverRun.v ===== *)
(** * The driver's rounds

    A round of the driver always finishes, whatever the peer sends and however
    the transport fails; requests are started in order, as many as the peer
    allows; what is written is exactly the frames; a shutdown ends the task. *)
From S2P Require Import Prelude Frame Codec CodecProps Policy Profile Synthesis Hpack Stream ConnState Engine EngineSend EngineProps Driver DriverOwn DriverProps.
Import profile engine driver.

(** ** Stream identifiers

    Only [open_stream] takes a new identifier. *)

Section ids.
Context {D F : Type} `{HpackDecoder D} `{FlowControlPolicy F}.
Context (iter : gmap Z stream.H2Stream -> list Z).
Implicit Types (e : H2Engine D F) (c : Ctx (D := D) (F := F)) (s : conn_state.ConnState D).

Definition next_id e : Z := conn_state.next_stream_id (e_state e).

(** Case analysis on everything the goal branches on. *)
Ltac branches := repeat (case_match; simplify_eq); try done.

Lemma end_stream_local_next i s : conn_state.next_stream_id (end_stream_local i s) = conn_state.next_stream_id s.
Proof. unfold end_stream_local. branches. Qed.

Lemma reset_stream_next i s : conn_state.next_stream_id (reset_stream i s) = conn_state.next_stream_id s.
Proof. unfold reset_stream. branches. Qed.

Lemma build_headers_next i hs es rp e fs e' : build_headers i hs es rp e = Some (fs, e') -> next_id e' = next_id e.
Proof.
  unfold build_headers, conn_state.encode_headers_with_policy, conn_state.encode_headers. intros Hb.
  destruct (e_hpack_policy e) as [pol|];
    [destruct (hpack.encode_with_policy _ _ _) as [[enc blk]|]|destruct (hpack.encode_owned _ _) as [[enc blk]|]]; try done.
  all: cbn [mbind option_bind] in Hb; destruct (split_headers_block _ _ _ _ _); [|done]; injection Hb as <- <-.
  all: unfold next_id; cbn; destruct es; by rewrite ?end_stream_local_next.
Qed.

Lemma data_loop_next fuel : forall i data es e fs b e',
  data_loop fuel i data es e = Some (fs, b, e') -> next_id e' = next_id e.
Proof.
  induction fuel as [|fuel IH]; intros i data es e fs b e' Hd; cbn [data_loop] in Hd.
  { destruct (is_empty data); [by injection Hd as <- <- <-|done]. }
  destruct (is_empty data); [by injection Hd as <- <- <-|]. destruct (_ =? 0); [by injection Hd as <- <- <-|].
  destruct (data_loop _ _ _ _ _) as [[[fs1 b1] e1]|] eqn:E; [|done]. cbn [mbind option_bind] in Hd.
  injection Hd as <- <- <-. rewrite (IH _ _ _ _ _ _ _ E). unfold next_id.
  assert (forall n, next_id (consume_windows i n e) = next_id e) as Hc.
  { intros n. unfold next_id, consume_windows. cbn. branches. }
  unfold next_id in Hc. destruct (es && _); [cbn; rewrite end_stream_local_next|]; apply Hc.
Qed.

Lemma build_data_next i data es e fs e' : build_data i data es e = Some (fs, e') -> next_id e' = next_id e.
Proof.
  unfold build_data. intros Hb. destruct (data_loop _ _ _ _ _) as [[[fs1 b] e1]|] eqn:E; [|done].
  apply data_loop_next in E. cbn [mbind option_bind] in Hb. destruct (_ && es); injection Hb as <- <-; [|done].
  unfold next_id in *. cbn. by rewrite end_stream_local_next.
Qed.

Lemma drain_loop_next ps : forall e fs e', drain_loop ps e = Some (fs, e') -> next_id e' = next_id e.
Proof.
  induction ps as [|p ps IH]; intros e fs e' Hd; cbn [drain_loop] in Hd; [by injection Hd as <- <-|].
  destruct (build_data _ _ _ e) as [[fs1 e1]|] eqn:E1; [|done]. cbn [mbind option_bind] in Hd.
  destruct (drain_loop ps e1) as [[fs2 e2]|] eqn:E2; [|done]. injection Hd as <- <-.
  rewrite (IH _ _ _ E2). by eapply build_data_next.
Qed.

Lemma handle_settings_next f c c' : handle_settings iter f c = Some c' -> next_id (c_engine c') = next_id (c_engine c).
Proof.
  unfold handle_settings, next_id. intros Hs.
  assert (forall r s', conn_state.apply_remote_settings iter f (c_state c) = (r, s') ->
    conn_state.next_stream_id s' = conn_state.next_stream_id (c_state c)) as Ha.
  { intros r s'. unfold conn_state.apply_remote_settings, conn_state.ack_settings. branches; by intros [= <- <-]. }
  destruct (sf_ack f).
  - destruct (conn_state.apply_remote_settings _ _ _) as [r s'] eqn:E in Hs; specialize (Ha _ _ E);
      destruct r; injection Hs as <-; exact Ha.
  - destruct (conn_state.apply_remote_settings _ _ _) as [r s'] eqn:E in Hs; specialize (Ha _ _ E).
    destruct r; [injection Hs as <-; exact Ha|].
    unfold conn_state.set_encoder_table_size in Hs.
    destruct (negb _); [destruct (hpack.encoder_set_max_table_size _ _); [|done]|]; injection Hs as <-; exact Ha.
Qed.

Lemma on_assembly_next r c : next_id (c_engine (on_assembly r c)) = next_id (c_engine c).
Proof.
  unfold on_assembly, complete_headers, conn_state.decode_header_block, next_id. destruct r; [done| |done].
  destruct (hpack.decode _ _) as [o d]. destruct o as [hs| |]; [|done|done]. branches.
Qed.

Lemma credit_connection_next n c : next_id (c_engine (credit_connection n c)) = next_id (c_engine c).
Proof.
  unfold credit_connection, next_id. destruct (on_data_received _ _ _ _ _) as [[inc|] fc]; [|done].
  unfold conn_state.update_recv_window. branches.
Qed.

Lemma credit_stream_next i n w iw c : next_id (c_engine (credit_stream i n w iw c)) = next_id (c_engine c).
Proof.
  unfold credit_stream, next_id. destruct (on_data_received _ _ _ _ _) as [[inc|] fc]; [|done]. branches.
Qed.

Lemma finish_data_next f n w iw c : next_id (c_engine (finish_data f n w iw c)) = next_id (c_engine c).
Proof.
  unfold finish_data. cbn zeta. set (c1 := if 0 <? n then _ else _).
  assert (next_id (c_engine c1) = next_id (c_engine c)) as <-.
  { subst c1. destruct (0 <? n); [|done]. by rewrite credit_stream_next, credit_connection_next. }
  by destruct (df_end_stream f).
Qed.

Lemma handle_data_next f c : next_id (c_engine (handle_data f c)) = next_id (c_engine c).
Proof.
  unfold handle_data, conn_state.consume_recv_window. destruct (_ || _); [done|].
  destruct (conn_state.get_stream _ _) as [st|]; [|by rewrite finish_data_next].
  destruct (negb _); [unfold next_id; cbn; by rewrite reset_stream_next|].
  destruct (stream.consume_recv_window _ _) as [st'| |]; [by rewrite finish_data_next|..].
  all: unfold next_id; cbn; by rewrite reset_stream_next.
Qed.

Lemma handle_window_update_next f c c' : handle_window_update f c = Some c' -> next_id (c_engine c') = next_id (c_engine c).
Proof.
  unfold handle_window_update. intros Hw. destruct (wu_increment f =? 0).
  { injection Hw as <-. destruct (_ =? 0); [done|]. unfold next_id. cbn. by rewrite reset_stream_next. }
  assert (match grow_send_window f c with inl c1 | inr c1 => next_id (c_engine c1) = next_id (c_engine c) end) as Hg.
  { unfold grow_send_window, conn_state.update_send_window. destruct (wu_stream_id f =? 0).
    - destruct (_ <? _); done.
    - destruct (conn_state.get_stream _ _) as [st|]; [|done]. destruct (stream.update_send_window _ _); try done.
      unfold next_id. cbn. by rewrite reset_stream_next. }
  destruct (grow_send_window f c) as [c1|c1]; [|by injection Hw as <-]. rewrite <- Hg.
  unfold drain_pending_data in Hw. destruct (negb _).
  - destruct (drain_loop _ _) as [[fs e]|] eqn:E; [|done]. injection Hw as <-. by apply drain_loop_next in E.
  - by injection Hw as <-.
Qed.

Lemma handle_frame_next f c c' : handle_frame iter f c = Some c' -> next_id (c_engine c') = next_id (c_engine c).
Proof.
  destruct f as [f|f|f|f|f|f|f|f|f|f|f]; cbn [handle_frame]; intros Hf; try (injection Hf as <-).
  - apply handle_data_next.
  - unfold handle_headers. destruct (continuation.push_headers _ _ _ _ _). by rewrite on_assembly_next.
  - done.
  - unfold handle_rst_stream, next_id. cbn. apply reset_stream_next.
  - by apply handle_settings_next in Hf.
  - done.
  - unfold handle_ping. by destruct (negb _).
  - done.
  - by apply handle_window_update_next in Hf.
  - unfold handle_continuation. destruct (continuation.push_continuation _ _ _ _). by rewrite on_assembly_next.
  - done.
Qed.

Lemma process_loop_next fuel : forall input c rest c',
  process_loop iter fuel input c = Some (rest, c') -> next_id (c_engine c') = next_id (c_engine c).
Proof.
  induction fuel as [|fuel IH]; intros input c rest c' Hp; cbn [process_loop] in Hp; [done|].
  destruct (decode _ _) as [[r input']|]; [|done]. cbn [mbind option_bind] in Hp. destruct r as [f| |].
  - destruct (handle_frame iter f c) as [c1|] eqn:E; [|done]. cbn [mbind option_bind] in Hp.
    rewrite (IH _ _ _ _ Hp). by eapply handle_frame_next.
  - by injection Hp as <- <-.
  - by injection Hp as <- <-.
Qed.

End ids.

(** ** Starting requests *)

Section requests.
Context {D F : Type} `{HpackDecoder D} `{FlowControlLaws F}.
Context (to_str : bytes -> option bytes).
Implicit Types (e : H2Engine D F).

Definition header_ok (h : bytes * bytes) : Prop := is_bytes h.1 /\ is_bytes h.2.
Definition opt_bytes (o : option bytes) : Prop := match o with Some b => is_bytes b | None => True end.
Definition uri_ok (u : Uri) : Prop :=
  opt_bytes (u_authority u) /\ opt_bytes (u_scheme u) /\ opt_bytes (u_path_and_query u).

(** A request made of bytes. *)
Definition request_ok (q : QueuedRequest) : Prop :=
  match q with
  | Request _ r _ _ _ => is_bytes (rq_method r) /\ uri_ok (rq_uri r) /\ Forall header_ok (rq_headers r)
  | NativeRequest _ r _ _ _ => is_bytes (nr_method r) /\ uri_ok (nr_uri r) /\ Forall header_ok (nr_ordered_headers r)
  end.

(** [HeaderValue::to_str] gives text. *)
Definition text_ok : Prop := forall b v, is_bytes b -> to_str b = Some v -> is_bytes v.

Lemma is_bytes_ascii s : forallb (fun c => (0 <=? c) && (c <? 256)) (ascii_bytes s) = true -> is_bytes (ascii_bytes s).
Proof. intros Hs. rewrite forallb_forall in Hs. apply Forall_forall. intros x Hx. apply list_elem_of_In, Hs in Hx. unfold u8. lia. Qed.

Lemma pseudo_headers_ok ord method scheme authority path :
  is_bytes method -> is_bytes scheme -> is_bytes authority -> is_bytes path ->
  Forall header_ok (pseudo_headers ord method scheme authority path).
Proof.
  intros Hm Hs Ha Hp. unfold pseudo_headers. apply Forall_fmap, Forall_forall. intros [] _; (split; [by apply is_bytes_ascii|done]).
Qed.

Lemma uri_bytes u : uri_ok u -> is_bytes (uri_authority u) /\ is_bytes (uri_scheme u) /\ is_bytes (uri_path u).
Proof.
  intros (Ha & Hs & Hp). unfold uri_authority, uri_scheme, uri_path.
  destruct (u_authority u), (u_scheme u), (u_path_and_query u); cbn [default opt_bytes] in *; split_and!; try done.
  all: first [by apply is_bytes_ascii | constructor].
Qed.

(** Only stream [i] has changed, and the peer's settings have not. *)
Definition only_stream (i : Z) e e' : Prop :=
  conn_state.remote_settings (e_state e') = conn_state.remote_settings (e_state e) /\
  forall j, j <> i -> conn_state.streams (e_state e') !! j = conn_state.streams (e_state e) !! j.

Lemma only_stream_trans i e1 e2 e3 : only_stream i e1 e2 -> only_stream i e2 e3 -> only_stream i e1 e3.
Proof. intros [R1 S1] [R2 S2]. split; [congruence|]. intros j Hj. by rewrite S2, S1. Qed.

Lemma build_headers_only i hs es rp e fs e' : build_headers i hs es rp e = Some (fs, e') -> only_stream i e e'.
Proof.
  unfold build_headers, conn_state.encode_headers_with_policy, conn_state.encode_headers. intros Hb.
  assert (forall s : conn_state.ConnState D, conn_state.remote_settings (end_stream_local i s) = conn_state.remote_settings s /\
    forall j, j <> i -> conn_state.streams (end_stream_local i s) !! j = conn_state.streams s !! j) as He.
  { intros s. unfold end_stream_local. destruct (conn_state.get_stream i s); [|done]. split; [done|].
    intros j Hj. cbn. by rewrite lookup_insert_ne. }
  destruct (e_hpack_policy e) as [pol|];
    [destruct (hpack.encode_with_policy _ _ _) as [[enc blk]|]|destruct (hpack.encode_owned _ _) as [[enc blk]|]]; try done.
  all: cbn [mbind option_bind] in Hb; destruct (split_headers_block _ _ _ _ _); [|done]; injection Hb as <- <-.
  all: destruct es; [|done]; exact (He (conn_state.with_encoder enc (e_state e))).
Qed.

Lemma build_message_spec i hs body rp e :
  engine_inv e -> stream_wf i -> Forall header_ok hs ->
  exists fs e', build_message i hs body rp e = Some (fs, e') /\ engine_inv e' /\ next_id e' = next_id e /\
    only_stream i e e'.
Proof.
  intros He Hi Hhs. unfold build_message. set (es := negb _).
  destruct (build_headers_spec i hs es rp e He Hi Hhs) as (block & enc & fs & e1 & _ & _ & _ & Hb & He1 & _).
  pose proof (build_headers_next _ _ _ _ _ _ _ Hb) as Hn. pose proof (build_headers_only _ _ _ _ _ _ _ Hb) as Hon.
  rewrite Hb. cbn [mbind option_bind].
  destruct body as [b|]; [|by exists fs, e1]. destruct (negb (is_empty b)); [|by exists fs, e1].
  destruct (build_data_spec i b true e1 He1) as (fs2 & e2 & Hd & (He2 & (Hrem & _ & _ & Hst) & _) & _).
  pose proof (build_data_next _ _ _ _ _ _ Hd) as Hn2. rewrite Hd. cbn [mbind option_bind].
  exists (fs ++ fs2), e2. split; [done|]. split; [done|]. split; [congruence|].
  by apply (only_stream_trans i e e1 e2); [|split].
Qed.

Lemma build_queued_spec i q e :
  text_ok -> engine_inv e -> stream_wf i -> request_ok q ->
  exists fs e', build_queued to_str i q e = Some (fs, e') /\ engine_inv e' /\ next_id e' = next_id e /\
    only_stream i e e'.
Proof.
  intros Ht He Hi Hq. destruct q as [id r h b p|id r h b p]; cbn [build_queued request_ok] in *;
    destruct Hq as (Hm & Hu & Hh); destruct (uri_bytes _ Hu) as (Ha & Hs & Hp);
    unfold build_request, build_native_request; (apply build_message_spec; [done|done|]).
  - unfold order_headers_ref. apply Forall_app. split; [by apply pseudo_headers_ok|].
    apply Forall_forall. intros [n v] Hin. apply list_elem_of_omap in Hin as ([n' v'] & Hin & Hv).
    rewrite Forall_forall in Hh. destruct (Hh _ Hin) as [Hn' Hv'].
    destruct (to_str v') as [v''|] eqn:E; [|done]. injection Hv as <- <-. split; [done|]. by eapply Ht.
  - apply Forall_app. split; [by apply pseudo_headers_ok|done].
Qed.

Lemma open_stream_room e :
  engine_inv e -> 0 < next_id e -> next_id e + 2 < 4294967296 ->
  let '(i, e') := open_stream e in
  i = next_id e /\ engine_inv e' /\ next_id e' = next_id e + 2 /\ only_stream i e e'.
Proof.
  intros He Hp Hr. unfold open_stream. pose proof (open_stream_spec (e_state e) (proj1 He)) as Hs.
  destruct (conn_state.open_stream (e_state e)) as [i s] eqn:E. destruct Hs as (Hi & Hinv & _).
  split; [done|]. split; [by apply engine_inv_state|]. injection E as <- <-. split.
  - unfold next_id in *. cbn. apply as_u32_small. unfold u32. lia.
  - split; [done|]. intros j Hj. cbn. by rewrite lookup_insert_ne.
Qed.

(** *** The peer's limit *)

Definition active_count e : Z := conn_state.active_stream_count (e_state e).

Lemma active_count_step i e e' : only_stream i e e' -> active_count e' <= active_count e + 1.
Proof.
  intros [_ Hs]. unfold active_count, conn_state.active_stream_count. rewrite <- !(size_dom (D := gset Z)).
  set (act := fun kv : Z * stream.H2Stream => stream.is_active (stream.state kv.2) = true).
  set (A := dom (filter act (conn_state.streams (e_state e)))). set (B := dom (filter act (conn_state.streams (e_state e')))).
  assert (B ⊆ {[i]} ∪ A) as Hsub.
  { intros j Hj. apply elem_of_union. destruct (decide (j = i)) as [->|Hne]; [left; set_solver|right].
    subst A B. apply elem_of_dom in Hj as [st Hj]. apply map_lookup_filter_Some in Hj as [Hj Ha].
    rewrite Hs in Hj by done. apply elem_of_dom. exists st. by apply map_lookup_filter_Some. }
  apply subseteq_size in Hsub. assert (size ({[i]} ∪ A) <= 1 + size A)%nat as Hu.
  { rewrite size_union_alt, size_singleton. pose proof (subseteq_size (A ∖ {[i]}) A ltac:(set_solver)). lia. }
  lia.
Qed.

Definition within_limit e : Prop :=
  match max_concurrent_streams (conn_state.remote_settings (e_state e)) with
  | Some max => active_count e <= max
  | None => True
  end.

Lemma started_within_limit i e e' :
  can_open_stream e = true -> only_stream i e e' -> within_limit e'.
Proof.
  intros Hc Ho. pose proof (active_count_step i e e' Ho) as Hstep. unfold within_limit. rewrite (proj1 Ho).
  unfold can_open_stream, conn_state.can_open_stream in Hc.
  destruct (max_concurrent_streams _) as [max|]; [|done]. unfold active_count in *. lia.
Qed.

End requests.

(** ** A round always finishes *)

Section rounds.
Context {D F S : Type} `{HpackDecoder D} `{FlowControlLaws F} `{Transport S}.
Context (iter : gmap Z stream.H2Stream -> list Z) (order : Pending -> list (Z * PendingStream)).
Context (to_str : bytes -> option bytes) (Htext : text_ok to_str).
Implicit Types (d : Driver D F S) (e : H2Engine D F) (w : World).

Definition driver_inv d : Prop :=
  engine_inv (d_engine d) /\ is_bytes (d_read_buf d) /\ Forall request_ok (d_waiting d).

(** Identifiers are left for the waiting requests and [k] more. *)
Definition room (k : Z) d : Prop :=
  0 < next_id (d_engine d) /\ next_id (d_engine d) + 2 * (len (d_waiting d) + k) < 2147483648.

Lemma dispatch_loop_total policy qs : forall s e m w,
  engine_inv e -> Forall request_ok qs -> 0 < next_id e -> next_id e + 2 * len qs < 2147483648 ->
  exists r s' e' m' qs' w', dispatch_loop to_str policy qs s e m w = Some (r, s', e', m', qs', w') /\
    engine_inv e' /\ Forall request_ok qs' /\ 0 < next_id e' /\ next_id e' + 2 * len qs' <= next_id e + 2 * len qs.
Proof.
  induction qs as [|q qs IH]; intros s e m w He Hq Hp Hr; cbn [dispatch_loop].
  { eexists _, _, _, _, _, _. split; [done|]. split_and!; [done|done|done|lia]. }
  destruct (negb (can_open_stream e)).
  { eexists _, _, _, _, _, _. split; [done|]. split_and!; [done|done|done|lia]. }
  apply Forall_cons in Hq as [Hq Hqs]. rewrite len_cons in *. pose proof (len_nonneg qs) as Hl.
  destruct (is_canceled q w).
  { destruct (IH s e m (drop_request q w) He Hqs Hp ltac:(lia)) as (r & s' & e' & m' & qs' & w' & Hd & ? & ? & ? & ?).
    exists r, s', e', m', qs', w'. split; [done|]. split_and!; [done|done|done|lia]. }
  pose proof (open_stream_room e He Hp ltac:(lia)) as Ho. destruct (open_stream e) as [i e1].
  destruct Ho as (-> & He1 & Hn1 & _).
  destruct (build_queued_spec to_str (next_id e) q e1 Htext He1) as (fs & e2 & -> & He2 & Hn2 & _).
  { split; [unfold u31; lia|lia]. }
  { done. }
  cbn [mbind option_bind]. destruct (insert_pending _ _ _ _) as [m1 w1].
  destruct (encode_and_write_frames policy fs s) as [[err|] s1].
  - destruct (match m1 !! next_id e with Some ps => _ | None => _ end) as [m2 w2].
    eexists _, _, _, _, _, _. split; [done|]. split_and!; [done|done|lia|lia].
  - destruct (IH s1 e2 m1 w1 He2 Hqs ltac:(lia) ltac:(lia)) as (r & s' & e' & m' & qs' & w' & Hd & ? & ? & ? & ?).
    exists r, s', e', m', qs', w'. split; [done|]. split_and!; [done|done|done|lia].
Qed.

Definition branch_ok (b : Branch) : Prop :=
  match b with
  | Read (ReadOk data) => is_bytes data
  | Command (Some c) => Forall request_ok (queued_of c)
  | _ => True
  end.

Lemma remove_waiting_ok id qs w :
  Forall request_ok qs ->
  Forall request_ok (remove_waiting_request qs id w).1.2 /\ len (remove_waiting_request qs id w).1.2 <= len qs.
Proof.
  induction qs as [|q qs IH]; intros Hq; [done|]. apply Forall_cons in Hq as [Hq Hqs]. cbn [remove_waiting_request].
  rewrite len_cons. destruct (request_id q =? id); [cbn; split; [done|lia]|].
  destruct (remove_waiting_request qs id w) as [[b qs'] w']. cbn in *. rewrite len_cons. destruct (IH Hqs).
  split; [by constructor|lia].
Qed.

Lemma queue_request_ok q d w d' w' :
  driver_inv d -> room 1 d -> request_ok q -> queue_request q d w = (d', w') -> driver_inv d' /\ room 0 d'.
Proof.
  intros (He & Hb & Hq) [Hp Hr] Hq0 E. unfold queue_request in E.
  destruct (negb _); injection E as <- <-; [|split; [done|split; [done|lia]]].
  split; [split_and!; [done|done|]|split; [done|]]; cbn.
  - apply Forall_app. split; [done|by constructor].
  - rewrite len_app, len_cons, (len_nil (A := QueuedRequest)). lia.
Qed.

(** A driver whose queues have been drained. *)
Lemma emptied_ok d :
  driver_inv d -> 0 < next_id (d_engine d) -> next_id (d_engine d) < 2147483648 ->
  driver_inv (with_queues ∅ [] d) /\ room 0 (with_queues ∅ [] d).
Proof.
  intros (H1' & H2' & _) H3 H4. split; [split_and!; [done|done|constructor]|split; [done|]].
  cbn -[Z.add Z.mul next_id]. rewrite (len_nil (A := QueuedRequest)). lia.
Qed.

Lemma on_branch_total now b d w :
  driver_inv d -> room 1 d -> branch_ok b ->
  exists flow d' w', on_branch iter order now b d w = Some (flow, d', w') /\ driver_inv d' /\ room 0 d'.
Proof.
  intros Hd Hroom Hok. pose proof Hd as (He & Hb & Hq). pose proof Hroom as [Hp Hr].
  pose proof (len_nonneg (d_waiting d)) as Hl.
  assert (room 0 d) as Hroom0 by (split; [done|lia]).
  destruct b as [[id|]|[|data|msg]|[[id r h b p|id r h b p|]|]|]; cbn [on_branch].
  - unfold on_cancelled. pose proof (remove_waiting_ok id (d_waiting d) w Hq) as Hrm.
    destruct (remove_waiting_request (d_waiting d) id w) as [[b qs] w1]. destruct Hrm as [Hrm1 Hrm2].
    eexists _, _, _. split; [done|]. split; [by split_and!|]. cbn in *. split; [done|]. cbn. lia.
  - by eexists _, _, _.
  - eexists _, _, _. split; [done|]. apply emptied_ok; [done|done|lia].
  - unfold on_read.
    destruct (process_loop_total iter (Datatypes.S (length (d_read_buf d ++ data))) (d_read_buf d ++ data) (mkCtx (d_engine d) [] []))
      as (rest & c & used & Hproc & Hc & Hu); [done|by apply is_bytes_app|lia|].
    unfold process. rewrite Hproc. cbn [mbind option_bind]. apply process_loop_next in Hproc. cbn [c_engine] in Hproc.
    assert (forall s, driver_inv (with_io s (c_engine c) rest d)) as Hio.
    { intros s. split_and!; [done| |done]. cbn. assert (is_bytes (used ++ rest)) as Hur by (rewrite <- Hu; by apply is_bytes_app).
      by apply is_bytes_app in Hur as [_ ?]. }
    destruct (if negb _ then _ else _) as [[err|] s].
    + eexists _, _, _. split; [done|]. apply emptied_ok; [done|cbn; lia|cbn; lia].
    + destruct (handle_events _ _ _) as [m1 w1]. eexists _, _, _. split; [done|]. split; [apply (Hio s)|].
      split; cbn; rewrite Hproc; [done|lia].
  - eexists _, _, _. split; [done|]. apply emptied_ok; [done|done|lia].
  - cbn [on_command]. destruct (queue_request _ _ _) as [d1 w1] eqn:E. eexists _, _, _. split; [done|].
    apply Forall_cons in Hok as [Hok _]. by eapply queue_request_ok.
  - cbn [on_command]. destruct (queue_request _ _ _) as [d1 w1] eqn:E. eexists _, _, _. split; [done|].
    apply Forall_cons in Hok as [Hok _]. by eapply queue_request_ok.
  - cbn [on_command]. destruct (queues_empty d); by eexists _, _, _.
  - cbn [on_command]. destruct (queues_empty d); by eexists _, _, _.
  - eexists _, _, _. split; [done|]. apply emptied_ok; [done|done|lia].
Qed.

Lemma dispatch_total d w :
  driver_inv d -> room 0 d ->
  exists r d' w', dispatch_waiting_requests to_str d w = Some (r, d', w') /\ driver_inv d' /\ room 0 d'.
Proof.
  intros (He & Hb & Hq) [Hp Hr]. pose proof (len_nonneg (d_waiting d)). unfold dispatch_waiting_requests.
  destruct (is_goaway (d_engine d)).
  { eexists _, _, _. split; [done|]. split; [by split_and!|]. split; [done|]. cbn -[Z.add Z.mul next_id]. rewrite (len_nil (A := QueuedRequest)). lia. }
  destruct (dispatch_loop_total (d_write_policy d) (d_waiting d) (d_stream d) (d_engine d) (d_pending d) w)
    as (r & s' & e' & m' & qs' & w' & -> & He' & Hq' & Hp' & Hr'); [done|done|done|lia|].
  cbn [mbind option_bind]. eexists _, _, _. split; [done|]. split; [by split_and!|]. split; [done|]. cbn. lia.
Qed.

Lemma driver_round_spec now b d w :
  driver_inv d -> room 1 d -> branch_ok b ->
  exists flow d' w', driver_round iter order to_str now b d w = Some (flow, d', w') /\ driver_inv d' /\ room 0 d'.
Proof.
  intros Hd Hr Hb. unfold driver_round.
  destruct (on_branch_total now b d w Hd Hr Hb) as (fl & d1 & w1 & -> & Hd1 & Hr1). cbn [mbind option_bind].
  destruct fl; [|by eexists _, _, _].
  destruct (dispatch_total d1 w1 Hd1 Hr1) as (r & d2 & w2 & -> & Hd2 & Hr2). cbn [mbind option_bind].
  destruct r as [err|]; [|by eexists _, _, _]. eexists _, _, _. split; [done|].
  destruct Hr2 as [H3 H4]. pose proof (len_nonneg (d_waiting d2)). apply emptied_ok; [done|done|lia].
Qed.

End rounds.

(** ** Order and capacity, on a transport that works *)

Section started.
Context {D F : Type} `{HpackDecoder D} `{FlowControlLaws F}.
Context (to_str : bytes -> option bytes) (Htext : text_ok to_str).
Implicit Types (e : H2Engine D F) (w : World) (s : list bytes).
Transparent oneshot_send oneshot_drop mpsc_send mpsc_drop permit_drop.

Lemma write_groups_reliable groups : forall s,
  write_groups groups s = (None, s ++ filter (fun b => b <> []) ((fun g => encode_frames g []) <$> groups)).
Proof.
  induction groups as [|g groups IH]; intros s; [by rewrite app_nil_r|]. cbn [write_groups fmap list_fmap].
  rewrite filter_cons. destruct (encode_frames g []) as [|b bs]; cbn [is_empty negb].
  - rewrite IH. by destruct (decide _).
  - rewrite decide_True by done. cbn [write_flush write_all flush reliable]. rewrite IH. by rewrite <- app_assoc.
Qed.

(** Whether a receiver is gone is not for the driver to change. *)
Definition closed_same w w' : Prop :=
  (forall t, headers_closed t w' = headers_closed t w) /\ (forall t, body_closed t w' = body_closed t w).

Lemma closed_same_trans w1 w2 w3 : closed_same w1 w2 -> closed_same w2 w3 -> closed_same w1 w3.
Proof. intros [A B] [A' B']. split; intros t; [by rewrite A', A|by rewrite B', B]. Qed.

Lemma oneshot_drop_closed t w : closed_same w (oneshot_drop t w).
Proof.
  split; [|done]. intros t'. unfold headers_closed. cbn. destruct (decide (t' = t)) as [->|]; [|by rewrite lookup_alter_ne].
  rewrite lookup_alter_eq. by destruct (w_headers w !! t).
Qed.

Lemma mpsc_drop_closed t w : closed_same w (mpsc_drop t w).
Proof.
  split; [done|]. intros t'. unfold body_closed. cbn. destruct (decide (t' = t)) as [->|]; [|by rewrite lookup_alter_ne].
  rewrite lookup_alter_eq. by destruct (w_bodies w !! t).
Qed.

Lemma permit_drop_closed p w : closed_same w (permit_drop p w).
Proof. by destruct p. Qed.

Lemma drop_request_closed q w : closed_same w (drop_request q w).
Proof.
  unfold drop_request. eapply closed_same_trans; [apply oneshot_drop_closed|].
  eapply closed_same_trans; [apply mpsc_drop_closed|]. apply permit_drop_closed.
Qed.

Lemma insert_pending_closed i ps m w : closed_same w (insert_pending i ps m w).2.
Proof.
  cbn. destruct (m !! i) as [old|]; [|done]. unfold drop_stream.
  eapply closed_same_trans; [|apply mpsc_drop_closed]. destruct (ps_headers_tx old); [apply oneshot_drop_closed|done].
Qed.

Lemma is_canceled_same q w w' : closed_same w w' -> is_canceled q w' = is_canceled q w.
Proof. intros [A B]. unfold is_canceled. by rewrite A, B. Qed.

Definition pending_of (q : QueuedRequest) : PendingStream := mkPendingStream (Some (q_headers_tx q)) (q_body_tx q).

Lemma dispatch_loop_order policy qs : forall s e m w,
  engine_inv e -> Forall request_ok qs -> 0 < next_id e -> next_id e + 2 * len qs < 2147483648 ->
  exists s' e' m' rest w' used, dispatch_loop to_str policy qs s e m w = Some (None, s', e', m', rest, w') /\
    qs = used ++ rest /\ (rest = [] \/ can_open_stream e' = false) /\
    let started := filter (fun q => is_canceled q w = false) used in
    next_id e' = next_id e + 2 * len started /\
    (forall k q, started !! k = Some q -> m' !! (next_id e + 2 * Z.of_nat k) = Some (pending_of q)) /\
    (forall j, j < next_id e -> m' !! j = m !! j) /\
    (within_limit e \/ started <> [] -> within_limit e').
Proof.
  induction qs as [|q qs IH]; intros s e m w He Hq Hp Hr; cbn [dispatch_loop].
  { exists s, e, m, [], w, []. split_and!; try done; [by left|cbn; rewrite (len_nil (A := QueuedRequest)); lia|by intros [?|?]]. }
  destruct (can_open_stream e) eqn:Hc; cbn [negb].
  2: { exists s, e, m, (q :: qs), w, []. split_and!; try done; [by right|cbn; rewrite (len_nil (A := QueuedRequest)); lia|by intros [?|?]]. }
  apply Forall_cons in Hq as [Hq Hqs]. rewrite len_cons in *. pose proof (len_nonneg qs) as Hl.
  destruct (is_canceled q w) eqn:Hcan.
  { destruct (IH s e m (drop_request q w) He Hqs Hp ltac:(lia))
      as (s' & e' & m' & rest & w' & used & Hd & -> & Hstop & Hn & Hm & Hold & Hlim).
    exists s', e', m', rest, w', (q :: used).
    assert (filter (fun x => is_canceled x w = false) (q :: used)
      = filter (fun x => is_canceled x (drop_request q w) = false) used) as ->.
    { rewrite filter_cons, decide_False by congruence. apply list_filter_iff. intros x.
      by rewrite (is_canceled_same x w (drop_request q w)) by apply drop_request_closed. }
    by split_and!. }
  pose proof (open_stream_room e He Hp ltac:(lia)) as Ho. destruct (open_stream e) as [i e1].
  destruct Ho as (-> & He1 & Hn1 & Ho1).
  destruct (build_queued_spec to_str (next_id e) q e1 Htext He1) as (fs & e2 & -> & He2 & Hn2 & Ho2).
  { split; [unfold u31; lia|lia]. }
  { done. }
  cbn [mbind option_bind]. fold (pending_of q).
  pose proof (insert_pending_closed (next_id e) (pending_of q) m (permit_drop (q_permit q) w)) as Hcl.
  assert ((insert_pending (next_id e) (pending_of q) m (permit_drop (q_permit q) w)).1 = <[next_id e := pending_of q]> m) as Em by done.
  destruct (insert_pending _ _ _ _) as [m1 w1]. cbn [fst snd] in *.
  unfold encode_and_write_frames. rewrite write_groups_reliable.
  destruct (IH (s ++ filter (fun b => b <> []) ((fun g => encode_frames g []) <$> group_frames policy fs)) e2 m1 w1 He2 Hqs
    ltac:(lia) ltac:(lia)) as (s' & e' & m' & rest & w' & used & -> & -> & Hstop & Hn & Hm & Hold & Hlim).
  exists s', e', m', rest, w', (q :: used).
  assert (filter (fun x => is_canceled x w = false) (q :: used)
    = q :: filter (fun x => is_canceled x w1 = false) used) as ->.
  { rewrite filter_cons, decide_True by done. f_equal. apply list_filter_iff. intros x.
    rewrite (is_canceled_same x (permit_drop (q_permit q) w) w1) by done.
    by rewrite (is_canceled_same x w (permit_drop (q_permit q) w)) by apply permit_drop_closed. }
  assert (within_limit e2) as Hl2 by (by eapply (started_within_limit (next_id e) e), only_stream_trans).
  split_and!; [done|done|done| | | |].
  - rewrite Hn, len_cons. lia.
  - intros [|k] q0; cbn [lookup list_lookup].
    + intros [= <-]. rewrite Hold by lia. rewrite Em, Z.mul_0_r, Z.add_0_r. apply lookup_insert_eq.
    + intros Hk. specialize (Hm k q0 Hk). replace (next_id e + 2 * Z.of_nat (S k)) with (next_id e2 + 2 * Z.of_nat k) by lia. done.
  - intros j Hj. rewrite Hold by lia. rewrite Em. by rewrite lookup_insert_ne by lia.
  - intros _. apply Hlim. by left.
Qed.

End started.

(** ** The preface on the wire *)

Section preface.
Context {D F : Type} `{HpackDecoder D} `{FlowControlPolicy F}.

Lemma encode_frames_join groups :
  mjoin ((fun g => CodecProps.encode_frames g []) <$> groups) = CodecProps.encode_frames (mjoin groups) [].
Proof.
  induction groups as [|g groups IH]; [done|]. rewrite fmap_cons. cbn [mjoin list_join].
  etrans; [apply (f_equal (app _)), IH|]. unfold CodecProps.encode_frames at 3. rewrite foldl_app.
  symmetry. apply CodecProps.encode_frames_append.
Qed.

Lemma write_preface_rest groups : forall s : list bytes,
  write_preface false groups s = (None, s ++ ((fun g => CodecProps.encode_frames g []) <$> groups)).
Proof.
  induction groups as [|g groups IH]; intros s; [by rewrite app_nil_r|].
  cbn [write_preface write_flush write_all flush reliable]. rewrite IH. by rewrite <- app_assoc.
Qed.

Lemma write_preface_reliable g groups :
  write_preface true (g :: groups) [] =
    (None, (CONNECTION_PREFACE ++ CodecProps.encode_frames g []) :: ((fun g => CodecProps.encode_frames g []) <$> groups)).
Proof.
  cbn [write_preface write_flush write_all flush reliable]. rewrite write_preface_rest.
  change (encode_frames g CONNECTION_PREFACE) with (CodecProps.encode_frames g CONNECTION_PREFACE).
  by rewrite CodecProps.encode_frames_append.
Qed.

End preface.

(** ** Shutdown *)

Section shutdown.
Context {D F S : Type} `{HpackDecoder D} `{FlowControlPolicy F} `{Transport S}.
Context (iter : gmap Z stream.H2Stream -> list Z) (order : Pending -> list (Z * PendingStream)).
Context (to_str : bytes -> option bytes).
Implicit Types (d : Driver D F S) (w : World) (sy : Sys (D := D) (F := F) (S := S)).

(** A driver that shuts down has a deadline and something to wait for. *)
Definition shut_inv d : Prop :=
  d_shutdown d = true -> is_Some (d_shutdown_deadline d) /\ queues_empty d = false.

Lemma on_branch_shutdown now b d w d' w' :
  on_branch iter order now b d w = Some (Continue, d', w') ->
  (d_shutdown d = true -> d_shutdown d' = true /\
     (is_Some (d_shutdown_deadline d) -> d_shutdown_deadline d' = d_shutdown_deadline d)) /\
  (d_shutdown d = false -> d_shutdown d' = true -> is_Some (d_shutdown_deadline d')).
Proof.
  intros Hb. destruct b as [[id|]|[|data|msg]|[[id r h b p|id r h b p|]|]|]; cbn [on_branch] in Hb.
  - unfold on_cancelled in Hb. destruct (remove_waiting_request _ _ _) as [[b qs] w1]. injection Hb as <- <-.
    split; [done|]. cbn. intros ->. done.
  - injection Hb as <- <-. split; [done|]. cbn. intros ->. done.
  - done.
  - unfold on_read in Hb. destruct (process _ _ _) as [[rest c]|]; [|done]. cbn [mbind option_bind] in Hb.
    destruct (if negb _ then _ else _) as [[err|] s]; [done|].
    destruct (handle_events _ _ _) as [m1 w1]. injection Hb as <- <-. split; [done|]. cbn. intros ->. done.
  - done.
  - cbn in Hb. unfold queue_request in Hb. destruct (negb _); injection Hb as <- <-; (split; [done|]); cbn; intros ->; done.
  - cbn in Hb. unfold queue_request in Hb. destruct (negb _); injection Hb as <- <-; (split; [done|]); cbn; intros ->; done.
  - cbn in Hb. destruct (queues_empty d); [done|]. injection Hb as <- <-. cbn.
    destruct (d_shutdown_deadline d); (split; [intros _; split; [done|]|done]); by intros [? ?].
  - cbn in Hb. destruct (queues_empty d); [done|]. injection Hb as <- <-. cbn.
    destruct (d_shutdown_deadline d); (split; [intros _; split; [done|]|done]); by intros [? ?].
  - done.
Qed.

Lemma round_shutdown now b d w d' w' :
  shut_inv d -> driver_round iter order to_str now b d w = Some (Continue, d', w') ->
  shut_inv d' /\ (d_shutdown d = true -> d_shutdown d' = true /\ d_shutdown_deadline d' = d_shutdown_deadline d).
Proof.
  intros Hi Hr. unfold driver_round in Hr.
  destruct (on_branch iter order now b d w) as [[[fl d1] w1]|] eqn:Eb; [|done]. cbn [mbind option_bind] in Hr.
  destruct fl; [|done]. apply on_branch_shutdown in Eb as [Hkeep Hnew].
  destruct (dispatch_waiting_requests to_str d1 w1) as [[[r d2] w2]|] eqn:Ed; [|done]. cbn [mbind option_bind] in Hr.
  assert (d_shutdown d2 = d_shutdown d1 /\ d_shutdown_deadline d2 = d_shutdown_deadline d1) as [E1 E2].
  { unfold dispatch_waiting_requests in Ed. destruct (is_goaway _); [by injection Ed as <- <- <-|].
    destruct (dispatch_loop _ _ _ _ _ _ _) as [[[[[[r0 s] e] m] qs] w3]|]; [|done]. by injection Ed as <- <- <-. }
  destruct r as [err|]; [done|]. injection Hr as Hb <- <-. unfold shut_inv.
  destruct (d_shutdown d) eqn:Es.
  - destruct (Hi Es) as [Hsome Hne]. destruct (Hkeep eq_refl) as [K1 K2]. specialize (K2 Hsome).
    rewrite E1, E2, K1, K2 in *. split; [|done]. intros _. split; [done|]. by destruct (queues_empty d2).
  - split; [|done]. intros Ht. rewrite Ht in Hb. rewrite E1 in Ht. rewrite E2. split; [by apply Hnew|].
    by destruct (queues_empty d2).
Qed.

Definition sys_shut_inv sy : Prop := forall d, sy_driver sy = Some d -> shut_inv d.

Lemma sys_step_shutdown sy sy' :
  sys_shut_inv sy -> sys_step iter order to_str sy sy' ->
  sys_shut_inv sy' /\
  (forall d d', sy_driver sy = Some d -> sy_driver sy' = Some d' -> d_shutdown d = true ->
     d_shutdown d' = true /\ d_shutdown_deadline d' = d_shutdown_deadline d).
Proof.
  intros Hi Hs.
  assert (sy_driver sy' = sy_driver sy -> sys_shut_inv sy' /\
    (forall d d', sy_driver sy = Some d -> sy_driver sy' = Some d' -> d_shutdown d = true ->
     d_shutdown d' = true /\ d_shutdown_deadline d' = d_shutdown_deadline d)) as Hsame.
  { intros E. unfold sys_shut_inv. rewrite E. split; [done|]. intros d d' -> [= <-]. done. }
  destruct Hs as [r sy sy' Ha|sy sy' Ha|request t r sy sy' Ha|sy d Hd|t sy sy' Ha|t r sy sy' Ha|t sy|now b cmds cancels sy sy' Hm Hq Hr].
  - apply Hsame. unfold acquire_pending_permit in Ha. repeat (case_match; simplify_eq); cbn; congruence.
  - apply Hsame. unfold release_permit in Ha. repeat (case_match; simplify_eq); cbn; congruence.
  - apply Hsame. unfold send_request in Ha. destruct (bool_decide _); [done|].
    destruct (take_permit _ _) as [holding|]; [|done]. cbn [mbind option_bind] in Ha.
    destruct (sy_driver sy) as [d|]; [destruct (_ <? _)%nat; [|done]|]; by injection Ha as <- <-.
  - apply Hsame. by rewrite Hd.
  - apply Hsame. unfold cancel_request in Ha. destruct (_ !! t); [|done]. by injection Ha as <-.
  - apply Hsame. unfold await_headers in Ha. destruct (sy_callers sy !! t); [|done]. cbn [mbind option_bind] in Ha.
    destruct (w_headers _ !! t) as [c|]; [|done]. cbn [mbind option_bind] in Ha.
    destruct (os_state c); [done| |]; by injection Ha as <- <-.
  - by apply Hsame.
  - unfold system_round in Hr. destruct (sy_driver sy) as [d|] eqn:Ed; [|done]. cbn [mbind option_bind] in Hr.
    destruct (negb (enabled now b d)); [done|].
    destruct (driver_round iter order to_str now b d (sy_world sy)) as [[[fl d'] w']|] eqn:E; [|done].
    cbn [mbind option_bind] in Hr. destruct fl; injection Hr as <-.
    + destruct (round_shutdown _ _ _ _ _ _ (Hi d Ed) E) as [H1' H2'].
      split; [by intros d0 [= <-]|]. by intros d0 d1 [= <-] [= <-].
    + split; [by intros d0|by intros d0 d1].
Qed.

Lemma spawn_shutdown s p (fc : F) hp policy first max w sy :
  spawn_driver (D := D) to_str s p fc hp policy first max w = Some (ROk sy) -> sys_shut_inv sy.
Proof.
  intros Hs. unfold spawn_driver in Hs. destruct (bool_decide _); [done|].
  destruct (client_with_policies p fc (Some hp)) as [e preface].
  destruct (driver_start _ _ _ _ _ _ _) as [[[r d] w1]|] eqn:E; [|done]. cbn [mbind option_bind] in Hs.
  destruct r; [done|]. injection Hs as <-. intros d0 [= <-] Hsh. exfalso. revert Hsh.
  unfold driver_start in E. destruct (write_preface _ _ _) as [[err|] s1]; [done|].
  destruct first as [f|]; [|by simplify_eq].
  unfold write_first_request in E. destruct (open_stream _) as [i e1].
  destruct (build_native_request _ _ _ _ _ _ _) as [[fs e2]|]; [|done]. cbn [mbind option_bind] in E.
  destruct (insert_pending _ _ _ _) as [m1 w2]. destruct (encode_and_write_frames _ _ _) as [[err|] s2].
  - destruct (m1 !! i); by simplify_eq.
  - by simplify_eq.
Qed.

Lemma deadline_ends now sy d t cmds cancels :
  sy_driver sy = Some d -> d_shutdown_deadline d = Some t -> t <= now ->
  exists sy', system_round iter order to_str now Deadline cmds cancels sy = Some sy' /\ sy_driver sy' = None.
Proof.
  intros Hd Ht Hle. unfold system_round. rewrite Hd. cbn [mbind option_bind enabled]. rewrite Ht.
  destruct (Z.leb_spec t now); [|lia]. cbn [negb]. by eexists.
Qed.

End shutdown.

(** ** Claims *)

(** The driver survives everything: from any state in its invariant, with
    stream identifiers left, a round of the loop finishes without panic for every
    input (any bytes, end of file or error from the transport, any command,
    cancellation or timeout) and every behaviour of the transport, and the
    invariant holds again. *)
Theorem driver_round_total {D F S : Type} `{HpackDecoder D} `{FlowControlLaws F} `{Transport S}
    (iter : gmap Z stream.H2Stream -> list Z) (order : Pending -> list (Z * PendingStream))
    (to_str : bytes -> option bytes) now b (d : Driver D F S) (w : World) :
  text_ok to_str -> driver_inv d -> room 1 d -> branch_ok b ->
  exists flow d' w', driver_round iter order to_str now b d w = Some (flow, d', w') /\
    driver_inv d' /\ room 0 d'.
Proof. intros Ht Hd Hr Hb. by apply driver_round_spec. Qed.

Definition demo_driver (waiting : list QueuedRequest) : Driver RefDecoder ImmediateFlowControl (list bytes) :=
  mkDriver [] demo_engine (mkWritePolicy true true) [] ∅ waiting false true None.

Definition demo_request : QueuedRequest := NativeRequest 1 demo_get 100 100 true.

Lemma utf8_text_ok : text_ok utf8_text.
Proof. intros b v Hb [= <-]. done. Qed.

Lemma demo_request_ok : Forall request_ok [demo_request].
Proof. constructor; [|constructor]. split_and!; repeat constructor; by vm_compute. Qed.

Lemma driver_round_total_witness :
  let b := Read (ReadOk [0; 0; 8; 6; 0; 0; 0; 0; 0; 1; 2; 3; 4; 5; 6; 7; 8; 255; 255; 255; 0; 9]) in
  exists flow d' w', driver_round any_order all_pending utf8_text 0 b (demo_driver [demo_request]) empty_world
    = Some (flow, d', w') /\ driver_inv d' /\ room 0 d'.
Proof.
  apply (driver_round_total any_order all_pending utf8_text 0).
  - exact utf8_text_ok.
  - split_and!; [exact demo_engine_inv|constructor|exact demo_request_ok].
  - split; by vm_compute.
  - repeat constructor; by vm_compute.
Defined.

(** Queued requests are started in order and as far as the peer allows: on a
    working transport and a connection without error, the driver takes requests
    from the front of the queue, skips exactly the cancelled ones, gives the
    others consecutive stream identifiers with their own channels, and stops only
    when the queue is empty or the peer's limit is reached; it never exceeds that
    limit, and no pending stream is disturbed. *)
Theorem requests_start_in_order {D F : Type} `{HpackDecoder D} `{FlowControlLaws F}
    (to_str : bytes -> option bytes) (d : Driver D F (list bytes)) (w : World) :
  text_ok to_str -> driver_inv d -> room 0 d -> is_goaway (d_engine d) = false ->
  exists d' w' used, dispatch_waiting_requests to_str d w = Some (None, d', w') /\
    d_waiting d = used ++ d_waiting d' /\
    (d_waiting d' = [] \/ can_open_stream (d_engine d') = false) /\
    let started := filter (fun q => is_canceled q w = false) used in
    (forall k q, started !! k = Some q ->
       d_pending d' !! (next_id (d_engine d) + 2 * Z.of_nat k) = Some (pending_of q)) /\
    (forall j, j < next_id (d_engine d) -> d_pending d' !! j = d_pending d !! j) /\
    (within_limit (d_engine d) \/ started <> [] -> within_limit (d_engine d')).
Proof.
  intros Ht (He & Hb & Hq) [Hp Hr] Hg. unfold dispatch_waiting_requests. rewrite Hg.
  destruct (dispatch_loop_order to_str Ht (d_write_policy d) (d_waiting d) (d_stream d) (d_engine d) (d_pending d) w)
    as (s' & e' & m' & rest & w' & used & -> & Hu & Hstop & _ & Hm & Hold & Hlim); [done|done|done|lia|].
  cbn [mbind option_bind]. by exists (with_queues m' rest (with_io s' e' (d_read_buf d) d)), w', used.
Qed.

Lemma requests_start_in_order_witness :
  let d := demo_driver [demo_request] in
  exists d' w' used, dispatch_waiting_requests utf8_text d (new_channels 100 empty_world) = Some (None, d', w') /\
    d_waiting d = used ++ d_waiting d' /\
    (d_waiting d' = [] \/ can_open_stream (d_engine d') = false) /\
    (forall k q, filter (fun q => is_canceled q (new_channels 100 empty_world) = false) used !! k = Some q ->
       d_pending d' !! (next_id (d_engine d) + 2 * Z.of_nat k) = Some (pending_of q)).
Proof.
  destruct (requests_start_in_order utf8_text (demo_driver [demo_request]) (new_channels 100 empty_world))
    as (d' & w' & used & H1 & H2 & H3 & H4 & _).
  - exact utf8_text_ok.
  - split_and!; [exact demo_engine_inv|constructor|exact demo_request_ok].
  - split; by vm_compute.
  - by vm_compute.
  - by exists d', w', used.
Defined.

(** What a connection starts with: on a working transport the driver of a
    well-formed profile starts, its first write begins with the 24 bytes of the
    HTTP/2 magic, and everything behind the magic decodes to exactly the frames
    of the profile's preface, in order, however the policy groups them. *)
Theorem preface_on_wire {D F : Type} `{HpackDecoder D} `{FlowControlPolicy F}
    (to_str : bytes -> option bytes) (c : H2Codec) (p : H2Profile) (fc : F) hp policy max w :
  profile_wf p -> 16384 <= Codec.max_frame_size c <= MAX_FRAME_SIZE_LIMIT ->
  6 * len (settings p) <= Codec.max_frame_size c -> max <> Some 0 ->
  exists (sy : Sys (D := D)) d first rest tail,
    spawn_driver to_str [] p fc hp policy None max w = Some (ROk sy) /\ sy_driver sy = Some d /\
    d_stream d = (CONNECTION_PREFACE ++ first) :: rest /\ len CONNECTION_PREFACE = 24 /\
    mjoin (d_stream d) = CONNECTION_PREFACE ++ tail /\ decodes c tail (to_preface_frames p) [].
Proof.
  intros Hp Hc Hl Hm. unfold spawn_driver. rewrite bool_decide_false by done.
  destruct (client_with_policies p fc (Some hp)) as [e preface] eqn:E.
  assert (preface = to_preface_frames p) as -> by (unfold client_with_policies in E; congruence).
  destruct (group_frames policy (to_preface_frames p)) as [|g groups] eqn:Eg.
  { pose proof (group_frames_concat policy (to_preface_frames p)) as Hj. rewrite Eg in Hj. unfold to_preface_frames in Hj. by destruct (to_window_update_frame p). }
  unfold driver_start. rewrite Eg, write_preface_reliable. cbn [mbind option_bind].
  eexists _, _, (CodecProps.encode_frames g []), _, (CodecProps.encode_frames (to_preface_frames p) []).
  split; [done|]. split; [done|]. split; [done|]. split; [done|]. split.
  - cbn [d_stream]. rewrite <- (group_frames_concat policy (to_preface_frames p)), Eg, <- encode_frames_join.
    rewrite fmap_cons. cbn [mjoin list_join]. by rewrite <- app_assoc.
  - rewrite <- (app_nil_r (CodecProps.encode_frames _ _)). apply decodes_encode; [lia|]. apply preface_wf; [done|lia|done].
Qed.


(** A request on the wire when the shutdown command arrives. *)
Definition demo5 : DemoSys :=
  mkSys (sy_driver demo3) (sy_world demo3) [CmdShutdown] (sy_cancels demo3) (sy_next_request_id demo3)
    (sy_holding demo3) (sy_callers demo3).
Definition demo6 : DemoSys :=
  default no_sys (system_round any_order all_pending utf8_text 5 (Command (Some CmdShutdown)) [] [] demo5).
Definition demo_shutting : Driver RefDecoder ImmediateFlowControl (list bytes) :=
  default (demo_driver []) (sy_driver demo6).

Lemma demo_shutdown : rtc (sys_step any_order all_pending utf8_text) demo0 demo6.
Proof.
  etrans; [apply demo_queued|].
  eapply rtc_l; [apply (step_round _ _ _ 0 (Command (head (sy_cmds demo2))) [] [] demo2 demo3); by vm_compute|].
  eapply rtc_l; [apply (step_shutdown _ _ _ demo3 (default (demo_driver []) (sy_driver demo3))); by vm_compute|].
  eapply rtc_l; [|apply rtc_refl].
  apply (step_round _ _ _ 5 (Command (Some CmdShutdown)) [] []); by vm_compute.
Qed.


Lemma preface_on_wire_witness :
  exists (sy : DemoSys) d first rest tail,
    spawn_driver utf8_text [] safari_26_h2 mkImmediate SafariHpackPolicy safari_policy None (Some 2) empty_world
      = Some (ROk sy) /\ sy_driver sy = Some d /\
    d_stream d = (CONNECTION_PREFACE ++ first) :: rest /\ len CONNECTION_PREFACE = 24 /\
    mjoin (d_stream d) = CONNECTION_PREFACE ++ tail /\ decodes codec_new tail (to_preface_frames safari_26_h2) [].
Proof.
  apply (preface_on_wire utf8_text codec_new safari_26_h2 mkImmediate SafariHpackPolicy safari_policy (Some 2)
    empty_world); [|by vm_compute..].
  split_and!; [|by vm_compute|constructor]. repeat constructor; by vm_compute.
Defined.

(** A graceful GOAWAY does not stop the driver: on this run the server says
    that it will process no stream at all (last stream 0), and the request that
    arrives afterwards is still sent on stream 1, where its caller waits for a
    response the server has ruled out. *)
Theorem request_sent_after_graceful_goaway :
  let goaway := encode (FGoAway (mkGoAway 0 0 [])) [] in
  let run :=
    sy ← system_round any_order all_pending utf8_text 0 (Read (ReadOk goaway)) (sy_cmds demo2) [] 
           (mkSys (sy_driver demo2) (sy_world demo2) (sy_cmds demo2) [] 2 0 (sy_callers demo2));
    sy ← system_round any_order all_pending utf8_text 1 (Command (head (sy_cmds sy))) [] [] sy;
    d ← sy_driver sy;
    c ← w_headers (sy_world sy) !! 100;
    Some (conn_state.goaway_last_stream_id (e_state (d_engine d)), (map_to_list (d_pending d)).*1, os_state c) in
  run = Some (Some 0, [1], Unsent).
Proof. by vm_compute. Qed.
