(* ===== verification/TlsError.v ===== *)
(** * Errors and alerts of the TLS engine (lktls/src/error.rs)

    The alert enums with their byte codes, [TlsAlert] and [TlsError].  An
    [std::io::Error] is its message. *)
From S2P Require Import Prelude.

Module error.

(** [{:02x}] and [{:04x}]. *)
Definition hex_digit (n : Z) : Ascii.ascii :=
  Ascii.ascii_of_N (Z.to_N (if n <? 10 then 48 + n else 87 + n)).
Definition hex2 (v : Z) : string :=
  String (hex_digit (v ≫ 4)) (String (hex_digit (Z.land v 15)) EmptyString).
Definition hex4 (v : Z) : string := hex2 (v ≫ 8) +:+ hex2 (Z.land v 255).

Inductive AlertLevel : Type :=
| Warning
| Fatal
| LUnknown (b : Z).

Definition level_from_byte (b : Z) : AlertLevel :=
  match b with
  | 1 => Warning
  | 2 => Fatal
  | other => LUnknown other
  end.

Definition level_as_byte (l : AlertLevel) : Z :=
  match l with
  | Warning => 1
  | Fatal => 2
  | LUnknown b => b
  end.

Definition level_display (l : AlertLevel) : string :=
  match l with
  | Warning => "warning"
  | Fatal => "fatal"
  | LUnknown b => "unknown(" +:+ pretty b +:+ ")"
  end.

Inductive AlertDescription : Type :=
| ACloseNotify
| AUnexpectedMessage
| ABadRecordMac
| ADecryptionFailed
| ARecordOverflow
| ADecompressionFailure
| AHandshakeFailure
| ANoCertificate
| ABadCertificate
| AUnsupportedCertificate
| ACertificateRevoked
| ACertificateExpired
| ACertificateUnknown
| AIllegalParameter
| AUnknownCa
| AAccessDenied
| ADecodeError
| ADecryptError
| AExportRestriction
| AProtocolVersion
| AInsufficientSecurity
| AInternalError
| AInappropriateFallback
| AUserCanceled
| ANoRenegotiation
| AMissingExtension
| AUnsupportedExtension
| ACertificateUnobtainable
| AUnrecognizedName
| ABadCertificateStatusResponse
| ABadCertificateHashValue
| AUnknownPskIdentity
| ACertificateRequired
| ANoApplicationProtocol
| AUnknown (b : Z).

Definition description_from_byte (b : Z) : AlertDescription :=
  match b with
  | 0 => ACloseNotify
  | 10 => AUnexpectedMessage
  | 20 => ABadRecordMac
  | 21 => ADecryptionFailed
  | 22 => ARecordOverflow
  | 30 => ADecompressionFailure
  | 40 => AHandshakeFailure
  | 41 => ANoCertificate
  | 42 => ABadCertificate
  | 43 => AUnsupportedCertificate
  | 44 => ACertificateRevoked
  | 45 => ACertificateExpired
  | 46 => ACertificateUnknown
  | 47 => AIllegalParameter
  | 48 => AUnknownCa
  | 49 => AAccessDenied
  | 50 => ADecodeError
  | 51 => ADecryptError
  | 60 => AExportRestriction
  | 70 => AProtocolVersion
  | 71 => AInsufficientSecurity
  | 80 => AInternalError
  | 86 => AInappropriateFallback
  | 90 => AUserCanceled
  | 100 => ANoRenegotiation
  | 109 => AMissingExtension
  | 110 => AUnsupportedExtension
  | 111 => ACertificateUnobtainable
  | 112 => AUnrecognizedName
  | 113 => ABadCertificateStatusResponse
  | 114 => ABadCertificateHashValue
  | 115 => AUnknownPskIdentity
  | 116 => ACertificateRequired
  | 120 => ANoApplicationProtocol
  | other => AUnknown other
  end.

Definition description_as_byte (d : AlertDescription) : Z :=
  match d with
  | ACloseNotify => 0
  | AUnexpectedMessage => 10
  | ABadRecordMac => 20
  | ADecryptionFailed => 21
  | ARecordOverflow => 22
  | ADecompressionFailure => 30
  | AHandshakeFailure => 40
  | ANoCertificate => 41
  | ABadCertificate => 42
  | AUnsupportedCertificate => 43
  | ACertificateRevoked => 44
  | ACertificateExpired => 45
  | ACertificateUnknown => 46
  | AIllegalParameter => 47
  | AUnknownCa => 48
  | AAccessDenied => 49
  | ADecodeError => 50
  | ADecryptError => 51
  | AExportRestriction => 60
  | AProtocolVersion => 70
  | AInsufficientSecurity => 71
  | AInternalError => 80
  | AInappropriateFallback => 86
  | AUserCanceled => 90
  | ANoRenegotiation => 100
  | AMissingExtension => 109
  | AUnsupportedExtension => 110
  | ACertificateUnobtainable => 111
  | AUnrecognizedName => 112
  | ABadCertificateStatusResponse => 113
  | ABadCertificateHashValue => 114
  | AUnknownPskIdentity => 115
  | ACertificateRequired => 116
  | ANoApplicationProtocol => 120
  | AUnknown b => b
  end.

Definition description_name (d : AlertDescription) : string :=
  match d with
  | ACloseNotify => "close_notify"
  | AUnexpectedMessage => "unexpected_message"
  | ABadRecordMac => "bad_record_mac"
  | ADecryptionFailed => "decryption_failed"
  | ARecordOverflow => "record_overflow"
  | ADecompressionFailure => "decompression_failure"
  | AHandshakeFailure => "handshake_failure"
  | ANoCertificate => "no_certificate"
  | ABadCertificate => "bad_certificate"
  | AUnsupportedCertificate => "unsupported_certificate"
  | ACertificateRevoked => "certificate_revoked"
  | ACertificateExpired => "certificate_expired"
  | ACertificateUnknown => "certificate_unknown"
  | AIllegalParameter => "illegal_parameter"
  | AUnknownCa => "unknown_ca"
  | AAccessDenied => "access_denied"
  | ADecodeError => "decode_error"
  | ADecryptError => "decrypt_error"
  | AExportRestriction => "export_restriction"
  | AProtocolVersion => "protocol_version"
  | AInsufficientSecurity => "insufficient_security"
  | AInternalError => "internal_error"
  | AInappropriateFallback => "inappropriate_fallback"
  | AUserCanceled => "user_canceled"
  | ANoRenegotiation => "no_renegotiation"
  | AMissingExtension => "missing_extension"
  | AUnsupportedExtension => "unsupported_extension"
  | ACertificateUnobtainable => "certificate_unobtainable"
  | AUnrecognizedName => "unrecognized_name"
  | ABadCertificateStatusResponse => "bad_certificate_status_response"
  | ABadCertificateHashValue => "bad_certificate_hash_value"
  | AUnknownPskIdentity => "unknown_psk_identity"
  | ACertificateRequired => "certificate_required"
  | ANoApplicationProtocol => "no_application_protocol"
  | AUnknown _ => "unknown"
  end.

Definition description_display (d : AlertDescription) : string :=
  description_name d +:+ " (" +:+ pretty (description_as_byte d) +:+ ")".

Record TlsAlert : Type := mkAlert {
  level : AlertLevel;
  description : AlertDescription;
}.

#[export] Instance alert_level_eq_dec : EqDecision AlertLevel.
Proof. solve_decision. Defined.
#[export] Instance alert_description_eq_dec : EqDecision AlertDescription.
Proof. solve_decision. Defined.
#[export] Instance tls_alert_eq_dec : EqDecision TlsAlert.
Proof. solve_decision. Defined.

Definition alert_from_bytes (lv desc : Z) : TlsAlert :=
  {| level := level_from_byte lv; description := description_from_byte desc |}.

Definition is_fatal (a : TlsAlert) : bool := bool_decide (level a = Fatal).
Definition is_close_notify (a : TlsAlert) : bool :=
  bool_decide (description a = ACloseNotify).

Definition alert_display (a : TlsAlert) : string :=
  level_display (level a) +:+ " alert: " +:+ description_display (description a).

Inductive TlsError : Type :=
| Io (msg : string)
| InvalidProfile (msg : string)
| HandshakeFailure (msg : string)
| Alert (a : TlsAlert)
| LocalAlert (a : TlsAlert) (msg : string)
| CryptoError (msg : string)
| CertificateError (msg : string)
| UnexpectedMessage (msg : string)
| NotImplemented (msg : string).

#[export] Instance tls_error_eq_dec : EqDecision TlsError.
Proof. solve_decision. Defined.

Definition error_display (e : TlsError) : string :=
  match e with
  | Io m => "I/O error: " +:+ m
  | InvalidProfile m => "invalid profile: " +:+ m
  | HandshakeFailure m => "handshake failure: " +:+ m
  | Alert a => "TLS alert from server: " +:+ alert_display a
  | LocalAlert a m => "local TLS alert " +:+ alert_display a +:+ ": " +:+ m
  | CryptoError m => "crypto error: " +:+ m
  | CertificateError m => "certificate error: " +:+ m
  | UnexpectedMessage m => "unexpected message: " +:+ m
  | NotImplemented m => "not implemented: " +:+ m
  end.

Definition local_alert (d : AlertDescription) (msg : string) : TlsError :=
  LocalAlert {| level := Fatal; description := d |} msg.

Definition as_alert (e : TlsError) : option TlsAlert :=
  match e with
  | Alert a | LocalAlert a _ => Some a
  | _ => None
  end.

Definition is_alert (e : TlsError) : bool :=
  match e with
  | Alert _ | LocalAlert _ _ => true
  | _ => false
  end.

(** Every byte pair names an alert that prints back to the same two bytes, so
    no alert of the peer is confused with another one. *)
Lemma alert_codes_faithful (lv desc : Z) : u8 lv -> u8 desc ->
  level_as_byte (level (alert_from_bytes lv desc)) = lv /\
  description_as_byte (description (alert_from_bytes lv desc)) = desc.
Proof.
  intros Hl Hd. simpl. split; apply Z.eqb_eq.
  - by apply (u8_forall (fun b => level_as_byte (level_from_byte b) =? b)).
  - by apply (u8_forall (fun b => description_as_byte (description_from_byte b) =? b)).
Qed.

End error.
