(* ===== verification/LkError.v ===== *)
(** * Client errors (lkrequest/src/error.rs)

    The error type of the HTTP client and its classification.  The boxed
    [source] chains are left out: no function here reads them.  Of
    [std::io::ErrorKind] only the kinds the code names are told apart. *)
From S2P Require Import Prelude Text TlsError.

Module lk_error.

Inductive ConnectionPhase : Type :=
| DnsResolution | TcpConnect | ProxyTunnel | TlsHandshake | H2Negotiation | H2cUpgrade
| QuicHandshakePhase | H3Negotiation | QuicFallback | HttpRequest.

Inductive ConnectionClosedKind : Type :=
| Reset | Eof | Goaway | RefusedStream | BrokenPipe | NotConnected | ChannelClosed | Generic.

Inductive QuicPhase : Type := Handshake | Established | Migration.

Record QuicError : Type := mkQuicError {
  qe_phase : QuicPhase;
  qe_message : bytes;
}.

Record ConnectionError : Type := mkConnectionError {
  ce_phase : ConnectionPhase;
  ce_message : bytes;
}.

Inductive ProxyErrorKind : Type :=
| TcpConnectFailed
| AuthenticationRequired
| AuthenticationFailed
| TunnelRefused (status_code : Z)
| Socks5Error (code : Z)
| ProtocolError
| ProxyIoError.

Record ProxyError : Type := mkProxyError {
  pe_kind : ProxyErrorKind;
  pe_message : bytes;
}.

Inductive IoErrorKind : Type :=
| ConnectionReset | ConnectionAborted | IoBrokenPipe | UnexpectedEof | IoNotConnected | OtherKind.

Inductive Error : Type :=
| Tls (e : error.TlsError)
| Http (message : bytes)
| Body (message : bytes)
| H2 (message : bytes)
| ConnectionClosed (phase : ConnectionPhase) (kind : ConnectionClosedKind) (message : bytes)
| Quic (message : bytes)
| QuicTransport (e : QuicError)
| QuicHandshake (message : bytes)
| H3 (message : bytes)
| Http3Request (message : bytes)
| Io (kind : IoErrorKind)
| Proxy (e : ProxyError)
| Connection (e : ConnectionError)
| Timeout (message : bytes) (phase : option ConnectionPhase) (duration : option Z)
| TooManyRedirects (limit : Z)
| Pool (message : bytes)
| InvalidConfig (message : bytes)
| UrlParse (message : bytes)
| ResourceLimitExceeded (message : bytes)
| Status (status : Z) (url : bytes).

#[export] Instance ConnectionPhase_eq_dec : EqDecision ConnectionPhase.
Proof. solve_decision. Defined.
#[export] Instance ConnectionClosedKind_eq_dec : EqDecision ConnectionClosedKind.
Proof. solve_decision. Defined.
#[export] Instance QuicPhase_eq_dec : EqDecision QuicPhase.
Proof. solve_decision. Defined.

Definition is_auth_error (e : ProxyError) : bool :=
  match pe_kind e with AuthenticationRequired | AuthenticationFailed => true | _ => false end.

(** [StatusCode::is_server_error] and [StatusCode::is_redirection]. *)
Definition is_server_error (status : Z) : bool := (500 <=? status) && (status <? 600).
Definition is_redirection (status : Z) : bool := (300 <=? status) && (status <? 400).

Definition is_retryable (e : Error) : bool :=
  match e with
  | Timeout _ _ _ | Io _ | Proxy _ | Tls _ | H2 _ | ConnectionClosed _ _ _ | Quic _
  | QuicTransport _ | QuicHandshake _ | H3 _ | Http3Request _ | Connection _ => true
  | Status status _ => is_server_error status
  | _ => false
  end.

Definition is_safe_to_replay (e : Error) : bool :=
  match e with
  | Tls _ | Proxy _ | QuicHandshake _ => true
  | QuicTransport e => bool_decide (qe_phase e = Handshake)
  | Connection c => negb (bool_decide (ce_phase c = HttpRequest))
  | ConnectionClosed _ kind _ => bool_decide (kind = RefusedStream)
  | _ => false
  end.

Definition is_quic_handshake_failure (e : Error) : bool :=
  match e with
  | QuicHandshake _ => true
  | QuicTransport e => bool_decide (qe_phase e = Handshake)
  | Tls _ => true
  | Connection c =>
      match ce_phase c with
      | DnsResolution | TcpConnect | TlsHandshake | ProxyTunnel => true
      | _ => false
      end
  | _ => false
  end.

Definition is_h3_request_failure (e : Error) : bool :=
  match e with Http3Request _ => true | _ => false end.

Definition quic_phase (e : Error) : option QuicPhase :=
  match e with
  | QuicHandshake _ => Some Handshake
  | QuicTransport e => Some (qe_phase e)
  | _ => None
  end.

Definition is_status (e : Error) : bool := match e with Status _ _ => true | _ => false end.
Definition is_timeout (e : Error) : bool := match e with Timeout _ _ _ => true | _ => false end.

Definition phase (e : Error) : option ConnectionPhase :=
  match e with
  | Connection ce => Some (ce_phase ce)
  | Timeout _ p _ => p
  | Proxy _ => Some ProxyTunnel
  | Tls _ => Some TlsHandshake
  | Quic _ => Some QuicHandshakePhase
  | QuicHandshake _ => Some QuicHandshakePhase
  | QuicTransport e =>
      Some match qe_phase e with
           | Handshake => QuicHandshakePhase
           | Established => HttpRequest
           | Migration => QuicFallback
           end
  | H3 _ => Some H3Negotiation
  | ConnectionClosed p _ _ => Some p
  | _ => None
  end.

Definition is_dns (e : Error) : bool := bool_decide (phase e = Some DnsResolution).
Definition is_tcp (e : Error) : bool := bool_decide (phase e = Some TcpConnect).
Definition is_tls_handshake (e : Error) : bool := bool_decide (phase e = Some TlsHandshake).
Definition is_proxy_tunnel (e : Error) : bool := bool_decide (phase e = Some ProxyTunnel).

Definition error_status (e : Error) : option Z := match e with Status s _ => Some s | _ => None end.
Definition as_tls_alert (e : Error) : option error.TlsAlert :=
  match e with Tls e => error.as_alert e | _ => None end.
Definition as_proxy_error (e : Error) : option ProxyError :=
  match e with Proxy pe => Some pe | _ => None end.

(** ** Closed connections *)

Definition classify_connection_closed_message (message : bytes) : option ConnectionClosedKind :=
  let m := to_ascii_lowercase message in
  let has s := contains (ascii_bytes s) m in
  if has "refused stream" then Some RefusedStream
  else if has "goaway" then Some Goaway
  else if has "stream reset" || has "connection reset" then Some Reset
  else if has "broken pipe" || has "pipe broken" then Some BrokenPipe
  else if has "not connected" || has "connection shut down" then Some NotConnected
  else if has "channel closed" || has "operation was canceled" || has "operation was cancelled"
  then Some ChannelClosed
  else if has "unexpected eof" || has "empty response" then Some Eof
  else if has "connection closed" || has "closed connection" || has "stale connection"
  then Some Generic
  else None.

Definition is_connection_closed (e : Error) : bool :=
  match e with
  | ConnectionClosed _ _ _ => true
  | Io k => match k with OtherKind => false | _ => true end
  | Http msg | H2 msg | Quic msg | QuicHandshake msg | H3 msg | Http3Request msg =>
      bool_decide (is_Some (classify_connection_closed_message msg))
  | QuicTransport err => bool_decide (is_Some (classify_connection_closed_message (qe_message err)))
  | _ => false
  end.

Definition connection_closed_kind (e : Error) : option ConnectionClosedKind :=
  match e with
  | ConnectionClosed _ kind _ => Some kind
  | Io k =>
      match k with
      | ConnectionReset => Some Reset
      | ConnectionAborted | UnexpectedEof => Some Eof
      | IoBrokenPipe => Some BrokenPipe
      | IoNotConnected => Some NotConnected
      | OtherKind => None
      end
  | Http msg | H2 msg | Quic msg | QuicHandshake msg | H3 msg | Http3Request msg =>
      classify_connection_closed_message msg
  | QuicTransport err => classify_connection_closed_message (qe_message err)
  | _ => None
  end.

Definition h2_or_connection_closed (p : ConnectionPhase) (message : bytes) : Error :=
  match classify_connection_closed_message message with
  | Some kind => ConnectionClosed p kind message
  | None => H2 message
  end.
Definition http_or_connection_closed (p : ConnectionPhase) (message : bytes) : Error :=
  match classify_connection_closed_message message with
  | Some kind => ConnectionClosed p kind message
  | None => Http message
  end.
Definition http3_or_connection_closed (p : ConnectionPhase) (message : bytes) : Error :=
  match classify_connection_closed_message message with
  | Some kind => ConnectionClosed p kind message
  | None => Http3Request message
  end.

(** ** Lemmas *)

Lemma closed_iff_kind e : is_connection_closed e = true <-> is_Some (connection_closed_kind e).
Proof.
  destruct e; simpl; rewrite ?bool_decide_eq_true; try (by split; [done|intros [? [=]]]); try naive_solver.
  case_match; naive_solver.
Qed.

(** A replay-safe error is a retryable one. *)
Lemma replay_safe_retryable e : is_safe_to_replay e = true -> is_retryable e = true.
Proof. by destruct e. Qed.

End lk_error.
