(* ===== verification/Route.v ===== *)
(** * Protocol policy and routes (lkrequest/src/protocol.rs, lkrequest/src/proxy/config.rs)

    The four axes of a protocol policy with their validation and
    normalization, the proxy configuration with its identity string, and the
    route key under which learned state is kept.  [Url::parse] and the accessors
    of a parsed URL belong to the [url] crate: the proxy-URL parser takes them
    as a record of functions. *)
From S2P Require Import Prelude Text Hpack LkError.
Import lk_error.

Module protocol.

(** ** Policies *)

Inductive HttpIntent : Type :=
| H2Only | H3Only | AcquireH3WhenViable | ReuseExistingProtocol | PreferH3 | IntentAuto.

Record RacePolicy : Type := mkRace {
  enable_tcp : bool;
  enable_quic : bool;
  tcp_delay : Z;
  quic_delay : Z;
  only_when_h3_advertised : bool;
}.

Inductive AcquisitionPolicy : Type :=
| ReuseExistingFirst
| EstablishBestAvailable
| Race (race : RacePolicy).

Inductive UpgradePolicy : Type :=
| Off | ProbeOnly | ProbeAndMigrate | ForceForNewRequests
| Disabled | BackgroundProbe | BackgroundProbeAndMigrate | ForceUpgradeForNewRequests.

Inductive FallbackPolicy : Type := AllowFallback | AllowFallbackOnNetworkErrors | NoFallback.

Record ProtocolPolicy : Type := mkPolicy {
  intent : HttpIntent;
  acquisition : AcquisitionPolicy;
  upgrade : UpgradePolicy;
  fallback : FallbackPolicy;
}.

#[export] Instance HttpIntent_eq_dec : EqDecision HttpIntent.
Proof. solve_decision. Defined.
#[export] Instance UpgradePolicy_eq_dec : EqDecision UpgradePolicy.
Proof. solve_decision. Defined.
#[export] Instance FallbackPolicy_eq_dec : EqDecision FallbackPolicy.
Proof. solve_decision. Defined.

(** Durations are nanoseconds. *)
Definition millis (n : Z) : Z := n * 1000000.
Definition secs (n : Z) : Z := n * 1000000000.

Definition chrome_like : RacePolicy :=
  {| enable_tcp := true; enable_quic := true; tcp_delay := millis 300; quic_delay := 0;
     only_when_h3_advertised := true |}.
Definition with_tcp_delay (r : RacePolicy) (delay : Z) : RacePolicy :=
  {| enable_tcp := enable_tcp r; enable_quic := enable_quic r; tcp_delay := delay;
     quic_delay := quic_delay r; only_when_h3_advertised := only_when_h3_advertised r |}.
Definition with_quic_delay (r : RacePolicy) (delay : Z) : RacePolicy :=
  {| enable_tcp := enable_tcp r; enable_quic := enable_quic r; tcp_delay := tcp_delay r;
     quic_delay := delay; only_when_h3_advertised := only_when_h3_advertised r |}.

Definition off_or_disabled (u : UpgradePolicy) : bool :=
  match u with Off | Disabled => true | _ => false end.

Definition validate (p : ProtocolPolicy) : Outcome Error unit :=
  let conflict m := InvalidConfig (ascii_bytes m) in
  _ ← guard_ok (negb (bool_decide (intent p = H2Only) && negb (bool_decide (fallback p = NoFallback))))
        (conflict "ProtocolPolicy conflict: H2Only disables H3, so fallback must be NoFallback");
  _ ← guard_ok (negb (bool_decide (intent p = H2Only) && negb (off_or_disabled (upgrade p))))
        (conflict "ProtocolPolicy conflict: H2Only disables H3, so upgrade policy must be Off");
  _ ← guard_ok (negb (bool_decide (intent p = H3Only) && negb (bool_decide (fallback p = NoFallback))))
        (conflict "ProtocolPolicy conflict: H3Only requires NoFallback");
  match acquisition p with
  | Race race =>
      _ ← guard_ok (negb (negb (enable_tcp race) && negb (enable_quic race)))
            (conflict "ProtocolPolicy conflict: RacePolicy must enable TCP, QUIC, or both");
      _ ← guard_ok (negb (bool_decide (intent p = H2Only) && enable_quic race))
            (conflict "ProtocolPolicy conflict: H2Only cannot race a QUIC job");
      _ ← guard_ok (negb (bool_decide (intent p = H3Only) && enable_tcp race))
            (conflict "ProtocolPolicy conflict: H3Only cannot race a TCP fallback job");
      Ok tt
  | _ => Ok tt
  end.

Definition try_new (i : HttpIntent) (a : AcquisitionPolicy) (u : UpgradePolicy) (f : FallbackPolicy)
    : Outcome Error ProtocolPolicy :=
  let policy := mkPolicy i a u f in
  _ ← validate policy; Ok policy.

Definition normalize_for_intent (p : ProtocolPolicy) : ProtocolPolicy :=
  match intent p with
  | H2Only =>
      {| intent := intent p;
         acquisition := match acquisition p with
                        | Race _ => EstablishBestAvailable
                        | a => a
                        end;
         upgrade := Off; fallback := NoFallback |}
  | H3Only =>
      {| intent := intent p;
         acquisition := match acquisition p with
                        | Race race => if enable_tcp race then EstablishBestAvailable else Race race
                        | a => a
                        end;
         upgrade := upgrade p; fallback := NoFallback |}
  | AcquireH3WhenViable | ReuseExistingProtocol | PreferH3 | IntentAuto => p
  end.

Definition with_intent (p : ProtocolPolicy) (i : HttpIntent) : ProtocolPolicy :=
  normalize_for_intent (mkPolicy i (acquisition p) (upgrade p) (fallback p)).
Definition with_acquisition (p : ProtocolPolicy) (a : AcquisitionPolicy) : ProtocolPolicy :=
  mkPolicy (intent p) a (upgrade p) (fallback p).
Definition with_upgrade (p : ProtocolPolicy) (u : UpgradePolicy) : ProtocolPolicy :=
  mkPolicy (intent p) (acquisition p) u (fallback p).
Definition with_fallback (p : ProtocolPolicy) (f : FallbackPolicy) : ProtocolPolicy :=
  mkPolicy (intent p) (acquisition p) (upgrade p) f.

Definition chrome_standard : ProtocolPolicy :=
  mkPolicy AcquireH3WhenViable (Race chrome_like) ProbeAndMigrate AllowFallbackOnNetworkErrors.
Definition chrome_conservative : ProtocolPolicy :=
  mkPolicy ReuseExistingProtocol ReuseExistingFirst ProbeOnly AllowFallbackOnNetworkErrors.
Definition crawler_throughput : ProtocolPolicy :=
  mkPolicy ReuseExistingProtocol ReuseExistingFirst Off AllowFallback.
Definition h3_strict : ProtocolPolicy :=
  mkPolicy H3Only EstablishBestAvailable ForceForNewRequests NoFallback.

End protocol.

Module proxy.

Record ProxyAuth : Type := mkAuth {
  username : bytes;
  password : bytes;
}.

Inductive ProxyScheme : Type :=
| PHttp (host : bytes) (port : Z)
| PSocks5 (host : bytes) (port : Z) (remote_dns : bool).

Inductive ProxyConfig : Type := mkProxy {
  scheme : ProxyScheme;
  auth : option ProxyAuth;
  chain : list ProxyConfig;
}.

Definition host_port (p : ProxyConfig) : bytes * Z :=
  match scheme p with PHttp h n => (h, n) | PSocks5 h n _ => (h, n) end.
Definition hop_count (p : ProxyConfig) : Z := len (chain p) + 1.
Definition through (p : ProxyConfig) (hops : list ProxyConfig) : ProxyConfig :=
  {| scheme := scheme p; auth := auth p; chain := hops |}.

(** [identity()]: a hop with hops of its own prints them too. *)
Fixpoint identity (p : ProxyConfig) : bytes :=
  let '(mkProxy s a c) := p in
  let '(host, port) := match s with PHttp h n => (h, n) | PSocks5 h n _ => (h, n) end in
  let base := match a with
              | Some auth => username auth ++ 64 :: host ++ 58 :: show_dec port
              | None => host ++ 58 :: show_dec port
              end in
  (fix hops (l : list ProxyConfig) : bytes :=
     match l with
     | [] => []
     | hop :: l => identity hop ++ 62 :: hops l
     end) c ++ base.

(** ** Proxy URLs

    What the [url] crate answers for a parsed URL. *)
Record ParsedUrl : Type := mkParsedUrl {
  url_scheme : bytes;
  url_host_str : option bytes;
  url_username : bytes;
  url_password : option bytes;
  url_port : option Z;
}.

(** [u8::from_str_radix(s, 16)] of a two-byte slice: hex digits, or [+] and one
    digit. *)
Definition hex_val (b : Z) : option Z :=
  if (48 <=? b) && (b <=? 57) then Some (b - 48)
  else if (97 <=? b) && (b <=? 102) then Some (b - 87)
  else if (65 <=? b) && (b <=? 70) then Some (b - 55)
  else None.
Definition from_hex2 (a b : Z) : option Z :=
  if a =? 43 then hex_val b
  else x ← hex_val a; y ← hex_val b; Some (x * 16 + y).

(** The loop of [percent_decode]; [None] when [&s[i + 1..i + 3]] would cut a
    character, which panics.  Every round consumes a byte. *)
Fixpoint percent_go (fuel : nat) (s : bytes) : option bytes :=
  match fuel with
  | O => Some []
  | S fuel =>
      match s with
      | [] => Some []
      | b :: rest =>
          match rest with
          | h :: l :: rest' =>
              if b =? 37 then
                if match rest' with c :: _ => is_cont c | [] => false end then None
                else match from_hex2 h l with
                     | Some v => out ← percent_go fuel rest'; Some (v :: out)
                     | None => out ← percent_go fuel rest; Some (b :: out)
                     end
              else out ← percent_go fuel rest; Some (b :: out)
          | _ => out ← percent_go fuel rest; Some (b :: out)
          end
      end
  end.
Definition percent_decode (s : bytes) : Outcome Error bytes :=
  match percent_go (length s) s with
  | Some result => Ok (if is_utf8 result then result else s)
  | None => Panic
  end.

Definition parse (url_parse : bytes -> bytes + ParsedUrl) (url : bytes) : Outcome Error ProxyConfig :=
  match url_parse url with
  | inl e => Err (InvalidConfig (ascii_bytes "invalid proxy URL '" ++ url ++ ascii_bytes "': " ++ e))
  | inr parsed =>
      host ← match url_host_str parsed with
             | Some h => Ok h
             | None => Err (InvalidConfig (ascii_bytes "proxy URL missing host: '" ++ url ++ ascii_bytes "'"))
             end;
      auth ← (if negb (is_empty (url_username parsed)) then
                u ← percent_decode (url_username parsed);
                w ← percent_decode (default [] (url_password parsed));
                Ok (Some (mkAuth u w))
              else Ok None);
      let s := url_scheme parsed in
      let named t := bool_decide (s = ascii_bytes t) in
      if named "http" || named "https" then
        let port := default (if named "https" then 443 else 8080) (url_port parsed) in
        Ok (mkProxy (PHttp host port) auth [])
      else if named "socks5" || named "socks5h" then
        let port := default 1080 (url_port parsed) in
        Ok (mkProxy (PSocks5 host port (named "socks5h")) auth [])
      else Err (InvalidConfig (ascii_bytes "unsupported proxy scheme '" ++ s ++
                               ascii_bytes "' (expected http, https, socks5)"))
  end.

Fixpoint parse_all (url_parse : bytes -> bytes + ParsedUrl) (urls : list bytes)
    : Outcome Error (list ProxyConfig) :=
  match urls with
  | [] => Ok []
  | u :: urls => c ← parse url_parse u; cs ← parse_all url_parse urls; Ok (c :: cs)
  end.
Definition parse_chain (url_parse : bytes -> bytes + ParsedUrl) (urls : list bytes)
    : Outcome Error ProxyConfig :=
  configs ← parse_all url_parse urls;
  match last configs with
  | Some l => Ok {| scheme := scheme l; auth := auth l; chain := take (length configs - 1) configs |}
  | None => Err (InvalidConfig (ascii_bytes "proxy chain must contain at least one proxy"))
  end.

(** [Display]. *)
Fixpoint display (p : ProxyConfig) : bytes :=
  let '(mkProxy s _ c) := p in
  (fix hops (l : list ProxyConfig) : bytes :=
     match l with
     | [] => []
     | hop :: l => display hop ++ ascii_bytes " -> " ++ hops l
     end) c ++
  match s with
  | PHttp host port => ascii_bytes "http://" ++ host ++ 58 :: show_dec port
  | PSocks5 host port remote_dns =>
      ascii_bytes (if remote_dns then "socks5h" else "socks5") ++ ascii_bytes "://" ++
      host ++ 58 :: show_dec port
  end.

(** The status of an HTTP proxy's answer line. *)
Definition parse_http_status (line : bytes) : option Z :=
  match split_on 32 line with
  | _ :: code :: _ => parse_uint 65535 code
  | _ => None
  end.

End proxy.

Module route.
Import proxy.

Inductive ProxyRouteKind : Type := Direct | HttpConnect | Socks5.
Inductive DnsResolutionMode : Type := Local | Remote.

Record RouteKey : Type := mkRoute {
  proxy_kind : ProxyRouteKind;
  proxy_identity : option bytes;
  dns_mode : DnsResolutionMode;
}.

#[export] Instance ProxyRouteKind_eq_dec : EqDecision ProxyRouteKind.
Proof. solve_decision. Defined.
#[export] Instance DnsResolutionMode_eq_dec : EqDecision DnsResolutionMode.
Proof. solve_decision. Defined.
#[export] Instance RouteKey_eq_dec : EqDecision RouteKey.
Proof. solve_decision. Defined.

Definition kind_code (k : ProxyRouteKind) : nat :=
  match k with Direct => 0 | HttpConnect => 1 | Socks5 => 2 end.
Definition kind_of_code (n : nat) : ProxyRouteKind :=
  match n with O => Direct | 1%nat => HttpConnect | _ => Socks5 end.
Definition mode_code (m : DnsResolutionMode) : bool :=
  match m with Local => true | Remote => false end.
Definition mode_of_code (b : bool) : DnsResolutionMode := if b then Local else Remote.

#[export] Instance RouteKey_countable : Countable RouteKey.
Proof.
  refine (inj_countable'
            (fun r => (kind_code (proxy_kind r), proxy_identity r, mode_code (dns_mode r)))
            (fun '(k, i, m) => mkRoute (kind_of_code k) i (mode_of_code m)) _).
  by intros [[] i []].
Defined.

Definition direct : RouteKey := mkRoute Direct None Local.

Definition from_proxy (p : option ProxyConfig) : RouteKey :=
  match p with
  | None => direct
  | Some p =>
      match scheme p with
      | PHttp _ _ => mkRoute HttpConnect (Some (identity p)) Remote
      | PSocks5 _ _ remote_dns =>
          mkRoute Socks5 (Some (identity p)) (if remote_dns then Remote else Local)
      end
  end.

Definition proxy_uses_remote_dns (p : option ProxyConfig) : bool :=
  bool_decide (dns_mode (from_proxy p) = Remote).

End route.
