(* ===== verification/StateM.v ===== *)
(** * State and error computations

    A method on [&mut self] that returns [Result] is a function of the object and
    of an environment (random generator, clocks): it gives its outcome together
    with the object and the environment it leaves, because what was assigned
    before an error stays assigned.  [None] stands for a loop that has not ended
    within its fuel.  Three ways to reason about such computations: inversion of
    the ones that succeed ([hm]), frames ([keeps]) and absence of panics
    ([runs]). *)
From S2P Require Import Prelude TlsError.
Import error.

Module statem.

Definition SM (S R A : Type) : Type := S -> R -> option (Outcome TlsError A * S * R).
#[export] Instance sm_ret {S R} : MRet (SM S R) := fun A a h r => Some (Ok a, h, r).
#[export] Instance sm_bind {S R} : MBind (SM S R) := fun A B k m h r =>
  match m h r with
  | Some (Ok a, h, r) => k a h r
  | Some (Err e, h, r) => Some (Err e, h, r)
  | Some (Panic, h, r) => Some (Panic, h, r)
  | None => None
  end.

Section monad.
Context {Hs R : Type}.
Abbreviation HM := (SM Hs R).

Definition lift {A} (o : Outcome TlsError A) : HM A := fun h r => Some (o, h, r).
Definition fail {A} (e : TlsError) : HM A := lift (Err e).
Definition panic {A} : HM A := lift Panic.
Definition get : HM Hs := fun h r => Some (Ok h, h, r).
Definition modify (f : Hs -> Hs) : HM unit := fun h r => Some (Ok tt, f h, r).
Definition env {A} (f : R -> A * R) : HM A := fun h r => let '(a, r) := f r in Some (Ok a, h, r).
(** Key generation: on an error the generator's state is not used again. *)
Definition env_try {A} (f : R -> Outcome TlsError (A * R)) : HM A := fun h r =>
  match f r with
  | Ok (a, r) => Some (Ok a, h, r)
  | Err e => Some (Err e, h, r)
  | Panic => Some (Panic, h, r)
  end.
Definition require (b : bool) (e : TlsError) : HM unit := if b then mret tt else fail e.
(** [o.ok_or_else(e)?] and [o.unwrap()]. *)
Definition ok_or {A} (o : option A) (e : TlsError) : HM A :=
  match o with Some a => mret a | None => fail e end.
Definition unwrap {A} (o : option A) : HM A := match o with Some a => mret a | None => panic end.

(** ** Inversion of computations that succeed *)

Lemma bind_ok {A B} (m : HM A) (k : A -> HM B) (h h2 : Hs) (r r2 : R) b :
  (m ≫= k) h r = Some (Ok b, h2, r2) <->
  exists a h1 r1, m h r = Some (Ok a, h1, r1) /\ k a h1 r1 = Some (Ok b, h2, r2).
Proof.
  unfold mbind, sm_bind. split.
  - destruct (m h r) as [[[[a| |] h1] r1]|]; [|done..]. eauto 10.
  - by intros (a & h1 & r1 & -> & ?).
Qed.
Lemma ret_ok {A} (a b : A) (h h1 : Hs) (r r1 : R) :
  (mret a : HM A) h r = Some (Ok b, h1, r1) <-> a = b /\ h1 = h /\ r1 = r.
Proof. unfold mret, sm_ret. naive_solver. Qed.
Lemma lift_ok {A} (o : Outcome TlsError A) a (h h1 : Hs) (r r1 : R) :
  lift o h r = Some (Ok a, h1, r1) <-> o = Ok a /\ h1 = h /\ r1 = r.
Proof. unfold lift. naive_solver. Qed.
Lemma fail_ok {A} e (a : A) (h h1 : Hs) (r r1 : R) : fail e h r = Some (Ok a, h1, r1) <-> False.
Proof. unfold fail, lift. naive_solver. Qed.
Lemma panic_ok {A} (a : A) (h h1 : Hs) (r r1 : R) : panic h r = Some (Ok a, h1, r1) <-> False.
Proof. unfold panic, lift. naive_solver. Qed.
Lemma get_ok (a h h1 : Hs) (r r1 : R) : get h r = Some (Ok a, h1, r1) <-> a = h /\ h1 = h /\ r1 = r.
Proof. unfold get. naive_solver. Qed.
Lemma modify_ok f (u : unit) (h h1 : Hs) (r r1 : R) :
  modify f h r = Some (Ok u, h1, r1) <-> h1 = f h /\ r1 = r.
Proof. unfold modify. destruct u. naive_solver. Qed.
Lemma require_ok b e (u : unit) (h h1 : Hs) (r r1 : R) :
  require b e h r = Some (Ok u, h1, r1) <-> b = true /\ h1 = h /\ r1 = r.
Proof. unfold require. destruct b, u; rewrite ?ret_ok, ?fail_ok; naive_solver. Qed.
Lemma ok_or_ok {A} (o : option A) e a (h h1 : Hs) (r r1 : R) :
  ok_or o e h r = Some (Ok a, h1, r1) <-> o = Some a /\ h1 = h /\ r1 = r.
Proof. unfold ok_or. destruct o; rewrite ?ret_ok, ?fail_ok; naive_solver. Qed.
Lemma unwrap_ok {A} (o : option A) a (h h1 : Hs) (r r1 : R) :
  unwrap o h r = Some (Ok a, h1, r1) <-> o = Some a /\ h1 = h /\ r1 = r.
Proof. unfold unwrap. destruct o; rewrite ?ret_ok, ?panic_ok; naive_solver. Qed.
Lemma env_ok {A} (f : R -> A * R) a (h h1 : Hs) (r r1 : R) :
  env f h r = Some (Ok a, h1, r1) <-> f r = (a, r1) /\ h1 = h.
Proof. unfold env. destruct (f r). naive_solver. Qed.
Lemma env_try_ok {A} (f : R -> Outcome TlsError (A * R)) a (h h1 : Hs) (r r1 : R) :
  env_try f h r = Some (Ok a, h1, r1) <-> f r = Ok (a, r1) /\ h1 = h.
Proof. unfold env_try. destruct (f r) as [[]| |]; naive_solver. Qed.

(** ** Frames *)

(** A computation that keeps a part [f] of the object, however it ends. *)
Definition keeps {X A} (f : Hs -> X) (m : HM A) : Prop :=
  forall h r o h1 r1, m h r = Some (o, h1, r1) -> f h1 = f h.

Section keeps.
Context {X : Type} (p : Hs -> X).

Lemma keeps_bind {A B} (m : HM A) (k : A -> HM B) : keeps p m -> (forall a, keeps p (k a)) -> keeps p (m ≫= k).
Proof.
  intros Hm Hk h r o h2 r2 Hx. unfold mbind, sm_bind in Hx.
  destruct (m h r) as [[[[a|e|] h1] r1]|] eqn:E1; simplify_eq; apply Hm in E1; [|done..].
  rewrite <- E1. by eapply Hk.
Qed.
Lemma keeps_ret {A} (a : A) : keeps p (mret a).
Proof. intros h r o h1 r1 Hx. unfold mret, sm_ret in Hx. by simplify_eq. Qed.
Lemma keeps_lift {A} (o : Outcome TlsError A) : keeps p (lift o).
Proof. intros h r o' h1 r1 Hx. unfold lift in Hx. by simplify_eq. Qed.
Lemma keeps_get : keeps p get.
Proof. intros h r o' h1 r1 Hx. unfold get in Hx. by simplify_eq. Qed.
Lemma keeps_modify f : (forall h, p (f h) = p h) -> keeps p (modify f).
Proof. intros Hf h r o' h1 r1 Hx. unfold modify in Hx. by simplify_eq. Qed.
Lemma keeps_env {A} (f : R -> A * R) : keeps p (env f).
Proof. intros h r o h1 r1 Hx. unfold env in Hx. destruct (f r). by simplify_eq. Qed.
Lemma keeps_env_try {A} (f : R -> Outcome TlsError (A * R)) : keeps p (env_try f).
Proof. intros h r o h1 r1 Hx. unfold env_try in Hx. destruct (f r) as [[]| |]; by simplify_eq. Qed.
End keeps.

(** ** Computations that do not panic *)

(** [m] run on [h] ends, not in a panic, and its value and state satisfy [Q]. *)
Definition runs {A} (m : HM A) (Q : A -> Hs -> Prop) (h : Hs) : Prop :=
  forall r, match m h r with
            | Some (Ok a, h1, _) => Q a h1
            | Some (Err _, _, _) => True
            | _ => False
            end.

Lemma runs_bind {A B} (m : HM A) (k : A -> HM B) (Q : A -> Hs -> Prop) (Q2 : B -> Hs -> Prop) h :
  runs m Q h -> (forall a h1, Q a h1 -> runs (k a) Q2 h1) -> runs (m ≫= k) Q2 h.
Proof.
  intros Hm Hk r. specialize (Hm r). unfold mbind, sm_bind. destruct (m h r) as [[[[a| |] h1] r1]|]; try done.
  by apply Hk.
Qed.
Lemma runs_ret {A} (a : A) (Q : A -> Hs -> Prop) h : Q a h -> runs (mret a) Q h.
Proof. by intros ? r. Qed.
Lemma runs_lift {A} (o : Outcome TlsError A) (Q : A -> Prop) h :
  outcome_ok Q o -> runs (lift o) (fun a h1 => Q a /\ h1 = h) h.
Proof. intros Ho r. unfold lift. by destruct o. Qed.
Lemma runs_get h : runs get (fun a h1 => a = h /\ h1 = h) h.
Proof. by intros r. Qed.
Lemma runs_modify f h : runs (modify f) (fun _ h1 => h1 = f h) h.
Proof. by intros r. Qed.
Lemma runs_fail {A} e (Q : A -> Hs -> Prop) h : runs (fail e) Q h.
Proof. by intros r. Qed.
Lemma runs_require b e h : runs (require b e) (fun _ h1 => b = true /\ h1 = h) h.
Proof. intros r. by destruct b. Qed.
Lemma runs_ok_or {A} (o : option A) e h : runs (ok_or o e) (fun a h1 => o = Some a /\ h1 = h) h.
Proof. intros r. by destruct o. Qed.
Lemma runs_unwrap {A} (o : option A) h : is_Some o -> runs (unwrap o) (fun a h1 => o = Some a /\ h1 = h) h.
Proof. by intros [a ->] r. Qed.
Lemma runs_env {A} (f : R -> A * R) h : runs (env f) (fun _ h1 => h1 = h) h.
Proof. intros r. unfold env. by destruct (f r). Qed.
Lemma runs_weaken {A} (m : HM A) (Q Q2 : A -> Hs -> Prop) h :
  runs m Q h -> (forall a h1, Q a h1 -> Q2 a h1) -> runs m Q2 h.
Proof.
  intros Hm Hk r. specialize (Hm r). destruct (m h r) as [[[[a| |] h1] r1]|]; try done. by apply Hk.
Qed.
Definition any {A} (_ : A) (_ : Hs) : Prop := True.
Lemma runs_post {A} (m : HM A) (Q : A -> Hs -> Prop) h : runs m any h ->
  (forall r a h1 r1, m h r = Some (Ok a, h1, r1) -> Q a h1) -> runs m Q h.
Proof.
  intros Hm Hq r. specialize (Hm r). destruct (m h r) as [[[[a| |] h1] r1]|] eqn:Hx; try done. by eapply Hq.
Qed.
End monad.


(** Inverts every successful computation of the context. *)
Ltac hm :=
  repeat match goal with
  | H : (_ ≫= _) _ _ = Some (Ok _, _, _) |- _ => apply bind_ok in H as (? & ? & ? & ? & H)
  | H : (let '(_, _) := ?p in _) _ _ = Some (Ok _, _, _) |- _ => destruct p eqn:?
  | H : mret _ _ _ = _ |- _ => apply ret_ok in H as (? & ? & ?)
  | H : lift _ _ _ = _ |- _ => apply lift_ok in H as (? & ? & ?)
  | H : fail _ _ _ = _ |- _ => apply fail_ok in H; contradiction
  | H : panic _ _ = _ |- _ => apply panic_ok in H; contradiction
  | H : get _ _ = _ |- _ => apply get_ok in H as (? & ? & ?)
  | H : modify _ _ _ = _ |- _ => apply modify_ok in H as (? & ?)
  | H : require _ _ _ _ = _ |- _ => apply require_ok in H as (? & ? & ?)
  | H : ok_or _ _ _ _ = _ |- _ => apply ok_or_ok in H as (? & ? & ?)
  | H : unwrap _ _ _ = _ |- _ => apply unwrap_ok in H as (? & ? & ?)
  | H : env _ _ _ = _ |- _ => apply env_ok in H as (? & ?)
  | H : env_try _ _ _ = _ |- _ => apply env_try_ok in H as (? & ?)
  | H : unit |- _ => destruct H
  | x : _ * _ |- _ => destruct x
  end; subst.

Create HintDb keeps.
#[export] Hint Resolve keeps_ret keeps_lift keeps_get keeps_env keeps_env_try : keeps.
Ltac keeps :=
  repeat first
    [ progress intros
    | solve [auto with keeps nocore]
    | apply keeps_bind
    | apply keeps_modify; intros; repeat case_match; reflexivity
    | progress unfold require, ok_or, unwrap, fail, panic
    | case_match ].

(** One turn: the first computation of a sequence, by the lemma for its shape. *)
Ltac turn :=
  cbv beta in *; destruct_and?; eapply runs_bind;
    [lazymatch goal with
     | |- runs get _ _ => apply runs_get
     | |- runs (modify _) _ _ => apply runs_modify
     | |- runs (require _ _) _ _ => apply runs_require
     | |- runs (ok_or _ _) _ _ => apply runs_ok_or
     | |- runs (env _) _ _ => apply runs_env
     | |- runs (unwrap _) _ _ => apply runs_unwrap
     | |- runs (lift _) _ _ => apply runs_lift
     | _ => idtac
     end
    |let HQ := fresh "HQ" in intros ? ? HQ; cbv beta in HQ;
     destruct_and? HQ; subst].

End statem.
