(* ===== verification/TlsCipher.v ===== *)
(** * Record ciphers (lktls/src/crypto/aead.rs, lktls/src/crypto/tls12_cipher.rs)

    The AEAD wrapper of TLS 1.3 and the GCM, ChaCha20 and CBC+HMAC ciphers of
    TLS 1.2, with the table of TLS 1.2 cipher suites.  The primitives come from
    other crates (aws-lc-rs, aes, cbc): they are the class [Crypto], and what
    their documentation promises is [CryptoLaws].  A key object of aws-lc-rs is
    its algorithm and key bytes.  The random IV of CBC is drawn from a
    [SystemRandom], whose state is passed along. *)
From S2P Require Import Prelude TlsError.
Import error.

(** ** Algorithms *)

Inductive AeadAlgorithm : Type := Aes128Gcm | Aes256Gcm | Chacha20Poly1305.
Inductive CbcMacAlgorithm : Type := HmacSha1 | HmacSha256 | HmacSha384.
Inductive PrfAlgorithm : Type := PrfSha256 | PrfSha384.
Inductive HkdfAlgorithm : Type := HkdfSha256 | HkdfSha384.

#[export] Instance aead_algorithm_eq_dec : EqDecision AeadAlgorithm.
Proof. solve_decision. Defined.
#[export] Instance cbc_mac_eq_dec : EqDecision CbcMacAlgorithm.
Proof. solve_decision. Defined.

Definition key_len (a : AeadAlgorithm) : Z :=
  match a with Aes128Gcm => 16 | Aes256Gcm => 32 | Chacha20Poly1305 => 32 end.
Definition nonce_len (a : AeadAlgorithm) : Z := 12.
Definition tag_len (a : AeadAlgorithm) : Z := 16.

Definition from_cipher_suite (suite : Z) : option AeadAlgorithm :=
  match suite with
  | 0x1301 => Some Aes128Gcm
  | 0x1302 => Some Aes256Gcm
  | 0x1303 => Some Chacha20Poly1305
  | _ => None
  end.

Definition mac_len (a : CbcMacAlgorithm) : Z :=
  match a with HmacSha1 => 20 | HmacSha256 => 32 | HmacSha384 => 48 end.

(** ** Primitives of other crates *)

Class Crypto : Type := {
  (** [UnboundKey::new(alg, key)] succeeds *)
  unbound_key_ok : AeadAlgorithm -> bytes -> bool;
  (** [seal_in_place_append_tag] with key, nonce, aad, plaintext *)
  seal : AeadAlgorithm -> bytes -> bytes -> bytes -> bytes -> option bytes;
  (** [open_in_place] with key, nonce, aad, ciphertext and tag *)
  open : AeadAlgorithm -> bytes -> bytes -> bytes -> bytes -> option bytes;
  (** [hmac::sign] with key and message; [hmac::verify] with a received tag *)
  hmac_sign : CbcMacAlgorithm -> bytes -> bytes -> bytes;
  hmac_verify : CbcMacAlgorithm -> bytes -> bytes -> bytes -> bool;
  (** AES-CBC without padding, with key, IV, data *)
  aes_cbc_encrypt : bytes -> bytes -> bytes -> option bytes;
  aes_cbc_decrypt : bytes -> bytes -> bytes -> option bytes;
}.

Class CryptoLaws (C : Crypto) : Prop := {
  unbound_key_iff alg key : unbound_key_ok alg key = bool_decide (len key = key_len alg);
  (** sealing a record-sized message under a well-sized key and nonce succeeds,
      appends a 16-byte tag, and is undone by opening with the same inputs *)
  seal_total alg key nonce aad pt :
    len key = key_len alg -> len nonce = 12 -> len pt <= 65536 ->
    exists ct, seal alg key nonce aad pt = Some ct;
  seal_shape alg key nonce aad pt ct :
    is_bytes pt -> seal alg key nonce aad pt = Some ct ->
    len ct = len pt + tag_len alg /\ is_bytes ct;
  open_seal alg key nonce aad pt ct :
    seal alg key nonce aad pt = Some ct -> open alg key nonce aad ct = Some pt;
  open_shape alg key nonce aad ct pt :
    is_bytes ct -> open alg key nonce aad ct = Some pt -> is_bytes pt;
  hmac_shape alg key msg :
    len (hmac_sign alg key msg) = mac_len alg /\ is_bytes (hmac_sign alg key msg);
  hmac_verify_sign alg key msg tag :
    hmac_verify alg key msg tag = bool_decide (tag = hmac_sign alg key msg);
  aes_cbc_total key iv d :
    len key = 16 \/ len key = 32 -> len iv = 16 -> len d mod 16 = 0 ->
    exists ct, aes_cbc_encrypt key iv d = Some ct;
  aes_cbc_shape key iv d ct :
    is_bytes d -> aes_cbc_encrypt key iv d = Some ct -> len ct = len d /\ is_bytes ct;
  aes_cbc_inv key iv d ct :
    aes_cbc_encrypt key iv d = Some ct -> aes_cbc_decrypt key iv ct = Some d;
  aes_cbc_dec_shape key iv d pt :
    is_bytes d -> aes_cbc_decrypt key iv d = Some pt -> len pt = len d /\ is_bytes pt;
}.

(** [SystemRandom] with [SecureRandom::fill] of an [n]-byte buffer. *)
Class SystemRandom (R : Type) : Type := { fill : Z -> R -> option bytes * R }.
Class SystemRandomLaws (R : Type) {S : SystemRandom R} : Prop := {
  fill_shape n r b : 0 <= n -> (fill n r).1 = Some b -> len b = n /\ is_bytes b;
  fill_total n r : 0 <= n -> exists b, (fill n r).1 = Some b;
}.

(** ** aead.rs *)

Module aead.
Section aead.
Context {C : Crypto}.

Record Aead : Type := mkAead { algorithm : AeadAlgorithm; key : bytes; iv : bytes }.

Definition aead_new (alg : AeadAlgorithm) (k v : bytes) : Outcome TlsError Aead :=
  if negb (len k =? key_len alg) then
    Err (CryptoError ("AEAD key length mismatch: expected " +:+ pretty (key_len alg)
                        +:+ ", got " +:+ pretty (len k)))
  else if negb (len v =? 12) then
    Err (CryptoError ("AEAD IV length mismatch: expected 12, got " +:+ pretty (len v)))
  else if negb (unbound_key_ok alg k) then
    Err (CryptoError "Failed to create AEAD key")
  else Ok {| algorithm := alg; key := k; iv := v |}.

(** The loop [for i in 0..8 { nonce[4 + i] ^= seq_bytes[i] }]. *)
Definition xor_nonce (iv : bytes) (seq_num : Z) : bytes :=
  take 4 iv ++ zip_with Z.lxor (drop 4 iv) (be64 seq_num).

Definition make_nonce (a : Aead) (seq_num : Z) : bytes := xor_nonce (iv a) seq_num.

Definition encrypt (a : Aead) (seq_num : Z) (aad plaintext : bytes) : Outcome TlsError bytes :=
  match seal (algorithm a) (key a) (make_nonce a seq_num) aad plaintext with
  | Some ct => Ok ct
  | None => Err (CryptoError "AEAD encryption failed")
  end.

Definition decrypt (a : Aead) (seq_num : Z) (aad ciphertext : bytes) : Outcome TlsError bytes :=
  match open (algorithm a) (key a) (make_nonce a seq_num) aad ciphertext with
  | Some pt => Ok pt
  | None => Err (CryptoError "AEAD decryption failed")
  end.

End aead.
End aead.

(** ** tls12_cipher.rs *)

Module tls12_cipher.

Inductive Tls12KeyExchange : Type := Ecdhe | Rsa.

Inductive Tls12CipherSuite : Type :=
| EcdheEcdsaAes128GcmSha256
| EcdheRsaAes128GcmSha256
| EcdheEcdsaAes256GcmSha384
| EcdheRsaAes256GcmSha384
| EcdheEcdsaChacha20Poly1305
| EcdheRsaChacha20Poly1305
| EcdheRsaAes128CbcSha
| EcdheRsaAes256CbcSha
| EcdheRsaAes128CbcSha256
| EcdheRsaAes256CbcSha384
| RsaAes256CbcSha
| RsaAes128CbcSha
| RsaAes256CbcSha256
| RsaAes128CbcSha256
| RsaAes128GcmSha256
| RsaAes256GcmSha384.

#[export] Instance tls12_suite_eq_dec : EqDecision Tls12CipherSuite.
Proof. solve_decision. Defined.

Definition from_code_point (code : Z) : option Tls12CipherSuite :=
  match code with
  | 0xC02B => Some EcdheEcdsaAes128GcmSha256
  | 0xC02F => Some EcdheRsaAes128GcmSha256
  | 0xC02C => Some EcdheEcdsaAes256GcmSha384
  | 0xC030 => Some EcdheRsaAes256GcmSha384
  | 0xCCA9 => Some EcdheEcdsaChacha20Poly1305
  | 0xCCA8 => Some EcdheRsaChacha20Poly1305
  | 0xC013 => Some EcdheRsaAes128CbcSha
  | 0xC014 => Some EcdheRsaAes256CbcSha
  | 0xC027 => Some EcdheRsaAes128CbcSha256
  | 0xC028 => Some EcdheRsaAes256CbcSha384
  | 0x0035 => Some RsaAes256CbcSha
  | 0x002F => Some RsaAes128CbcSha
  | 0x003D => Some RsaAes256CbcSha256
  | 0x003C => Some RsaAes128CbcSha256
  | 0x009C => Some RsaAes128GcmSha256
  | 0x009D => Some RsaAes256GcmSha384
  | _ => None
  end.

Definition code_point (s : Tls12CipherSuite) : Z :=
  match s with
  | EcdheEcdsaAes128GcmSha256 => 0xC02B
  | EcdheRsaAes128GcmSha256 => 0xC02F
  | EcdheEcdsaAes256GcmSha384 => 0xC02C
  | EcdheRsaAes256GcmSha384 => 0xC030
  | EcdheEcdsaChacha20Poly1305 => 0xCCA9
  | EcdheRsaChacha20Poly1305 => 0xCCA8
  | EcdheRsaAes128CbcSha => 0xC013
  | EcdheRsaAes256CbcSha => 0xC014
  | EcdheRsaAes128CbcSha256 => 0xC027
  | EcdheRsaAes256CbcSha384 => 0xC028
  | RsaAes256CbcSha => 0x0035
  | RsaAes128CbcSha => 0x002F
  | RsaAes256CbcSha256 => 0x003D
  | RsaAes128CbcSha256 => 0x003C
  | RsaAes128GcmSha256 => 0x009C
  | RsaAes256GcmSha384 => 0x009D
  end.

Definition key_exchange (s : Tls12CipherSuite) : Tls12KeyExchange :=
  match s with
  | RsaAes256CbcSha | RsaAes128CbcSha | RsaAes256CbcSha256 | RsaAes128CbcSha256
  | RsaAes128GcmSha256 | RsaAes256GcmSha384 => Rsa
  | _ => Ecdhe
  end.

Definition is_aead (s : Tls12CipherSuite) : bool :=
  match s with
  | EcdheEcdsaAes128GcmSha256 | EcdheRsaAes128GcmSha256 | EcdheEcdsaAes256GcmSha384
  | EcdheRsaAes256GcmSha384 | EcdheEcdsaChacha20Poly1305 | EcdheRsaChacha20Poly1305
  | RsaAes128GcmSha256 | RsaAes256GcmSha384 => true
  | _ => false
  end.

Definition is_cbc (s : Tls12CipherSuite) : bool := negb (is_aead s).

Definition enc_key_len (s : Tls12CipherSuite) : Z :=
  match s with
  | EcdheEcdsaAes128GcmSha256 | EcdheRsaAes128GcmSha256 | EcdheRsaAes128CbcSha
  | EcdheRsaAes128CbcSha256 | RsaAes128CbcSha | RsaAes128CbcSha256
  | RsaAes128GcmSha256 => 16
  | EcdheEcdsaAes256GcmSha384 | EcdheRsaAes256GcmSha384 | EcdheEcdsaChacha20Poly1305
  | EcdheRsaChacha20Poly1305 | EcdheRsaAes256CbcSha | EcdheRsaAes256CbcSha384
  | RsaAes256CbcSha | RsaAes256CbcSha256 | RsaAes256GcmSha384 => 32
  end.

Definition mac_key_len (s : Tls12CipherSuite) : Z :=
  if is_aead s then 0 else
  match s with
  | EcdheRsaAes128CbcSha | EcdheRsaAes256CbcSha | RsaAes128CbcSha | RsaAes256CbcSha => 20
  | EcdheRsaAes128CbcSha256 | RsaAes128CbcSha256 | RsaAes256CbcSha256 => 32
  | EcdheRsaAes256CbcSha384 => 48
  | _ => 0
  end.

Definition fixed_iv_len (s : Tls12CipherSuite) : Z :=
  if is_cbc s then 16 else
  match s with
  | EcdheEcdsaChacha20Poly1305 | EcdheRsaChacha20Poly1305 => 12
  | _ => 4
  end.

Definition prf_algorithm (s : Tls12CipherSuite) : PrfAlgorithm :=
  match s with
  | EcdheEcdsaAes256GcmSha384 | EcdheRsaAes256GcmSha384 | EcdheRsaAes256CbcSha384
  | RsaAes256GcmSha384 => PrfSha384
  | _ => PrfSha256
  end.

Definition hash_algorithm (s : Tls12CipherSuite) : HkdfAlgorithm :=
  match s with
  | EcdheEcdsaAes256GcmSha384 | EcdheRsaAes256GcmSha384 | EcdheRsaAes256CbcSha384
  | RsaAes256GcmSha384 => HkdfSha384
  | _ => HkdfSha256
  end.

Section ciphers.
Context {C : Crypto}.

(** *** GCM: [implicit_iv(4) || explicit_nonce(8)] *)

Record Tls12GcmCipher : Type := mkGcm {
  gcm_alg : AeadAlgorithm; gcm_key : bytes; implicit_iv : bytes }.

Definition gcm_new (k : bytes) (v : bytes) (is_aes_256 : bool) : Outcome TlsError Tls12GcmCipher :=
  let algo := if is_aes_256 then Aes256Gcm else Aes128Gcm in
  if negb (unbound_key_ok algo k) then Err (CryptoError "Failed to create GCM opening key")
  else Ok {| gcm_alg := algo; gcm_key := k; implicit_iv := v |}.

Definition gcm_encrypt (g : Tls12GcmCipher) (seq_num : Z) (aad plaintext : bytes)
    : Outcome TlsError bytes :=
  let explicit_nonce := be64 seq_num in
  match seal (gcm_alg g) (gcm_key g) (implicit_iv g ++ explicit_nonce) aad plaintext with
  | Some ct => Ok (explicit_nonce ++ ct)
  | None => Err (CryptoError "TLS 1.2 GCM encryption failed")
  end.

Definition gcm_decrypt (g : Tls12GcmCipher) (aad c : bytes) : Outcome TlsError bytes :=
  if len c <? 8 + 16 then Err (CryptoError "TLS 1.2 GCM record too short") else
  let explicit_nonce := take_z 8 c in
  let encrypted := drop_z 8 c in
  match open (gcm_alg g) (gcm_key g) (implicit_iv g ++ explicit_nonce) aad encrypted with
  | Some pt => Ok pt
  | None => Err (CryptoError "TLS 1.2 GCM decryption failed")
  end.

(** *** ChaCha20-Poly1305 (RFC 7905) *)

Record Tls12Chacha20Cipher : Type := mkChacha { chacha_key : bytes; chacha_iv : bytes }.

Definition chacha_new (k v : bytes) : Outcome TlsError Tls12Chacha20Cipher :=
  if negb (unbound_key_ok Chacha20Poly1305 k) then
    Err (CryptoError "Failed to create ChaCha20 key")
  else Ok {| chacha_key := k; chacha_iv := v |}.

Definition chacha_make_nonce (c : Tls12Chacha20Cipher) (seq_num : Z) : bytes :=
  aead.xor_nonce (chacha_iv c) seq_num.

Definition chacha_encrypt (c : Tls12Chacha20Cipher) (seq_num : Z) (aad plaintext : bytes)
    : Outcome TlsError bytes :=
  match seal Chacha20Poly1305 (chacha_key c) (chacha_make_nonce c seq_num) aad plaintext with
  | Some ct => Ok ct
  | None => Err (CryptoError "TLS 1.2 ChaCha20 encryption failed")
  end.

Definition chacha_decrypt (c : Tls12Chacha20Cipher) (seq_num : Z) (aad ciphertext : bytes)
    : Outcome TlsError bytes :=
  match open Chacha20Poly1305 (chacha_key c) (chacha_make_nonce c seq_num) aad ciphertext with
  | Some pt => Ok pt
  | None => Err (CryptoError "TLS 1.2 ChaCha20 decryption failed")
  end.

(** *** CBC with HMAC, MAC-then-encrypt *)

Record Tls12CbcCipher : Type := mkCbc {
  enc_key : bytes; mac_key : bytes; mac_algorithm : CbcMacAlgorithm; block_size : Z }.

Definition cbc_new (ek mk : bytes) (alg : CbcMacAlgorithm) : Tls12CbcCipher :=
  {| enc_key := ek; mac_key := mk; mac_algorithm := alg; block_size := 16 |}.

Definition compute_mac (c : Tls12CbcCipher) (aad plaintext : bytes) : bytes :=
  hmac_sign (mac_algorithm c) (mac_key c) (aad ++ plaintext).

Definition cbc_encrypt_raw (c : Tls12CbcCipher) (iv data : bytes) : Outcome TlsError bytes :=
  if len (enc_key c) =? 16 then
    match aes_cbc_encrypt (enc_key c) iv data with
    | Some ct => Ok ct
    | None => Err (CryptoError "AES-128-CBC encryption failed")
    end
  else if len (enc_key c) =? 32 then
    match aes_cbc_encrypt (enc_key c) iv data with
    | Some ct => Ok ct
    | None => Err (CryptoError "AES-256-CBC encryption failed")
    end
  else Err (CryptoError ("Invalid CBC key length: " +:+ pretty (len (enc_key c)))).

Definition cbc_decrypt_raw (c : Tls12CbcCipher) (iv ciphertext : bytes) : Outcome TlsError bytes :=
  if len (enc_key c) =? 16 then
    match aes_cbc_decrypt (enc_key c) iv ciphertext with
    | Some pt => Ok pt
    | None => Err (CryptoError "AES-128-CBC decryption failed")
    end
  else if len (enc_key c) =? 32 then
    match aes_cbc_decrypt (enc_key c) iv ciphertext with
    | Some pt => Ok pt
    | None => Err (CryptoError "AES-256-CBC decryption failed")
    end
  else Err (CryptoError ("Invalid CBC key length: " +:+ pretty (len (enc_key c)))).

(** The plaintext, the MAC and [padding_length + 1] bytes of value
    [padding_length]. *)
Definition cbc_pad (c : Tls12CbcCipher) (plaintext mac : bytes) : bytes :=
  let content_len := len plaintext + len mac in
  let padding_length := block_size c - (content_len + 1) mod block_size c in
  plaintext ++ mac ++ replicate (Z.to_nat (padding_length + 1)) (as_u8 padding_length).

Definition cbc_encrypt {R} `{SystemRandom R} (c : Tls12CbcCipher) (seq_num : Z)
    (aad plaintext : bytes) (r : R) : Outcome TlsError bytes * R :=
  let mac := compute_mac c aad plaintext in
  let data := cbc_pad c plaintext mac in
  match fill 16 r with
  | (None, r) => (Err (CryptoError "Failed to generate CBC IV"), r)
  | (Some iv, r) =>
      (encrypted ← cbc_encrypt_raw c iv data; Ok (iv ++ encrypted), r)
  end.

Definition cbc_decrypt (c : Tls12CbcCipher) (aad data : bytes) : Outcome TlsError bytes :=
  if len data <? 16 + block_size c then Err (CryptoError "TLS 1.2 CBC record too short") else
  let iv := take_z 16 data in
  let ciphertext := drop_z 16 data in
  if negb (len ciphertext mod block_size c =? 0) then
    Err (CryptoError "TLS 1.2 CBC ciphertext not block-aligned") else
  decrypted ← cbc_decrypt_raw c iv ciphertext;
  match last decrypted with
  | None => Err (CryptoError "Empty CBC plaintext")
  | Some padding_length =>
      let total_padding := padding_length + 1 in
      let mlen := mac_len (mac_algorithm c) in
      if len decrypted <? total_padding + mlen then
        Err (CryptoError "TLS 1.2 CBC record too short after decrypt") else
      let content_end := len decrypted - total_padding in
      let padding_ok :=
        foldl (fun acc b => Z.lor acc (Z.lxor b (as_u8 padding_length))) 0
          (drop_z content_end decrypted) in
      let plaintext_end := content_end - mlen in
      let plaintext := take_z plaintext_end decrypted in
      let received_mac := take_z mlen (drop_z plaintext_end decrypted) in
      let pt_len := as_u16 plaintext_end in
      let mac_aad :=
        if 13 <=? len aad
        then <[12%nat := as_u8 pt_len]> (<[11%nat := as_u8 (pt_len ≫ 8)]> aad) else aad in
      let mac_ok := hmac_verify (mac_algorithm c) (mac_key c) (mac_aad ++ plaintext) received_mac in
      if negb (padding_ok =? 0) || negb mac_ok then
        Err (CryptoError "TLS 1.2 CBC MAC or padding verification failed")
      else Ok plaintext
  end.

End ciphers.
End tls12_cipher.

(** ** Lemmas on the ciphers *)

Import tls12_cipher.

Lemma from_code_point_code_point s : from_code_point (code_point s) = Some s.
Proof. by destruct s. Qed.

(** Only the code points of the table resolve. *)
Lemma from_code_point_Some code s : from_code_point code = Some s -> code_point s = code.
Proof.
  unfold from_code_point. intros H.
  repeat (case_match; try discriminate); by simplify_eq.
Qed.

Lemma zip_lxor_inj (k a b : bytes) :
  length a = length k -> length b = length k ->
  zip_with Z.lxor k a = zip_with Z.lxor k b -> a = b.
Proof.
  revert a b. induction k as [|x k IH]; intros [|y a] [|z b] Ha Hb H; simplify_eq/=; [done|].
  f_equal.
  - rewrite <- (Z.lxor_0_l y), <- (Z.lxor_0_l z), <- (Z.lxor_nilpotent x), !Z.lxor_assoc.
    congruence.
  - apply IH; congruence.
Qed.

Lemma xor_nonce_len v n : len v = 12 -> len (aead.xor_nonce v n) = 12.
Proof.
  intros H. unfold aead.xor_nonce, len in *.
  rewrite length_app, length_take, length_zip_with, length_drop.
  change (length (be64 n)) with 8%nat. lia.
Qed.

(** Distinct sequence numbers give distinct nonces. *)
Lemma xor_nonce_inj v a b : len v = 12 -> u64 a -> u64 b ->
  aead.xor_nonce v a = aead.xor_nonce v b -> a = b.
Proof.
  intros Hv Ha Hb H. apply app_inv_head, zip_lxor_inj in H; [by apply be64_inj|..];
    rewrite length_drop; change (length (be64 _)) with 8%nat; unfold len in Hv; lia.
Qed.

Definition aead_wf (a : aead.Aead) : Prop :=
  len (aead.key a) = key_len (aead.algorithm a) /\ len (aead.iv a) = 12.
Definition gcm_wf (g : Tls12GcmCipher) : Prop :=
  len (gcm_key g) = key_len (gcm_alg g) /\ len (implicit_iv g) = 4.
Definition chacha_wf (c : Tls12Chacha20Cipher) : Prop :=
  len (chacha_key c) = 32 /\ len (chacha_iv c) = 12.
Definition cbc_wf (c : Tls12CbcCipher) : Prop :=
  (len (enc_key c) = 16 \/ len (enc_key c) = 32) /\ block_size c = 16.

Section cipher_lemmas.
Context {C : Crypto} {L : CryptoLaws C}.

Lemma aead_new_wf alg k v a : aead.aead_new alg k v = Ok a -> aead_wf a.
Proof.
  unfold aead.aead_new, aead_wf. intros H. repeat (case_match; try discriminate).
  simplify_eq/=. rewrite !negb_false_iff, !Z.eqb_eq in *. done.
Qed.

(** A cipher with well-sized keys encrypts every record payload, and the
    result decrypts to it. *)
Lemma aead_roundtrip a n aad pt :
  aead_wf a -> is_bytes pt -> len pt <= 65536 ->
  exists ct, aead.encrypt a n aad pt = Ok ct /\ len ct = len pt + 16 /\ is_bytes ct /\
             aead.decrypt a n aad ct = Ok pt.
Proof.
  intros [Hk Hv] Hpt Hlen. unfold aead.encrypt, aead.decrypt, aead.make_nonce.
  destruct (seal_total (aead.algorithm a) (aead.key a) (aead.xor_nonce (aead.iv a) n) aad pt)
    as [ct Hct]; [done|by apply xor_nonce_len|done|].
  destruct (seal_shape _ _ _ _ _ _ Hpt Hct). exists ct.
  by rewrite Hct, (open_seal _ _ _ _ _ _ Hct).
Qed.

Lemma gcm_roundtrip g n aad pt :
  gcm_wf g -> is_bytes pt -> len pt <= 65536 ->
  exists ct, gcm_encrypt g n aad pt = Ok ct /\ len ct = len pt + 24 /\ is_bytes ct /\
             gcm_decrypt g aad ct = Ok pt.
Proof.
  intros [Hk Hv] Hpt Hlen. unfold gcm_encrypt, gcm_decrypt.
  destruct (seal_total (gcm_alg g) (gcm_key g) (implicit_iv g ++ be64 n) aad pt)
    as [ct Hct]; [done|slen|done|].
  destruct (seal_shape _ _ _ _ _ _ Hpt Hct) as [Hl Hb]. unfold tag_len in Hl. rewrite Hct.
  exists (be64 n ++ ct). split_and!; [done|slen|by apply is_bytes_app; auto with width_db|].
  destruct (Z.ltb_spec (len (be64 n ++ ct)) (8 + 16)); [slen|].
  change 8 with (len (be64 n)). rewrite take_z_app_len, drop_z_app_len.
  by rewrite (open_seal _ _ _ _ _ _ Hct).
Qed.

Lemma chacha_roundtrip c n aad pt :
  chacha_wf c -> is_bytes pt -> len pt <= 65536 ->
  exists ct, chacha_encrypt c n aad pt = Ok ct /\ len ct = len pt + 16 /\ is_bytes ct /\
             chacha_decrypt c n aad ct = Ok pt.
Proof.
  intros [Hk Hv] Hpt Hlen. unfold chacha_encrypt, chacha_decrypt, chacha_make_nonce.
  destruct (seal_total Chacha20Poly1305 (chacha_key c) (aead.xor_nonce (chacha_iv c) n) aad pt)
    as [ct Hct]; [done|by apply xor_nonce_len|done|].
  destruct (seal_shape _ _ _ _ _ _ Hpt Hct). exists ct.
  by rewrite Hct, (open_seal _ _ _ _ _ _ Hct).
Qed.

(** The padded block: aligned, at most 17 bytes longer than its content. *)
Lemma cbc_pad_shape c pt mac : block_size c = 16 -> is_bytes pt -> is_bytes mac ->
  exists p, cbc_pad c pt mac = pt ++ mac ++ replicate (Z.to_nat (p + 1)) p /\
    1 <= p <= 16 /\ (len pt + len mac + p + 1) mod 16 = 0 /\ is_bytes (cbc_pad c pt mac).
Proof.
  intros Hb Hpt Hmac. unfold cbc_pad. rewrite Hb.
  exists (16 - (len pt + len mac + 1) mod 16).
  pose proof (Z.mod_pos_bound (len pt + len mac + 1) 16).
  rewrite as_u8_small by width. split_and!; [done|lia..| |].
  - Z.div_mod_to_equations. lia.
  - rewrite !is_bytes_app. split_and!; [done..|]. apply is_bytes_replicate. width.
Qed.

Lemma padding_check_replicate n p :
  foldl (fun acc b => Z.lor acc (Z.lxor b p)) 0 (replicate n p) = 0.
Proof. induction n; simpl; [done|]. by rewrite Z.lxor_nilpotent. Qed.

Lemma last_replicate_S {A} n (a : A) : last (replicate (S n) a) = Some a.
Proof. rewrite replicate_S_end. apply last_snoc. Qed.

Lemma cbc_raw_roundtrip c v d :
  cbc_wf c -> len v = 16 -> is_bytes d -> len d mod 16 = 0 ->
  exists ct, cbc_encrypt_raw c v d = Ok ct /\ len ct = len d /\ is_bytes ct /\
             cbc_decrypt_raw c v ct = Ok d.
Proof.
  intros [Hk _] Hv Hd Hm. unfold cbc_encrypt_raw, cbc_decrypt_raw.
  destruct (aes_cbc_total (enc_key c) v d) as [ct Hct]; [done..|].
  destruct (aes_cbc_shape _ _ _ _ Hd Hct). exists ct.
  rewrite Hct, (aes_cbc_inv _ _ _ _ Hct). destruct Hk as [-> | ->]; simpl; auto.
Qed.

(** The sender's 13-byte AAD carries the plaintext length; the receiver's
    carries any length, which decryption overwrites. *)
Lemma cbc_roundtrip {R} `{SystemRandomLaws R} c n hdr l1 l2 pt (r : R) :
  cbc_wf c -> is_bytes pt -> len pt <= 16384 -> len hdr = 11 ->
  exists ct r',
    cbc_encrypt c n (hdr ++ [as_u8 (as_u16 (len pt) ≫ 8); as_u8 (as_u16 (len pt))]) pt r = (Ok ct, r') /\
    len pt + 36 < len ct <= len pt + 81 /\ is_bytes ct /\
    cbc_decrypt c (hdr ++ [l1; l2]) ct = Ok pt.
Proof.
  intros Hwf Hpt Hlen Hhdr. unfold cbc_encrypt, compute_mac.
  set (aad := hdr ++ [as_u8 (as_u16 (len pt) ≫ 8); as_u8 (as_u16 (len pt))]).
  destruct (hmac_shape (mac_algorithm c) (mac_key c) (aad ++ pt)) as [Hml Hmb].
  set (mac := hmac_sign _ _ _) in *.
  destruct (cbc_pad_shape c pt mac (proj2 Hwf) Hpt Hmb) as (p & Hpad & Hp & Hmod & Hbytes).
  destruct (fill_total 16 r) as [v Hfill]; [lia|].
  destruct (fill_shape 16 r v) as [Hvl Hvb]; [done..|].
  destruct (fill 16 r) as [ov r'] eqn:Hf. simpl in Hfill. subst ov.
  assert (len (cbc_pad c pt mac) = len pt + len mac + p + 1) as Hdl.
  { rewrite Hpad. autorewrite with len_db. lia. }
  destruct (cbc_raw_roundtrip c v (cbc_pad c pt mac)) as (ct & He & Hcl & Hcb & Hd);
    [done..|by rewrite Hdl|].
  exists (v ++ ct), r'. rewrite He. simpl.
  assert (20 <= mac_len (mac_algorithm c) <= 48) by (destruct (mac_algorithm c); simpl; lia).
  split_and!; [done|slen..|by apply is_bytes_app|].
  unfold cbc_decrypt. rewrite (proj2 Hwf).
  destruct (Z.ltb_spec (len (v ++ ct)) (16 + 16)); [slen|].
  rewrite <- Hvl, take_z_app_len, drop_z_app_len, Hcl, Hdl, Hvl, Hmod. simpl. rewrite Hd. simpl.
  assert (last (cbc_pad c pt mac) = Some p) as Hlast.
  { rewrite Hpad. replace (Z.to_nat (p + 1)) with (S (Z.to_nat p)) by lia.
    by rewrite app_assoc, last_app, last_replicate_S. }
  rewrite Hlast, Hdl. rewrite as_u8_small by width.
  destruct (Z.ltb_spec (len pt + len mac + p + 1) (p + 1 + mac_len (mac_algorithm c))); [slen|].
  replace (len pt + len mac + p + 1 - (p + 1)) with (len (pt ++ mac)) by (autorewrite with len_db; lia).
  rewrite Hpad at 1. rewrite app_assoc, drop_z_app_len, padding_check_replicate. simpl.
  replace (len (pt ++ mac) - mac_len (mac_algorithm c)) with (len pt) by (autorewrite with len_db; lia).
  rewrite Hpad, take_z_app_len, drop_z_app_len, <- Hml, take_z_app_len.
  destruct (Z.leb_spec 13 (len (hdr ++ [l1; l2]))); [|slen].
  rewrite hmac_verify_sign, bool_decide_true; [done|].
  unfold mac, aad. do 2 f_equal.
  assert (length hdr = 11%nat) as Hh by (unfold len in Hhdr; lia).
  rewrite insert_app_r_alt, insert_app_r_alt by lia. rewrite Hh. done.
Qed.

End cipher_lemmas.
