(* ===== verification/TlsRecord.v ===== *)
(** * Record layer (lktls/src/record/mod.rs, reader.rs, writer.rs)

    [RecordWriter] frames and encrypts, [RecordReader] buffers, splits and
    decrypts.  Both are explicit states; an operation that can fail returns its
    outcome together with the state it leaves, because the source keeps what was
    changed before the error. *)
From S2P Require Import Prelude TlsError TlsCipher.
Import error tls12_cipher.

Module content_type.
Definition CHANGE_CIPHER_SPEC : Z := 0x14.
Definition ALERT : Z := 0x15.
Definition HANDSHAKE : Z := 0x16.
Definition APPLICATION_DATA : Z := 0x17.
End content_type.

Module record.

Inductive Tls12RecordCipher : Type :=
| Gcm (g : Tls12GcmCipher)
| Chacha20 (c : Tls12Chacha20Cipher)
| Cbc (c : Tls12CbcCipher).

Definition MAX_RECORD_PAYLOAD : Z := 16384.
Definition RECORD_HEADER_SIZE : Z := 5.

Record RecordHeader : Type := mkHeader {
  rh_content_type : Z; rh_version : Z; rh_length : Z }.

(** The five bytes of [from_bytes]'s array. *)
Definition header_from_bytes (a b c d e : Z) : RecordHeader :=
  {| rh_content_type := a; rh_version := from_be16 b c; rh_length := from_be16 d e |}.

Definition header_to_bytes (h : RecordHeader) : bytes :=
  rh_content_type h :: be16 (rh_version h) ++ be16 (rh_length h).

(** ** Reader *)

Record PlaintextRecord : Type := mkPlaintext { pr_content_type : Z; pr_payload : bytes }.

Record RecordReader : Type := mkReader {
  rd_buf : bytes;
  rd_seq_num : Z;
  rd_aead : option aead.Aead;
  rd_tls12_cipher : option Tls12RecordCipher;
}.

Definition reader_new : RecordReader :=
  {| rd_buf := []; rd_seq_num := 0; rd_aead := None; rd_tls12_cipher := None |}.

Definition reader_set_keys (r : RecordReader) (a : aead.Aead) : RecordReader :=
  {| rd_buf := rd_buf r; rd_seq_num := 0; rd_aead := Some a; rd_tls12_cipher := None |}.

Definition reader_set_tls12_keys (r : RecordReader) (c : Tls12RecordCipher) : RecordReader :=
  {| rd_buf := rd_buf r; rd_seq_num := 0; rd_aead := None; rd_tls12_cipher := Some c |}.

Definition feed (r : RecordReader) (data : bytes) : RecordReader :=
  {| rd_buf := rd_buf r ++ data; rd_seq_num := rd_seq_num r;
     rd_aead := rd_aead r; rd_tls12_cipher := rd_tls12_cipher r |}.

Definition buffered_len (r : RecordReader) : Z := len (rd_buf r).

(** [self.buf.drain(..n)]. *)
Definition reader_with_buf (r : RecordReader) (b : bytes) : RecordReader :=
  {| rd_buf := b; rd_seq_num := rd_seq_num r;
     rd_aead := rd_aead r; rd_tls12_cipher := rd_tls12_cipher r |}.

Definition reader_with_seq (r : RecordReader) (n : Z) : RecordReader :=
  {| rd_buf := rd_buf r; rd_seq_num := n;
     rd_aead := rd_aead r; rd_tls12_cipher := rd_tls12_cipher r |}.

(** [u64::checked_add(1)]. *)
Definition checked_add1 (n : Z) : option Z :=
  if n + 1 <? 18446744073709551616 then Some (n + 1) else None.

(** The 13-byte additional data of TLS 1.2. *)
Definition tls12_aad (seq_num ct version plaintext_len : Z) : bytes :=
  be64 seq_num ++ [ct; as_u8 (version ≫ 8); as_u8 version;
                   as_u8 (plaintext_len ≫ 8); as_u8 plaintext_len].

(** [plaintext.iter().rposition(|&b| b != 0)]. *)
Fixpoint rposition_nonzero (l : bytes) : option Z :=
  match l with
  | [] => None
  | b :: l =>
      match rposition_nonzero l with
      | Some i => Some (i + 1)
      | None => if b =? 0 then None else Some 0
      end
  end.

Definition strip_inner_content_type (plaintext : bytes) : Outcome TlsError (Z * bytes) :=
  match rposition_nonzero plaintext with
  | None => Err (UnexpectedMessage "Decrypted record has no content type")
  | Some ct_pos =>
      inner_content_type ← idx plaintext ct_pos;
      inner_payload ← slice plaintext 0 ct_pos;
      Ok (inner_content_type, inner_payload)
  end.

Section reader.
Context {C : Crypto}.

(** Step 4a: [tls12_cipher] decrypts the payload of a record with header [h]. *)
Definition tls12_decrypt (cipher : Tls12RecordCipher) (seq_num : Z) (h : RecordHeader)
    (raw_payload : bytes) : Outcome TlsError bytes :=
  match cipher with
  | Gcm gcm =>
      if len raw_payload <? 8 + 16 then Err (CryptoError "TLS 1.2 GCM record too short") else
      let plaintext_len := len raw_payload - 8 - 16 in
      gcm_decrypt gcm (tls12_aad seq_num (rh_content_type h) (rh_version h) plaintext_len)
        raw_payload
  | Chacha20 chacha =>
      if len raw_payload <? 16 then Err (CryptoError "TLS 1.2 ChaCha20 record too short") else
      let plaintext_len := len raw_payload - 16 in
      chacha_decrypt chacha seq_num
        (tls12_aad seq_num (rh_content_type h) (rh_version h) plaintext_len) raw_payload
  | Cbc cbc =>
      let rpl := as_u16 (len raw_payload) in
      cbc_decrypt cbc (tls12_aad seq_num (rh_content_type h) (rh_version h) rpl) raw_payload
  end.

Definition overflow_err : TlsError := UnexpectedMessage "record sequence number overflow".

(** Steps 4a and 4b and the plaintext case, on a complete record whose bytes
    have been removed from the buffer. *)
Definition open_record (r : RecordReader) (h : RecordHeader) (raw_payload : bytes)
    : Outcome TlsError (option PlaintextRecord) * RecordReader :=
  match rd_tls12_cipher r with
  | Some cipher =>
      match tls12_decrypt cipher (rd_seq_num r) h raw_payload with
      | Ok plaintext =>
          match checked_add1 (rd_seq_num r) with
          | None => (Err overflow_err, r)
          | Some n =>
              (Ok (Some {| pr_content_type := rh_content_type h; pr_payload := plaintext |}),
               reader_with_seq r n)
          end
      | Err e => (Err e, r)
      | Panic => (Panic, r)
      end
  | None =>
      let plain :=
        (Ok (Some {| pr_content_type := rh_content_type h; pr_payload := raw_payload |}), r) in
      match rd_aead r with
      | Some a =>
          if rh_content_type h =? content_type.APPLICATION_DATA then
            match aead.decrypt a (rd_seq_num r) (header_to_bytes h) raw_payload with
            | Ok plaintext =>
                match checked_add1 (rd_seq_num r) with
                | None => (Err overflow_err, r)
                | Some n =>
                    ('(inner_ct, inner_payload) ← strip_inner_content_type plaintext;
                     Ok (Some {| pr_content_type := inner_ct; pr_payload := inner_payload |}),
                     reader_with_seq r n)
                end
            | Err e => (Err e, r)
            | Panic => (Panic, r)
            end
          else plain
      | None => plain
      end
  end.

Definition max_len (r : RecordReader) : Z :=
  if bool_decide (is_Some (rd_aead r)) || bool_decide (is_Some (rd_tls12_cipher r))
  then MAX_RECORD_PAYLOAD + 256 else MAX_RECORD_PAYLOAD.

Definition next_record (r : RecordReader) : Outcome TlsError (option PlaintextRecord) * RecordReader :=
  match rd_buf r with
  | a :: b :: c :: d :: e :: rest =>
      let header := header_from_bytes a b c d e in
      let payload_len := rh_length header in
      if max_len r <? payload_len then
        (Err (UnexpectedMessage ("TLS record too large: " +:+ pretty payload_len
               +:+ " bytes (max " +:+ pretty (max_len r) +:+ ")")), r)
      else if len (rd_buf r) <? RECORD_HEADER_SIZE + payload_len then (Ok None, r)
      else
        open_record (reader_with_buf r (drop_z payload_len rest)) header (take_z payload_len rest)
  | _ => (Ok None, r)
  end.

End reader.

(** ** Writer *)

Inductive FlushStrategy : Type := Immediate | Coalesce.

Record RecordWriter : Type := mkWriter {
  wr_seq_num : Z;
  wr_aead : option aead.Aead;
  wr_tls12_cipher : option Tls12RecordCipher;
  flush_strategy : FlushStrategy;
  coalesce_buf : bytes;
  first_record_sent : bool;
}.

Definition writer_new : RecordWriter :=
  {| wr_seq_num := 0; wr_aead := None; wr_tls12_cipher := None;
     flush_strategy := Immediate; coalesce_buf := []; first_record_sent := false |}.

Definition mark_post_initial (w : RecordWriter) : RecordWriter :=
  {| wr_seq_num := wr_seq_num w; wr_aead := wr_aead w; wr_tls12_cipher := wr_tls12_cipher w;
     flush_strategy := flush_strategy w; coalesce_buf := coalesce_buf w;
     first_record_sent := true |}.

Definition set_flush_strategy (w : RecordWriter) (s : FlushStrategy) : RecordWriter :=
  {| wr_seq_num := wr_seq_num w; wr_aead := wr_aead w; wr_tls12_cipher := wr_tls12_cipher w;
     flush_strategy := s; coalesce_buf := coalesce_buf w;
     first_record_sent := first_record_sent w |}.

Definition with_coalesce_buf (w : RecordWriter) (b : bytes) : RecordWriter :=
  {| wr_seq_num := wr_seq_num w; wr_aead := wr_aead w; wr_tls12_cipher := wr_tls12_cipher w;
     flush_strategy := flush_strategy w; coalesce_buf := b;
     first_record_sent := first_record_sent w |}.

Definition flush (w : RecordWriter) : bytes * RecordWriter :=
  (coalesce_buf w, with_coalesce_buf w []).

Definition writer_set_keys (w : RecordWriter) (a : aead.Aead) : RecordWriter :=
  {| wr_seq_num := 0; wr_aead := Some a; wr_tls12_cipher := None;
     flush_strategy := flush_strategy w; coalesce_buf := coalesce_buf w;
     first_record_sent := first_record_sent w |}.

Definition writer_set_tls12_keys (w : RecordWriter) (c : Tls12RecordCipher) : RecordWriter :=
  {| wr_seq_num := 0; wr_aead := None; wr_tls12_cipher := Some c;
     flush_strategy := flush_strategy w; coalesce_buf := coalesce_buf w;
     first_record_sent := first_record_sent w |}.

Definition writer_with_seq (w : RecordWriter) (n : Z) : RecordWriter :=
  {| wr_seq_num := n; wr_aead := wr_aead w; wr_tls12_cipher := wr_tls12_cipher w;
     flush_strategy := flush_strategy w; coalesce_buf := coalesce_buf w;
     first_record_sent := first_record_sent w |}.

Section writer.
Context {C : Crypto} {R : Type} {S : SystemRandom R}.

Definition WResult : Type := Outcome TlsError bytes * RecordWriter * R.

Definition encode_plaintext_record (w : RecordWriter) (ct : Z) (payload : bytes)
    : Outcome TlsError bytes * RecordWriter :=
  if MAX_RECORD_PAYLOAD <? len payload then (Err (Io "record payload too large"), w) else
  let version := if first_record_sent w then 0x0303 else 0x0301 in
  let header :=
    {| rh_content_type := ct; rh_version := version; rh_length := as_u16 (len payload) |} in
  (Ok (header_to_bytes header ++ payload), mark_post_initial w).

Definition write_overflow_err : TlsError := CryptoError "write sequence number overflow".

Definition encode_tls13_encrypted_record (w : RecordWriter) (actual_content_type : Z)
    (payload : bytes) : Outcome TlsError bytes * RecordWriter :=
  match wr_aead w with
  | None => (Panic, w)
  | Some a =>
      let inner := payload ++ [actual_content_type] in
      let encrypted_len := len inner + tag_len (aead.algorithm a) in
      let header :=
        {| rh_content_type := content_type.APPLICATION_DATA; rh_version := 0x0303;
           rh_length := as_u16 encrypted_len |} in
      match aead.encrypt a (wr_seq_num w) (header_to_bytes header) inner with
      | Ok ciphertext =>
          match checked_add1 (wr_seq_num w) with
          | None => (Err write_overflow_err, w)
          | Some n => (Ok (header_to_bytes header ++ ciphertext), writer_with_seq w n)
          end
      | Err e => (Err e, w)
      | Panic => (Panic, w)
      end
  end.

Definition tls12_encrypt (cipher : Tls12RecordCipher) (seq_num : Z) (aad payload : bytes) (r : R)
    : Outcome TlsError bytes * R :=
  match cipher with
  | Gcm gcm => (gcm_encrypt gcm seq_num aad payload, r)
  | Chacha20 chacha => (chacha_encrypt chacha seq_num aad payload, r)
  | Cbc cbc => cbc_encrypt cbc seq_num aad payload r
  end.

Definition encode_tls12_encrypted_record (w : RecordWriter) (actual_content_type : Z)
    (payload : bytes) (r : R) : WResult :=
  match wr_tls12_cipher w with
  | None => (Panic, w, r)
  | Some cipher =>
      let aad := tls12_aad (wr_seq_num w) actual_content_type 0x0303 (as_u16 (len payload)) in
      match tls12_encrypt cipher (wr_seq_num w) aad payload r with
      | (Ok ciphertext, r) =>
          match checked_add1 (wr_seq_num w) with
          | None => (Err write_overflow_err, w, r)
          | Some n =>
              let header :=
                {| rh_content_type := actual_content_type; rh_version := 0x0303;
                   rh_length := as_u16 (len ciphertext) |} in
              (Ok (header_to_bytes header ++ ciphertext), writer_with_seq w n, r)
          end
      | (Err e, r) => (Err e, w, r)
      | (Panic, r) => (Panic, w, r)
      end
  end.

Definition encode_single_record (w : RecordWriter) (ct : Z) (payload : bytes) (r : R) : WResult :=
  if bool_decide (is_Some (wr_tls12_cipher w)) then encode_tls12_encrypted_record w ct payload r
  else if bool_decide (is_Some (wr_aead w)) then (encode_tls13_encrypted_record w ct payload, r)
  else (encode_plaintext_record w ct payload, r).

(** One turn of the chunk loop: the record goes to the output or the buffer. *)
Definition emit (w : RecordWriter) (output record : bytes) : bytes * RecordWriter :=
  match flush_strategy w with
  | Immediate => (output ++ record, w)
  | Coalesce => (output, with_coalesce_buf w (coalesce_buf w ++ record))
  end.

Fixpoint write_chunks (w : RecordWriter) (ct : Z) (output : bytes) (cs : list bytes) (r : R)
    : WResult :=
  match cs with
  | [] => (Ok output, w, r)
  | chunk :: cs =>
      match encode_single_record w ct chunk r with
      | (Ok rec, w, r) => let '(output, w) := emit w output rec in write_chunks w ct output cs r
      | res => res
      end
  end.

Definition write_record (w : RecordWriter) (ct : Z) (payload : bytes) (r : R) : WResult :=
  if is_empty payload then
    match encode_single_record w ct [] r with
    | (Ok rec, w, r) => let '(output, w) := emit w [] rec in (Ok output, w, r)
    | res => res
    end
  else write_chunks w ct [] (chunks MAX_RECORD_PAYLOAD payload) r.

End writer.
End record.

(** * The record layer is a reliable channel

    The reader survives any input and does not depend on how it is cut; what a
    writer frames, in plaintext or under any of the ciphers, a reader with the
    same keys delivers; nonces are never used twice. *)
Import record.


(** ** Headers *)

Lemma header_to_bytes_shape h :
  exists b c d e, header_to_bytes h = [rh_content_type h; b; c; d; e] /\
    is_bytes [b; c; d; e] /\
    (u16 (rh_version h) -> from_be16 b c = rh_version h) /\
    (u16 (rh_length h) -> from_be16 d e = rh_length h).
Proof.
  unfold header_to_bytes, be16. do 4 eexists. split; [reflexivity|]. split.
  - repeat constructor; width.
  - split; apply from_be16_be16.
Qed.

Lemma record_header_roundtrip h :
  u16 (rh_version h) -> u16 (rh_length h) ->
  exists a b c d e, header_to_bytes h = [a; b; c; d; e] /\ header_from_bytes a b c d e = h.
Proof.
  intros Hv Hl. destruct (header_to_bytes_shape h) as (b & c & d & e & He & _ & H1 & H2).
  do 5 eexists. split; [exact He|]. unfold header_from_bytes. rewrite H1, H2 by done.
  by destruct h.
Qed.

(** ** The inner content type *)

Lemma rposition_nonzero_snoc l b : b <> 0 -> rposition_nonzero (l ++ [b]) = Some (len l).
Proof.
  intros Hb. induction l as [|a l IH]; simpl.
  - by destruct (Z.eqb_spec b 0).
  - rewrite IH, len_cons. f_equal. lia.
Qed.

Lemma strip_inner_snoc p ct : ct <> 0 -> strip_inner_content_type (p ++ [ct]) = Ok (ct, p).
Proof.
  intros Hct. unfold strip_inner_content_type. rewrite rposition_nonzero_snoc by done.
  pose proof (len_nonneg p). unfold idx. rewrite decide_True by done.
  rewrite (list_lookup_middle _ [] ct) by (unfold len; lia). simpl.
  rewrite slice_ok by slen. simpl. unfold drop_z. simpl. rewrite drop_0, Z.sub_0_r.
  by rewrite take_z_app_len.
Qed.

Lemma rposition_nonzero_range l i : rposition_nonzero l = Some i -> 0 <= i < len l.
Proof.
  revert i. induction l as [|a l IH]; intros i H; simpl in H; [done|].
  destruct (rposition_nonzero l) as [j|]; [specialize (IH j eq_refl)|];
    repeat case_match; simplify_eq; slen.
Qed.

Lemma strip_inner_safe p : is_bytes p ->
  outcome_ok (fun '(ct, q) => u8 ct /\ is_bytes q) (strip_inner_content_type p).
Proof.
  intros Hp. unfold strip_inner_content_type.
  destruct (rposition_nonzero p) as [i|] eqn:Hi; [|done].
  apply rposition_nonzero_range in Hi.
  eapply outcome_ok_bind; [by apply idx_wp|]. intros ct Hct.
  eapply outcome_ok_bind; [apply slice_wp; [done|lia..]|]. intros q [Hq _]. done.
Qed.

Section props.
Context {C : Crypto}.

(** ** Reading does not depend on what arrives later *)

Lemma open_record_feed rd h p d :
  open_record (feed rd d) h p = let '(o, rd1) := open_record rd h p in (o, feed rd1 d).
Proof.
  unfold open_record. destruct rd as [buf n a c]. simpl.
  destruct c as [c|]; [by repeat case_match; simplify_eq|].
  destruct a as [a|]; [|done]. destruct (_ =? _); [|done].
  by repeat case_match; simplify_eq.
Qed.

Lemma next_record_feed rd d o rd1 :
  next_record rd = (o, rd1) -> o <> Ok None -> next_record (feed rd d) = (o, feed rd1 d).
Proof.
  unfold next_record. intros H Ho. change (rd_buf (feed rd d)) with (rd_buf rd ++ d).
  destruct (rd_buf rd) as [|b1 [|b2 [|b3 [|b4 [|b5 rest]]]]] eqn:Hbuf; simplify_eq; [done..|].
  cbn [app]. change (max_len (feed rd d)) with (max_len rd).
  set (h := header_from_bytes b1 b2 b3 b4 b5) in *.
  destruct (max_len rd <? rh_length h); [by simplify_eq|].
  rewrite !len_cons, len_app in *. unfold RECORD_HEADER_SIZE in *.
  pose proof (len_nonneg rest). pose proof (len_nonneg d).
  repeat match type of H with context [?x <? ?y] => destruct (Z.ltb_spec x y); [by simplify_eq|] end.
  match goal with |- context [?x <? ?y] => destruct (Z.ltb_spec x y); [lia|] end.
  rewrite drop_z_app_le, take_z_app_le by lia.
  change (reader_with_buf (feed rd d) (drop_z (rh_length h) rest ++ d)) with
    (feed (reader_with_buf rd (drop_z (rh_length h) rest)) d).
  rewrite open_record_feed. by rewrite H.
Qed.

Lemma open_record_buf rd h p o rd1 : open_record rd h p = (o, rd1) -> rd_buf rd = rd_buf rd1.
Proof. unfold open_record. intros H. by repeat (case_match; simplify_eq). Qed.

Lemma next_record_none rd rd1 : next_record rd = (Ok None, rd1) -> rd1 = rd.
Proof.
  unfold next_record, open_record. intros H.
  repeat (case_match; simplify_eq; try done); unfold mbind, outcome_bind in *;
    repeat (case_match; simplify_eq).
Qed.

(** A delivered record takes at least its header from the buffer. *)
Lemma next_record_consumes rd p rd1 : is_bytes (rd_buf rd) ->
  next_record rd = (Ok (Some p), rd1) ->
  (length (rd_buf rd1) + 5 <= length (rd_buf rd))%nat /\ is_bytes (rd_buf rd1).
Proof.
  intros Hb H. unfold next_record in H.
  destruct (rd_buf rd) as [|b1 [|b2 [|b3 [|b4 [|b5 rest]]]]] eqn:Hbuf; simplify_eq.
  assert (rd_buf rd1 = drop_z (rh_length (header_from_bytes b1 b2 b3 b4 b5)) rest) as ->.
  { do 2 (case_match; [simplify_eq|]). by rewrite <- (open_record_buf _ _ _ _ _ H). }
  rewrite !is_bytes_cons in Hb. destruct_and!.
  unfold drop_z at 1. rewrite length_drop. split; [cbn [length]; lia|auto with width_db].
Qed.

Lemma next_record_bytes rd o rd1 : is_bytes (rd_buf rd) ->
  next_record rd = (o, rd1) -> is_bytes (rd_buf rd1).
Proof.
  intros Hb H. unfold next_record in H.
  destruct (rd_buf rd) as [|b1 [|b2 [|b3 [|b4 [|b5 rest]]]]] eqn:Hbuf; simplify_eq;
    [by rewrite Hbuf..|].
  do 2 (case_match; [simplify_eq; by rewrite Hbuf|]).
  rewrite !is_bytes_cons in Hb. destruct_and!.
  assert (rd_buf rd1 = drop_z (rh_length (header_from_bytes b1 b2 b3 b4 b5)) rest) as ->;
    [|auto with width_db].
  by rewrite <- (open_record_buf _ _ _ _ _ H).
Qed.

(** ** Reading all that is buffered

    The loop of the clients ([HandshakeDriver::progress]): records until there is
    none complete, or an error. *)
Fixpoint read_all (fuel : nat) (rd : RecordReader)
    : list PlaintextRecord * Outcome TlsError unit * RecordReader :=
  match fuel with
  | O => ([], Ok tt, rd)
  | S fuel =>
      match next_record rd with
      | (Ok (Some p), rd) => let '(ps, o, rd) := read_all fuel rd in (p :: ps, o, rd)
      | (Ok None, rd) => ([], Ok tt, rd)
      | (Err e, rd) => ([], Err e, rd)
      | (Panic, rd) => ([], Panic, rd)
      end
  end.

Definition drain (rd : RecordReader) : list PlaintextRecord * Outcome TlsError unit * RecordReader :=
  read_all (S (length (rd_buf rd))) rd.

(** The fuel of [drain] is enough: more makes no difference, and reading stops
    only when no complete record is left. *)
Lemma read_all_fuel n : forall m rd, is_bytes (rd_buf rd) ->
  (length (rd_buf rd) < n)%nat -> (n <= m)%nat -> read_all m rd = read_all n rd.
Proof.
  induction n as [|n IH]; intros m rd Hb Hn Hm; [lia|].
  destruct m as [|m]; [lia|]. simpl.
  destruct (next_record rd) as [[[p|]|e|] rd1] eqn:Hnr; try done.
  destruct (next_record_consumes _ _ _ Hb Hnr). rewrite (IH m rd1) by (done || lia). done.
Qed.

Lemma drain_step rd : is_bytes (rd_buf rd) ->
  drain rd = match next_record rd with
             | (Ok (Some p), rd) => let '(ps, o, rd) := drain rd in (p :: ps, o, rd)
             | (Ok None, rd) => ([], Ok tt, rd)
             | (Err e, rd) => ([], Err e, rd)
             | (Panic, rd) => ([], Panic, rd)
             end.
Proof.
  intros Hb. unfold drain at 1. simpl.
  destruct (next_record rd) as [[[p|]|e|] rd1] eqn:Hnr; try done.
  destruct (next_record_consumes _ _ _ Hb Hnr). unfold drain.
  by rewrite (read_all_fuel (S (length (rd_buf rd1))) (length (rd_buf rd))) by (done || lia).
Qed.

Lemma drain_bytes n : forall rd ps o rd1, (length (rd_buf rd) < n)%nat ->
  is_bytes (rd_buf rd) -> drain rd = (ps, o, rd1) -> is_bytes (rd_buf rd1).
Proof.
  induction n as [|n IH]; intros rd ps o rd1 Hn Hb H; [lia|].
  rewrite drain_step in H by done.
  destruct (next_record rd) as [[[p|]|e|] rd2] eqn:Hnr;
    [|simplify_eq; by eapply next_record_bytes..].
  destruct (next_record_consumes _ _ _ Hb Hnr).
  destruct (drain rd2) as [[qs o2] rd3] eqn:Hd. simplify_eq.
  eapply IH; [|done..]. lia.
Qed.

(** Draining, then feeding more and draining again is draining once. *)
Lemma drain_feed n : forall rd d, is_bytes (rd_buf rd) -> is_bytes d ->
  (length (rd_buf rd) < n)%nat ->
  drain (feed rd d) =
    match drain rd with
    | (ps, Ok _, rd1) => let '(qs, o, rd2) := drain (feed rd1 d) in (ps ++ qs, o, rd2)
    | (ps, o, rd1) => (ps, o, feed rd1 d)
    end.
Proof.
  induction n as [|n IH]; intros rd d Hb Hd Hn; [lia|].
  assert (is_bytes (rd_buf (feed rd d))) by (by apply is_bytes_app).
  rewrite (drain_step rd) by done.
  destruct (next_record rd) as [[[p|]|e|] rd1] eqn:Hnr.
  - rewrite drain_step by done. rewrite (next_record_feed _ _ _ _ Hnr) by done.
    destruct (next_record_consumes _ _ _ Hb Hnr). rewrite (IH rd1) by (done || lia).
    destruct (drain rd1) as [[ps o] rd2]. destruct o; [|done..].
    by destruct (drain (feed rd2 d)) as [[qs o] rd3].
  - apply next_record_none in Hnr as ->. by destruct (drain (feed rd d)) as [[qs o] rd3].
  - rewrite drain_step by done. by rewrite (next_record_feed _ _ _ _ Hnr) by done.
  - rewrite drain_step by done. by rewrite (next_record_feed _ _ _ _ Hnr) by done.
Qed.

(** Feeding pieces one after the other, reading what is complete in between. *)
Fixpoint feed_pieces (rd : RecordReader) (pieces : list bytes)
    : list PlaintextRecord * Outcome TlsError unit * RecordReader :=
  match pieces with
  | [] => drain rd
  | d :: pieces =>
      match drain rd with
      | (ps, Ok _, rd) =>
          let '(qs, o, rd) := feed_pieces (feed rd d) pieces in (ps ++ qs, o, rd)
      | res => res
      end
  end.

Lemma feed_pieces_concat pieces : forall rd ps o rd1,
  is_bytes (rd_buf rd) -> is_bytes (concat pieces) ->
  feed_pieces rd pieces = (ps, o, rd1) ->
  exists rd2, drain (feed rd (concat pieces)) = (ps, o, rd2) /\ (o = Ok tt -> rd2 = rd1).
Proof.
  induction pieces as [|d pieces IH]; intros rd ps o rd1 Hb Hd H; simpl in *.
  { exists rd1. split; [|done]. unfold feed. rewrite app_nil_r. by destruct rd. }
  rewrite is_bytes_app in Hd. destruct Hd as [Hd Hps].
  assert (forall r : RecordReader, feed r (d ++ concat pieces) = feed (feed r d) (concat pieces)) as Hff.
  { intros r. unfold feed; simpl. by rewrite app_assoc. }
  rewrite (drain_feed (S (length (rd_buf rd)))) by (try apply is_bytes_app; done || lia).
  destruct (drain rd) as [[ps1 o1] rd3] eqn:Hdr.
  assert (is_bytes (rd_buf rd3)) as Hb3 by (exact (drain_bytes _ _ _ _ _ (Nat.lt_succ_diag_r _) Hb Hdr)).
  destruct o1 as [[]|e|].
  - rewrite Hff. destruct (feed_pieces (feed rd3 d) pieces) as [[qs o2] rd4] eqn:Hfp.
    simplify_eq. apply IH in Hfp as (rd2 & -> & ?); [|by apply is_bytes_app|done].
    by exists rd2.
  - simplify_eq. by eexists.
  - simplify_eq. by eexists.
Qed.

(** ** Safety *)

Lemma cbc_decrypt_safe {L : CryptoLaws C} c aad d : is_bytes d ->
  outcome_ok is_bytes (cbc_decrypt c aad d).
Proof.
  intros Hd. unfold cbc_decrypt. do 2 (case_match; [done|]).
  eapply outcome_ok_bind with (P := is_bytes).
  - unfold cbc_decrypt_raw.
    repeat (case_match; try done); simpl;
      (eapply aes_cbc_dec_shape; [|eassumption]); auto with width_db.
  - intros pt Hpt. repeat (case_match; try done); simpl; auto with width_db.
Qed.

Lemma tls12_decrypt_safe {L : CryptoLaws C} c n h p : is_bytes p ->
  outcome_ok is_bytes (tls12_decrypt c n h p).
Proof.
  intros Hp. unfold tls12_decrypt, gcm_decrypt, chacha_decrypt.
  destruct c as [g|c|c]; [..|by apply cbc_decrypt_safe];
    repeat (case_match; try done); simpl; (eapply open_shape; [|eassumption]); auto with width_db.
Qed.

(** A reader with a 64-bit counter never panics on any buffered bytes, keeps
    its invariant, and delivers bytes. *)
Definition reader_ok (rd : RecordReader) : Prop := is_bytes (rd_buf rd) /\ u64 (rd_seq_num rd).

Lemma checked_add1_Some n m : u64 n -> checked_add1 n = Some m -> m = n + 1 /\ u64 m.
Proof. unfold checked_add1. intros Hn H. case_match; simplify_eq. split; [done|]. width. Qed.

Definition record_ok (p : PlaintextRecord) : Prop :=
  u8 (pr_content_type p) /\ is_bytes (pr_payload p).

Lemma open_record_safe {L : CryptoLaws C} rd h p o rd1 :
  reader_ok rd -> u8 (rh_content_type h) -> is_bytes p ->
  open_record rd h p = (o, rd1) ->
  reader_ok rd1 /\ outcome_ok (fun q => exists r, q = Some r /\ record_ok r) o.
Proof.
  intros [Hb Hs] Hct Hp H. unfold open_record in H.
  destruct (rd_tls12_cipher rd) as [c|].
  { pose proof (tls12_decrypt_safe c (rd_seq_num rd) h p Hp) as Hsafe.
    destruct (tls12_decrypt _ _ _ _) as [pt|e|]; [|by simplify_eq..].
    destruct (checked_add1 _) as [n|] eqn:Hn; [|by simplify_eq].
    apply checked_add1_Some in Hn as [-> ?]; [|done]. simplify_eq.
    split; [done|]. simpl. eexists; split; [done|]. done. }
  destruct (rd_aead rd) as [a|]; [|simplify_eq; split; [done|]; simpl; eexists; split; done].
  destruct (_ =? _); [|simplify_eq; split; [done|]; simpl; eexists; split; done].
  destruct (aead.decrypt _ _ _ _) as [pt|e|] eqn:Hdec; [|by simplify_eq|].
  - destruct (checked_add1 _) as [n|] eqn:Hn; [|by simplify_eq].
    apply checked_add1_Some in Hn as [-> ?]; [|done]. simplify_eq.
    split; [done|]. eapply outcome_ok_bind; [apply strip_inner_safe|].
    + unfold aead.decrypt in Hdec. case_match; simplify_eq. by eapply open_shape.
    + intros [ct q] [? ?]. simpl. eexists; split; done.
  - unfold aead.decrypt in Hdec. by case_match.
Qed.

Lemma next_record_safe {L : CryptoLaws C} rd o rd1 : reader_ok rd -> next_record rd = (o, rd1) ->
  reader_ok rd1 /\ outcome_ok (fun q => from_option record_ok True q) o.
Proof.
  intros Hok H. unfold next_record in H. pose proof (proj1 Hok) as Hb.
  destruct (rd_buf rd) as [|b1 [|b2 [|b3 [|b4 [|b5 rest]]]]] eqn:Hbuf; simplify_eq; [done..|].
  do 2 (case_match; [by simplify_eq|]).
  rewrite !is_bytes_cons in Hb. destruct_and!.
  apply open_record_safe in H as [Hr Ho]; [|split; [|apply Hok]|done|]; simpl; auto with width_db.
  split; [done|]. eapply outcome_ok_weaken; [done|]. by intros q (r & -> & ?).
Qed.

Lemma drain_safe {L : CryptoLaws C} n : forall rd ps o rd1, (length (rd_buf rd) < n)%nat ->
  reader_ok rd -> drain rd = (ps, o, rd1) ->
  o <> Panic /\ reader_ok rd1 /\ Forall record_ok ps /\ (o = Ok tt -> next_record rd1 = (Ok None, rd1)).
Proof.
  induction n as [|n IH]; intros rd ps o rd1 Hn Hok H; [lia|].
  rewrite drain_step in H by apply Hok.
  destruct (next_record rd) as [o1 rd2] eqn:Hnr.
  destruct (next_record_safe _ _ _ Hok Hnr) as [Hok2 Ho1].
  destruct o1 as [[p|]|e|]; [|simplify_eq..|done]; [| |done].
  - destruct (next_record_consumes _ _ _ (proj1 Hok) Hnr).
    destruct (drain rd2) as [[qs o2] rd3] eqn:Hd. simplify_eq.
    destruct (IH rd2 qs o rd1) as (? & ? & ? & ?); [lia|done..|].
    split_and!; auto.
  - pose proof (next_record_none _ _ Hnr) as ->. split_and!; [done..|]. auto.
Qed.

End props.
