(* ===== verification/TlsChannel.v ===== *)
(** * Writer and reader in step

    A [RecordWriter] and a [RecordReader] that hold the same keys and counter
    form a channel: every write is delivered, in order and unchanged, across any
    sequence of writes and key changes and any cutting of the bytes in transit. *)
From S2P Require Import Prelude TlsError TlsCipher TlsRecord.
Import error tls12_cipher record.

Definition cipher_wf (c : Tls12RecordCipher) : Prop :=
  match c with Gcm g => gcm_wf g | Chacha20 c => chacha_wf c | Cbc c => cbc_wf c end.

Record in_sync (w : RecordWriter) (rd : RecordReader) : Prop := {
  sync_seq : wr_seq_num w = rd_seq_num rd;
  sync_aead : wr_aead w = rd_aead rd;
  sync_tls12 : wr_tls12_cipher w = rd_tls12_cipher rd;
  sync_flush : flush_strategy w = Immediate;
  sync_u64 : u64 (wr_seq_num w);
  sync_aead_wf : from_option aead_wf True (wr_aead w);
  sync_tls12_wf : from_option cipher_wf True (wr_tls12_cipher w);
}.

(** A session as the two ends see it: writes and, at the same points, key
    installations. *)
Inductive Op : Type :=
| OWrite (ct : Z) (payload : bytes)
| OKeys (a : aead.Aead)
| OKeys12 (c : Tls12RecordCipher).

Definition op_ok (op : Op) : Prop :=
  match op with
  | OWrite ct payload => u8 ct /\ ct <> 0 /\ is_bytes payload
  | OKeys a => aead_wf a
  | OKeys12 c => cipher_wf c
  end.

(** Records a write is cut into. *)
Definition pieces_of (payload : bytes) : list bytes :=
  if is_empty payload then [[]] else chunks MAX_RECORD_PAYLOAD payload.

Definition op_records (op : Op) : Z :=
  match op with OWrite _ payload => len (pieces_of payload) | _ => 0 end.
Fixpoint total_records (ops : list Op) : Z :=
  match ops with [] => 0 | op :: ops => op_records op + total_records ops end.

Definition delivered (op : Op) (got : list PlaintextRecord) : Prop :=
  match op with
  | OWrite ct payload =>
      Forall (fun q => pr_content_type q = ct /\ len (pr_payload q) <= MAX_RECORD_PAYLOAD) got /\
      concat (pr_payload <$> got) = payload /\ got <> []
  | _ => got = []
  end.

Section channel.
Context {C : Crypto} {L : CryptoLaws C} {R : Type} {S : SystemRandom R} {SL : SystemRandomLaws R}.

(** The sender's side of a session: the bytes of each operation. *)
Fixpoint send (w : RecordWriter) (ops : list Op) (r : R)
    : Outcome TlsError (list bytes) * RecordWriter * R :=
  match ops with
  | [] => (Ok [], w, r)
  | op :: ops =>
      let '(o, w, r) :=
        match op with
        | OWrite ct payload => write_record w ct payload r
        | OKeys a => (Ok [], writer_set_keys w a, r)
        | OKeys12 c => (Ok [], writer_set_tls12_keys w c, r)
        end in
      match o with
      | Ok out => let '(outs, w, r) := send w ops r in (outs ← outs; Ok (out :: outs), w, r)
      | Err e => (Err e, w, r)
      | Panic => (Panic, w, r)
      end
  end.

(** The receiver's side: the bytes of each operation arrive in pieces. *)
Fixpoint receive (rd : RecordReader) (ops : list Op) (arrivals : list (list bytes))
    : list (list PlaintextRecord) * Outcome TlsError unit * RecordReader :=
  match ops, arrivals with
  | op :: ops, ps :: arrivals =>
      let '(got, o, rd) :=
        match op with
        | OWrite _ _ => feed_pieces rd ps
        | OKeys a => ([], Ok tt, reader_set_keys rd a)
        | OKeys12 c => ([], Ok tt, reader_set_tls12_keys rd c)
        end in
      match o with
      | Ok _ => let '(rest, o, rd) := receive rd ops arrivals in (got :: rest, o, rd)
      | _ => ([got], o, rd)
      end
  | _, _ => ([], Ok tt, rd)
  end.

(** ** One record *)

Lemma next_record_framed rd h p rest :
  u16 (rh_version h) -> u16 (rh_length h) -> rh_length h = len p -> len p <= max_len rd ->
  next_record (reader_with_buf rd (header_to_bytes h ++ p ++ rest)) =
    open_record (reader_with_buf rd rest) h p.
Proof.
  intros Hv Hl Hlen Hmax. destruct (record_header_roundtrip h Hv Hl) as (a & b & c & d & e & -> & Hh).
  unfold next_record. cbn [rd_buf reader_with_buf app]. rewrite Hh, Hlen.
  change (max_len (reader_with_buf rd _)) with (max_len rd).
  destruct (Z.ltb_spec (max_len rd) (len p)); [lia|]. unfold RECORD_HEADER_SIZE.
  rewrite !len_cons, len_app. pose proof (len_nonneg rest).
  match goal with |- context [?x <? ?y] => destruct (Z.ltb_spec x y); [lia|] end.
  by rewrite drop_z_app_len, take_z_app_len.
Qed.

Lemma checked_add1_lt n : n + 1 < 18446744073709551616 -> checked_add1 n = Some (n + 1).
Proof. unfold checked_add1. intros. destruct (Z.ltb_spec (n + 1) 18446744073709551616); [done|lia]. Qed.

Lemma header_bytes_ok h : u8 (rh_content_type h) -> is_bytes (header_to_bytes h).
Proof.
  intros. unfold header_to_bytes. apply is_bytes_cons. split; [done|].
  apply is_bytes_app; auto with width_db.
Qed.

(** What a cipher of TLS 1.2 makes of a payload, the same cipher undoes. *)
Lemma tls12_roundtrip c n ct p (r : R) :
  cipher_wf c -> is_bytes p -> len p <= MAX_RECORD_PAYLOAD ->
  exists enc r', tls12_encrypt c n (tls12_aad n ct 0x0303 (as_u16 (len p))) p r = (Ok enc, r') /\
    is_bytes enc /\ len enc <= MAX_RECORD_PAYLOAD + 256 /\
    forall h, rh_content_type h = ct -> rh_version h = 0x0303 -> tls12_decrypt c n h enc = Ok p.
Proof.
  unfold MAX_RECORD_PAYLOAD. intros Hwf Hp Hl. pose proof (len_nonneg p).
  assert (as_u16 (len p) = len p) as Hu by width.
  destruct c as [g|c|c]; simpl in *.
  - destruct (gcm_roundtrip g n (tls12_aad n ct 0x0303 (as_u16 (len p))) p)
      as (enc & He & Hel & Heb & Hd); [done..|lia|].
    exists enc, r. rewrite He. split_and!; [done..|lia|]. intros h -> ->.
    destruct (Z.ltb_spec (len enc) (8 + 16)); [lia|].
    replace (len enc - 8 - 16) with (len p) by lia. by rewrite <- Hd, Hu.
  - destruct (chacha_roundtrip c n (tls12_aad n ct 0x0303 (as_u16 (len p))) p)
      as (enc & He & Hel & Heb & Hd); [done..|lia|].
    exists enc, r. rewrite He. split_and!; [done..|lia|]. intros h -> ->.
    destruct (Z.ltb_spec (len enc) 16); [lia|].
    replace (len enc - 16) with (len p) by lia. by rewrite <- Hd, Hu.
  - assert (forall a, tls12_aad n ct 0x0303 a = (be64 n ++ [ct; 3; 3]) ++ [as_u8 (a ≫ 8); as_u8 a])
      as Haad by done.
    destruct (cbc_roundtrip c n (be64 n ++ [ct; 3; 3]) 0 0 p r)
      as (enc & r' & He & Hel & Heb & _); [done..|].
    exists enc, r'. rewrite Haad, He. split_and!; [done..|lia|]. intros h -> ->.
    rewrite Haad.
    destruct (cbc_roundtrip c n (be64 n ++ [ct; 3; 3]) (as_u8 (as_u16 (len enc) ≫ 8))
                (as_u8 (as_u16 (len enc))) p r) as (enc' & r'' & He' & _ & _ & Hd); [done..|].
    rewrite He in He'. by simplify_eq.
Qed.

Lemma max_len_encrypted rd : is_Some (rd_aead rd) \/ is_Some (rd_tls12_cipher rd) ->
  max_len rd = MAX_RECORD_PAYLOAD + 256.
Proof.
  intros H. unfold max_len.
  destruct H; [rewrite (bool_decide_true (is_Some (rd_aead rd)))
              |rewrite (bool_decide_true (is_Some (rd_tls12_cipher rd))), orb_true_r]; done.
Qed.

Lemma max_len_plain rd : MAX_RECORD_PAYLOAD <= max_len rd.
Proof. unfold max_len, MAX_RECORD_PAYLOAD. case_match; lia. Qed.

Lemma sync_step w rd n : in_sync w rd -> u64 n ->
  in_sync (writer_with_seq w n) (reader_with_seq rd n).
Proof. intros [] Hn. by constructor. Qed.

(** The record [rec] carries [p] from [rd] to the reader state [rd']. *)
Definition carries (rd : RecordReader) (ct : Z) (p rec : bytes) (rd' : RecordReader) : Prop :=
  is_bytes rec /\
  forall rest, next_record (reader_with_buf rd (rec ++ rest)) =
    (Ok (Some {| pr_content_type := ct; pr_payload := p |}), reader_with_buf rd' rest).

Lemma carries_framed rd ct p h enc rd' :
  u8 (rh_content_type h) -> u16 (rh_version h) -> is_bytes enc ->
  rh_length h = len enc -> len enc <= max_len rd ->
  (forall rest, open_record (reader_with_buf rd rest) h enc =
    (Ok (Some {| pr_content_type := ct; pr_payload := p |}), reader_with_buf rd' rest)) ->
  carries rd ct p (header_to_bytes h ++ enc) rd'.
Proof.
  intros Hct Hv Henc Hlen Hmax Ho. split; [by apply is_bytes_app; auto using header_bytes_ok|].
  intros rest. rewrite <- app_assoc. rewrite next_record_framed; [auto|done| |done..].
  rewrite Hlen. pose proof (len_nonneg enc). revert Hmax. unfold max_len, MAX_RECORD_PAYLOAD.
  case_match; width.
Qed.

Section single.
Context (w : RecordWriter) (rd : RecordReader) (ct : Z) (p : bytes) (r : R).
Hypothesis Hs : in_sync w rd.
Hypothesis Hct : u8 ct.
Hypothesis Hp : is_bytes p.
Hypothesis Hl : len p <= MAX_RECORD_PAYLOAD.

Lemma encode_tls12_sync c : wr_tls12_cipher w = Some c ->
  wr_seq_num w + 1 < 18446744073709551616 ->
  exists rec r', encode_tls12_encrypted_record w ct p r =
      (Ok rec, writer_with_seq w (wr_seq_num w + 1), r') /\
    carries rd ct p rec (reader_with_seq rd (wr_seq_num w + 1)).
Proof.
  intros Hc Hn. unfold encode_tls12_encrypted_record. rewrite Hc.
  pose proof (sync_tls12_wf _ _ Hs) as H12. rewrite Hc in H12.
  destruct (tls12_roundtrip c (wr_seq_num w) ct p r H12 Hp Hl) as (enc & r' & -> & Heb & Hel & Hd).
  rewrite checked_add1_lt by done. pose proof (len_nonneg enc). unfold MAX_RECORD_PAYLOAD in Hel.
  assert (as_u16 (len enc) = len enc) as -> by width.
  do 2 eexists. split; [done|]. apply carries_framed; simpl; [done|width|done..| |].
  - rewrite max_len_encrypted; [done|]. right. by rewrite <- (sync_tls12 _ _ Hs), Hc.
  - intros rest. unfold open_record. simpl.
    rewrite <- (sync_tls12 _ _ Hs), Hc, <- (sync_seq _ _ Hs), Hd by done.
    by rewrite checked_add1_lt.
Qed.

Lemma encode_tls13_sync a : wr_aead w = Some a -> wr_tls12_cipher w = None -> ct <> 0 ->
  wr_seq_num w + 1 < 18446744073709551616 ->
  exists rec, encode_tls13_encrypted_record w ct p =
      (Ok rec, writer_with_seq w (wr_seq_num w + 1)) /\
    carries rd ct p rec (reader_with_seq rd (wr_seq_num w + 1)).
Proof.
  intros Ha Hc Hnz Hn. unfold encode_tls13_encrypted_record. rewrite Ha.
  pose proof (sync_aead_wf _ _ Hs) as H13. rewrite Ha in H13.
  pose proof (len_nonneg p). pose proof Hl as Hl'. unfold MAX_RECORD_PAYLOAD in Hl'.
  assert (len (p ++ [ct]) = len p + 1) as Hsnoc by (autorewrite with len_db; lia).
  assert (as_u16 (len (p ++ [ct]) + tag_len (aead.algorithm a)) = len p + 17) as ->.
  { rewrite Hsnoc. unfold tag_len. width. }
  match goal with |- context [aead.encrypt _ _ (header_to_bytes ?h)] => set (hd := h) end.
  destruct (aead_roundtrip a (wr_seq_num w) (header_to_bytes hd) (p ++ [ct]))
    as (enc & -> & Hel & Heb & Hd); [done| |lia|].
  { apply is_bytes_app. split; [done|]. by constructor. }
  rewrite checked_add1_lt by done.
  eexists. split; [done|]. apply carries_framed; simpl; [by vm_compute|width|done|lia| |].
  - rewrite max_len_encrypted; [unfold MAX_RECORD_PAYLOAD; lia|].
    left. by rewrite <- (sync_aead _ _ Hs), Ha.
  - intros rest. unfold open_record. simpl.
    rewrite <- (sync_tls12 _ _ Hs), Hc, <- (sync_aead _ _ Hs), Ha, <- (sync_seq _ _ Hs). simpl.
    by rewrite Hd, checked_add1_lt, strip_inner_snoc.
Qed.

Lemma encode_plaintext_sync : wr_aead w = None -> wr_tls12_cipher w = None ->
  exists rec, encode_plaintext_record w ct p = (Ok rec, mark_post_initial w) /\
    carries rd ct p rec rd.
Proof.
  intros Ha Hc. unfold encode_plaintext_record.
  destruct (Z.ltb_spec MAX_RECORD_PAYLOAD (len p)); [lia|].
  pose proof (len_nonneg p). pose proof Hl as Hl'. unfold MAX_RECORD_PAYLOAD in Hl'.
  assert (as_u16 (len p) = len p) as -> by width.
  eexists. split; [done|]. pose proof (max_len_plain rd).
  apply carries_framed; simpl; [done|case_match; width|done..|lia|].
  intros rest. unfold open_record. simpl.
  by rewrite <- (sync_tls12 _ _ Hs), Hc, <- (sync_aead _ _ Hs), Ha.
Qed.

Lemma encode_single_sync : ct <> 0 -> wr_seq_num w + 1 < 18446744073709551616 ->
  exists rec w' r' rd', encode_single_record w ct p r = (Ok rec, w', r') /\
    in_sync w' rd' /\ wr_seq_num w' <= wr_seq_num w + 1 /\ carries rd ct p rec rd'.
Proof.
  intros Hnz Hn. assert (u64 (wr_seq_num w + 1)) by (pose proof (sync_u64 _ _ Hs); width).
  unfold encode_single_record.
  destruct (wr_tls12_cipher w) as [c|] eqn:Hc; [rewrite bool_decide_true by done|
    rewrite bool_decide_false by (by intros [??]);
    destruct (wr_aead w) as [a|] eqn:Ha; [rewrite bool_decide_true by done|
      rewrite bool_decide_false by (by intros [??])]].
  - destruct (encode_tls12_sync c Hc Hn) as (rec & r' & -> & ?).
    do 4 eexists. split; [done|]. split; [by apply sync_step|]. simpl. split; [lia|done].
  - destruct (encode_tls13_sync a Ha Hc Hnz Hn) as (rec & -> & ?).
    do 4 eexists. split; [done|]. split; [by apply sync_step|]. simpl. split; [lia|done].
  - destruct (encode_plaintext_sync Ha Hc) as (rec & -> & ?).
    do 4 eexists. split; [done|]. split; [by destruct Hs; constructor|]. simpl. split; [lia|done].
Qed.

End single.

(** ** A write, cut into records *)

Lemma write_chunks_sync ct cs : forall w rd acc (r : R),
  u8 ct -> ct <> 0 -> in_sync w rd ->
  Forall (fun p => is_bytes p /\ len p <= MAX_RECORD_PAYLOAD) cs ->
  wr_seq_num w + len cs < 18446744073709551616 ->
  exists out w' r' rd', write_chunks w ct acc cs r = (Ok (acc ++ out), w', r') /\
    in_sync w' rd' /\ wr_seq_num w' <= wr_seq_num w + len cs /\ is_bytes out /\
    forall rest, is_bytes rest -> drain (reader_with_buf rd (out ++ rest)) =
      let '(ps, o, rd2) := drain (reader_with_buf rd' rest) in (map (mkPlaintext ct) cs ++ ps, o, rd2).
Proof.
  induction cs as [|p cs IH]; intros w rd acc r Hct Hnz Hs Hcs Hn.
  { exists [], w, r, rd. simpl. rewrite app_nil_r. split_and!; [done..|slen|constructor|].
    intros rest _. by destruct (drain _) as [[ps o] rd2]. }
  apply Forall_cons in Hcs as [[Hp Hpl] Hcs]. rewrite len_cons in *. pose proof (len_nonneg cs).
  destruct (encode_single_sync w rd ct p r) as (rec & w1 & r1 & rd1 & He & Hs1 & Hn1 & Hb & Hnr);
    [done..|lia|].
  simpl. rewrite He. unfold emit. rewrite (sync_flush _ _ Hs1).
  destruct (IH w1 rd1 (acc ++ rec) r1) as (out & w' & r' & rd' & -> & Hs' & Hn' & Hb' & Hd);
    [done..|lia|].
  exists (rec ++ out), w', r', rd'. rewrite <- app_assoc. split_and!; [done..|lia| |].
  { by apply is_bytes_app. }
  intros rest Hrest. rewrite <- app_assoc.
  rewrite drain_step by (simpl; rewrite !is_bytes_app; done).
  rewrite Hnr, Hd by done. by destruct (drain (reader_with_buf rd' rest)) as [[ps o] rd2].
Qed.

Lemma pieces_of_spec payload : is_bytes payload ->
  concat (pieces_of payload) = payload /\ pieces_of payload <> [] /\
  Forall (fun p => is_bytes p /\ len p <= MAX_RECORD_PAYLOAD) (pieces_of payload).
Proof.
  intros Hb. unfold pieces_of. destruct (is_empty payload) eqn:He.
  { destruct payload; [|done]. split_and!; [done..|]. repeat constructor. done. }
  assert (0 < MAX_RECORD_PAYLOAD) as H0 by done.
  pose proof (chunks_concat MAX_RECORD_PAYLOAD payload H0) as Hc. split_and!; [done|..].
  - intros Hnil. rewrite Hnil in Hc. simpl in Hc. by subst payload.
  - apply Forall_and. split.
    + rewrite <- Hc in Hb. revert Hb. generalize (chunks MAX_RECORD_PAYLOAD payload) as l.
      induction l; simpl; [constructor|]. rewrite is_bytes_app. intros []. constructor; auto.
    + eapply Forall_impl; [by apply chunks_bound|]. simpl. lia.
Qed.

Lemma write_record_chunks w ct payload (r : R) : flush_strategy w = Immediate ->
  (forall rec w' r', encode_single_record w ct [] r = (Ok rec, w', r') -> flush_strategy w' = Immediate) ->
  write_record w ct payload r = write_chunks w ct [] (pieces_of payload) r.
Proof.
  intros Hw Hf. unfold write_record, pieces_of. destruct (is_empty payload); [|done].
  simpl. destruct (encode_single_record w ct [] r) as [[[rec|e|] w1] r1] eqn:He; [|done..].
  unfold emit. by rewrite (Hf _ _ _ eq_refl).
Qed.

Lemma write_record_sync w rd ct payload (r : R) :
  u8 ct -> ct <> 0 -> is_bytes payload -> in_sync w rd -> rd_buf rd = [] ->
  wr_seq_num w + len (pieces_of payload) < 18446744073709551616 ->
  exists out w' r' rd', write_record w ct payload r = (Ok out, w', r') /\
    in_sync w' rd' /\ rd_buf rd' = [] /\ is_bytes out /\
    wr_seq_num w' <= wr_seq_num w + len (pieces_of payload) /\
    drain (feed rd out) = (map (mkPlaintext ct) (pieces_of payload), Ok tt, rd').
Proof.
  intros Hct Hnz Hb Hs Hbuf Hn. destruct (pieces_of_spec payload Hb) as (_ & Hne & Hps).
  rewrite write_record_chunks; [|apply Hs|].
  2: { intros rec w' r' He. pose proof (len_nonneg (pieces_of payload)).
       assert (0 < len (pieces_of payload)).
       { destruct (pieces_of payload) as [|x l]; [done|]. slen. }
       destruct (encode_single_sync w rd ct [] r) as (?&?&?&?& He' & Hs' & _);
         [done..|constructor|done|done|lia|].
       rewrite He in He'. simplify_eq. apply Hs'. }
  destruct (write_chunks_sync ct (pieces_of payload) w rd [] r)
    as (out & w' & r' & rd' & Hw & Hs' & Hn' & Hob & Hd); [done..|].
  exists out, w', r', (reader_with_buf rd' []). split_and!; [done|by destruct Hs'; constructor|done..|].
  specialize (Hd [] is_bytes_nil). rewrite app_nil_r in Hd.
  change (feed rd out) with (reader_with_buf rd (rd_buf rd ++ out)). rewrite Hbuf. simpl.
  rewrite Hd. change (drain (reader_with_buf rd' [])) with ([] : list PlaintextRecord, Ok (E:=TlsError) tt, reader_with_buf rd' []).
  cbv iota beta. by rewrite app_nil_r.
Qed.

(** ** Whole sessions *)

Lemma delivered_write ct payload : is_bytes payload ->
  delivered (OWrite ct payload) (map (mkPlaintext ct) (pieces_of payload)).
Proof.
  intros Hb. destruct (pieces_of_spec payload Hb) as (Hc & Hne & Hps). simpl. split_and!.
  - apply Forall_map. eapply Forall_impl; [done|]. by intros q [_ ?].
  - rewrite <- Hc at 2. f_equal. clear. induction (pieces_of payload); simpl; by f_equal.
  - by destruct (pieces_of payload).
Qed.

Lemma op_records_nonneg op : 0 <= op_records op.
Proof. destruct op; simpl; [apply len_nonneg|done..]. Qed.
Lemma total_records_nonneg ops : 0 <= total_records ops.
Proof. induction ops as [|op ops]; simpl; [done|]. pose proof (op_records_nonneg op). lia. Qed.

(** What a session establishes, by induction on its operations. *)
Lemma channel_session_sync ops : forall w rd (r : R),
  in_sync w rd -> rd_buf rd = [] -> Forall op_ok ops ->
  wr_seq_num w + total_records ops < 18446744073709551616 ->
  exists outs w' r', send w ops r = (Ok outs, w', r') /\
    forall arrivals, Forall2 (fun ps out => concat ps = out) arrivals outs ->
    exists got rd', receive rd ops arrivals = (got, Ok tt, rd') /\
      in_sync w' rd' /\ rd_buf rd' = [] /\ Forall2 delivered ops got.
Proof.
  induction ops as [|op ops IH]; intros w rd r Hs Hbuf Hops Hn.
  { exists [], w, r. split; [done|]. intros arrivals Ha. inversion Ha; subst.
    exists [], rd. done. }
  apply Forall_cons in Hops as [Hop Hops]. simpl in Hn.
  pose proof (total_records_nonneg ops). pose proof (sync_u64 _ _ Hs) as Hu.
  assert (forall w1 rd1 r1 out,
    in_sync w1 rd1 -> rd_buf rd1 = [] -> wr_seq_num w1 <= wr_seq_num w + op_records op ->
    (forall ps, concat ps = out -> exists got, delivered op got /\
       match op with
       | OWrite _ _ => feed_pieces rd ps
       | OKeys a => ([], Ok tt, reader_set_keys rd a)
       | OKeys12 c => ([], Ok tt, reader_set_tls12_keys rd c)
       end = (got, Ok tt, rd1)) ->
    exists outs w' r', (let '(outs, w, r) := send w1 ops r1 in
                        (outs ← outs; Ok (out :: outs), w, r)) = (Ok outs, w', r') /\
    forall arrivals, Forall2 (fun ps out => concat ps = out) arrivals outs ->
    exists got rd', receive rd (op :: ops) arrivals = (got, Ok tt, rd') /\
      in_sync w' rd' /\ rd_buf rd' = [] /\ Forall2 delivered (op :: ops) got) as Hstep.
  { intros w1 rd1 r1 out Hs1 Hbuf1 Hn1 Hrecv.
    destruct (IH w1 rd1 r1) as (outs & w' & r' & -> & Hrest); [done..|lia|].
    exists (out :: outs), w', r'. split; [done|]. intros arrivals Ha.
    inversion Ha as [|ps ? arr ? Hps Harr]; subst.
    destruct (Hrecv ps eq_refl) as (got & Hg & Hrecv').
    destruct (Hrest arr Harr) as (gots & rd' & Hr & ? & ? & ?).
    exists (got :: gots), rd'. simpl. rewrite Hrecv', Hr. split_and!; [done..|]. by constructor. }
  destruct op as [ct payload|a|c]; simpl in *.
  - destruct Hop as (Hct & Hnz & Hb).
    destruct (write_record_sync w rd ct payload r) as (out & w1 & r1 & rd1 & -> & Hs1 & Hb1 & Hob & Hn1 & Hd);
      [done..|lia|].
    apply Hstep with (rd1 := rd1); [done..|]. intros ps Hps.
    exists (map (mkPlaintext ct) (pieces_of payload)). split; [by apply delivered_write|].
    destruct (feed_pieces rd ps) as [[got o] rd2] eqn:Hfp.
    apply feed_pieces_concat in Hfp as (rd3 & Hd3 & Heq); [|by rewrite Hbuf; constructor|by rewrite Hps].
    rewrite Hps, Hd in Hd3. simplify_eq. by rewrite <- Heq.
  - apply Hstep with (rd1 := reader_set_keys rd a); [|done|simpl; width|by eauto].
    destruct Hs; constructor; simpl; first [done|width].
  - apply Hstep with (rd1 := reader_set_tls12_keys rd c); [|done|simpl; width|by eauto].
    destruct Hs; constructor; simpl; first [done|width].
Qed.

(** ** Nonces *)

(** The AEAD key of a writer and the nonce it derives from a sequence number;
    CBC suites have no AEAD key. *)
Definition aead_key (w : RecordWriter) : option (AeadAlgorithm * bytes * (Z -> bytes)) :=
  match wr_tls12_cipher w with
  | Some (Gcm g) => Some (gcm_alg g, gcm_key g, fun n => implicit_iv g ++ be64 n)
  | Some (Chacha20 c) => Some (Chacha20Poly1305, chacha_key c, chacha_make_nonce c)
  | Some (Cbc _) => None
  | None => (fun a => (aead.algorithm a, aead.key a, aead.make_nonce a)) <$> wr_aead w
  end.

(** The records a writer emits for a list of payloads, up to the first failure. *)
Fixpoint emitted (w : RecordWriter) (items : list (Z * bytes)) (r : R) : list bytes :=
  match items with
  | [] => []
  | (ct, p) :: items =>
      match encode_single_record w ct p r with
      | (Ok rec, w, r) => rec :: emitted w items r
      | _ => []
      end
  end.

(** [rec] is a header followed by a seal under this key and nonce. *)
Definition sealed_under (alg : AeadAlgorithm) (key : bytes) (rec nonce : bytes) : Prop :=
  exists header aad pt ct, seal alg key nonce aad pt = Some ct /\ rec = header ++ ct.

Lemma encode_single_sealed w ct p (r : R) alg key nonce rec w' r' :
  u64 (wr_seq_num w) -> aead_key w = Some (alg, key, nonce) ->
  encode_single_record w ct p r = (Ok rec, w', r') ->
  sealed_under alg key rec (nonce (wr_seq_num w)) /\
  w' = writer_with_seq w (wr_seq_num w + 1) /\ u64 (wr_seq_num w + 1).
Proof.
  intros Hu Hk He. unfold encode_single_record, aead_key in *.
  destruct (wr_tls12_cipher w) as [c|] eqn:Hc.
  - rewrite bool_decide_true in He by done. unfold encode_tls12_encrypted_record in He.
    rewrite Hc in He. destruct c as [g|c|c]; simplify_eq; cbn [tls12_encrypt] in He;
      unfold gcm_encrypt, chacha_encrypt in He;
      (destruct (seal _ _ _ _ _) as [enc|] eqn:Hseal; [|done]);
      (destruct (checked_add1 _) as [n|] eqn:Hn; [|done]);
      (apply checked_add1_Some in Hn as [-> ?]; [|done]); simplify_eq; (split; [|done]).
    + exists (header_to_bytes (mkHeader ct 0x0303 (as_u16 (len (be64 (wr_seq_num w) ++ enc)))) ++
              be64 (wr_seq_num w)).
      do 3 eexists. split; [exact Hseal|]. done.
    + exists (header_to_bytes (mkHeader ct 0x0303 (as_u16 (len enc)))).
      do 3 eexists. split; [exact Hseal|]. done.
  - rewrite bool_decide_false in He by (by intros [??]).
    destruct (wr_aead w) as [a|] eqn:Ha; [|done]. rewrite bool_decide_true in He by done.
    unfold encode_tls13_encrypted_record, aead.encrypt in He. rewrite Ha in He. simplify_eq/=.
    destruct (seal _ _ _ _ _) as [enc|] eqn:Hseal; [|done].
    destruct (checked_add1 _) as [n|] eqn:Hn; [|done].
    apply checked_add1_Some in Hn as [-> ?]; [|done]. simplify_eq. split; [|done].
    exists (header_to_bytes (mkHeader content_type.APPLICATION_DATA 0x0303
      (as_u16 (len (p ++ [ct]) + tag_len (aead.algorithm a))))).
    do 3 eexists. split; [exact Hseal|]. done.
Qed.

Lemma aead_key_inj w rd alg key nonce a b : in_sync w rd ->
  aead_key w = Some (alg, key, nonce) -> u64 a -> u64 b -> nonce a = nonce b -> a = b.
Proof.
  intros Hs Hk Ha Hb. pose proof (sync_tls12_wf _ _ Hs) as H12.
  pose proof (sync_aead_wf _ _ Hs) as H13. unfold aead_key in Hk.
  destruct (wr_tls12_cipher w) as [[g|c|c]|]; simplify_eq/=.
  - intros H%app_inv_head. by apply be64_inj.
  - apply xor_nonce_inj; [apply H12|done..].
  - destruct (wr_aead w); simplify_eq/=. apply xor_nonce_inj; [apply H13|done..].
Qed.

Lemma emitted_sealed items : forall w alg key nonce (r : R),
  u64 (wr_seq_num w) -> aead_key w = Some (alg, key, nonce) ->
  wr_seq_num w + len (emitted w items r) < 18446744073709551616 /\
  Forall2 (sealed_under alg key) (emitted w items r)
    (nonce <$> seqZ (wr_seq_num w) (len (emitted w items r))).
Proof.
  induction items as [|[ct p] items IH]; intros w alg key nonce r Hu Hk; simpl.
  { rewrite len_nil. split; [width|constructor]. }
  destruct (encode_single_record w ct p r) as [[[rec|e|] w'] r'] eqn:He;
    [|rewrite len_nil; split; [width|constructor]..].
  destruct (encode_single_sealed _ _ _ _ _ _ _ _ _ _ Hu Hk He) as (Hseal & -> & Hu1).
  destruct (IH (writer_with_seq w (wr_seq_num w + 1)) alg key nonce r') as [Hlt Hall]; [done..|].
  rewrite len_cons in *. simpl in *. set (l := emitted _ _ _) in *.
  pose proof (len_nonneg l). split; [lia|]. rewrite seqZ_cons by lia. simpl.
  replace (Z.pred (1 + len l)) with (len l) by lia. rewrite <- Z.add_1_r. by constructor.
Qed.

End channel.

(** ** The properties *)

Section theorems.
Context {C : Crypto} {L : CryptoLaws C}.


(** The reader survives any input: on any bytes, cut in any way, a reader
    with a 64-bit counter never panics, and reading piece by piece delivers the
    records, and ends in the error, that reading everything at once does. *)
Theorem reader_total_chunk_invariant (pieces : list bytes) rd ps o rd1 :
  reader_ok rd -> is_bytes (concat pieces) ->
  feed_pieces rd pieces = (ps, o, rd1) ->
  o <> Panic /\ Forall record_ok ps /\
  exists rd2, drain (feed rd (concat pieces)) = (ps, o, rd2) /\
    (o = Ok tt -> rd2 = rd1 /\ next_record rd1 = (Ok None, rd1)).
Proof.
  intros [Hb Hu] Hp H. apply feed_pieces_concat in H as (rd2 & Hd & Heq); [|done..].
  destruct (drain_safe _ _ _ _ _ (Nat.lt_succ_diag_r _) (conj (proj2 (is_bytes_app _ _) (conj Hb Hp)) Hu : reader_ok (feed rd (concat pieces))) Hd)
    as (? & ? & ? & Hnone).
  split_and!; [done..|]. exists rd2. split; [done|]. intros Ho. specialize (Heq Ho). subst rd2. auto.
Qed.

(** C29. Nonces are never reused: under one AEAD key a writer emits fewer than
    2^64 records whatever it is asked to send, and there are pairwise distinct
    nonces under which those records are sealed. *)
Theorem nonces_never_reused {R : Type} `{SystemRandom R} (items : list (Z * bytes)) w rd (r : R)
    alg key nonce :
  in_sync w rd -> aead_key w = Some (alg, key, nonce) ->
  wr_seq_num w + len (emitted w items r) < 18446744073709551616 /\
  exists nonces, NoDup nonces /\ Forall2 (sealed_under alg key) (emitted w items r) nonces.
Proof.
  intros Hs Hk. pose proof (sync_u64 _ _ Hs) as Hu.
  destruct (emitted_sealed items w alg key nonce r Hu Hk) as [Hlt Hall].
  split; [done|]. eexists. split; [|exact Hall].
  apply NoDup_fmap_2_strong; [|apply NoDup_seqZ].
  intros a b Ha%elem_of_seqZ Hb%elem_of_seqZ. eapply aead_key_inj; [done..| |]; width.
Qed.

(** Once TLS 1.3 keys are installed the reader still delivers, unchanged and
    whatever the keys are, any record whose outer type is not application data:
    nothing of it is authenticated and the counter does not move. *)
Theorem plaintext_record_accepted_under_keys rd a ct version payload rest :
  rd_aead rd = Some a -> rd_tls12_cipher rd = None ->
  ct <> content_type.APPLICATION_DATA -> u16 version ->
  len payload <= MAX_RECORD_PAYLOAD + 256 ->
  next_record (reader_with_buf rd (header_to_bytes (mkHeader ct version (len payload)) ++ payload ++ rest)) =
    (Ok (Some {| pr_content_type := ct; pr_payload := payload |}), reader_with_buf rd rest).
Proof.
  intros Ha Hc Hct Hv Hl. pose proof (len_nonneg payload). unfold MAX_RECORD_PAYLOAD in Hl.
  rewrite next_record_framed; simpl; [|done|width|done|].
  - unfold open_record. simpl. rewrite Ha, Hc.
    by destruct (Z.eqb_spec ct content_type.APPLICATION_DATA).
  - rewrite max_len_encrypted; [done|]. left. by rewrite Ha.
Qed.

End theorems.

(** ** A concrete instance of the primitives

    The tag spells out the nonce and opening checks it; it shows that the laws
    above can be met together. *)

Definition toy_tag (nonce : bytes) : bytes := take 16 (map as_u8 nonce ++ replicate 16 0).

Definition toy_crypto : Crypto := {|
  unbound_key_ok alg key := bool_decide (len key = key_len alg);
  seal alg key nonce aad pt := Some (pt ++ toy_tag nonce);
  open alg key nonce aad ct :=
    if decide (drop (length ct - 16) ct = toy_tag nonce)
    then Some (take (length ct - 16) ct) else None;
  hmac_sign alg key msg := replicate (Z.to_nat (mac_len alg)) 7;
  hmac_verify alg key msg tag := bool_decide (tag = replicate (Z.to_nat (mac_len alg)) 7);
  aes_cbc_encrypt key iv d := Some d;
  aes_cbc_decrypt key iv d := Some d;
|}.

Lemma toy_tag_shape nonce : length (toy_tag nonce) = 16%nat /\ is_bytes (toy_tag nonce).
Proof.
  unfold toy_tag. split.
  - rewrite length_take, length_app, length_replicate. lia.
  - apply is_bytes_take, is_bytes_app. split; [|by repeat constructor].
    apply Forall_map, Forall_true. intros; simpl. width.
Qed.

#[export] Instance toy_crypto_laws : CryptoLaws toy_crypto.
Proof.
  constructor; simpl; intros; simplify_eq; eauto.
  - destruct (toy_tag_shape nonce). unfold tag_len. rewrite len_app. unfold len at 2.
    split; [lia|]. by apply is_bytes_app.
  - destruct (toy_tag_shape nonce) as [Ht _]. rewrite length_app, Ht, Nat.add_sub.
    rewrite drop_app_length, take_app_length. by rewrite decide_True.
  - case_decide; simplify_eq. auto with width_db.
  - split; [rewrite len_replicate; destruct alg; simpl; lia|].
    apply is_bytes_replicate. width.
Qed.

#[export] Instance toy_random : SystemRandom Z :=
  {| fill n r := (Some (replicate (Z.to_nat n) (as_u8 r)), r + 1) |}.

Lemma toy_aead_wf : aead_wf (aead.mkAead Aes128Gcm (replicate 16 1) (replicate 12 2)).
Proof. done. Qed.
Lemma toy_cbc_wf : cipher_wf (Cbc (cbc_new (replicate 16 3) [] HmacSha1)).
Proof. split; [by left|done]. Qed.

#[export] Instance toy_random_laws : SystemRandomLaws Z.
Proof.
  constructor; simpl.
  - intros n r b Hn [= <-]. rewrite len_replicate, Z2Nat.id by done. split; [done|].
    apply is_bytes_replicate. width.
  - eauto.
Qed.

Lemma in_sync_new : in_sync writer_new reader_new.
Proof. by constructor; simpl; try width. Qed.

Definition toy_aead : aead.Aead := aead.mkAead Aes128Gcm (replicate 16 1) (replicate 12 2).
Definition toy_session : list Op :=
  [OWrite content_type.HANDSHAKE [1; 2; 3]; OKeys toy_aead; OWrite content_type.HANDSHAKE [];
   OWrite content_type.APPLICATION_DATA [4; 0]; OKeys12 (Cbc (cbc_new (replicate 16 3) [] HmacSha1));
   OWrite content_type.APPLICATION_DATA [5]].


Lemma reader_total_chunk_invariant_witness :
  exists ps o rd1,
    feed_pieces (C := toy_crypto) reader_new [[22; 3; 3; 0]; [1; 9; 23; 3]; [3; 255; 255]] = (ps, o, rd1) /\
    o <> Panic /\ Forall record_ok ps.
Proof.
  do 3 eexists. split; [vm_compute; reflexivity|].
  edestruct (reader_total_chunk_invariant (C := toy_crypto)
    [[22; 3; 3; 0]; [1; 9; 23; 3]; [3; 255; 255]] reader_new) as (H1 & H2 & _);
    [split; [constructor|simpl; width]|repeat constructor; width|vm_compute; reflexivity|].
  split; [exact H1|exact H2].
Defined.

Lemma nonces_never_reused_witness :
  let w := writer_set_keys writer_new toy_aead in
  let recs := emitted (C := toy_crypto) w [(23, [1]); (22, [2; 3])] 0 in
  len recs = 2 /\
  exists nonces, NoDup nonces /\ Forall2 (sealed_under (C := toy_crypto) Aes128Gcm (replicate 16 1)) recs nonces.
Proof.
  intros w recs. split; [reflexivity|].
  refine (proj2 (nonces_never_reused (C := toy_crypto) [(23, [1]); (22, [2; 3])] w
    (reader_set_keys reader_new toy_aead) 0 Aes128Gcm (replicate 16 1) (aead.make_nonce toy_aead) _ eq_refl)).
  constructor; simpl; try done; width.
Defined.

Lemma plaintext_record_accepted_under_keys_witness :
  next_record (C := toy_crypto) (reader_with_buf (reader_set_keys reader_new toy_aead)
      (header_to_bytes (mkHeader content_type.HANDSHAKE 0x0303 2) ++ [8; 0] ++ [])) =
    (Ok (Some {| pr_content_type := content_type.HANDSHAKE; pr_payload := [8; 0] |}),
     reader_with_buf (reader_set_keys reader_new toy_aead) []).
Proof.
  apply (plaintext_record_accepted_under_keys (C := toy_crypto)
    (reader_set_keys reader_new toy_aead) toy_aead content_type.HANDSHAKE 0x0303 [8; 0] []);
    [reflexivity|reflexivity|discriminate|width|unfold MAX_RECORD_PAYLOAD; slen].
Defined.
