(* ===== verification/TlsProfile.v ===== *)
(** * TLS fingerprint profiles (lktls/src/profile/types.rs)

    The data that drives the ClientHello builder.  A Rust [String] is its bytes;
    [serde] derives are left out.  Field names carry a prefix where two structs
    share one. *)
From S2P Require Import Prelude.

Module types.

Inductive TlsClientHelloStyle : Type :=
| Generic
| ChromiumBoringssl
| FirefoxNss
| SafariCfnetwork
| JavaJsse.

Inductive ExtensionSource : Type :=
| Auto
| RawBytes (data : bytes)
| Grease.

Record ExtensionSpec : Type := mkSpec {
  extension_type : Z;
  source : ExtensionSource;
}.

Record GreaseConfig : Type := mkGreaseConfig {
  g_cipher_suite : bool;
  g_extensions : bool;
  g_supported_groups : bool;
  g_supported_versions : bool;
  g_signature_algorithms : bool;
  g_key_share : bool;
}.

Inductive PaddingStrategy : Type :=
| BlockAlign (min_length block_size : Z)
| FixedTarget (target_length : Z)
| PadNone.

Record DelegatedCredentialConfig : Type := mkDelegated { dc_signature_algorithms : list Z }.

Record EchGreaseConfig : Type := mkEchGrease {
  kdf_id : Z;
  aead_id : Z;
  enc_length : Z;
  payload_length_min : option Z;
  payload_length_max : option Z;
}.

Inductive EchMode : Type :=
| EchGrease (c : EchGreaseConfig)
| EchReal (ech_config_list : bytes)
| EchDisabled.

Inductive TlsVersion : Type := Tls10 | Tls11 | Tls12 | Tls13.

Definition version_as_u16 (v : TlsVersion) : Z :=
  match v with Tls10 => 0x0301 | Tls11 => 0x0302 | Tls12 => 0x0303 | Tls13 => 0x0304 end.

Record SessionResumptionConfig : Type := mkResumption {
  tls13_psk : bool;
  tls12_session_ticket : bool;
  max_tickets_per_host : option Z;
  store_tickets : bool;
}.

Definition resumption_default : SessionResumptionConfig :=
  {| tls13_psk := true; tls12_session_ticket := true; max_tickets_per_host := None;
     store_tickets := true |}.
Definition resumption_disabled : SessionResumptionConfig :=
  {| tls13_psk := false; tls12_session_ticket := false; max_tickets_per_host := None;
     store_tickets := false |}.
Definition any_enabled (c : SessionResumptionConfig) : bool :=
  tls13_psk c || tls12_session_ticket c.

(** [RandomizationConfig { shuffle_extensions }]. *)
Record RandomizationConfig : Type := mkRandomization { shuffle_flag : bool }.

Definition NON_SHUFFLEABLE_EXTENSIONS : list Z := [0x0029].
Definition is_shuffleable (ext_type : Z) : bool :=
  negb (existsb (Z.eqb ext_type) NON_SHUFFLEABLE_EXTENSIONS).

Record TlsProfile : Type := mkTlsProfile {
  name : bytes;
  tls_client_hello_style : TlsClientHelloStyle;
  tls_min_version : TlsVersion;
  tls_max_version : TlsVersion;
  cipher_suites : list Z;
  extensions : list ExtensionSpec;
  supported_groups : list Z;
  signature_algorithms : list Z;
  ec_point_formats : bytes;
  compression_methods : bytes;
  grease : GreaseConfig;
  padding : PaddingStrategy;
  alps_protocols : option (list bytes);
  compress_cert_algorithms : option (list Z);
  key_share_curves : list Z;
  record_size_limit : option Z;
  delegated_credentials : option DelegatedCredentialConfig;
  session_id_length : Z;
  alpn_protocols : list bytes;
  randomization : option RandomizationConfig;
  ech : option EchMode;
  ech_outer_extensions : option (list Z);
  session_resumption : SessionResumptionConfig;
}.

#[export] Instance style_eq_dec : EqDecision TlsClientHelloStyle.
Proof. solve_decision. Defined.
#[export] Instance source_eq_dec : EqDecision ExtensionSource.
Proof. solve_decision. Defined.
#[export] Instance spec_eq_dec : EqDecision ExtensionSpec.
Proof. solve_decision. Defined.
#[export] Instance version_eq_dec : EqDecision TlsVersion.
Proof. solve_decision. Defined.
#[export] Instance grease_config_eq_dec : EqDecision GreaseConfig.
Proof. solve_decision. Defined.

(** Extension type code points ([mod ext_type]). *)
Module ext_type.
Definition SNI : Z := 0x0000.
Definition EC_POINT_FORMATS : Z := 0x000b.
Definition SUPPORTED_GROUPS : Z := 0x000a.
Definition SESSION_TICKET : Z := 0x0023.
Definition ENCRYPT_THEN_MAC : Z := 0x0016.
Definition EXTENDED_MASTER_SECRET : Z := 0x0017.
Definition SIGNATURE_ALGORITHMS : Z := 0x000d.
Definition SUPPORTED_VERSIONS : Z := 0x002b.
Definition PSK_KEY_EXCHANGE_MODES : Z := 0x002d.
Definition KEY_SHARE : Z := 0x0033.
Definition ALPN : Z := 0x0010.
Definition STATUS_REQUEST : Z := 0x0005.
Definition SIGNED_CERTIFICATE_TIMESTAMP : Z := 0x0012.
Definition COMPRESS_CERTIFICATE : Z := 0x001b.
Definition APPLICATION_SETTINGS : Z := 0x4469.
Definition APPLICATION_SETTINGS_NEW : Z := 0x44cd.
Definition RENEGOTIATION_INFO : Z := 0xff01.
Definition DELEGATED_CREDENTIALS : Z := 0x0022.
Definition RECORD_SIZE_LIMIT : Z := 0x001c.
Definition PADDING : Z := 0x0015.
Definition COOKIE : Z := 0x002c.
Definition EARLY_DATA : Z := 0x002a.
Definition PRE_SHARED_KEY : Z := 0x0029.
Definition QUIC_TRANSPORT_PARAMETERS : Z := 0x0039.
Definition ENCRYPTED_CLIENT_HELLO : Z := 0xFE0D.
End ext_type.

End types.
