(* ===== verification/TlsExtensions.v ===== *)
(** * TLS extension encoders and decoders (lktls/src/extensions)

    The trait [Extension] is a class; an encoder that appends to a buffer is the
    byte string it appends.  [encode] is the trait's provided method.  The GREASE
    ECH payload draws random bytes, so it returns them with the generator. *)
From S2P Require Import Prelude TlsError TlsCipher TlsProfile Hpack.
Import error types.

(** [expect("system RNG failed")]: a failing generator panics. *)
Definition fill_expect {E R} `{SystemRandom R} (n : Z) (r : R) : Outcome E (bytes * R) :=
  match fill n r with
  | (Some b, r) => Ok (b, r)
  | (None, _) => Panic
  end.

Class Extension (A : Type) : Type := {
  ext_extension_type : A -> Z;
  encode_payload : A -> bytes;
}.

(** The four header bytes, then the payload. *)
Definition encode_raw (etype : Z) (payload : bytes) : bytes :=
  be16 etype ++ be16 (as_u16 (len payload)) ++ payload.

Definition encode {A} `{Extension A} (a : A) : bytes :=
  encode_raw (ext_extension_type a) (encode_payload a).

(** [for &x in list { buf.extend_from_slice(&x.to_be_bytes()) }]. *)
Definition be16s (l : list Z) : bytes := concat (be16 <$> l).

Module extensions.

(** ** alpn.rs, alps.rs *)

(** [sum] of [1 + p.len()], and the length-prefixed names. *)
Definition protocols_len (l : list bytes) : Z := foldr (fun p n => 1 + len p + n) 0 l.
Definition encode_protocols (l : list bytes) : bytes :=
  be16 (as_u16 (protocols_len l)) ++ concat ((fun p => as_u8 (len p) :: p) <$> l).

Record Alpn : Type := mkAlpn { alpn_list : list bytes }.
#[export] Instance Alpn_ext : Extension Alpn :=
  {| ext_extension_type _ := 0x0010; encode_payload a := encode_protocols (alpn_list a) |}.

Record Alps : Type := mkAlps { alps_type : Z; alps_list : list bytes }.
#[export] Instance Alps_ext : Extension Alps :=
  {| ext_extension_type := alps_type; encode_payload a := encode_protocols (alps_list a) |}.

Definition parse_server_alpn (data : bytes) : option bytes :=
  match data with
  | _ :: _ :: n :: rest =>
      if (len data <? 4) || (len data <? 3 + n) then None
      else let name := take_z n rest in if is_utf8 name then Some name else None
  | _ => None
  end.

(** The loop of [parse_alpn_list] on the bytes of the list; each round consumes
    at least one of them. *)
Fixpoint parse_alpn_loop (fuel : nat) (l : bytes) (acc : list bytes) : option (list bytes) :=
  match l, fuel with
  | [], _ => Some acc
  | _, O => None
  | n :: l, S fuel =>
      if len l <? n then None
      else
        let name := take_z n l in
        parse_alpn_loop fuel (drop_z n l) (if is_utf8 name then acc ++ [name] else acc)
  end.

Definition parse_alpn_list (data : bytes) : option (list bytes) :=
  match data with
  | a :: b :: rest =>
      let list_len := from_be16 a b in
      if len data <? 2 + list_len then None
      else parse_alpn_loop (Z.to_nat list_len) (take_z list_len rest) []
  | _ => None
  end.

(** ** Lists of 16-bit values with an 8- or 16-bit length *)

Record CompressCertificate : Type := mkCompressCert { cc_algorithms : list Z }.
#[export] Instance CompressCertificate_ext : Extension CompressCertificate :=
  {| ext_extension_type _ := 0x001b;
     encode_payload a := as_u8 (len (cc_algorithms a) * 2) :: be16s (cc_algorithms a) |}.

Record DelegatedCredentials : Type := mkDelegatedExt { dce_algorithms : list Z }.
#[export] Instance DelegatedCredentials_ext : Extension DelegatedCredentials :=
  {| ext_extension_type _ := 0x0022;
     encode_payload a :=
       be16 (as_u16 (len (dce_algorithms a) * 2)) ++ be16s (dce_algorithms a) |}.

Record SignatureAlgorithms : Type := mkSigAlgs { sa_algorithms : list Z }.
#[export] Instance SignatureAlgorithms_ext : Extension SignatureAlgorithms :=
  {| ext_extension_type _ := 0x000d;
     encode_payload a :=
       be16 (as_u16 (len (sa_algorithms a) * 2)) ++ be16s (sa_algorithms a) |}.

Record SupportedGroups : Type := mkGroups { sg_groups : list Z }.
#[export] Instance SupportedGroups_ext : Extension SupportedGroups :=
  {| ext_extension_type _ := 0x000a;
     encode_payload a := be16 (as_u16 (len (sg_groups a) * 2)) ++ be16s (sg_groups a) |}.

Record SupportedVersions : Type := mkVersions { sv_versions : list Z }.
#[export] Instance SupportedVersions_ext : Extension SupportedVersions :=
  {| ext_extension_type _ := 0x002b;
     encode_payload a := as_u8 (len (sv_versions a) * 2) :: be16s (sv_versions a) |}.

Definition parse_server_version (data : bytes) : option Z :=
  match data with a :: b :: _ => Some (from_be16 a b) | _ => None end.

(** [u16]s of consecutive pairs, a last odd byte dropped. *)
Fixpoint pairs16 (l : bytes) : list Z :=
  match l with
  | a :: b :: l => from_be16 a b :: pairs16 l
  | _ => []
  end.

Definition parse_client_versions (data : bytes) : option (list Z) :=
  match data with
  | [] => None
  | n :: rest =>
      if (len data <? 1 + n) || negb (n mod 2 =? 0) then None
      else Some (pairs16 (take_z n rest))
  end.

Record EchOuterExtensionsExtension : Type := mkEchOuterExts { eoe_types : list Z }.
Definition ECH_OUTER_EXTENSIONS_TYPE : Z := 0xFD00.
#[export] Instance EchOuterExtensions_ext : Extension EchOuterExtensionsExtension :=
  {| ext_extension_type _ := ECH_OUTER_EXTENSIONS_TYPE;
     encode_payload a := as_u8 (len (eoe_types a) * 2) :: be16s (eoe_types a) |}.

(** ** Byte lists and fixed payloads *)

Record EcPointFormats : Type := mkEcPointFormats { epf_formats : bytes }.
#[export] Instance EcPointFormats_ext : Extension EcPointFormats :=
  {| ext_extension_type _ := 0x000b;
     encode_payload a := as_u8 (len (epf_formats a)) :: epf_formats a |}.

Definition PSK_KE : Z := 0x00.
Definition PSK_DHE_KE : Z := 0x01.
Record PskKeyExchangeModes : Type := mkPskModes { pkem_modes : bytes }.
#[export] Instance PskKeyExchangeModes_ext : Extension PskKeyExchangeModes :=
  {| ext_extension_type _ := 0x002d;
     encode_payload a := as_u8 (len (pkem_modes a)) :: pkem_modes a |}.

Record RenegotiationInfo : Type := mkRenegotiation { renegotiated_connection : bytes }.
Definition renegotiation_initial : RenegotiationInfo := {| renegotiated_connection := [] |}.
#[export] Instance RenegotiationInfo_ext : Extension RenegotiationInfo :=
  {| ext_extension_type _ := 0xff01;
     encode_payload a :=
       as_u8 (len (renegotiated_connection a)) :: renegotiated_connection a |}.

Record SessionTicket : Type := mkSessionTicket { st_data : bytes }.
Definition session_ticket_empty : SessionTicket := {| st_data := [] |}.
#[export] Instance SessionTicket_ext : Extension SessionTicket :=
  {| ext_extension_type _ := 0x0023; encode_payload := st_data |}.

Inductive EncryptThenMac : Type := mkEtm.
#[export] Instance EncryptThenMac_ext : Extension EncryptThenMac :=
  {| ext_extension_type _ := 0x0016; encode_payload _ := [] |}.

Inductive ExtendedMasterSecret : Type := mkEms.
#[export] Instance ExtendedMasterSecret_ext : Extension ExtendedMasterSecret :=
  {| ext_extension_type _ := 0x0017; encode_payload _ := [] |}.

Inductive SignedCertificateTimestamp : Type := mkSct.
#[export] Instance SignedCertificateTimestamp_ext : Extension SignedCertificateTimestamp :=
  {| ext_extension_type _ := 0x0012; encode_payload _ := [] |}.

Inductive StatusRequest : Type := mkStatusRequest.
#[export] Instance StatusRequest_ext : Extension StatusRequest :=
  {| ext_extension_type _ := 0x0005; encode_payload _ := [0x01; 0x00; 0x00; 0x00; 0x00] |}.

Record Padding : Type := mkPadding { padding_len : Z }.
#[export] Instance Padding_ext : Extension Padding :=
  {| ext_extension_type _ := 0x0015;
     encode_payload a := replicate (Z.to_nat (padding_len a)) 0 |}.

Record RecordSizeLimit : Type := mkRecordSizeLimit { rsl_limit : Z }.
#[export] Instance RecordSizeLimit_ext : Extension RecordSizeLimit :=
  {| ext_extension_type _ := 0x001c; encode_payload a := be16 (rsl_limit a) |}.

Definition parse_record_size_limit (data : bytes) : option Z :=
  match data with a :: b :: _ => Some (from_be16 a b) | _ => None end.

Record Sni : Type := mkSni { sni_hostname : bytes }.
#[export] Instance Sni_ext : Extension Sni :=
  {| ext_extension_type _ := 0x0000;
     encode_payload a :=
       let name_len := as_u16 (len (sni_hostname a)) in
       be16 (as_u16 (3 + name_len)) ++ [0x00] ++ be16 name_len ++ sni_hostname a |}.

Record GenericExtension : Type := mkGeneric { ge_type : Z; ge_payload : bytes }.
Definition generic_empty (t : Z) : GenericExtension := {| ge_type := t; ge_payload := [] |}.
#[export] Instance GenericExtension_ext : Extension GenericExtension :=
  {| ext_extension_type := ge_type; encode_payload := ge_payload |}.

(** ** key_share.rs *)

Record KeyShareEntry : Type := mkEntry { ks_group : Z; ks_key_data : bytes }.
Record KeyShare : Type := mkKeyShare { ks_entries : list KeyShareEntry }.

Definition entries_len (l : list KeyShareEntry) : Z :=
  foldr (fun e n => 2 + 2 + len (ks_key_data e) + n) 0 l.
Definition encode_entry (e : KeyShareEntry) : bytes :=
  be16 (ks_group e) ++ be16 (as_u16 (len (ks_key_data e))) ++ ks_key_data e.
#[export] Instance KeyShare_ext : Extension KeyShare :=
  {| ext_extension_type _ := 0x0033;
     encode_payload a :=
       be16 (as_u16 (entries_len (ks_entries a))) ++ concat (encode_entry <$> ks_entries a) |}.

Definition parse_server_key_share (data : bytes) : option (Z * bytes) :=
  match data with
  | a :: b :: c :: d :: rest =>
      let key_len := from_be16 c d in
      if len data <? 4 + key_len then None else Some (from_be16 a b, take_z key_len rest)
  | _ => None
  end.

Definition parse_hrr_selected_group (data : bytes) : option Z :=
  match data with a :: b :: _ => Some (from_be16 a b) | _ => None end.

(** ** grease.rs *)

Definition seed_to_grease (seed : Z) : Z :=
  let byte := Z.lor (Z.land seed 0xf0) 0x0a in
  Z.lor byte (as_u16 (byte ≪ 8)).

Inductive GreaseIndex : Type :=
| GCipher | GGroup | GExtension1 | GExtension2 | GVersion | GTicketExtension | GEchConfigId.

Definition grease_index (i : GreaseIndex) : nat :=
  match i with
  | GCipher => 0 | GGroup => 1 | GExtension1 => 2 | GExtension2 => 3 | GVersion => 4
  | GTicketExtension => 5 | GEchConfigId => 6
  end.

(** [seeds: [u8; 7]]. *)
Record GreaseValues : Type := mkGreaseValues { seeds : list Z }.

Definition grease_values_new {E R} `{SystemRandom R} (r : R) : Outcome E (GreaseValues * R) :=
  '(b, r) ← fill_expect 7 r; Ok ({| seeds := b |}, r).

Definition raw_seed (g : GreaseValues) (i : GreaseIndex) : Z :=
  default 0 (seeds g !! grease_index i).

Definition grease_get (g : GreaseValues) (i : GreaseIndex) : Z :=
  let value := seed_to_grease (raw_seed g i) in
  match i with
  | GExtension2 =>
      if value =? seed_to_grease (raw_seed g GExtension1) then Z.lxor value 0x1010 else value
  | _ => value
  end.

Record GreaseExtension : Type := mkGreaseExt { grease_value : Z; grease_payload_len : Z }.
#[export] Instance GreaseExtension_ext : Extension GreaseExtension :=
  {| ext_extension_type := grease_value;
     encode_payload a := replicate (Z.to_nat (grease_payload_len a)) 0x00 |}.

(** ** ech.rs *)

Definition ECH_EXTENSION_TYPE : Z := 0xFE0D.

Definition from_le32 (b : bytes) : Z :=
  foldr (fun x acc => x + 256 * acc) 0 b.

(** Release-mode [u32]/[u16] arithmetic; the panic is the remainder by zero of a
    range that wrapped to 0. *)
Definition compute_grease_payload_length {E R} `{SystemRandom R} (config : EchGreaseConfig) (r : R)
    : Outcome E (Z * R) :=
  let min := default 128 (payload_length_min config) in
  let max := default 224 (payload_length_max config) in
  let min_units := min / 32 in
  let max_units := max / 32 in
  let range := as_u32 (max_units - min_units + 1) in
  '(b, r) ← fill_expect 4 r;
  if range =? 0 then Panic else
  let random_unit := as_u32 (min_units + from_le32 b mod range) in
  Ok (as_u16 (as_u16 (as_u32 (random_unit * 32)) + 16), r).

(** The outer ECH structure, random in GREASE and real otherwise. *)
Definition ech_outer_payload (kdf aead config_id enc_length : Z) (enc : bytes)
    (payload_length : Z) (payload : bytes) : bytes :=
  [0x00] ++ be16 kdf ++ be16 aead ++ [config_id] ++ be16 enc_length ++ enc ++
  be16 payload_length ++ payload.

(** [EchGreaseExtension::new(..).encode(buf)]. *)
Definition encode_ech_grease {E R} `{SystemRandom R} (config : EchGreaseConfig) (config_id : Z) (r : R)
    : Outcome E (bytes * R) :=
  '(payload_length, r) ← compute_grease_payload_length config r;
  '(enc, r) ← fill_expect (enc_length config) r;
  '(payload, r) ← fill_expect payload_length r;
  Ok (encode_raw ECH_EXTENSION_TYPE
        (ech_outer_payload (kdf_id config) (aead_id config) config_id (enc_length config) enc
           payload_length payload), r).

Record EchRealOuterExtension : Type := mkEchReal {
  er_kdf_id : Z; er_aead_id : Z; er_config_id : Z; er_enc : bytes; er_payload : bytes }.
#[export] Instance EchRealOuter_ext : Extension EchRealOuterExtension :=
  {| ext_extension_type _ := ECH_EXTENSION_TYPE;
     encode_payload a :=
       ech_outer_payload (er_kdf_id a) (er_aead_id a) (er_config_id a)
         (as_u16 (len (er_enc a))) (er_enc a) (as_u16 (len (er_payload a))) (er_payload a) |}.

Inductive EchInnerExtension : Type := mkEchInner.
#[export] Instance EchInner_ext : Extension EchInnerExtension :=
  {| ext_extension_type _ := ECH_EXTENSION_TYPE; encode_payload _ := [0x01] |}.

(** ** pre_shared_key.rs *)

Definition PRE_SHARED_KEY_TYPE : Z := 0x0029.

Record PskIdentity : Type := mkPskIdentity { psk_identity : bytes; obfuscated_ticket_age : Z }.

Definition encode_identity (i : PskIdentity) : bytes :=
  be16 (as_u16 (len (psk_identity i))) ++ psk_identity i ++ be32 (obfuscated_ticket_age i).

(** The extension with zero binders, and the offset of the first binder. *)
Definition encode_psk_extension (identities : list PskIdentity) (binder_len : Z) : bytes * Z :=
  let ids := concat (encode_identity <$> identities) in
  let before := be16 (as_u16 (len ids)) ++ ids ++
                be16 (as_u16 (len identities * (1 + binder_len))) in
  let binder := as_u8 binder_len :: replicate (Z.to_nat binder_len) 0 in
  let data := before ++ concat (replicate (length identities) binder) in
  (be16 PRE_SHARED_KEY_TYPE ++ be16 (as_u16 (len data)) ++ data,
   if is_empty identities then 0 else 4 + len before + 1).

Definition binders_size (num_identities binder_len : Z) : Z :=
  2 + num_identities * (1 + binder_len).

Definition psk_extension_length (identity_len binder_len : Z) : Z :=
  2 + 2 + 2 + 2 + identity_len + 4 + 2 + 1 + binder_len.

Definition parse_server_psk (data : bytes) : Outcome TlsError Z :=
  match data with
  | a :: b :: _ => Ok (from_be16 a b)
  | _ => Err (HandshakeFailure "pre_shared_key server extension too short")
  end.

End extensions.
