(* ===== verification/QuicParams.v ===== *)
(** * QUIC transport parameters (lktls/src/extensions/quic_transport_params.rs)

    Variable-length integers and the ordered parameter list.  A position that
    advances through a slice is the slice that remains.  [encode_varint] panics
    above 2^62 - 1. *)
From S2P Require Import Prelude TlsError.
Import error.

Module quic_transport_params.

Record QuicTransportParam : Type := mkParam { id : Z; value : bytes }.
Abbreviation QuicTransportParams := (list QuicTransportParam).

(** [find(|p| p.id == id).map(|p| p.value)]. *)
Fixpoint params_get (l : QuicTransportParams) (i : Z) : option bytes :=
  match l with
  | [] => None
  | p :: l => if id p =? i then Some (value p) else params_get l i
  end.

Definition encode_varint (v : Z) : option bytes :=
  if v <=? 63 then Some [as_u8 v]
  else if v <=? 16383 then Some (be16 (Z.lor 0x4000 (as_u16 v)))
  else if v <=? 1073741823 then Some (be32 (Z.lor 0x80000000 (as_u32 v)))
  else if v <=? 4611686018427387903 then Some (be64 (Z.lor 0xC000000000000000 v))
  else None.

Definition truncated_varint : TlsError := UnexpectedMessage "truncated QUIC varint".

Definition varint_len (first : Z) : Z :=
  match first ≫ 6 with 0 => 1 | 1 => 2 | 2 => 4 | _ => 8 end.

(** The value and the bytes after it. *)
Definition decode_varint (data : bytes) : Outcome TlsError (Z * bytes) :=
  match data with
  | [] => Err truncated_varint
  | first :: rest =>
      let n := varint_len first in
      if len data <? n then Err truncated_varint
      else Ok (foldl (fun v b => Z.lor (as_u64 (v ≪ 8)) b) (Z.land first 0x3f) (take_z (n - 1) rest),
               drop_z (n - 1) rest)
  end.

Fixpoint encode_transport_params (params : QuicTransportParams) : option bytes :=
  match params with
  | [] => Some []
  | p :: params =>
      i ← encode_varint (id p);
      n ← encode_varint (as_u64 (len (value p)));
      rest ← encode_transport_params params;
      Some (i ++ n ++ value p ++ rest)
  end.

(** Each round consumes at least a byte: the length is enough fuel. *)
Fixpoint decode_loop (fuel : nat) (data : bytes) : Outcome TlsError QuicTransportParams :=
  match data, fuel with
  | [], _ => Ok []
  | _, O => Panic
  | _, S fuel =>
      '(i, data) ← decode_varint data;
      '(value_len, data) ← decode_varint data;
      if len data <? value_len then
        Err (UnexpectedMessage "QUIC transport parameter exceeds payload length")
      else
        rest ← decode_loop fuel (drop_z value_len data);
        Ok ({| id := i; value := take_z value_len data |} :: rest)
  end.

Definition decode_transport_params (data : bytes) : Outcome TlsError QuicTransportParams :=
  decode_loop (length data) data.

(** ** Variable-length integers *)

Definition varint_ok (v : Z) : Prop := 0 <= v < 4611686018427387904.

Lemma varint_fold_step v b : 0 <= v < 72057594037927936 -> u8 b ->
  Z.lor (as_u64 (v ≪ 8)) b = v * 256 + b.
Proof.
  intros Hv Hb. rewrite shiftl_mul by done. change (2 ^ 8) with 256.
  unfold as_u64. rewrite Z.mod_small by lia.
  apply (lor_add_aligned _ _ 8); [done|apply Z_mod_mult|apply Hb].
Qed.

Lemma varint_fold4 v a b c d : 0 <= v < 4294967296 -> u8 a -> u8 b -> u8 c -> u8 d ->
  foldl (fun v b => Z.lor (as_u64 (v ≪ 8)) b) v [a; b; c; d] = v * 4294967296 + from_be32 a b c d.
Proof.
  intros Hv Ha Hb Hc Hd. cbn [foldl].
  rewrite (varint_fold_step v a) by width.
  rewrite (varint_fold_step (v * 256 + a) b) by width.
  rewrite (varint_fold_step ((v * 256 + a) * 256 + b) c) by width.
  rewrite (varint_fold_step (((v * 256 + a) * 256 + b) * 256 + c) d) by width.
  rewrite from_be32_arith by done. lia.
Qed.

(** The two marker bits and the six value bits of a first byte. *)
Lemma first_byte_split m x : 0 <= m < 4 -> 0 <= x < 64 ->
  (m * 64 + x) ≫ 6 = m /\ Z.land (m * 64 + x) 0x3f = x.
Proof.
  intros Hm Hx. split.
  - rewrite shiftr_div by done. change (2 ^ 6) with 64. width.
  - change 0x3f with (Z.ones 6). rewrite Z.land_ones by done. change (2 ^ 6) with 64. width.
Qed.

(** The head of a big-endian word that carries the marker [m] above a value. *)
Lemma decode_varint_word m n (b0 x : Z) (l rest : bytes) :
  0 <= m < 4 -> 0 <= x < 64 -> b0 = m * 64 + x ->
  n = match m with 0 => 1 | 1 => 2 | 2 => 4 | _ => 8 end -> len l = n - 1 ->
  decode_varint (b0 :: l ++ rest) =
    Ok (foldl (fun v b => Z.lor (as_u64 (v ≪ 8)) b) x l, rest).
Proof.
  intros Hm Hx -> Hn Hl. unfold decode_varint, varint_len.
  destruct (first_byte_split m x Hm Hx) as [-> ->]. rewrite <- Hn.
  destruct (Z.ltb_spec (len (m * 64 + x :: l ++ rest)) n); [slen|].
  by rewrite <- Hl, take_z_app_len, drop_z_app_len.
Qed.

Lemma decode_varint2 v rest : 0 <= v < 16384 ->
  decode_varint (be16 (Z.lor 0x4000 v) ++ rest) = Ok (v, rest).
Proof.
  intros Hv. rewrite (lor_add_aligned 0x4000 v 14) by (done || lia).
  assert (as_u8 ((0x4000 + v) ≫ 8) = 1 * 64 + v / 256) as E.
  { rewrite shiftr_div by done. change (2 ^ 8) with 256. width. }
  unfold be16. cbn [app].
  rewrite (decode_varint_word 1 2 _ (v / 256) [as_u8 (0x4000 + v)] rest) by (done || width).
  cbn [foldl]. rewrite varint_fold_step by width. do 2 f_equal. width.
Qed.

Lemma decode_varint4 v rest : 0 <= v < 1073741824 ->
  decode_varint (be32 (Z.lor 0x80000000 v) ++ rest) = Ok (v, rest).
Proof.
  intros Hv. rewrite (lor_add_aligned 0x80000000 v 30) by (done || lia).
  set (w := 0x80000000 + v). assert (u32 w) as Hw by (unfold w; width).
  pose proof (from_be32_be32 w Hw) as Hbe. rewrite from_be32_arith in Hbe by width.
  assert (as_u8 (w ≫ 24) = 2 * 64 + v / 16777216) as E.
  { rewrite shiftr_div by done. change (2 ^ 24) with 16777216. unfold w. width. }
  unfold be32. cbn [app].
  rewrite (decode_varint_word 2 4 _ (v / 16777216) [as_u8 (w ≫ 16); as_u8 (w ≫ 8); as_u8 w] rest)
    by (done || width).
  cbn [foldl].
  rewrite (varint_fold_step (v / 16777216)) by width.
  rewrite (varint_fold_step (v / 16777216 * 256 + _)) by width.
  rewrite varint_fold_step by width. do 2 f_equal. unfold w in *. lia.
Qed.

Lemma decode_varint8 v rest : 0 <= v < 4611686018427387904 ->
  decode_varint (be64 (Z.lor 0xC000000000000000 v) ++ rest) = Ok (v, rest).
Proof.
  intros Hv. rewrite (lor_add_aligned 0xC000000000000000 v 62) by (done || lia).
  set (w := 0xC000000000000000 + v).
  assert (u32 (w ≫ 32)) as Hhi.
  { rewrite shiftr_div by done. change (2 ^ 32) with 4294967296. unfold w. width. }
  assert (u32 (as_u32 w)) as Hlo by width.
  assert (w = (w ≫ 32) * 4294967296 + as_u32 w) as Hsplit.
  { rewrite shiftr_div by done. change (2 ^ 32) with 4294967296. width. }
  pose proof (from_be32_be32 _ Hhi) as Hbe1. pose proof (from_be32_be32 _ Hlo) as Hbe2.
  unfold be64, be32. cbn [app]. set (hi := w ≫ 32) in *. set (lo := as_u32 w) in *.
  rewrite from_be32_arith in Hbe1 by width. unfold w in Hsplit. clearbody hi lo. clear w.
  pose proof (as_u8_range (hi ≫ 16)) as R1. pose proof (as_u8_range (hi ≫ 8)) as R2.
  pose proof (as_u8_range hi) as R3. unfold u8, u32 in *.
  assert (as_u8 (hi ≫ 24) = 3 * 64 + v / 72057594037927936) as E.
  { rewrite shiftr_div by done. change (2 ^ 24) with 16777216. clear - Hsplit Hlo Hhi Hv. width. }
  assert (0 <= v / 72057594037927936 < 64) as Hx by (clear - Hv; width).
  change (as_u8 (lo ≫ 24) :: as_u8 (lo ≫ 16) :: as_u8 (lo ≫ 8) :: as_u8 lo :: rest) with
    ([as_u8 (lo ≫ 24); as_u8 (lo ≫ 16); as_u8 (lo ≫ 8); as_u8 lo] ++ rest).
  rewrite (decode_varint_word 3 8 _ (v / 72057594037927936)
    ([as_u8 (hi ≫ 16); as_u8 (hi ≫ 8); as_u8 hi] ++
     [as_u8 (lo ≫ 24); as_u8 (lo ≫ 16); as_u8 (lo ≫ 8); as_u8 lo]) rest) by (done || lia).
  rewrite foldl_app.
  assert (foldl (fun v b => Z.lor (as_u64 (v ≪ 8)) b) (v / 72057594037927936)
            [as_u8 (hi ≫ 16); as_u8 (hi ≫ 8); as_u8 hi] = hi - 3221225472) as ->.
  { cbn [foldl].
    rewrite (varint_fold_step (v / 72057594037927936)) by (try apply as_u8_range; lia).
    rewrite (varint_fold_step (v / 72057594037927936 * 256 + _)) by (try apply as_u8_range; lia).
    rewrite varint_fold_step by (try apply as_u8_range; lia). lia. }
  rewrite varint_fold4, Hbe2 by (try apply as_u8_range; lia).
  do 2 f_equal. lia.
Qed.

Lemma decode_encode_varint v out rest : 0 <= v -> encode_varint v = Some out ->
  decode_varint (out ++ rest) = Ok (v, rest).
Proof.
  intros Hv H. unfold encode_varint in H.
  repeat (case_match; simplify_eq); rewrite ?Z.leb_le, ?Z.leb_gt in *.
  - rewrite as_u8_small by width. apply (decode_varint_word 0 1 v v [] rest); done || lia.
  - replace (as_u16 v) with v by width. apply decode_varint2. lia.
  - replace (as_u32 v) with v by width. apply decode_varint4. lia.
  - apply decode_varint8. lia.
Qed.

Lemma encode_varint_total v : encode_varint v <> None <-> v < 4611686018427387904.
Proof.
  unfold encode_varint. repeat case_match; rewrite ?Z.leb_le, ?Z.leb_gt in *;
    split; intros; try done; lia.
Qed.

Lemma encode_varint_nonempty v out : encode_varint v = Some out -> out <> [].
Proof. unfold encode_varint. intros H. by repeat (case_match; simplify_eq). Qed.

(** Decoding survives any input and consumes at least a byte. *)
Lemma decode_varint_safe data :
  outcome_ok (fun '(v, rest) => (length rest < length data)%nat) (decode_varint data).
Proof.
  destruct data as [|b data]; simpl; [done|]. case_match; simpl; [done|].
  unfold drop_z. rewrite length_drop. lia.
Qed.

Lemma decode_loop_total fuel : forall data, (length data <= fuel)%nat ->
  outcome_ok (fun _ => True) (decode_loop fuel data).
Proof.
  induction fuel as [|fuel IH]; intros data Hlen; destruct data as [|b data];
    try done; [simpl in Hlen; lia|]. cbn [decode_loop].
  eapply outcome_ok_bind; [apply (decode_varint_safe (b :: data))|]. intros [i d1] H1. simpl in H1, Hlen.
  eapply outcome_ok_bind; [apply decode_varint_safe|]. intros [n d2] H2.
  case_match; [done|]. eapply outcome_ok_bind; [apply IH|].
  - unfold drop_z. rewrite length_drop. lia.
  - done.
Qed.

Lemma decode_encode_loop params : forall out fuel,
  Forall (fun p => 0 <= id p /\ len (value p) < 4611686018427387904) params ->
  encode_transport_params params = Some out -> (length out <= fuel)%nat ->
  decode_loop fuel out = Ok params.
Proof.
  induction params as [|p params IH]; intros out fuel Hp H Hf; simpl in H;
    [simplify_eq; by destruct fuel|].
  apply Forall_cons in Hp as [[Hi Hl] Hp]. pose proof (len_nonneg (value p)).
  replace (as_u64 (len (value p))) with (len (value p)) in H by width.
  destruct (encode_varint (id p)) as [i|] eqn:Ei; [|done]. simpl in H.
  destruct (encode_varint (len (value p))) as [n|] eqn:En; [|done]. simpl in H.
  destruct (encode_transport_params params) as [rest|] eqn:Er; [|done]. simplify_eq/=.
  rewrite !length_app in Hf. pose proof (encode_varint_nonempty _ _ Ei) as Hne.
  destruct i as [|b i]; [done|]. destruct fuel as [|fuel]; simpl in Hf; [lia|].
  change ((b :: i) ++ n ++ value p ++ rest) with (b :: i ++ n ++ value p ++ rest).
  cbn [decode_loop].
  change (b :: i ++ n ++ value p ++ rest) with ((b :: i) ++ n ++ value p ++ rest).
  rewrite (decode_encode_varint _ _ _ Hi Ei). simpl.
  rewrite (decode_encode_varint _ _ _ (len_nonneg _) En). simpl.
  destruct (Z.ltb_spec (len (value p ++ rest)) (len (value p))); [slen|].
  rewrite drop_z_app_len, take_z_app_len, (IH rest) by (done || lia). simpl. by destruct p.
Qed.

End quic_transport_params.

Import quic_transport_params.

(** Transport parameters round-trip: a list whose ids fit 62 bits encodes
    without panic, and decoding gives back the same parameters in the same
    order; decoding survives any input. *)
Theorem transport_params_roundtrip (params : QuicTransportParams) :
  Forall (fun p => varint_ok (id p) /\ len (value p) < 4611686018427387904) params ->
  (exists out, encode_transport_params params = Some out /\
    decode_transport_params out = Ok params) /\
  forall data, decode_transport_params data <> Panic.
Proof.
  intros Hp. split.
  2: { intros data. pose proof (decode_loop_total (length data) data (le_n _)) as H.
       unfold decode_transport_params. by destruct (decode_loop _ _). }
  assert (exists out, encode_transport_params params = Some out) as [out Hout].
  { clear -Hp. induction Hp as [|p params [Hi Hl] _ [rest IH]]; simpl; [by eexists|].
    pose proof (len_nonneg (value p)).
    replace (as_u64 (len (value p))) with (len (value p)) by width.
    assert (encode_varint (id p) <> None) as H1 by (apply encode_varint_total; apply Hi).
    assert (encode_varint (len (value p)) <> None) as H2 by (by apply encode_varint_total).
    destruct (encode_varint (id p)); [|done]. simpl.
    destruct (encode_varint (len (value p))); [|done]. simpl. rewrite IH. by eexists. }
  exists out. split; [done|]. apply (decode_encode_loop params out); [|done|done].
  eapply Forall_impl; [done|]. intros p [[? _] ?]. done.
Qed.

Lemma transport_params_roundtrip_witness :
  exists out, encode_transport_params [mkParam 1 [5]; mkParam 17011 []; mkParam 4611686018427387903 [1; 2]] = Some out /\
    decode_transport_params out = Ok [mkParam 1 [5]; mkParam 17011 []; mkParam 4611686018427387903 [1; 2]].
Proof.
  refine (proj1 (transport_params_roundtrip
    [mkParam 1 [5]; mkParam 17011 []; mkParam 4611686018427387903 [1; 2]] _)).
  repeat constructor; simpl; try lia; by vm_compute.
Defined.
