(* ===== verification/IpAddr.v ===== *)
(** * Internet addresses of the Rust standard library

    [str::parse::<IpAddr>()], the recursive-descent parser of core::net, and
    [SocketAddr].  A reader takes the remaining
    bytes and, on success, returns its result with what is left; on failure the
    caller still has the input ([read_atomically]). *)
From S2P Require Import Prelude.

Module ip_addr.

Definition reader (A : Type) : Type := bytes -> option (A * bytes).

Definition to_digit (radix c : Z) : option Z :=
  let d := if (48 <=? c) && (c <=? 57) then c - 48
           else if (97 <=? c) && (c <=? 122) then c - 87
           else if (65 <=? c) && (c <=? 90) then c - 55 else 36 in
  if d <? radix then Some d else None.

Definition read_given_char (c : Z) : reader unit := fun s =>
  match s with x :: s => if x =? c then Some (tt, s) else None | [] => None end.

(** The digits of [read_number]: at most [max_digits], below [limit]; an overflow
    or one digit too many fails. *)
Fixpoint read_digits (radix limit : Z) (max_digits : nat) (acc : Z) (count : nat) (s : bytes)
    {struct s} : option (Z * nat * bytes) :=
  match s with
  | c :: rest =>
      match to_digit radix c with
      | Some d =>
          if limit <=? acc * radix + d then None
          else match max_digits with
               | O => None
               | S max_digits => read_digits radix limit max_digits (acc * radix + d) (S count) rest
               end
      | None => Some (acc, count, s)
      end
  | [] => Some (acc, count, s)
  end.

Definition read_number (radix limit : Z) (max_digits : nat) (allow_zero_prefix : bool) : reader Z :=
  fun s =>
  let has_leading_zero := match s with c :: _ => c =? 48 | [] => false end in
  match read_digits radix limit max_digits 0 0 s with
  | Some (v, count, rest) =>
      if (count =? 0)%nat then None
      else if negb allow_zero_prefix && has_leading_zero && (1 <? count)%nat then None
      else Some (v, rest)
  | None => None
  end.

(** The separator is read before every group but the first. *)
Definition read_separator {A} (sep : Z) (first : bool) (inner : reader A) : reader A := fun s =>
  if first then inner s
  else match read_given_char sep s with Some (_, s) => inner s | None => None end.

Fixpoint read_octets (n : nat) (first : bool) (s : bytes) : option (list Z * bytes) :=
  match n with
  | O => Some ([], s)
  | S n =>
      '(o, s) ← read_separator 46 first (read_number 10 256 3 false) s;
      '(os, s) ← read_octets n false s;
      Some (o :: os, s)
  end.

Definition read_ipv4_addr : reader (list Z) := read_octets 4 true.

(** [read_groups] for [limit] groups: what was read, whether the last two came
    from an embedded IPv4 address, and the rest. *)
Fixpoint read_groups (limit : nat) (first : bool) (s : bytes) : list Z * bool * bytes :=
  match limit with
  | O => ([], false, s)
  | S limit' =>
      let number :=
        match read_separator 58 first (read_number 16 65536 4 true) s with
        | Some (g, s) => let '(gs, v4, s) := read_groups limit' false s in (g :: gs, v4, s)
        | None => ([], false, s)
        end in
      match limit' with
      | O => number
      | S _ =>
          match read_separator 58 first read_ipv4_addr s with
          | Some ([a; b; c; d], s) => ([from_be16 a b; from_be16 c d], true, s)
          | _ => number
          end
      end
  end.

(** The eight groups. *)
Definition read_ipv6_addr : reader (list Z) := fun s =>
  let '(head, head_ipv4, s) := read_groups 8 true s in
  if (length head =? 8)%nat then Some (head, s)
  else if head_ipv4 then None
  else
    '(_, s) ← read_given_char 58 s;
    '(_, s) ← read_given_char 58 s;
    let '(tail, _, s) := read_groups (8 - (length head + 1)) true s in
    Some (head ++ replicate (8 - length head - length tail) 0 ++ tail, s).

(** [IpAddr], by its octets. *)
Inductive IpAddr : Type := Ipv4 (octets : bytes) | Ipv6 (octets : bytes).
#[export] Instance IpAddr_eq_dec : EqDecision IpAddr.
Proof. solve_decision. Defined.

(** [parse_with(read_ip_addr)]: the whole string is used. *)
Definition parse_ip_addr (s : bytes) : option IpAddr :=
  match read_ipv4_addr s with
  | Some (octets, rest) => if is_empty rest then Some (Ipv4 octets) else None
  | None => match read_ipv6_addr s with
            | Some (groups, rest) => if is_empty rest then Some (Ipv6 (concat (be16 <$> groups))) else None
            | None => None
            end
  end.
Definition is_ip_addr (s : bytes) : bool := bool_decide (is_Some (parse_ip_addr s)).

Definition is_unspecified (ip : IpAddr) : bool :=
  match ip with Ipv4 o => forallb (Z.eqb 0) o | Ipv6 o => forallb (Z.eqb 0) o end.

(** [SocketAddr]. *)
Record SocketAddr : Type := mkSocketAddr { sa_ip : IpAddr; sa_port : Z }.
#[export] Instance SocketAddr_eq_dec : EqDecision SocketAddr.
Proof. solve_decision. Defined.
Definition is_ipv6 (a : SocketAddr) : bool := match sa_ip a with Ipv6 _ => true | Ipv4 _ => false end.

Definition ip_ok (ip : IpAddr) : Prop :=
  match ip with Ipv4 o => len o = 4 /\ is_bytes o | Ipv6 o => len o = 16 /\ is_bytes o end.
Definition addr_ok (a : SocketAddr) : Prop := ip_ok (sa_ip a) /\ u16 (sa_port a).

(** ** Parsed addresses are well formed *)

Lemma to_digit_nonneg radix c d : to_digit radix c = Some d -> 0 <= d.
Proof. unfold to_digit. repeat case_match; intros [= <-]; lia. Qed.

Lemma read_digits_range radix limit n acc count s v c r : 0 <= radix -> 0 <= acc < limit ->
  read_digits radix limit n acc count s = Some (v, c, r) -> 0 <= v < limit.
Proof.
  intros Hr. revert n acc count. induction s as [|x s IH]; intros n acc count Ha; cbn; [by intros; simplify_eq|].
  destruct (to_digit radix x) as [d|] eqn:Hd; [|by intros; simplify_eq]. apply to_digit_nonneg in Hd.
  destruct (limit <=? acc * radix + d) eqn:Hl; [done|]. destruct n; [done|]. apply IH. nia.
Qed.
Lemma read_number_range radix limit n z s v r : 0 <= radix -> 0 < limit ->
  read_number radix limit n z s = Some (v, r) -> 0 <= v < limit.
Proof.
  intros Hr Hl. unfold read_number. destruct (read_digits _ _ _ _ _ _) as [[[v' c] r']|] eqn:Hd; [|done].
  repeat case_match; intros [= <- <-]; eapply (read_digits_range radix limit); eauto; lia.
Qed.
Lemma read_separator_inv {A} sep first (inner : reader A) s a r :
  read_separator sep first inner s = Some (a, r) -> exists s', inner s' = Some (a, r).
Proof. unfold read_separator. destruct first; [eauto|]. destruct (read_given_char sep s) as [[? ?]|]; [eauto|done]. Qed.

Lemma read_octets_ok n first s os r : read_octets n first s = Some (os, r) -> length os = n /\ is_bytes os.
Proof.
  revert first s os. induction n as [|n IH]; intros first s os; cbn; [intros [= <- <-]; by split; [|constructor]|].
  destruct (read_separator _ _ _ _) as [[o s1]|] eqn:Ho; [|done]. cbn.
  destruct (read_octets n false s1) as [[os' s2]|] eqn:Hos; [|done]. cbn. intros [= <- <-].
  apply read_separator_inv in Ho as [s' Ho%read_number_range]; [|done..]. destruct (IH _ _ _ Hos) as [<- Hb].
  split; [done|]. constructor; [unfold u8; lia|done].
Qed.

Lemma read_groups_ok limit first s gs v4 r : read_groups limit first s = (gs, v4, r) ->
  (length gs <= limit)%nat /\ Forall u16 gs.
Proof.
  revert first s gs v4 r. induction limit as [|limit IH]; intros first s gs v4 r; [intros [= <- <- <-]; by split; [|constructor]|].
  assert (Hnum : forall gs v4 r,
    match read_separator 58 first (read_number 16 65536 4 true) s with
    | Some (g, s) => let '(gs, v4, s) := read_groups limit false s in (g :: gs, v4, s)
    | None => ([], false, s)
    end = (gs, v4, r) -> (length gs <= S limit)%nat /\ Forall u16 gs).
  { intros gs' v4' r'. destruct (read_separator _ _ _ _) as [[g s1]|] eqn:Hg;
      [|intros [= <- <- <-]; split; [cbn; lia|constructor]].
    destruct (read_groups limit false s1) as [[gs1 v1] r1] eqn:Hgs. intros [= <- <- <-].
    apply read_separator_inv in Hg as [s' Hg%read_number_range]; [|done..]. destruct (IH _ _ _ _ _ Hgs) as [Hl Hu].
    split; [cbn; lia|]. constructor; [unfold u16; lia|done]. }
  cbn [read_groups]. destruct limit as [|l]; [apply Hnum|].
  destruct (read_separator 58 first read_ipv4_addr s) as [[os s1]|] eqn:Ho; [|apply Hnum].
  destruct os as [|a [|b [|c [|d [|]]]]]; try apply Hnum. intros [= <- <- <-]. split; [cbn; lia|].
  apply read_separator_inv in Ho as [s' [_ Ho]%read_octets_ok]. unfold is_bytes in Ho. rewrite !Forall_cons in Ho.
  destruct Ho as (Ha & Hb & Hc & Hd & _). repeat constructor; by apply from_be16_range.
Qed.

Lemma be16_groups gs : Forall u16 gs -> len (concat (be16 <$> gs)) = 2 * len gs /\ is_bytes (concat (be16 <$> gs)).
Proof.
  induction 1 as [|g gs Hg _ [IH1 IH2]]; [by split; [|constructor]|]. rewrite fmap_cons. cbn [concat].
  split; [rewrite len_app, len_cons, IH1; change (len (be16 g)) with 2; lia|].
  apply Forall_app. split; [|done]. repeat constructor; apply as_u8_range.
Qed.

Lemma read_ipv6_ok s gs r : read_ipv6_addr s = Some (gs, r) -> len gs = 8 /\ Forall u16 gs.
Proof.
  unfold read_ipv6_addr. destruct (read_groups 8 true s) as [[h v4] s1] eqn:Hh. apply read_groups_ok in Hh as [Hl Hu].
  destruct (length h =? 8)%nat eqn:H8; [apply Nat.eqb_eq in H8; intros [= <- <-]; split; [unfold len; lia|done]|apply Nat.eqb_neq in H8]. destruct v4; [done|].
  destruct (read_given_char 58 s1) as [[[] s2]|]; [|done]. cbn. destruct (read_given_char 58 s2) as [[[] s3]|]; [|done]. cbn.
  destruct (read_groups _ true s3) as [[t v6] s4] eqn:Ht. apply read_groups_ok in Ht as [Htl Htu]. intros [= <- <-].
  split; [unfold len; rewrite !length_app, length_replicate; lia|]. rewrite !Forall_app. split; [done|]. split; [|done].
  apply Forall_replicate. by unfold u16.
Qed.

Lemma parse_ip_ok s ip : parse_ip_addr s = Some ip -> ip_ok ip.
Proof.
  unfold parse_ip_addr. destruct (read_ipv4_addr s) as [[os r]|] eqn:H4.
  - case_match; intros [= <-]. apply read_octets_ok in H4 as [Hl Hb]. split; [unfold len; lia|done].
  - destruct (read_ipv6_addr s) as [[gs r]|] eqn:H6; [|done]. case_match; intros [= <-].
    apply read_ipv6_ok in H6 as [Hl Hu]. destruct (be16_groups gs Hu) as [H1 H2]. split; [lia|done].
Qed.

Example ip_values :
  parse_ip_addr (ascii_bytes "::ffff:1.2.3.4") = Some (Ipv6 [0; 0; 0; 0; 0; 0; 0; 0; 0; 0; 255; 255; 1; 2; 3; 4]) /\
  parse_ip_addr (ascii_bytes "2001:db8::1") = Some (Ipv6 [32; 1; 13; 184; 0; 0; 0; 0; 0; 0; 0; 0; 0; 0; 0; 1]).
Proof. split; reflexivity. Qed.
Example ip_examples :
  map (fun s => is_ip_addr (ascii_bytes s))
    ["127.0.0.1"; "::1"; "2001:db8::ff00:42:8329"; "::ffff:1.2.3.4"; "1:2:3:4:5:6:7:8"; "::";
     "example.com"; "01.2.3.4"; "256.1.1.1"; "1.2.3"; "1::2::3"; "1:2:3:4:5:6:7:8:9"; ""; "12345::"; "[::1]"]%string
  = [true; true; true; true; true; true;
     false; false; false; false; false; false; false; false; false].
Proof. reflexivity. Qed.

End ip_addr.
