(* ===== verification/ProxyTunnel.v ===== *)
(** * Proxy tunnels (lkrequest/src/proxy/connect.rs, lkrequest/src/proxy/socks5_udp.rs)

    HTTP CONNECT and SOCKS5 negotiations over a stream, chains of proxies, UDP
    associations and the framing of their datagrams.  A stream is what its peer has still
    to say, the bytes that went over it so far, and which writes fail; dialling and
    resolving are parameters that may do anything to the environment [W]. *)
From S2P Require Import Prelude Text Hpack LkError Route IpAddr.
Import hpack lk_error proxy ip_addr.

Module tunnel.

(** A byte that was written, a byte that was read. *)
Inductive Wire : Type := Sent (b : Z) | Got (b : Z).
Definition sent (b : bytes) : list Wire := Sent <$> b.
Definition got (b : bytes) : list Wire := Got <$> b.

(** [s_writes]: how the next writes end, [Some k] in an error after [k] bytes; all
    further ones succeed. *)
Record Stream : Type := mkStream {
  s_in : bytes;
  s_log : list Wire;
  s_writes : list (option Z);
  s_peer : option SocketAddr;
}.

Definition proxy_error (kind : ProxyErrorKind) (message : bytes) : Error := Proxy (mkProxyError kind message).

(** [SocksTarget] and [UdpAssociation]. *)
Inductive SocksTarget : Type := TargetIp (a : SocketAddr) | TargetDomain (host : bytes) (port : Z).
Definition target_port (t : SocksTarget) : Z :=
  match t with TargetIp a => sa_port a | TargetDomain _ port => port end.
Definition quinn_addr (t : SocksTarget) : SocketAddr :=
  match t with TargetIp a => a | TargetDomain _ port => mkSocketAddr (Ipv4 [127; 0; 0; 2]) port end.

Record UdpAssociation : Type := mkAssociation {
  control_conns : list Stream;
  first_relay : SocketAddr;
  inner_relays : list SocksTarget;
}.

(** [{x:02x}]. *)
Definition hex_digit (d : Z) : Z := if d <? 10 then d + 48 else d + 87.
Definition show_hex2 (b : Z) : bytes := [hex_digit (b / 16); hex_digit (b mod 16)].

(** [str::lines]. *)
Definition strip_cr (l : bytes) : bytes := default l (strip_suffix [13] l).
Fixpoint lines_of (parts : list bytes) : list bytes :=
  match parts with
  | [] => []
  | [l] => if is_empty l then [] else [l]
  | l :: parts => strip_cr l :: lines_of parts
  end.
Definition lines (s : bytes) : list bytes := lines_of (split_on 10 s).
Definition first_line (s : bytes) : bytes := default [] (head (lines s)).

Fixpoint alternate (preferred fallback : list SocketAddr) : list SocketAddr :=
  match preferred, fallback with
  | [], _ => fallback
  | _, [] => preferred
  | a :: preferred, b :: fallback => a :: b :: alternate preferred fallback
  end.
Definition interleave_address_families (addresses : list SocketAddr) : list SocketAddr :=
  match addresses with
  | [] => addresses
  | first :: _ =>
      let ipv4 := filter (fun a => is_ipv6 a = false) addresses in
      let ipv6 := filter (fun a => is_ipv6 a = true) addresses in
      if is_ipv6 first then alternate ipv6 ipv4 else alternate ipv4 ipv6
  end.

Definition addr_bytes (a : SocketAddr) : bytes :=
  match sa_ip a with Ipv4 octets => 1 :: octets | Ipv6 octets => 4 :: octets end.

Definition is_retryable_socks5_target_error (e : Error) : bool :=
  match e with
  | Proxy pe =>
      match pe_kind pe with
      | Socks5Error code => bool_decide (code ∈ [1; 3; 4; 5; 6; 8])
      | _ => false
      end
  | _ => false
  end.

(** ** Computations on a stream *)

Definition TM (W E A : Type) : Type := Stream -> W -> Outcome E A * Stream * W.
#[export] Instance tm_ret {W E} : MRet (TM W E) := fun A a s w => (Ok a, s, w).
#[export] Instance tm_bind {W E} : MBind (TM W E) := fun A B k m s w =>
  match m s w with
  | (Ok a, s, w) => k a s w
  | (Err e, s, w) => (Err e, s, w)
  | (Panic, s, w) => (Panic, s, w)
  end.
Definition fail {W E A} (e : E) : TM W E A := fun s w => (Err e, s, w).
Definition tm_map_err {W E E' A} (f : E -> E') (m : TM W E A) : TM W E' A := fun s w =>
  match m s w with
  | (Ok a, s, w) => (Ok a, s, w)
  | (Err e, s, w) => (Err (f e), s, w)
  | (Panic, s, w) => (Panic, s, w)
  end.

(** The error as a value. *)
Definition catch {W E A} (m : TM W E A) : TM W E (option E) := fun s w =>
  match m s w with
  | (Ok _, s, w) => (Ok None, s, w)
  | (Err e, s, w) => (Ok (Some e), s, w)
  | (Panic, s, w) => (Panic, s, w)
  end.

Section tunnel.
Context {W : Type}.
(** The resolver, [connect_tcp_with_fingerprint], the encoder of the base64 crate, and
    the texts of errors and addresses. *)
Variables (resolve : bytes -> Z -> W -> Outcome Error (list SocketAddr) * W)
  (dial : bytes -> Z -> W -> Outcome Error Stream * W) (base64 : bytes -> bytes)
  (show : Error -> bytes) (show_addr : SocketAddr -> bytes) (io_text : bytes).
Abbreviation T := (TM W Error).

Definition io_error (what : string) : Error := proxy_error ProxyIoError (ascii_bytes what ++ ascii_bytes ": " ++ io_text).

Definition write_all (what : string) (b : bytes) : T unit := fun s w =>
  match s_writes s with
  | Some k :: l => (Err (io_error what), mkStream (s_in s) (s_log s ++ sent (take_z k b)) l (s_peer s), w)
  | l => (Ok tt, mkStream (s_in s) (s_log s ++ sent b) (tail l) (s_peer s), w)
  end.
Definition read_exact (what : string) (n : Z) : T bytes := fun s w =>
  if len (s_in s) <? n then (Err (io_error what), mkStream [] (s_log s ++ got (s_in s)) (s_writes s) (s_peer s), w)
  else (Ok (take_z n (s_in s)), mkStream (drop_z n (s_in s)) (s_log s ++ got (take_z n (s_in s))) (s_writes s) (s_peer s), w).
Definition do_resolve (host : bytes) (port : Z) : T (list SocketAddr) := fun s w =>
  let '(r, w) := resolve host port w in (r, s, w).

(** ** SOCKS5 *)

Definition socks5_handshake (auth : option ProxyAuth) : T unit :=
  _ ← write_all "SOCKS5 greeting failed" (match auth with Some _ => [5; 2; 0; 2] | None => [5; 1; 0] end);
  method_resp ← read_exact "SOCKS5 method response failed" 2;
  let version := nth 0 method_resp 0 in
  let method := nth 1 method_resp 0 in
  if negb (version =? 5) then
    fail (proxy_error ProtocolError (ascii_bytes "SOCKS5 protocol error: expected version 5, got " ++ show_dec version))
  else if method =? 0 then mret tt
  else if method =? 2 then
    match auth with
    | None => fail (proxy_error AuthenticationRequired (ascii_bytes "SOCKS5 proxy requires auth but no credentials provided"))
    | Some auth =>
        if (255 <? len (username auth)) || (255 <? len (password auth)) then
          fail (proxy_error ProtocolError (ascii_bytes "SOCKS5 auth credentials too long (username: " ++
            show_dec (len (username auth)) ++ ascii_bytes " bytes, password: " ++ show_dec (len (password auth)) ++
            ascii_bytes " bytes, max: 255)"))
        else
          _ ← write_all "SOCKS5 auth request failed"
                ([1] ++ [as_u8 (len (username auth))] ++ username auth ++ [as_u8 (len (password auth))] ++ password auth);
          auth_resp ← read_exact "SOCKS5 auth response failed" 2;
          if negb (nth 1 auth_resp 0 =? 0) then
            fail (proxy_error AuthenticationFailed (ascii_bytes "SOCKS5 authentication failed"))
          else mret tt
    end
  else if method =? 255 then
    fail (proxy_error AuthenticationRequired (ascii_bytes "SOCKS5 proxy rejected all authentication methods"))
  else fail (proxy_error ProtocolError (ascii_bytes "SOCKS5 unsupported auth method: 0x" ++ show_hex2 method)).

Definition socks5_send_connect (host : bytes) (port : Z) (remote_dns : bool) : T unit :=
  dst ←
    (if remote_dns then
       if 255 <? len host then
         fail (proxy_error ProtocolError (ascii_bytes "SOCKS5 target hostname too long (" ++ show_dec (len host) ++
           ascii_bytes " bytes, max: 255)"))
       else mret ([3; as_u8 (len host)] ++ host)
     else
       addresses ← tm_map_err (fun e => proxy_error ProxyIoError
         (ascii_bytes "SOCKS5 local DNS resolution failed for " ++ host ++ ascii_bytes ": " ++ show e)) (do_resolve host port);
       match addresses with
       | [] => fail (proxy_error ProxyIoError (ascii_bytes "SOCKS5 local DNS resolution returned no addresses for " ++ host))
       | resolved :: _ => mret (addr_bytes resolved)
       end);
  write_all "SOCKS5 connect request failed" ([5; 1; 0] ++ dst ++ [as_u8 (port ≫ 8); as_u8 (Z.land port 255)]).

Definition socks5_send_connect_address (target : SocketAddr) : T unit :=
  write_all "SOCKS5 connect request failed" ([5; 1; 0] ++ addr_bytes target ++ be16 (sa_port target)).

Definition socks5_message (code : Z) : bytes :=
  ascii_bytes
    (if code =? 1 then "general SOCKS server failure" else if code =? 2 then "connection not allowed by ruleset"
     else if code =? 3 then "network unreachable" else if code =? 4 then "host unreachable"
     else if code =? 5 then "connection refused" else if code =? 6 then "TTL expired"
     else if code =? 7 then "command not supported" else if code =? 8 then "address type not supported"
     else "unknown error").

Definition socks5_read_response (cmd_name : string) : T SocketAddr :=
  h ← read_exact ("SOCKS5 " +:+ cmd_name +:+ " response failed") 4;
  let version := nth 0 h 0 in
  let code := nth 1 h 0 in
  let atyp := nth 3 h 0 in
  let addr_failed := "SOCKS5 address read failed"%string in
  if negb (version =? 5) then
    fail (proxy_error ProtocolError (ascii_bytes "SOCKS5 protocol error: expected version 5, got " ++ show_dec version))
  else if negb (code =? 0) then
    fail (proxy_error (Socks5Error code) (ascii_bytes "SOCKS5 " ++ ascii_bytes cmd_name ++ ascii_bytes " failed: " ++
      socks5_message code ++ ascii_bytes " (0x" ++ show_hex2 code ++ ascii_bytes ")"))
  else if atyp =? 1 then
    buf ← read_exact addr_failed 6;
    mret (mkSocketAddr (Ipv4 (take_z 4 buf)) (from_be16 (nth 4 buf 0) (nth 5 buf 0)))
  else if atyp =? 3 then
    l ← read_exact addr_failed 1;
    buf ← read_exact addr_failed (nth 0 l 0 + 2);
    let port_start := len buf - 2 in
    mret (mkSocketAddr (Ipv4 [0; 0; 0; 0]) (from_be16 (nth (Z.to_nat port_start) buf 0) (nth (Z.to_nat (port_start + 1)) buf 0)))
  else if atyp =? 4 then
    buf ← read_exact addr_failed 18;
    mret (mkSocketAddr (Ipv6 (take_z 16 buf)) (from_be16 (nth 16 buf 0) (nth 17 buf 0)))
  else fail (proxy_error ProtocolError (ascii_bytes "SOCKS5 unsupported address type: 0x" ++ show_hex2 atyp)).

Definition send_udp_associate : T SocketAddr :=
  _ ← write_all "SOCKS5 UDP ASSOCIATE request failed" [5; 3; 0; 1; 0; 0; 0; 0; 0; 0];
  socks5_read_response "udp_associate".

Definition resolve_first_relay (raw : SocketAddr) : T SocketAddr := fun s w =>
  if negb (is_unspecified (sa_ip raw)) then (Ok raw, s, w)
  else match s_peer s with
       | Some peer => (Ok (mkSocketAddr (sa_ip peer) (sa_port raw)), s, w)
       | None => (Err (io_error "failed to read proxy peer address for UDP relay"), s, w)
       end.

Definition resolve_inner_relay (raw : SocketAddr) (hop : ProxyConfig) : SocksTarget :=
  if negb (is_unspecified (sa_ip raw)) then TargetIp raw
  else
    let '(host, _) := host_port hop in
    match parse_ip_addr host with
    | Some ip => TargetIp (mkSocketAddr ip (sa_port raw))
    | None => TargetDomain host (sa_port raw)
    end.

(** ** HTTP CONNECT *)

Definition CRLF2 : bytes := [13; 10; 13; 10].

(** Byte by byte up to the empty line; [fuel] bounds the bytes read. *)
Fixpoint read_head (fuel : nat) (response : bytes) : T bytes :=
  match fuel with
  | O => fun s w => (Panic, s, w)
  | S fuel =>
      byte ← read_exact "failed to read proxy response" 1;
      let response := response ++ byte in
      if (4 <=? len response) && ends_with CRLF2 response then mret response
      else if 4096 <? len response then fail (proxy_error ProtocolError (ascii_bytes "proxy response headers too large"))
      else read_head fuel response
  end.

Definition connect_request (target : bytes) (auth : option ProxyAuth) : bytes :=
  ascii_bytes "CONNECT " ++ target ++ ascii_bytes " HTTP/1.1" ++ [13; 10] ++
  ascii_bytes "Host: " ++ target ++ [13; 10] ++
  match auth with
  | Some auth => ascii_bytes "Proxy-Authorization: Basic " ++ base64 (username auth ++ 58 :: password auth) ++ [13; 10]
  | None => []
  end ++ [13; 10].

Definition send_connect_request (target : bytes) (auth : option ProxyAuth) : T (Z * bytes) :=
  _ ← write_all "failed to send CONNECT request" (connect_request target auth);
  response ← read_head (Z.to_nat 4097) [];
  mret (default 0 (parse_http_status (first_line (vec_to_string_lossy response))), response).

Definition host_colon_port (host : bytes) (port : Z) : bytes := host ++ 58 :: show_dec port.

(** ** One hop *)

Definition negotiate_over (p : ProxyConfig) (host : bytes) (port : Z) : T unit :=
  match scheme p with
  | PHttp _ _ =>
      '(status, response) ← send_connect_request (host_colon_port host port) (auth p);
      if status =? 200 then mret tt
      else if status =? 407 then
        fail (proxy_error AuthenticationRequired
          (ascii_bytes "proxy chain hop " ++ display p ++ ascii_bytes " requires authentication (407)"))
      else
        fail (proxy_error (TunnelRefused status)
          (ascii_bytes "proxy chain hop " ++ display p ++ ascii_bytes " CONNECT failed: " ++
           first_line (vec_to_string_lossy response)))
  | PSocks5 _ _ remote_dns =>
      _ ← socks5_handshake (auth p);
      _ ← socks5_send_connect host port remote_dns;
      _ ← socks5_read_response "connect";
      mret tt
  end.

Definition negotiate_over_address (p : ProxyConfig) (target : SocketAddr) : T unit :=
  match scheme p with
  | PSocks5 _ _ _ =>
      _ ← socks5_handshake (auth p);
      _ ← socks5_send_connect_address target;
      _ ← socks5_read_response "connect";
      mret tt
  | PHttp _ _ => fail (proxy_error ProtocolError (ascii_bytes "address-specific negotiation requires a SOCKS5 hop"))
  end.

(** ** Connections

    With the streams that were dropped on the way. *)

Definition CM (A : Type) : Type := W -> Outcome Error A * list Stream * W.

Definition connect_tcp_to_proxy (host : bytes) (port : Z) (w : W) : Outcome Error Stream * W :=
  match dial host port w with
  | (Err e, w) => (Err (proxy_error TcpConnectFailed
      (ascii_bytes "failed to connect to proxy " ++ host_colon_port host port ++ ascii_bytes ": " ++ show e)), w)
  | other => other
  end.

(** Dial, then run a negotiation on the stream. *)
Definition dial_and {A} (host : bytes) (port : Z) (m : T A) (k : A -> Stream -> CM Stream)
    (failed : Error -> Stream -> CM Stream) : CM Stream := fun w =>
  match connect_tcp_to_proxy host port w with
  | (Ok s, w) =>
      match m s w with
      | (Ok a, s, w) => k a s w
      | (Err e, s, w) => failed e s w
      | (Panic, s, w) => (Panic, [s], w)
      end
  | (Err e, w) => (Err e, [], w)
  | (Panic, w) => (Panic, [], w)
  end.
Definition keep (s : Stream) : CM Stream := fun w => (Ok s, [], w).
Definition drop_with (e : Error) (s : Stream) : CM Stream := fun w => (Err e, [s], w).
Definition then_drop (s : Stream) (c : CM Stream) : CM Stream := fun w =>
  let '(r, dropped, w) := c w in (r, s :: dropped, w).

Definition supports_basic (response : bytes) : bool :=
  existsb (fun l => let lower := to_ascii_lowercase l in
                    starts_with (ascii_bytes "proxy-authenticate:") lower && contains (ascii_bytes "basic") lower)
    (lines (vec_to_string_lossy response)).

Definition reconnect_error (address : bytes) (e : Error) : Error :=
  proxy_error TcpConnectFailed
    (ascii_bytes "failed to reconnect to proxy " ++ address ++ ascii_bytes " for 407 retry: " ++ show e).

Definition retry_error (retry_code : Z) : Error :=
  proxy_error AuthenticationFailed
    (ascii_bytes "proxy authentication failed after retry (status " ++ show_dec retry_code ++ ascii_bytes ")").

Definition connect_http (p : ProxyConfig) (proxy_host : bytes) (proxy_port : Z) (host : bytes) (port : Z) : CM Stream :=
  let target := host_colon_port host port in
  dial_and proxy_host proxy_port (send_connect_request target (auth p))
    (fun '(status, response) s =>
       if status =? 200 then keep s
       else if status =? 407 then
         if bool_decide (is_Some (auth p)) && supports_basic response then
           then_drop s (fun w =>
             match connect_tcp_to_proxy proxy_host proxy_port w with
             | (Ok s2, w) =>
                 match send_connect_request target (auth p) s2 w with
                 | (Ok (retry_code, _), s2, w) =>
                     if retry_code =? 200 then keep s2 w
                     else drop_with (retry_error retry_code) s2 w
                 | (Err e, s2, w) => drop_with e s2 w
                 | (Panic, s2, w) => (Panic, [s2], w)
                 end
             | (Err e, w) => (Err (reconnect_error (host_colon_port proxy_host proxy_port) e), [], w)
             | (Panic, w) => (Panic, [], w)
             end)
         else drop_with (proxy_error AuthenticationRequired
           (ascii_bytes "proxy requires authentication (407): " ++ first_line (vec_to_string_lossy response))) s
       else drop_with (proxy_error (TunnelRefused status)
         (ascii_bytes "proxy CONNECT failed: " ++ first_line (vec_to_string_lossy response))) s)
    drop_with.

(** A list of failures for the final message. *)
Definition failure (target : SocketAddr) (e : Error) : bytes := show_addr target ++ ascii_bytes ": " ++ show e.
Definition all_failed (what : string) (failures : list bytes) : Error :=
  proxy_error ProxyIoError (ascii_bytes what ++ join_with (ascii_bytes "; ") failures).

Fixpoint socks5_targets (p : ProxyConfig) (proxy_host : bytes) (proxy_port : Z) (targets : list SocketAddr)
    (failures : list bytes) : CM Stream :=
  match targets with
  | [] => fun w => (Err (all_failed "SOCKS5 target connect failed for all locally resolved addresses: " failures), [], w)
  | target :: targets =>
      dial_and proxy_host proxy_port
        (_ ← socks5_handshake (auth p); _ ← socks5_send_connect_address target;
         catch (socks5_read_response "connect"))
        (fun result s =>
           match result with
           | None => keep s
           | Some e =>
               if is_retryable_socks5_target_error e then
                 then_drop s (socks5_targets p proxy_host proxy_port targets (failures ++ [failure target e]))
               else drop_with e s
           end)
        drop_with
  end.

Definition connect_socks5_inner (p : ProxyConfig) (proxy_host : bytes) (proxy_port : Z) (host : bytes) (port : Z)
    (remote_dns : bool) : CM Stream :=
  if remote_dns then
    dial_and proxy_host proxy_port
      (_ ← socks5_handshake (auth p); _ ← socks5_send_connect host port true; socks5_read_response "connect")
      (fun _ => keep) drop_with
  else fun w =>
    match resolve host port w with
    | (Ok addresses, w) =>
        let addresses := interleave_address_families addresses in
        if is_empty addresses then
          (Err (proxy_error ProxyIoError
             (ascii_bytes "SOCKS5 local DNS resolution returned no addresses for " ++ host)), [], w)
        else socks5_targets p proxy_host proxy_port addresses [] w
    | (Err e, w) =>
        (Err (proxy_error ProxyIoError
           (ascii_bytes "SOCKS5 local DNS resolution failed for " ++ host ++ ascii_bytes ": " ++ show e)), [], w)
    | (Panic, w) => (Panic, [], w)
    end.

(** ** Chains *)

(** Each hop is asked for the next one, the last for the target; an error says whether it
    came from the last. *)
Fixpoint tunnel_through (hops : list ProxyConfig) (final : option SocketAddr) (host : bytes) (port : Z)
    : TM W (bool * Error) unit :=
  match hops with
  | [] => mret tt
  | [hop] =>
      tm_map_err (pair true)
        (match final with
         | Some target => negotiate_over_address hop target
         | None => negotiate_over hop host port
         end)
  | hop :: (next :: _) as rest =>
      _ ← tm_map_err (pair false) (negotiate_over hop (host_port next).1 (host_port next).2);
      tunnel_through rest final host port
  end.

Fixpoint chain_targets (hops : list ProxyConfig) (first : bytes * Z) (host : bytes) (port : Z)
    (targets : list (option SocketAddr)) (failures : list bytes) : CM Stream :=
  match targets with
  | [] => fun w => (Err (all_failed "SOCKS5 chain target connect failed for all addresses: " failures), [], w)
  | final :: targets => fun w =>
      match connect_tcp_to_proxy first.1 first.2 w with
      | (Ok s, w) =>
          match tunnel_through hops final host port s w with
          | (Ok _, s, w) => keep s w
          | (Err (last, e), s, w) =>
              match final with
              | Some target =>
                  if last && is_retryable_socks5_target_error e then
                    then_drop s (chain_targets hops first host port targets (failures ++ [failure target e])) w
                  else drop_with e s w
              | None => drop_with e s w
              end
          | (Panic, s, w) => (Panic, [s], w)
          end
      | (Err e, w) => (Err e, [], w)
      | (Panic, w) => (Panic, [], w)
      end
  end.

Definition hops_of (p : ProxyConfig) : list ProxyConfig := chain p ++ [p].
Definition first_hop (p : ProxyConfig) : bytes * Z := host_port (default p (head (hops_of p))).

Definition connect_chain (p : ProxyConfig) (host : bytes) (port : Z) : CM Stream :=
  match scheme p with
  | PSocks5 _ _ false => fun w =>
      match resolve host port w with
      | (Ok addresses, w) =>
          let final_targets := Some <$> interleave_address_families addresses in
          if is_empty final_targets then
            (Err (proxy_error ProxyIoError
               (ascii_bytes "SOCKS5 chain target DNS returned no addresses for " ++ host)), [], w)
          else chain_targets (hops_of p) (first_hop p) host port final_targets [] w
      | (Err e, w) =>
          (Err (proxy_error ProxyIoError
             (ascii_bytes "SOCKS5 chain target DNS resolution failed for " ++ host ++ ascii_bytes ": " ++ show e)), [], w)
      | (Panic, w) => (Panic, [], w)
      end
  | _ => chain_targets (hops_of p) (first_hop p) host port [None] []
  end.

(** [connect_with_budget]. *)
Definition connect (p : ProxyConfig) (host : bytes) (port : Z) : CM Stream :=
  if negb (is_empty (chain p)) then connect_chain p host port
  else match scheme p with
       | PHttp proxy_host proxy_port => connect_http p proxy_host proxy_port host port
       | PSocks5 proxy_host proxy_port remote_dns => connect_socks5_inner p proxy_host proxy_port host port remote_dns
       end.

(** ** UDP associations *)

(** Through all hops but the last, to the last one's listener. *)
Fixpoint reach (hops : list ProxyConfig) : T unit :=
  match hops with
  | hop :: (next :: _) as rest => _ ← negotiate_over hop (host_port next).1 (host_port next).2; reach rest
  | _ => mret tt
  end.

Definition associate_error (what : string) (address : bytes) (suffix : string) (e : Error) : Error :=
  proxy_error TcpConnectFailed (ascii_bytes what ++ address ++ ascii_bytes suffix ++ ascii_bytes ": " ++ show e).

(** [reached] are the hops up to here. *)
Fixpoint associate_hops (first : bytes * Z) (reached rest : list ProxyConfig) (conns : list Stream)
    (relay : option SocketAddr) (inner : list SocksTarget) (w : W) : Outcome Error UdpAssociation * list Stream * W :=
  match rest with
  | [] =>
      match relay with
      | Some relay => (Ok (mkAssociation conns relay inner), [], w)
      | None => (Panic, conns, w)
      end
  | hop :: rest =>
      match connect_tcp_to_proxy first.1 first.2 w with
      | (Ok s, w) =>
          match (_ ← reach (reached ++ [hop]); _ ← socks5_handshake (auth hop); send_udp_associate) s w with
          | (Ok raw, s, w) =>
              match relay with
              | None =>
                  match resolve_first_relay raw s w with
                  | (Ok relay, s, w) => associate_hops first (reached ++ [hop]) rest (conns ++ [s]) (Some relay) inner w
                  | (Err e, s, w) => (Err e, conns ++ [s], w)
                  | (Panic, s, w) => (Panic, conns ++ [s], w)
                  end
              | Some _ =>
                  associate_hops first (reached ++ [hop]) rest (conns ++ [s]) relay
                    (inner ++ [resolve_inner_relay raw hop]) w
              end
          | (Err e, s, w) => (Err e, conns ++ [s], w)
          | (Panic, s, w) => (Panic, conns ++ [s], w)
          end
      | (Err e, w) =>
          (Err (associate_error "failed to connect to first chain hop " (host_colon_port first.1 first.2)
                  " for UDP ASSOCIATE" e), conns, w)
      | (Panic, w) => (Panic, conns, w)
      end
  end.

Definition is_socks5 (p : ProxyConfig) : bool := match scheme p with PSocks5 _ _ _ => true | _ => false end.
Definition not_socks5 (hop : ProxyConfig) : Error :=
  proxy_error ProtocolError
    (ascii_bytes "QUIC over a proxy chain requires every hop to be SOCKS5 (UDP ASSOCIATE is SOCKS5-only); hop " ++
     display hop ++ ascii_bytes " is not SOCKS5 " ++ [226; 128; 148] ++
     ascii_bytes " use a single SOCKS5 hop for QUIC, or fall back to H2 over the chain").

Definition udp_associate_chain (p : ProxyConfig) (w : W) : Outcome Error UdpAssociation * list Stream * W :=
  match head (filter (fun hop => is_socks5 hop = false) (hops_of p)) with
  | Some hop => (Err (not_socks5 hop), [], w)
  | None => associate_hops (first_hop p) [] (hops_of p) [] None [] w
  end.

Definition udp_associate (p : ProxyConfig) (w : W) : Outcome Error UdpAssociation * list Stream * W :=
  if negb (is_empty (chain p)) then udp_associate_chain p w
  else
    let '(host, port) := host_port p in
    match connect_tcp_to_proxy host port w with
    | (Ok s, w) =>
        match (_ ← socks5_handshake (auth p); raw ← send_udp_associate; resolve_first_relay raw) s w with
        | (Ok relay, s, w) => (Ok (mkAssociation [s] relay []), [], w)
        | (Err e, s, w) => (Err e, [s], w)
        | (Panic, s, w) => (Panic, [s], w)
        end
    | (Err e, w) => (Err (associate_error "failed to connect to SOCKS5 proxy " (host_colon_port host port) "" e), [], w)
    | (Panic, w) => (Panic, [], w)
    end.

End tunnel.
End tunnel.

(** ** Datagrams *)

Module socks5_udp.
Import tunnel.

Inductive UdpErrorKind : Type := InvalidInput | InvalidData | Unsupported | OtherError.
Record UdpError : Type := mkUdpError { ue_kind : UdpErrorKind; ue_message : bytes }.
Definition udp_error (kind : UdpErrorKind) (message : string) : UdpError := mkUdpError kind (ascii_bytes message).

Definition SOCKS5_UDP_HEADER_IPV4 : Z := 10.
Definition SOCKS5_UDP_HEADER_IPV6 : Z := 22.

Definition socks5_udp_target_header_len (t : SocksTarget) : Z :=
  match t with
  | TargetIp a => if is_ipv6 a then SOCKS5_UDP_HEADER_IPV6 else SOCKS5_UDP_HEADER_IPV4
  | TargetDomain host _ => 5 + len host + 2
  end.

(** [out[i..i + len]]: a slice assignment, which panics out of range. *)
Definition write_at {E} (i : Z) (b : bytes) (out : bytes) : Outcome E bytes :=
  if i + len b <=? len out then Ok (take_z i out ++ b ++ drop_z (i + len b) out) else Panic.

(** The number of bytes and the buffer. *)
Definition write_socks5_udp_header (t : SocksTarget) (out : bytes) : Outcome UdpError (Z * bytes) :=
  let hdr_len := socks5_udp_target_header_len t in
  if len out <? hdr_len then Err (udp_error InvalidInput "output buffer too small for SOCKS5 UDP header")
  else
    out ← write_at 0 [0; 0; 0] out;
    out ← match t with
          | TargetIp a =>
              match sa_ip a with
              | Ipv4 octets =>
                  out ← write_at 3 [1] out; out ← write_at 4 octets out; write_at 8 (be16 (sa_port a)) out
              | Ipv6 octets =>
                  out ← write_at 3 [4] out; out ← write_at 4 octets out; write_at 20 (be16 (sa_port a)) out
              end
          | TargetDomain host port =>
              out ← write_at 3 [3] out; out ← write_at 4 [as_u8 (len host)] out; out ← write_at 5 host out;
              write_at (5 + len host) (be16 port) out
          end;
    Ok (hdr_len, out).

Definition encode_socks5_udp_target (t : SocksTarget) (payload out : bytes) : Outcome UdpError (Z * bytes) :=
  '(hdr_len, out) ← write_socks5_udp_header t out;
  let total := hdr_len + len payload in
  if len out <? total then Err (udp_error InvalidInput "output buffer too small for SOCKS5 UDP frame")
  else out ← write_at hdr_len payload out; Ok (total, out).

Definition encode_socks5_udp (target : SocketAddr) (payload out : bytes) : Outcome UdpError (Z * bytes) :=
  encode_socks5_udp_target (TargetIp target) payload out.

Definition socks5_udp_nested_header_len (intermediate : list SocksTarget) (t : SocksTarget) : Z :=
  foldr Z.add 0 (socks5_udp_target_header_len <$> intermediate) + socks5_udp_target_header_len t.

(** [&mut out[off..]], in place. *)
Definition at_offset (off : Z) (f : bytes -> Outcome UdpError (Z * bytes)) (out : bytes) : Outcome UdpError (Z * bytes) :=
  if len out <? off then Panic
  else '(n, tail) ← f (drop_z off out); Ok (off + n, take_z off out ++ tail).

Fixpoint encode_hops (intermediate : list SocksTarget) (off : Z) (out : bytes) : Outcome UdpError (Z * bytes) :=
  match intermediate with
  | [] => Ok (off, out)
  | hop :: rest => '(off, out) ← at_offset off (write_socks5_udp_header hop) out; encode_hops rest off out
  end.
Definition encode_socks5_udp_nested (intermediate : list SocksTarget) (t : SocksTarget) (payload out : bytes)
    : Outcome UdpError (Z * bytes) :=
  '(off, out) ← encode_hops intermediate 0 out;
  at_offset off (encode_socks5_udp_target t payload) out.

Definition decode_socks5_udp (buf : bytes) : Outcome UdpError (SocketAddr * bytes) :=
  _ ← guard_ok (4 <=? len buf) (udp_error InvalidData "SOCKS5 UDP frame too short");
  frag ← idx buf 2;
  _ ← guard_ok (frag =? 0) (udp_error Unsupported "SOCKS5 UDP fragmentation not supported");
  atyp ← idx buf 3;
  if atyp =? 1 then
    _ ← guard_ok (SOCKS5_UDP_HEADER_IPV4 <=? len buf) (udp_error InvalidData "SOCKS5 UDP IPv4 frame too short");
    octets ← slice buf 4 8;
    hi ← idx buf 8; lo ← idx buf 9;
    Ok (mkSocketAddr (Ipv4 octets) (from_be16 hi lo), drop_z SOCKS5_UDP_HEADER_IPV4 buf)
  else if atyp =? 4 then
    _ ← guard_ok (SOCKS5_UDP_HEADER_IPV6 <=? len buf) (udp_error InvalidData "SOCKS5 UDP IPv6 frame too short");
    octets ← slice buf 4 20;
    hi ← idx buf 20; lo ← idx buf 21;
    Ok (mkSocketAddr (Ipv6 octets) (from_be16 hi lo), drop_z SOCKS5_UDP_HEADER_IPV6 buf)
  else if atyp =? 3 then
    _ ← guard_ok (5 <=? len buf) (udp_error InvalidData "SOCKS5 UDP domain frame too short");
    dlen ← idx buf 4;
    _ ← guard_ok (negb (dlen =? 0)) (udp_error InvalidData "SOCKS5 UDP domain length is zero");
    let port_offset := 5 + dlen in
    _ ← guard_ok (port_offset + 2 <=? len buf) (udp_error InvalidData "SOCKS5 UDP domain frame too short for port");
    hi ← idx buf port_offset; lo ← idx buf (port_offset + 1);
    Ok (mkSocketAddr (Ipv4 [0; 0; 0; 0]) (from_be16 hi lo), drop_z (port_offset + 2) buf)
  else Err (mkUdpError InvalidData (ascii_bytes "SOCKS5 UDP unsupported ATYP: 0x" ++ show_hex2 atyp)).

Fixpoint decode_socks5_udp_nested (buf : bytes) (layers : nat) : Outcome UdpError bytes :=
  match layers with
  | O => Ok buf
  | S layers => '(_, payload) ← decode_socks5_udp buf; decode_socks5_udp_nested payload layers
  end.

Definition packet_source_matches_relay (from relay : SocketAddr) : bool :=
  if is_unspecified (sa_ip relay) then sa_port from =? sa_port relay
  else bool_decide (sa_ip from = sa_ip relay).

(** ** The socket *)

Record Socks5UdpSocket : Type := mkUdpSocket {
  relay_addr : SocketAddr;
  intermediate_relays : list SocksTarget;
  us_target : SocksTarget;
}.

(** [try_send]: the datagram for [relay_addr]. *)
Definition try_send (sock : Socks5UdpSocket) (contents : bytes) : Outcome UdpError bytes :=
  let total := socks5_udp_nested_header_len (intermediate_relays sock) (us_target sock) + len contents in
  '(_, buf) ← encode_socks5_udp_nested (intermediate_relays sock) (us_target sock) contents (replicate (Z.to_nat total) 0);
  Ok buf.

(** What the system socket answers, one after the other. *)
Inductive Received : Type :=
| Datagram (data : bytes) (from : SocketAddr)
| WouldBlock
| ReceiveFailed (e : UdpError).

(** [buf.copy_within(from..to, 0)]. *)
Definition copy_within (from to : Z) (buf : bytes) : bytes :=
  drop_z from (take_z to buf) ++ drop_z (to - from) buf.

(** [poll_recv] with a buffer: [None] is pending; the result has the metadata
    (source and length) and the buffer. *)
Fixpoint poll_recv (sock : Socks5UdpSocket) (buf : bytes) (events : list Received)
    : option (Outcome UdpError (SocketAddr * Z * bytes)) * list Received :=
  match events with
  | [] => (None, [])
  | Datagram data from :: events =>
      let n := Z.min (len data) (len buf) in
      let buf := take_z n data ++ drop_z n buf in
      if negb (packet_source_matches_relay from (relay_addr sock)) then poll_recv sock buf events
      else match decode_socks5_udp_nested (take_z n buf) (S (length (intermediate_relays sock))) with
           | Ok payload =>
               let payload_len := len payload in
               let header_len := n - payload_len in
               let buf := if 0 <? header_len then copy_within header_len n buf else buf in
               (Some (Ok (quinn_addr (us_target sock), payload_len, buf)), events)
           | Err _ => poll_recv sock buf events
           | Panic => (Some Panic, events)
           end
  | WouldBlock :: events => poll_recv sock buf events
  | ReceiveFailed e :: events => (Some (Err e), events)
  end.

End socks5_udp.
