(* ===== verification/ProxyTunnelProps.v ===== *)
(** * Proxy tunnels: what is said to whom

    The dialogue with every proxy of a chain is exactly that of RFC 1928, RFC 1929 or an
    HTTP CONNECT, not a byte more is read; credentials go only to their hop, when it is
    their turn; and datagrams survive the nesting of their headers. *)
From S2P Require Import Prelude Text Hpack LkError Route IpAddr ProxyTunnel.
Import hpack lk_error proxy ip_addr tunnel.

Module udp_props.
Import socks5_udp.

(** ** One header *)

Definition dst_bytes (t : SocksTarget) : bytes :=
  match t with
  | TargetIp a => addr_bytes a
  | TargetDomain host _ => [3; len host] ++ host
  end.
(** The header of RFC 1928, section 7. *)
Definition header (t : SocksTarget) : bytes := [0; 0; 0] ++ dst_bytes t ++ be16 (target_port t).

Definition target_ok (t : SocksTarget) : Prop :=
  match t with
  | TargetIp a => addr_ok a
  | TargetDomain host port => 0 < len host <= 255 /\ u16 port
  end.

Lemma len_header t : target_ok t -> len (header t) = socks5_udp_target_header_len t.
Proof.
  destruct t as [[[o|o] p]|h p]; cbn; unfold SOCKS5_UDP_HEADER_IPV4, SOCKS5_UDP_HEADER_IPV6, addr_ok, ip_ok; cbn;
    intros [H _]; unfold header, dst_bytes, addr_bytes; cbn [sa_ip target_port sa_port]; slen.
Qed.

(** A write right after what was written. *)
Lemma write_at_next {E} (a b c : bytes) i : i = len a -> len b <= len c ->
  write_at (E := E) i b (a ++ c) = Ok ((a ++ b) ++ drop_z (len b) c).
Proof.
  intros -> Hb. unfold write_at. rewrite len_app. replace (_ <=? _) with true by lia.
  rewrite take_z_app_len, <- app_assoc. do 3 f_equal. unfold drop_z. rewrite drop_app.
  rewrite drop_ge by (unfold len in *; lia). cbn. f_equal. unfold len. lia.
Qed.

(** Writes one after the other. *)
Lemma write_at_more {E} (a b c : bytes) n i : i = len a -> n + len b <= len c -> 0 <= n ->
  write_at (E := E) i b (a ++ drop_z n c) = Ok ((a ++ b) ++ drop_z (n + len b) c).
Proof.
  intros Hi Hb Hn. rewrite write_at_next; [|done|rewrite len_drop_z; lia].
  rewrite drop_drop_z; [done|apply len_nonneg|done].
Qed.

Lemma write_header_spec t out :
  target_ok t -> socks5_udp_target_header_len t <= len out ->
  write_socks5_udp_header t out =
    Ok (socks5_udp_target_header_len t, header t ++ drop_z (socks5_udp_target_header_len t) out).
Proof.
  intros Ht Hl. unfold write_socks5_udp_header. replace (_ <? _) with false by lia.
  pose proof (len_header t Ht) as Hh. rewrite <- Hh in Hl |- *. change out with ([] ++ drop_z 0 out) at 1.
  unfold header in *. pose proof (len_nonneg (dst_bytes t)).
  rewrite write_at_more; [|done|slen|done]. cbn [mbind outcome_bind].
  destruct t as [[[o|o] p]|h p]; cbn [dst_bytes addr_bytes sa_ip sa_port target_port target_ok] in *.
  1-2: destruct Ht as [[Ho _] _]; cbn [sa_ip] in Ho;
    repeat (rewrite write_at_more; [cbn [mbind outcome_bind]|slen|slen|slen]);
    rewrite <- !app_assoc; cbn [app]; do 9 f_equal; slen.
  destruct Ht as [Hh' _]. rewrite as_u8_small by (unfold u8; lia).
  repeat (rewrite write_at_more; [cbn [mbind outcome_bind]|slen|slen|slen]);
    rewrite <- !app_assoc; cbn [app]; do 10 f_equal; slen.
Qed.

(** ** Nested headers *)

Definition headers (ts : list SocksTarget) : bytes := concat (header <$> ts).

Lemma at_offset_app f (a c : bytes) :
  at_offset (len a) f (a ++ c) = '(n, tail) ← f c; Ok (len a + n, a ++ tail).
Proof.
  unfold at_offset. rewrite len_app. pose proof (len_nonneg c). replace (_ <? _) with false by lia.
  by rewrite take_z_app_len, drop_z_app_len.
Qed.

Lemma encode_hops_spec ts : Forall target_ok ts -> forall a c, len (headers ts) <= len c ->
  encode_hops ts (len a) (a ++ c) = Ok (len (a ++ headers ts), (a ++ headers ts) ++ drop_z (len (headers ts)) c).
Proof.
  induction 1 as [|t ts Ht _ IH]; intros a c Hl; cbn [encode_hops].
  { change (headers []) with (@nil Z). by rewrite app_nil_r. }
  change (headers (t :: ts)) with (header t ++ headers ts) in *. rewrite len_app in Hl.
  pose proof (len_nonneg (headers ts)). pose proof (len_nonneg (header t)).
  rewrite at_offset_app, write_header_spec; [|done|rewrite <- len_header by done; lia].
  rewrite <- len_header by done. cbn [mbind outcome_bind].
  rewrite app_assoc, <- len_app, IH by (rewrite len_drop_z; lia).
  rewrite <- !app_assoc, drop_drop_z, !len_app by lia. done.
Qed.

Lemma encode_target_spec t payload c : target_ok t -> len (header t) + len payload <= len c ->
  encode_socks5_udp_target t payload c =
    Ok (len (header t ++ payload), (header t ++ payload) ++ drop_z (len (header t ++ payload)) c).
Proof.
  intros Ht Hl. unfold encode_socks5_udp_target. pose proof (len_nonneg payload). pose proof (len_nonneg (header t)).
  rewrite write_header_spec; [|done|rewrite <- len_header by done; lia]. rewrite <- len_header by done. cbn [mbind outcome_bind].
  rewrite !len_app, len_drop_z by lia. replace (_ <? _) with false by lia.
  rewrite write_at_more by (done || lia). done.
Qed.

Lemma headers_snoc ts t : headers (ts ++ [t]) = headers ts ++ header t.
Proof. unfold headers. rewrite fmap_app, concat_app, list_fmap_singleton. cbn [concat]. by rewrite app_nil_r. Qed.

Lemma len_headers ts : Forall target_ok ts ->
  len (headers ts) = foldr Z.add 0 (socks5_udp_target_header_len <$> ts).
Proof.
  induction 1 as [|u us Hu _ IH]; [done|]. rewrite fmap_cons. cbn [foldr].
  change (headers (u :: us)) with (header u ++ headers us). by rewrite len_app, IH, len_header.
Qed.

Lemma try_send_spec sock contents :
  Forall target_ok (intermediate_relays sock ++ [us_target sock]) ->
  try_send sock contents = Ok (headers (intermediate_relays sock ++ [us_target sock]) ++ contents).
Proof.
  intros [Hts Ht]%Forall_app. apply Forall_cons in Ht as [Ht _]. unfold try_send, socks5_udp_nested_header_len, encode_socks5_udp_nested.
  rewrite headers_snoc, <- len_headers, <- len_header by done.
  set (hs := headers (intermediate_relays sock)). set (h := header (us_target sock)).
  pose proof (len_nonneg hs). pose proof (len_nonneg h). pose proof (len_nonneg contents).
  set (buf := replicate _ 0). assert (Hb : len buf = len hs + len h + len contents).
  { unfold buf. rewrite len_replicate. fold hs h. lia. }
  pose proof (encode_hops_spec _ Hts [] buf) as E. cbn [app] in E. change (len []) with 0 in E. fold hs in E.
  rewrite E by lia. cbn [mbind outcome_bind].
  rewrite at_offset_app, encode_target_spec; [|done|rewrite len_drop_z by done; fold h; lia]. cbn [mbind outcome_bind].
  fold h. rewrite drop_drop_z by (rewrite ?len_app; lia). rewrite (drop_z_all _ buf) by (rewrite len_app; lia).
  by rewrite app_nil_r, app_assoc.
Qed.
(** ** Relays *)

(** A relay: the destination and the data of a request (RFC 1928, section 7). *)
Definition relay_open (datagram : bytes) : option (SocksTarget * bytes) :=
  match datagram with
  | 0 :: 0 :: 0 :: 1 :: a :: b :: c :: d :: hi :: lo :: data =>
      Some (TargetIp (mkSocketAddr (Ipv4 [a; b; c; d]) (hi * 256 + lo)), data)
  | 0 :: 0 :: 0 :: 3 :: n :: rest =>
      match drop_z n rest with
      | hi :: lo :: data => Some (TargetDomain (take_z n rest) (hi * 256 + lo), data)
      | _ => None
      end
  | 0 :: 0 :: 0 :: 4 :: rest =>
      match drop_z 16 rest with
      | hi :: lo :: data => Some (TargetIp (mkSocketAddr (Ipv6 (take_z 16 rest)) (hi * 256 + lo)), data)
      | _ => None
      end
  | _ => None
  end.

(** [n] relays one after the other: where each forwards the datagram, and the data that
    the last one delivers. *)
Fixpoint forward (n : nat) (datagram : bytes) : option (list SocksTarget * bytes) :=
  match n with
  | O => Some ([], datagram)
  | S n => '(t, data) ← relay_open datagram; '(ts, data) ← forward n data; Some (t :: ts, data)
  end.

Lemma be16_value p : u16 p -> exists hi lo, be16 p = [hi; lo] /\ hi * 256 + lo = p /\ from_be16 hi lo = p.
Proof.
  intros Hp. exists (as_u8 (p ≫ 8)), (as_u8 p). split; [done|]. pose proof (from_be16_be16 p Hp) as H.
  split; [|done]. rewrite <- from_be16_arith; [done|apply as_u8_range].
Qed.

Lemma octets4 (o : bytes) : len o = 4 -> exists a b c d, o = [a; b; c; d].
Proof. unfold len. intros H. destruct o as [|a [|b [|c [|d [|]]]]]; cbn in H; try lia. by exists a, b, c, d. Qed.

Lemma relay_open_header t data : target_ok t -> relay_open (header t ++ data) = Some (t, data).
Proof.
  destruct t as [[[o|o] p]|h p]; unfold header, dst_bytes, addr_bytes; cbn [sa_ip sa_port target_port target_ok].
  - intros [[Ho _] Hp]. cbn [sa_ip sa_port] in *. destruct (be16_value p Hp) as (hi & lo & -> & <- & _).
    by destruct (octets4 o Ho) as (a & b & c & d & ->).
  - intros [[Ho _] Hp]. cbn [sa_ip sa_port] in *. destruct (be16_value p Hp) as (hi & lo & -> & <- & _).
    rewrite <- !app_assoc. cbn [app relay_open]. rewrite <- Ho. by rewrite take_z_app_len, drop_z_app_len.
  - intros [Hh Hp]. destruct (be16_value p Hp) as (hi & lo & -> & <- & _).
    rewrite <- !app_assoc. cbn [app relay_open]. by rewrite take_z_app_len, drop_z_app_len.
Qed.

Lemma forward_headers ts data : Forall target_ok ts -> forward (length ts) (headers ts ++ data) = Some (ts, data).
Proof.
  induction 1 as [|t ts Ht _ IH]; [done|]. cbn [length forward].
  change (headers (t :: ts)) with (header t ++ headers ts).
  rewrite <- app_assoc, relay_open_header by done. cbn [mbind option_bind]. by rewrite IH.
Qed.

(** ** Replies *)

(** The parts of a frame: four bytes, an address, a port and the data. *)
Lemma frame_parts (p4 mid data : bytes) hi lo n : len p4 = n -> let buf := p4 ++ mid ++ hi :: lo :: data in
  len buf = n + len mid + 2 + len data /\
  slice (E := UdpError) buf n (n + len mid) = Ok mid /\ idx (E := UdpError) buf (n + len mid) = Ok hi /\
  idx (E := UdpError) buf (n + len mid + 1) = Ok lo /\ drop_z (n + len mid + 2) buf = data.
Proof.
  intros Hn buf. split; [unfold buf; slen|]. unfold buf. rewrite slice_middle by lia. split; [done|].
  rewrite app_assoc, idx_at by (rewrite len_app; lia). split; [done|].
  change (hi :: lo :: data) with ([hi] ++ lo :: data). rewrite app_assoc, idx_at by slen. split; [done|].
  change (lo :: data) with ([lo] ++ data). rewrite app_assoc.
  replace (n + len mid + 2) with (len (((p4 ++ mid) ++ [hi]) ++ [lo])) by slen. apply drop_z_app_len.
Qed.

(** The source that a header names for the code: a domain is not resolved. *)
Definition source (t : SocksTarget) : SocketAddr :=
  match t with TargetIp a => a | TargetDomain _ port => mkSocketAddr (Ipv4 [0; 0; 0; 0]) port end.

Lemma decode_udp_header t data : target_ok t -> decode_socks5_udp (header t ++ data) = Ok (source t, data).
Proof.
  pose proof (len_nonneg data).
  destruct t as [[[o|o] p]|h p]; unfold header, dst_bytes, addr_bytes; cbn [sa_ip sa_port target_port target_ok].
  1-2: intros [[Ho _] Hp]; cbn [sa_ip sa_port] in *; destruct (be16_value p Hp) as (hi & lo & -> & _ & <-).
  3: intros [Hh Hp]; destruct (be16_value p Hp) as (hi & lo & -> & _ & <-).
  1: destruct (frame_parts [0; 0; 0; 1] o data hi lo 4 eq_refl) as (Hl & Hs & Hhi & Hlo & Hd).
  2: destruct (frame_parts [0; 0; 0; 4] o data hi lo 4 eq_refl) as (Hl & Hs & Hhi & Hlo & Hd).
  3: destruct (frame_parts [0; 0; 0; 3; len h] h data hi lo 5 eq_refl) as (Hl & Hs & Hhi & Hlo & Hd).
  1-2: rewrite Ho in *.
  all: rewrite <- !app_assoc; cbn [app] in *;
    match goal with |- decode_socks5_udp ?b = _ => set (buf := b) in * end;
    assert (H2 : idx (E := UdpError) buf 2 = Ok 0) by done.
  1: assert (H3 : idx (E := UdpError) buf 3 = Ok 1) by done.
  2: assert (H3 : idx (E := UdpError) buf 3 = Ok 4) by done.
  3: assert (H3 : idx (E := UdpError) buf 3 = Ok 3) by done;
     assert (H4 : idx (E := UdpError) buf 4 = Ok (len h)) by done.
  all: unfold decode_socks5_udp, SOCKS5_UDP_HEADER_IPV4, SOCKS5_UDP_HEADER_IPV6;
    rewrite H2, H3; clearbody buf; replace (4 <=? len buf) with true by lia; cbn -[Z.leb Z.add].
  - replace (10 <=? len buf) with true by lia. cbn. change (4 + 4) with 8 in *. change (8 + 1) with 9 in *. change (8 + 2) with 10 in *. by rewrite Hs, Hhi, Hlo, Hd.
  - replace (22 <=? len buf) with true by lia. cbn. change (4 + 16) with 20 in *. change (20 + 1) with 21 in *. change (20 + 2) with 22 in *. by rewrite Hs, Hhi, Hlo, Hd.
  - replace (5 <=? len buf) with true by lia. cbn -[Z.leb Z.add]. rewrite H4. cbn -[Z.leb Z.add].
    replace (len h =? 0) with false by lia. cbn -[Z.leb Z.add]. replace (_ <=? len buf) with true by lia.
    cbn -[Z.leb Z.add]. by rewrite Hhi, Hlo, Hd.
Qed.

Lemma decode_udp_headers ts data : Forall target_ok ts ->
  decode_socks5_udp_nested (headers ts ++ data) (length ts) = Ok data.
Proof.
  induction 1 as [|t ts Ht _ IH]; [done|]. cbn [length decode_socks5_udp_nested].
  change (headers (t :: ts)) with (header t ++ headers ts).
  rewrite <- app_assoc, decode_udp_header by done. apply IH.
Qed.

(** What poll_recv passes over: noise of other senders. *)
Definition stray (sock : Socks5UdpSocket) (e : Received) : Prop :=
  match e with
  | Datagram _ from => packet_source_matches_relay from (relay_addr sock) = false
  | WouldBlock => True
  | ReceiveFailed _ => False
  end.

Lemma poll_recv_stray sock noise events : Forall (stray sock) noise -> forall buf,
  exists buf', len buf' = len buf /\ poll_recv sock buf (noise ++ events) = poll_recv sock buf' events.
Proof.
  induction 1 as [|e noise He _ IH]; intros buf; [by exists buf|]. destruct e as [data from| |e]; cbn in He |- *; [|apply IH|done].
  rewrite He. cbn [negb]. set (n := Z.min _ _). destruct (IH (take_z n data ++ drop_z n buf)) as (buf' & Hl & E).
  exists buf'. split; [|exact E]. pose proof (len_nonneg data). pose proof (len_nonneg buf).
  rewrite Hl, len_app, len_take_z, len_drop_z by lia. lia.
Qed.

Lemma poll_recv_reply sock buf ts data from events :
  packet_source_matches_relay from (relay_addr sock) = true -> Forall target_ok ts ->
  length ts = S (length (intermediate_relays sock)) -> len (headers ts ++ data) <= len buf ->
  exists buf', poll_recv sock buf (Datagram (headers ts ++ data) from :: events) =
                 (Some (Ok (quinn_addr (us_target sock), len data, data ++ buf')), events).
Proof.
  intros Hf Hts Hn Hl. cbn [poll_recv]. rewrite Hf. cbn [negb]. rewrite Z.min_l by done.
  rewrite (take_z_all _ (headers ts ++ data)) by done.
  rewrite take_z_app_len, <- Hn, decode_udp_headers by done.
  rewrite len_app in *. pose proof (len_nonneg data). pose proof (len_nonneg (headers ts)).
  assert (Hpos : 0 < len (headers ts)).
  { destruct Hts as [|t ts Ht _]; [done|]. change (headers (t :: ts)) with (header t ++ headers ts).
    rewrite len_app. pose proof (len_nonneg (headers ts)). unfold header. rewrite len_app. change (len [0; 0; 0]) with 3.
    pose proof (len_nonneg (dst_bytes t ++ be16 (target_port t))). lia. }
  replace (0 <? _) with true by lia. unfold copy_within.
  rewrite <- len_app, take_z_app_len. replace (len (headers ts ++ data) - len data) with (len (headers ts)) by slen.
  rewrite drop_z_app_len. by eexists.
Qed.

(** Both ways through any number of relays, noise of others in between. *)
Lemma udp_nested_roundtrip sock contents :
  Forall target_ok (intermediate_relays sock ++ [us_target sock]) ->
  (exists datagram, try_send sock contents = Ok datagram /\
     forward (S (length (intermediate_relays sock))) datagram =
       Some (intermediate_relays sock ++ [us_target sock], contents)) /\
  (forall noise sources data from buf events,
     Forall (stray sock) noise -> Forall target_ok sources ->
     length sources = S (length (intermediate_relays sock)) ->
     packet_source_matches_relay from (relay_addr sock) = true ->
     len (headers sources ++ data) <= len buf ->
     exists rest, poll_recv sock buf (noise ++ Datagram (headers sources ++ data) from :: events) =
       (Some (Ok (quinn_addr (us_target sock), len data, data ++ rest)), events)).
Proof.
  intros Hok. split.
  - eexists. split; [by apply try_send_spec|].
    replace (S (length (intermediate_relays sock))) with (length (intermediate_relays sock ++ [us_target sock]))
      by (rewrite length_app; cbn; lia).
    by apply forward_headers.
  - intros noise sources data from buf events Hno Hs Hn Hf Hl.
    destruct (poll_recv_stray sock noise (Datagram (headers sources ++ data) from :: events) Hno buf) as (b & Hb & ->).
    apply poll_recv_reply; try done. by rewrite Hb.
Qed.

End udp_props.

(** ** Dialogues *)

Module tunnel_props.

(** A turn: what is said, and the answers that let the dialogue go on. *)
Record Turn : Type := mkTurn { said : bytes; accepts : bytes -> Prop }.

Inductive complete : list Turn -> list Wire -> Prop :=
| complete_nil : complete [] []
| complete_cons t ts y d : accepts t y -> complete ts d -> complete (t :: ts) (sent (said t) ++ got y ++ d).

(** Stopped while speaking, while or after listening, or between two turns. *)
Inductive partial : list Turn -> list Wire -> Prop :=
| partial_nil : partial [] []
| partial_said t ts x : x `prefix_of` said t -> partial (t :: ts) (sent x)
| partial_heard t ts y : partial (t :: ts) (sent (said t) ++ got y)
| partial_later t ts y d : accepts t y -> partial ts d -> partial (t :: ts) (sent (said t) ++ got y ++ d).

Lemma complete_app ts us d e : complete ts d -> complete us e -> complete (ts ++ us) (d ++ e).
Proof.
  induction 1 as [|t ts y d Hy _ IH]; intros He; [done|]. cbn [app]. rewrite <- !app_assoc. constructor; auto.
Qed.
Lemma complete_partial ts us d e : complete ts d -> partial us e -> partial (ts ++ us) (d ++ e).
Proof.
  induction 1 as [|t ts y d Hy _ IH]; intros He; [done|]. cbn [app]. rewrite <- !app_assoc. constructor; auto.
Qed.
Lemma partial_app ts us d : partial ts d -> partial (ts ++ us) d.
Proof.
  induction 1 as [|t ts x Hx|t ts y|t ts y d Hy _ IH]; cbn [app].
  - destruct us as [|u us]; [constructor|]. apply (partial_said u us []), prefix_nil.
  - by constructor.
  - constructor.
  - by constructor.
Qed.
#[export] Hint Constructors complete partial : core.

(** The turns that may be taken: all of them ([true]), or up to some point. *)
Definition Talk : Type := bool -> list Turn -> Prop.
Definition one (t : Turn) : Talk := fun _ ts => ts = [t].
Definition silent : Talk := fun _ ts => ts = [].
Definition some_of {A} (P : A -> Prop) (T : A -> Talk) : Talk := fun b ts =>
  (exists a, P a /\ T a b ts) \/ (b = false /\ ts = []).
Definition and_then (T U : Talk) : Talk := fun b ts =>
  (exists ts1 ts2, T true ts1 /\ U b ts2 /\ ts = ts1 ++ ts2) \/ (b = false /\ exists b1, T b1 ts).

Definition follows {E A} (T : Talk) (r : Outcome E A) (d : list Wire) : Prop :=
  match r with
  | Ok _ => exists ts, T true ts /\ complete ts d
  | Err _ => exists b ts, T b ts /\ partial ts d
  | Panic => False
  end.

Definition heard (d : list Wire) : bytes := omap (fun e => match e with Got b => Some b | Sent _ => None end) d.
Definition spoke (d : list Wire) (s s' : Stream) : Prop :=
  s_log s' = s_log s ++ d /\ s_in s = heard d ++ s_in s' /\ s_peer s' = s_peer s.

Lemma heard_app d e : heard (d ++ e) = heard d ++ heard e.
Proof. apply omap_app. Qed.
Lemma heard_sent b : heard (sent b) = [].
Proof. unfold heard, sent. induction b; [done|]. by rewrite fmap_cons. Qed.
Lemma heard_got b : heard (got b) = b.
Proof. unfold heard, got. induction b as [|x b IH]; [done|]. rewrite fmap_cons. cbn. by f_equal. Qed.
Lemma spoke_nil s : spoke [] s s.
Proof. split; [by rewrite app_nil_r|done]. Qed.
Lemma spoke_app d e s1 s2 s3 : spoke d s1 s2 -> spoke e s2 s3 -> spoke (d ++ e) s1 s3.
Proof.
  intros (H1 & H2 & H3) (G1 & G2 & G3). split; [by rewrite G1, H1, app_assoc|]. split; [|congruence].
  by rewrite heard_app, H2, G2, app_assoc.
Qed.
#[export] Hint Resolve spoke_nil : core.

Lemma spoke_bytes d s s' : spoke d s s' -> is_bytes (s_in s) -> is_bytes (s_in s').
Proof. intros (_ & -> & _) [_ H]%Forall_app. done. Qed.

(** ** What a computation says and hears *)

Section post.
Context {W : Type}.

Definition post {E A} (m : TM W E A) (Q : Outcome E A -> list Wire -> Prop) : Prop :=
  forall s w r s' w', is_bytes (s_in s) -> m s w = (r, s', w') -> exists d, spoke d s s' /\ Q r d.

Lemma post_conseq {E A} (m : TM W E A) (Q Q' : Outcome E A -> list Wire -> Prop) :
  post m Q -> (forall r d, Q r d -> Q' r d) -> post m Q'.
Proof. intros H HQ s w r s' w' Hb E1. destruct (H _ _ _ _ _ Hb E1) as (d & Hd & Hq). eauto. Qed.
Lemma post_ret {E A} (a : A) (Q : Outcome E A -> list Wire -> Prop) : Q (Ok a) [] -> post (mret a) Q.
Proof. intros H s w r s' w' _ [= <- <- <-]. eauto. Qed.
Lemma post_fail {E A} e (Q : Outcome E A -> list Wire -> Prop) : Q (Err e) [] -> post (fail e) Q.
Proof. intros H s w r s' w' _ [= <- <- <-]. eauto. Qed.
Lemma post_bind {E A B} (m : TM W E A) (k : A -> TM W E B) (Q : Outcome E B -> list Wire -> Prop) :
  post m (fun r d => match r with
                     | Ok a => post (k a) (fun r e => Q r (d ++ e))
                     | Err e => Q (Err e) d
                     | Panic => Q Panic d
                     end) -> post (m ≫= k) Q.
Proof.
  intros H s w r s' w' Hb. unfold mbind, tm_bind. destruct (m s w) as [[r1 s1] w1] eqn:E1. 
  destruct (H _ _ _ _ _ Hb E1) as (d & Hd & Hq). destruct r1 as [a|e|].
  - intros E2. destruct (Hq _ _ _ _ _ (spoke_bytes _ _ _ Hd Hb) E2) as (e & He & Hq'). exists (d ++ e). split; [by eapply spoke_app|done].
  - intros [= <- <- <-]. eauto.
  - intros [= <- <- <-]. eauto.
Qed.
Lemma post_map_err {E E' A} (f : E -> E') (m : TM W E A) (Q : Outcome E' A -> list Wire -> Prop) :
  post m (fun r d => match r with Ok a => Q (Ok a) d | Err e => Q (Err (f e)) d | Panic => Q Panic d end) ->
  post (tm_map_err f m) Q.
Proof.
  intros H s w r s' w' Hb. unfold tm_map_err. destruct (m s w) as [[r1 s1] w1] eqn:E1.
  destruct (H _ _ _ _ _ Hb E1) as (d & Hd & Hq). destruct r1; intros [= <- <- <-]; eauto.
Qed.

Variables (io_text : bytes).

Lemma post_write what b (Q : Outcome Error unit -> list Wire -> Prop) :
  Q (Ok tt) (sent b) -> (forall e x, x `prefix_of` b -> Q (Err e) (sent x)) -> post (write_all io_text what b) Q.
Proof.
  intros H1 H2 s w r s' w' _. unfold write_all.
  destruct (s_writes s) as [|[k|] l]; intros [= <- <- <-].
  1, 3: exists (sent b); split; [|done]; split; [done|]; by rewrite heard_sent.
  exists (sent (take_z k b)). split; [split; [done|by rewrite heard_sent]|]. apply H2. unfold take_z. apply prefix_take.
Qed.
Lemma post_read what n (Q : Outcome Error bytes -> list Wire -> Prop) : 0 <= n ->
  (forall y, is_bytes y -> len y = n -> Q (Ok y) (got y)) -> (forall e y, Q (Err e) (got y)) -> post (read_exact io_text what n) Q.
Proof.
  intros Hn H1 H2 s w r s' w' Hb. unfold read_exact. case_match eqn:Hl; intros [= <- <- <-].
  - exists (got (s_in s)). split; [|done]. split; [done|]. cbn. by rewrite heard_got, app_nil_r.
  - exists (got (take_z n (s_in s))). split.
    + split; [done|]. cbn. by rewrite heard_got, take_drop_z.
    + apply H1; [by apply Forall_take|]. rewrite len_take_z by done. lia.
Qed.

Lemma post_seq {E A B} (m : TM W E A) (k : A -> TM W E B) T U :
  post m (follows T) -> (forall a, post (k a) (follows U)) -> post (m ≫= k) (follows (and_then T U)).
Proof.
  intros Hm Hk. apply post_bind. eapply post_conseq; [exact Hm|]. intros [a|e|] d; cbn [follows]; [| |done].
  2:{ intros (b & ts & Hts & Hd). exists false, ts. split; [right; eauto|done]. }
  intros (ts & Hts & Hd). eapply post_conseq; [apply Hk|]. intros [b|e|] d'; cbn [follows]; [| |done].
  - intros (us & Hus & Hd'). exists (ts ++ us). split; [left; eauto|]. by apply complete_app.
  - intros (b & us & Hus & Hd'). exists b, (ts ++ us). split; [left; eauto|]. by apply complete_partial.
Qed.

(** Only reads, ended by an accepted answer. *)
Definition answered {E A} (P : bytes -> Prop) (r : Outcome E A) (d : list Wire) : Prop :=
  match r with Ok _ => exists y, P y /\ d = got y | Err _ => exists y, d = got y | Panic => False end.

Lemma turn_parts {A} (T : Talk) what b (m : TM W Error A) P :
  T true [mkTurn b P] -> post m (answered P) ->
  post (write_all io_text what b)
    (fun r d => match r with
                | Ok _ => post m (fun r e => follows T r (d ++ e))
                | Err e => follows (A := A) T (Err e) d
                | Panic => follows (E := Error) (A := A) T Panic d
                end).
Proof.
  intros HT Hm. apply post_write.
  - eapply post_conseq; [exact Hm|]. intros [a|e|] d; cbn; [| |done].
    + intros (y & Hy & ->). exists [mkTurn b P]. split; [done|]. rewrite <- (app_nil_r (got y)).
      by apply (complete_cons (mkTurn b P)).
    + intros (y & ->). exists true, [mkTurn b P]. split; [done|]. apply (partial_heard (mkTurn b P)).
  - intros e x Hx. exists true, [mkTurn b P]. split; [done|]. by apply partial_said.
Qed.
Lemma post_turn {A} what b (m : TM W Error A) P :
  post m (answered P) -> post (_ ← write_all io_text what b; m) (follows (one (mkTurn b P))).
Proof. intros Hm. apply post_bind. by apply (turn_parts _ _ _ _ P). Qed.
End post.

(** ** The protocols *)

(** RFC 1928, section 3, and RFC 1929. *)
Definition login (a : ProxyAuth) : bytes := [1; len (username a)] ++ username a ++ [len (password a)] ++ password a.
Definition socks_auth (auth : option ProxyAuth) : Talk := fun _ ts =>
  match auth with
  | None => ts = [mkTurn [5; 1; 0] (eq [5; 0])]
  | Some a =>
      ts = [mkTurn [5; 2; 0; 2] (eq [5; 0])] \/
      (len (username a) <= 255 /\ len (password a) <= 255 /\
       ts = [mkTurn [5; 2; 0; 2] (eq [5; 2]); mkTurn (login a) (fun y => exists v, y = [v; 0])])
  end.

(** RFC 1928, sections 4 and 6. *)
Definition reply (y : bytes) : Prop :=
  exists rsv addr port, len port = 2 /\
    ((len addr = 4 /\ y = [5; 0; rsv; 1] ++ addr ++ port) \/
     (len addr = 16 /\ y = [5; 0; rsv; 4] ++ addr ++ port) \/
     y = [5; 0; rsv; 3; len addr] ++ addr ++ port).
Definition request (dst : bytes) : Turn := mkTurn ([5; 1; 0] ++ dst) reply.

(** A head up to its first empty line, with status 200. *)
Definition http_head (y : bytes) : Prop :=
  ends_with CRLF2 y = true /\ (forall x, x `prefix_of` y -> x <> y -> ends_with CRLF2 x = false) /\ len y <= 4097.
Definition http_ok (y : bytes) : Prop :=
  http_head y /\ parse_http_status (first_line (vec_to_string_lossy y)) = Some 200.

Lemma http_head_check y :
  ends_with CRLF2 y && forallb (fun k => negb (ends_with CRLF2 (take k y))) (seq 0 (length y)) && (len y <=? 4097) = true ->
  http_head y.
Proof.
  rewrite !andb_true_iff, forallb_forall. intros [[He Hn] Hl]. split; [done|]. split; [|lia].
  intros x [z ->] Hne. specialize (Hn (length x)). rewrite take_app_length in Hn. apply negb_true_iff, Hn.
  apply in_seq. rewrite length_app. destruct z; [by rewrite app_nil_r in Hne|cbn; lia].
Qed.

Section protocols.
Context {W : Type}.
Variables (resolve : bytes -> Z -> W -> Outcome Error (list SocketAddr) * W)
  (dial : bytes -> Z -> W -> Outcome Error Stream * W) (base64 : bytes -> bytes)
  (show : Error -> bytes) (show_addr : SocketAddr -> bytes) (io_text : bytes).
Hypothesis resolve_returns : forall host port w, (resolve host port w).1 <> Panic.

(** The address of a CONNECT: a name, or what the resolver says of it. *)
Definition destination (remote_dns : bool) (host : bytes) (port : Z) (dst : bytes) : Prop :=
  if remote_dns then len host <= 255 /\ dst = [3; len host] ++ host ++ be16 port
  else exists a others w w', resolve host port w = (Ok (a :: others), w') /\ dst = addr_bytes a ++ be16 port.

Definition hop_talk (p : ProxyConfig) (host : bytes) (port : Z) : Talk :=
  match scheme p with
  | PHttp _ _ => one (mkTurn (connect_request base64 (host_colon_port host port) (auth p)) http_ok)
  | PSocks5 _ _ remote_dns =>
      and_then (socks_auth (auth p)) (some_of (destination remote_dns host port) (fun dst => one (request dst)))
  end.
Definition address_talk (p : ProxyConfig) (a : SocketAddr) : Talk :=
  match scheme p with
  | PHttp _ _ => fun b ts => b = false /\ ts = []
  | PSocks5 _ _ _ => and_then (socks_auth (auth p)) (one (request (addr_bytes a ++ be16 (sa_port a))))
  end.

(** Every hop is asked for the next one, the last for the target. *)
Fixpoint chain_talk (hops : list ProxyConfig) (final : option SocketAddr) (host : bytes) (port : Z) : Talk :=
  match hops with
  | [] => silent
  | [hop] => match final with Some a => address_talk hop a | None => hop_talk hop host port end
  | hop :: (next :: _) as rest =>
      and_then (hop_talk hop (host_port next).1 (host_port next).2) (chain_talk rest final host port)
  end.

Lemma two_bytes (y : bytes) : len y = 2 -> y = [nth 0 y 0; nth 1 y 0].
Proof. unfold len. destruct y as [|a [|b [|]]]; cbn; intros; try lia; done. Qed.

Lemma handshake_follows a : post (socks5_handshake (W := W) io_text a) (follows (socks_auth a)).
Proof.
  unfold socks5_handshake. apply post_bind, post_write.
  2:{ intros e x Hx. destruct a as [a|]; eexists true, _; (split; [try left; done|]); by apply partial_said. }
  apply post_bind, post_read; [done| |].
  2:{ intros e y. destruct a as [a|]; eexists true, _; (split; [try left; done|]);
      apply (partial_heard (mkTurn _ _)). }
  intros y _ Hy%two_bytes. set (version := nth 0 y 0) in *. set (method := nth 1 y 0) in *.
  assert (Hstop : follows (E := Error) (A := unit) (socks_auth a) (Err (proxy_error ProtocolError []))
            (sent (match a with Some _ => [5; 2; 0; 2] | None => [5; 1; 0] end) ++ got y)).
  { destruct a as [a|]; eexists true, _; (split; [try left; done|]); apply (partial_heard (mkTurn _ _)). }
  destruct (version =? 5) eqn:Hv; cbn [negb]; [|apply post_fail; by rewrite app_nil_r].
  destruct (method =? 0) eqn:Hm0; [|destruct (method =? 2) eqn:Hm2].
  3:{ destruct (method =? 255); apply post_fail; by rewrite app_nil_r. }
  - apply post_ret. rewrite app_nil_r, Hy. replace version with 5 by lia. replace method with 0 by lia.
    destruct a as [a|]; eexists; (split; [try left; done|]); rewrite <- (app_nil_r (got _)); 
      by apply (complete_cons (mkTurn _ _)).
  - destruct a as [a|]; [|apply post_fail; by rewrite app_nil_r].
    destruct (_ || _) eqn:Hl; [apply post_fail; by rewrite app_nil_r|]. apply orb_false_iff in Hl as [Hu Hp].
    eapply post_conseq; [apply (post_turn io_text _ _ _ (fun y => exists v, y = [v; 0]))|].
    + apply post_bind, post_read; [done| |by intros e y'; exists y'].
      intros y' _ Hy'%two_bytes. case_match eqn:H0; [apply post_fail|apply post_ret]; rewrite app_nil_r; [by exists y'|].
      exists y'. split; [|done]. exists (nth 0 y' 0). rewrite Hy' at 1. do 2 f_equal. lia.
    + pose proof (len_nonneg (username a)). pose proof (len_nonneg (password a)).
      rewrite !as_u8_small by (unfold u8; lia).
      assert (Hy2 : [5; 2] = y) by (rewrite Hy; do 2 f_equal; [lia|f_equal; lia]).
      intros [[]|e|] d; cbn [follows]; [| |done].
      * intros (ts & -> & Hd). eexists. split; [right; split; [lia|]; split; [lia|done]|].
        by apply (complete_cons (mkTurn [5; 2; 0; 2] (eq [5; 2]))).
      * intros (b & ts & -> & Hd). eexists b, _. split; [right; split; [lia|]; split; [lia|done]|].
        by apply (partial_later (mkTurn [5; 2; 0; 2] (eq [5; 2]))).
Qed.

(** *** The reply *)

Lemma answered_more {A B} P P' (m : TM W Error A) (k : A -> TM W Error B) y1 :
  post m (fun r d => match r with
                     | Ok a => exists y, d = got y /\ P a y
                     | Err _ => exists y, d = got y
                     | Panic => False
                     end) ->
  (forall a y, P a y -> post (k a) (fun r d => answered P' r (got (y1 ++ y) ++ d))) ->
  post (m ≫= k) (fun r d => answered P' r (got y1 ++ d)).
Proof.
  intros Hm Hk. apply post_bind. eapply post_conseq; [exact Hm|]. intros [a|e|] d; [| |done].
  - intros (y & -> & Hy). eapply post_conseq; [by apply (Hk a y)|]. intros r d. unfold got.
    by rewrite fmap_app, <- app_assoc.
  - intros (y & ->). exists (y1 ++ y). unfold got. by rewrite fmap_app.
Qed.

Lemma read_more {B} what n P' (k : bytes -> TM W Error B) y1 : 0 <= n ->
  (forall y, is_bytes y -> len y = n -> post (k y) (fun r d => answered P' r (got (y1 ++ y) ++ d))) ->
  post (read_exact io_text what n ≫= k) (fun r d => answered P' r (got y1 ++ d)).
Proof.
  intros Hn Hk. apply (answered_more (fun a y => a = y /\ is_bytes y /\ len y = n)).
  - apply post_read; [done| |]; eauto.
  - intros a y (-> & Hb & Hy). auto.
Qed.
Lemma answered_ret {A} P (a : A) y : P y ->
  post (W := W) (E := Error) (mret a) (fun r d => answered P r (got y ++ d)).
Proof. intros Hy. apply post_ret. rewrite app_nil_r. by exists y. Qed.
Lemma answered_fail {A} P e y : post (W := W) (E := Error) (A := A) (fail e) (fun r d => answered P r (got y ++ d)).
Proof. apply post_fail. rewrite app_nil_r. by exists y. Qed.

Lemma split_last2 (y : bytes) n : 0 <= n -> len y = n + 2 -> exists a p, len a = n /\ len p = 2 /\ y = a ++ p.
Proof.
  intros Hn Hy. exists (take_z n y), (drop_z n y). rewrite take_drop_z, len_take_z, len_drop_z by done.
  repeat split; lia.
Qed.

Lemma response_answered cmd : post (W := W) (socks5_read_response io_text cmd) (answered reply).
Proof.
  apply (post_conseq _ (fun r d => answered reply r (got [] ++ d))); [|done].
  unfold socks5_read_response. apply read_more; [done|]. intros h _ Hh. cbn [app].
  destruct (udp_props.octets4 h Hh) as (v & c & rsv & at_ & ->). cbn [nth].
  destruct (v =? 5) eqn:Hv; cbn [negb]; [|apply answered_fail].
  destruct (c =? 0) eqn:Hc; cbn [negb]; [|apply answered_fail].
  assert (v = 5) as -> by lia. assert (c = 0) as -> by lia.
  destruct (at_ =? 1) eqn:H1; [|destruct (at_ =? 3) eqn:H3; [|destruct (at_ =? 4) eqn:H4; [|apply answered_fail]]].
  - assert (at_ = 1) as -> by lia. apply read_more; [done|]. intros y _ Hy. apply answered_ret.
    destruct (split_last2 y 4) as (a & p & Ha & Hp & ->); [done..|]. exists rsv, a, p. auto.
  - assert (at_ = 3) as -> by lia. apply read_more; [done|]. intros l Hb Hl.
    destruct l as [|n [|]]; [done| |unfold len in Hl; cbn in Hl; lia]. cbn [nth]. apply Forall_cons in Hb as [Hn _].
    unfold u8 in Hn. apply read_more; [lia|]. intros y _ Hy. apply answered_ret.
    destruct (split_last2 y n) as (a & p & Ha & Hp & ->); [lia|done|]. subst n. exists rsv, a, p. auto.
  - assert (at_ = 4) as -> by lia. apply read_more; [done|]. intros y _ Hy. apply answered_ret.
    destruct (split_last2 y 16) as (a & p & Ha & Hp & ->); [done..|]. exists rsv, a, p. auto.
Qed.

(** *** The requests *)

Lemma be16_land p : [as_u8 (p ≫ 8); as_u8 (Z.land p 255)] = be16 p.
Proof.
  unfold be16. do 2 f_equal. unfold as_u8. change 255 with (Z.ones 8). rewrite Z.land_ones by done.
  apply Zmod_mod.
Qed.

Lemma post_resolve host port (Q : Outcome Error (list SocketAddr) -> list Wire -> Prop) :
  (forall addresses w w', resolve host port w = (Ok addresses, w') -> Q (Ok addresses) []) ->
  (forall e, Q (Err e) []) -> post (do_resolve resolve host port) Q.
Proof.
  intros H1 H2 s w r s' w' _. unfold do_resolve. pose proof (resolve_returns host port w) as Hr.
  destruct (resolve host port w) as [r1 w1] eqn:E1. intros [= <- <- <-]. exists []. split; [done|].
  destruct r1; [by eapply H1|apply H2|done].
Qed.

Lemma response_done cmd : post (_ ← socks5_read_response (W := W) io_text cmd; mret tt) (answered reply).
Proof.
  apply post_bind. eapply post_conseq; [apply response_answered|]. intros [a|e|] d; [|done..].
  intros (y & Hy & ->). apply post_ret. exists y. by rewrite app_nil_r.
Qed.

Lemma connect_follows {A} (m : TM W Error A) host port remote_dns : post m (answered reply) ->
  post (_ ← socks5_send_connect resolve show io_text host port remote_dns; m)
    (follows (some_of (destination remote_dns host port) (fun dst => one (request dst)))).
Proof.
  intros Hm. set (T := some_of _ _). assert (Hstop : forall e : Error, follows (A := A) T (Err e) []).
  { intros e. exists false, []. split; [by right|constructor]. }
  assert (Hgo : forall dst, destination remote_dns host port (dst ++ be16 port) ->
    T true [mkTurn ([5; 1; 0] ++ dst ++ be16 port) reply]).
  { intros dst Hdst. left. by exists (dst ++ be16 port). }
  unfold socks5_send_connect. apply post_bind, post_bind. destruct remote_dns.
  - pose proof (len_nonneg host). destruct (255 <? len host) eqn:Hl; [by apply post_fail|]. apply post_ret.
    rewrite be16_land, as_u8_small by (unfold u8; lia). 
    apply (turn_parts _ _ _ _ _ reply); [|exact Hm]. apply Hgo. cbn [destination]. split; [lia|]. by rewrite <- app_assoc.
  - apply post_bind, post_map_err, post_resolve; [|done]. intros [|a others] w w' Hr; [by apply post_fail|].
    apply post_ret. rewrite be16_land. apply (turn_parts _ _ _ _ _ reply); [|exact Hm]. apply Hgo.
    by exists a, others, w, w'.
Qed.

Lemma send_address_follows {A} (m : TM W Error A) a : post m (answered reply) ->
  post (_ ← socks5_send_connect_address io_text a; m) (follows (one (request (addr_bytes a ++ be16 (sa_port a))))).
Proof. apply post_turn. Qed.

(** *** The head of a response *)

Lemma read_head_answered fuel response :
  (forall x, x `prefix_of` response -> ends_with CRLF2 x = false) -> len response <= 4096 ->
  4097 <= Z.of_nat fuel + len response ->
  post (W := W) (read_head io_text fuel response)
    (fun r d => match r with
                | Ok y => http_head y /\ exists z, y = response ++ z /\ d = got z
                | Err _ => exists z, d = got z
                | Panic => False
                end).
Proof.
  revert response. induction fuel as [|fuel IH]; intros response Hno Hl Hf; [lia|]. cbn [read_head].
  apply post_bind, post_read; [done| |by eauto]. intros b _ Hb.
  assert (Hl' : len (response ++ b) = len response + 1) by (rewrite len_app; lia).
  assert (Hpre : forall x, x `prefix_of` response ++ b -> x <> response ++ b -> ends_with CRLF2 x = false).
  { intros x [z Hz] Hne. destruct z as [|c z _] using rev_ind; [by rewrite app_nil_r in Hz|].
    apply Hno. exists z. destruct b as [|b0 [|]]; [done| |unfold len in Hb; cbn in Hb; lia].
    rewrite app_assoc in Hz. by apply app_inj_tail in Hz as [-> _]. }
  destruct (_ && _) eqn:He.
  - apply andb_true_iff in He as [_ He]. apply post_ret. split.
    + split; [done|]. split; [done|lia].
    + exists b. by rewrite app_nil_r.
  - destruct (4096 <? _) eqn:Hbig; [apply post_fail; rewrite app_nil_r; by eauto|].
    eapply post_conseq; [apply IH|].
    + intros x Hx. destruct (decide (x = response ++ b)) as [->|Hne]; [|by apply Hpre].
      apply andb_false_iff in He as [He|He]; [|done]. 
      destruct (ends_with _ _) eqn:Hw; [|done]. apply ends_with_iff in Hw as [r Hr].
      rewrite Hr, len_app in He. pose proof (len_nonneg r). change (len CRLF2) with 4 in He. lia.
    + lia.
    + lia.
    + intros [y|e|] d; [| |done].
      * intros (Hh & z & -> & ->). split; [done|]. exists (b ++ z). unfold got. by rewrite <- app_assoc, fmap_app.
      * intros (z & ->). exists (b ++ z). unfold got. by rewrite fmap_app.
Qed.

(** A CONNECT: the answer's status, and the answer. *)
Lemma send_request_posts target a (Q : Outcome Error (Z * bytes) -> list Wire -> Prop) :
  let b := connect_request base64 target a in
  (forall y, http_head y ->
     Q (Ok (default 0 (parse_http_status (first_line (vec_to_string_lossy y))), y)) (sent b ++ got y)) ->
  (forall e d, partial [mkTurn b http_ok] d -> Q (Err e) d) ->
  post (W := W) (send_connect_request base64 io_text target a) Q.
Proof.
  intros b H1 H2. unfold send_connect_request. apply post_bind, post_write.
  2:{ intros e x Hx. by apply H2, partial_said. }
  apply post_bind. eapply post_conseq; [apply read_head_answered|].
  - intros x Hx%prefix_nil_inv. by subst.
  - done.
  - unfold len. cbn [length]. lia.
  - intros [y|e|] d; [| |done].
    + intros (Hh & z & -> & ->). cbn [app] in *. apply post_ret. rewrite app_nil_r. by apply H1.
    + intros (z & ->). apply H2. apply (partial_heard (mkTurn b http_ok)).
Qed.

Lemma status_200 y : default 0 (parse_http_status (first_line (vec_to_string_lossy y))) =? 200 = true ->
  parse_http_status (first_line (vec_to_string_lossy y)) = Some 200.
Proof. destruct (parse_http_status _) as [n|]; cbn; intros; [f_equal; lia|lia]. Qed.

(** *** Hops and chains *)

Lemma negotiate_follows p host port :
  post (negotiate_over resolve base64 show io_text p host port) (follows (hop_talk p host port)).
Proof.
  unfold negotiate_over, hop_talk. destruct (scheme p) as [h q|h q remote_dns].
  - apply post_bind, send_request_posts; [|intros e d Hd; by eexists true, _]. intros y Hy.
    set (b := connect_request _ _ _). 
    assert (Hstop : forall e : Error, follows (A := unit) (one (mkTurn b http_ok)) (Err e) ((sent b ++ got y) ++ [])).
    { intros e. exists true, [mkTurn b http_ok]. split; [done|]. rewrite app_nil_r. apply (partial_heard (mkTurn b http_ok)). }
    destruct (_ =? 200) eqn:H200; [|destruct (_ =? 407); by apply post_fail].
    apply post_ret. exists [mkTurn b http_ok]. split; [done|]. rewrite <- app_assoc.
    apply (complete_cons (mkTurn b http_ok)); [|done]. split; [done|]. by apply status_200.
  - apply post_seq; [apply handshake_follows|]. intros _. apply connect_follows, response_done.
Qed.

Lemma negotiate_address_follows p a :
  post (W := W) (negotiate_over_address io_text p a) (follows (address_talk p a)).
Proof.
  unfold negotiate_over_address, address_talk. destruct (scheme p) as [h q|h q remote_dns].
  - apply post_fail. by exists false, [].
  - apply post_seq; [apply handshake_follows|]. intros _. apply send_address_follows, response_done.
Qed.

Lemma follows_map_err {E E' A} (f : E -> E') (m : TM W E A) T :
  post m (follows T) -> post (tm_map_err f m) (follows T).
Proof. intros H. apply post_map_err. eapply post_conseq; [exact H|]. by intros [a|e|] d. Qed.

Lemma tunnel_follows hops final host port :
  post (tunnel_through resolve base64 show io_text hops final host port) (follows (chain_talk hops final host port)).
Proof.
  induction hops as [|hop [|next rest] IH]; cbn [tunnel_through chain_talk].
  - apply post_ret. by exists [].
  - apply follows_map_err. destruct final; [apply negotiate_address_follows|apply negotiate_follows].
  - apply post_seq; [apply follows_map_err, negotiate_follows|]. intros _. apply IH.
Qed.

(** ** Connections *)

Hypothesis dial_returns : forall host port w, (dial host port w).1 <> Panic.
(** A new connection has carried nothing yet. *)
Hypothesis dial_fresh : forall host port w s w', dial host port w = (Ok s, w') -> s_log s = [] /\ is_bytes (s_in s).

(** Which address the last hop is asked for: one of the resolver's, or none but the name. *)
Definition final_target (p : ProxyConfig) (host : bytes) (port : Z) (final : option SocketAddr) : Prop :=
  match scheme p with
  | PSocks5 _ _ false =>
      exists a addresses w w', final = Some a /\ resolve host port w = (Ok addresses, w') /\ a ∈ addresses
  | _ => final = None
  end.
Definition connect_talk (p : ProxyConfig) (host : bytes) (port : Z) : Talk := fun b ts =>
  exists final, final_target p host port final /\ chain_talk (hops_of p) final host port b ts.

(** A connection to [at_] whose whole traffic is [s_log s], nothing read ahead of it. *)
Definition opened (at_ : bytes * Z) (s : Stream) : Prop :=
  exists s0 w w', dial at_.1 at_.2 w = (Ok s0, w') /\ s_in s0 = heard (s_log s) ++ s_in s.
Definition kept (at_ : bytes * Z) (T : Talk) (s : Stream) : Prop :=
  opened at_ s /\ exists ts, T true ts /\ complete ts (s_log s).
Definition given_up (at_ : bytes * Z) (T : Talk) (s : Stream) : Prop :=
  opened at_ s /\ exists b ts, T b ts /\ partial ts (s_log s).

Definition cm_ok (at_ : bytes * Z) (T : Talk) (c : CM (W := W) Stream) : Prop :=
  forall w r dropped w', c w = (r, dropped, w') ->
    Forall (given_up at_ T) dropped /\
    match r with Ok s => kept at_ T s | Err _ => True | Panic => False end.

Lemma cm_keep at_ T s : kept at_ T s -> cm_ok at_ T (keep s).
Proof. by intros H w r dropped w' [= <- <- <-]. Qed.
Lemma cm_drop at_ T e s : given_up at_ T s -> cm_ok at_ T (drop_with e s).
Proof. intros H w r dropped w' [= <- <- <-]. split; [by constructor|done]. Qed.
Lemma cm_err at_ T e : cm_ok at_ T (fun w => (Err e, [], w)).
Proof. by intros w r dropped w' [= <- <- <-]. Qed.
Lemma cm_then_drop at_ T s c : given_up at_ T s -> cm_ok at_ T c -> cm_ok at_ T (then_drop s c).
Proof.
  intros H Hc w r dropped w'. unfold then_drop. destruct (c w) as [[r1 dr1] w1] eqn:E1.
  intros [= <- <- <-]. destruct (Hc _ _ _ _ E1) as [H1 H2]. split; [by constructor|done].
Qed.

(** Dialling at [at_], then talking. *)
Lemma cm_dial {A} at_ T (m : TM W Error A) (Q : Outcome Error A -> list Wire -> Prop)
    (k : Outcome Error A -> Stream -> CM (W := W) Stream) (f : Error -> Error) :
  post m Q -> (forall r s, opened at_ s -> Q r (s_log s) -> cm_ok at_ T (k r s)) ->
  cm_ok at_ T (fun w =>
    match connect_tcp_to_proxy dial show at_.1 at_.2 w with
    | (Ok s, w) => let '(r, s, w) := m s w in k r s w
    | (Err e, w) => (Err (f e), [], w)
    | (Panic, w) => (Panic, [], w)
    end).
Proof.
  intros Hm Hk w r dropped w'. unfold connect_tcp_to_proxy. pose proof (dial_returns at_.1 at_.2 w) as Hp.
  destruct (dial at_.1 at_.2 w) as [[s|e|] w1] eqn:Ed; [|by intros [= <- <- <-]|done].
  destruct (m s w1) as [[r1 s1] w2] eqn:Em. destruct (dial_fresh _ _ _ _ _ Ed) as [Hlog Hb].
  destruct (Hm _ _ _ _ _ Hb Em) as (d & (H1 & H2 & _) & Hq). rewrite Hlog in H1. cbn in H1. subst d.
  apply Hk; [|done]. by exists s, w, w1.
Qed.

Lemma cm_ext at_ T c c' : (forall w, c w = c' w) -> cm_ok at_ T c' -> cm_ok at_ T c.
Proof. intros H Hc w r dropped w'. rewrite H. apply Hc. Qed.

Lemma cm_dial_and {A} at_ T (m : TM W Error A) (Q : Outcome Error A -> list Wire -> Prop) k failed :
  post m Q -> (forall d, ~ Q Panic d) ->
  (forall a s, opened at_ s -> Q (Ok a) (s_log s) -> cm_ok at_ T (k a s)) ->
  (forall e s, opened at_ s -> Q (Err e) (s_log s) -> cm_ok at_ T (failed e s)) ->
  cm_ok at_ T (dial_and dial show at_.1 at_.2 m k failed).
Proof.
  intros Hm Hp Hk Hf.
  eapply cm_ext; [|apply (cm_dial at_ T m Q (fun r s => match r with
    | Ok a => k a s | Err e => failed e s | Panic => fun w => (Panic, [s], w) end) (fun e => e) Hm)].
  - intros w. unfold dial_and. destruct (connect_tcp_to_proxy _ _ _ _ _) as [[s|e|] w1]; [|done..].
    by destruct (m s w1) as [[[a|e|] s1] w2].
  - intros [a|e|] s Ho Hq; [by apply Hk|by apply Hf|]. by destruct (Hp _ Hq).
Qed.

(** How a CONNECT ends, its status told apart. *)
Definition asked (t : Turn) (r : Outcome Error (Z * bytes)) (d : list Wire) : Prop :=
  match r with
  | Ok (status, _) => partial [t] d /\ (status =? 200 = true -> complete [t] d)
  | Err _ => partial [t] d
  | Panic => False
  end.
Definition http_turn (target : bytes) (a : option ProxyAuth) : Turn := mkTurn (connect_request base64 target a) http_ok.

Lemma request_asked target a :
  post (W := W) (send_connect_request base64 io_text target a) (asked (http_turn target a)).
Proof.
  set (b := connect_request base64 target a).
  apply send_request_posts; [|done]. intros y Hy. fold b. split; [apply (partial_heard (mkTurn b http_ok))|].
  intros H200%status_200. rewrite <- (app_nil_r (got y)). by apply (complete_cons (mkTurn b http_ok)).
Qed.

Lemma http_connect_ok p proxy_host proxy_port host port :
  scheme p = PHttp proxy_host proxy_port -> chain p = [] ->
  cm_ok (proxy_host, proxy_port) (connect_talk p host port)
    (connect_http dial base64 show io_text p proxy_host proxy_port host port).
Proof.
  intros Hp Hc. set (at_ := (proxy_host, proxy_port)). set (T := connect_talk p host port).
  set (t := http_turn (host_colon_port host port) (auth p)).
  assert (HT : forall c, T c [t]).
  { intros c. exists None. unfold final_target, hops_of. rewrite Hp, Hc. split; [done|]. cbn. unfold hop_talk. by rewrite Hp. }
  assert (Hup : forall e s, opened at_ s -> partial [t] (s_log s) -> cm_ok at_ T (drop_with e s)).
  { intros e s Ho Hd. apply cm_drop. split; [done|]. by exists true, [t]. }
  assert (Hkeep : forall s, opened at_ s -> complete [t] (s_log s) -> cm_ok at_ T (keep s)).
  { intros s Ho Hd. apply cm_keep. split; [done|]. by exists [t]. }
  eapply (cm_dial_and at_); [apply request_asked|intros d []| |exact Hup].
  intros [status y] s Ho [Hpa Hco]. destruct (status =? 200); [auto|].
  destruct (status =? 407); [|auto]. destruct (_ && _); [|auto].
  apply cm_then_drop; [split; [done|]; by exists true, [t]|].
  eapply cm_ext; [|apply (cm_dial at_ T _ _ (fun r s => match r with
    | Ok (retry_code, _) => if retry_code =? 200 then keep s else drop_with (retry_error retry_code) s
    | Err e => drop_with e s | Panic => fun w => (Panic, [s], w) end)
    (reconnect_error show (host_colon_port proxy_host proxy_port)) (request_asked (host_colon_port host port) (auth p)))].
  - intros w. cbn [fst snd at_]. destruct (connect_tcp_to_proxy _ _ _ _ _) as [[s1|e|] w1]; [|done..].
    destruct (send_connect_request _ _ _ _ _ _) as [[[[code y']|e|] s2] w2]; [|done..]. by destruct (code =? 200).
  - intros [[code y']|e|] s2 Ho2 Hq; [|by apply Hup|done]. destruct Hq as [Hpa2 Hco2]. destruct (code =? 200); auto.
Qed.

(** *** Every address in turn *)

Lemma catch_tail {A} (h g : TM W Error unit) (m : TM W Error A) T :
  post (_ ← h; _ ← g; m) (follows T) ->
  post (_ ← h; _ ← g; catch m)
    (fun r d => match r with
                | Ok None => exists ts, T true ts /\ complete ts d
                | Ok (Some _) | Err _ => exists b ts, T b ts /\ partial ts d
                | Panic => False
                end).
Proof.
  intros H s w r s' w' Hb. specialize (H s w). revert H. unfold mbind, tm_bind, catch.
  destruct (h s w) as [[[[]|e|] s1] w1].
  2-3: intros H [= <- <- <-]; exact (H _ _ _ Hb eq_refl).
  destruct (g s1 w1) as [[[[]|e|] s2] w2].
  2-3: intros H [= <- <- <-]; exact (H _ _ _ Hb eq_refl).
  destruct (m s2 w2) as [[[a|e|] s3] w3]; intros H [= <- <- <-]; exact (H _ _ _ Hb eq_refl).
Qed.

(** An address of the resolver's answer. *)
Lemma alternate_in a l1 l2 : a ∈ alternate l1 l2 -> a ∈ l1 \/ a ∈ l2.
Proof. revert l2. induction l1 as [|x l1 IH]; intros [|y l2]; cbn; rewrite ?elem_of_cons; naive_solver. Qed.
Lemma interleave_in a addresses : a ∈ interleave_address_families addresses -> a ∈ addresses.
Proof.
  destruct addresses as [|first l]; [done|]. unfold interleave_address_families. 
  destruct (is_ipv6 first); intros [H|H]%alternate_in; by apply list_elem_of_filter in H as [_ H].
Qed.

Definition local_dns (p : ProxyConfig) : Prop := match scheme p with PSocks5 _ _ false => True | _ => False end.

Lemma final_local p host port a addresses w w' : local_dns p -> resolve host port w = (Ok addresses, w') ->
  a ∈ interleave_address_families addresses -> final_target p host port (Some a).
Proof.
  unfold local_dns, final_target. destruct (scheme p) as [|h q [|]]; [done..|]. intros _ Hr Ha%interleave_in. naive_solver.
Qed.
Lemma final_none p host port : ~ local_dns p -> final_target p host port None.
Proof. unfold local_dns, final_target. by destruct (scheme p) as [|h q [|]]. Qed.

Lemma socks5_targets_ok p proxy_host proxy_port remote host port targets failures :
  scheme p = PSocks5 proxy_host proxy_port remote -> chain p = [] ->
  Forall (fun a => final_target p host port (Some a)) targets ->
  cm_ok (proxy_host, proxy_port) (connect_talk p host port)
    (socks5_targets dial show show_addr io_text p proxy_host proxy_port targets failures).
Proof.
  intros Hp Hc Hts. revert failures. induction Hts as [|a targets Ha _ IH]; intros failures; cbn [socks5_targets].
  { apply cm_err. }
  assert (HT : forall b ts, address_talk p a b ts -> connect_talk p host port b ts).
  { intros b ts H. exists (Some a). split; [done|]. unfold hops_of. by rewrite Hc. }
  unfold address_talk in HT. rewrite Hp in HT.
  eapply (cm_dial_and (proxy_host, proxy_port)).
  - apply catch_tail. apply post_seq; [apply handshake_follows|]. intros _.
    apply (send_address_follows _ a), response_answered.
  - intros d [].
  - intros [e|] s Ho; cbn.
    + intros (b & ts & Hb & Hd). assert (Hup : given_up (proxy_host, proxy_port) (connect_talk p host port) s).
      { split; [done|]. eauto. }
      destruct (is_retryable_socks5_target_error e); [by apply cm_then_drop|by apply cm_drop].
    + intros (ts & Hb & Hd). apply cm_keep. split; [done|]. eauto.
  - intros e s Ho (b & ts & Hb & Hd). apply cm_drop. split; [done|]. eauto.
Qed.

Lemma Forall_final p host port addresses w w' : local_dns p -> resolve host port w = (Ok addresses, w') ->
  Forall (fun a => final_target p host port (Some a)) (interleave_address_families addresses).
Proof. intros Hl Hr. apply Forall_forall. intros a Ha. by eapply final_local. Qed.

Lemma socks5_inner_ok p proxy_host proxy_port remote host port :
  scheme p = PSocks5 proxy_host proxy_port remote -> chain p = [] ->
  cm_ok (proxy_host, proxy_port) (connect_talk p host port)
    (connect_socks5_inner resolve dial show show_addr io_text p proxy_host proxy_port host port remote).
Proof.
  intros Hp Hc. unfold connect_socks5_inner. destruct remote.
  - assert (HT : forall b ts, hop_talk p host port b ts -> connect_talk p host port b ts).
    { intros b ts H. exists None. unfold final_target, hops_of. rewrite Hp, Hc. by split. }
    unfold hop_talk in HT. rewrite Hp in HT. eapply (cm_dial_and (proxy_host, proxy_port)).
    + apply post_seq; [apply handshake_follows|]. intros _. apply (connect_follows _ host port true), response_answered.
    + intros d [].
    + intros a s Ho (ts & Hb & Hd). apply cm_keep. split; [done|]. eauto.
    + intros e s Ho (b & ts & Hb & Hd). apply cm_drop. split; [done|]. eauto.
  - intros w. pose proof (resolve_returns host port w) as Hr.
    destruct (resolve host port w) as [[addresses|e|] w1] eqn:Er; [|apply (cm_err _ _ _ w1)|done].
    destruct (is_empty _); [apply (cm_err _ _ _ w1)|]. eapply socks5_targets_ok; [done..|].
    eapply Forall_final; [|done]. unfold local_dns. by rewrite Hp.
Qed.

Lemma chain_targets_ok p host port targets failures :
  Forall (final_target p host port) targets ->
  cm_ok (first_hop p) (connect_talk p host port)
    (chain_targets resolve dial base64 show show_addr io_text (hops_of p) (first_hop p) host port targets failures).
Proof.
  intros Hts. revert failures. induction Hts as [|final targets Ha _ IH]; intros failures; cbn [chain_targets].
  { apply cm_err. }
  assert (HT : forall b ts, chain_talk (hops_of p) final host port b ts -> connect_talk p host port b ts).
  { intros b ts H. by exists final. }
  intros w r dropped w'. unfold connect_tcp_to_proxy. pose proof (dial_returns (first_hop p).1 (first_hop p).2 w) as Hp.
  destruct (dial _ _ w) as [[s|e|] w1] eqn:Ed; [|by intros [= <- <- <-]|done].
  destruct (tunnel_through _ _ _ _ _ _ _ _ s w1) as [[r1 s1] w2] eqn:Em. destruct (dial_fresh _ _ _ _ _ Ed) as [Hlog Hb].
  destruct (tunnel_follows _ _ _ _ _ _ _ _ _ Hb Em) as (d & (H1 & H2 & _) & Hq). rewrite Hlog in H1. cbn in H1. subst d.
  assert (Ho : opened (first_hop p) s1) by (by exists s, w, w1). destruct r1 as [[]|[last e]|]; [| |done].
  - destruct Hq as (ts & Hts & Hd). apply cm_keep. split; eauto.
  - assert (Hup : given_up (first_hop p) (connect_talk p host port) s1).
    { destruct Hq as (b & ts & Hb' & Hd). split; eauto. }
    destruct final as [target|]; [|by apply cm_drop].
    destruct (_ && _); [by apply cm_then_drop|by apply cm_drop].
Qed.

Lemma connect_ok p host port :
  cm_ok (first_hop p) (connect_talk p host port) (connect resolve dial base64 show show_addr io_text p host port).
Proof.
  unfold connect. destruct (chain p) as [|c l] eqn:Hc; cbn [is_empty negb].
  - assert (Hf : first_hop p = host_port p) by (unfold first_hop, hops_of; by rewrite Hc).
    rewrite Hf. unfold host_port. destruct (scheme p) eqn:Hp; [by apply http_connect_ok|by apply socks5_inner_ok].
  - unfold connect_chain. destruct (scheme p) as [h q|h q [|]] eqn:Hp.
    1-2: apply chain_targets_ok; constructor; [apply final_none; unfold local_dns; rewrite Hp; tauto|done].
    intros w. pose proof (resolve_returns host port w) as Hr.
    destruct (resolve host port w) as [[addresses|e|] w1] eqn:Er; [|apply (cm_err _ _ _ w1)|done].
    destruct (is_empty _); [apply (cm_err _ _ _ w1)|]. apply chain_targets_ok, Forall_fmap.
    eapply Forall_final; [|done]. unfold local_dns. by rewrite Hp.
Qed.

(** ** Associations *)

Lemma post_and {E A} (m : TM W E A) (Q1 Q2 : Outcome E A -> list Wire -> Prop) :
  post m Q1 -> post m Q2 -> post m (fun r d => Q1 r d /\ Q2 r d).
Proof.
  intros H1 H2 s w r s' w' Hb Hr. destruct (H1 _ _ _ _ _ Hb Hr) as (d & Hd & Hq1).
  destruct (H2 _ _ _ _ _ Hb Hr) as (e & He & Hq2). exists d. split; [done|]. split; [done|].
  destruct Hd as [Hd _], He as [He _]. rewrite Hd in He. by apply app_inv_head in He as ->.
Qed.

Definition returns {E A} (P : A -> Prop) (r : Outcome E A) (_ : list Wire) : Prop :=
  match r with Ok a => P a | _ => True end.

Lemma nth_u8 (y : bytes) i : is_bytes y -> u8 (nth i y 0).
Proof.
  intros Hy. destruct (nth_in_or_default i y 0) as [H| ->]; [|by unfold u8].
  apply (proj1 (Forall_forall u8 y) Hy). by apply list_elem_of_In.
Qed.

Lemma response_value cmd : post (W := W) (socks5_read_response io_text cmd) (returns addr_ok).
Proof.
  assert (Hport : forall y i j, is_bytes y -> u16 (from_be16 (nth i y 0) (nth j y 0))).
  { intros. apply from_be16_range; by apply nth_u8. }
  unfold socks5_read_response. apply post_bind, post_read; [done| |done]. intros h _ _.
  destruct (negb _); [by apply post_fail|]. destruct (negb _); [by apply post_fail|].
  destruct (_ =? 1); [|destruct (_ =? 3); [|destruct (_ =? 4); [|by apply post_fail]]].
  - apply post_bind, post_read; [done| |done]. intros y Hy Hl. apply post_ret. split; [|by apply Hport].
    split; [rewrite len_take_z by done; lia|by apply Forall_take].
  - apply post_bind, post_read; [done| |done]. intros l Hb _. pose proof (nth_u8 l 0 Hb) as Hn. unfold u8 in Hn.
    apply post_bind, post_read; [lia| |done]. intros y Hy _. apply post_ret. split; [|by apply Hport].
    split; [done|]. repeat constructor; by unfold u8.
  - apply post_bind, post_read; [done| |done]. intros y Hy Hl. apply post_ret. split; [|by apply Hport].
    split; [rewrite len_take_z by done; lia|by apply Forall_take].
Qed.

(** Through the hops to the last one's listener, which is asked for a relay. *)
Fixpoint reach_talk (hops : list ProxyConfig) : Talk :=
  match hops with
  | hop :: (next :: _) as rest => and_then (hop_talk hop (host_port next).1 (host_port next).2) (reach_talk rest)
  | _ => silent
  end.
Definition associate_talk (hops : list ProxyConfig) : Talk :=
  and_then (reach_talk hops) (and_then (socks_auth (last hops ≫= auth)) (one (mkTurn [5; 3; 0; 1; 0; 0; 0; 0; 0; 0] reply))).

Lemma reach_follows hops : post (reach resolve base64 show io_text hops) (follows (reach_talk hops)).
Proof.
  induction hops as [|hop [|next rest] IH]; cbn [reach reach_talk].
  1-2: apply post_ret; by exists [].
  apply post_seq; [apply negotiate_follows|]. intros _. apply IH.
Qed.

Lemma post_returns {E A B} (m : TM W E A) (k : A -> TM W E B) P Q :
  post m Q -> (forall a, post (k a) (returns P)) -> post (m ≫= k) (returns P).
Proof.
  intros Hm Hk. apply post_bind. eapply post_conseq; [exact Hm|]. intros [a|e|] d _; [|done..].
  eapply post_conseq; [apply Hk|]. by intros [b|e|].
Qed.

Lemma associate_follows hops hop : last hops = Some hop ->
  post (_ ← reach resolve base64 show io_text hops; _ ← socks5_handshake io_text (auth hop); send_udp_associate io_text)
    (fun r d => follows (associate_talk hops) r d /\ returns addr_ok r d).
Proof.
  intros Hl. apply post_and.
  - unfold associate_talk. rewrite Hl. apply post_seq; [apply reach_follows|]. intros _.
    apply post_seq; [apply handshake_follows|]. intros _. apply post_turn, response_answered.
  - eapply post_returns; [apply reach_follows|]. intros _. eapply post_returns; [apply handshake_follows|]. intros _.
    eapply post_returns; [|intros _; apply response_value]. by apply (post_write _ _ _ (fun _ _ => True)).
Qed.

(** An association: its control connections are conversations with the successive
    hops, and its relays are well formed. *)
Definition associated (p : ProxyConfig) (hops : list ProxyConfig) (a : UdpAssociation) : Prop :=
  length (control_conns a) = length hops /\
  (forall i s, control_conns a !! i = Some s -> kept (first_hop p) (associate_talk (take (S i) hops)) s) /\
  length (inner_relays a) = pred (length hops) /\ Forall udp_props.target_ok (inner_relays a).

Lemma first_relay_run raw s w : exists r, resolve_first_relay (W := W) io_text raw s w = (r, s, w) /\ r <> Panic.
Proof. unfold resolve_first_relay. repeat case_match; by eexists. Qed.

Lemma inner_relay_ok raw hop : addr_ok raw -> 0 < len (host_port hop).1 <= 255 ->
  udp_props.target_ok (resolve_inner_relay raw hop).
Proof.
  intros [Hip Hp] Hh. unfold resolve_inner_relay. destruct (host_port hop) as [h q]. cbn in Hh.
  destruct (negb _); [by split|]. destruct (parse_ip_addr h) as [ip|] eqn:E1; [|by split].
  split; [by eapply parse_ip_ok|done].
Qed.

Lemma associate_hops_ok p rest : forall reached conns relay inner w r dropped w',
  reached ++ rest = hops_of p -> Forall (fun hop => 0 < len (host_port hop).1 <= 255) rest ->
  (if bool_decide (reached = []) then relay = None /\ inner = [] else is_Some relay) ->
  length inner = pred (length reached) -> Forall udp_props.target_ok inner -> length conns = length reached ->
  (forall i s, conns !! i = Some s -> kept (first_hop p) (associate_talk (take (S i) (hops_of p))) s) ->
  associate_hops resolve dial base64 show io_text (first_hop p) reached rest conns relay inner w = (r, dropped, w') ->
  match r with Ok a => dropped = [] /\ associated p (hops_of p) a | Err _ => True | Panic => False end.
Proof.
  induction rest as [|hop rest IH]; intros reached conns relay inner w r dropped w' Hr Hh Hrel Hin Hok Hlen Hconns; cbn [associate_hops].
  - rewrite app_nil_r in Hr. subst reached. destruct relay as [relay|].
    + intros [= <- <- <-]. by split.
    + exfalso. rewrite bool_decide_false in Hrel; [by destruct Hrel|]. unfold hops_of. by destruct (chain p).
  - apply Forall_cons in Hh as [Hhop Hh]. unfold connect_tcp_to_proxy.
    pose proof (dial_returns (first_hop p).1 (first_hop p).2 w) as Hp.
    destruct (dial _ _ w) as [[s|e|] w1] eqn:Ed; [|by intros [= <- <- <-]|done].
    destruct ((_ ← reach _ _ _ _ _; _) s w1) as [[r1 s1] w2] eqn:Em. destruct (dial_fresh _ _ _ _ _ Ed) as [Hlog Hb].
    destruct (associate_follows (reached ++ [hop]) hop (last_snoc _ _) _ _ _ _ _ Hb Em) as (d & (H1 & H2 & _) & Hq & Hv).
    rewrite Hlog in H1. cbn in H1. subst d. destruct r1 as [raw|e|]; [|by intros [= <- <- <-]|done]. cbn in Hv.
    assert (Hr' : (reached ++ [hop]) ++ rest = hops_of p) by (by rewrite <- app_assoc).
    assert (Hk : kept (first_hop p) (associate_talk (take (S (length conns)) (hops_of p))) s1).
    { split; [by exists s, w, w1|]. rewrite <- Hr', Hlen, take_app_length'; [done|]. rewrite length_app. cbn. lia. }
    assert (Hconns' : forall i s, (conns ++ [s1]) !! i = Some s -> kept (first_hop p) (associate_talk (take (S i) (hops_of p))) s).
    { intros i s' [Hi|[Hi Hs]]%lookup_app_Some; [by apply Hconns|]. apply list_lookup_singleton_Some in Hs as [Hi0 <-].
      by replace i with (length conns) by lia. }
    assert (Hlen' : length (conns ++ [s1]) = length (reached ++ [hop])) by (rewrite !length_app; cbn; lia).
    assert (Hne : bool_decide (reached ++ [hop] = []) = false) by (apply bool_decide_false; by destruct reached).
    destruct relay as [relay|].
    + apply IH; try done.
      * by rewrite Hne.
      * rewrite !length_app. cbn. destruct reached; [by destruct Hrel|cbn in *; lia].
      * apply Forall_app. split; [done|]. constructor; [by apply inner_relay_ok|done].
    + destruct (first_relay_run raw s1 w2) as (r2 & -> & Hr2). destruct r2 as [relay|e|]; [|by intros [= <- <- <-]|done].
      destruct (bool_decide (reached = [])) eqn:Hd0; [|by destruct Hrel]. apply bool_decide_eq_true in Hd0 as ->.
      destruct Hrel as [_ ->]. apply IH; try done. by rewrite Hne.
Qed.

Lemma bind_last {A B} (h : TM W Error unit) (m : TM W Error A) (k : A -> TM W Error B) s w :
  (_ ← h; a ← m; k a) s w =
    match (_ ← h; m) s w with
    | (Ok a, s, w) => k a s w
    | (Err e, s, w) => (Err e, s, w)
    | (Panic, s, w) => (Panic, s, w)
    end.
Proof. unfold mbind, tm_bind. by destruct (h s w) as [[[[]|e|] s1] w1]. Qed.

Lemma associate_single_ok p w r dropped w' : hops_of p = [p] ->
  udp_associate resolve dial base64 show io_text p w = (r, dropped, w') ->
  match r with Ok a => dropped = [] /\ associated p (hops_of p) a | Err _ => True | Panic => False end.
Proof.
  intros Hhops. assert (Hf : first_hop p = host_port p) by (unfold first_hop; by rewrite Hhops).
  assert (Hc : chain p = []) by (unfold hops_of in Hhops; destruct (chain p) as [|c [|]]; done).
  unfold udp_associate. rewrite Hc. cbn [is_empty negb]. destruct (host_port p) as [h q] eqn:Hhp.
  unfold connect_tcp_to_proxy. pose proof (dial_returns h q w) as Hp.
  destruct (dial h q w) as [[s|e|] w1] eqn:Ed; [|by intros [= <- <- <-]|done].
  rewrite bind_last. destruct ((_ ← socks5_handshake _ _; _) s w1) as [[r1 s1] w2] eqn:Em.
  destruct (dial_fresh _ _ _ _ _ Ed) as [Hlog Hb].
  destruct (associate_follows [p] p eq_refl s w1 r1 s1 w2 Hb Em) as (d & (H1 & H2 & _) & Hq & Hv).
  rewrite Hlog in H1. cbn in H1. subst d. destruct r1 as [raw|e|]; [|by intros [= <- <- <-]|done].
  destruct (first_relay_run raw s1 w2) as (r2 & -> & Hr2). destruct r2 as [relay|e|]; [|by intros [= <- <- <-]|done].
  intros [= <- <- <-]. split; [done|]. rewrite Hhops. split; [done|]. split; [|by split; [|constructor]].
  intros i s' [-> <-]%list_lookup_singleton_Some. split; [|done]. rewrite Hf. by exists s, w, w1.
Qed.

Lemma udp_associate_ok p w r dropped w' :
  Forall (fun hop => 0 < len (host_port hop).1 <= 255) (hops_of p) ->
  udp_associate resolve dial base64 show io_text p w = (r, dropped, w') ->
  match r with Ok a => dropped = [] /\ associated p (hops_of p) a | Err _ => True | Panic => False end.
Proof.
  intros Hh. destruct (chain p) as [|c l] eqn:Hc; [apply associate_single_ok; unfold hops_of; by rewrite Hc|].
  unfold udp_associate. rewrite Hc. cbn [is_empty negb].
  unfold udp_associate_chain. destruct (head _); [by intros [= <- <- <-]|]. by apply associate_hops_ok.
Qed.

(** ** Accepted dialogues *)

Lemma complete_app_inv ts us d : complete (ts ++ us) d -> exists d1 d2, d = d1 ++ d2 /\ complete ts d1 /\ complete us d2.
Proof.
  revert d. induction ts as [|t ts IH]; cbn [app]; intros d Hd; [by exists [], d|].
  inversion Hd as [|? ? y d' Hy Hd' E1 E2]; subst. destruct (IH _ Hd') as (d1 & d2 & -> & H1 & H2).
  exists (sent (said t) ++ got y ++ d1), d2. rewrite <- !app_assoc. eauto.
Qed.
Lemma complete_one_inv t d : complete [t] d -> exists y, accepts t y /\ d = sent (said t) ++ got y.
Proof.
  intros Hd. inversion Hd as [|? ? y d' Hy Hd' E1 E2]; subst. inversion Hd'; subst. exists y. by rewrite app_nil_r.
Qed.

(** With a peer that says its part of [d], and then [rest]. *)
Definition grants {E A} (m : TM W E A) (d : list Wire) : Prop :=
  forall rest log peer w, exists a w',
    m (mkStream (heard d ++ rest) log [] peer) w = (Ok a, mkStream rest (log ++ d) [] peer, w').
Definition takes {E A} (m : TM W E A) (T : Talk) : Prop := forall ts d, T true ts -> complete ts d -> grants m d.

Lemma grants_bind {E A B} (m : TM W E A) (k : A -> TM W E B) d e :
  grants m d -> (forall a, grants (k a) e) -> grants (m ≫= k) (d ++ e).
Proof.
  intros Hm Hk rest log peer w. rewrite heard_app, <- app_assoc. unfold mbind, tm_bind.
  destruct (Hm (heard e ++ rest) log peer w) as (a & w1 & ->). destruct (Hk a rest (log ++ d) peer w1) as (b & w2 & ->).
  exists b, w2. by rewrite app_assoc.
Qed.
Lemma takes_seq {E A B} (m : TM W E A) (k : A -> TM W E B) T U :
  takes m T -> (forall a, takes (k a) U) -> takes (m ≫= k) (and_then T U).
Proof.
  intros Hm Hk ts d [(ts1 & ts2 & H1 & H2 & ->)|[? _]] Hd; [|done].
  destruct (complete_app_inv _ _ _ Hd) as (d1 & d2 & -> & Hd1 & Hd2).
  apply grants_bind; [by eapply Hm|]. intros a. by eapply Hk.
Qed.
Lemma grants_write what b : grants (write_all (W := W) io_text what b) (sent b).
Proof. intros rest log peer w. exists tt, w. by rewrite heard_sent. Qed.

(** The bytes of an answer, up to what a continuation does with them. *)
Definition hears {A} (m : TM W Error A) (y : bytes) : Prop := grants m (got y).
Lemma read_run what n y rest log peer w : len y = n ->
  read_exact (W := W) io_text what n (mkStream (y ++ rest) log [] peer) w = (Ok y, mkStream rest (log ++ got y) [] peer, w).
Proof.
  intros <-. unfold read_exact. cbn [s_in s_log s_writes s_peer]. rewrite len_app. pose proof (len_nonneg rest).
  replace (_ <? _) with false by lia. by rewrite take_z_app_len, drop_z_app_len.
Qed.
Lemma grants_read {A} what n (k : bytes -> TM W Error A) y e : len y = n -> grants (k y) e ->
  grants (read_exact io_text what n ≫= k) (got y ++ e).
Proof.
  intros Hn Hk rest log peer w. rewrite heard_app, heard_got, <- app_assoc. unfold mbind, tm_bind.
  rewrite read_run by done. destruct (Hk rest (log ++ got y) peer w) as (a & w' & E1).
  rewrite E1. exists a, w'. by rewrite <- app_assoc.
Qed.
Lemma hears_bind {A} what n (k : bytes -> TM W Error A) y z : len y = n -> hears (k y) z ->
  hears (read_exact io_text what n ≫= k) (y ++ z).
Proof. intros Hn Hk. unfold hears, got. rewrite fmap_app. by apply grants_read. Qed.
Lemma hears_ret {A} (a : A) : hears (mret a) [].
Proof. intros rest log peer w. exists a, w. cbn. by rewrite app_nil_r. Qed.

Lemma handshake_takes a : takes (socks5_handshake (W := W) io_text a) (socks_auth a).
Proof.
  intros ts d Hts Hd. unfold socks5_handshake. destruct a as [a|]; unfold socks_auth in Hts; [destruct Hts as [->|(Hu & Hp & ->)]|subst ts].
  2:{ destruct (complete_app_inv [_] [_] _ Hd) as (d1 & d2 & -> & Hd1 & Hd2).
      apply complete_one_inv in Hd1 as (y & <- & ->). apply complete_one_inv in Hd2 as (z & [v ->] & ->).
      rewrite <- app_assoc. apply grants_bind; [apply grants_write|]. intros _.
      pose proof (len_nonneg (username a)). pose proof (len_nonneg (password a)).
      apply grants_read; [done|]. cbn [nth negb Z.eqb Pos.eqb].
      replace (255 <? len (username a)) with false by lia. replace (255 <? len (password a)) with false by lia.
      cbn [orb]. rewrite !as_u8_small by (unfold u8; lia). apply grants_bind; [apply grants_write|]. intros _.
      by apply (hears_bind _ _ _ [v; 0] []), hears_ret. }
  all: apply complete_one_inv in Hd as (y & <- & ->); apply grants_bind; [apply grants_write|]; intros _;
    apply (hears_bind _ _ _ [5; 0] []); [done|apply hears_ret].
Qed.

Lemma response_hears cmd y : reply y -> hears (socks5_read_response (W := W) io_text cmd) y.
Proof.
  intros (rsv & addr & port & Hp & Hy). unfold socks5_read_response.
  assert (Hap : len (addr ++ port) = len addr + 2) by (rewrite len_app; lia).
  destruct Hy as [[Ha ->]|[[Ha ->]| ->]].
  - apply hears_bind; [done|]. rewrite <- (app_nil_r (addr ++ port)). apply hears_bind; [lia|apply hears_ret].
  - apply hears_bind; [done|]. rewrite <- (app_nil_r (addr ++ port)). apply hears_bind; [lia|apply hears_ret].
  - apply (hears_bind _ _ _ [5; 0; rsv; 3] ([len addr] ++ addr ++ port)); [done|].
    apply (hears_bind _ _ _ [len addr]); [done|]. rewrite <- (app_nil_r (addr ++ port)).
    apply hears_bind; [cbn [nth]; lia|apply hears_ret].
Qed.

Lemma response_done_hears cmd y : reply y -> hears (_ ← socks5_read_response (W := W) io_text cmd; mret tt) y.
Proof.
  intros Hy. unfold hears. rewrite <- (app_nil_r (got y)). apply grants_bind; [by apply response_hears|].
  intros a. apply (hears_ret tt).
Qed.

Lemma turn_takes {A} what b (m : TM W Error A) P :
  (forall y, P y -> hears m y) -> takes (_ ← write_all io_text what b; m) (one (mkTurn b P)).
Proof.
  intros Hm ts d -> Hd. apply complete_one_inv in Hd as (y & Hy & ->). apply grants_bind; [apply grants_write|].
  intros _. by apply Hm.
Qed.

(** A resolver whose answers do not change. *)
Hypothesis resolve_steady : forall host port w w', (resolve host port w).1 = (resolve host port w').1.

Lemma connect_takes {A} (m : TM W Error A) host port remote_dns : (forall y, reply y -> hears m y) ->
  takes (_ ← socks5_send_connect resolve show io_text host port remote_dns; m)
    (some_of (destination remote_dns host port) (fun dst => one (request dst))).
Proof.
  intros Hm ts d [(dst & Hdst & ->)|[? _]] Hd; [|done]. apply complete_one_inv in Hd as (y & Hy & ->).
  apply grants_bind; [|by intros _; apply Hm]. unfold socks5_send_connect. rewrite be16_land. cbn [said request].
  pose proof (len_nonneg host). destruct remote_dns; cbn [destination] in Hdst.
  - destruct Hdst as [Hl ->]. replace (255 <? len host) with false by lia. rewrite as_u8_small by (unfold u8; lia).
    exact (grants_write _ _).
  - destruct Hdst as (a & others & w1 & w1' & Hr & ->). intros rest log peer w.
    pose proof (resolve_steady host port w w1) as Hs. rewrite Hr in Hs. cbn in Hs.
    unfold mbind, tm_bind, tm_map_err, do_resolve. destruct (resolve host port w) as [r w2]. cbn in Hs. subst r.
    exact (grants_write _ _ rest log peer w2).
Qed.

Lemma send_address_takes {A} (m : TM W Error A) a : (forall y, reply y -> hears m y) ->
  takes (_ ← socks5_send_connect_address io_text a; m) (one (request (addr_bytes a ++ be16 (sa_port a)))).
Proof. apply turn_takes. Qed.

Lemma read_head_hears fuel response z : http_head (response ++ z) -> z <> [] -> Z.of_nat fuel >= len z ->
  forall rest log peer w,
  read_head (W := W) io_text fuel response (mkStream (z ++ rest) log [] peer) w =
    (Ok (response ++ z), mkStream rest (log ++ got z) [] peer, w).
Proof.
  revert response z. induction fuel as [|fuel IH]; intros response z (He & Hno & Hl) Hz Hf rest log peer w.
  { destruct z; [done|]. rewrite len_cons in Hf. pose proof (len_nonneg z0). lia. }
  destruct z as [|b z]; [done|]. cbn [read_head]. unfold mbind, tm_bind.
  change ((b :: z) ++ rest) with ([b] ++ z ++ rest). rewrite read_run by done.
  rewrite len_cons in Hf. rewrite len_app, len_cons in Hl. pose proof (len_nonneg z). pose proof (len_nonneg response).
  destruct z as [|c z].
  - rewrite He, andb_true_r. pose proof He as [r Hr]%ends_with_iff. replace (4 <=? _) with true; [done|].
    rewrite Hr, len_app. change (len CRLF2) with 4. pose proof (len_nonneg r). lia.
  - rewrite Hno, andb_false_r; [|exists (c :: z); by rewrite <- app_assoc|].
    2:{ intros E1%app_inv_head. done. }
    rewrite len_app. change (len [b]) with 1. rewrite len_cons in *. pose proof (len_nonneg z).
    replace (4096 <? _) with false by lia. rewrite IH.
    + rewrite <- !app_assoc. unfold got. done.
    + rewrite <- app_assoc. split; [done|]. split; [done|]. cbn [app]. rewrite len_app, !len_cons. lia.
    + done.
    + rewrite len_cons. lia.
Qed.

Lemma request_hears target a y : http_head y ->
  forall rest log peer w,
  send_connect_request (W := W) base64 io_text target a (mkStream (y ++ rest) log [] peer) w =
    (Ok (default 0 (parse_http_status (first_line (vec_to_string_lossy y))), y),
     mkStream rest (log ++ sent (connect_request base64 target a) ++ got y) [] peer, w).
Proof.
  intros Hy rest log peer w. unfold send_connect_request, mbind, tm_bind, write_all. cbn [s_writes s_in s_log s_peer tail].
  rewrite (read_head_hears _ [] y); [by rewrite app_assoc|done| |].
  - intros ->. by destruct Hy.
  - destruct Hy as (_ & _ & Hl). lia.
Qed.

Lemma negotiate_takes p host port : takes (negotiate_over resolve base64 show io_text p host port) (hop_talk p host port).
Proof.
  unfold negotiate_over, hop_talk. destruct (scheme p) as [h q|h q remote_dns].
  - intros ts d -> Hd rest log peer w. apply complete_one_inv in Hd as (y & [Hy Hs] & ->).
    rewrite heard_app, heard_sent, heard_got. cbn [app]. unfold mbind, tm_bind. rewrite request_hears by done.
    rewrite Hs. by eexists _, _.
  - apply takes_seq; [apply handshake_takes|]. intros _. apply connect_takes, response_done_hears.
Qed.
Lemma negotiate_address_takes p a : takes (negotiate_over_address io_text p a) (address_talk p a).
Proof.
  unfold negotiate_over_address, address_talk. destruct (scheme p) as [h q|h q remote_dns].
  - by intros ts d [? _].
  - apply takes_seq; [apply handshake_takes|]. intros _. apply send_address_takes, response_done_hears.
Qed.
Lemma takes_map_err {E E' A} (f : E -> E') (m : TM W E A) T : takes m T -> takes (tm_map_err f m) T.
Proof.
  intros H ts d Hts Hd rest log peer w. unfold tm_map_err. destruct (H ts d Hts Hd rest log peer w) as (a & w' & ->).
  by eexists _, _.
Qed.
Lemma tunnel_takes hops final host port :
  takes (tunnel_through resolve base64 show io_text hops final host port) (chain_talk hops final host port).
Proof.
  induction hops as [|hop [|next rest] IH]; cbn [tunnel_through chain_talk].
  - intros ts d -> Hd. inversion Hd; subst. intros rest log peer w. exists tt, w. cbn. by rewrite app_nil_r.
  - apply takes_map_err. destruct final; [apply negotiate_address_takes|apply negotiate_takes].
  - apply takes_seq; [apply takes_map_err, negotiate_takes|]. intros _. apply IH.
Qed.

(** What the last hop is first asked for, and the environment after the resolver. *)
Definition first_target (p : ProxyConfig) (host : bytes) (port : Z) (w : W) (final : option SocketAddr) (w0 : W) : Prop :=
  match scheme p with
  | PSocks5 _ _ false => exists a others, resolve host port w = (Ok (a :: others), w0) /\ final = Some a
  | _ => final = None /\ w0 = w
  end.

Lemma interleave_first a others : exists l, interleave_address_families (a :: others) = a :: l.
Proof.
  unfold interleave_address_families. destruct (is_ipv6 a) eqn:Ha.
  - rewrite (filter_cons_True (fun a => is_ipv6 a = true)) by done. destruct (filter _ _) eqn:E1 at 2; eexists; by cbn.
  - rewrite (filter_cons_True (fun a => is_ipv6 a = false)) by done. destruct (filter _ (a :: others)); eexists; by cbn.
Qed.

Lemma catch_run {A} (h g : TM W Error unit) (m : TM W Error A) s w a s' w' :
  (_ ← h; _ ← g; m) s w = (Ok a, s', w') -> (_ ← h; _ ← g; catch m) s w = (Ok None, s', w').
Proof.
  unfold mbind, tm_bind, catch. destruct (h s w) as [[[[]|e|] s1] w1]; [|done..].
  destruct (g s1 w1) as [[[[]|e|] s2] w2]; [|done..]. by destruct (m s2 w2) as [[[x|e|] s3] w3]; intros [= -> -> ->].
Qed.

Lemma dial_and_run {A} at_ (m : TM W Error A) k failed w s w1 a s' w2 :
  dial at_.1 at_.2 w = (Ok s, w1) -> m s w1 = (Ok a, s', w2) ->
  dial_and dial show at_.1 at_.2 m k failed w = k a s' w2.
Proof. intros Hd Hm. unfold dial_and, connect_tcp_to_proxy. by rewrite Hd, Hm. Qed.

Lemma socks_name_takes a host port :
  takes (_ ← socks5_handshake io_text a; _ ← socks5_send_connect resolve show io_text host port true;
         socks5_read_response io_text "connect")
    (and_then (socks_auth a) (some_of (destination true host port) (fun dst => one (request dst)))).
Proof. apply takes_seq; [apply handshake_takes|]. intros _. apply connect_takes, response_hears. Qed.
Lemma socks_address_takes a target :
  takes (_ ← socks5_handshake io_text a; _ ← socks5_send_connect_address io_text target;
         socks5_read_response io_text "connect")
    (and_then (socks_auth a) (one (request (addr_bytes target ++ be16 (sa_port target))))).
Proof. apply takes_seq; [apply handshake_takes|]. intros _. apply send_address_takes, response_hears. Qed.

Lemma single_grants p host port w final w0 w1 ts d rest peer : chain p = [] ->
  first_target p host port w final w0 ->
  dial (host_port p).1 (host_port p).2 w0 = (Ok (mkStream (heard d ++ rest) [] [] peer), w1) ->
  chain_talk [p] final host port true ts -> complete ts d ->
  exists w', connect resolve dial base64 show show_addr io_text p host port w = (Ok (mkStream rest d [] peer), [], w').
Proof.
  intros Hch Hf Hd Hts Hc. unfold connect. rewrite Hch. cbn [is_empty negb]. cbn [chain_talk] in Hts.
  unfold host_port, first_target in *. destruct (scheme p) as [h q|h q [|]] eqn:Hp.
  - destruct Hf as [-> ->]. unfold hop_talk in Hts. rewrite Hp in Hts. unfold one in Hts. subst ts.
    apply complete_one_inv in Hc as (y & [Hy Hs] & ->). exists w1. unfold connect_http.
    rewrite heard_app, heard_sent, heard_got in Hd. cbn [app] in Hd.
    erewrite (dial_and_run (h, q)); [|exact Hd|by apply request_hears]. by rewrite Hs.
  - destruct Hf as [-> ->]. unfold hop_talk in Hts. rewrite Hp in Hts. unfold connect_socks5_inner.
    destruct (socks_name_takes _ _ _ _ _ Hts Hc rest [] peer w1) as (a & w2 & Ht).
    exists w2. erewrite (dial_and_run (h, q)); [done|exact Hd|exact Ht].
  - destruct Hf as (a & others & Hr & ->). unfold address_talk in Hts. rewrite Hp in Hts. unfold connect_socks5_inner.
    rewrite Hr. destruct (interleave_first a others) as [l ->]. cbn [is_empty socks5_targets].
    destruct (socks_address_takes _ _ _ _ Hts Hc rest [] peer w1) as (x & w2 & Ht).
    exists w2. erewrite (dial_and_run (h, q)); [|exact Hd|eapply catch_run, Ht]. done.
Qed.

Lemma chain_grants hops first host port final targets failures w w1 ts d rest peer :
  dial first.1 first.2 w = (Ok (mkStream (heard d ++ rest) [] [] peer), w1) ->
  chain_talk hops final host port true ts -> complete ts d ->
  exists w', chain_targets resolve dial base64 show show_addr io_text hops first host port (final :: targets) failures w =
    (Ok (mkStream rest d [] peer), [], w').
Proof.
  intros Hd Hts Hc. destruct (tunnel_takes hops final host port ts d Hts Hc rest [] peer w1) as (a & w2 & Ht).
  exists w2. cbn [chain_targets]. unfold connect_tcp_to_proxy. by rewrite Hd, Ht.
Qed.

Lemma connect_grants p host port w final w0 w1 ts d rest peer :
  first_target p host port w final w0 ->
  dial (first_hop p).1 (first_hop p).2 w0 = (Ok (mkStream (heard d ++ rest) [] [] peer), w1) ->
  chain_talk (hops_of p) final host port true ts -> complete ts d ->
  exists w', connect resolve dial base64 show show_addr io_text p host port w = (Ok (mkStream rest d [] peer), [], w').
Proof.
  intros Hf Hd Hts Hc. destruct (chain p) as [|c l] eqn:Hch.
  - unfold first_hop, hops_of in *. rewrite Hch in *. cbn [app head default] in *. by eapply single_grants.
  - unfold connect. rewrite Hch. cbn [is_empty negb]. unfold connect_chain, first_target in *.
    destruct (scheme p) as [h q|h q [|]] eqn:Hp.
    1-2: destruct Hf as [-> ->]; by eapply chain_grants.
    destruct Hf as (a & others & Hr & ->). rewrite Hr. destruct (interleave_first a others) as [l' ->].
    cbn [fmap list_fmap is_empty]. by eapply chain_grants.
Qed.

End protocols.

(** ** The theorems *)

(** C16. Whatever the proxies answer and whichever reads and writes fail, every
    connection that a proxy connect opens goes to the first hop and carries exactly a
    dialogue of the configured chain: each hop is asked, with its own credentials, for the
    next one and the last for the target, a hop is spoken to only after all hops before it
    have accepted, a SOCKS5 password is sent only when the hop has chosen that method
    for the greeting that offers it, and nothing is read beyond the accepting answers.  The connection
    that is returned has the whole dialogue behind it, a dropped one stopped on the way. *)
Theorem connect_dialogue {W} (resolve : bytes -> Z -> W -> Outcome Error (list SocketAddr) * W)
    (dial : bytes -> Z -> W -> Outcome Error Stream * W) base64 show show_addr io_text p host port w r dropped w' :
  (forall host port w, (resolve host port w).1 <> Panic) -> (forall host port w, (dial host port w).1 <> Panic) ->
  (forall host port w s w', dial host port w = (Ok s, w') -> s_log s = [] /\ is_bytes (s_in s)) ->
  connect resolve dial base64 show show_addr io_text p host port w = (r, dropped, w') ->
  Forall (given_up dial (first_hop p) (connect_talk resolve base64 p host port)) dropped /\
  match r with
  | Ok s => kept dial (first_hop p) (connect_talk resolve base64 p host port) s
  | Err _ => True
  | Panic => False
  end.
Proof. intros Hr Hd Hf. by apply connect_ok. Qed.



End tunnel_props.

(** ** A chain of two proxies *)

Module tunnel_demo.
Import tunnel_props.

Definition http_hop : ProxyConfig := mkProxy (PHttp (ascii_bytes "edge") 3128) None [].
Definition socks_hop (chain : list ProxyConfig) : ProxyConfig :=
  mkProxy (PSocks5 (ascii_bytes "exit") 1080 true) (Some (mkAuth (ascii_bytes "u") (ascii_bytes "pw"))) chain.
Definition chained : ProxyConfig := socks_hop [http_hop].
Definition socks_pair : ProxyConfig := socks_hop [mkProxy (PSocks5 (ascii_bytes "edge") 1080 true) None []].

Definition no_dns (host : bytes) (port : Z) (w : list bytes) : Outcome Error (list SocketAddr) * list bytes := (Ok [], w).
(** The environment is what the next peers say. *)
Definition demo_dial (host : bytes) (port : Z) (w : list bytes) : Outcome Error Stream * list bytes :=
  match w with
  | b :: w => (Ok (mkStream (filter u8 b) [] [] (Some (mkSocketAddr (Ipv4 [10; 0; 0; 1]) port))), w)
  | [] => (Err (proxy_error TcpConnectFailed []), [])
  end.
Definition ok_head : bytes := ascii_bytes "HTTP/1.1 200 OK" ++ CRLF2.
Definition ok_reply : bytes := [5; 0; 0; 1; 0; 0; 0; 0; 31; 144].
Definition no_text {A} (_ : A) : bytes := [].
Definition plain (b : bytes) : bytes := b.

Lemma demo_dns_returns host port w : (no_dns host port w).1 <> Panic.
Proof. done. Qed.
Lemma demo_dial_returns host port w : (demo_dial host port w).1 <> Panic.
Proof. by destruct w. Qed.
Lemma demo_dial_fresh host port w s w' : demo_dial host port w = (Ok s, w') -> s_log s = [] /\ is_bytes (s_in s).
Proof.
  destruct w as [|b w]; [done|]. intros [= <- <-]. split; [done|]. apply Forall_forall. by intros x [Hx _]%list_elem_of_filter.
Qed.

Definition target_name : bytes := ascii_bytes "example.com".
Definition demo_dialogue : list Wire :=
  sent (connect_request plain (host_colon_port (ascii_bytes "exit") 1080) None) ++ got ok_head ++
  sent [5; 2; 0; 2] ++ got [5; 2] ++ sent (login (mkAuth (ascii_bytes "u") (ascii_bytes "pw"))) ++ got [1; 0] ++
  sent ([5; 1; 0] ++ [3; len target_name] ++ target_name ++ be16 443) ++ got ok_reply.
Definition demo_stream : Stream := mkStream [22; 3] demo_dialogue [] (Some (mkSocketAddr (Ipv4 [10; 0; 0; 1]) 3128)).

Lemma demo_run :
  connect no_dns demo_dial plain no_text no_text [] chained target_name 443 [heard demo_dialogue ++ [22; 3]] =
    (Ok demo_stream, [], []).
Proof. vm_compute. reflexivity. Qed.

Lemma connect_dialogue_witness :
  kept demo_dial (first_hop chained) (connect_talk no_dns plain chained target_name 443) demo_stream.
Proof.
  exact (proj2 (connect_dialogue no_dns demo_dial plain no_text no_text [] chained target_name 443 _ (Ok demo_stream) [] []
    demo_dns_returns demo_dial_returns demo_dial_fresh demo_run)).
Defined.

Definition demo_turns : list Turn :=
  [mkTurn (connect_request plain (host_colon_port (ascii_bytes "exit") 1080) None) http_ok;
   mkTurn [5; 2; 0; 2] (eq [5; 2]);
   mkTurn (login (mkAuth (ascii_bytes "u") (ascii_bytes "pw"))) (fun y => exists v, y = [v; 0]);
   request ([3; len target_name] ++ target_name ++ be16 443)].

Lemma demo_complete : complete demo_turns demo_dialogue.
Proof.
  unfold demo_dialogue. rewrite <- (app_nil_r (got ok_reply)).
  apply (complete_cons (mkTurn _ http_ok)); [split; [by apply http_head_check|reflexivity]|].
  apply (complete_cons (mkTurn [5; 2; 0; 2] _)); [done|].
  apply (complete_cons (mkTurn (login _) _)); [by exists 1|].
  apply (complete_cons (request _)); [|constructor].
  exists 0, [0; 0; 0; 0], [31; 144]. split; [done|]. by left.
Qed.
Lemma demo_talk : chain_talk no_dns plain (hops_of chained) None target_name 443 true demo_turns.
Proof.
  left. exists (take 1 demo_turns), (drop 1 demo_turns). split; [done|]. split; [|done].
  left. exists (take 2 (drop 1 demo_turns)), (drop 3 demo_turns). split; [by right|]. split; [|done].
  left. by eexists.
Qed.


(** ** An association over two SOCKS5 proxies *)

Definition demo_target : SocksTarget := TargetDomain target_name 443.
Definition demo_relay : SocketAddr := mkSocketAddr (Ipv4 [10; 0; 0; 1]) 8080.
Definition demo_controls : list bytes := [[5; 0] ++ ok_reply; [5; 0] ++ ok_reply ++ [5; 0] ++ ok_reply].
Definition demo_association : UdpAssociation :=
  match (udp_associate no_dns demo_dial plain no_text [] socks_pair demo_controls).1.1 with
  | Ok a => a
  | _ => mkAssociation [] demo_relay []
  end.

Lemma demo_associated :
  udp_associate no_dns demo_dial plain no_text [] socks_pair demo_controls = (Ok demo_association, [], []) /\
  first_relay demo_association = demo_relay /\
  inner_relays demo_association = [TargetDomain (ascii_bytes "exit") 8080].
Proof. vm_compute. done. Qed.

Lemma demo_hosts : Forall (fun hop => 0 < len (host_port hop).1 <= 255) (hops_of socks_pair).
Proof. by repeat constructor. Qed.


End tunnel_demo.
