(* ===== verification/TlsKx.v ===== *)
(** * Key exchange (lktls/src/crypto/kx.rs)

    Groups, ephemeral key pairs and shared secrets, classical and the hybrid of
    X25519 with ML-KEM-768.  The curve and KEM operations of aws-lc-rs are the
    class [Agreement]; they draw from the system generator. *)
From S2P Require Import Prelude TlsError.
Import error.

Module kx.

Inductive KxGroup : Type := X25519 | Secp256r1 | Secp384r1 | X25519MlKem768.

#[export] Instance kx_group_eq_dec : EqDecision KxGroup.
Proof. solve_decision. Defined.

Definition group_code_point (g : KxGroup) : Z :=
  match g with
  | X25519 => 0x001d
  | Secp256r1 => 0x0017
  | Secp384r1 => 0x0018
  | X25519MlKem768 => 0x11ec
  end.

Definition group_from_code_point (cp : Z) : option KxGroup :=
  match cp with
  | 0x001d => Some X25519
  | 0x0017 => Some Secp256r1
  | 0x0018 => Some Secp384r1
  | 0x11ec => Some X25519MlKem768
  | _ => None
  end.

(** [{:?}] of the group. *)
Definition group_debug (g : KxGroup) : string :=
  match g with
  | X25519 => "X25519" | Secp256r1 => "Secp256r1" | Secp384r1 => "Secp384r1"
  | X25519MlKem768 => "X25519MlKem768"
  end.

(** [K]: an ephemeral private key; [D]: a decapsulation key. *)
Class Agreement (R K D : Type) : Type := {
  ecdh_generate : KxGroup -> R -> option K * R;
  ecdh_public_key : K -> option bytes;
  ecdh_agree : KxGroup -> K -> bytes -> option bytes;
  mlkem_generate : R -> option D * R;
  mlkem_encapsulation_key : D -> option bytes;
  mlkem_key_bytes : bytes -> option bytes;
  mlkem_decapsulate : D -> bytes -> string + bytes;
}.

Section kx.
Context {R K D : Type} {A : Agreement R K D}.

Inductive PrivateKeyInner : Type :=
| Classical (k : K)
| Hybrid (x25519 : K) (mlkem_dk : D).

Record EphemeralKeyPair : Type := mkKeyPair {
  kp_group : KxGroup; kp_public_key : bytes; kp_private_key : PrivateKeyInner }.

Definition generate_classical_key_pair (g : KxGroup) (r : R) : Outcome TlsError (EphemeralKeyPair * R) :=
  match g with
  | X25519MlKem768 => Panic
  | _ =>
      match ecdh_generate g r with
      | (None, _) => Err (CryptoError ("failed to generate " +:+ group_debug g +:+ " key pair"))
      | (Some k, r) =>
          match ecdh_public_key k with
          | None => Err (CryptoError "failed to compute public key")
          | Some pk => Ok ({| kp_group := g; kp_public_key := pk; kp_private_key := Classical k |}, r)
          end
      end
  end.

Definition generate_hybrid_key_pair (r : R) : Outcome TlsError (EphemeralKeyPair * R) :=
  match ecdh_generate X25519 r with
  | (None, _) => Err (CryptoError "failed to generate X25519 key")
  | (Some x25519_priv, r) =>
      match ecdh_public_key x25519_priv with
      | None => Err (CryptoError "failed to compute X25519 public key")
      | Some x25519_pub =>
          match mlkem_generate r with
          | (None, _) => Err (CryptoError "failed to generate ML-KEM-768 key")
          | (Some dk, r) =>
              match mlkem_encapsulation_key dk with
              | None => Err (CryptoError "failed to get ML-KEM-768 encapsulation key")
              | Some ek =>
                  match mlkem_key_bytes ek with
                  | None => Err (CryptoError "failed to serialize ML-KEM-768 encapsulation key")
                  | Some mlkem_pub =>
                      Ok ({| kp_group := X25519MlKem768; kp_public_key := mlkem_pub ++ x25519_pub;
                             kp_private_key := Hybrid x25519_priv dk |}, r)
                  end
              end
          end
      end
  end.

Definition generate_key_pair (g : KxGroup) (r : R) : Outcome TlsError (EphemeralKeyPair * R) :=
  match g with
  | X25519 | Secp256r1 | Secp384r1 => generate_classical_key_pair g r
  | X25519MlKem768 => generate_hybrid_key_pair r
  end.

Definition MLKEM768_CT_LEN : Z := 1088.
Definition X25519_PUB_LEN : Z := 32.

Definition compute_hybrid_shared_secret (x25519_priv : K) (dk : D) (server_share : bytes)
    : Outcome TlsError bytes :=
  if negb (len server_share =? MLKEM768_CT_LEN + X25519_PUB_LEN) then
    Err (CryptoError ("X25519MLKEM768 server share wrong size: expected "
           +:+ pretty (MLKEM768_CT_LEN + X25519_PUB_LEN) +:+ ", got " +:+ pretty (len server_share)))
  else
    let mlkem_ciphertext := take_z MLKEM768_CT_LEN server_share in
    let x25519_server_pub := drop_z MLKEM768_CT_LEN server_share in
    match ecdh_agree X25519 x25519_priv x25519_server_pub with
    | None => Err (CryptoError "X25519 key agreement failed in hybrid")
    | Some x25519_secret =>
        match mlkem_decapsulate dk mlkem_ciphertext with
        | inl e => Err (CryptoError ("ML-KEM-768 decapsulation failed: " +:+ e))
        | inr mlkem_secret => Ok (mlkem_secret ++ x25519_secret)
        end
    end.

Definition compute_shared_secret (our_key : EphemeralKeyPair) (peer_public_key : bytes)
    : Outcome TlsError bytes :=
  match kp_private_key our_key with
  | Classical k =>
      match kp_group our_key with
      | X25519MlKem768 => Panic
      | g => match ecdh_agree g k peer_public_key with
             | Some s => Ok s
             | None => Err (CryptoError "ECDH key agreement failed")
             end
      end
  | Hybrid x dk => compute_hybrid_shared_secret x dk peer_public_key
  end.

(** A generated pair is of the group asked for, and its private half matches the
    group, so that [compute_shared_secret] never reaches its [unreachable!]. *)
Definition pair_ok (kp : EphemeralKeyPair) : Prop :=
  match kp_private_key kp with
  | Classical _ => kp_group kp <> X25519MlKem768
  | Hybrid _ _ => kp_group kp = X25519MlKem768
  end.

Lemma generate_key_pair_ok g (r : R) :
  outcome_ok (fun '(kp, _) => kp_group kp = g /\ pair_ok kp) (generate_key_pair g r).
Proof.
  unfold generate_key_pair, generate_classical_key_pair, generate_hybrid_key_pair.
  destruct g; repeat (case_match; simpl; try done).
Qed.

Lemma compute_shared_secret_no_panic kp share : pair_ok kp -> compute_shared_secret kp share <> Panic.
Proof.
  unfold pair_ok, compute_shared_secret, compute_hybrid_shared_secret.
  intros H. repeat (case_match; try done).
Qed.

End kx.
Arguments PrivateKeyInner : clear implicits.
Arguments EphemeralKeyPair : clear implicits.

Lemma group_from_code_point_Some cp g : group_from_code_point cp = Some g -> group_code_point g = cp.
Proof. unfold group_from_code_point. intros H. repeat (case_match; try discriminate); by simplify_eq. Qed.

End kx.
