(* ===== verification/ClientHello.v ===== *)
(** * ClientHello builder (lktls/src/handshake/client_hello.rs)

    From a profile and a hostname to the bytes of the handshake message.  The
    system generator ([SystemRandom]) is threaded through; the caller's shuffle
    generator is an [RngCore].  [build] covers the paths without a runtime ECH
    configuration; with one, the source goes to the HPKE code, which is not
    modelled. *)
From S2P Require Import Prelude TlsError TlsCipher TlsProfile TlsExtensions TlsKx IpAddr Hpack Synthesis.
Import error types extensions kx.

Module client_hello.

(** ** Free helper functions *)

Definition is_grease_value (value : Z) : bool :=
  let hi := as_u8 (value ≫ 8) in
  let lo := as_u8 (Z.land value 0xff) in
  (hi =? lo) && (Z.land hi 0x0f =? 0x0a).

(** [char::is_whitespace] on the UTF-8 bytes of one character. *)
Definition is_whitespace (c : bytes) : bool :=
  match c with
  | [b] => ((9 <=? b) && (b <=? 13)) || (b =? 32)
  | [0xC2; b] => (b =? 0x85) || (b =? 0xA0)
  | [0xE1; 0x9A; 0x80] => true
  | [0xE2; 0x80; b] =>
      ((0x80 <=? b) && (b <=? 0x8A)) || (b =? 0xA8) || (b =? 0xA9) || (b =? 0xAF)
  | [0xE2; 0x81; 0x9F] => true
  | [0xE3; 0x80; 0x80] => true
  | _ => false
  end.

(** [chars()] of a string, each as its bytes; every character has at least one. *)
Fixpoint chars (fuel : nat) (s : bytes) : list bytes :=
  match s, fuel with
  | [], _ | _, O => []
  | b :: _, S fuel =>
      let n := Nat.max 1 (Z.to_nat (utf8_width b)) in take n s :: chars fuel (drop n s)
  end.

(** [u8::from_str_radix(s, 16)] on two bytes: a leading plus sign is accepted. *)
Definition from_str_radix16 (a b : Z) : option Z :=
  match ip_addr.to_digit 16 a, ip_addr.to_digit 16 b with
  | Some h, Some l => Some (h * 16 + l)
  | None, Some l => if a =? 43 then Some l else None
  | _, _ => None
  end.

(** [str::is_char_boundary] at the byte that follows. *)
Definition boundary (s : bytes) : bool :=
  match s with [] => true | b :: _ => negb ((0x80 <=? b) && (b <? 0xC0)) end.

(** The pairs of the filtered string from position [i]; a slice that cuts a
    character panics. *)
Fixpoint decode_pairs (i : Z) (s : bytes) : Outcome TlsError bytes :=
  match s with
  | a :: b :: rest =>
      if negb (boundary s && boundary rest) then Panic else
      match from_str_radix16 a b with
      | None => Err (InvalidProfile ("invalid hex at position " +:+ pretty i))
      | Some v => vs ← decode_pairs (i + 2) rest; Ok (v :: vs)
      end
  | _ => Ok []
  end.

Definition decode_hex (hex : bytes) : Outcome TlsError bytes :=
  let hex := concat (List.filter (fun c => negb (is_whitespace c) && negb (bool_decide (c = [58])))
                       (chars (length hex) hex)) in
  if negb (len hex mod 2 =? 0) then Err (InvalidProfile "hex string has odd length")
  else decode_pairs 0 hex.

(** ** Shuffling *)

(** [OsRng::next_u64]: little-endian, with a fixed filling when the system
    generator fails. *)
Definition from_le64 (b : bytes) : Z := foldr (fun x acc => x + 256 * acc) 0 b.
Definition os_next_u64 {R} `{SystemRandom R} (r : R) : Z * R :=
  match fill 8 r with
  | (Some b, r) => (from_le64 b, r)
  | (None, r) => (from_le64 [0; 1; 2; 3; 4; 5; 6; 7], r)
  end.
Definition OsRng {R} (S : SystemRandom R) : RngCore R := {| next_u64 := os_next_u64 |}.

Section shuffle.
Context {G : Type} {RNG : RngCore G}.

Definition reject_below (n : Z) : Z := as_u64 (- n) mod n.

(** The rejection loop; [None] when the fuel runs out before an accepted draw. *)
Fixpoint below (fuel : nat) (g : G) (n : Z) : option (Z * G) :=
  match fuel with
  | O => None
  | S fuel =>
      let '(v, g) := next_u64 g in
      if reject_below n <=? v then Some (v mod n, g) else below fuel g n
  end.

(** [v.swap(i, j)] for indices in range. *)
Definition swap {A} (i j : nat) (v : list A) : list A :=
  match v !! i, v !! j with
  | Some a, Some b => <[j := a]> (<[i := b]> v)
  | _, _ => v
  end.

(** [for i in (1..n).rev() { v.swap(i, below(rng, i + 1)) }], from [i] down. *)
Fixpoint fisher_yates {A} (fuel i : nat) (v : list A) (g : G) : option (list A * G) :=
  match i with
  | O => Some (v, g)
  | S i' =>
      '(j, g) ← below fuel g (Z.of_nat (i + 1));
      fisher_yates fuel i' (swap i (Z.to_nat j) v) g
  end.

Definition is_grease_spec (e : ExtensionSpec) : bool :=
  match source e with Grease => true | _ => false end.
Definition is_psk_spec (e : ExtensionSpec) : bool := negb (is_shuffleable (extension_type e)).

(** The reassembly loop with the iterator of shuffled entries. *)
Fixpoint reassemble (exts shuffled psk out : list ExtensionSpec) : list ExtensionSpec :=
  match exts with
  | [] => out ++ psk
  | e :: exts =>
      if is_grease_spec e then reassemble exts shuffled psk (out ++ [e])
      else if is_psk_spec e then reassemble exts shuffled (psk ++ [e]) out
      else match shuffled with
           | next :: shuffled => reassemble exts shuffled psk (out ++ [next])
           | [] => reassemble exts shuffled psk out
           end
  end.

Definition shuffle_extensions (fuel : nat) (exts : list ExtensionSpec) (g : G)
    : option (list ExtensionSpec * G) :=
  let shuffleable := List.filter (fun e => negb (is_grease_spec e) && negb (is_psk_spec e)) exts in
  '(shuffled, g) ← fisher_yates fuel (length shuffleable - 1) shuffleable g;
  Some (reassemble exts shuffled [] [], g).

End shuffle.

(** ** The builder *)

Record PskOffer : Type := mkPskOffer {
  po_identity : bytes;
  po_obfuscated_ticket_age : Z;
  po_resumption_psk : bytes;
  po_hkdf_algorithm : HkdfAlgorithm;
  po_transcript_prefix : bytes;
}.

Section builder.
Context {R K D G : Type} {SR : SystemRandom R} {AG : Agreement R K D} {RNG : RngCore G}.

Abbreviation KeyPair := (EphemeralKeyPair K D).

Record ClientHelloBuilder : Type := mkBuilder {
  profile : TlsProfile;
  hostname : bytes;
  random : option bytes;
  session_id : option bytes;
  cookie : option bytes;
  session_ticket_data : option bytes;
  ech_config_list : option bytes;
  quic_transport_parameters : option bytes;
  early_data : bool;
  psk_offer : option PskOffer;
  grease_values : option GreaseValues;
  extension_order : option (list ExtensionSpec);
  ech_grease_extension : option bytes;
  omit_grease_key_share : bool;
  shuffle_rng : option G;
}.

Definition builder_new (p : TlsProfile) (h : bytes) : ClientHelloBuilder :=
  {| profile := p; hostname := h; random := None; session_id := None; cookie := None;
     session_ticket_data := None; ech_config_list := None; quic_transport_parameters := None;
     early_data := false; psk_offer := None; grease_values := None; extension_order := None;
     ech_grease_extension := None; omit_grease_key_share := false; shuffle_rng := None |}.

Record ClientHelloOutput : Type := mkOutput {
  message : bytes;
  key_shares : list KeyPair;
  inner_hello : option bytes;
  encoded_inner_hello : option bytes;
  ech_offered : bool;
  out_ech_grease_extension : option bytes;
  out_grease_values : GreaseValues;
  shuffled_extensions : list ExtensionSpec;
}.

Definition chromium_boringssl (p : TlsProfile) : bool :=
  match tls_client_hello_style p with ChromiumBoringssl => true | _ => false end.

Definition hostname_is_ip (b : ClientHelloBuilder) : bool := ip_addr.is_ip_addr (hostname b).

(** *** Validation *)

Definition find_grease (values : list Z) : option Z := head (List.filter is_grease_value values).

Definition reject_explicit_grease_values (field grease_flag : string) (values : list Z)
    : Outcome TlsError unit :=
  match find_grease values with
  | Some v =>
      Err (InvalidProfile (field +:+ " contains explicit GREASE value 0x" +:+ hex4 v
             +:+ "; remove it and use " +:+ grease_flag +:+ "=true instead"))
  | None => Ok tt
  end.

Fixpoint reject_fixed_grease_types (l : list ExtensionSpec) : Outcome TlsError unit :=
  match l with
  | [] => Ok tt
  | e :: l =>
      if is_grease_value (extension_type e) && negb (is_grease_spec e) then
        Err (InvalidProfile ("extensions contains fixed GREASE extension type 0x"
               +:+ hex4 (extension_type e) +:+ "; use source.type=grease instead"))
      else reject_fixed_grease_types l
  end.

Definition validate_no_duplicate_grease_sources (p : TlsProfile) (chromium : bool)
    : Outcome TlsError unit :=
  let g := grease p in
  _ ← (if g_cipher_suite g
       then reject_explicit_grease_values "cipher_suites" "grease.cipher_suite" (cipher_suites p)
       else Ok tt);
  _ ← (if g_supported_groups g
       then reject_explicit_grease_values "supported_groups" "grease.supported_groups" (supported_groups p)
       else Ok tt);
  _ ← (if g_signature_algorithms g
       then reject_explicit_grease_values "signature_algorithms" "grease.signature_algorithms" (signature_algorithms p)
       else Ok tt);
  _ ← match find_grease (key_share_curves p) with
      | Some v =>
          Err (InvalidProfile ("key_share_curves contains explicit GREASE value 0x" +:+ hex4 v
                 +:+ "; use grease.key_share=true instead"))
      | None => Ok tt
      end;
  if g_extensions g then
    _ ← reject_fixed_grease_types (extensions p);
    let count := len (List.filter is_grease_spec (extensions p)) in
    if negb chromium && (2 <? count) then
      Err (InvalidProfile ("extensions contains " +:+ pretty count
             +:+ " GREASE placeholders; at most two are supported"))
    else Ok tt
  else Ok tt.

Definition validate_profile (p : TlsProfile) : Outcome TlsError unit :=
  let chromium := chromium_boringssl p in
  if chromium && g_key_share (grease p) && negb (g_supported_groups (grease p)) then
    Err (InvalidProfile "chromium_boringssl requires grease.supported_groups when grease.key_share is enabled")
  else if chromium && g_signature_algorithms (grease p) then
    Err (InvalidProfile "chromium_boringssl does not support grease.signature_algorithms")
  else validate_no_duplicate_grease_sources p chromium.

(** *** Pieces of the message *)

Definition encode_cipher_suites (p : TlsProfile) (grease_value : Z) : bytes :=
  (if g_cipher_suite (grease p) then be16 grease_value else []) ++ be16s (cipher_suites p).

(** The curves without an implementation are skipped. *)
Fixpoint generate_key_pairs (curves : list Z) (r : R) : Outcome TlsError (list KeyPair * R) :=
  match curves with
  | [] => Ok ([], r)
  | c :: curves =>
      match group_from_code_point c with
      | None => generate_key_pairs curves r
      | Some g =>
          '(kp, r) ← generate_key_pair g r;
          '(kps, r) ← generate_key_pairs curves r;
          Ok (kp :: kps, r)
      end
  end.

(** The order of the extensions, with both generators; [None] while the
    rejection sampling has not ended. *)
Definition compute_extension_order (fuel : nat) (b : ClientHelloBuilder) (r : R)
    : option (list ExtensionSpec * option G * R) :=
  let p := profile b in
  let exts := if chromium_boringssl p
              then List.filter (fun e => negb (is_grease_spec e)) (extensions p) else extensions p in
  if from_option shuffle_flag false (randomization p) then
    match shuffle_rng b with
    | Some g => '(l, g) ← shuffle_extensions fuel exts g; Some (l, Some g, r)
    | None => '(l, r) ← shuffle_extensions (RNG := OsRng SR) fuel exts r; Some (l, None, r)
    end
  else Some (exts, shuffle_rng b, r).

(** [(min_v..=max_v).rev()]. *)
Definition version_range (min_v max_v : Z) : list Z := reverse (seqZ min_v (max_v - min_v + 1)).

Definition auto_groups (p : TlsProfile) (g : GreaseValues) : list Z :=
  (if g_supported_groups (grease p) then [grease_get g GGroup] else []) ++ supported_groups p.
Definition auto_sigalgs (p : TlsProfile) (g : GreaseValues) : list Z :=
  (if g_signature_algorithms (grease p) then [grease_get g GCipher] else []) ++ signature_algorithms p.
Definition auto_versions (p : TlsProfile) (g : GreaseValues) : list Z :=
  (if g_supported_versions (grease p) then [grease_get g GVersion] else []) ++
  version_range (version_as_u16 (tls_min_version p)) (version_as_u16 (tls_max_version p)).
Definition auto_key_shares (b : ClientHelloBuilder) (g : GreaseValues) (key_pairs : list KeyPair)
    : list KeyShareEntry :=
  (if g_key_share (grease (profile b)) && negb (omit_grease_key_share b)
   then [mkEntry (grease_get g GGroup) [0x00]] else []) ++
  map (fun kp => mkEntry (group_code_point (kp_group kp)) (kp_public_key kp)) key_pairs.

Definition encode_auto_extension (b : ClientHelloBuilder) (etype : Z) (key_pairs : list KeyPair)
    (g : GreaseValues) (r : R) : Outcome TlsError (bytes * R) :=
  let p := profile b in
  match etype with
  | 0x0000 =>
      if negb (hostname_is_ip b) && negb (is_empty (hostname b))
      then Ok (encode (mkSni (hostname b)), r) else Ok ([], r)
  | 0x0017 => Ok (encode mkEms, r)
  | 0xff01 => Ok (encode renegotiation_initial, r)
  | 0x000a => Ok (encode (mkGroups (auto_groups p g)), r)
  | 0x000b => Ok (encode (mkEcPointFormats (ec_point_formats p)), r)
  | 0x0023 =>
      Ok (encode match session_ticket_data b with
                 | Some d => mkSessionTicket d
                 | None => session_ticket_empty
                 end, r)
  | 0x0010 =>
      Ok (if is_empty (alpn_protocols p) then [] else encode (mkAlpn (alpn_protocols p)), r)
  | 0x0005 => Ok (encode mkStatusRequest, r)
  | 0x000d => Ok (encode (mkSigAlgs (auto_sigalgs p g)), r)
  | 0x0012 => Ok (encode mkSct, r)
  | 0x0033 => Ok (encode (mkKeyShare (auto_key_shares b g key_pairs)), r)
  | 0x002d => Ok (encode (mkPskModes [PSK_DHE_KE]), r)
  | 0x002b => Ok (encode (mkVersions (auto_versions p g)), r)
  | 0x001b => Ok (from_option (fun a => encode (mkCompressCert a)) [] (compress_cert_algorithms p), r)
  | 0x4469 | 0x44cd => Ok (from_option (fun l => encode (mkAlps etype l)) [] (alps_protocols p), r)
  | 0x0022 =>
      Ok (from_option (fun c => encode (mkDelegatedExt (dc_signature_algorithms c))) []
            (delegated_credentials p), r)
  | 0x001c => Ok (from_option (fun n => encode (mkRecordSizeLimit n)) [] (record_size_limit p), r)
  | 0xFE0D =>
      match ech_grease_extension b with
      | Some e => Ok (e, r)
      | None =>
          match ech p with
          | Some (EchGrease c) => encode_ech_grease c (raw_seed g GEchConfigId) r
          | _ => Ok ([], r)
          end
      end
  | 0x0039 =>
      match quic_transport_parameters b with
      | None => Err (InvalidProfile "QUIC transport parameters extension requested without payload")
      | Some payload => Ok (encode (mkGeneric etype payload), r)
      end
  | 0x002a => Ok (if early_data b then encode (generic_empty etype) else [], r)
  | 0x0016 => Ok (encode mkEtm, r)
  | 0x0015 => Ok ([], r)
  | _ => Ok (encode (generic_empty etype), r)
  end.

(** The bytes of one entry, the GREASE counter and the generator. *)
Definition encode_extension_spec (b : ClientHelloBuilder) (spec : ExtensionSpec)
    (key_pairs : list KeyPair) (g : GreaseValues) (chromium : bool) (grease_ext_idx : Z) (r : R)
    : Outcome TlsError (bytes * Z * R) :=
  match source spec with
  | Auto =>
      '(e, r) ← encode_auto_extension b (extension_type spec) key_pairs g r;
      Ok (e, grease_ext_idx, r)
  | RawBytes data =>
      payload ← decode_hex data;
      Ok (encode (mkGeneric (extension_type spec) payload), grease_ext_idx, r)
  | Grease =>
      if g_extensions (grease (profile b)) && negb chromium then
        let '(ext_grease, payload_len) :=
          if grease_ext_idx =? 0 then (grease_get g GExtension1, 0) else (grease_get g GExtension2, 1) in
        Ok (encode (mkGreaseExt ext_grease payload_len), as_u8 (grease_ext_idx + 1), r)
      else Ok ([], grease_ext_idx, r)
  end.

(** The main loop: buffer, padding position, counter, postponed PSK entries. *)
Fixpoint encode_specs (b : ClientHelloBuilder) (specs : list ExtensionSpec) (key_pairs : list KeyPair)
    (g : GreaseValues) (chromium : bool) (buf : bytes) (pad : option Z) (idx : Z)
    (pending : list ExtensionSpec) (r : R)
    : Outcome TlsError (bytes * option Z * Z * list ExtensionSpec * R) :=
  match specs with
  | [] => Ok (buf, pad, idx, pending, r)
  | spec :: specs =>
      if extension_type spec =? ext_type.PADDING then
        encode_specs b specs key_pairs g chromium buf
          (if chromium then pad else Some (len buf)) idx pending r
      else if chromium && (extension_type spec =? ext_type.PRE_SHARED_KEY) then
        encode_specs b specs key_pairs g chromium buf pad idx (pending ++ [spec]) r
      else
        '(e, idx, r) ← encode_extension_spec b spec key_pairs g chromium idx r;
        encode_specs b specs key_pairs g chromium (buf ++ e) pad idx pending r
  end.

Fixpoint encode_pending (b : ClientHelloBuilder) (specs : list ExtensionSpec) (key_pairs : list KeyPair)
    (g : GreaseValues) (chromium : bool) (buf : bytes) (idx : Z) (r : R)
    : Outcome TlsError (bytes * R) :=
  match specs with
  | [] => Ok (buf, r)
  | spec :: specs =>
      '(e, idx, r) ← encode_extension_spec b spec key_pairs g chromium idx r;
      encode_pending b specs key_pairs g chromium (buf ++ e) idx r
  end.

Definition encode_cookie (c : bytes) : bytes :=
  be16 ext_type.COOKIE ++ be16 (as_u16 (2 + len c)) ++ be16 (as_u16 (len c)) ++ c.

Definition encode_extensions_without_padding (b : ClientHelloBuilder) (key_pairs : list KeyPair)
    (g : GreaseValues) (exts : list ExtensionSpec) (r : R)
    : Outcome TlsError (bytes * option Z * R) :=
  let chromium := chromium_boringssl (profile b) in
  let bookends := chromium && g_extensions (grease (profile b)) in
  let buf := if bookends then encode (mkGreaseExt (grease_get g GExtension1) 0) else [] in
  '(buf, pad, idx, pending, r) ← encode_specs b exts key_pairs g chromium buf None 0 [] r;
  let buf := buf ++ from_option encode_cookie [] (cookie b) in
  let buf := if bookends then buf ++ encode (mkGreaseExt (grease_get g GExtension2) 1) else buf in
  let pad := if chromium then Some (len buf) else pad in
  '(buf, r) ← encode_pending b pending key_pairs g chromium buf idx r;
  Ok (buf, pad, r).

Definition calculate_padding (strategy : PaddingStrategy) (body_len_no_padding : Z) : option Z :=
  match strategy with
  | PadNone => None
  | BlockAlign min block =>
      if (min <? body_len_no_padding) && (body_len_no_padding <? block)
      then Some (Z.max 0 (block - body_len_no_padding - 4)) else None
  | FixedTarget target =>
      if body_len_no_padding <? target
      then Some (Z.max 0 (target - body_len_no_padding - 4)) else None
  end.

(** Step 9: the padding extension at its place. *)
Definition insert_padding (ext_data : bytes) (insert_pos pad_len : option Z) : bytes :=
  match pad_len with
  | Some n =>
      let pos := default (len ext_data) insert_pos in
      take_z pos ext_data ++ encode (mkPadding (as_u16 n)) ++ drop_z pos ext_data
  | None => ext_data
  end.

(** Step 10. *)
Definition fixed_len (sid suites comp : bytes) : Z :=
  2 + 32 + 1 + len sid + 2 + len suites + 1 + len comp + 2.
Definition assemble (rnd sid suites comp ext_data : bytes) : bytes :=
  let body_len := fixed_len sid suites comp + len ext_data in
  [0x01] ++ drop 1 (be32 (as_u32 body_len)) ++ [0x03; 0x03] ++ rnd ++
  [as_u8 (len sid)] ++ sid ++ be16 (as_u16 (len suites)) ++ suites ++
  [as_u8 (len comp)] ++ comp ++ be16 (as_u16 (len ext_data)) ++ ext_data.

(** [msg.get(a..b)] and [msg.get(i)]. *)
Definition get_range (l : bytes) (a b : Z) : option bytes :=
  if (a <=? b) && (b <=? len l) then Some (take_z (b - a) (drop_z a l)) else None.
Definition get_byte (l : bytes) (i : Z) : option Z := l !! Z.to_nat i.

Record EchExtensionOffsets : Type := mkOffsets {
  extension_offset : Z; extension_len : Z; enc_offset : Z; payload_offset : Z }.

(** The walk over the extensions of the message body, from [pos]. *)
Fixpoint find_ech_loop (fuel : nat) (body : bytes) (pos : Z) : option (option EchExtensionOffsets) :=
  match fuel with
  | O => Some None
  | S fuel =>
      match get_range body pos (pos + 4) with
      | Some [a; b; c; d] =>
          let etype := from_be16 a b in
          let elen := from_be16 c d in
          let data_start := pos + 4 in
          if etype =? ext_type.ENCRYPTED_CLIENT_HELLO then
            match get_range body data_start (data_start + elen) with
            | Some (_ :: _ :: _ :: _ :: _ :: _ :: e1 :: e2 :: _ :: _ :: _) =>
                let enc_len := from_be16 e1 e2 in
                Some (Some {| extension_offset := 4 + pos; extension_len := 4 + elen;
                              enc_offset := 4 + data_start + 8;
                              payload_offset := 4 + data_start + (8 + enc_len) + 2 |})
            | _ => None
            end
          else find_ech_loop fuel body (data_start + elen)
      | _ => Some None
      end
  end.

(** [extract_ech_extension(msg).ok()]. *)
Definition extract_ech_extension (msg : bytes) : option bytes :=
  body ← get_range msg 4 (len msg);
  sid_len ← get_byte body 34;
  let after_sid := 35 + sid_len in
  cs_hdr ← get_range body after_sid (after_sid + 2);
  let after_cs := after_sid + 2 + from_be16 (default 0 (cs_hdr !! 0%nat)) (default 0 (cs_hdr !! 1%nat)) in
  cm_len ← get_byte body after_cs;
  let ext_start := after_cs + 1 + cm_len + 2 in
  found ← find_ech_loop (length body) body ext_start;
  o ← found;
  get_range msg (extension_offset o) (extension_offset o + extension_len o).

(** *** Building *)

Definition generate_session_id (length : Z) (r : R) : Outcome TlsError (bytes * R) :=
  if length =? 0 then Ok ([], r) else fill_expect length r.

(** [None]: the shuffle's rejection sampling did not end within the fuel. *)
Definition BuildResult : Type := option (Outcome TlsError (ClientHelloOutput * option G * R)).

Definition build_internal (fuel : nat) (b : ClientHelloBuilder) (existing : option (list KeyPair))
    (psk_extra_len : Z) (r : R) : BuildResult :=
  let p := profile b in
  let before :=
    _ ← validate_profile p;
    '(g, r) ← match grease_values b with
              | Some g => Ok (g, r)
              | None => grease_values_new r
              end;
    '(rnd, r) ← match random b with Some x => Ok (x, r) | None => fill_expect 32 r end;
    '(sid, r) ← match session_id b with
                | Some x => Ok (x, r)
                | None => generate_session_id (session_id_length p) r
                end;
    '(key_pairs, r) ← match existing with
                      | Some _ => Ok ([], r)
                      | None => generate_key_pairs (key_share_curves p) r
                      end;
    Ok (g, rnd, sid, key_pairs, r) in
  match before with
  | Err e => Some (Err e)
  | Panic => Some Panic
  | Ok (g, rnd, sid, key_pairs, r) =>
      let suites := encode_cipher_suites p (grease_get g GCipher) in
      '(order, rng, r) ← match extension_order b with
                         | Some o => Some (o, shuffle_rng b, r)
                         | None => compute_extension_order fuel b r
                         end;
      Some (
        '(ext_data, pad_pos, r) ←
          encode_extensions_without_padding b (default key_pairs existing) g order r;
        let comp := compression_methods p in
        let body_len := fixed_len sid suites comp + len ext_data in
        let pad := calculate_padding (padding p) (body_len + psk_extra_len) in
        let msg := assemble rnd sid suites comp (insert_padding ext_data pad_pos pad) in
        let grease_ech :=
          match ech p, ech_config_list b with
          | Some (EchGrease _), None => extract_ech_extension msg
          | _, _ => None
          end in
        Ok ({| message := msg; key_shares := key_pairs; inner_hello := None;
               encoded_inner_hello := None; ech_offered := false;
               out_ech_grease_extension := grease_ech; out_grease_values := g;
               shuffled_extensions := order |}, rng, r))
  end.

(** [build_with_psk_hint] without a runtime ECH configuration. *)
Definition build_with_psk_hint (fuel : nat) (b : ClientHelloBuilder) (psk_extra_len : Z) (r : R)
    : BuildResult := build_internal fuel b None psk_extra_len r.
Definition build (fuel : nat) (b : ClientHelloBuilder) (r : R) : BuildResult :=
  build_with_psk_hint fuel b 0 r.

Definition with_omit (b : ClientHelloBuilder) (v : bool) : ClientHelloBuilder :=
  {| profile := profile b; hostname := hostname b; random := random b; session_id := session_id b;
     cookie := cookie b; session_ticket_data := session_ticket_data b;
     ech_config_list := ech_config_list b;
     quic_transport_parameters := quic_transport_parameters b; early_data := early_data b;
     psk_offer := psk_offer b; grease_values := grease_values b;
     extension_order := extension_order b; ech_grease_extension := ech_grease_extension b;
     omit_grease_key_share := v; shuffle_rng := shuffle_rng b |}.

(** [build_retry_with_key_pairs] and [build_cookie_retry_with_key_pairs] without
    ECH state. *)
Definition build_retry_with_key_pairs (fuel : nat) (b : ClientHelloBuilder) (kps : list KeyPair) (r : R)
    : BuildResult := build_internal fuel (with_omit b true) (Some kps) 0 r.
Definition build_cookie_retry_with_key_pairs (fuel : nat) (b : ClientHelloBuilder)
    (kps : list KeyPair) (r : R) : BuildResult :=
  build_internal fuel (with_omit b false) (Some kps) 0 r.

End builder.
End client_hello.
