(* ===== verification/ClientHelloShuffle.v ===== *)
(** * Extension shuffling (lktls/src/handshake/client_hello.rs)

    Unbiased draws, and the Fisher-Yates shuffle that leaves GREASE entries in
    their slots and pre_shared_key at the end. *)
From S2P Require Import Prelude TlsError TlsCipher TlsProfile TlsExtensions TlsKx Hpack Synthesis ClientHello.
Import error types extensions kx client_hello.

(** ** Draws *)

(** The number of accepted 64-bit values is a multiple of [n]. *)
Lemma reject_below_spec n : 0 < n <= 2 ^ 64 ->
  0 <= reject_below n < n /\ (2 ^ 64 - reject_below n) mod n = 0.
Proof.
  intros Hn. unfold reject_below, as_u64. split; [apply Z.mod_pos_bound; lia|].
  change (2 ^ 64) with 18446744073709551616 in *.
  rewrite <- (Z.mod_add (- n) 1), (Z.mod_small (- n + 1 * _)) by lia.
  rewrite Zminus_mod_idemp_r. transitivity (n mod n); [f_equal; lia|apply Z_mod_same_full].
Qed.

Section draws.
Context {G : Type} {RNG : RngCore G}.

(** The state after [k] draws, and the [k]-th draw. *)
Fixpoint skip (k : nat) (g : G) : G := match k with O => g | S k => skip k (next_u64 g).2 end.
Definition draw (k : nat) (g : G) : Z := (next_u64 (skip k g)).1.

(** [below] returns the first accepted draw, reduced modulo [n]. *)
Lemma below_first fuel : forall g n k, (k < fuel)%nat ->
  (forall j, (j < k)%nat -> draw j g < reject_below n) -> reject_below n <= draw k g ->
  below fuel g n = Some (draw k g mod n, skip (S k) g).
Proof.
  induction fuel as [|fuel IH]; intros g n k Hk Hrej Hacc; [lia|]. simpl.
  destruct (next_u64 g) as [v g1] eqn:Hv. destruct k as [|k].
  - unfold draw in *. simpl in *. rewrite Hv in *. simpl in *.
    destruct (Z.leb_spec (reject_below n) v); [done|lia].
  - pose proof (Hrej 0%nat ltac:(lia)) as H0. unfold draw in H0. simpl in H0. rewrite Hv in H0. simpl in H0.
    destruct (Z.leb_spec (reject_below n) v); [lia|].
    unfold draw in *. simpl in *. rewrite Hv in *. simpl in *.
    apply IH; [lia| |done]. intros j Hj. specialize (Hrej (S j) ltac:(lia)). simpl in Hrej. by rewrite Hv in Hrej.
Qed.

Lemma below_lt fuel : forall g n j g', 0 < n -> below fuel g n = Some (j, g') -> 0 <= j < n.
Proof.
  induction fuel as [|fuel IH]; intros g n j g' Hn H; [done|]. simpl in H.
  destruct (next_u64 g) as [v g1]. case_match; simplify_eq; [by apply Z.mod_pos_bound|by eapply IH].
Qed.

(** Some accepted draw within every window of [w] draws. *)
Definition fair (w : nat) (g0 : G) : Prop :=
  forall k n, 0 < n <= 2 ^ 63 -> exists j, (j < w)%nat /\ reject_below n <= draw j (skip k g0).

Lemma skip_skip a b g : skip a (skip b g) = skip (b + a) g.
Proof. revert g. induction b as [|b IH]; intros g; [done|]. simpl. apply IH. Qed.

Lemma first_accepted (p : nat -> bool) m : p m = true ->
  exists k, (k <= m)%nat /\ p k = true /\ forall j, (j < k)%nat -> p j = false.
Proof.
  induction m as [m IH] using lt_wf_ind. intros Hm.
  destruct (existsb p (seq 0 m)) eqn:He.
  - apply existsb_exists in He as (j & Hj%in_seq & Hp). destruct (IH j) as (k & ? & ? & ?); [lia|done|].
    exists k. split; [lia|done].
  - exists m. split; [lia|]. split; [done|]. intros j Hj. destruct (p j) eqn:Hp; [|done].
    exfalso. rewrite <- not_true_iff_false in He. apply He, existsb_exists. exists j.
    split; [apply in_seq; lia|done].
Qed.

Lemma below_fair w g0 k n : fair w g0 -> 0 < n <= 2 ^ 63 ->
  exists j, 0 <= j < n /\ exists k', below w (skip k g0) n = Some (j, skip k' g0).
Proof.
  intros Hf Hn. destruct (Hf k n Hn) as (m & Hm & Hacc).
  destruct (first_accepted (fun i => reject_below n <=? draw i (skip k g0)) m) as (i & Hi & Hai & Hmin);
    [by apply Z.leb_le|].
  assert (below w (skip k g0) n = Some (draw i (skip k g0) mod n, skip (S i) (skip k g0))) as H.
  { apply below_first; [lia| |by apply Z.leb_le]. intros j Hj. apply Z.leb_gt, Hmin, Hj. }
  eexists. split; [apply Z.mod_pos_bound; lia|]. exists (k + S i)%nat. rewrite H, skip_skip. done.
Qed.

(** ** The shuffle *)

Lemma swap_perm {A} i j (v : list A) : swap i j v ≡ₚ v.
Proof.
  unfold swap. destruct (v !! i) as [a|] eqn:Hi; [|done]. destruct (v !! j) as [c|] eqn:Hj; [|done].
  destruct (decide (i = j)) as [->|Hij]; [simplify_eq; by rewrite list_insert_insert_eq, list_insert_id|].
  assert (j < length v)%nat as Hjl by by eapply lookup_lt_Some.
  assert (i < length v)%nat as Hil by by eapply lookup_lt_Some.
  apply Permutation_inj. split; [by rewrite !length_insert|].
  exists (fun k => if decide (k = i) then j else if decide (k = j) then i else k). split.
  - intros x y H. repeat destruct (decide _); congruence.
  - intros k. destruct (decide (k = j)) as [->|Hkj]; [|destruct (decide (k = i)) as [->|Hki]].
    + rewrite list_lookup_insert_eq by by rewrite length_insert. by destruct (decide (j = i)).
    + by rewrite list_lookup_insert_ne, list_lookup_insert_eq.
    + by rewrite !list_lookup_insert_ne.
Qed.

Lemma fisher_yates_perm {A} fuel i : forall (v v' : list A) g g',
  fisher_yates fuel i v g = Some (v', g') -> v' ≡ₚ v.
Proof.
  induction i as [|i IH]; intros v v' g g' H; simpl in H; [by simplify_eq|].
  destruct (below _ _ _) as [[j g1]|]; [|done]. apply IH in H. by rewrite H, swap_perm.
Qed.

Lemma fisher_yates_total {A} w i : forall (v : list A) g0 k, fair w g0 -> Z.of_nat i < 2 ^ 63 ->
  exists v' k', fisher_yates w i v (skip k g0) = Some (v', skip k' g0).
Proof.
  induction i as [|i IH]; intros v g0 k Hf Hi; [by exists v, k|].
  cbn [fisher_yates]. destruct (below_fair w g0 k (Z.of_nat (S i + 1)) Hf ltac:(lia)) as (j & _ & k' & ->).
  cbn [mbind option_bind]. apply IH; [done|lia].
Qed.

End draws.

(** ** Every arrangement can come out *)

(** A generator that replays a list of draws. *)
Definition replay : RngCore (list Z) :=
  {| next_u64 l := match l with [] => (0, []) | x :: l => (x, l) end |}.

Lemma below_replay n j ds : 0 <= j < n -> below (RNG := replay) 1 (n + j :: ds) n = Some (j, ds).
Proof.
  intros Hj. simpl. pose proof (Z.mod_pos_bound (as_u64 (- n)) n ltac:(lia)).
  unfold reject_below. case_match; [|lia]. do 2 f_equal.
  rewrite <- (Z.mod_small j n) at 2 by lia. rewrite <- (Z.mod_add j 1) by lia. f_equal. lia.
Qed.

Lemma swap_lookup {A} i j (v : list A) a : v !! j = Some a -> (i < length v)%nat ->
  swap i j v !! i = Some a /\
  forall k, k <> i -> k <> j -> swap i j v !! k = v !! k.
Proof.
  intros Hj Hi. unfold swap. destruct (lookup_lt_is_Some_2 v i Hi) as [c Hc]. rewrite Hc, Hj.
  assert (j < length v)%nat by by eapply lookup_lt_Some. split.
  - destruct (decide (i = j)) as [->|]; [simplify_eq; by rewrite list_lookup_insert_eq by by rewrite length_insert|].
    by rewrite list_lookup_insert_ne, list_lookup_insert_eq.
  - intros k Hki Hkj. by rewrite !list_lookup_insert_ne.
Qed.

Lemma perm_take {A} n (v w : list A) : v ≡ₚ w -> (forall k, (n <= k)%nat -> v !! k = w !! k) ->
  take n v ≡ₚ take n w.
Proof.
  intros Hp Heq. apply (Permutation_app_inv_r (drop n v)).
  assert (drop n v = drop n w) as Hd by (apply list_eq; intros k; rewrite !lookup_drop; apply Heq; lia).
  rewrite take_drop, Hd, take_drop. done.
Qed.

Lemma fisher_yates_reaches {A} i : forall v w : list A, v ≡ₚ w ->
  (forall k, (i < k)%nat -> v !! k = w !! k) -> (i < length v)%nat -> Z.of_nat i < 2 ^ 62 ->
  exists ds, Forall u64 ds /\ fisher_yates (RNG := replay) 1 i v ds = Some (w, []).
Proof.
  induction i as [|i IH]; intros v w Hp Heq Hi Hmax.
  { exists []. split; [constructor|]. simpl. do 2 f_equal.
    assert (take 1 v ≡ₚ take 1 w) as H1 by (apply perm_take; [done|]; intros; apply Heq; lia).
    assert (drop 1 v = drop 1 w) as Hd by (apply list_eq; intros k; rewrite !lookup_drop; apply Heq; lia).
    destruct v as [|x v], w as [|y w]; simpl in *; [done|by apply Permutation_length in Hp..|].
    apply Permutation_singleton_l in H1. rewrite !drop_0 in Hd. congruence. }
  assert (length v = length w) as Hl by by apply Permutation_length.
  destruct (lookup_lt_is_Some_2 w (S i)) as [a Ha]; [lia|].
  assert (take (S (S i)) v ≡ₚ take (S (S i)) w) as Ht by (apply perm_take; [done|]; intros; apply Heq; lia).
  assert (a ∈ take (S (S i)) v) as [j Hj]%list_elem_of_lookup.
  { rewrite Ht. apply list_elem_of_lookup. exists (S i). by rewrite lookup_take_lt by lia. }
  apply lookup_take_Some in Hj as [Hj Hjl].
  destruct (swap_lookup (S i) j v a Hj ltac:(lia)) as [Hs1 Hs2].
  destruct (IH (swap (S i) j v) w) as (ds & Hds & Hfy); [by rewrite swap_perm| |by rewrite swap_perm; lia|lia|].
  { intros k Hk. destruct (decide (k = S i)) as [->|]; [by rewrite Hs1|].
    rewrite Hs2 by lia. apply Heq. lia. }
  exists (Z.of_nat (S i + 1) + Z.of_nat j :: ds). split; [constructor; [unfold u64; lia|done]|].
  cbn [fisher_yates]. rewrite below_replay by lia. cbn [mbind option_bind]. by rewrite Nat2Z.id.
Qed.

(** ** Slots *)

Definition is_fixed_psk (e : ExtensionSpec) : bool := negb (is_grease_spec e) && is_psk_spec e.
Definition is_movable (e : ExtensionSpec) : bool := negb (is_grease_spec e) && negb (is_psk_spec e).

(** A slot keeps its GREASE entry or receives a movable one. *)
Definition slot_ok (s e : ExtensionSpec) : Prop :=
  if is_grease_spec s then e = s else is_movable e = true.

Lemma reassemble_spec exts : forall sh psk out,
  length sh = length (List.filter is_movable exts) -> Forall (fun e => is_movable e = true) sh ->
  exists front, reassemble exts sh psk out = out ++ front ++ psk ++ List.filter is_fixed_psk exts /\
    Forall2 slot_ok (List.filter (fun e => negb (is_fixed_psk e)) exts) front /\
    front ≡ₚ List.filter is_grease_spec exts ++ sh.
Proof.
  induction exts as [|e exts IH]; intros sh psk out Hlen Hsh; simpl in *.
  { destruct sh; [|done]. exists []. rewrite !app_nil_r. split_and!; [done|constructor|done]. }
  assert (is_fixed_psk e = negb (is_grease_spec e) && is_psk_spec e) as Ef by done.
  assert (is_movable e = negb (is_grease_spec e) && negb (is_psk_spec e)) as Em by done.
  destruct (is_grease_spec e) eqn:Hg; simpl in *; rewrite Ef; rewrite Em in Hlen; simpl in *.
  - destruct (IH sh psk (out ++ [e]) Hlen Hsh) as (front & -> & Hf & Hp).
    exists (e :: front). split; [by rewrite <- !app_assoc|]. split; [|by rewrite Hp].
    constructor; [|done]. unfold slot_ok. by rewrite Hg.
  - destruct (is_psk_spec e) eqn:Hs; simpl in *.
    2: { destruct sh as [|x sh]; [done|]. apply Forall_cons in Hsh as [Hx Hsh].
      destruct (IH sh psk (out ++ [x]) ltac:(simpl in Hlen; lia) Hsh) as (front & -> & Hf & Hp).
      exists (x :: front). split; [by rewrite <- !app_assoc|]. split.
      * constructor; [|done]. unfold slot_ok. by rewrite Hg.
      * rewrite Hp. apply Permutation_middle. }
    + destruct (IH sh (psk ++ [e]) out Hlen Hsh) as (front & -> & Hf & Hp).
      exists front. split; [by rewrite <- !app_assoc|done].
Qed.

Lemma partition_perm exts : exts ≡ₚ
  (List.filter is_grease_spec exts ++ List.filter is_movable exts) ++ List.filter is_fixed_psk exts.
Proof.
  induction exts as [|e exts IH]; [done|]. simpl. unfold is_movable at 1, is_fixed_psk at 1.
  destruct (is_grease_spec e); simpl; [by constructor|].
  destruct (is_psk_spec e); simpl.
  - rewrite <- Permutation_middle. by constructor.
  - rewrite <- Permutation_middle. simpl. by constructor.
Qed.

Section shuffle.
Context {G : Type} {RNG : RngCore G}.

Lemma shuffle_shape fuel exts (g : G) l g' : shuffle_extensions fuel exts g = Some (l, g') ->
  l ≡ₚ exts /\ exists front, l = front ++ List.filter is_fixed_psk exts /\
    Forall2 slot_ok (List.filter (fun e => negb (is_fixed_psk e)) exts) front.
Proof.
  unfold shuffle_extensions. fold is_movable. intros H.
  change (fun e => negb (is_grease_spec e) && negb (is_psk_spec e)) with is_movable in H.
  destruct (fisher_yates _ _ _ _) as [[sh g1]|] eqn:Hf; [|done]. simplify_eq/=.
  apply fisher_yates_perm in Hf.
  destruct (reassemble_spec exts sh [] []) as (front & -> & Hs & Hp).
  - by rewrite Hf.
  - rewrite Hf. apply List.Forall_forall. intros x [_ Hx]%filter_In. done.
  - simpl. split; [|by exists front]. rewrite Hp, Hf. symmetry. apply partition_perm.
Qed.

Lemma shuffle_total w exts (g : G) : fair w g -> len exts < 2 ^ 63 ->
  exists l g', shuffle_extensions w exts g = Some (l, g').
Proof.
  intros Hf Hlen. unfold shuffle_extensions.
  set (m := List.filter _ exts).
  assert (length m <= length exts)%nat by apply filter_length_le.
  destruct (fisher_yates_total w (length m - 1) m g 0 Hf) as (v' & k' & Hfy).
  - unfold len in Hlen. lia.
  - simpl in Hfy. rewrite Hfy. simpl. eauto.
Qed.

End shuffle.

(** Any rearrangement of the movable entries is the result for some draws. *)
Lemma shuffle_reaches exts sh : sh ≡ₚ List.filter is_movable exts -> len exts < 2 ^ 62 ->
  exists ds, Forall u64 ds /\
    shuffle_extensions (RNG := replay) 1 exts ds = Some (reassemble exts sh [] [], []).
Proof.
  intros Hp Hlen. unfold shuffle_extensions.
  change (fun e => negb (is_grease_spec e) && negb (is_psk_spec e)) with is_movable.
  set (m := List.filter _ exts) in *. assert (length m <= length exts)%nat by apply filter_length_le.
  destruct (decide (m = [])) as [->|Hm].
  { apply Permutation_nil_r in Hp as ->. exists []. by split; [constructor|]. }
  assert (0 < length m)%nat by (destruct m; [done|simpl; lia]).
  destruct (fisher_yates_reaches (length m - 1) m sh) as (ds & Hds & Hfy); [done| |lia|unfold len in Hlen; lia|].
  - intros k Hk. rewrite !lookup_ge_None_2; [done|rewrite Hp; lia|lia].
  - exists ds. by rewrite Hfy.
Qed.

Section order.
Context {R K D G : Type} {SR : SystemRandom R} {AG : Agreement R K D} {RNG : RngCore G}.
Implicit Types b : ClientHelloBuilder (G := G).

(** The entries in their order are the profile's, the GREASE ones left out for Chromium. *)
Lemma compute_order_perm fuel b (r : R) l rng r' : compute_extension_order fuel b r = Some (l, rng, r') ->
  l ≡ₚ if chromium_boringssl (profile b)
       then List.filter (fun e => negb (is_grease_spec e)) (extensions (profile b))
       else extensions (profile b).
Proof.
  unfold compute_extension_order. intros H. case_match; [|by simplify_eq].
  case_match.
  - destruct (shuffle_extensions fuel _ g) as [[l1 g1]|] eqn:Hs; [|done]. simplify_eq/=.
    by apply shuffle_shape in Hs as [? _].
  - destruct (shuffle_extensions (RNG := OsRng SR) fuel _ r) as [[l1 g1]|] eqn:Hs; [|done]. simplify_eq/=.
    by apply (shuffle_shape (RNG := OsRng SR)) in Hs as [? _].
Qed.

End order.

(** ** Claims *)

(** [below] is unbiased: it returns the first draw that is not rejected,
    reduced modulo [n], and among the accepted 64-bit values every residue has
    the same number of representatives, [(2^64 - reject_below n) / n]. *)
Theorem below_unbiased {G} {RNG : RngCore G} fuel (g : G) n k :
  0 < n <= 2 ^ 64 -> (k < fuel)%nat ->
  (forall j, (j < k)%nat -> draw j g < reject_below n) -> reject_below n <= draw k g ->
  below fuel g n = Some (draw k g mod n, skip (S k) g) /\
  forall r, 0 <= r < n -> forall v,
    (reject_below n <= v < 2 ^ 64 /\ v mod n = r) <->
    (exists q, 0 <= q < (2 ^ 64 - reject_below n) / n /\
               v = reject_below n + (r - reject_below n) mod n + n * q).
Proof.
  intros Hn Hk Hrej Hacc. split; [by apply below_first|]. intros r Hr v.
  destruct (reject_below_spec n Hn) as [Hb Hm]. set (t := reject_below n) in *. clearbody t.
  pose proof (Z.div_mod (2 ^ 64 - t) n ltac:(lia)) as HN. rewrite Hm in HN.
  set (c := (2 ^ 64 - t) / n) in *. pose proof (Z.mod_pos_bound (r - t) n ltac:(lia)) as Hs.
  pose proof (Z.div_mod (v - t) n ltac:(lia)) as Hv.
  split.
  - intros [Hrange <-]. exists ((v - t) / n). rewrite Zminus_mod_idemp_l.
    split; [|lia]. split; [apply Z.div_pos; lia|]. apply Z.div_lt_upper_bound; lia.
  - intros (q & Hq & ->). split; [nia|].
    rewrite (Z.mul_comm n q), Z.mod_add by lia. rewrite Zplus_mod_idemp_r.
    replace (t + (r - t)) with r by lia. apply Z.mod_small. lia.
Qed.

Lemma below_unbiased_witness :
  below (RNG := replay) 2 [0; 7] 3 = Some (1, []) /\ (2 ^ 64 - reject_below 3) / 3 = 6148914691236517205.
Proof.
  split; [|vm_compute; reflexivity].
  refine (proj1 (below_unbiased (RNG := replay) 2 [0; 7] 3 1 _ _ _ _)); [lia|lia| |vm_compute; discriminate].
  intros [|j] Hj; [vm_compute; reflexivity|lia].
Defined.

(** [shuffle_extensions] permutes the entries, leaves each GREASE entry in its
    slot and every pre_shared_key entry at the end in its old order; and every
    arrangement of the movable entries is the result for some draws. *)
Theorem shuffle_extensions_correct {G} {RNG : RngCore G} exts :
  (forall fuel (g : G) l g', shuffle_extensions fuel exts g = Some (l, g') ->
     l ≡ₚ exts /\ exists front, l = front ++ List.filter is_fixed_psk exts /\
       Forall2 slot_ok (List.filter (fun e => negb (is_fixed_psk e)) exts) front) /\
  (len exts < 2 ^ 62 -> forall sh, sh ≡ₚ List.filter is_movable exts ->
     exists ds, Forall u64 ds /\
       shuffle_extensions (RNG := replay) 1 exts ds = Some (reassemble exts sh [] [], [])).
Proof. split; [by intros; eapply shuffle_shape|]. intros. by apply shuffle_reaches. Qed.

Definition demo_specs : list ExtensionSpec :=
  [mkSpec 0x0a0a Grease; mkSpec 0x0000 Auto; mkSpec 0x0029 Auto; mkSpec 0x0017 Auto; mkSpec 0x002b Auto].

Lemma shuffle_extensions_correct_witness : exists ds,
  shuffle_extensions (RNG := replay) 1 demo_specs ds =
    Some ([mkSpec 0x0a0a Grease; mkSpec 0x002b Auto; mkSpec 0x0017 Auto; mkSpec 0x0000 Auto; mkSpec 0x0029 Auto], []).
Proof.
  destruct (proj2 (shuffle_extensions_correct (RNG := replay) demo_specs) ltac:(vm_compute; reflexivity)
              [mkSpec 0x002b Auto; mkSpec 0x0017 Auto; mkSpec 0x0000 Auto]) as (ds & _ & H).
  - cbn. apply (Permutation_rev [mkSpec 0x002b Auto; mkSpec 0x0017 Auto; mkSpec 0x0000 Auto]).
  - exists ds. exact H.
Defined.

(** The rejection loops end: when every window of [w] draws holds one that is
    accepted, [w] rounds per draw are enough for the whole shuffle. *)
Theorem shuffle_extensions_total {G} {RNG : RngCore G} w exts (g : G) :
  fair w g -> len exts < 2 ^ 63 -> exists l g', shuffle_extensions w exts g = Some (l, g').
Proof. apply shuffle_total. Qed.

(** A generator that always draws [2^63]. *)
Definition mid_rng : RngCore unit := {| next_u64 _ := (2 ^ 63, tt) |}.

Lemma mid_rng_fair : fair (RNG := mid_rng) 1 tt.
Proof.
  intros k n Hn. exists 0%nat. split; [lia|]. unfold draw. simpl. unfold reject_below.
  pose proof (Z.mod_pos_bound (as_u64 (- n)) n ltac:(lia)). lia.
Qed.

Lemma shuffle_extensions_total_witness :
  exists l g', shuffle_extensions (RNG := mid_rng) 1 demo_specs tt = Some (l, g').
Proof. apply (shuffle_extensions_total (RNG := mid_rng) 1 demo_specs tt mid_rng_fair). vm_compute. reflexivity. Defined.
