(* ===== verification/ClientHelloParse.v ===== *)
(** * ClientHello parser and mirror (lkprofile/src/client_hello.rs)

    From captured bytes to a [ParsedClientHello], and from that to a profile the
    builder can replay.  A position in the input is the bytes that follow it;
    positions past the end are the empty string, which fails the same checks.
    [hex::encode] of the crate hex is the class [HexCrate]. *)
From S2P Require Import Prelude TlsError TlsProfile TlsExtensions Hpack.
Import types extensions.

Module mirror.

Inductive ParseError : Type :=
| DataTooShort (msg : string)
| UnexpectedValue (msg : string)
| PIo (msg : string).

Record ParsedExtension : Type := mkPExt { pe_type : Z; pe_data : bytes }.

Record ParsedClientHello : Type := mkParsed {
  protocol_version : Z;
  p_session_id_length : Z;
  p_cipher_suites : list Z;
  p_compression_methods : bytes;
  p_extensions : list ParsedExtension;
}.

Definition is_grease_value (v : Z) : bool := Z.land v 0x0f0f =? 0x0a0a.

Definition tls_version_from_u16 (v : Z) : TlsVersion :=
  match v with
  | 0x0301 => Tls10
  | 0x0302 => Tls11
  | 0x0303 => Tls12
  | 0x0304 => Tls13
  | _ => Tls12
  end.

(** ** Parsing *)

(** [if pos + n > data.len() { return Err }]. *)
Definition need (n : Z) (rest : bytes) (msg : string) : Outcome ParseError unit :=
  if len rest <? n then Err (DataTooShort msg) else Ok tt.

(** The extension loop: [remain] is [ext_end - pos]; a header takes four bytes. *)
Fixpoint parse_exts (fuel : nat) (remain : Z) (rest : bytes) : list ParsedExtension :=
  match fuel, rest with
  | S fuel, a :: b :: c :: d :: rest =>
      if remain <? 4 then [] else
      let n := from_be16 c d in
      let data := if (0 <? n) && (n <=? len rest) then take_z n rest else [] in
      {| pe_type := from_be16 a b; pe_data := data |} :: parse_exts fuel (remain - 4 - n) (drop_z n rest)
  | _, _ => []
  end.

Definition parse_client_hello (data : bytes) : Outcome ParseError ParsedClientHello :=
  first ← (if len data <? 6 then Ok 0 else idx data 0);
  let rest := if first =? 0x16 then drop_z 5 data else data in
  _ ← need 4 rest "data too short for handshake header";
  ty ← idx rest 0;
  if negb (ty =? 0x01) then Err (UnexpectedValue ("expected ClientHello type (0x01), got 0x" +:+ error.hex2 ty)) else
  let rest := drop_z 4 rest in
  _ ← need 2 rest "data too short for protocol version";
  v1 ← idx rest 0; v2 ← idx rest 1;
  let rest := drop_z 2 rest in
  _ ← need 32 rest "data too short for random";
  let rest := drop_z 32 rest in
  _ ← need 1 rest "data too short for session ID length";
  sid_len ← idx rest 0;
  let rest := drop_z (1 + sid_len) rest in
  _ ← need 2 rest "data too short for cipher suites length";
  c1 ← idx rest 0; c2 ← idx rest 1;
  let cs_len := from_be16 c1 c2 in
  let rest := drop_z 2 rest in
  _ ← need cs_len rest "data too short for cipher suites";
  let suites := pairs16 (take_z cs_len rest) in
  let rest := drop_z (2 * (cs_len / 2)) rest in
  _ ← need 1 rest "data too short for compression methods";
  comp_len ← idx rest 0;
  let rest := drop_z 1 rest in
  _ ← need comp_len rest "data too short for compression methods data";
  let comp := take_z comp_len rest in
  let rest := drop_z comp_len rest in
  exts ← (if len rest <? 2 then Ok [] else
          e1 ← idx rest 0; e2 ← idx rest 1;
          Ok (parse_exts (length rest) (from_be16 e1 e2) (drop_z 2 rest)));
  Ok {| protocol_version := from_be16 v1 v2; p_session_id_length := sid_len;
        p_cipher_suites := suites; p_compression_methods := comp; p_extensions := exts |}.

(** ** Extension data *)

(** A list of [u16] behind a 16-bit length ([extract_supported_groups] and
    [extract_signature_algorithms]), and behind an 8-bit one
    ([extract_supported_versions], [extract_compress_cert_algorithms]). *)
Definition extract_list16 (data : bytes) : list Z :=
  match data with
  | a :: b :: rest => pairs16 (take_z (from_be16 a b) rest)
  | _ => []
  end.
Definition extract_list8 (data : bytes) : list Z :=
  match data with
  | n :: rest => pairs16 (take_z n rest)
  | [] => []
  end.
Definition extract_supported_groups : bytes -> list Z := extract_list16.
Definition extract_signature_algorithms : bytes -> list Z := extract_list16.
Definition extract_supported_versions : bytes -> list Z := extract_list8.
Definition extract_compress_cert_algorithms : bytes -> list Z := extract_list8.

Definition extract_ec_point_formats (data : bytes) : bytes :=
  match data with
  | n :: rest => take_z (Z.min n (len rest)) rest
  | [] => []
  end.

Fixpoint alpn_loop (fuel : nat) (rest : bytes) : list bytes :=
  match fuel, rest with
  | S fuel, plen :: rest =>
      let more := alpn_loop fuel (drop_z plen rest) in
      if plen <=? len rest then
        let s := take_z plen rest in if is_utf8 s then s :: more else more
      else more
  | _, _ => []
  end.
Definition extract_alpn_protocols (data : bytes) : list bytes :=
  match data with
  | _ :: _ :: rest => alpn_loop (length rest) rest
  | _ => []
  end.

Definition infer_ech_payload_range (payload_len : Z) : option Z * option Z :=
  if payload_len <? 16 then (None, None) else
  let block_aligned := (payload_len - 16) / 32 * 32 in
  if block_aligned =? 0 then (None, None)
  else if (128 <=? block_aligned) && (block_aligned <=? 224) then (Some 128, Some 224)
  else (Some block_aligned, Some block_aligned).

Fixpoint key_share_loop (fuel : nat) (rest : bytes) : list Z :=
  match fuel, rest with
  | S fuel, a :: b :: c :: d :: rest =>
      from_be16 a b :: key_share_loop fuel (drop_z (from_be16 c d) rest)
  | _, _ => []
  end.
Definition extract_key_share_curves (data : bytes) : list Z :=
  match data with
  | _ :: _ :: rest => key_share_loop (length rest) rest
  | _ => []
  end.

Definition extract_record_size_limit (data : bytes) : option Z :=
  match data with a :: b :: _ => Some (from_be16 a b) | _ => None end.

Definition extract_delegated_credentials (data : bytes) : option DelegatedCredentialConfig :=
  match data with
  | _ :: _ :: _ => Some {| dc_signature_algorithms := extract_list16 data |}
  | _ => None
  end.

(** ** The profile *)

(** [hex::encode]: two lower-case digits per byte. *)
Class HexCrate : Type := { hex_encode : bytes -> bytes }.
Definition lower_hex (n : Z) : Z := if n <? 10 then 48 + n else 87 + n.
Class HexCrateLaws (H : HexCrate) : Prop := {
  hex_encode_spec d : hex_encode d = concat ((fun b => [lower_hex (b / 16); lower_hex (b mod 16)]) <$> d) }.

(** The mutable locals of [build_tls_profile]. *)
Record Acc : Type := mkAcc {
  a_groups : list Z;
  a_sigalgs : list Z;
  a_formats : bytes;
  a_alpn : list bytes;
  a_key_share : list Z;
  a_versions : list Z;
  a_compress : option (list Z);
  a_record_size : option Z;
  a_delegated : option DelegatedCredentialConfig;
  a_alps : option (list bytes);
  a_padding : bool;
  a_ech : option EchMode;
  a_grease_ext : bool;
  a_grease_groups : bool;
  a_grease_versions : bool;
  a_grease_sigalgs : bool;
  a_grease_key_share : bool;
}.

Definition acc_new : Acc :=
  {| a_groups := []; a_sigalgs := []; a_formats := [0]; a_alpn := []; a_key_share := [];
     a_versions := []; a_compress := None; a_record_size := None; a_delegated := None;
     a_alps := None; a_padding := false; a_ech := None; a_grease_ext := false;
     a_grease_groups := false; a_grease_versions := false; a_grease_sigalgs := false;
     a_grease_key_share := false |}.

Definition retain_real (l : list Z) : list Z := List.filter (fun v => negb (is_grease_value v)) l.
Definition any_grease (l : list Z) : bool := existsb is_grease_value l.

(** The ECH branch, for payloads of type outer; the payload length is read when
    it is inside the data. *)
Definition ech_of_payload (data : bytes) : option EchMode :=
  match data with
  | 0 :: k1 :: k2 :: a1 :: a2 :: _ :: e1 :: e2 :: rest =>
      let enc_length := from_be16 e1 e2 in
      let '(pl_min, pl_max) :=
        match drop_z enc_length rest with
        | l1 :: l2 :: _ => infer_ech_payload_range (from_be16 l1 l2)
        | _ => (None, None)
        end in
      Some (EchGrease {| kdf_id := from_be16 k1 k2; aead_id := from_be16 a1 a2;
                         enc_length := enc_length; payload_length_min := pl_min;
                         payload_length_max := pl_max |})
  | _ => None
  end.

(** One turn of the loop over the extensions. *)
Definition acc_step (s : Acc) (e : ParsedExtension) : Acc :=
  let 'mkAcc gr sg fo al ks ve co rs de ap pa ec ge gg gv gs gk := s in
  if is_grease_value (pe_type e) then
    mkAcc gr sg fo al ks ve co rs de ap pa ec true gg gv gs gk else
  let data := pe_data e in
  match pe_type e with
  | 0x000a =>
      let l := extract_supported_groups data in
      mkAcc (retain_real l) sg fo al ks ve co rs de ap pa ec ge (any_grease l) gv gs gk
  | 0x000b => mkAcc gr sg (extract_ec_point_formats data) al ks ve co rs de ap pa ec ge gg gv gs gk
  | 0x000d =>
      let l := extract_signature_algorithms data in
      mkAcc gr (retain_real l) fo al ks ve co rs de ap pa ec ge gg gv (any_grease l) gk
  | 0x0010 => mkAcc gr sg fo (extract_alpn_protocols data) ks ve co rs de ap pa ec ge gg gv gs gk
  | 0x0015 => mkAcc gr sg fo al ks ve co rs de ap true ec ge gg gv gs gk
  | 0x001b =>
      mkAcc gr sg fo al ks ve (Some (extract_compress_cert_algorithms data)) rs de ap pa ec ge gg gv gs gk
  | 0x001c => mkAcc gr sg fo al ks ve co (extract_record_size_limit data) de ap pa ec ge gg gv gs gk
  | 0x0022 => mkAcc gr sg fo al ks ve co rs (extract_delegated_credentials data) ap pa ec ge gg gv gs gk
  | 0x002b =>
      let l := extract_supported_versions data in
      mkAcc gr sg fo al ks l co rs de ap pa ec ge gg (any_grease l) gs gk
  | 0x0033 =>
      let l := extract_key_share_curves data in
      mkAcc gr sg fo al (retain_real l) ve co rs de ap pa ec ge gg gv gs (any_grease l)
  | 0x4469 | 0x44cd =>
      mkAcc gr sg fo al ks ve co rs de (Some (extract_alpn_protocols data)) pa ec ge gg gv gs gk
  | 0xFE0D =>
      match ech_of_payload data with
      | Some m => mkAcc gr sg fo al ks ve co rs de ap pa (Some m) ge gg gv gs gk
      | None => s
      end
  | _ => s
  end.

(** [iter().min()], [iter().max()]. *)
Definition list_min (l : list Z) : option Z :=
  match l with [] => None | x :: l => Some (foldl Z.min x l) end.
Definition list_max (l : list Z) : option Z :=
  match l with [] => None | x :: l => Some (foldl Z.max x l) end.

Definition version_bounds (versions : list Z) (protocol : Z) : TlsVersion * TlsVersion :=
  if is_empty versions then (tls_version_from_u16 protocol, tls_version_from_u16 protocol)
  else
    let real := retain_real versions in
    (tls_version_from_u16 (default 0x0303 (list_min real)),
     tls_version_from_u16 (default 0x0303 (list_max real))).

(** Types the builder generates itself. *)
Definition is_well_known (t : Z) : bool :=
  match t with
  | 0x0000 | 0x0005 | 0x000a | 0x000b | 0x000d | 0x0010 | 0x0012 | 0x0015 | 0x0016 | 0x0017
  | 0x001b | 0x001c | 0x0022 | 0x0023 | 0x002b | 0x002d | 0x0033 | 0x4469 | 0x44cd | 0xFE0D
  | 0xff01 => true
  | _ => false
  end.

Section profile.
Context {H : HexCrate}.

Definition spec_of (e : ParsedExtension) : ExtensionSpec :=
  if is_grease_value (pe_type e) then {| extension_type := pe_type e; source := Grease |}
  else {| extension_type := pe_type e;
          source := if is_well_known (pe_type e) then Auto
                    else if is_empty (pe_data e) then Auto
                    else RawBytes (hex_encode (pe_data e)) |}.

Definition build_tls_profile (nm : bytes) (ch : ParsedClientHello) : TlsProfile :=
  let s := foldl acc_step acc_new (p_extensions ch) in
  let '(tls_min, tls_max) := version_bounds (a_versions s) (protocol_version ch) in
  {| name := nm; tls_client_hello_style := Generic;
     tls_min_version := tls_min; tls_max_version := tls_max;
     cipher_suites := retain_real (p_cipher_suites ch);
     extensions := map spec_of (p_extensions ch);
     supported_groups := a_groups s; signature_algorithms := a_sigalgs s;
     ec_point_formats := a_formats s; compression_methods := p_compression_methods ch;
     grease := {| g_cipher_suite := any_grease (p_cipher_suites ch);
                  g_extensions := a_grease_ext s; g_supported_groups := a_grease_groups s;
                  g_supported_versions := a_grease_versions s;
                  g_signature_algorithms := a_grease_sigalgs s;
                  g_key_share := a_grease_key_share s |};
     padding := if a_padding s then BlockAlign 256 512 else PadNone;
     alps_protocols := a_alps s; compress_cert_algorithms := a_compress s;
     key_share_curves := a_key_share s; record_size_limit := a_record_size s;
     delegated_credentials := a_delegated s; session_id_length := p_session_id_length ch;
     alpn_protocols := a_alpn s; randomization := None; ech := a_ech s;
     ech_outer_extensions :=
       if a_ech s then Some [51; 10; 13; 5; 18; 16; 45; 27; 17613] else None;
     session_resumption := resumption_default |}.

End profile.
End mirror.
