(* ===== verification/ClientHelloWire.v ===== *)
(** * ClientHello on the wire: builder against parser

    Lemmas that connect lktls's encoders with lkprofile's decoders: lists of
    16-bit values, protocol names, key shares, the extension block and the whole
    message. *)
From S2P Require Import Prelude TlsError TlsCipher TlsRecord TlsProfile TlsExtensions TlsKx Hpack Synthesis ClientHello ClientHelloParse.
Import error types extensions kx client_hello mirror.

(** ** 16-bit lists *)

Lemma be16s_cons x l : be16s (x :: l) = be16 x ++ be16s l.
Proof. done. Qed.

Lemma len_be16s l : len (be16s l) = 2 * len l.
Proof. induction l as [|x l IH]; [done|]. rewrite be16s_cons, len_app, IH, len_be16, len_cons. lia. Qed.

Lemma is_bytes_be16s l : is_bytes (be16s l).
Proof.
  induction l; [constructor|]. rewrite be16s_cons. apply is_bytes_app. auto with width_db.
Qed.

Lemma pairs16_be16s l : Forall u16 l -> pairs16 (be16s l) = l.
Proof.
  induction 1 as [|x l Hx _ IH]; [done|]. rewrite be16s_cons.
  unfold be16. cbn [app pairs16]. by rewrite IH, from_be16_be16.
Qed.

#[export] Hint Rewrite len_be16s : len_db.
#[export] Hint Resolve is_bytes_be16s : width_db.

Lemma from_be16_len {A} (l : list A) n : len l = n -> n < 65536 ->
  from_be16 (as_u8 (as_u16 n ≫ 8)) (as_u8 (as_u16 n)) = n.
Proof. intros <- Hn. pose proof (len_nonneg l). rewrite from_be16_be16; width. Qed.

Lemma extract_list16_encoded l : Forall u16 l -> 2 * len l < 65536 ->
  extract_list16 (be16 (as_u16 (len l * 2)) ++ be16s l) = l.
Proof.
  intros Hl Hn. unfold extract_list16, be16 at 1. cbn [app].
  rewrite (from_be16_len (be16s l)) by (rewrite ?len_be16s; lia).
  rewrite take_z_all by (rewrite len_be16s; lia). by apply pairs16_be16s.
Qed.

Lemma extract_list8_encoded l : Forall u16 l -> 2 * len l < 256 ->
  extract_list8 (as_u8 (len l * 2) :: be16s l) = l.
Proof.
  intros Hl Hn. unfold extract_list8. pose proof (len_nonneg l).
  rewrite as_u8_small by width. rewrite take_z_all by (rewrite len_be16s; lia).
  by apply pairs16_be16s.
Qed.

(** Non-empty pieces are at most as many as their bytes. *)
Lemma length_concat_fmap {A} (f : A -> bytes) l : (forall x, f x <> []) ->
  (length l <= length (concat (f <$> l)))%nat.
Proof.
  intros Hf. induction l as [|x l IH]; [done|]. rewrite fmap_cons. cbn [concat].
  rewrite length_app. specialize (Hf x). destruct (f x); [done|]. simpl. lia.
Qed.

(** ** Protocol names *)

Definition name_ok (p : bytes) : Prop := len p < 256 /\ is_utf8 p = true.

Lemma alpn_loop_encoded l : forall fuel, Forall name_ok l -> (length l <= fuel)%nat ->
  alpn_loop fuel (concat ((fun p => as_u8 (len p) :: p) <$> l)) = l.
Proof.
  induction l as [|p l IH]; intros fuel Hl Hf; [by destruct fuel|].
  apply Forall_cons in Hl as [[Hp Hu] Hl]. destruct fuel as [|fuel]; simpl in Hf; [lia|].
  rewrite fmap_cons. cbn [concat app alpn_loop]. pose proof (len_nonneg p). rewrite as_u8_small by width.
  rewrite drop_z_app_len, take_z_app_len, (IH fuel) by (done || lia).
  destruct (Z.leb_spec (len p) (len (p ++ concat ((fun q => as_u8 (len q) :: q) <$> l)))); [|slen].
  by rewrite Hu.
Qed.

Lemma extract_alpn_encoded l : Forall name_ok l ->
  extract_alpn_protocols (encode_protocols l) = l.
Proof.
  intros Hl. unfold extract_alpn_protocols, encode_protocols, be16. cbn [app].
  apply alpn_loop_encoded; [done|]. by apply length_concat_fmap.
Qed.

(** ** Key shares *)

Definition entry_ok (e : KeyShareEntry) : Prop := u16 (ks_group e) /\ len (ks_key_data e) < 65536.

Lemma key_share_loop_encoded l : forall fuel, Forall entry_ok l -> (length l <= fuel)%nat ->
  key_share_loop fuel (concat (encode_entry <$> l)) = ks_group <$> l.
Proof.
  induction l as [|e l IH]; intros fuel Hl Hf; [by destruct fuel|].
  apply Forall_cons in Hl as [[Hg Hk] Hl]. destruct fuel as [|fuel]; simpl in Hf; [lia|].
  rewrite !fmap_cons. cbn [concat]. unfold encode_entry at 1, be16. cbn [app key_share_loop].
  rewrite from_be16_be16, (from_be16_len (ks_key_data e)) by done.
  rewrite drop_z_app_len, (IH fuel) by (done || lia). done.
Qed.

Lemma extract_key_share_encoded l : Forall entry_ok l ->
  extract_key_share_curves (encode_payload (mkKeyShare l)) = ks_group <$> l.
Proof.
  intros Hl. unfold extract_key_share_curves. cbn [encode_payload KeyShare_ext ks_entries].
  unfold be16 at 1. cbn [app].
  apply key_share_loop_encoded; [done|]. by apply length_concat_fmap.
Qed.

(** ** The extension block *)

Definition ext : Type := Z * bytes.
Definition wire (l : list ext) : bytes := concat ((fun e => encode_raw e.1 e.2) <$> l).
Definition ext_ok (e : ext) : Prop := u16 e.1 /\ is_bytes e.2.

Lemma wire_app l k : wire (l ++ k) = wire l ++ wire k.
Proof. unfold wire. by rewrite fmap_app, concat_app. Qed.
Lemma wire_cons e l : wire (e :: l) = encode_raw e.1 e.2 ++ wire l.
Proof. done. Qed.
Lemma len_encode_raw t d : len (encode_raw t d) = 4 + len d.
Proof. unfold encode_raw. autorewrite with len_db. lia. Qed.
Lemma is_bytes_encode_raw t d : is_bytes d -> is_bytes (encode_raw t d).
Proof. intros. unfold encode_raw. rewrite !is_bytes_app. auto with width_db. Qed.
Lemma is_bytes_wire l : Forall ext_ok l -> is_bytes (wire l).
Proof.
  induction 1 as [|e l [_ He] _ IH]; [constructor|]. rewrite wire_cons.
  apply is_bytes_app. auto using is_bytes_encode_raw.
Qed.
#[export] Hint Rewrite len_encode_raw : len_db.

Lemma parse_exts_wire l : forall fuel, Forall (fun e => u16 e.1) l -> len (wire l) < 65536 ->
  (length l <= fuel)%nat ->
  parse_exts fuel (len (wire l)) (wire l) = (fun e => mkPExt e.1 e.2) <$> l.
Proof.
  induction l as [|[t d] l IH]; intros fuel Hl Hw Hf; [by destruct fuel|].
  apply Forall_cons in Hl as [Ht Hl]. destruct fuel as [|fuel]; simpl in Hf, Ht; [lia|].
  rewrite wire_cons, fmap_cons in *. cbn [fst snd] in *. rewrite len_app, len_encode_raw in *.
  pose proof (len_nonneg d). pose proof (len_nonneg (wire l)).
  unfold encode_raw, be16. cbn [app parse_exts].
  destruct (Z.ltb_spec (4 + len d + len (wire l)) 4); [lia|].
  rewrite from_be16_be16, (from_be16_len d) by (done || lia).
  rewrite drop_z_app_len, take_z_app_len.
  replace (4 + len d + len (wire l) - 4 - len d) with (len (wire l)) by lia.
  rewrite (IH fuel) by (done || lia). do 2 f_equal.
  destruct (Z.ltb_spec 0 (len d)); simpl.
  - destruct (Z.leb_spec (len d) (len (d ++ wire l))); [done|slen].
  - symmetry. apply len_0_nil. lia.
Qed.

(** ** The whole message *)

Lemma len_be32_tail v : len (drop 1 (be32 v)) = 3.
Proof. done. Qed.

Lemma as_u16_small n : u16 n -> as_u16 n = n.
Proof. width. Qed.

(** A check that passes, and the reads it allows. *)
Lemma need_ok n rest msg : n <= len rest -> need n rest msg = Ok tt.
Proof. intros. unfold need. destruct (Z.ltb_spec (len rest) n); [lia|done]. Qed.
Lemma idx_0 {E} (x : Z) l : idx (E := E) (x :: l) 0 = Ok x.
Proof. done. Qed.
Lemma idx_1 {E} (x y : Z) l : idx (E := E) (x :: y :: l) 1 = Ok y.
Proof. done. Qed.
Lemma drop_z4 (a b c d : Z) l : drop_z 4 (a :: b :: c :: d :: l) = l.
Proof. done. Qed.
Lemma drop_z2 (a b : Z) l : drop_z 2 (a :: b :: l) = l.
Proof. done. Qed.
Lemma drop_z1 (a : Z) l : drop_z 1 (a :: l) = l.
Proof. done. Qed.
Lemma drop_z_skip (x : Z) n l k : 0 <= n -> n = len l -> drop_z (1 + n) (x :: l ++ k) = k.
Proof.
  intros Hn ->. change (x :: l ++ k) with ((x :: l) ++ k).
  rewrite <- (len_cons x l). apply drop_z_app_len.
Qed.

Ltac parse_step :=
  match goal with
  | |- mbind _ (need ?n ?r ?m) = _ =>
      rewrite (need_ok n r m) by (autorewrite with len_db; lia)
  | |- mbind _ (idx (?x :: ?l) 0) = _ => rewrite (idx_0 x l)
  | |- mbind _ (idx (?x :: ?y :: ?l) 1) = _ => rewrite (idx_1 x y l)
  end; cbn [mbind outcome_bind].

(** The message after the handshake type and length, as cells and blocks. *)
Definition hello_body (rnd sid suites comp exts : bytes) : bytes :=
  3 :: 3 :: rnd ++ len sid :: sid ++ be16 (len suites) ++ suites ++
  len comp :: comp ++ be16 (len exts) ++ exts.

Lemma assemble_body rnd sid suites comp exts :
  len sid < 256 -> len suites < 65536 -> len comp < 256 -> len exts < 65536 ->
  exists b1 b2 b3, assemble rnd sid suites comp exts = 1 :: b1 :: b2 :: b3 :: hello_body rnd sid suites comp exts.
Proof.
  intros. pose proof (len_nonneg sid). pose proof (len_nonneg comp). pose proof (len_nonneg suites).
  pose proof (len_nonneg exts). unfold assemble, hello_body, be32. cbn [drop app].
  do 3 eexists. do 6 f_equal. rewrite !(as_u8_small (len _)) by width.
  rewrite !(as_u16_small (len _)) by width.
  reflexivity.
Qed.

Lemma parse_hello_body pre rnd sid suites comp l :
  pre = [] \/ (exists v1 v2 n1 n2, pre = [0x16; v1; v2; n1; n2]) ->
  len rnd = 32 -> len sid < 256 -> Forall u16 suites -> 2 * len suites < 65536 ->
  len comp < 256 -> Forall (fun e => u16 e.1) l -> len (wire l) < 65536 -> forall b1 b2 b3,
  parse_client_hello (pre ++ 1 :: b1 :: b2 :: b3 :: hello_body rnd sid (be16s suites) comp (wire l)) =
    Ok {| protocol_version := 0x0303; p_session_id_length := len sid;
          p_cipher_suites := suites; p_compression_methods := comp;
          p_extensions := (fun e => mkPExt e.1 e.2) <$> l |}.
Proof.
  intros Hpre Hr Hs Hsu Hsl Hc Hl Hw b1 b2 b3.
  pose proof (len_nonneg sid). pose proof (len_nonneg comp). pose proof (len_nonneg suites).
  pose proof (len_nonneg (wire l)).
  unfold parse_client_hello, hello_body. rewrite len_be16s.
  set (tl := be16 (len (wire l)) ++ wire l).
  assert (len tl = 2 + len (wire l)) as Htl by (unfold tl; autorewrite with len_db; lia).
  set (hd := 1 :: b1 :: b2 :: b3 :: 3 :: 3 ::
    rnd ++ len sid :: sid ++ be16 (2 * len suites) ++ be16s suites ++ len comp :: comp ++ tl).
  assert (exists first, (if len (pre ++ hd) <? 6 then Ok 0 else idx (pre ++ hd) 0) = Ok (E := ParseError) first /\
    (if first =? 0x16 then drop_z 5 (pre ++ hd) else pre ++ hd) = hd) as (first & -> & Hrest).
  { destruct (Z.ltb_spec (len (pre ++ hd)) 6) as [Hlt|_].
    { exfalso. unfold hd in Hlt. autorewrite with len_db in Hlt. pose proof (len_nonneg pre). lia. }
    destruct Hpre as [->|(v1 & v2 & n1 & n2 & ->)]; eexists; (split; [reflexivity|]); done. }
  cbn [mbind outcome_bind]. rewrite Hrest. unfold hd. clear Hrest.
  do 2 parse_step. change (negb (1 =? 1)) with false. cbv iota.
  rewrite drop_z4. do 3 parse_step. rewrite drop_z2. parse_step.
  replace 32 with (len rnd) by done. rewrite drop_z_app_len.
  do 2 parse_step. rewrite (drop_z_skip (len sid)) by done.
  unfold be16. cbn [app].
  do 3 parse_step. rewrite drop_z2, from_be16_be16 by width.
  parse_step.
  replace (2 * (2 * len suites / 2)) with (len (be16s suites)) by (rewrite len_be16s; width).
  replace (2 * len suites) with (len (be16s suites)) by apply len_be16s.
  rewrite take_z_app_len, drop_z_app_len, pairs16_be16s by done.
  do 2 parse_step. rewrite drop_z1. parse_step.
  rewrite take_z_app_len, drop_z_app_len.
  destruct (Z.ltb_spec (len tl) 2); [lia|].
  unfold tl, be16. cbn [app]. rewrite idx_0, idx_1. cbn [mbind outcome_bind].
  rewrite drop_z2, from_be16_be16 by width.
  rewrite parse_exts_wire; [done..|].
  etransitivity; [|apply Nat.le_trans with (length (wire l)); [reflexivity|simpl; lia]].
  apply length_concat_fmap. intros e. done.
Qed.

(** ** The parser survives any input *)

Definition parsed_ok (ch : ParsedClientHello) : Prop :=
  u16 (protocol_version ch) /\ u8 (p_session_id_length ch) /\ Forall u16 (p_cipher_suites ch) /\
  is_bytes (p_compression_methods ch) /\ len (p_compression_methods ch) < 256 /\
  Forall (fun e => ext_ok (pe_type e, pe_data e)) (p_extensions ch).

Lemma need_wp n rest msg : outcome_ok (fun _ => n <= len rest) (need n rest msg).
Proof. unfold need. destruct (Z.ltb_spec (len rest) n); simpl; [done|lia]. Qed.

Lemma pairs16_ok : forall n l, (length l <= n)%nat -> is_bytes l -> Forall u16 (pairs16 l).
Proof.
  induction n as [|n IH]; intros [|a [|b l]] Hn Hl; simpl in *; try constructor; [lia|lia| |].
  - rewrite !is_bytes_cons in Hl. apply from_be16_range; apply Hl.
  - rewrite !is_bytes_cons in Hl. apply IH; [lia|apply Hl].
Qed.

Lemma parse_exts_ok fuel : forall remain rest, is_bytes rest ->
  Forall (fun e => ext_ok (pe_type e, pe_data e)) (parse_exts fuel remain rest).
Proof.
  induction fuel as [|fuel IH]; intros remain rest Hr; [constructor|].
  destruct rest as [|a [|b [|c [|d rest]]]]; try constructor. cbn [parse_exts].
  case_match; [constructor|]. rewrite !is_bytes_cons in Hr. destruct_and!. constructor.
  - split; simpl; [by apply from_be16_range|]. case_match; auto with width_db.
  - apply IH. auto with width_db.
Qed.

Lemma idx_u8 {E} (l : bytes) i : is_bytes l -> 0 <= i < len l -> outcome_ok u8 (idx (E := E) l i).
Proof. apply idx_wp. Qed.

Ltac read_byte b Hb :=
  eapply outcome_ok_bind; [apply idx_u8; [auto 10 with width_db|lia]|]; intros b Hb.
Ltac check_need H := eapply outcome_ok_bind; [apply need_wp|]; intros [] H; cbv beta in H.

Lemma parse_client_hello_ok data : is_bytes data ->
  outcome_ok parsed_ok (parse_client_hello data).
Proof.
  intros Hd. unfold parse_client_hello.
  eapply outcome_ok_bind with (P := fun _ => True).
  { destruct (Z.ltb_spec (len data) 6); [done|].
    eapply outcome_ok_weaken; [apply (idx_wp u8); [done|lia]|done]. }
  intros first _. cbv beta zeta. set (r0 := if _ : bool then _ else _).
  assert (is_bytes r0) as Hr0 by (unfold r0; case_match; auto with width_db). clearbody r0.
  check_need H4. read_byte ty Hty. case_match; [done|].
  check_need H2. read_byte v1 Hv1. read_byte v2 Hv2.
  check_need H32. check_need H1. read_byte sl Hsl.
  check_need Hc2. read_byte c1 Hc1. read_byte c2 Hc2'. check_need Hcs.
  check_need Hm. read_byte cl Hcl. check_need Hcomp.
  eapply outcome_ok_bind with (P := Forall (fun e => ext_ok (pe_type e, pe_data e))).
  { match goal with |- context [?x <? 2] => destruct (Z.ltb_spec x 2) end; [constructor|].
    read_byte e1 He1. read_byte e2 He2. simpl. apply parse_exts_ok. auto 10 with width_db. }
  intros exts Hexts. simpl. split_and!; simpl; auto 10 using from_be16_range with width_db.
  - eapply pairs16_ok; [done|]. auto 10 with width_db.
  - rewrite len_take_z by apply Hcl. unfold u8 in Hcl. lia.
Qed.
