(* ===== verification/ClientHelloProps.v ===== *)
(** * The ClientHello the builder emits *)
From S2P Require Import Prelude TlsError TlsCipher TlsRecord TlsProfile TlsExtensions TlsKx IpAddr Hpack Synthesis ClientHello ClientHelloParse ClientHelloWire.
Import error types extensions kx client_hello mirror.

(** Extension blocks of bounded size are determined by their bytes. *)
Lemma wire_inj l k :
  Forall (fun e => u16 e.1) l -> Forall (fun e => u16 e.1) k -> len (wire l) < 65536 ->
  wire l = wire k -> l = k.
Proof.
  intros Hl Hk Hw Heq.
  pose proof (parse_exts_wire l (length l + length k) Hl Hw ltac:(lia)) as H1.
  rewrite Heq in H1, Hw. rewrite (parse_exts_wire k) in H1 by (done || lia).
  clear -H1. revert k H1. induction l as [|[t d] l IH]; intros [|[t' d'] k] H; simplify_eq/=; [done|].
  f_equal. by apply IH.
Qed.

(** ** GREASE values *)

Lemma land_f0 seed : Z.land seed 0xf0 = 16 * ((seed / 16) mod 16).
Proof.
  change 0xf0 with (Z.ones 4 ≪ 4). apply Z.bits_inj'. intros i Hi.
  rewrite Z.land_spec, (Z.mul_comm 16). change 16 with (2 ^ 4) at 3.
  rewrite <- (Z.shiftl_mul_pow2 _ 4) by done.
  destruct (decide (i < 4)).
  - rewrite !Z.shiftl_spec_low by lia. apply andb_false_r.
  - rewrite !Z.shiftl_spec by lia. change 16 with (2 ^ 4). rewrite <- Z.shiftr_div_pow2 by done.
    rewrite <- Z.land_ones, Z.land_spec, Z.shiftr_spec by lia.
    by replace (i - 4 + 4) with i by lia.
Qed.

(** The sixteen values of RFC 8701. *)
Definition rfc_grease : list Z := map (fun k => 4112 * k + 0x0a0a) (seqZ 0 16).

Lemma seed_to_grease_rfc seed : seed_to_grease seed ∈ rfc_grease.
Proof.
  unfold seed_to_grease. rewrite land_f0.
  pose proof (Z.mod_pos_bound (seed / 16) 16 ltac:(lia)) as Hk.
  set (k := (seed / 16) mod 16) in *. clearbody k.
  assert (forallb (fun k => bool_decide (Z.lor (Z.lor (16 * k) 0x0a) (as_u16 (Z.lor (16 * k) 0x0a ≪ 8)) ∈ rfc_grease))
            (seqZ 0 16) = true) as H by (vm_compute; reflexivity).
  rewrite forallb_forall in H. specialize (H k). rewrite bool_decide_eq_true in H. apply H.
  apply list_elem_of_In, elem_of_seqZ. lia.
Qed.

Lemma rfc_grease_facts v : v ∈ rfc_grease ->
  u16 v /\ client_hello.is_grease_value v = true /\ mirror.is_grease_value v = true /\
  Z.lxor v 0x1010 ∈ rfc_grease /\ Z.lxor v 0x1010 <> v.
Proof.
  intros Hv.
  assert (forallb (fun v => bool_decide (u16 v) && client_hello.is_grease_value v && mirror.is_grease_value v &&
            bool_decide (Z.lxor v 0x1010 ∈ rfc_grease) && bool_decide (Z.lxor v 0x1010 <> v)) rfc_grease = true)
    as H by (vm_compute; reflexivity).
  rewrite forallb_forall in H. specialize (H v ltac:(by apply list_elem_of_In)).
  rewrite !andb_true_iff, !bool_decide_eq_true in H. destruct_and!. done.
Qed.

Lemma grease_get_rfc g i : grease_get g i ∈ rfc_grease.
Proof.
  unfold grease_get. pose proof (seed_to_grease_rfc (raw_seed g i)) as H.
  destruct i; try done. case_match; [|done]. by apply rfc_grease_facts.
Qed.

Lemma grease_get_distinct g : grease_get g GExtension2 <> grease_get g GExtension1.
Proof.
  unfold grease_get. destruct (Z.eqb_spec (seed_to_grease (raw_seed g GExtension2))
    (seed_to_grease (raw_seed g GExtension1))) as [E|E]; [|done].
  rewrite E. apply rfc_grease_facts, seed_to_grease_rfc.
Qed.

Section emits.
Context {R K D G : Type} {SR : SystemRandom R} {AG : Agreement R K D} {RNG : RngCore G}.
Implicit Types b : ClientHelloBuilder (G := G).
Implicit Types kps : list (EphemeralKeyPair K D).

(** A saved fake ECH extension is one extension. *)
Definition ech_saved_ok b : Prop :=
  match ech_grease_extension b with
  | Some e => exists d, e = encode_raw ext_type.ENCRYPTED_CLIENT_HELLO d
  | None => True
  end.

(** At most one extension, of the requested type. *)
Lemma encode_ech_grease_wire {E} c cid (r : R) e r' :
  encode_ech_grease (E := E) c cid r = Ok (e, r') ->
  exists enc n payload,
    e = encode_raw ECH_EXTENSION_TYPE
          (ech_outer_payload (kdf_id c) (aead_id c) cid (enc_length c) enc n payload).
Proof.
  unfold encode_ech_grease. intros H.
  destruct (compute_grease_payload_length c r) as [[n r1]| |]; [|done..]. simpl in H.
  destruct (fill_expect (enc_length c) r1) as [[enc r2]| |]; [|done..]. simpl in H.
  destruct (fill_expect n r2) as [[payload r3]| |]; [|done..]. simplify_eq/=. eauto.
Qed.

(** At most one extension, of the requested type. *)
Lemma encode_auto_wire b t kps g (r : R) e r' :
  ech_saved_ok b -> encode_auto_extension b t kps g r = Ok (e, r') ->
  e = [] \/ exists d, e = encode_raw t d.
Proof.
  intros Hech H. unfold encode_auto_extension in H.
  repeat (case_match; simplify_eq/=; try (by left); try (right; eexists; reflexivity));
    try (apply encode_ech_grease_wire in H as (? & ? & ? & ->); right; eexists; reflexivity);
    try (match goal with |- context [from_option _ [] ?o] => destruct o end; simpl;
         [right; eexists; reflexivity|by left]).
  right. unfold ech_saved_ok in Hech.
  match goal with E : ech_grease_extension b = _ |- _ => rewrite E in Hech end. exact Hech.
Qed.

(** ** One entry of the extension list *)

Definition spec_type_ok (g : GreaseValues) (spec : ExtensionSpec) (t : Z) : Prop :=
  match source spec with
  | Grease => t = grease_get g GExtension1 \/ t = grease_get g GExtension2
  | _ => t = extension_type spec
  end.

(** What [encode_extension_spec] makes of an entry, for some counter and state
    of the generator: at most one extension. *)
Definition emits b kps g chromium (spec : ExtensionSpec) (l : list ext) : Prop :=
  (exists idx (r : R) idx' r',
     encode_extension_spec b spec kps g chromium idx r = Ok (wire l, idx', r')) /\
  (l = [] \/ exists t d, l = [(t, d)] /\ spec_type_ok g spec t).

Lemma encode_spec_emits b kps g chromium spec idx (r : R) e idx' r' : ech_saved_ok b ->
  encode_extension_spec b spec kps g chromium idx r = Ok (e, idx', r') ->
  exists l, e = wire l /\ emits b kps g chromium spec l.
Proof.
  intros Hech H. pose proof H as H0. unfold encode_extension_spec in H.
  assert (e = [] \/ exists t d, e = encode_raw t d /\ spec_type_ok g spec t) as He.
  { unfold spec_type_ok. destruct (source spec).
    - destruct (encode_auto_extension b (extension_type spec) kps g r) as [[e1 r1]| |] eqn:Ha; [|done..].
      simplify_eq/=. apply encode_auto_wire in Ha as [->|[d ->]]; [by left|right; eauto|done].
    - destruct (decode_hex data) as [d| |]; [|done..]. simplify_eq/=. right. eauto.
    - case_match; [|simplify_eq; by left]. case_match; simplify_eq.
      right. do 2 eexists. split; [done|]. case_match; simplify_eq/=; auto. }
  destruct He as [->|(t & d & -> & Ht)].
  - exists []. split; [done|]. split; [by do 4 eexists|by left].
  - assert (encode_raw t d = wire [(t, d)]) as Hw by (unfold wire; simpl; by rewrite app_nil_r).
    exists [(t, d)]. split; [done|]. rewrite Hw in H0. split; [by do 4 eexists|right; eauto].
Qed.

(** ** The extension block without padding *)

Definition main_spec (chromium : bool) (s : ExtensionSpec) : bool :=
  negb (extension_type s =? ext_type.PADDING) &&
  negb (chromium && (extension_type s =? ext_type.PRE_SHARED_KEY)).
Definition late_spec (chromium : bool) (s : ExtensionSpec) : bool :=
  chromium && (extension_type s =? ext_type.PRE_SHARED_KEY).

(** A position that is a boundary between two extensions of [wire l]. *)
Definition at_boundary (l : list ext) (pos : Z) : Prop :=
  exists l1 l2, l = l1 ++ l2 /\ pos = len (wire l1).

Lemma at_boundary_app l k pos : at_boundary l pos -> at_boundary (l ++ k) pos.
Proof. intros (l1 & l2 & -> & ->). exists l1, (l2 ++ k). by rewrite app_assoc. Qed.

Lemma encode_specs_emits specs : forall b kps g chromium l0 pad idx pending (r : R) buf' pad' idx' pending' r',
  ech_saved_ok b ->
  encode_specs b specs kps g chromium (wire l0) pad idx pending r = Ok (buf', pad', idx', pending', r') ->
  from_option (at_boundary l0) True pad ->
  exists ls, buf' = wire (l0 ++ concat ls) /\
    Forall2 (emits b kps g chromium) (List.filter (main_spec chromium) specs) ls /\
    pending' = pending ++ List.filter (fun s => late_spec chromium s && negb (extension_type s =? ext_type.PADDING)) specs /\
    from_option (at_boundary (l0 ++ concat ls)) True pad'.
Proof.
  induction specs as [|s specs IH]; intros b kps g chromium l0 pad idx pending r buf' pad' idx' pending' r' Hech H Hpad.
  { simpl in H. simplify_eq. exists []. simpl. rewrite !app_nil_r. split_and!; [done|constructor|done|done]. }
  cbn [encode_specs] in H. cbn [List.filter]. unfold main_spec at 1, late_spec at 1.
  destruct (extension_type s =? ext_type.PADDING) eqn:Hp; simpl in H |- *.
  { rewrite andb_false_r. simpl. eapply IH in H; [done..|]. case_match; [done|]. simpl.
    exists l0, []. by rewrite app_nil_r. }
  destruct (chromium && (extension_type s =? ext_type.PRE_SHARED_KEY)) eqn:Hk; simpl in H |- *.
  { eapply IH in H as (ls & -> & Hall & -> & ?); [|done..].
    exists ls. split_and!; [done|done| |done]. by rewrite <- app_assoc. }
  destruct (encode_extension_spec b s kps g chromium idx r) as [[[e idx1] r1]| |] eqn:He; [|done..].
  simpl in H. apply encode_spec_emits in He as (l & -> & Hl); [|done].
  rewrite <- wire_app in H. eapply IH in H as (ls & -> & Hall & -> & ?); [|done..|].
  - exists (l :: ls). simpl. rewrite <- app_assoc in *. split_and!; [done|by constructor|done|done].
  - destruct pad; simpl in *; [by apply at_boundary_app|done].
Qed.

Lemma encode_pending_emits specs : forall b kps g chromium l0 idx (r : R) buf' r', ech_saved_ok b ->
  encode_pending b specs kps g chromium (wire l0) idx r = Ok (buf', r') ->
  exists ls, buf' = wire (l0 ++ concat ls) /\ Forall2 (emits b kps g chromium) specs ls.
Proof.
  induction specs as [|s specs IH]; intros b kps g chromium l0 idx r buf' r' Hech H; simpl in H.
  { simplify_eq. exists []. simpl. rewrite app_nil_r. split; [done|constructor]. }
  destruct (encode_extension_spec b s kps g chromium idx r) as [[[e idx1] r1]| |] eqn:He; [|done..].
  simpl in H. apply encode_spec_emits in He as (l & -> & Hl); [|done].
  rewrite <- wire_app in H. apply IH in H as (ls & -> & Hall); [|done].
  exists (l :: ls). simpl. rewrite <- app_assoc. split; [done|by constructor].
Qed.

Lemma encode_wire t d : encode_raw t d = wire [(t, d)].
Proof. unfold wire. simpl. by rewrite app_nil_r. Qed.

Definition cookie_exts b : list ext :=
  match cookie b with
  | Some c => [(ext_type.COOKIE, be16 (as_u16 (len c)) ++ c)]
  | None => []
  end.
Definition bookend_exts b (g : GreaseValues) (last : bool) : list ext :=
  if chromium_boringssl (profile b) && g_extensions (grease (profile b)) then
    [if last then (grease_get g GExtension2, [0x00]) else (grease_get g GExtension1, [])]
  else [].

Lemma cookie_wire b : from_option encode_cookie [] (cookie b) = wire (cookie_exts b).
Proof.
  unfold cookie_exts. destruct (cookie b) as [c|]; [|done]. cbn [from_option].
  rewrite <- encode_wire. unfold encode_cookie, encode_raw.
  by rewrite len_app, len_be16.
Qed.

(** The whole block: bookends, the listed entries, the cookie, and (for Chromium)
    pre_shared_key last; the padding position is between two extensions, and
    for Chromium it is where pre_shared_key starts. *)
Lemma encode_block b kps g exts (r : R) buf pad r' : ech_saved_ok b ->
  encode_extensions_without_padding b kps g exts r = Ok (buf, pad, r') ->
  let chromium := chromium_boringssl (profile b) in
  exists ls ps, Forall2 (emits b kps g chromium) (List.filter (main_spec chromium) exts) ls /\
    Forall2 (emits b kps g chromium)
      (List.filter (fun s => late_spec chromium s && negb (extension_type s =? ext_type.PADDING)) exts) ps /\
    let main := bookend_exts b g false ++ concat ls ++ cookie_exts b ++ bookend_exts b g true in
    buf = wire (main ++ concat ps) /\
    from_option (at_boundary (main ++ concat ps)) True pad /\
    (chromium = true -> pad = Some (len (wire main))).
Proof.
  intros Hech H chromium. unfold encode_extensions_without_padding in H. fold chromium in H.
  set (bk := chromium && g_extensions (grease (profile b))) in H.
  assert ((if bk then encode (mkGreaseExt (grease_get g GExtension1) 0) else []) = wire (bookend_exts b g false)) as E1.
  { unfold bookend_exts. fold chromium. fold bk. destruct bk; [|done]. by rewrite <- encode_wire. }
  rewrite E1 in H.
  destruct (encode_specs b exts kps g chromium (wire (bookend_exts b g false)) None 0 [] r)
    as [[[[[buf1 pad1] idx1] pend1] r1]| |] eqn:Hs; [|done..]. cbn [mbind outcome_bind] in H.
  apply encode_specs_emits in Hs as (ls & -> & Hls & -> & Hpad1); [|done..].
  rewrite cookie_wire, <- wire_app in H. cbn [app] in H.
  set (main1 := (bookend_exts b g false ++ concat ls) ++ cookie_exts b) in H.
  assert ((if bk then wire main1 ++ encode (mkGreaseExt (grease_get g GExtension2) 1) else wire main1) =
          wire (main1 ++ bookend_exts b g true)) as E2.
  { unfold bookend_exts. fold chromium. fold bk. destruct bk; [|by rewrite app_nil_r].
    by rewrite wire_app, <- encode_wire. }
  rewrite E2 in H.
  destruct (encode_pending _ _ _ _ _ _ _ _) as [[buf2 r2]| |] eqn:Hp; [|done..].
  apply encode_pending_emits in Hp as (ps & -> & Hps); [|done].
  unfold main1 in *. rewrite <- !app_assoc in *. simpl in H. simplify_eq.
  exists ls, ps. split; [done|]. split; [done|]. split; [by rewrite <- !app_assoc|]. split.
  - destruct chromium; simpl; [by eexists _, _|].
    destruct pad1; simpl in *; [|done].
    apply at_boundary_app with (k := cookie_exts b ++ bookend_exts b g true ++ concat ps) in Hpad1.
    by rewrite <- !app_assoc in *.
  - by intros ->.
Qed.

Lemma insert_padding_wire l pos n : from_option (at_boundary l) True pos ->
  exists l1 l2, l = l1 ++ l2 /\ (pos = None -> l2 = []) /\ (forall q, pos = Some q -> q = len (wire l1)) /\
  insert_padding (wire l) pos n =
    wire (l1 ++ from_option (fun n => [(ext_type.PADDING, replicate (Z.to_nat (as_u16 n)) 0)]) [] n ++ l2).
Proof.
  intros Hpos. unfold insert_padding. destruct pos as [q|]; simpl in *.
  - destruct Hpos as (l1 & l2 & -> & ->). exists l1, l2.
    split; [done|]. split; [done|]. split; [congruence|]. destruct n as [n|]; [|done].
    cbn [from_option]. rewrite !wire_app, take_z_app_len, drop_z_app_len. by rewrite <- encode_wire.
  - exists l, []. rewrite app_nil_r. split; [done|]. split; [done|]. split; [done|].
    destruct n as [n|]; [|by rewrite !app_nil_r].
    cbn [from_option]. rewrite wire_app, take_z_all, drop_z_all, !app_nil_r by done.
    by rewrite <- encode_wire.
Qed.

(** ** The message *)

(** What the caller fixed is well-sized. *)
Record builder_ok b : Prop := {
  bo_random : forall x, random b = Some x -> len x = 32;
  bo_session : forall x, session_id b = Some x -> len x < 256;
  bo_session_len : 0 <= session_id_length (profile b) < 256;
  bo_comp : len (compression_methods (profile b)) < 256;
  bo_suites : Forall u16 (cipher_suites (profile b));
  bo_ech : ech_saved_ok b;
}.

Definition hello_suites b (g : GreaseValues) : list Z :=
  (if g_cipher_suite (grease (profile b)) then [grease_get g GCipher] else []) ++ cipher_suites (profile b).

Lemma encode_cipher_suites_be16s b g :
  encode_cipher_suites (profile b) (grease_get g GCipher) = be16s (hello_suites b g).
Proof. unfold encode_cipher_suites, hello_suites. by destruct (g_cipher_suite _). Qed.

Context {SL : SystemRandomLaws R}.

Lemma fill_expect_len {E} n (r : R) x r' : 0 <= n -> fill_expect (E := E) n r = Ok (x, r') -> len x = n.
Proof.
  unfold fill_expect. intros Hn H. destruct (fill n r) as [o r1] eqn:Hf. destruct o; simplify_eq.
  apply (fill_shape n r x Hn). by rewrite Hf.
Qed.

(** The data of one build, and the message made of it. *)
Record built b (existing : option (list (EphemeralKeyPair K D))) (extra : Z)
    (out : ClientHelloOutput (K := K) (D := D)) : Prop := {
  bu_valid : validate_profile (profile b) = Ok tt;
  bu_grease : forall g, grease_values b = Some g -> out_grease_values out = g;
  bu_msg : exists rnd sid buf pad (r : R) r',
    (forall x, random b = Some x -> rnd = x) /\ (forall x, session_id b = Some x -> sid = x) /\
    len rnd = 32 /\ len sid < 256 /\
    (session_id b = None -> len sid = session_id_length (profile b)) /\
    encode_extensions_without_padding b (default (key_shares out) existing) (out_grease_values out)
      (shuffled_extensions out) r = Ok (buf, pad, r') /\
    let suites := be16s (hello_suites b (out_grease_values out)) in
    let comp := compression_methods (profile b) in
    message out = assemble rnd sid suites comp
      (insert_padding buf pad (calculate_padding (padding (profile b))
         (fixed_len sid suites comp + len buf + extra)));
  bu_order : extension_order b = None ->
    exists fuel rng (r : R) r', compute_extension_order fuel b r = Some (shuffled_extensions out, rng, r');
  bu_keys : existing = None -> exists (r : R) r',
    generate_key_pairs (key_share_curves (profile b)) r = Ok (key_shares out, r');
  bu_order' : forall o, extension_order b = Some o -> shuffled_extensions out = o;
}.

Lemma build_internal_built fuel b existing extra (r : R) out rng r' : builder_ok b ->
  build_internal fuel b existing extra r = Some (Ok (out, rng, r')) -> built b existing extra out.
Proof.
  intros Hok H. unfold build_internal in H.
  destruct (validate_profile (profile b)) as [[]| |] eqn:Hv; [|done..]. cbn [mbind outcome_bind] in H.
  destruct (match grease_values b with Some g => Ok (g, r) | None => grease_values_new r end)
    as [[g r1]| |] eqn:Hg; [|done..]. cbn [mbind outcome_bind] in H.
  destruct (match random b with Some x => Ok (x, r1) | None => fill_expect 32 r1 end)
    as [[rnd r2]| |] eqn:Hr; [|done..]. cbn [mbind outcome_bind] in H.
  destruct (match session_id b with Some x => Ok (x, r2) | None => generate_session_id (session_id_length (profile b)) r2 end)
    as [[sid r3]| |] eqn:Hs; [|done..]. cbn [mbind outcome_bind] in H.
  destruct (match existing with Some _ => Ok ([], r3) | None => generate_key_pairs (key_share_curves (profile b)) r3 end)
    as [[kps r4]| |] eqn:Hk; [|done..]. cbn [mbind outcome_bind] in H.
  destruct (match extension_order b with Some o => Some (o, shuffle_rng b, r4) | None => compute_extension_order fuel b r4 end)
    as [[[order rng1] r5]|] eqn:Ho; [|done]. cbn [mbind option_bind] in H.
  destruct (encode_extensions_without_padding b (default kps existing) g order r5)
    as [[[buf pad] r6]| |] eqn:He; [|done..]. cbn [mbind outcome_bind] in H.
  rewrite encode_cipher_suites_be16s in H. simplify_eq. constructor; simpl; [done|..].
  - intros g' Hg'. rewrite Hg' in Hg. by simplify_eq.
  - exists rnd, sid, buf, pad, r5, r'. split_and!; try done.
    + intros x Hx. rewrite Hx in Hr. by simplify_eq.
    + intros x Hx. rewrite Hx in Hs. by simplify_eq.
    + destruct (random b) as [x|] eqn:Hx; simplify_eq; [by apply Hok|]. by apply fill_expect_len in Hr.
    + destruct (session_id b) as [x|] eqn:Hx; simplify_eq; [by eapply Hok|].
      pose proof (bo_session_len _ Hok). unfold generate_session_id in Hs.
      destruct (Z.eqb_spec (session_id_length (profile b)) 0); simplify_eq; [done|].
      apply fill_expect_len in Hs; lia.
    + intros Hx. rewrite Hx in Hs. pose proof (bo_session_len _ Hok). unfold generate_session_id in Hs.
      destruct (Z.eqb_spec (session_id_length (profile b)) 0) as [->|]; simplify_eq; [done|].
      apply fill_expect_len in Hs; lia.
  - intros Hx. rewrite Hx in Ho. by do 4 eexists.
  - intros ->. by do 2 eexists.
  - intros o Hx. rewrite Hx in Ho. by simplify_eq.
Qed.

Lemma emits_u16 b kps g chromium specs ls :
  Forall (fun s => u16 (extension_type s)) specs -> Forall2 (emits b kps g chromium) specs ls ->
  Forall (fun e => u16 e.1) (concat ls).
Proof.
  intros Hs Hls. induction Hls as [|s l specs ls [_ Hl] _ IH]; [constructor|].
  apply Forall_cons in Hs as [Hs1 Hs2]. simpl. apply Forall_app. split; [|by apply IH].
  destruct Hl as [->|(t & d & -> & Ht)]; [constructor|]. apply Forall_singleton. simpl.
  unfold spec_type_ok in Ht. destruct (source s); [by subst..|].
  destruct Ht as [-> | ->]; apply rfc_grease_facts, grease_get_rfc.
Qed.

Lemma Forall_bfilter {A} (P : A -> Prop) f (l : list A) : Forall P l -> Forall P (List.filter f l).
Proof. induction 1; simpl; [constructor|]. case_match; [by constructor|done]. Qed.

Lemma bookend_u16 b g last : Forall (fun e => u16 e.1) (bookend_exts b g last).
Proof.
  unfold bookend_exts. case_match; [|constructor]. apply Forall_singleton.
  destruct last; cbn [fst]; apply rfc_grease_facts, grease_get_rfc.
Qed.
Lemma cookie_u16 b : Forall (fun e => u16 e.1) (cookie_exts b).
Proof. unfold cookie_exts. case_match; [|constructor]. apply Forall_singleton. by vm_compute. Qed.

(** The extensions of the message: those of the block, with the padding
    extension at its place, which for Chromium is right before pre_shared_key. *)
Definition hello_exts b kps g order (pad_len : option Z) (l : list ext) : Prop :=
  let chromium := chromium_boringssl (profile b) in
  exists ls ps l1 l2,
    Forall2 (emits b kps g chromium) (List.filter (main_spec chromium) order) ls /\
    Forall2 (emits b kps g chromium)
      (List.filter (fun s => late_spec chromium s && negb (extension_type s =? ext_type.PADDING)) order) ps /\
    bookend_exts b g false ++ concat ls ++ cookie_exts b ++ bookend_exts b g true ++ concat ps = l1 ++ l2 /\
    (chromium = true -> length l2 = length (concat ps)) /\
    l = l1 ++ from_option (fun n => [(ext_type.PADDING, replicate (Z.to_nat (as_u16 n)) 0)]) [] pad_len ++ l2.

Lemma hello_exts_u16 b kps g order pad l :
  Forall (fun s => u16 (extension_type s)) order -> hello_exts b kps g order pad l ->
  Forall (fun e => u16 e.1) l.
Proof.
  intros Ho (ls & ps & l1 & l2 & Hls & Hps & Hsplit & _ & ->).
  assert (Forall (fun e => u16 e.1) (l1 ++ l2)) as [H1 H2]%Forall_app.
  { rewrite <- Hsplit. rewrite !Forall_app. split_and!; auto using bookend_u16, cookie_u16.
    - eapply emits_u16; [|exact Hls]. by apply Forall_bfilter.
    - eapply emits_u16; [|exact Hps]. by apply Forall_bfilter. }
  rewrite !Forall_app. split_and!; [done| |done]. destruct pad; simpl; [|constructor].
  apply Forall_singleton. by vm_compute.
Qed.

Lemma wire_split_len l1 l2 k1 k2 : l1 ++ l2 = k1 ++ k2 -> len (wire l1) = len (wire k1) -> l1 = k1.
Proof.
  revert k1. induction l1 as [|e l1 IH]; intros [|f k1] H Hlen; [done|..].
  - rewrite wire_cons, len_app, len_encode_raw in Hlen. pose proof (len_nonneg f.2).
    pose proof (len_nonneg (wire k1)). change (len (wire [])) with 0 in Hlen. lia.
  - rewrite wire_cons, len_app, len_encode_raw in Hlen. pose proof (len_nonneg e.2).
    pose proof (len_nonneg (wire l1)). change (len (wire [])) with 0 in Hlen. lia.
  - injection H as -> H. f_equal. apply IH; [done|]. rewrite !wire_cons, !len_app in Hlen. lia.
Qed.

(** Everything the message consists of. *)
Lemma built_message b existing extra out : builder_ok b -> built b existing extra out ->
  exists rnd sid pad l,
    len rnd = 32 /\ len sid < 256 /\
    (forall x, random b = Some x -> rnd = x) /\ (forall x, session_id b = Some x -> sid = x) /\
    (session_id b = None -> len sid = session_id_length (profile b)) /\
    hello_exts b (default (key_shares out) existing) (out_grease_values out) (shuffled_extensions out) pad l /\
    let suites := be16s (hello_suites b (out_grease_values out)) in
    let comp := compression_methods (profile b) in
    message out = assemble rnd sid suites comp (wire l) /\
    pad = calculate_padding (padding (profile b))
            (fixed_len sid suites comp + len (wire l) -
             from_option (fun n => 4 + as_u16 n) 0 pad + extra).
Proof.
  intros Hok [_ _ (rnd & sid & buf & pad & r & r' & Hr & Hs & Hrl & Hsl & Hsn & He & Hm) _ _ _].
  apply encode_block in He; [|apply Hok].
  destruct He as (ls & ps & Hls & Hps & -> & Hpad & Hchr).
  cbv zeta in Hm. set (pl := calculate_padding _ _) in Hm.
  match type of Hpad with from_option (at_boundary ?m) _ _ => set (main := m) in * end.
  destruct (insert_padding_wire main pad pl Hpad) as (l1 & l2 & Hmain & Hnone & Hsome & Hins).
  rewrite Hins in Hm. exists rnd, sid, pl. eexists.
  split; [done|]. split; [done|]. split; [done|]. split; [done|]. split; [done|].
  split; [|split; [exact Hm|]].
  - exists ls, ps, l1, l2. unfold main in Hmain. rewrite <- !app_assoc in Hmain.
    split; [done|]. split; [done|]. split; [done|]. split; [|done].
    intros Hc. specialize (Hchr Hc). rewrite Hchr in Hsome. specialize (Hsome _ eq_refl).
    assert (((bookend_exts b (out_grease_values out) false ++ concat ls ++ cookie_exts b ++
      bookend_exts b (out_grease_values out) true) ++ concat ps) = l1 ++ l2) as Hm' by by rewrite <- Hmain, <- !app_assoc.
    assert (Hlen := wire_split_len _ _ _ _ Hm' Hsome). rewrite Hlen in Hm'.
    apply app_inv_head in Hm'. by rewrite <- Hm'.
  - unfold pl at 1. f_equal. rewrite !wire_app, !len_app, Hmain, wire_app, len_app.
    destruct pl as [n|]; cbn [from_option]; [|change (len (wire [])) with 0; lia].
    rewrite <- encode_wire, len_encode_raw, len_replicate.
    rewrite Z2Nat.id by width. lia.
Qed.

(** The parser reads the message back. *)
Lemma built_parses b existing extra out pre : builder_ok b -> built b existing extra out ->
  Forall (fun s => u16 (extension_type s)) (shuffled_extensions out) -> len (message out) < 65536 ->
  pre = [] \/ (exists v1 v2 n1 n2, pre = [0x16; v1; v2; n1; n2]) ->
  exists rnd sid pad l,
    hello_exts b (default (key_shares out) existing) (out_grease_values out) (shuffled_extensions out) pad l /\
    len sid < 256 /\ (session_id b = None -> len sid = session_id_length (profile b)) /\
    (forall x, session_id b = Some x -> sid = x) /\
    message out = assemble rnd sid (be16s (hello_suites b (out_grease_values out)))
                    (compression_methods (profile b)) (wire l) /\
    len (wire l) < 65536 /\
    parse_client_hello (pre ++ message out) =
      Ok {| protocol_version := 0x0303; p_session_id_length := len sid;
            p_cipher_suites := hello_suites b (out_grease_values out);
            p_compression_methods := compression_methods (profile b);
            p_extensions := (fun e => mkPExt e.1 e.2) <$> l |}.
Proof.
  intros Hok Hb Ht Hlen Hpre.
  destruct (built_message _ _ _ _ Hok Hb) as (rnd & sid & pad & l & Hrl & Hsl & _ & Hs & Hsn & Hx & Hm & _).
  exists rnd, sid, pad, l. split; [done|]. split; [done|]. split; [done|]. split; [done|]. split; [done|].
  assert (len (message out) = 4 + (fixed_len sid (be16s (hello_suites b (out_grease_values out)))
            (compression_methods (profile b)) + len (wire l))) as Hml.
  { rewrite Hm. unfold assemble, fixed_len. rewrite !len_app, Hrl.
    change (len (drop 1 (be32 _))) with 3. autorewrite with len_db. lia. }
  unfold fixed_len in Hml. rewrite len_be16s in Hml.
  pose proof (len_nonneg sid). pose proof (len_nonneg (compression_methods (profile b))).
  pose proof (len_nonneg (wire l)). pose proof (len_nonneg (hello_suites b (out_grease_values out))).
  pose proof (bo_comp _ Hok). split; [lia|]. rewrite Hm.
  destruct (assemble_body rnd sid (be16s (hello_suites b (out_grease_values out)))
    (compression_methods (profile b)) (wire l)) as (b1 & b2 & b3 & ->); [done|rewrite len_be16s; lia|done|lia|].
  apply parse_hello_body; try done; [|lia|by eapply hello_exts_u16|lia].
  unfold hello_suites. apply Forall_app. split; [|apply Hok].
  case_match; [|constructor]. apply Forall_singleton, rfc_grease_facts, grease_get_rfc.
Qed.

End emits.
