(* ===== verification/ClientHelloMirror.v ===== *)
(** * Mirroring: a ClientHello the builder emits, parsed back into a profile

    lktls builds the message from a profile; lkprofile parses captured bytes and
    reconstructs a profile.  The theorems compose the two. *)
From S2P Require Import Prelude TlsError TlsCipher TlsRecord TlsProfile TlsExtensions TlsKx IpAddr Hpack Synthesis ClientHello ClientHelloShuffle ClientHelloParse ClientHelloWire ClientHelloProps.
Import error types extensions kx client_hello mirror.

(** ** Lists with a GREASE value in front *)

Definition no_grease (l : list Z) : Prop := Forall (fun v => mirror.is_grease_value v = false) l.

Lemma retain_real_no_grease l : no_grease l -> retain_real l = l.
Proof. induction 1 as [|v l Hv _ IH]; [done|]. simpl. by rewrite Hv, IH. Qed.
Lemma any_grease_no_grease l : no_grease l -> any_grease l = false.
Proof. induction 1 as [|v l Hv _ IH]; [done|]. simpl. by rewrite Hv. Qed.

Lemma greased_list (f : bool) g i l : no_grease l ->
  let gl := (if f then [grease_get g i] else []) ++ l in
  retain_real gl = l /\ any_grease gl = f.
Proof.
  intros Hl gl. unfold gl. destruct f; simpl.
  - destruct (rfc_grease_facts _ (grease_get_rfc g i)) as (_ & _ & -> & _). simpl.
    split; [by apply retain_real_no_grease|done].
  - split; [by apply retain_real_no_grease|by apply any_grease_no_grease].
Qed.

(** ** The accumulator: the last extension of a type decides its fields *)

Section field.
Context {A : Type} (f : Acc -> A) (ts : list Z) (Q : bytes -> Prop) (v : A).
Hypothesis f_other : forall s e, pe_type e ∉ ts -> f (acc_step s e) = f s.
Hypothesis f_write : forall s e, pe_type e ∈ ts -> Q (pe_data e) -> f (acc_step s e) = v.

Lemma acc_field_absent l s0 : (forall e, e ∈ l -> pe_type e ∉ ts) -> f (foldl acc_step s0 l) = f s0.
Proof.
  revert s0. induction l as [|e l IH]; intros s0 H; [done|]. simpl. rewrite IH.
  - apply f_other, H. left.
  - intros e' He'. apply H. by right.
Qed.

Lemma acc_field l s0 : (forall e, e ∈ l -> pe_type e ∈ ts -> Q (pe_data e)) ->
  (exists e, e ∈ l /\ pe_type e ∈ ts) -> f (foldl acc_step s0 l) = v.
Proof.
  induction l as [|e l IH] using rev_ind; intros HQ [e0 [He0 Ht0]]; [by apply elem_of_nil in He0|].
  rewrite foldl_app. simpl. destruct (decide (pe_type e ∈ ts)) as [Ht|Ht].
  - apply f_write; [done|]. apply HQ; [|done]. apply elem_of_app. right. by left.
  - rewrite f_other by done. apply IH.
    + intros e' He'. apply HQ. apply elem_of_app. by left.
    + exists e0. apply elem_of_app in He0 as [He0|He0]; [done|].
      apply list_elem_of_singleton in He0 as ->. done.
Qed.
End field.

(** ** The data the message carries for a type *)

Section hello.
Context {R K D G : Type} {SR : SystemRandom R} {AG : Agreement R K D} {RNG : RngCore G}.
Context {SL : SystemRandomLaws R}.
Implicit Types b : ClientHelloBuilder (G := G).
Implicit Types kps : list (EphemeralKeyPair K D).

Definition opt_ext (t : Z) (o : option bytes) : list ext := from_option (fun d => [(t, d)]) [] o.

(** What an [Auto] entry of type [t] carries ([None]: it is left out). *)
Definition auto_carries b kps g (t : Z) (P : option bytes -> Prop) : Prop :=
  forall (r : R) e r', encode_auto_extension b t kps g r = Ok (e, r') ->
  exists o, e = wire (opt_ext t o) /\ P o.

(** Types that only come from entries of the profile. *)
Definition entry_type (t : Z) : Prop :=
  u16 t /\ mirror.is_grease_value t = false /\ t <> ext_type.PADDING /\
  t <> ext_type.PRE_SHARED_KEY /\ t <> ext_type.COOKIE.

#[export] Instance entry_type_dec t : Decision (entry_type t).
Proof. unfold entry_type. apply _. Defined.

(** Entries of type [t] are generated ones. *)
Definition generated (order : list ExtensionSpec) (t : Z) : Prop :=
  forall s, s ∈ order -> extension_type s = t -> source s = Auto \/ source s = Grease.

Lemma opt_ext_u16 t o : u16 t -> Forall (fun e => u16 e.1) (opt_ext t o).
Proof. intros. destruct o; [by apply Forall_singleton|constructor]. Qed.

Lemma rfc_grease_not_entry g i t : entry_type t -> grease_get g i <> t.
Proof.
  intros (_ & Ht & _) <-. destruct (rfc_grease_facts _ (grease_get_rfc g i)) as (_ & _ & H & _).
  by rewrite H in Ht.
Qed.

(** What one generated entry of type [t] emits, and that others emit no [t]. *)
Lemma emits_auto b kps g chromium s l t P : entry_type t -> auto_carries b kps g t P ->
  extension_type s = t -> source s = Auto -> Forall (fun e => u16 e.1) l -> len (wire l) < 65536 ->
  emits b kps g chromium s l -> exists o, l = opt_ext t o /\ P o.
Proof.
  intros Ht Hauto Hs Hsrc Hl Hw [(idx & r & idx' & r' & He) _].
  unfold encode_extension_spec in He. rewrite Hsrc, Hs in He.
  destruct (encode_auto_extension b t kps g r) as [[e r1]| |] eqn:Ha; [|done..].
  simplify_eq/=. apply Hauto in Ha as (o & Ho & HP). exists o. split; [|done].
  apply wire_inj; [done| |done|done]. apply opt_ext_u16, Ht.
Qed.

Lemma emits_other b kps g chromium s l t d : entry_type t ->
  emits b kps g chromium s l -> (t, d) ∈ l -> extension_type s = t /\ source s <> Grease.
Proof.
  intros Ht [_ [->|(t' & d' & -> & Hs)]] Hin; [by apply elem_of_nil in Hin|].
  apply list_elem_of_singleton in Hin. simplify_eq. unfold spec_type_ok in Hs.
  destruct (source s); [by subst..|]. destruct Hs as [-> | ->]; by destruct (rfc_grease_not_entry _ _ _ Ht eq_refl).
Qed.

Lemma Forall2_concat_elem {A B} (P : A -> list B -> Prop) xs ls y :
  Forall2 P xs ls -> y ∈ concat ls -> exists x l, x ∈ xs /\ l ∈ ls /\ y ∈ l /\ P x l.
Proof.
  induction 1 as [|x l xs ls Hx _ IH]; simpl; intros Hy; [by apply elem_of_nil in Hy|].
  apply elem_of_app in Hy as [Hy|Hy]; [exists x, l; split_and!; try done; left|].
  destruct (IH Hy) as (x' & l' & ? & ? & ? & ?). exists x', l'. split_and!; try done; by right.
Qed.
Lemma Forall2_elem_l {A B} (P : A -> B -> Prop) xs ys x :
  Forall2 P xs ys -> x ∈ xs -> exists y, y ∈ ys /\ P x y.
Proof.
  intros H [i Hi]%list_elem_of_lookup. eapply Forall2_lookup_l in H as (y & Hy & ?); [|done].
  exists y. split; [by eapply list_elem_of_lookup_2|done].
Qed.
Lemma elem_of_bfilter {A} (f : A -> bool) l x : x ∈ List.filter f l <-> x ∈ l /\ f x = true.
Proof. rewrite !list_elem_of_In. apply filter_In. Qed.

Lemma len_wire_elem (l : list ext) ls : l ∈ ls -> len (wire l) <= len (wire (concat ls)).
Proof.
  induction ls as [|k ls IH]; intros Hin; [by apply elem_of_nil in Hin|]. simpl.
  rewrite wire_app, len_app. pose proof (len_nonneg (wire (concat ls))). pose proof (len_nonneg (wire k)).
  apply elem_of_cons in Hin as [->|Hin]; [lia|]. specialize (IH Hin). lia.
Qed.

Lemma len_concat_elem {A} (x : list A) ls : x ∈ ls -> len x <= len (concat ls).
Proof.
  induction ls as [|y ls IH]; intros Hx; [by apply elem_of_nil in Hx|]. simpl. rewrite len_app.
  pose proof (len_nonneg (concat ls)). pose proof (len_nonneg y).
  apply elem_of_cons in Hx as [->|Hx]; [lia|]. specialize (IH Hx). lia.
Qed.

(** The extensions other than the padding one. *)
Lemma hello_exts_parts b kps g order pad l : hello_exts b kps g order pad l ->
  let chromium := chromium_boringssl (profile b) in
  exists ls ps,
    Forall2 (emits b kps g chromium) (List.filter (main_spec chromium) order) ls /\
    Forall2 (emits b kps g chromium)
      (List.filter (fun s => late_spec chromium s && negb (extension_type s =? ext_type.PADDING)) order) ps /\
    len (wire (concat ls)) <= len (wire l) /\
    forall x, x ∈ l <-> x ∈ bookend_exts b g false \/ x ∈ concat ls \/ x ∈ cookie_exts b \/
      x ∈ bookend_exts b g true \/ x ∈ concat ps \/
      x ∈ from_option (fun n => [(ext_type.PADDING, replicate (Z.to_nat (as_u16 n)) 0)]) [] pad.
Proof.
  intros (ls & ps & l1 & l2 & Hls & Hps & Hsplit & _ & ->) chromium.
  exists ls, ps. split; [done|]. split; [done|]. split.
  - assert (len (wire (l1 ++ l2)) <= len (wire (l1 ++ from_option (fun n => [(ext_type.PADDING, replicate (Z.to_nat (as_u16 n)) 0)]) [] pad ++ l2))) as H.
    { rewrite !wire_app, !len_app. pose proof (len_nonneg (wire (from_option (fun n => [(ext_type.PADDING, replicate (Z.to_nat (as_u16 n)) 0)]) [] pad))). lia. }
    rewrite <- Hsplit in H. rewrite wire_app, len_app, (wire_app (concat ls)), (len_app (wire (concat ls))) in H.
    pose proof (len_nonneg (wire (bookend_exts b g false))).
    pose proof (len_nonneg (wire (cookie_exts b ++ bookend_exts b g true ++ concat ps))). lia.
  - intros x. assert (x ∈ l1 ++ l2 <-> x ∈ bookend_exts b g false ++ concat ls ++ cookie_exts b ++ bookend_exts b g true ++ concat ps) as H
      by by rewrite Hsplit.
    clear -H. rewrite !elem_of_app in *. tauto.
Qed.

(** Every extension of type [t] is the one an entry generates; an [Auto] entry of
    that type contributes its own. *)
Lemma hello_data b kps g order pad l t P :
  entry_type t -> auto_carries b kps g t P -> generated order t ->
  Forall (fun s => u16 (extension_type s)) order -> hello_exts b kps g order pad l -> len (wire l) < 65536 ->
  (forall d, (t, d) ∈ l -> P (Some d)) /\
  (mkSpec t Auto ∈ order -> P None \/ exists d, (t, d) ∈ l).
Proof.
  intros Ht Hauto Hgen Hu16 Hx Hw. pose proof (hello_exts_parts _ _ _ _ _ _ Hx) as (ls & ps & Hls & Hps & Hlen & Hin).
  pose proof Ht as (Hu & Hng & Hpad & Hpsk & Hck).
  assert (forall s k, s ∈ List.filter (main_spec (chromium_boringssl (profile b))) order -> k ∈ ls ->
    emits b kps g (chromium_boringssl (profile b)) s k -> extension_type s = t -> source s = Auto ->
    exists o, k = opt_ext t o /\ P o) as Hmain.
  { intros s k Hs Hk He Hst Hsrc. eapply emits_auto; try done.
    - pose proof (emits_u16 b kps g (chromium_boringssl (profile b)) [s] [k]) as H. simpl in H.
      rewrite app_nil_r in H. apply H; [apply Forall_singleton; by rewrite Hst|]. apply Forall2_cons. by split.
    - pose proof (len_wire_elem _ _ Hk). lia. }
  split.
  - intros d Hd. apply Hin in Hd as [Hd|[Hd|[Hd|[Hd|[Hd|Hd]]]]].
    + unfold bookend_exts in Hd. case_match; [|by apply elem_of_nil in Hd].
      apply list_elem_of_singleton in Hd. simplify_eq. by destruct (rfc_grease_not_entry g GExtension1 _ Ht).
    + eapply Forall2_concat_elem in Hd as (s & k & Hs & Hk & Hd & He); [|exact Hls].
      destruct (emits_other _ _ _ _ _ _ _ _ Ht He Hd) as [Hst Hsrc].
      destruct (Hgen s) as [Hauto'|]; [by apply elem_of_bfilter in Hs as []|done| |done].
      destruct (Hmain s k Hs Hk He Hst Hauto') as (o & -> & HP).
      destruct o as [d'|]; [|by apply elem_of_nil in Hd]. apply list_elem_of_singleton in Hd. by simplify_eq.
    + unfold cookie_exts in Hd. case_match; [|by apply elem_of_nil in Hd].
      apply list_elem_of_singleton in Hd. by simplify_eq.
    + unfold bookend_exts in Hd. case_match; [|by apply elem_of_nil in Hd].
      apply list_elem_of_singleton in Hd. simplify_eq. by destruct (rfc_grease_not_entry g GExtension2 _ Ht).
    + eapply Forall2_concat_elem in Hd as (s & k & Hs & Hk & Hd & He); [|exact Hps].
      destruct (emits_other _ _ _ _ _ _ _ _ Ht He Hd) as [Hst Hsrc].
      apply elem_of_bfilter in Hs as [_ Hs]. unfold late_spec in Hs. rewrite Hst in Hs.
      apply Z.eqb_neq in Hpsk. by rewrite Hpsk, andb_false_r in Hs.
    + destruct pad; [|by apply elem_of_nil in Hd]. apply list_elem_of_singleton in Hd. by simplify_eq.
  - intros Hs. assert (mkSpec t Auto ∈ List.filter (main_spec (chromium_boringssl (profile b))) order) as Hs'.
    { apply elem_of_bfilter. split; [done|]. unfold main_spec. simpl.
      apply Z.eqb_neq in Hpad, Hpsk. by rewrite Hpad, Hpsk, andb_false_r. }
    destruct (Forall2_elem_l _ _ _ _ Hls Hs') as (k & Hk & He).
    destruct (Hmain _ _ Hs' Hk He eq_refl eq_refl) as ([d|] & -> & HP); [right|by left].
    exists d. apply Hin. right. left. apply list_elem_of_In, in_concat.
    exists [(t, d)]. split; [by apply list_elem_of_In|by left].
Qed.

Definition parsed_exts (l : list ext) : list ParsedExtension := (fun e => mkPExt e.1 e.2) <$> l.

(** A field of the accumulator that only types [ts] write has the value [v], when
    entries of those types carry data that yields [v]. *)
Lemma mirror_field {A} b kps g order pad l (f : Acc -> A) ts P v :
  Forall (fun s => u16 (extension_type s)) order -> hello_exts b kps g order pad l -> len (wire l) < 65536 ->
  Forall (fun t => entry_type t /\ auto_carries b kps g t P /\ generated order t) ts ->
  (forall s e, pe_type e ∉ ts -> f (acc_step s e) = f s) ->
  (forall s e, pe_type e ∈ ts -> P (Some (pe_data e)) -> f (acc_step s e) = v) ->
  (P None -> f acc_new = v) -> Exists (fun t => mkSpec t Auto ∈ order) ts ->
  f (foldl acc_step acc_new (parsed_exts l)) = v.
Proof.
  intros Hu Hx Hw Hts Hother Hwrite Hnone Hex.
  assert (forall e, e ∈ parsed_exts l -> pe_type e ∈ ts -> P (Some (pe_data e))) as HP.
  { intros e He Ht. apply list_elem_of_fmap in He as ([t d] & -> & He). simpl in *.
    rewrite Forall_forall in Hts. destruct (Hts t Ht) as (H1 & H2 & H3). by eapply hello_data. }
  destruct (decide (Exists (fun e => pe_type e ∈ ts) (parsed_exts l))) as [He|He].
  - apply Exists_exists in He. by apply (acc_field f ts (fun d => P (Some d))).
  - rewrite (acc_field_absent f ts) by (done || (intros e ? ?; apply He, Exists_exists; eauto)).
    apply Hnone. apply Exists_exists in Hex as (t & Ht & Hs).
    rewrite Forall_forall in Hts. destruct (Hts t Ht) as (H1 & H2 & H3).
    eapply hello_data in Hs as [?|[d Hd]]; [done| |done..]. destruct He. apply Exists_exists.
    exists (mkPExt t d). split; [|done]. apply list_elem_of_fmap. by exists (t, d).
Qed.

End hello.

(** The two side conditions on [acc_step]. *)
Ltac acc_other :=
  intros [] [] Hts; unfold acc_step; cbn [pe_type pe_data] in *;
  repeat (case_match; try done; try solve [exfalso; apply Hts; repeat constructor]).
Ltac acc_write :=
  intros [] [t0 d0] Hts0 HP0; cbn [pe_type pe_data] in *;
  repeat (apply elem_of_cons in Hts0 as [->|Hts0]; [|]);
  try (by apply elem_of_nil in Hts0).

(** ** What each generated entry carries *)

(** The values a profile gives can be told from GREASE and fit their length
    fields. *)
Record replayable (p : TlsProfile) : Prop := {
  rp_suites : no_grease (cipher_suites p) /\ Forall u16 (cipher_suites p);
  rp_groups : no_grease (supported_groups p) /\ Forall u16 (supported_groups p) /\ len (supported_groups p) < 32767;
  rp_sigalgs : no_grease (signature_algorithms p) /\ Forall u16 (signature_algorithms p) /\ len (signature_algorithms p) < 32767;
  rp_formats : len (ec_point_formats p) < 256;
  rp_comp : len (compression_methods p) < 256;
  rp_session : 0 <= session_id_length p < 256;
  rp_alpn : Forall name_ok (alpn_protocols p);
  rp_alps : forall l, alps_protocols p = Some l -> Forall name_ok l;
  rp_compress : forall l, compress_cert_algorithms p = Some l -> Forall u16 l /\ len l < 128;
  rp_delegated : forall c, delegated_credentials p = Some c ->
    Forall u16 (dc_signature_algorithms c) /\ len (dc_signature_algorithms c) < 32768;
  rp_record : forall n, record_size_limit p = Some n -> u16 n;
  rp_versions : version_as_u16 (tls_min_version p) <= version_as_u16 (tls_max_version p);
  rp_curves : Forall (fun c => group_from_code_point c <> None) (key_share_curves p);
  rp_ech : forall c, ech p = Some (EchGrease c) -> u16 (kdf_id c) /\ u16 (aead_id c) /\ u16 (enc_length c);
  rp_specs : Forall (fun s => u16 (extension_type s)) (extensions p);
  rp_generated : forall s, s ∈ extensions p -> is_well_known (extension_type s) = true ->
    source s = Auto \/ source s = Grease;
  rp_types : forall s, s ∈ extensions p -> source s <> Grease ->
    mirror.is_grease_value (extension_type s) = false;
}.

Section carries.
Context {R K D G : Type} {SR : SystemRandom R} {AG : Agreement R K D} {RNG : RngCore G}.
Context {SL : SystemRandomLaws R}.
Implicit Types b : ClientHelloBuilder (G := G).
Implicit Types kps : list (EphemeralKeyPair K D).

Lemma carries_exactly b kps g t X :
  (forall r : R, encode_auto_extension b t kps g r = Ok (from_option (encode_raw t) [] X, r)) ->
  auto_carries b kps g t (fun o => o = X).
Proof.
  intros H r e r' He. rewrite H in He. simplify_eq. exists X. split; [|done].
  destruct X; simpl; [apply encode_wire|done].
Qed.

Lemma carries_ech b kps g c (Hlen : 0 <= enc_length c) : ech (profile b) = Some (EchGrease c) -> ech_grease_extension b = None ->
  auto_carries b kps g ext_type.ENCRYPTED_CLIENT_HELLO (fun o => exists n enc payload, len enc = enc_length c /\
    o = Some (ech_outer_payload (kdf_id c) (aead_id c) (raw_seed g GEchConfigId) (enc_length c) enc n payload)).
Proof.
  intros Hc Hb r e r' He. unfold encode_auto_extension in He. cbn in He. rewrite Hb, Hc in He.
  unfold encode_ech_grease in He.
  destruct (compute_grease_payload_length c r) as [[n r1]| |]; [|done..]. simpl in He.
  destruct (fill_expect (enc_length c) r1) as [[enc r2]| |] eqn:Hf; [|done..]. simpl in He.
  destruct (fill_expect n r2) as [[payload r3]| |]; [|done..]. simplify_eq/=.
  eexists (Some _). split; [apply encode_wire|]. exists n, enc, payload. split; [|reflexivity].
  eapply fill_expect_len; [|done]. exact Hlen.
Qed.

Lemma encode_option {A} (f : A -> bytes) t (o : option A) (g : A -> bytes) :
  (forall a, f a = encode_raw t (g a)) -> from_option f [] o = from_option (encode_raw t) [] (g <$> o).
Proof. intros H. destruct o; simpl; [apply H|done]. Qed.

End carries.

(** ** The reconstructed fields *)

Section fields.
Context {R K D G : Type} {SR : SystemRandom R} {AG : Agreement R K D} {RNG : RngCore G}.
Context {SL : SystemRandomLaws R}.
Context (b : ClientHelloBuilder (G := G)) (kps : list (EphemeralKeyPair K D)) (g : GreaseValues).
Context (order : list ExtensionSpec) (pad : option Z) (l : list ext).
Context (Hrp : replayable (profile b)).
Context (Hord : forall s, s ∈ order -> s ∈ extensions (profile b)).
Context (Hx : hello_exts b kps g order pad l) (Hw : len (wire l) < 65536).
#[local] Abbreviation p := (profile b).
Let s := foldl acc_step acc_new (parsed_exts l).

Lemma order_u16 : Forall (fun e => u16 (extension_type e)) order.
Proof.
  apply Forall_forall. intros e He. pose proof (rp_specs _ Hrp) as H.
  rewrite Forall_forall in H. by apply H, Hord.
Qed.

Lemma order_generated t : is_well_known t = true -> generated order t.
Proof. intros Ht e He <-. apply (rp_generated _ Hrp); [by apply Hord|done]. Qed.

(** One deterministic type. *)
Lemma field_exactly {A} (f : Acc -> A) t X v :
  bool_decide (entry_type t) && is_well_known t = true ->
  (forall r : R, encode_auto_extension b t kps g r = Ok (from_option (encode_raw t) [] X, r)) ->
  (forall s e, pe_type e ∉ [t] -> f (acc_step s e) = f s) ->
  (forall s d, X = Some d -> f (acc_step s (mkPExt t d)) = v) ->
  (X = None -> f acc_new = v) -> mkSpec t Auto ∈ order -> f s = v.
Proof.
  intros [Ht Hwk]%andb_true_iff Henc Ho Hwr Hn Hs. apply bool_decide_eq_true in Ht.
  eapply (mirror_field b kps g order pad l f [t] (fun o => o = X) v); try done.
  - apply order_u16.
  - apply Forall_singleton. split; [done|]. split; [by apply carries_exactly|by apply order_generated].
  - intros s0 [t0 d0] Ht0 Hd. apply list_elem_of_singleton in Ht0. simpl in *. subst t0. by apply Hwr.
  - intros HX. apply Hn. done.
  - by left.
Qed.

(** Unfolds one step on a known type; the data stays abstract. *)
Ltac acc_known d Hd := intros [] d Hd; unfold acc_step; simpl.

Lemma u16_greased (f : bool) i vs : Forall u16 vs -> Forall u16 ((if f then [grease_get g i] else []) ++ vs).
Proof.
  intros H. apply Forall_app. split; [|done]. destruct f; [|constructor].
  apply Forall_singleton, rfc_grease_facts, grease_get_rfc.
Qed.
Lemma len_greased (f : bool) i vs : len ((if f then [grease_get g i] else []) ++ vs) <= 1 + len vs.
Proof. destruct f; simpl; rewrite ?len_cons; lia. Qed.

Lemma field_groups : mkSpec 0x000a Auto ∈ order ->
  (a_groups s, a_grease_groups s) = (supported_groups p, g_supported_groups (grease p)).
Proof.
  destruct (rp_groups _ Hrp) as (Hng & Hu & Hl).
  apply (field_exactly (fun s => (a_groups s, a_grease_groups s)) 0x000a
    (Some (encode_payload (mkGroups (auto_groups p g))))); [vm_compute; reflexivity|done|acc_other| |done].
  acc_known d Hd. apply (inj Some) in Hd. subst d. unfold extract_supported_groups.
  pose proof (len_greased (g_supported_groups (grease p)) GGroup (supported_groups p)).
  assert (extract_list16 (encode_payload (mkGroups (auto_groups p g))) = auto_groups p g) as ->
    by (apply (extract_list16_encoded (auto_groups p g)); [by apply u16_greased|unfold auto_groups; lia]).
  destruct (greased_list (g_supported_groups (grease p)) g GGroup _ Hng) as [Hr Ha]. unfold auto_groups. by rewrite Hr, Ha.
Qed.

Lemma field_sigalgs : mkSpec 0x000d Auto ∈ order ->
  (a_sigalgs s, a_grease_sigalgs s) = (signature_algorithms p, g_signature_algorithms (grease p)).
Proof.
  destruct (rp_sigalgs _ Hrp) as (Hng & Hu & Hl).
  apply (field_exactly (fun s => (a_sigalgs s, a_grease_sigalgs s)) 0x000d
    (Some (encode_payload (mkSigAlgs (auto_sigalgs p g))))); [vm_compute; reflexivity|done|acc_other| |done].
  acc_known d Hd. apply (inj Some) in Hd. subst d. unfold extract_signature_algorithms.
  pose proof (len_greased (g_signature_algorithms (grease p)) GCipher (signature_algorithms p)).
  assert (extract_list16 (encode_payload (mkSigAlgs (auto_sigalgs p g))) = auto_sigalgs p g) as ->
    by (apply (extract_list16_encoded (auto_sigalgs p g)); [by apply u16_greased|unfold auto_sigalgs; lia]).
  destruct (greased_list (g_signature_algorithms (grease p)) g GCipher _ Hng) as [Hr Ha]. unfold auto_sigalgs. by rewrite Hr, Ha.
Qed.

Lemma version_range_facts :
  let vs := version_range (version_as_u16 (tls_min_version p)) (version_as_u16 (tls_max_version p)) in
  no_grease vs /\ Forall u16 vs /\ len vs <= 4 /\ vs <> [] /\
  (tls_version_from_u16 (default 0x0303 (list_min vs)), tls_version_from_u16 (default 0x0303 (list_max vs))) =
  (tls_min_version p, tls_max_version p).
Proof.
  pose proof (rp_versions _ Hrp) as Hv.
  destruct (tls_min_version p), (tls_max_version p);
    first [exfalso; vm_compute in Hv; by apply Hv
          |split_and!; [repeat constructor|by repeat constructor|by vm_compute|by vm_compute|reflexivity]].
Qed.

Lemma field_versions proto : mkSpec 0x002b Auto ∈ order ->
  (version_bounds (a_versions s) proto, a_grease_versions s) =
  ((tls_min_version p, tls_max_version p), g_supported_versions (grease p)).
Proof.
  destruct version_range_facts as (Hng & Hu & Hl & Hne & Hb).
  apply (field_exactly (fun s => (version_bounds (a_versions s) proto, a_grease_versions s)) 0x002b
    (Some (encode_payload (mkVersions (auto_versions p g))))); [vm_compute; reflexivity|done|acc_other| |done].
  acc_known d Hd. apply (inj Some) in Hd. subst d. unfold extract_supported_versions.
  set (vs := version_range _ _) in *.
  pose proof (len_greased (g_supported_versions (grease p)) GVersion vs).
  assert (extract_list8 (encode_payload (mkVersions (auto_versions p g))) = auto_versions p g) as ->
    by (apply extract_list8_encoded; [by apply u16_greased|unfold auto_versions; fold vs; lia]).
  destruct (greased_list (g_supported_versions (grease p)) g GVersion _ Hng) as [Hr Ha].
  unfold auto_versions. fold vs. rewrite Ha. unfold version_bounds. rewrite Hr, Hb.
  destruct (g_supported_versions (grease p)), vs; done.
Qed.

Lemma field_formats : mkSpec 0x000b Auto ∈ order -> a_formats s = ec_point_formats p.
Proof.
  apply (field_exactly a_formats 0x000b (Some (encode_payload (mkEcPointFormats (ec_point_formats p)))));
    [vm_compute; reflexivity|done|acc_other| |done].
  acc_known d Hd. apply (inj Some) in Hd. subst d. pose proof (rp_formats _ Hrp).
  pose proof (len_nonneg (ec_point_formats p)). simpl. rewrite as_u8_small by width.
  apply take_z_all. lia.
Qed.

Lemma field_alpn : mkSpec 0x0010 Auto ∈ order -> a_alpn s = alpn_protocols p.
Proof.
  apply (field_exactly a_alpn 0x0010 (if is_empty (alpn_protocols p) then None else Some (encode_protocols (alpn_protocols p))));
    [vm_compute; reflexivity|by cbn; destruct (alpn_protocols p)|acc_other| |].
  - acc_known d Hd. destruct (is_empty _); [done|]. apply (inj Some) in Hd. subst d.
    apply extract_alpn_encoded, Hrp.
  - by destruct (alpn_protocols p).
Qed.

Lemma field_compress : mkSpec 0x001b Auto ∈ order -> a_compress s = compress_cert_algorithms p.
Proof.
  apply (field_exactly a_compress 0x001b ((fun l => encode_payload (mkCompressCert l)) <$> compress_cert_algorithms p));
    [vm_compute; reflexivity|by cbn; destruct (compress_cert_algorithms p)|acc_other| |].
  - acc_known d Hd. pose proof (rp_compress _ Hrp) as H. destruct (compress_cert_algorithms p) as [a|]; [|done].
    apply (inj Some) in Hd. subst d. destruct (H a eq_refl). f_equal. apply extract_list8_encoded; [done|lia].
  - by destruct (compress_cert_algorithms p).
Qed.

Lemma field_record_size : mkSpec 0x001c Auto ∈ order -> a_record_size s = record_size_limit p.
Proof.
  apply (field_exactly a_record_size 0x001c ((fun n => encode_payload (mkRecordSizeLimit n)) <$> record_size_limit p));
    [vm_compute; reflexivity|by cbn; destruct (record_size_limit p)|acc_other| |].
  - acc_known d Hd. pose proof (rp_record _ Hrp) as H. destruct (record_size_limit p) as [n|]; [|done].
    apply (inj Some) in Hd. subst d. simpl. by rewrite from_be16_be16 by by apply H.
  - by destruct (record_size_limit p).
Qed.

Lemma field_delegated : mkSpec 0x0022 Auto ∈ order -> a_delegated s = delegated_credentials p.
Proof.
  apply (field_exactly a_delegated 0x0022
    ((fun c => encode_payload (mkDelegatedExt (dc_signature_algorithms c))) <$> delegated_credentials p));
    [vm_compute; reflexivity|by cbn; destruct (delegated_credentials p)|acc_other| |].
  - acc_known d Hd. pose proof (rp_delegated _ Hrp) as H. destruct (delegated_credentials p) as [[a]|]; [|done].
    apply (inj Some) in Hd. subst d. destruct (H _ eq_refl) as [Hu Hl]. simpl in *.
    do 2 f_equal. apply extract_list16_encoded; [done|lia].
  - by destruct (delegated_credentials p).
Qed.

(** Both ALPS code points carry the same list. *)
Lemma field_alps : mkSpec 0x4469 Auto ∈ order \/ mkSpec 0x44cd Auto ∈ order -> a_alps s = alps_protocols p.
Proof.
  intros Hs. pose proof (rp_alps _ Hrp) as H.
  apply (mirror_field b kps g order pad l a_alps [0x4469; 0x44cd]
    (fun o => o = encode_protocols <$> alps_protocols p)); try done.
  - apply order_u16.
  - repeat (apply Forall_cons; split); [..|done];
      (split; [apply (bool_decide_unpack _); vm_compute; exact I|]); (split; [|by apply order_generated]);
      apply carries_exactly; intros r; cbn; by destruct (alps_protocols p).
  - acc_other.
  - intros s0 [t0 d0] Ht Hd. simpl in Hd. destruct (alps_protocols p) as [a|]; [|done].
    apply (inj Some) in Hd. subst d0. rewrite elem_of_cons, list_elem_of_singleton in Ht.
    assert (a_alps (acc_step s0 (mkPExt t0 (encode_protocols a))) =
            Some (extract_alpn_protocols (encode_protocols a))) as ->.
    { destruct s0, Ht as [Ht|Ht]; simpl in Ht; subst t0; reflexivity. }
    f_equal. by apply extract_alpn_encoded, H.
  - by destruct (alps_protocols p).
  - destruct Hs; [by left|right; by left].
Qed.

Definition ech_suite (m : EchMode) : option (Z * Z * Z) :=
  match m with EchGrease c => Some (kdf_id c, aead_id c, enc_length c) | _ => None end.

Lemma ech_outer_parsed kdf aead cid n enc payload : u16 kdf -> u16 aead -> u16 (len enc) ->
  ech_of_payload (ech_outer_payload kdf aead cid (len enc) enc n payload) ≫= ech_suite = Some (kdf, aead, len enc).
Proof.
  intros Hk Ha He. unfold ech_outer_payload, be16. cbn [app ech_of_payload].
  rewrite !from_be16_be16 by done. rewrite drop_z_app_len. by destruct (infer_ech_payload_range _).
Qed.

Lemma field_ech c : ech p = Some (EchGrease c) -> ech_grease_extension b = None ->
  mkSpec 0xFE0D Auto ∈ order -> a_ech s ≫= ech_suite = Some (kdf_id c, aead_id c, enc_length c).
Proof.
  intros Hc Hb Hs. destruct (rp_ech _ Hrp c Hc) as (Hk & Ha & He).
  eapply (mirror_field b kps g order pad l (fun s => a_ech s ≫= ech_suite) [0xFE0D]); try done.
  - apply order_u16.
  - apply Forall_singleton. split; [apply (bool_decide_unpack _); vm_compute; exact I|].
    split; [apply carries_ech; [apply He|done|done]|by apply order_generated].
  - acc_other.
  - intros [] [t0 d0] Ht (n & enc & payload & Hlen & Hd). apply list_elem_of_singleton in Ht.
    cbn [pe_type pe_data] in *. subst t0. apply (inj Some) in Hd. subst d0. rewrite <- Hlen in *.
    pose proof (ech_outer_parsed (kdf_id c) (aead_id c) (raw_seed g GEchConfigId) n enc payload Hk Ha He) as E.
    cbv beta iota zeta delta [acc_step]. cbn [pe_type pe_data].
    change (mirror.is_grease_value 0xFE0D) with false. cbv iota.
    by destruct (ech_of_payload _).
  - by intros (? & ? & ? & _ & ?).
  - by left.
Qed.

Lemma field_key_share : mkSpec 0x0033 Auto ∈ order ->
  (a_key_share s, a_grease_key_share s) =
  ((fun kp => group_code_point (kp_group kp)) <$> kps, g_key_share (grease p) && negb (omit_grease_key_share b)).
Proof.
  intros Hs. set (es := auto_key_shares b g kps).
  assert (Forall entry_ok es) as Hes.
  { apply Forall_forall. intros e He. split.
    - apply elem_of_app in He as [He|He].
      + case_match; [|by apply elem_of_nil in He]. apply list_elem_of_singleton in He as ->.
        apply rfc_grease_facts, grease_get_rfc.
      + apply list_elem_of_fmap in He as (kp & -> & _). destruct kp as [[]]; by vm_compute.
    - destruct (hello_data b kps g order pad l 0x0033 (fun o => o = Some (encode_payload (mkKeyShare es))))
        as [Hd1 Hd2]; [apply (bool_decide_unpack _); vm_compute; exact I|by apply carries_exactly
        |by apply order_generated|apply order_u16|done|done|].
      destruct (Hd2 Hs) as [|[d Hd]]; [done|]. specialize (Hd1 d Hd). apply (inj Some) in Hd1. subst d.
      assert (len (encode_raw 0x0033 (encode_payload (mkKeyShare es))) <= len (wire l)) as H1.
      { apply len_concat_elem, list_elem_of_fmap. by eexists (_, _). }
      assert (len (encode_entry e) <= len (concat (encode_entry <$> es))) as H2
        by (apply len_concat_elem, list_elem_of_fmap; eauto).
      revert H1 H2. unfold encode_entry at 1. cbn [encode_payload KeyShare_ext ks_entries].
      autorewrite with len_db. lia. }
  revert Hs.
  apply (field_exactly (fun s => (a_key_share s, a_grease_key_share s)) 0x0033
    (Some (encode_payload (mkKeyShare es)))); [vm_compute; reflexivity|done|acc_other| |done].
  acc_known d Hd. apply (inj Some) in Hd. subst d. rewrite extract_key_share_encoded by done.
  set (cs := (fun kp => group_code_point (kp_group kp)) <$> kps).
  assert (ks_group <$> es =
    (if g_key_share (grease p) && negb (omit_grease_key_share b) then [grease_get g GGroup] else []) ++ cs) as ->.
  { unfold es, auto_key_shares, cs. rewrite fmap_app. f_equal; [by case_match|].
    change (map ?f kps) with (f <$> kps). by rewrite <- list_fmap_compose. }
  destruct (greased_list (g_key_share (grease p) && negb (omit_grease_key_share b)) g GGroup cs) as [Hr Ha].
  { apply Forall_fmap, Forall_true. intros [[]]; reflexivity. }
  by rewrite Hr, Ha.
Qed.

End fields.

(** ** Hexadecimal payloads *)

Definition digit_fine (n : Z) : bool :=
  let x := lower_hex n in
  (x <? 128) && (0 <=? x) && negb (is_whitespace [x]) && negb (bool_decide ([x] = [58])) &&
  bool_decide (ip_addr.to_digit 16 x = Some n).

Lemma lower_hex_fine n : 0 <= n < 16 -> digit_fine n = true.
Proof.
  intros Hn. assert (forallb digit_fine (seqZ 0 16) = true) as Hall by (vm_compute; reflexivity).
  rewrite forallb_forall in Hall. apply Hall, list_elem_of_In, elem_of_seqZ. lia.
Qed.

Definition hex_pairs (d : bytes) : bytes :=
  concat ((fun b => [lower_hex (b / 16); lower_hex (b mod 16)]) <$> d).

(** A string of hexadecimal digits passes the filter of [decode_hex] unchanged. *)
Lemma chars_digits (ns : list Z) : Forall (fun n => 0 <= n < 16) ns ->
  concat (List.filter (fun c => negb (is_whitespace c) && negb (bool_decide (c = [58])))
            (chars (length (lower_hex <$> ns)) (lower_hex <$> ns))) = lower_hex <$> ns.
Proof.
  induction 1 as [|n ns Hn _ IH]; [done|]. apply lower_hex_fine in Hn. unfold digit_fine in Hn.
  rewrite !andb_true_iff in Hn. destruct Hn as [[[[Hlt _] Hsp] Hcol] _].
  rewrite fmap_cons. cbn [length chars]. unfold utf8_width. rewrite Hlt.
  change (Nat.max 1 (Z.to_nat 1)) with 1%nat. cbn [take drop List.filter].
  rewrite take_0, Hsp, Hcol. cbn [andb concat app]. by rewrite drop_0, IH.
Qed.

Lemma hex_pairs_digits d : hex_pairs d = lower_hex <$> concat ((fun b => [b / 16; b mod 16]) <$> d).
Proof.
  induction d as [|b d IH]; [done|]. change (hex_pairs (b :: d)) with (lower_hex (b / 16) :: lower_hex (b mod 16) :: hex_pairs d).
  by rewrite IH.
Qed.

Lemma decode_pairs_hex d : forall i, is_bytes d -> decode_pairs i (hex_pairs d) = Ok d.
Proof.
  induction d as [|b d IH]; intros i Hd; [done|]. apply is_bytes_cons in Hd as [Hb Hd].
  unfold hex_pairs. rewrite fmap_cons. cbn [concat app]. fold (hex_pairs d).
  assert (forall n, 0 <= n < 16 -> forall l, boundary (lower_hex n :: l) = true /\
            ip_addr.to_digit 16 (lower_hex n) = Some n) as Hdig.
  { intros n Hn l. apply lower_hex_fine in Hn. unfold digit_fine in Hn.
    rewrite !andb_true_iff, bool_decide_eq_true in Hn. destruct Hn as [[[[Hlt _] _] _] ?].
    split; [|done]. simpl. apply Z.ltb_lt in Hlt. by destruct (Z.leb_spec 0x80 (lower_hex n)); [lia|]. }
  unfold u8 in Hb. pose proof (Z.mod_pos_bound b 16 ltac:(lia)).
  assert (0 <= b / 16 < 16) as Hq by (split; [apply Z.div_pos; lia|apply Z.div_lt_upper_bound; lia]).
  assert (boundary (hex_pairs d) = true) as Hrest.
  { destruct d as [|c d]; [done|]. apply is_bytes_cons in Hd as [Hc _]. unfold u8 in Hc.
    apply (Hdig (c / 16)). split; [apply Z.div_pos; lia|apply Z.div_lt_upper_bound; lia]. }
  cbn [decode_pairs]. rewrite (proj1 (Hdig _ Hq _)), Hrest. cbn [andb negb].
  unfold from_str_radix16. rewrite (proj2 (Hdig _ Hq [])), (proj2 (Hdig _ H [])), (IH (i + 2) Hd). simpl.
  do 2 f_equal. rewrite (Z.div_mod b 16) at 3 by lia. lia.
Qed.

(** What [hex::encode] writes, [decode_hex] reads back. *)
Lemma decode_hex_encode {H : HexCrate} {HL : HexCrateLaws H} d : is_bytes d -> decode_hex (hex_encode d) = Ok d.
Proof.
  intros Hd. rewrite hex_encode_spec. fold (hex_pairs d). unfold decode_hex.
  assert (Forall (fun n => 0 <= n < 16) (concat ((fun b => [b / 16; b mod 16]) <$> d))) as Hn.
  { induction Hd as [|b d Hb _ IH]; [constructor|]. unfold u8 in Hb. simpl. repeat constructor; try done.
    - apply Z.div_pos; lia. - apply Z.div_lt_upper_bound; lia. - apply Z.mod_pos_bound; lia. - apply Z.mod_pos_bound; lia. }
  rewrite hex_pairs_digits, chars_digits by done. rewrite <- hex_pairs_digits.
  assert (len (hex_pairs d) mod 2 = 0) as ->.
  { assert (len (hex_pairs d) = len d * 2) as ->; [|apply Z_mod_mult].
    clear. induction d as [|b d IH]; [done|].
    change (hex_pairs (b :: d)) with (lower_hex (b / 16) :: lower_hex (b mod 16) :: hex_pairs d).
    rewrite !len_cons. lia. }
  by apply decode_pairs_hex.
Qed.
