(* ===== verification/ClientHelloReplay.v ===== *)
(** * Build, capture, mirror: the claims on the ClientHello

    lktls's builder composed with lkprofile's parser and mirror. *)
From S2P Require Import Prelude TlsError TlsCipher TlsRecord TlsProfile TlsExtensions TlsKx IpAddr Hpack Synthesis ClientHello ClientHelloShuffle ClientHelloParse ClientHelloWire ClientHelloProps ClientHelloMirror TlsChannel.
Import error types extensions kx client_hello mirror.

(** ** Decoded payloads are bytes *)

Lemma to_digit16_range c d : ip_addr.to_digit 16 c = Some d -> 0 <= d < 16.
Proof.
  unfold ip_addr.to_digit. intros Hd.
  repeat match type of Hd with
         | context [?a <=? ?b] => destruct (Z.leb_spec a b); simpl in Hd
         | context [?a <? ?b] => destruct (Z.ltb_spec a b); simpl in Hd
         end; simplify_eq; lia.
Qed.

Lemma from_str_radix16_u8 a b v : from_str_radix16 a b = Some v -> u8 v.
Proof.
  unfold from_str_radix16, u8. intros Hv.
  destruct (ip_addr.to_digit 16 a) as [h|] eqn:Ha, (ip_addr.to_digit 16 b) as [lo|] eqn:Hb; try done;
    [apply to_digit16_range in Ha|]; apply to_digit16_range in Hb; [|case_match]; simplify_eq; lia.
Qed.

Lemma decode_pairs_bytes n : forall s i d, (length s <= n)%nat -> decode_pairs i s = Ok d -> is_bytes d.
Proof.
  induction n as [|n IH]; intros [|a [|b s]] i d Hn Hd; simpl in *; simplify_eq; try constructor; [lia..|].
  case_match; [done|]. destruct (from_str_radix16 a b) as [v|] eqn:Hv; [|done].
  destruct (decode_pairs (i + 2) s) as [vs| |] eqn:Hr; [|done..]. simplify_eq/=. constructor.
  - by eapply from_str_radix16_u8.
  - eapply IH; [|done]. lia.
Qed.

Lemma decode_hex_bytes hex d : decode_hex hex = Ok d -> is_bytes d.
Proof. unfold decode_hex. case_match; [done|]. by eapply decode_pairs_bytes. Qed.

Section replay.
Context {R K D G : Type} {SR : SystemRandom R} {AG : Agreement R K D} {RNG : RngCore G}.
Context {SL : SystemRandomLaws R} {H : HexCrate} {HL : HexCrateLaws H}.
Implicit Types b : ClientHelloBuilder (G := G).
Implicit Types kps : list (EphemeralKeyPair K D).

(** A builder for a first ClientHello. *)
Record fresh b : Prop := {
  fr_random : forall x, random b = Some x -> len x = 32;
  fr_session : session_id b = None;
  fr_order : extension_order b = None;
  fr_ech : ech_grease_extension b = None;
  fr_omit : omit_grease_key_share b = false;
}.

Lemma fresh_ok b : fresh b -> replayable (profile b) -> builder_ok b.
Proof.
  intros Hf Hrp. constructor; try apply Hrp; [apply Hf|by rewrite (fr_session _ Hf)|].
  unfold ech_saved_ok. by rewrite (fr_ech _ Hf).
Qed.

(** The generated pairs are those of the profile's curves. *)
Lemma generate_key_pairs_groups curves : forall (r : R) kps r',
  Forall (fun c => group_from_code_point c <> None) curves ->
  generate_key_pairs curves r = Ok (kps, r') ->
  (fun kp => group_code_point (kp_group kp)) <$> kps = curves.
Proof.
  induction curves as [|c curves IH]; intros r kps r' Hc Hg; simpl in Hg; [by simplify_eq|].
  apply Forall_cons in Hc as [Hc Hcs]. destruct (group_from_code_point c) as [gr|] eqn:Hgr; [|done].
  pose proof (generate_key_pair_ok gr r) as Hok.
  destruct (generate_key_pair gr r) as [[kp r1]| |]; [|done..]. simpl in Hg.
  destruct (generate_key_pairs curves r1) as [[kps1 r2]| |] eqn:Hrest; [|done..]. simplify_eq/=.
  f_equal; [|by eapply IH]. destruct Hok as [-> _]. by apply group_from_code_point_Some.
Qed.

(** *** The order of the entries *)

(** The place an entry takes in the order: its type, or a GREASE slot. *)
Definition kind (s : ExtensionSpec) : option Z :=
  match source s with Grease => None | _ => Some (extension_type s) end.
Definition not_padding (s : ExtensionSpec) : bool := negb (extension_type s =? ext_type.PADDING).

Lemma spec_of_type e : extension_type (spec_of e) = pe_type e.
Proof. unfold spec_of. by case_match. Qed.

Lemma emits_kind b kps g chromium s k : (source s <> Grease -> mirror.is_grease_value (extension_type s) = false) ->
  emits b kps g chromium s k -> kind <$> (spec_of <$> parsed_exts k) = [] \/ kind <$> (spec_of <$> parsed_exts k) = [kind s].
Proof.
  intros Hs [_ [->|(t & d & -> & Ht)]]; [by left|right]. unfold parsed_exts. simpl. f_equal.
  unfold spec_type_ok in Ht. unfold kind, spec_of. simpl.
  destruct (source s); [subst t; rewrite Hs by done; by repeat case_match..|].
  destruct Ht as [-> | ->]; by rewrite (proj1 (proj2 (proj2 (rfc_grease_facts _ (grease_get_rfc g _))))).
Qed.

Lemma emits_kinds b kps g chromium specs ls :
  Forall (fun s => source s <> Grease -> mirror.is_grease_value (extension_type s) = false) specs ->
  Forall2 (emits b kps g chromium) specs ls ->
  kind <$> (spec_of <$> parsed_exts (concat ls)) `sublist_of` kind <$> specs.
Proof.
  intros Hs Hls. induction Hls as [|s k specs ls He _ IH]; [constructor|].
  apply Forall_cons in Hs as [Hs1 Hs2]. simpl. unfold parsed_exts in *. rewrite !fmap_app.
  destruct (emits_kind _ _ _ _ _ _ Hs1 He) as [Hk|Hk]; unfold parsed_exts in Hk; rewrite Hk; simpl.
  - by apply sublist_cons, IH.
  - by apply sublist_skip, IH.
Qed.

Lemma filter_all {A} (f : A -> bool) l : Forall (fun x => f x = true) l -> List.filter f l = l.
Proof. induction 1 as [|x l Hx _ IH]; [done|]. simpl. by rewrite Hx, IH. Qed.

Lemma emitted_not_padding b kps g chromium specs ls :
  Forall (fun s => main_spec chromium s = true) specs -> Forall2 (emits b kps g chromium) specs ls ->
  Forall (fun s => not_padding s = true) (spec_of <$> parsed_exts (concat ls)).
Proof.
  intros Hm Hls. unfold parsed_exts. rewrite !Forall_fmap. apply Forall_forall. intros [t d] Hin.
  eapply Forall2_concat_elem in Hin as (s & k & Hs & _ & Hin & He); [|exact Hls].
  unfold compose, not_padding. rewrite spec_of_type. cbn [pe_type fst]. apply negb_true_iff, Z.eqb_neq. intros ->.
  rewrite Forall_forall in Hm. specialize (Hm s Hs). unfold main_spec in Hm.
  destruct He as [_ [->|(t' & d' & -> & Ht)]]; [by apply elem_of_nil in Hin|].
  apply list_elem_of_singleton in Hin. simplify_eq. unfold spec_type_ok in Ht.
  destruct (source s); [rewrite <- Ht in Hm; done..|].
  destruct (rfc_grease_facts _ (grease_get_rfc g GExtension1)) as (_ & _ & H1 & _).
  destruct (rfc_grease_facts _ (grease_get_rfc g GExtension2)) as (_ & _ & H2 & _).
  destruct Ht as [Ht|Ht]; rewrite <- Ht in *; done.
Qed.

(** Without the padding extension, the entries come in the order of the profile;
    an entry without data to send is left out. *)
Lemma hello_kinds b kps g order pad l :
  chromium_boringssl (profile b) = false -> cookie b = None ->
  Forall (fun s => source s <> Grease -> mirror.is_grease_value (extension_type s) = false) order ->
  hello_exts b kps g order pad l ->
  kind <$> List.filter not_padding (spec_of <$> parsed_exts l) `sublist_of` kind <$> List.filter not_padding order.
Proof.
  intros Hc Hck Hord (ls & ps & l1 & l2 & Hls & Hps & Hsplit & _ & ->). rewrite Hc in *.
  assert (List.filter (main_spec false) order = List.filter not_padding order) as Hmain.
  { clear. induction order as [|s order IH]; [done|]. simpl. unfold main_spec at 1, not_padding at 1.
    cbn [negb andb]. rewrite andb_true_r. by rewrite IH. }
  assert (ps = []) as ->.
  { assert (List.filter (fun s => late_spec false s && negb (extension_type s =? ext_type.PADDING)) order = []) as E
      by (clear; induction order; done).
    rewrite E in Hps. by inversion Hps. }
  unfold bookend_exts, cookie_exts in Hsplit. rewrite Hc, Hck in Hsplit. simpl in Hsplit.
  rewrite app_nil_r in Hsplit.
  assert (Forall (fun s => not_padding s = true) (spec_of <$> parsed_exts (l1 ++ l2))) as Hnp.
  { rewrite <- Hsplit. eapply emitted_not_padding; [|exact Hls]. apply List.Forall_forall.
    intros s [_ Hs]%filter_In. done. }
  assert (List.filter not_padding (spec_of <$> parsed_exts (l1 ++ from_option
    (fun n => [(ext_type.PADDING, replicate (Z.to_nat (as_u16 n)) 0)]) [] pad ++ l2)) =
    spec_of <$> parsed_exts (concat ls)) as ->.
  { rewrite Hsplit. unfold parsed_exts in *. rewrite !fmap_app in *. rewrite !List.filter_app.
    apply Forall_app in Hnp as [Hn1 Hn2]. rewrite (filter_all _ _ Hn1), (filter_all _ _ Hn2).
    f_equal. by destruct pad. }
  rewrite <- Hmain. eapply emits_kinds; [|exact Hls]. by apply Forall_bfilter.
Qed.

(** *** Raw payloads *)

Lemma hello_raw b kps g order pad l t hex d : entry_type t -> len (wire l) < 65536 ->
  hello_exts b kps g order pad l -> mkSpec t (RawBytes hex) ∈ order -> decode_hex hex = Ok d -> (t, d) ∈ l.
Proof.
  intros Ht Hw Hx Hs Hd. destruct (hello_exts_parts _ _ _ _ _ _ Hx) as (ls & ps & Hls & _ & Hlen & Hin).
  pose proof Ht as (Hu & _ & Hpad & Hpsk & _).
  assert (mkSpec t (RawBytes hex) ∈ List.filter (main_spec (chromium_boringssl (profile b))) order) as Hs'.
  { apply elem_of_bfilter. split; [done|]. unfold main_spec. simpl.
    apply Z.eqb_neq in Hpad, Hpsk. by rewrite Hpad, Hpsk, andb_false_r. }
  destruct (Forall2_elem_l _ _ _ _ Hls Hs') as (k & Hk & He).
  pose proof He as [(idx & r & idx' & r' & Hspec) Hshape]. unfold encode_extension_spec in Hspec. simpl in Hspec.
  rewrite Hd in Hspec. cbn [mbind outcome_bind] in Hspec. injection Hspec as Hwk _ _. apply Hin. right. left. apply list_elem_of_In, in_concat.
  exists k. split; [by apply list_elem_of_In|]. apply list_elem_of_In.
  assert (k = [(t, d)]) as ->; [|by left]. pose proof (len_wire_elem _ _ Hk).
  apply wire_inj; [|by apply Forall_singleton|lia|].
  - destruct Hshape as [->|(t' & d' & -> & Ht')]; [constructor|]. apply Forall_singleton.
    unfold spec_type_ok in Ht'. simpl in Ht'. by subst.
  - transitivity (encode_raw t d); [exact (eq_sym Hwk)|apply encode_wire].
Qed.

(** *** What the mirror recovers *)

Record mirrors (p p' : TlsProfile) : Prop := {
  mi_suites : cipher_suites p' = cipher_suites p /\ g_cipher_suite (grease p') = g_cipher_suite (grease p);
  mi_comp : compression_methods p' = compression_methods p;
  mi_session : session_id_length p' = session_id_length p;
  mi_groups : mkSpec 0x000a Auto ∈ extensions p -> supported_groups p' = supported_groups p /\
    g_supported_groups (grease p') = g_supported_groups (grease p);
  mi_sigalgs : mkSpec 0x000d Auto ∈ extensions p -> signature_algorithms p' = signature_algorithms p /\
    g_signature_algorithms (grease p') = g_signature_algorithms (grease p);
  mi_versions : mkSpec 0x002b Auto ∈ extensions p -> tls_min_version p' = tls_min_version p /\
    tls_max_version p' = tls_max_version p /\ g_supported_versions (grease p') = g_supported_versions (grease p);
  mi_key_share : mkSpec 0x0033 Auto ∈ extensions p -> key_share_curves p' = key_share_curves p /\
    g_key_share (grease p') = g_key_share (grease p);
  mi_formats : mkSpec 0x000b Auto ∈ extensions p -> ec_point_formats p' = ec_point_formats p;
  mi_alpn : mkSpec 0x0010 Auto ∈ extensions p -> alpn_protocols p' = alpn_protocols p;
  mi_alps : mkSpec 0x4469 Auto ∈ extensions p \/ mkSpec 0x44cd Auto ∈ extensions p ->
    alps_protocols p' = alps_protocols p;
  mi_compress : mkSpec 0x001b Auto ∈ extensions p -> compress_cert_algorithms p' = compress_cert_algorithms p;
  mi_record : mkSpec 0x001c Auto ∈ extensions p -> record_size_limit p' = record_size_limit p;
  mi_delegated : mkSpec 0x0022 Auto ∈ extensions p -> delegated_credentials p' = delegated_credentials p;
  mi_ech : forall c, ech p = Some (EchGrease c) -> mkSpec 0xFE0D Auto ∈ extensions p ->
    ech p' ≫= ech_suite = Some (kdf_id c, aead_id c, enc_length c);
  mi_raw : forall t hex d, mkSpec t (RawBytes hex) ∈ extensions p -> entry_type t ->
    is_well_known t = false -> decode_hex hex = Ok d -> d <> [] ->
    exists hex', mkSpec t (RawBytes hex') ∈ extensions p' /\ decode_hex hex' = Ok d;
}.

Lemma built_mirrors b out : fresh b -> replayable (profile b) -> built b None 0 out ->
  len (message out) < 65536 -> forall pre nm,
  pre = [] \/ (exists v1 v2 n1 n2, pre = [0x16; v1; v2; n1; n2]) ->
  exists ch pad l, parse_client_hello (pre ++ message out) = Ok ch /\
    hello_exts b (key_shares out) (out_grease_values out) (shuffled_extensions out) pad l /\
    extensions (build_tls_profile nm ch) = spec_of <$> parsed_exts l /\
    mirrors (profile b) (build_tls_profile nm ch).
Proof.
  intros Hf Hrp Hb Hlen pre nm Hpre. pose proof (fresh_ok b Hf Hrp) as Hok.
  destruct (bu_order _ _ _ _ Hb (fr_order _ Hf)) as (fuel & rng & r & r' & Hord%compute_order_perm).
  assert (forall s, s ∈ shuffled_extensions out -> s ∈ extensions (profile b)) as Hsub.
  { intros s Hs. rewrite Hord in Hs. case_match; [by apply elem_of_bfilter in Hs as []|done]. }
  assert (forall t src, src <> Grease -> mkSpec t src ∈ extensions (profile b) -> mkSpec t src ∈ shuffled_extensions out) as Hsup.
  { intros t src Hsrc Hs. rewrite Hord. case_match; [|done]. apply elem_of_bfilter. split; [done|]. by destruct src. }
  destruct (bu_keys _ _ _ _ Hb eq_refl) as (r1 & r2 & Hkeys%generate_key_pairs_groups); [|apply Hrp].
  destruct (built_parses b None 0 out pre Hok Hb) as (rnd & sid & pad & l & Hx & _ & Hsid & _ & _ & Hw & Hparse);
    [|done|done|].
  { apply Forall_forall. intros s Hs. pose proof (rp_specs _ Hrp) as Hu. rewrite Forall_forall in Hu. by apply Hu, Hsub. }
  simpl in Hx. eexists _, pad, l. split; [exact Hparse|]. split; [done|].
  unfold build_tls_profile. cbn [p_extensions protocol_version p_cipher_suites p_compression_methods p_session_id_length].
  fold (parsed_exts l). set (s := foldl acc_step acc_new (parsed_exts l)).
  destruct (version_bounds (a_versions s) 0x0303) as [vmin vmax] eqn:Hvb.
  split; [done|].
  pose proof (greased_list (g_cipher_suite (grease (profile b))) (out_grease_values out) GCipher _ (proj1 (rp_suites _ Hrp))) as [Hr Ha].
  assert (Auto <> Grease) as Hna by done.
  constructor; cbn.
  - by split.
  - done.
  - by rewrite Hsid by apply Hf.
  - intros Hs%Hsup; [|done]. eapply field_groups in Hs; [|done..]. by injection Hs.
  - intros Hs%Hsup; [|done]. eapply field_sigalgs in Hs; [|done..]. by injection Hs.
  - intros Hs%Hsup; [|done]. eapply (field_versions _ _ _ _ _ _ Hrp Hsub Hx Hw 0x0303) in Hs.
    fold s in Hs. rewrite Hvb in Hs. by injection Hs as -> -> ->.
  - intros Hs%Hsup; [|done]. eapply field_key_share in Hs; [|done..]. fold s in Hs.
    rewrite (fr_omit _ Hf), andb_true_r in Hs. injection Hs as Hs1 Hs2. rewrite <- Hkeys. done.
  - intros Hs%Hsup; [|done]. by eapply field_formats in Hs.
  - intros Hs%Hsup; [|done]. by eapply field_alpn in Hs.
  - intros Hs. eapply field_alps; try done. destruct Hs as [Hs|Hs]; [left|right]; by apply Hsup.
  - intros Hs%Hsup; [|done]. by eapply field_compress in Hs.
  - intros Hs%Hsup; [|done]. by eapply field_record_size in Hs.
  - intros Hs%Hsup; [|done]. by eapply field_delegated in Hs.
  - intros c Hc Hs%Hsup; [|done]. eapply field_ech in Hs; try done. apply Hf.
  - intros t hex d Hs%Hsup Ht Hwk Hd Hne; [|done].
    eapply hello_raw in Hs; [|done..]. exists (hex_encode d).
    split; [|by apply decode_hex_encode; eapply decode_hex_bytes]. apply list_elem_of_In, in_map_iff.
    exists (mkPExt t d). split; [|apply list_elem_of_In, list_elem_of_fmap; by exists (t, d)].
    unfold spec_of. simpl. destruct Ht as (_ & -> & _). rewrite Hwk. by destruct d.
Qed.


(** The length of the message and its padding: with [base] the length of the
    body without the padding extension, a [FixedTarget] or [BlockAlign] strategy
    brings the body to its target exactly when the extension's four header bytes
    fit, to [base + 4] when one to three bytes are missing, and leaves it alone
    otherwise. *)
Theorem padding_target fuel b (r : R) out rng r' :
  builder_ok b -> build (K := K) (D := D) fuel b r = Some (Ok (out, rng, r')) ->
  exists base, 0 <= base /\
    len (message out) - 4 =
      match padding (profile b) with
      | PadNone => base
      | FixedTarget t =>
          if base + 4 <=? t then base + 4 + as_u16 (t - base - 4)
          else if base <? t then base + 4 else base
      | BlockAlign lo block =>
          if base <=? lo then base
          else if base + 4 <=? block then base + 4 + as_u16 (block - base - 4)
          else if base <? block then base + 4 else base
      end.
Proof.
  intros Hok Hbuild. apply build_internal_built in Hbuild as Hb; [|done].
  destruct (built_message _ _ _ _ Hok Hb) as (rnd & sid & pad & l & Hr & Hs & _ & _ & _ & Hx & Hm & Hpad).
  cbv zeta in Hm, Hpad. set (suites := be16s _) in *. set (comp := compression_methods _) in *.
  set (n := from_option (fun n => 4 + as_u16 n) 0 pad) in *.
  exists (fixed_len sid suites comp + len (wire l) - n).
  assert (len (message out) = 4 + (fixed_len sid suites comp + len (wire l))) as Hml.
  { rewrite Hm. unfold assemble, fixed_len. rewrite !len_app, Hr. rewrite len_be32_tail. autorewrite with len_db. lia. }
  rewrite Z.add_0_r in Hpad. set (base := fixed_len sid suites comp + len (wire l) - n) in *.
  assert (0 <= base) as Hbase.
  { destruct Hx as (ls & ps & l1 & l2 & _ & _ & _ & _ & ->). unfold base, n, fixed_len.
    rewrite !wire_app, !len_app. pose proof (len_nonneg (wire l1)). pose proof (len_nonneg (wire l2)).
    pose proof (len_nonneg sid). pose proof (len_nonneg suites). pose proof (len_nonneg comp).
    destruct pad as [k|]; cbn [from_option]; [|change (len (wire [])) with 0; lia].
    rewrite <- encode_wire, len_encode_raw, len_replicate, Z2Nat.id by width. lia. }
  split; [done|]. replace (len (message out) - 4) with (base + n) by (unfold base; lia).
  unfold n. rewrite Hpad. unfold calculate_padding. clear -Hbase.
  destruct (padding (profile b)) as [lo block|t|]; cbn [from_option]; [| |lia];
    repeat match goal with
           | |- context [?x <? ?y] => destruct (Z.ltb_spec x y)
           | |- context [?x <=? ?y] => destruct (Z.leb_spec x y)
           end; cbn [andb from_option]; try lia.
  all: rewrite ?Z.max_r, ?Z.max_l by lia; change (as_u16 0) with 0; lia.
Qed.

End replay.

(** The parser of captured ClientHellos neither panics nor reads out of
    range, whatever the bytes, and what it returns is well-formed: 16-bit types
    and values, byte payloads. *)
Theorem parse_client_hello_total data : is_bytes data ->
  match parse_client_hello data with
  | Ok ch => parsed_ok ch
  | Err _ => True
  | Panic => False
  end.
Proof. intros Hd. by apply parse_client_hello_ok in Hd. Qed.

Lemma parse_client_hello_total_witness : exists ch,
  parse_client_hello ([1; 0; 0; 0; 3; 3] ++ replicate 32 7 ++ [0; 0; 2; 19; 1; 1; 0]) = Ok ch /\ parsed_ok ch.
Proof.
  pose proof (parse_client_hello_total ([1; 0; 0; 0; 3; 3] ++ replicate 32 7 ++ [0; 0; 2; 19; 1; 1; 0])
    ltac:(apply (bool_decide_unpack _); vm_compute; exact I)) as Hp.
  eexists. split; [vm_compute; reflexivity|]. exact Hp.
Defined.

(** The GREASE values drawn from any seeds are values of RFC 8701, and the
    second extension's differs from the first's. *)
Theorem grease_values_rfc8701 g i :
  grease_get g i ∈ rfc_grease /\ client_hello.is_grease_value (grease_get g i) = true /\
  grease_get g GExtension2 <> grease_get g GExtension1.
Proof.
  split; [apply grease_get_rfc|]. split; [|apply grease_get_distinct].
  apply rfc_grease_facts, grease_get_rfc.
Qed.

(** ** A concrete hello *)

Definition toy_hex : HexCrate := {| hex_encode := hex_pairs |}.
#[export] Instance toy_hex_laws : HexCrateLaws toy_hex.
Proof. constructor. reflexivity. Qed.

(** Keys are numbers; a public key repeats its number. *)
Definition toy_agreement : Agreement Z Z Z := {|
  ecdh_generate _ r := (Some (as_u8 r), r + 1);
  ecdh_public_key k := Some (replicate 32 k);
  ecdh_agree _ k p := Some (k :: p);
  mlkem_generate r := (Some (as_u8 r), r + 1);
  mlkem_encapsulation_key d := Some (replicate 8 d);
  mlkem_key_bytes k := Some k;
  mlkem_decapsulate d c := inr (d :: c);
|}.

Definition demo_profile : TlsProfile := {|
  name := []; tls_client_hello_style := FirefoxNss;
  tls_min_version := Tls12; tls_max_version := Tls13;
  cipher_suites := [0x1301; 0x1303; 0xc02b];
  extensions := [mkSpec 0x0000 Auto; mkSpec 0x0017 Auto; mkSpec 0x000a Auto; mkSpec 0x000b Auto;
    mkSpec 0x0010 Auto; mkSpec 0x1234 (RawBytes [97; 98; 58; 48; 49]); mkSpec 0x0033 Auto; mkSpec 0x002b Auto; mkSpec 0x000d Auto;
    mkSpec 0x001c Auto; mkSpec 0xFE0D Auto; mkSpec 0x0015 Auto];
  supported_groups := [0x001d; 0x0017]; signature_algorithms := [0x0403; 0x0804];
  ec_point_formats := [0]; compression_methods := [0];
  grease := mkGreaseConfig true false true true false true;
  padding := FixedTarget 517; alps_protocols := None; compress_cert_algorithms := None;
  key_share_curves := [0x11ec; 0x001d]; record_size_limit := Some 0x4001;
  delegated_credentials := None; session_id_length := 32;
  alpn_protocols := [[104; 50]; [104; 116; 116; 112; 47; 49; 46; 49]];
  randomization := Some (mkRandomization true);
  ech := Some (EchGrease (mkEchGrease 1 1 32 None None)); ech_outer_extensions := None;
  session_resumption := resumption_default |}.

Definition demo_builder : ClientHelloBuilder (G := unit) :=
  builder_new demo_profile [97; 46; 98].

Definition demo_build := build (SR := toy_random) (AG := toy_agreement) (RNG := mid_rng) 1 demo_builder 5.

Ltac by_decision := apply (bool_decide_unpack _); vm_compute; exact I.

Lemma demo_replayable : replayable demo_profile.
Proof.
  constructor; try by_decision; try (intros; simplify_eq/=; by_decision).
  - assert (Forall (fun s => is_well_known (extension_type s) = true -> source s = Auto \/ source s = Grease)
      (extensions demo_profile)) as Hall by by_decision.
    by rewrite Forall_forall in Hall.
  - assert (Forall (fun s => source s <> Grease -> mirror.is_grease_value (extension_type s) = false)
      (extensions demo_profile)) as Hall by by_decision.
    by rewrite Forall_forall in Hall.
Qed.

Lemma demo_fresh : fresh demo_builder.
Proof. by constructor. Qed.

(** The message [demo_build] returns. *)
Definition demo_out : option (ClientHelloOutput (K := Z) (D := Z)) :=
  match demo_build with Some (Ok (o, _, _)) => Some o | _ => None end.


Lemma padding_target_witness : exists out base, demo_out = Some out /\ 0 <= base /\
  len (message out) - 4 = if base + 4 <=? 517 then base + 4 + as_u16 (517 - base - 4)
                          else if base <? 517 then base + 4 else base.
Proof.
  assert (exists out rng r', demo_build = Some (Ok (out, rng, r')) /\ demo_out = Some out)
    as (out & rng & r' & Hb & Ho) by (vm_compute; eauto 10).
  destruct (padding_target (SR := toy_random) (AG := toy_agreement) (RNG := mid_rng)
    1 demo_builder 5 out rng r' (fresh_ok demo_builder demo_fresh demo_replayable) Hb) as (base & Hbase & Hlen).
  exists out, base. by split_and!.
Defined.
