(* ===== verification/ServerHello.v ===== *)
(** * ServerHello parser (lktls/src/handshake/server_hello.rs)

    The parser, the quick version detection of the driver and the check of the
    downgrade sentinel.  Positions are the source's: every index and slice of
    the code is an [idx] or [slice] that panics out of range, and so does a loop
    that runs out of fuel, so that the absence of panics also says that the fuel
    is enough. *)
From S2P Require Import Prelude TlsError.
Import error.

Module server_hello.

Definition HRR_RANDOM : bytes :=
  [0xCF; 0x21; 0xAD; 0x74; 0xE5; 0x9A; 0x61; 0x11; 0xBE; 0x1D; 0x8C; 0x02; 0x1E; 0x65; 0xB8; 0x91;
   0xC2; 0xA2; 0x11; 0x16; 0x7A; 0xBB; 0x8C; 0x5E; 0x07; 0x9E; 0x09; 0xE2; 0xC8; 0xA8; 0x33; 0x9C].

Record ServerHelloExtensions : Type := mkShExts {
  supported_version : option Z;
  key_share : option (Z * bytes);
  selected_group : option Z;
  sh_cookie : option bytes;
  selected_psk_identity : option Z;
  ech_confirmation : option bytes;
}.

Definition sh_exts_default : ServerHelloExtensions :=
  {| supported_version := None; key_share := None; selected_group := None; sh_cookie := None;
     selected_psk_identity := None; ech_confirmation := None |}.

Record ServerHello : Type := mkServerHello {
  legacy_version : Z;
  sh_random : bytes;
  sh_session_id : bytes;
  sh_cipher_suite : Z;
  compression_method : Z;
  sh_extensions : ServerHelloExtensions;
  is_hello_retry_request : bool;
}.

Definition negotiated_version (sh : ServerHello) : Z :=
  default (legacy_version sh) (supported_version (sh_extensions sh)).
Definition is_tls13 (sh : ServerHello) : bool := negotiated_version sh =? 0x0304.

(** [u16::from_be_bytes([data[pos], data[pos + 1]])]. *)
Definition read_u16 {E} (data : bytes) (pos : Z) : Outcome E Z :=
  a ← idx data pos; b ← idx data (pos + 1); Ok (from_be16 a b).

(** The match on the extension type. *)
Definition ext_step (hrr : bool) (ext_type : Z) (d : bytes) (x : ServerHelloExtensions)
    : Outcome TlsError ServerHelloExtensions :=
  let 'mkShExts sv ks sg ck psk ech := x in
  let unlisted :=
    if hrr then Err (local_alert AUnsupportedExtension
      ("extension 0x" +:+ hex4 ext_type +:+ " is not permitted in HelloRetryRequest")) else Ok x in
  match ext_type with
  | 0x002b =>
      if len d =? 2 then v ← read_u16 d 0; Ok (mkShExts (Some v) ks sg ck psk ech)
      else if hrr then Err (local_alert ADecodeError "HRR supported_versions must be exactly 2 bytes")
      else unlisted
  | 0x0033 =>
      if hrr then
        if negb (len d =? 2) then
          Err (local_alert ADecodeError "HRR key_share must contain exactly one selected group")
        else g ← read_u16 d 0; Ok (mkShExts sv ks (Some g) ck psk ech)
      else if 4 <=? len d then
        group ← read_u16 d 0;
        key_len ← read_u16 d 2;
        if 4 + key_len <=? len d then
          key ← slice d 4 (4 + key_len);
          Ok (mkShExts sv (Some (group, key)) sg ck psk ech)
        else Ok x
      else Ok x
  | 0x002c =>
      if hrr && (2 <=? len d) then
        cookie_len ← read_u16 d 0;
        if negb (2 + cookie_len =? len d) then
          Err (local_alert ADecodeError "HRR cookie length does not match extension length")
        else c ← slice d 2 (len d); Ok (mkShExts sv ks sg (Some c) psk ech)
      else if hrr then Err (local_alert ADecodeError "HRR cookie extension is too short")
      else unlisted
  | 0x0029 =>
      if hrr then
        Err (local_alert AUnsupportedExtension "pre_shared_key is not permitted in HelloRetryRequest")
      else if 2 <=? len d then v ← read_u16 d 0; Ok (mkShExts sv ks sg ck (Some v) ech)
      else unlisted
  | 0xFE0D =>
      if hrr && (len d =? 8) then Ok (mkShExts sv ks sg ck psk (Some d))
      else if hrr then Err (local_alert ADecodeError "HRR ECH confirmation must be exactly 8 bytes")
      else unlisted
  | _ => unlisted
  end.

(** [while pos + 4 <= ext_end]: the extensions, and the final position. *)
Fixpoint ext_loop (fuel : nat) (hrr : bool) (data : bytes) (ext_end pos : Z)
    (x : ServerHelloExtensions) (seen : list Z) : Outcome TlsError (ServerHelloExtensions * Z) :=
  match fuel with
  | O => Panic
  | S fuel =>
      if pos + 4 <=? ext_end then
        ext_type ← read_u16 data pos;
        ext_len ← read_u16 data (pos + 2);
        let pos := pos + 4 in
        if ext_end <? pos + ext_len then
          Err (local_alert ADecodeError "ServerHello extension exceeds extensions block")
        else
          ext_data ← slice data pos (pos + ext_len);
          let pos := pos + ext_len in
          if hrr && bool_decide (ext_type ∈ seen) then
            Err (local_alert AIllegalParameter
                   ("duplicate HelloRetryRequest extension 0x" +:+ hex4 ext_type))
          else
            let seen := if hrr then seen ++ [ext_type] else seen in
            x ← ext_step hrr ext_type ext_data x;
            ext_loop fuel hrr data ext_end pos x seen
      else Ok (x, pos)
  end.

(** The extension block at [pos]. *)
Definition parse_extensions (hrr : bool) (data : bytes) (pos : Z)
    : Outcome TlsError ServerHelloExtensions :=
  if pos + 2 <=? len data then
    ext_total ← read_u16 data pos;
    let pos := pos + 2 in
    let ext_end := pos + ext_total in
    if len data <? ext_end then
      Err (local_alert ADecodeError "ServerHello extensions exceed message length")
    else if hrr && negb (ext_end =? len data) then
      Err (local_alert ADecodeError "HelloRetryRequest has trailing bytes after extensions")
    else
      '(x, pos) ← ext_loop (S (length data)) hrr data ext_end pos sh_exts_default [];
      if hrr && negb (pos =? ext_end) then
        Err (local_alert ADecodeError "truncated HelloRetryRequest extension header")
      else Ok x
  else if hrr then Err (local_alert AMissingExtension "HelloRetryRequest missing extensions")
  else Ok sh_exts_default.

Definition need (data : bytes) (pos : Z) (msg : string) : Outcome TlsError unit :=
  if len data <? pos then Err (UnexpectedMessage msg) else Ok tt.

Definition parse_server_hello (data : bytes) : Outcome TlsError ServerHello :=
  _ ← need data 2 "ServerHello too short for version";
  legacy ← read_u16 data 0;
  _ ← need data (2 + 32) "ServerHello too short for random";
  rnd ← slice data 2 34;
  let hrr := bool_decide (rnd = HRR_RANDOM) in
  _ ← need data (34 + 1) "ServerHello too short for session ID length";
  sid_len ← idx data 34;
  _ ← need data (35 + sid_len) "ServerHello too short for session ID";
  sid ← slice data 35 (35 + sid_len);
  let pos := 35 + sid_len in
  _ ← need data (pos + 2) "ServerHello too short for cipher suite";
  suite ← read_u16 data pos;
  _ ← need data (pos + 2 + 1) "ServerHello too short for compression method";
  comp ← idx data (pos + 2);
  exts ← parse_extensions hrr data (pos + 3);
  Ok {| legacy_version := legacy; sh_random := rnd; sh_session_id := sid; sh_cipher_suite := suite;
        compression_method := comp; sh_extensions := exts; is_hello_retry_request := hrr |}.

(** ** Version detection and downgrade checks *)

Definition DOWNGRADE_SENTINEL_TLS12 : bytes := [0x44; 0x4F; 0x57; 0x4E; 0x47; 0x52; 0x44; 0x01].
Definition DOWNGRADE_SENTINEL_TLS11 : bytes := [0x44; 0x4F; 0x57; 0x4E; 0x47; 0x52; 0x44; 0x00].

Fixpoint detect_loop (fuel : nat) (body : bytes) (ext_end offset legacy : Z) : Outcome TlsError Z :=
  match fuel with
  | O => Panic
  | S fuel =>
      if (offset + 4 <=? ext_end) && (offset + 4 <=? len body) then
        ext_type ← read_u16 body offset;
        ext_len ← read_u16 body (offset + 2);
        let offset := offset + 4 in
        if len body <? offset + ext_len then Ok legacy
        else if (ext_type =? 0x002B) && (2 <=? ext_len) then read_u16 body offset
        else detect_loop fuel body ext_end (offset + ext_len) legacy
      else Ok legacy
  end.

Definition detect_version_from_server_hello (payload : bytes) : Outcome TlsError Z :=
  if len payload <? 4 then Err (HandshakeFailure "ServerHello too short") else
  ty ← idx payload 0;
  if negb (ty =? 0x02) then
    Err (HandshakeFailure ("expected ServerHello (type 0x02), got 0x" +:+ hex2 ty)) else
  body ← slice payload 4 (len payload);
  if len body <? 38 then Err (HandshakeFailure "ServerHello body too short") else
  legacy ← read_u16 body 0;
  sid_len ← idx body 34;
  let ext_start := 35 + sid_len + 3 in
  if len body <? ext_start then Ok legacy
  else if len body <? ext_start + 2 then Ok legacy
  else
    ext_total_len ← read_u16 body ext_start;
    let offset := ext_start + 2 in
    detect_loop (S (length body)) body (offset + ext_total_len) offset legacy.

Definition check_downgrade_sentinel (sh_payload : bytes) : Outcome TlsError unit :=
  if len sh_payload <? 4 + 2 + 32 then Ok tt else
  rnd ← slice sh_payload 6 38;
  last8 ← slice rnd 24 32;
  if bool_decide (last8 = DOWNGRADE_SENTINEL_TLS12) || bool_decide (last8 = DOWNGRADE_SENTINEL_TLS11)
  then Err (HandshakeFailure "ServerHello contains TLS 1.3 downgrade sentinel in random — possible downgrade attack")
  else Ok tt.

(** ** Bounds *)

Lemma read_u16_wp {E} (data : bytes) pos : is_bytes data -> 0 <= pos -> pos + 2 <= len data ->
  outcome_ok u16 (read_u16 (E := E) data pos).
Proof.
  intros Hb H0 Hl. unfold read_u16.
  eapply outcome_ok_bind; [apply (idx_wp u8); [done|lia]|intros a Ha].
  eapply outcome_ok_bind; [apply (idx_wp u8); [done|lia]|intros b Hb'].
  by apply from_be16_range.
Qed.

Lemma need_len_wp data pos msg : outcome_ok (fun _ => pos <= len data) (need data pos msg).
Proof. unfold need. destruct (Z.ltb_spec (len data) pos); simpl; [done|lia]. Qed.

(** Which extensions the two kinds of message may carry, and their sizes. *)
Definition exts_wf (hrr : bool) (x : ServerHelloExtensions) : Prop :=
  from_option u16 True (supported_version x) /\
  from_option (fun '(g, k) => u16 g /\ is_bytes k) True (key_share x) /\
  from_option u16 True (selected_group x) /\
  from_option is_bytes True (sh_cookie x) /\
  from_option u16 True (selected_psk_identity x) /\
  from_option (fun c => is_bytes c /\ len c = 8) True (ech_confirmation x) /\
  (if hrr then key_share x = None /\ selected_psk_identity x = None
   else selected_group x = None /\ sh_cookie x = None /\ ech_confirmation x = None).

Ltac wp :=
  repeat match goal with
  | |- outcome_ok _ (_ ≫= _) => eapply outcome_ok_bind; [|intros ? ?]
  | |- outcome_ok _ (if ?b then _ else _) => destruct b eqn:?
  | |- outcome_ok _ (read_u16 _ _) => apply read_u16_wp
  | |- outcome_ok _ (need _ _ _) => apply need_len_wp
  | |- outcome_ok _ (idx _ _) => apply (idx_wp u8)
  | |- outcome_ok _ (slice _ _ _) => apply slice_wp
  | |- outcome_ok _ (Err _) => exact I
  | |- outcome_ok _ (Ok _) => simpl
  end.
Ltac zbool :=
  repeat match goal with
  | H : (_ <=? _) = true |- _ => apply Z.leb_le in H
  | H : (_ <=? _) = false |- _ => apply Z.leb_gt in H
  | H : (_ <? _) = true |- _ => apply Z.ltb_lt in H
  | H : (_ <? _) = false |- _ => apply Z.ltb_ge in H
  | H : (_ =? _) = true |- _ => apply Z.eqb_eq in H
  | H : (_ =? _) = false |- _ => apply Z.eqb_neq in H
  | H : negb _ = true |- _ => apply negb_true_iff in H
  | H : negb _ = false |- _ => apply negb_false_iff in H
  | H : (_ && _) = true |- _ => apply andb_prop in H as [? ?]
  end.

Lemma ext_step_wp hrr t d x : is_bytes d -> exts_wf hrr x ->
  outcome_ok (exts_wf hrr) (ext_step hrr t d x).
Proof.
  intros Hd Hx. destruct x as [sv ks sg ck psk ech].
  destruct Hx as (H1 & H2 & H3 & H4 & H5 & H6 & H7). unfold ext_step.
  repeat case_match; wp; zbool; cbv beta in *; unfold u16 in *; try done; try lia;
    destruct hrr; simpl in *; zbool; try done; unfold exts_wf; simpl in *; destruct_and?; split_and!; done.
Qed.

Lemma ext_loop_wp fuel hrr data ext_end : forall pos x seen,
  is_bytes data -> exts_wf hrr x -> 0 <= pos -> ext_end <= len data ->
  (Z.to_nat (ext_end - pos) < fuel)%nat ->
  outcome_ok (fun '(x, _) => exts_wf hrr x) (ext_loop fuel hrr data ext_end pos x seen).
Proof.
  induction fuel as [|fuel IH]; intros pos x seen Hd Hx Hp He Hf; [lia|]. simpl.
  wp; zbool; cbv beta in *; unfold u16 in *; try done; try lia.
  - apply ext_step_wp; naive_solver.
  - apply IH; try done; lia.
Qed.

Lemma parse_extensions_wp hrr data pos : is_bytes data -> 0 <= pos ->
  outcome_ok (exts_wf hrr) (parse_extensions hrr data pos).
Proof.
  intros Hd Hp. unfold parse_extensions. assert (exts_wf hrr sh_exts_default) by (by destruct hrr).
  destruct (Z.leb_spec (pos + 2) (len data)); [|by destruct hrr].
  eapply outcome_ok_bind; [by apply read_u16_wp|intros n [Hn _]].
  wp; zbool; try done; [apply ext_loop_wp; try done; unfold len in *; lia|].
  case_match. by wp.
Qed.

(** On any bytes the parser returns or rejects: no index or slice is out of
    range and no loop exceeds its bound.  What it returns has fields of their
    widths, a 32-byte random, and only the extensions its kind of message may
    carry: a HelloRetryRequest no key share and no PSK, a ServerHello no
    selected group, cookie or ECH confirmation. *)
Theorem parse_server_hello_total (data : bytes) : is_bytes data ->
  outcome_ok (fun sh =>
    u16 (legacy_version sh) /\ len (sh_random sh) = 32 /\ len (sh_session_id sh) < 256 /\
    u16 (sh_cipher_suite sh) /\ u8 (compression_method sh) /\
    is_hello_retry_request sh = bool_decide (sh_random sh = HRR_RANDOM) /\
    exts_wf (is_hello_retry_request sh) (sh_extensions sh)) (parse_server_hello data).
Proof.
  intros Hd. unfold parse_server_hello.
  wp; zbool; cbv beta in *; unfold u16, u8 in *; destruct_and?; try done; try lia.
  - apply parse_extensions_wp; [done|lia].
  - split_and!; try done; lia.
Qed.

End server_hello.
