(* ===== verification/ServerHelloProps.v ===== *)
(** * The ServerHello parser against its encoding

    The parser folds the extensions of the message in order
    ([parse_server_hello_encode]) and agrees on the version with the driver's
    detection ([detect_version_agrees]). *)
From S2P Require Import Prelude TlsError ServerHello.
Import error server_hello.

Module sh_props.

(** The extensions of a block, as (type, data) pairs. *)
Definition at_u16 (data : bytes) (pos : Z) : Z :=
  from_be16 (default 0 (data !! Z.to_nat pos)) (default 0 (data !! Z.to_nat (pos + 1))).
Fixpoint exts_at (fuel : nat) (data : bytes) (ext_end pos : Z) : list (Z * bytes) :=
  match fuel with
  | O => []
  | S fuel =>
      if pos + 4 <=? ext_end then
        let n := at_u16 data (pos + 2) in
        (at_u16 data pos, take_z n (drop_z (pos + 4) data)) ::
        exts_at fuel data ext_end (pos + 4 + n)
      else []
  end.
(** The extension block of a ServerHello body. *)
Definition server_hello_exts (data : bytes) : list (Z * bytes) :=
  let pos := 38 + default 0 (data !! 34%nat) in
  if pos + 2 <=? len data
  then exts_at (S (length data)) data (pos + 2 + at_u16 data pos) (pos + 2) else [].

Definition versions_of (l : list (Z * bytes)) : list bytes :=
  omap (fun '(t, d) => if t =? 0x002b then Some d else None) l.

Fixpoint fold_exts (hrr : bool) (l : list (Z * bytes)) (x : ServerHelloExtensions)
    : Outcome TlsError ServerHelloExtensions :=
  match l with
  | [] => Ok x
  | (t, d) :: l => x ← ext_step hrr t d x; fold_exts hrr l x
  end.

Lemma idx_default {E} (l : bytes) i : 0 <= i < len l -> idx (E := E) l i = Ok (default 0 (l !! Z.to_nat i)).
Proof. intros Hi. destruct (idx_ok (E := E) l i Hi) as (a & -> & ->). done. Qed.
Lemma read_u16_at {E} data pos : 0 <= pos -> pos + 2 <= len data ->
  read_u16 (E := E) data pos = Ok (at_u16 data pos).
Proof. intros. unfold read_u16. by rewrite !idx_default by lia. Qed.
Lemma at_byte data i : is_bytes data -> u8 (default 0 (data !! i)).
Proof.
  intros H. destruct (data !! i) eqn:E; simpl; [|by vm_compute; split].
  by eapply (Forall_lookup_1 u8).
Qed.
Lemma at_u16_range data pos : is_bytes data -> u16 (at_u16 data pos).
Proof. intros. apply from_be16_range; by apply at_byte. Qed.

(** One turn of the loop, for a position inside the block. *)
Lemma ext_loop_turn fuel hrr data ext_end pos x seen :
  is_bytes data -> 0 <= pos -> pos + 4 <= ext_end -> ext_end <= len data ->
  ext_loop (S fuel) hrr data ext_end pos x seen =
    let t := at_u16 data pos in
    let n := at_u16 data (pos + 2) in
    if ext_end <? pos + 4 + n then
      Err (local_alert ADecodeError "ServerHello extension exceeds extensions block")
    else if hrr && bool_decide (t ∈ seen) then
      Err (local_alert AIllegalParameter ("duplicate HelloRetryRequest extension 0x" +:+ hex4 t))
    else
      x ← ext_step hrr t (take_z n (drop_z (pos + 4) data)) x;
      ext_loop fuel hrr data ext_end (pos + 4 + n) x (if hrr then seen ++ [t] else seen).
Proof.
  intros Hd Hp He Hl. simpl. destruct (Z.leb_spec (pos + 4) ext_end); [|lia].
  rewrite !read_u16_at by lia. simpl. pose proof (at_u16_range data (pos + 2) Hd) as [Hn _].
  destruct (Z.ltb_spec ext_end (pos + 4 + at_u16 data (pos + 2))); [done|].
  rewrite slice_ok by lia. simpl. by replace (pos + 4 + at_u16 data (pos + 2) - (pos + 4)) with
    (at_u16 data (pos + 2)) by lia.
Qed.

Lemma ext_loop_fold fuel hrr data ext_end : forall pos x seen x' p,
  is_bytes data -> 0 <= pos -> ext_end <= len data ->
  ext_loop fuel hrr data ext_end pos x seen = Ok (x', p) ->
  let l := exts_at fuel data ext_end pos in
  fold_exts hrr l x = Ok x' /\
  (hrr = true -> NoDup (map fst l) /\ forall t, t ∈ map fst l -> t ∉ seen) /\
  forall legacy, detect_loop fuel data ext_end pos legacy =
    Ok (default legacy ((fun d => at_u16 d 0) <$> head (List.filter (fun d => 2 <=? len d) (versions_of l)))).
Proof.
  induction fuel as [|fuel IH]; intros pos x seen x' p Hd Hp Hl; [done|].
  destruct (decide (pos + 4 <= ext_end)) as [He|He].
  2:{ simpl. destruct (Z.leb_spec (pos + 4) ext_end); [lia|]. intros [= -> ->]. simpl.
      split_and!; try done. intros _. split; [constructor|]. intros t Ht. by apply elem_of_nil in Ht. }
  rewrite ext_loop_turn by done. cbv zeta. pose proof (at_u16_range data (pos + 2) Hd) as [Hn _].
  destruct (Z.ltb_spec ext_end (pos + 4 + at_u16 data (pos + 2))) as [|Hfit]; [done|].
  destruct (hrr && bool_decide (at_u16 data pos ∈ seen)) eqn:Hdup; [done|].
  set (t := at_u16 data pos) in *. set (n := at_u16 data (pos + 2)) in *.
  set (d := take_z n (drop_z (pos + 4) data)).
  destruct (ext_step hrr t d x) as [y| |] eqn:Hs; [|done..]. simpl. intros Hx.
  destruct (IH (pos + 4 + n) y _ x' p Hd ltac:(lia) Hl Hx) as (IH1 & IH2 & IH3).
  fold t n d. destruct (Z.leb_spec (pos + 4) ext_end); [|lia]. cbn [andb]. simpl. rewrite Hs. simpl.
  split_and!; [done| |].
  - intros ->. destruct (IH2 eq_refl) as [Hnd Hns]. simpl in Hdup. apply bool_decide_eq_false in Hdup.
    split.
    + constructor; [|done]. intros Hin. apply (Hns t Hin). set_solver.
    + intros t' Ht'. apply elem_of_cons in Ht' as [->|Ht']; [done|]. specialize (Hns t' Ht'). set_solver.
  - intros legacy. destruct (Z.leb_spec (pos + 4) (len data)); [|lia].
    rewrite (read_u16_at data pos), (read_u16_at data (pos + 2)) by lia. simpl. fold t n.
    destruct (Z.ltb_spec (len data) (pos + 4 + n)); [lia|].
    assert (len d = n) as Hdl.
    { unfold d. rewrite len_take_z, len_drop_z by lia. lia. }
    destruct (t =? 43) eqn:Et; simpl; [|apply IH3].
    rewrite Hdl. destruct (Z.leb_spec 2 n); simpl; [|apply IH3].
    rewrite (read_u16_at data (pos + 4)) by lia. f_equal. unfold at_u16, d, take_z, drop_z.
    rewrite !lookup_take_lt, !lookup_drop by lia.
    f_equal; do 2 f_equal; lia.
Qed.

(** ** The encoding of RFC 8446 *)

Definition encode_exts (l : list (Z * bytes)) : bytes :=
  concat (map (fun '(t, d) => be16 t ++ be16 (len d) ++ d) l).
Definition encode_server_hello (legacy : Z) (rnd sid : bytes) (suite comp : Z)
    (l : list (Z * bytes)) : bytes :=
  be16 legacy ++ rnd ++ [len sid] ++ sid ++ be16 suite ++ [comp] ++
  be16 (len (encode_exts l)) ++ encode_exts l.

Lemma cut (pre m post data : bytes) : data = pre ++ m ++ post ->
  take_z (len m) (drop_z (len pre) data) = m.
Proof. intros ->. by rewrite drop_z_app_len, take_z_app_len. Qed.
Lemma lookup_after (pre l : bytes) i : 0 <= i -> (pre ++ l) !! Z.to_nat (len pre + i) = l !! Z.to_nat i.
Proof.
  intros Hi. unfold len. rewrite lookup_app_r by lia. f_equal. lia.
Qed.
Lemma at_u16_after pre l i : 0 <= i -> at_u16 (pre ++ l) (len pre + i) = at_u16 l i.
Proof. intros Hi. unfold at_u16. by rewrite <- Z.add_assoc, !lookup_after by lia. Qed.
Lemma at_u16_app pre v post : u16 v -> at_u16 (pre ++ be16 v ++ post) (len pre) = v.
Proof.
  intros Hv. rewrite <- (Z.add_0_r (len pre)), at_u16_after by lia. by apply from_be16_be16.
Qed.

Definition ext_sized (e : Z * bytes) : Prop := u16 (e.1) /\ u16 (len e.2) /\ is_bytes e.2.

Lemma encode_exts_cons t d l :
  encode_exts ((t, d) :: l) = (be16 t ++ be16 (len d) ++ d) ++ encode_exts l.
Proof. done. Qed.

Lemma encode_exts_bytes l : Forall ext_sized l -> is_bytes (encode_exts l).
Proof.
  induction 1 as [|[t d] l (H1 & H2 & H3) _ IH]; [constructor|].
  rewrite encode_exts_cons. repeat (apply is_bytes_app; split); auto with width_db.
Qed.

(** The header and the data of the first extension of an encoded block. *)
Lemma encoded_head pre t d l post : u16 t -> u16 (len d) ->
  let data := pre ++ encode_exts ((t, d) :: l) ++ post in
  data = (pre ++ be16 t ++ be16 (len d) ++ d) ++ encode_exts l ++ post /\
  len (pre ++ be16 t ++ be16 (len d) ++ d) = len pre + 4 + len d /\
  at_u16 data (len pre) = t /\ at_u16 data (len pre + 2) = len d /\
  take_z (len d) (drop_z (len pre + 4) data) = d.
Proof.
  intros Ht Hd. cbv zeta. rewrite encode_exts_cons. split_and!.
  - by rewrite <- !app_assoc.
  - rewrite !len_app, !len_be16. lia.
  - rewrite <- !app_assoc. by apply at_u16_app.
  - rewrite at_u16_after by lia. rewrite <- !app_assoc. by apply (at_u16_app (be16 t)).
  - replace (len pre + 4) with (len (pre ++ be16 t ++ be16 (len d))) by (rewrite !len_app, !len_be16; lia).
    eapply cut. by rewrite <- !app_assoc.
Qed.

Lemma len_encode_exts_cons t d l : len (encode_exts ((t, d) :: l)) = 4 + len d + len (encode_exts l).
Proof. rewrite encode_exts_cons, !len_app, !len_be16. lia. Qed.

Lemma ext_loop_encode hrr post : forall l pre x seen fuel,
  Forall ext_sized l -> is_bytes (pre ++ post) -> (hrr = true -> NoDup (seen ++ map fst l)) ->
  (length (encode_exts l) < fuel)%nat ->
  let e := len pre + len (encode_exts l) in
  ext_loop fuel hrr (pre ++ encode_exts l ++ post) e (len pre) x seen =
    (x ← fold_exts hrr l x; Ok (x, e)).
Proof.
  induction l as [|[t d] l IH]; intros pre x seen fuel Hl Hb Hnd Hf; cbv zeta.
  { destruct fuel; [simpl in Hf; lia|]. simpl. change (encode_exts []) with (@nil Z).
    change (len (@nil Z)) with 0. rewrite Z.add_0_r.
    destruct (Z.leb_spec (len pre + 4) (len pre)); [lia|]. done. }
  pose proof Hl as Hl'. apply Forall_cons in Hl as [(Ht & Hd & Hdb) Hl]. simpl in Ht, Hd, Hdb.
  destruct fuel as [|fuel]; [lia|]. apply is_bytes_app in Hb as [Hb1 Hb2].
  destruct (encoded_head pre t d l post Ht Hd) as (Hdata & Hlp & H1 & H2 & H3).
  pose proof (len_encode_exts_cons t d l) as Hlen.
  pose proof (len_nonneg pre). pose proof (len_nonneg d). pose proof (len_nonneg (encode_exts l)).
  pose proof (len_nonneg post).
  rewrite ext_loop_turn; [|..].
  2:{ apply is_bytes_app; split; [done|]. apply is_bytes_app; split; [by apply encode_exts_bytes|done]. }
  2-4: rewrite ?len_app; lia.
  cbv zeta. rewrite H1, H2, H3, Hlen.
  destruct (Z.ltb_spec (len pre + (4 + len d + len (encode_exts l))) (len pre + 4 + len d)); [lia|].
  assert ((hrr && bool_decide (t ∈ seen)) = false) as ->.
  { destruct hrr; [|done]. simpl. apply bool_decide_eq_false. specialize (Hnd eq_refl).
    apply NoDup_app in Hnd as (_ & Hnd & _). intros Hin. apply (Hnd t Hin). simpl. set_solver. }
  simpl. destruct (ext_step hrr t d x) as [y| |]; [|done..]. simpl.
  specialize (IH (pre ++ be16 t ++ be16 (len d) ++ d) y (if hrr then seen ++ [t] else seen) fuel Hl).
  cbv zeta in IH. rewrite <- Hdata, Hlp in IH.
  replace (len pre + (4 + len d + len (encode_exts l))) with
    (len pre + 4 + len d + len (encode_exts l)) by lia. apply IH.
  - repeat (apply is_bytes_app; split); auto with width_db.
  - intros ->. specialize (Hnd eq_refl). by rewrite <- app_assoc.
  - unfold len in Hlen. lia.
Qed.

(** At most one supported_versions extension, of two bytes. *)
Definition one_version (l : list (Z * bytes)) : Prop :=
  match versions_of l with [] => True | [d] => len d = 2 | _ => False end.

Lemma ext_step_version hrr t d x x' : ext_step hrr t d x = Ok x' ->
  (t = 0x002b -> hrr = true \/ len d = 2 -> len d = 2 /\ supported_version x' = Some (at_u16 d 0)) /\
  (t <> 0x002b -> supported_version x' = supported_version x).
Proof.
  destruct x as [sv ks sg ck psk ech]. intros H. split.
  - intros -> Hv. simpl in H. destruct (Z.eqb_spec (len d) 2) as [El|El].
    + rewrite read_u16_at in H by lia. simpl in H. by simplify_eq.
    + by destruct Hv as [->|?].
  - intros Ht. unfold ext_step in H.
    repeat (case_match; simplify_eq/=; try done);
    repeat match goal with
    | H : (?o ≫= _) = Ok _ |- _ => destruct o eqn:?; simplify_eq/=; try done
    | H : (if ?b then _ else _) = Ok _ |- _ => destruct b eqn:?; simplify_eq/=; try done
    end.
Qed.

Lemma fold_exts_version hrr l : forall x x', fold_exts hrr l x = Ok x' ->
  (hrr = true -> NoDup (map fst l)) -> (hrr = false -> one_version l) ->
  one_version l /\
  supported_version x' =
    match versions_of l with d :: _ => Some (at_u16 d 0) | [] => supported_version x end.
Proof.
  induction l as [|[t d] l IH]; intros x x' Hf Hnd Hone; simpl in *; [by simplify_eq|].
  destruct (ext_step hrr t d x) as [y| |] eqn:Hs; [|done..]. simpl in Hf.
  destruct (ext_step_version _ _ _ _ _ Hs) as [H1 H2]. unfold one_version in *. simpl in *.
  destruct (Z.eqb_spec t 0x002b) as [->|Hne].
  - assert (versions_of l = []) as Hnil.
    { destruct hrr.
      - specialize (Hnd eq_refl). apply NoDup_cons in Hnd as [Hni _]. clear -Hni.
        induction l as [|[t d'] l IH]; simpl in *; [done|].
        destruct (Z.eqb_spec t 43) as [->|]; [set_solver|]. apply IH. set_solver.
      - specialize (Hone eq_refl). by destruct (versions_of l). }
    rewrite Hnil in *. destruct (H1 eq_refl) as [Hl Hv]; [destruct hrr; auto|].
    split; [done|]. destruct (IH y x' Hf) as [_ ->]; [|done..].
    intros ->. specialize (Hnd eq_refl). by apply NoDup_cons in Hnd as [_ ?].
  - rewrite <- (H2 Hne). apply IH; [done| |done].
    intros ->. specialize (Hnd eq_refl). by apply NoDup_cons in Hnd as [_ ?].
Qed.

Definition sid_len (data : bytes) : Z := default 0 (data !! 34%nat).

(** The fixed part of the message, once it is long enough. *)
Lemma parse_fixed data : is_bytes data -> 35 <= len data -> 38 + sid_len data <= len data ->
  parse_server_hello data =
    let rnd := take_z 32 (drop_z 2 data) in
    let hrr := bool_decide (rnd = HRR_RANDOM) in
    exts ← parse_extensions hrr data (38 + sid_len data);
    Ok {| legacy_version := at_u16 data 0; sh_random := rnd;
          sh_session_id := take_z (sid_len data) (drop_z 35 data);
          sh_cipher_suite := at_u16 data (35 + sid_len data);
          compression_method := default 0 (data !! Z.to_nat (37 + sid_len data));
          sh_extensions := exts; is_hello_retry_request := hrr |}.
Proof.
  intros Hd H35 Hl. unfold parse_server_hello, need, sid_len in *.
  pose proof (at_byte data 34 Hd) as [Hs _].
  assert (forall p, p <= 38 + default 0 (data !! 34%nat) -> (len data <? p) = false) as Hn
    by (intros; apply Z.ltb_ge; lia).
  rewrite !Hn by lia. simpl. rewrite (read_u16_at data 0), (slice_ok data 2 34) by lia. simpl.
  rewrite (idx_default data 34) by lia. change (Z.to_nat 34) with 34%nat. simpl.
  set (n := default 0 (data !! 34%nat)) in *. rewrite !Hn by lia. simpl.
  rewrite slice_ok, (read_u16_at data (35 + n)), (idx_default data (35 + n + 2)) by lia. simpl.
  replace (35 + n - 35) with n by lia. replace (35 + n + 3) with (38 + n) by lia.
  by replace (35 + n + 2) with (37 + n) by lia.
Qed.

Lemma parse_long_enough data sh : is_bytes data -> parse_server_hello data = Ok sh ->
  35 <= len data /\ 38 + sid_len data <= len data.
Proof.
  intros Hd. unfold parse_server_hello, need, sid_len. pose proof (at_byte data 34 Hd) as [Hs _].
  destruct (Z.ltb_spec (len data) 2); [done|]. simpl. rewrite read_u16_at by lia. simpl.
  destruct (Z.ltb_spec (len data) (2 + 32)); [done|]. simpl. rewrite slice_ok by lia. simpl.
  destruct (Z.ltb_spec (len data) (34 + 1)); [done|]. simpl. rewrite (idx_default data 34) by lia. simpl.
  change (Z.to_nat 34) with 34%nat. set (n := default 0 (data !! 34%nat)) in *.
  destruct (Z.ltb_spec (len data) (35 + n)); [done|]. simpl. rewrite slice_ok by lia. simpl.
  destruct (Z.ltb_spec (len data) (35 + n + 2)); [done|]. simpl. rewrite read_u16_at by lia. simpl.
  destruct (Z.ltb_spec (len data) (35 + n + 2 + 1)); [done|]. intros _. lia.
Qed.

#[local] Arguments detect_loop : simpl never.
#[local] Arguments ext_loop : simpl never.

(** The parser inverts the encoding of RFC 8446: on the bytes of a message
    with any fields and extension list, it returns those fields and folds the
    extensions in order; the only errors are those of [ext_step].  In a
    HelloRetryRequest the extension types must be distinct. *)
Theorem parse_server_hello_encode (legacy : Z) (rnd sid : bytes) (suite comp : Z)
    (l : list (Z * bytes)) :
  let hrr := bool_decide (rnd = HRR_RANDOM) in
  u16 legacy -> len rnd = 32 -> is_bytes rnd -> len sid < 256 -> is_bytes sid ->
  u16 suite -> u8 comp -> Forall ext_sized l -> u16 (len (encode_exts l)) ->
  (hrr = true -> NoDup (map fst l)) ->
  parse_server_hello (encode_server_hello legacy rnd sid suite comp l) =
    (x ← fold_exts hrr l sh_exts_default;
     Ok {| legacy_version := legacy; sh_random := rnd; sh_session_id := sid;
           sh_cipher_suite := suite; compression_method := comp; sh_extensions := x;
           is_hello_retry_request := hrr |}).
Proof.
  intros hrr Hleg Hrl Hrb Hsl Hsb Hsu Hco Hl Hel Hnd.
  set (data := encode_server_hello _ _ _ _ _ _).
  assert (is_bytes data) as Hd.
  { unfold data, encode_server_hello. repeat (apply is_bytes_app; split); auto with width_db.
    - apply Forall_singleton. pose proof (len_nonneg sid). width.
    - by apply Forall_singleton.
    - by apply encode_exts_bytes. }
  assert (len data = 40 + len sid + len (encode_exts l)) as Hlen.
  { unfold data, encode_server_hello. rewrite !len_app, !len_be16, !len_cons, len_nil. lia. }
  assert (sid_len data = len sid) as Hsid.
  { unfold sid_len, data, encode_server_hello.
    rewrite (lookup_app_r (be16 legacy)) by (unfold len in *; simpl; lia).
    rewrite (lookup_app_r rnd) by (unfold len in *; simpl; lia).
    change (length (be16 legacy)) with 2%nat. unfold len in Hrl.
    by replace (34 - 2 - length rnd)%nat with 0%nat by lia. }
  pose proof (len_nonneg sid). pose proof (len_nonneg (encode_exts l)).
  rewrite parse_fixed by (done || rewrite ?Hsid; lia). cbv zeta. rewrite Hsid.
  assert (data = (be16 legacy ++ rnd ++ [len sid] ++ sid ++ be16 suite ++ [comp]) ++
                 be16 (len (encode_exts l)) ++ encode_exts l ++ []) as Hsplit.
  { unfold data, encode_server_hello. rewrite <- !app_assoc, app_nil_r. done. }
  set (pre := be16 legacy ++ rnd ++ [len sid] ++ sid ++ be16 suite ++ [comp]) in *.
  assert (len pre = 38 + len sid) as Hpre.
  { unfold pre. rewrite !len_app, !len_be16, !len_cons, len_nil. lia. }
  assert (take_z 32 (drop_z 2 data) = rnd) as ->.
  { rewrite <- Hrl. by eapply (cut (be16 legacy)). }
  assert (take_z (len sid) (drop_z 35 data) = sid) as ->.
  { replace 35 with (len (be16 legacy ++ rnd ++ [len sid])) by (rewrite !len_app, len_be16, len_cons, len_nil; lia).
    eapply cut. unfold data, encode_server_hello. by rewrite <- !app_assoc. }
  assert (at_u16 data 0 = legacy) as -> by by apply (at_u16_app []).
  assert (at_u16 data (35 + len sid) = suite) as ->.
  { etransitivity; [|by apply (at_u16_app (be16 legacy ++ rnd ++ [len sid] ++ sid) suite
                 ([comp] ++ be16 (len (encode_exts l)) ++ encode_exts l))].
    f_equal; [|rewrite !len_app, len_be16, len_cons, len_nil; lia].
    unfold data, encode_server_hello. by rewrite <- !app_assoc. }
  assert (default 0 (data !! Z.to_nat (37 + len sid)) = comp) as ->.
  { replace data with ((be16 legacy ++ rnd ++ [len sid] ++ sid ++ be16 suite) ++
      comp :: be16 (len (encode_exts l)) ++ encode_exts l)
      by (unfold data, encode_server_hello; by rewrite <- !app_assoc).
    rewrite list_lookup_middle; [done|].
    enough (37 + len sid = len (be16 legacy ++ rnd ++ [len sid] ++ sid ++ be16 suite)) as ->
      by (unfold len; lia).
    rewrite !len_app, !len_be16, len_cons, len_nil. lia. }
  fold hrr. unfold parse_extensions. rewrite Hlen.
  destruct (Z.leb_spec (38 + len sid + 2) (40 + len sid + len (encode_exts l))); [|lia].
  rewrite read_u16_at by lia. rewrite <- Hpre at 1. rewrite Hsplit at 1.
  rewrite (at_u16_app pre) by done. cbn [mbind outcome_bind].
  destruct (Z.ltb_spec (40 + len sid + len (encode_exts l)) (38 + len sid + 2 + len (encode_exts l))); [lia|].
  destruct (Z.eqb_spec (38 + len sid + 2 + len (encode_exts l)) (40 + len sid + len (encode_exts l))); [|lia].
  rewrite andb_false_r.
  pose proof (ext_loop_encode hrr [] l (pre ++ be16 (len (encode_exts l))) sh_exts_default []
    (S (length data)) Hl) as Hloop. cbv zeta in Hloop.
  rewrite len_app, Hpre, len_be16, <- !app_assoc, <- Hsplit in Hloop. rewrite Hloop; clear Hloop.
  - destruct (fold_exts hrr l sh_exts_default); [|done..]. cbn [mbind outcome_bind].
    rewrite Z.eqb_refl, andb_false_r. done.
  - rewrite app_nil_r. rewrite Hsplit, app_nil_r, app_assoc in Hd. by apply is_bytes_app in Hd as [? _].
  - done.
  - unfold len in *. lia.
Qed.

(** The driver's quick detection and the parser agree on the version: for
    every ServerHello the parser accepts, provided it carries at most one
    supported_versions extension and that one has two bytes, the detection run
    on the whole message gives the version the parsed message negotiates.  A
    HelloRetryRequest needs no proviso: the parser itself enforces it. *)
Theorem detect_version_agrees (data : bytes) (a b c : Z) (sh : ServerHello) :
  is_bytes data -> parse_server_hello data = Ok sh ->
  (is_hello_retry_request sh = false -> one_version (server_hello_exts data)) ->
  detect_version_from_server_hello (0x02 :: a :: b :: c :: data) = Ok (negotiated_version sh).
Proof.
  intros Hd Hparse Hone. destruct (parse_long_enough data sh Hd Hparse) as [H35 Hl].
  rewrite parse_fixed in Hparse by done. cbv zeta in Hparse.
  set (hrr := bool_decide (take_z 32 (drop_z 2 data) = HRR_RANDOM)) in *.
  destruct (parse_extensions hrr data (38 + sid_len data)) as [x| |] eqn:Hx; [|done..].
  simplify_eq/=. unfold negotiated_version; simpl.
  unfold detect_version_from_server_hello. pose proof (at_byte data 34 Hd) as [Hs _].
  fold (sid_len data) in Hs. rewrite !len_cons.
  destruct (Z.ltb_spec (1 + (1 + (1 + (1 + len data)))) 4); [lia|]. simpl.
  rewrite slice_ok by (rewrite ?len_cons; lia).
  change (drop_z 4 _) with data. rewrite take_z_all by lia. simpl. destruct (Z.ltb_spec (len data) 38); [lia|].
  rewrite (read_u16_at data 0), (idx_default data 34) by lia. simpl. change (Z.to_nat 34) with 34%nat.
  fold (sid_len data). replace (35 + sid_len data + 3) with (38 + sid_len data) by lia.
  destruct (Z.ltb_spec (len data) (38 + sid_len data)); [lia|].
  unfold parse_extensions in Hx. unfold server_hello_exts in Hone. fold (sid_len data) in Hone.
  destruct (Z.ltb_spec (len data) (38 + sid_len data + 2)) as [Hshort|Hlong].
  { destruct (Z.leb_spec (38 + sid_len data + 2) (len data)); [lia|].
    destruct hrr; [done|]. by simplify_eq. }
  destruct (Z.leb_spec (38 + sid_len data + 2) (len data)); [|lia].
  rewrite (read_u16_at data (38 + sid_len data)) in Hx by lia. set (f := S (length data)) in *.
  rewrite (read_u16_at data (38 + sid_len data)) by lia. simpl in Hx |- *.
  set (e := 38 + sid_len data + 2) in *. set (t := at_u16 data (38 + sid_len data)) in *.
  assert (0 <= e) by (unfold e; lia). destruct (Z.ltb_spec (len data) (e + t)); [done|].
  destruct (hrr && _); [done|].
  destruct (ext_loop _ _ _ _ _ _ _) as [[y p]| |] eqn:Hloop; [|done..]. simpl in Hx.
  destruct (hrr && _); simplify_eq.
  apply ext_loop_fold in Hloop as (Hfold & Hnd & Hdet); [|done|lia..].
  rewrite Hdet. set (l := exts_at _ _ _ _) in *.
  destruct (fold_exts_version _ _ _ _ Hfold) as [Hov ->]; [by intros Hh; apply Hnd|done|].
  f_equal. unfold one_version in Hov. destruct (versions_of l) as [|d [|]]; simpl; [done| |done].
  by destruct (Z.leb_spec 2 (len d)); [|lia].
Qed.

Definition demo_random : bytes := replicate 32 7.
Definition demo_hello (exts : list (Z * bytes)) : bytes :=
  encode_server_hello 0x0303 demo_random [1; 2] 0x1301 0 exts.

Lemma detect_version_agrees_witness :
  detect_version_from_server_hello
    (0x02 :: 0 :: 0 :: 60 :: demo_hello [(0x0033, [0; 29; 0; 1; 9]); (0x002b, [3; 4])]) = Ok 0x0304.
Proof.
  destruct (parse_server_hello (demo_hello [(0x0033, [0; 29; 0; 1; 9]); (0x002b, [3; 4])]))
    as [sh| |] eqn:E; vm_compute in E; [|discriminate..].
  rewrite (detect_version_agrees _ 0 0 60 sh).
  - by injection E as <-.
  - apply (bool_decide_unpack (is_bytes _)). by vm_compute.
  - by rewrite <- E; vm_compute.
  - done.
Defined.

(** With two such extensions the detection takes the first and the parser the
    last: the driver would route this message to the TLS 1.3 handshake, whose
    parser reads TLS 1.2. *)
Lemma version_detection_diverges :
  let m := demo_hello [(0x002b, [3; 4]); (0x002b, [3; 3])] in
  detect_version_from_server_hello (0x02 :: 0 :: 0 :: 54 :: m) = Ok 0x0304 /\
  negotiated_version <$> (match parse_server_hello m with Ok sh => Some sh | _ => None end) = Some 0x0303.
Proof. by vm_compute. Qed.

Lemma parse_server_hello_encode_witness :
  parse_server_hello (demo_hello [(0x0033, [0; 29; 0; 1; 9]); (0x002b, [3; 4])]) =
    Ok {| legacy_version := 0x0303; sh_random := demo_random; sh_session_id := [1; 2];
          sh_cipher_suite := 0x1301; compression_method := 0;
          sh_extensions := mkShExts (Some 0x0304) (Some (29, [9])) None None None None;
          is_hello_retry_request := false |}.
Proof.
  unfold demo_hello. rewrite parse_server_hello_encode; [done|..];
    try (intros _; apply (bool_decide_unpack _); vm_compute; exact I);
    try (apply (bool_decide_unpack _); vm_compute; exact I); try done.
Defined.

End sh_props.
