(* ===== verification/TlsHkdf.v ===== *)
(** * Key derivation (lktls/src/crypto/hkdf.rs, extensions/pre_shared_key.rs)

    HKDF-Expand-Label and Derive-Secret over the HKDF of aws-lc-rs, which is the
    class [Hkdf]: a salt or a key that is too long for its buffers panics, an
    expansion that is too long fails.  The binder of a PSK is here too. *)
From S2P Require Import Prelude TlsError TlsCipher.
Import error.

#[export] Instance hkdf_algorithm_eq_dec : EqDecision HkdfAlgorithm.
Proof. solve_decision. Defined.

Definition hash_len (a : HkdfAlgorithm) : Z :=
  match a with HkdfSha256 => 32 | HkdfSha384 => 48 end.

(** [P]: [hkdf::Prk]; [O]: [hkdf::Okm]. *)
Class Hkdf (P O : Type) : Type := {
  (** [Salt::new(alg, salt).extract(ikm)]; [None]: panics *)
  salt_extract : HkdfAlgorithm -> bytes -> bytes -> option P;
  (** [Prk::new_less_safe(alg, value)]; [None]: panics *)
  prk_new : HkdfAlgorithm -> bytes -> option P;
  (** [prk.expand(info, len)] and [okm.fill] of a buffer of a given length *)
  prk_expand : P -> bytes -> Z -> option O;
  okm_fill : O -> Z -> option bytes;
  (** [digest::digest] *)
  digest : HkdfAlgorithm -> bytes -> bytes;
}.

(** What the documentation promises: salts up to 80 bytes, keys up to 64 and
    labels up to 80 are accepted, any output up to 255 hash lengths is given. *)
Class HkdfLaws (P O : Type) (H : Hkdf P O) : Prop := {
  extract_total alg salt ikm : len salt <= 80 -> is_Some (salt_extract alg salt ikm);
  prk_total alg v : len v <= 64 -> is_Some (prk_new alg v);
  expand_total p info n : len info <= 80 -> 0 <= n <= 255 * 32 ->
    exists okm out, prk_expand p info n = Some okm /\ okm_fill okm n = Some out;
  fill_shape okm n out : 0 <= n -> okm_fill okm n = Some out -> len out = n /\ is_bytes out;
  digest_shape alg m : len (digest alg m) = hash_len alg /\ is_bytes (digest alg m);
}.

(** An instance that satisfies the laws: sums of bytes. *)
Definition byte_sum (l : bytes) : Z := foldl (fun a b => (3 * a + b + 1) mod 256) 0 l.
Definition toy_hkdf : Hkdf Z Z := {|
  salt_extract _ salt ikm := if len salt <=? 80 then Some (byte_sum (salt ++ ikm)) else None;
  prk_new _ v := if len v <=? 64 then Some (byte_sum v) else None;
  prk_expand p info n := if n <=? 255 * 32 then Some ((p + byte_sum info) mod 256) else None;
  okm_fill o n := Some (replicate (Z.to_nat n) (o mod 256));
  digest alg m := replicate (Z.to_nat (hash_len alg)) (byte_sum m mod 256);
|}.
Lemma toy_hkdf_laws : HkdfLaws Z Z toy_hkdf.
Proof.
  assert (forall n, u8 (n mod 256)) as Hb by (intros; width).
  constructor; simpl.
  - intros alg salt ikm Hs. destruct (Z.leb_spec (len salt) 80); [by eexists|lia].
  - intros alg v Hv. destruct (Z.leb_spec (len v) 64); [by eexists|lia].
  - intros p info n Hi Hn. destruct (Z.leb_spec n (255 * 32)); [|lia]. by do 2 eexists.
  - intros okm n out Hn [= <-]. rewrite len_replicate. split; [lia|]. by apply is_bytes_replicate.
  - intros alg m. rewrite len_replicate. split; [by destruct alg|]. by apply is_bytes_replicate.
Qed.

Module hkdf.
Section hkdf.
Context {P O : Type} {H : Hkdf P O}.

Record HkdfPrk : Type := mkPrk { prk : P; prk_algorithm : HkdfAlgorithm }.

Definition build_hkdf_label (label : string) (context : bytes) (length : Z) : bytes :=
  let full := ascii_bytes ("tls13 " +:+ label) in
  be16 (as_u16 length) ++ [as_u8 (len full)] ++ full ++ [as_u8 (len context)] ++ context.

(** The expansion shared by the two entry points. *)
Definition expand_info (p : P) (info : bytes) (length : Z) : Outcome TlsError bytes :=
  match prk_expand p info length with
  | None => Err (CryptoError "HKDF-Expand-Label failed")
  | Some okm =>
      match okm_fill okm length with
      | None => Err (CryptoError "HKDF-Expand fill failed")
      | Some out => Ok out
      end
  end.

Definition expand_label (s : HkdfPrk) (label : string) (context : bytes) (length : Z)
    : Outcome TlsError bytes :=
  expand_info (prk s) (build_hkdf_label label context length) length.

Definition prk_derive_secret (s : HkdfPrk) (label : string) (transcript_hash : bytes)
    : Outcome TlsError bytes :=
  expand_label s label transcript_hash (hash_len (prk_algorithm s)).

Definition hkdf_extract (alg : HkdfAlgorithm) (salt ikm : bytes) : Outcome TlsError HkdfPrk :=
  match salt_extract alg salt ikm with
  | Some p => Ok {| prk := p; prk_algorithm := alg |}
  | None => Panic
  end.

Definition hkdf_expand_label (alg : HkdfAlgorithm) (secret : bytes) (label : string)
    (context : bytes) (length : Z) : Outcome TlsError bytes :=
  match prk_new alg secret with
  | None => Panic
  | Some p => expand_info p (build_hkdf_label label context length) length
  end.

Definition derive_secret (alg : HkdfAlgorithm) (secret : bytes) (label : string)
    (transcript_hash : bytes) : Outcome TlsError bytes :=
  hkdf_expand_label alg secret label transcript_hash (hash_len alg).

Definition compute_empty_hash (alg : HkdfAlgorithm) : bytes := digest alg [].

Definition derive_next (s : HkdfPrk) (ikm : bytes) : Outcome TlsError HkdfPrk :=
  salt ← expand_label s "derived" (compute_empty_hash (prk_algorithm s)) (hash_len (prk_algorithm s));
  hkdf_extract (prk_algorithm s) salt ikm.

(** ** pre_shared_key.rs *)

Definition zeros (n : Z) : bytes := replicate (Z.to_nat n) 0.

Context {C : Crypto}.

Definition hmac_of (alg : HkdfAlgorithm) : CbcMacAlgorithm :=
  match alg with HkdfSha256 => HmacSha256 | HkdfSha384 => HmacSha384 end.

Definition compute_early_secret (alg : HkdfAlgorithm) (resumption_psk : bytes)
    : Outcome TlsError HkdfPrk := hkdf_extract alg (zeros (hash_len alg)) resumption_psk.

Definition compute_psk_binder (alg : HkdfAlgorithm) (resumption_psk transcript_hash : bytes)
    : Outcome TlsError bytes :=
  early_secret ← hkdf_extract alg (zeros (hash_len alg)) resumption_psk;
  binder_key ← prk_derive_secret early_secret "res binder" (compute_empty_hash alg);
  finished_key ← hkdf_expand_label alg binder_key "finished" [] (hash_len alg);
  Ok (hmac_sign (hmac_of alg) finished_key transcript_hash).

(** ** Lengths and totality *)

Lemma ascii_bytes_ok s : is_bytes (ascii_bytes s).
Proof.
  induction s as [|a s IH]; simpl; constructor; [|done].
  pose proof (Ascii.N_ascii_bounded a). unfold u8. lia.
Qed.
Lemma ascii_bytes_app s t : ascii_bytes (s +:+ t) = ascii_bytes s ++ ascii_bytes t.
Proof. induction s as [|a s IH]; [done|]. simpl. by rewrite <- IH. Qed.
Lemma ascii_bytes_inj s t : ascii_bytes s = ascii_bytes t -> s = t.
Proof.
  revert t. induction s as [|a s IH]; intros [|b t]; simpl; try done. intros [= H1 H2].
  rewrite (IH t H2). f_equal. rewrite <- (Ascii.ascii_N_embedding a), <- (Ascii.ascii_N_embedding b).
  f_equal. lia.
Qed.
Lemma ascii_bytes_len s : len (ascii_bytes s) = Z.of_nat (String.length s).
Proof. induction s as [|a s IH]; [done|]. simpl. rewrite len_cons, IH. simpl. lia. Qed.

(** The label encoding separates its inputs: two derivations from the same
    secret with different labels, contexts or lengths never expand the same
    info string. *)
Lemma build_hkdf_label_inj l1 c1 n1 l2 c2 n2 :
  u16 n1 -> u16 n2 -> (String.length l1 < 250)%nat -> (String.length l2 < 250)%nat ->
  build_hkdf_label l1 c1 n1 = build_hkdf_label l2 c2 n2 -> l1 = l2 /\ c1 = c2 /\ n1 = n2.
Proof.
  intros Hn1 Hn2 Hl1 Hl2. unfold build_hkdf_label.
  assert (forall l, (String.length l < 250)%nat ->
    as_u8 (len (ascii_bytes ("tls13 " +:+ l))) = 6 + Z.of_nat (String.length l)) as Hlen.
  { intros l Hl. rewrite ascii_bytes_app, len_app, !ascii_bytes_len.
    change (String.length "tls13 ") with 6%nat. unfold as_u8. rewrite Z.mod_small by lia. done. }
  rewrite !Hlen by done. intros Heq. apply app_inj_1 in Heq as [H1 Heq]; [|done].
  apply be16_inj in H1; [|width..]. cbn [app] in Heq. apply (f_equal tail) in Heq as Ht.
  apply (f_equal head) in Heq as Hh. simpl in Hh. cbn [tail] in Ht.
  assert (String.length l1 = String.length l2) as Hll by (injection Hh; lia).
  apply app_inj_1 in Ht as [H3 Ht].
  2:{ apply Nat2Z.inj. fold (len (ascii_bytes ("tls13 " +:+ l1))).
      fold (len (ascii_bytes ("tls13 " +:+ l2))). rewrite !ascii_bytes_len.
      change (Z.of_nat (6 + String.length l1) = Z.of_nat (6 + String.length l2)). lia. }
  apply ascii_bytes_inj in H3. injection H3 as H3. injection Ht as _ Hc. unfold as_u16, u16 in *.
  rewrite !Z.mod_small in H1 by lia. done.
Qed.

Section laws.
Context {L : HkdfLaws P O H}.

Lemma len_hkdf_label label c n : len (build_hkdf_label label c n) =
  10 + Z.of_nat (String.length label) + len c.
Proof.
  unfold build_hkdf_label. rewrite ascii_bytes_app, !len_app, len_be16, !len_cons, len_nil, !ascii_bytes_len.
  change (String.length "tls13 ") with 6%nat. lia.
Qed.

Lemma expand_info_ok (p : P) info n : len info <= 80 -> 0 <= n <= 255 * 32 ->
  exists out, expand_info p info n = Ok out /\ len out = n /\ is_bytes out.
Proof.
  intros Hi Hn. destruct (expand_total p info n Hi Hn) as (okm & out & H1 & H2).
  exists out. unfold expand_info. rewrite H1, H2. split; [done|]. eapply fill_shape; [lia|done].
Qed.

Lemma expand_label_ok s label c n : Z.of_nat (String.length label) + len c <= 70 -> 0 <= n <= 255 * 32 ->
  exists out, expand_label s label c n = Ok out /\ len out = n /\ is_bytes out.
Proof. intros Hl Hn. apply expand_info_ok; [rewrite len_hkdf_label; lia|done]. Qed.

Lemma hkdf_expand_label_ok alg secret label c n : len secret <= 64 ->
  Z.of_nat (String.length label) + len c <= 70 -> 0 <= n <= 255 * 32 ->
  exists out, hkdf_expand_label alg secret label c n = Ok out /\ len out = n /\ is_bytes out.
Proof.
  intros Hs Hl Hn. unfold hkdf_expand_label. destruct (prk_total alg secret Hs) as [p ->].
  apply expand_info_ok; [rewrite len_hkdf_label; lia|done].
Qed.

Lemma hkdf_extract_ok alg salt ikm : len salt <= 80 ->
  exists s, hkdf_extract alg salt ikm = Ok s /\ prk_algorithm s = alg.
Proof.
  intros Hs. unfold hkdf_extract. destruct (extract_total alg salt ikm Hs) as [p ->]. by eexists.
Qed.

Lemma hash_len_range alg : 32 <= hash_len alg <= 48.
Proof. destruct alg; simpl; lia. Qed.

Lemma len_zero_bytes n : 0 <= n -> len (zeros n) = n.
Proof. intros. unfold zeros. rewrite len_replicate. lia. Qed.

Lemma derive_next_ok s ikm : exists s', derive_next s ikm = Ok s' /\ prk_algorithm s' = prk_algorithm s.
Proof.
  unfold derive_next. pose proof (hash_len_range (prk_algorithm s)).
  pose proof (digest_shape (prk_algorithm s) []) as [Hd _].
  destruct (expand_label_ok s "derived" (compute_empty_hash (prk_algorithm s)) (hash_len (prk_algorithm s)))
    as (salt & -> & Hl & _); [unfold compute_empty_hash; rewrite Hd; simpl; lia|lia|].
  simpl. apply hkdf_extract_ok. lia.
Qed.

Lemma prk_derive_secret_ok s label h : len h = hash_len (prk_algorithm s) ->
  (String.length label <= 20)%nat ->
  exists out, prk_derive_secret s label h = Ok out /\ len out = hash_len (prk_algorithm s) /\ is_bytes out.
Proof.
  intros Hh Hl. pose proof (hash_len_range (prk_algorithm s)). apply expand_label_ok; lia.
Qed.

Lemma compute_early_secret_ok alg psk :
  exists s, compute_early_secret alg psk = Ok s /\ prk_algorithm s = alg.
Proof.
  apply hkdf_extract_ok. pose proof (hash_len_range alg). rewrite len_zero_bytes; lia.
Qed.

Context {CL : CryptoLaws C}.

Lemma len_hmac_of alg k m : len (hmac_sign (hmac_of alg) k m) = hash_len alg /\
  is_bytes (hmac_sign (hmac_of alg) k m).
Proof. destruct (hmac_shape (hmac_of alg) k m). split; [|done]. by destruct alg. Qed.

(** The binder always has the length of the placeholder it replaces. *)
Lemma compute_psk_binder_ok alg psk th :
  exists b, compute_psk_binder alg psk th = Ok b /\ len b = hash_len alg /\ is_bytes b.
Proof.
  unfold compute_psk_binder. pose proof (hash_len_range alg).
  destruct (compute_early_secret_ok alg psk) as (s & Hs & Ha). unfold compute_early_secret in Hs.
  rewrite Hs. simpl. pose proof (digest_shape alg []) as [Hd _].
  destruct (prk_derive_secret_ok s "res binder" (compute_empty_hash alg)) as (k & -> & Hk & _).
  { by rewrite Ha. } { simpl; lia. }
  simpl. rewrite Ha in Hk.
  destruct (hkdf_expand_label_ok alg k "finished" [] (hash_len alg)) as (f & -> & _);
    [lia|unfold len; simpl; lia|lia|].
  simpl. eexists; split; [done|]. apply len_hmac_of.
Qed.

End laws.
End hkdf.
Arguments HkdfPrk : clear implicits.
End hkdf.
