(* ===== verification/CertChain.v ===== *)
(** * Certificate verification (lktls/src/verify/certchain.rs, policy.rs)

    The checks of signatures and chains, with the DER walk that finds the public
    key in a certificate.  The signature algorithms of aws-lc-rs are the class
    [Signatures]; the path validation, the root store and the server names of
    webpki, webpki-roots and rustls-pki-types are the class [Webpki].  A
    [SystemTime] is its distance to the epoch in seconds. *)
From S2P Require Import Prelude TlsError.
Import error.

Inductive SignatureAlgorithm : Type :=
| RSA_PSS_2048_8192_SHA256 | RSA_PSS_2048_8192_SHA384 | RSA_PSS_2048_8192_SHA512
| RSA_PKCS1_2048_8192_SHA256 | RSA_PKCS1_2048_8192_SHA384 | RSA_PKCS1_2048_8192_SHA512
| ECDSA_P256_SHA256_ASN1 | ECDSA_P384_SHA384_ASN1 | ED25519.

#[export] Instance signature_algorithm_eq_dec : EqDecision SignatureAlgorithm.
Proof. solve_decision. Defined.

(** The algorithms given to webpki. *)
Inductive WebpkiAlgorithm : Type :=
| W_RSA_PKCS1_2048_8192_SHA256 | W_RSA_PKCS1_2048_8192_SHA384 | W_RSA_PKCS1_2048_8192_SHA512
| W_RSA_PSS_2048_8192_SHA256_LEGACY_KEY | W_RSA_PSS_2048_8192_SHA384_LEGACY_KEY
| W_RSA_PSS_2048_8192_SHA512_LEGACY_KEY
| W_ECDSA_P256_SHA256 | W_ECDSA_P256_SHA384 | W_ECDSA_P384_SHA256 | W_ECDSA_P384_SHA384
| W_ED25519.

(** [UnparsedPublicKey::new(alg, key).verify(message, signature)]. *)
Class Signatures : Type := {
  sig_verify : SignatureAlgorithm -> bytes -> bytes -> bytes -> bool }.

(** [E]: a parsed end-entity certificate; [T]: a trust anchor; [S]: a server
    name.  Errors are their display. *)
Class Webpki (E T S : Type) : Type := {
  end_entity_cert : bytes -> string + E;
  tls_server_roots : list T;
  verify_for_usage : E -> list WebpkiAlgorithm -> list T -> list bytes -> Z -> option string;
  server_name : bytes -> option S;
  valid_for_name : E -> S -> option string;
  anchor_from_trusted_cert : bytes -> string + T;
}.

Module certchain.

(** ** DER *)

Definition parse_der_tl (data : bytes) : Outcome TlsError (Z * Z * Z) :=
  if is_empty data then Err (CertificateError "DER: unexpected end of data") else
  tag ← idx data 0;
  if len data <? 2 then Err (CertificateError "DER: missing length byte") else
  len_byte ← idx data 1;
  if len_byte <? 0x80 then Ok (tag, 2, len_byte)
  else if len_byte =? 0x81 then
    if len data <? 3 then Err (CertificateError "DER: truncated long length") else
    a ← idx data 2; Ok (tag, 3, a)
  else if len_byte =? 0x82 then
    if len data <? 4 then Err (CertificateError "DER: truncated long length") else
    a ← idx data 2; b ← idx data 3; Ok (tag, 4, Z.lor (a ≪ 8) b)
  else if len_byte =? 0x83 then
    if len data <? 5 then Err (CertificateError "DER: truncated long length") else
    a ← idx data 2; b ← idx data 3; c ← idx data 4;
    Ok (tag, 5, Z.lor (Z.lor (a ≪ 16) (b ≪ 8)) c)
  else Err (CertificateError ("DER: unsupported length encoding: 0x" +:+ hex2 len_byte)).

Definition parse_der_element (data : bytes) : Outcome TlsError (Z * bytes * Z) :=
  '(tag, content_start, content_len) ← parse_der_tl data;
  let total := content_start + content_len in
  if len data <? total then Err (CertificateError "DER: element extends past end of data") else
  content ← slice data content_start total;
  Ok (tag, content, total).

Definition skip_der_element (data : bytes) : Outcome TlsError (Z * bytes) :=
  '(_, _, total) ← parse_der_element data;
  rest ← slice data total (len data);
  Ok (total, rest).

(** [for field_name in ["serialNumber", ...]]. *)
Fixpoint skip_fields (names : list string) (remaining : bytes) : Outcome TlsError bytes :=
  match names with
  | [] => Ok remaining
  | n :: names =>
      if is_empty remaining then
        Err (CertificateError ("TBSCertificate: missing " +:+ n +:+ " field")) else
      '(_, rest) ← skip_der_element remaining;
      skip_fields names rest
  end.

Definition extract_spki_from_cert (cert_der : bytes) : Outcome TlsError bytes :=
  '(tag, content_start, _) ← parse_der_tl cert_der;
  if negb (tag =? 0x30) then Err (CertificateError "Certificate: expected SEQUENCE") else
  cert_content ← slice cert_der content_start (len cert_der);
  '(tag, tbs, _) ← parse_der_element cert_content;
  if negb (tag =? 0x30) then Err (CertificateError "TBSCertificate: expected SEQUENCE") else
  remaining ← (if is_empty tbs then Ok tbs else
               first ← idx tbs 0;
               if first =? 0xA0 then '(_, rest) ← skip_der_element tbs; Ok rest else Ok tbs);
  remaining ← skip_fields ["serialNumber"; "signature"; "issuer"; "validity"; "subject"] remaining;
  if is_empty remaining then
    Err (CertificateError "TBSCertificate: missing subjectPublicKeyInfo") else
  '(_, _, spki_total) ← parse_der_element remaining;
  slice remaining 0 spki_total.

Definition extract_rsa_public_key_from_spki (spki : bytes) : Outcome TlsError bytes :=
  '(_, content_start, _) ← parse_der_tl spki;
  content ← slice spki content_start (len spki);
  '(_, remaining) ← skip_der_element content;
  '(tag, bs_content, _) ← parse_der_element remaining;
  if negb (tag =? 0x03) then
    Err (CertificateError "SPKI: expected BIT STRING for public key") else
  if is_empty bs_content then Err (CertificateError "SPKI: empty BIT STRING") else
  slice bs_content 1 (len bs_content).

Definition extract_ec_point_from_spki (spki : bytes) : Outcome TlsError bytes :=
  extract_rsa_public_key_from_spki spki.

(** ** Signatures *)

Section verify.
Context {SG : Signatures}.

Definition signed_content (transcript_hash : bytes) : bytes :=
  replicate 64 0x20 ++ ascii_bytes "TLS 1.3, server CertificateVerify" ++ [0x00] ++ transcript_hash.

Definition check (ok : bool) (e : TlsError) : Outcome TlsError unit := if ok then Ok tt else Err e.

Definition verify_certificate_verify (signature_scheme : Z) (cert_der transcript_hash sig_bytes : bytes)
    : Outcome TlsError unit :=
  let content := signed_content transcript_hash in
  spki ← extract_spki_from_cert cert_der;
  match signature_scheme with
  | 0x0804 =>
      k ← extract_rsa_public_key_from_spki spki;
      check (sig_verify RSA_PSS_2048_8192_SHA256 k content sig_bytes)
        (CertificateError "RSA-PSS-SHA256 signature verification failed")
  | 0x0805 =>
      k ← extract_rsa_public_key_from_spki spki;
      check (sig_verify RSA_PSS_2048_8192_SHA384 k content sig_bytes)
        (CertificateError "RSA-PSS-SHA384 signature verification failed")
  | 0x0806 =>
      k ← extract_rsa_public_key_from_spki spki;
      check (sig_verify RSA_PSS_2048_8192_SHA512 k content sig_bytes)
        (CertificateError "RSA-PSS-SHA512 signature verification failed")
  | 0x0403 =>
      k ← extract_ec_point_from_spki spki;
      check (sig_verify ECDSA_P256_SHA256_ASN1 k content sig_bytes)
        (CertificateError "ECDSA-P256-SHA256 signature verification failed")
  | 0x0503 =>
      k ← extract_ec_point_from_spki spki;
      check (sig_verify ECDSA_P384_SHA384_ASN1 k content sig_bytes)
        (CertificateError "ECDSA-P384-SHA384 signature verification failed")
  | 0x0807 =>
      k ← extract_ec_point_from_spki spki;
      check (sig_verify ED25519 k content sig_bytes)
        (CertificateError "Ed25519 signature verification failed")
  | _ => Err (CertificateError ("unsupported signature scheme: 0x" +:+ hex4 signature_scheme))
  end.

Definition verify_server_key_exchange_signature (server_cert_der : bytes) (sig_algorithm : Z)
    (signed_data signature : bytes) : Outcome TlsError unit :=
  spki ← extract_spki_from_cert server_cert_der;
  let rsa alg :=
    k ← extract_rsa_public_key_from_spki spki;
    check (sig_verify alg k signed_data signature)
      (CryptoError "ServerKeyExchange RSA signature verification failed") in
  match sig_algorithm with
  | 0x0401 => rsa RSA_PKCS1_2048_8192_SHA256
  | 0x0501 => rsa RSA_PKCS1_2048_8192_SHA384
  | 0x0601 => rsa RSA_PKCS1_2048_8192_SHA512
  | 0x0804 => rsa RSA_PSS_2048_8192_SHA256
  | 0x0403 =>
      k ← extract_ec_point_from_spki spki;
      check (sig_verify ECDSA_P256_SHA256_ASN1 k signed_data signature)
        (CryptoError "ServerKeyExchange ECDSA-P256 signature verification failed")
  | 0x0503 =>
      k ← extract_ec_point_from_spki spki;
      check (sig_verify ECDSA_P384_SHA384_ASN1 k signed_data signature)
        (CryptoError "ServerKeyExchange ECDSA-P384 signature verification failed")
  | 0x0201 =>
      Err (CryptoError "ServerKeyExchange uses legacy RSA-PKCS1-SHA1 (0x0201) which is not supported for verification")
  | other =>
      Err (CryptoError ("unsupported ServerKeyExchange signature algorithm: 0x" +:+ hex4 other))
  end.

End verify.

(** ** Chains *)

Definition SUPPORTED_SIG_ALGS : list WebpkiAlgorithm :=
  [W_RSA_PKCS1_2048_8192_SHA256; W_RSA_PKCS1_2048_8192_SHA384; W_RSA_PKCS1_2048_8192_SHA512;
   W_RSA_PSS_2048_8192_SHA256_LEGACY_KEY; W_RSA_PSS_2048_8192_SHA384_LEGACY_KEY;
   W_RSA_PSS_2048_8192_SHA512_LEGACY_KEY; W_ECDSA_P256_SHA256; W_ECDSA_P256_SHA384;
   W_ECDSA_P384_SHA256; W_ECDSA_P384_SHA384; W_ED25519].

Section chain.
Context {E T S : Type} {W : Webpki E T S}.

(** The bytes of a host name inside an error message. *)
Definition of_bytes (b : bytes) : string :=
  foldr (fun c s => String (Ascii.ascii_of_N (Z.to_N c)) s) EmptyString b.

Definition verify_certificate_chain (chain : list bytes) (hostname : bytes) (now : Z)
    (custom_anchors : option (list T)) : Outcome TlsError unit :=
  match chain with
  | [] => Err (CertificateError "empty certificate chain")
  | leaf :: intermediates =>
      match end_entity_cert leaf with
      | inl e => Err (CertificateError ("failed to parse end-entity certificate: " +:+ e))
      | inr ee =>
          let anchors := tls_server_roots ++ default [] custom_anchors in
          let unix_time := Z.max 0 now in
          match verify_for_usage ee SUPPORTED_SIG_ALGS anchors intermediates unix_time with
          | Some e => Err (CertificateError ("certificate chain verification failed: " +:+ e))
          | None =>
              match server_name hostname with
              | None => Err (CertificateError ("invalid hostname: " +:+ of_bytes hostname))
              | Some name =>
                  match valid_for_name ee name with
                  | Some e => 
                      Err (CertificateError ("hostname verification failed for '"
                                               +:+ of_bytes hostname +:+ "': " +:+ e))
                  | None => Ok tt
                  end
              end
          end
      end
  end.

Definition parse_trust_anchor_from_der (der : bytes) : Outcome TlsError T :=
  match anchor_from_trusted_cert der with
  | inl e => Err (CertificateError ("failed to parse trust anchor from DER: " +:+ e))
  | inr t => Ok t
  end.

End chain.

(** ** Policy *)

Inductive VerificationPolicy : Type := Strict | Insecure.
#[export] Instance verification_policy_eq_dec : EqDecision VerificationPolicy.
Proof. solve_decision. Defined.

Definition is_insecure (p : VerificationPolicy) : bool :=
  match p with Insecure => true | Strict => false end.

Section policy.
Context {SG : Signatures} {E T S : Type} {W : Webpki E T S}.

Definition policy_verify_certificate_chain (p : VerificationPolicy) (chain : list bytes)
    (hostname : bytes) (now : Z) (custom_anchors : option (list T)) : Outcome TlsError unit :=
  match p with
  | Insecure => Ok tt
  | Strict => verify_certificate_chain chain hostname now custom_anchors
  end.

Definition policy_verify_certificate_verify (p : VerificationPolicy) (signature_scheme : Z)
    (cert_der transcript_hash sig_bytes : bytes) : Outcome TlsError unit :=
  match p with
  | Insecure => Ok tt
  | Strict => verify_certificate_verify signature_scheme cert_der transcript_hash sig_bytes
  end.

Definition policy_verify_server_key_exchange_signature (p : VerificationPolicy)
    (server_cert_der : bytes) (sig_algorithm : Z) (signed_data signature : bytes)
    : Outcome TlsError unit :=
  match p with
  | Insecure => Ok tt
  | Strict => verify_server_key_exchange_signature server_cert_der sig_algorithm signed_data signature
  end.

End policy.
End certchain.
