(* ===== verification/CertChainProps.v ===== *)
(** * The DER walk and the signature checks

    The walk never leaves the certificate, whatever its bytes are, and finds the
    public key of a well-formed one; a CertificateVerify is accepted exactly when
    its signature is valid under that key. *)
From S2P Require Import Prelude TlsError ServerHello CertChain.
Import error server_hello certchain.

Module certchain_props.

(** ** No index leaves the certificate *)

Lemma parse_der_tl_wp data : is_bytes data ->
  outcome_ok (fun '(t, s, n) => u8 t /\ 2 <= s <= len data /\ 0 <= n) (parse_der_tl data).
Proof.
  intros Hd. unfold parse_der_tl. rewrite is_empty_len.
  destruct (bool_decide_reflect (len data = 0)); [done|]. pose proof (len_nonneg data).
  wp; zbool; try done; try lia; cbv beta in *; unfold u8 in *; try (split_and!; lia).
  - split_and!; try lia. apply Z.lor_nonneg. rewrite Z.shiftl_nonneg. lia.
  - split_and!; try lia. apply Z.lor_nonneg. rewrite Z.lor_nonneg, !Z.shiftl_nonneg. lia.
Qed.

Lemma parse_der_element_wp data : is_bytes data ->
  outcome_ok (fun '(t, c, n) => is_bytes c /\ 0 <= n <= len data) (parse_der_element data).
Proof.
  intros Hd. unfold parse_der_element. eapply outcome_ok_bind; [by apply parse_der_tl_wp|].
  intros [[t s] n] (Ht & Hs & Hn). wp; zbool; try done; try lia. split; [naive_solver|lia].
Qed.

Lemma skip_der_element_wp data : is_bytes data ->
  outcome_ok (fun '(_, r) => is_bytes r) (skip_der_element data).
Proof.
  intros Hd. unfold skip_der_element. eapply outcome_ok_bind; [by apply parse_der_element_wp|].
  intros [[t c] n] [Hc Hn]. wp; try done; try lia. naive_solver.
Qed.

Lemma skip_fields_wp names : forall data, is_bytes data ->
  outcome_ok is_bytes (skip_fields names data).
Proof.
  induction names as [|n names IH]; intros data Hd; simpl; [done|].
  destruct (is_empty data); [done|]. eapply outcome_ok_bind; [by apply skip_der_element_wp|].
  intros [? r] Hr. by apply IH.
Qed.

Lemma extract_spki_wp cert : is_bytes cert -> outcome_ok is_bytes (extract_spki_from_cert cert).
Proof.
  intros Hc. unfold extract_spki_from_cert. eapply outcome_ok_bind; [by apply parse_der_tl_wp|].
  intros [[t s] n] (Ht & Hs & Hn). destruct (negb _); [done|].
  eapply outcome_ok_bind; [apply slice_wp; (done || lia)|]. intros cc [Hcc _].
  eapply outcome_ok_bind; [by apply parse_der_element_wp|]. intros [[t' tbs] n'] [Htbs _].
  destruct (negb _); [done|].
  eapply (outcome_ok_bind is_bytes).
  { rewrite is_empty_len. destruct (bool_decide_reflect (len tbs = 0)); [done|]. pose proof (len_nonneg tbs).
    eapply outcome_ok_bind; [apply (idx_wp u8); [done|lia]|].
    intros f _. destruct (f =? 0xA0); [|done].
    eapply outcome_ok_bind; [by apply skip_der_element_wp|]. by intros [? r] Hr. }
  intros rem Hrem. eapply outcome_ok_bind; [by apply skip_fields_wp|]. intros rem' Hrem'.
  destruct (is_empty rem'); [done|]. eapply outcome_ok_bind; [by apply parse_der_element_wp|].
  intros [[? ?] n''] [_ Hn'']. eapply outcome_ok_weaken; [apply slice_wp; (done || lia)|]. naive_solver.
Qed.

Lemma extract_key_wp spki : is_bytes spki ->
  outcome_ok is_bytes (extract_rsa_public_key_from_spki spki).
Proof.
  intros Hc. unfold extract_rsa_public_key_from_spki.
  eapply outcome_ok_bind; [by apply parse_der_tl_wp|].
  intros [[t s] n] (Ht & Hs & Hn).
  eapply outcome_ok_bind; [apply slice_wp; (done || lia)|]. intros cc [Hcc _].
  eapply outcome_ok_bind; [by apply skip_der_element_wp|]. intros [? r] Hr.
  eapply outcome_ok_bind; [by apply parse_der_element_wp|]. intros [[t' bs] n'] [Hbs _].
  destruct (negb _); [done|]. rewrite is_empty_len.
  destruct (bool_decide_reflect (len bs = 0)); [done|]. pose proof (len_nonneg bs).
  eapply outcome_ok_weaken; [apply slice_wp; (done || lia)|]. naive_solver.
Qed.

Section sig.
Context {SG : Signatures}.

Lemma verify_certificate_verify_wp scheme cert th sg : is_bytes cert ->
  outcome_ok (fun _ => True) (verify_certificate_verify scheme cert th sg).
Proof.
  intros Hc. unfold verify_certificate_verify. eapply outcome_ok_bind; [by apply extract_spki_wp|].
  intros spki Hs.
  assert (forall k alg e, outcome_ok (fun _ => True) (check (sig_verify alg k (signed_content th) sg) e)) as Hchk.
  { intros. unfold check. by destruct (sig_verify _ _ _ _). }
  pose proof (extract_key_wp spki Hs) as Hk.
  unfold extract_ec_point_from_spki.
  repeat (case_match; try done); eapply outcome_ok_bind; eauto.
Qed.

(** On any bytes sent as a certificate, the search for the public key and
    both signature checks end in an answer or an error: no length declared in
    the DER leads an index or slice out of the buffer. *)
Theorem certificate_parsing_safe (cert th data sg : bytes) (scheme : Z) : is_bytes cert ->
  extract_spki_from_cert cert <> Panic /\
  verify_certificate_verify scheme cert th sg <> Panic /\
  verify_server_key_exchange_signature cert scheme data sg <> Panic.
Proof.
  intros Hc. split_and!.
  - intros E. pose proof (extract_spki_wp cert Hc) as H. by rewrite E in H.
  - intros E. pose proof (verify_certificate_verify_wp scheme cert th sg Hc) as H. by rewrite E in H.
  - intros E. pose proof (extract_spki_wp cert Hc) as H. unfold verify_server_key_exchange_signature in E.
    destruct (extract_spki_from_cert cert) as [spki| |]; [|done..]. simpl in *.
    pose proof (extract_key_wp spki H) as Hk. unfold extract_ec_point_from_spki, check in E.
    destruct (extract_rsa_public_key_from_spki spki); [|repeat (case_match; try done)|done].
    simpl in E. repeat (case_match; try done).
Qed.
End sig.

(** ** Well-formed certificates *)

(** The definite lengths of X.690 up to three octets. *)
Definition der_len (n : Z) : bytes :=
  if n <? 128 then [n]
  else if n <? 256 then [0x81; n]
  else if n <? 65536 then 0x82 :: be16 n
  else [0x83; as_u8 (n ≫ 16); as_u8 (n ≫ 8); as_u8 n].
Definition der (tag : Z) (content : bytes) : bytes := tag :: der_len (len content) ++ content.

#[local] Arguments der : simpl never.

Lemma from_be24 v : 0 <= v < 16777216 ->
  Z.lor (Z.lor (as_u8 (v ≫ 16) ≪ 16) (as_u8 (v ≫ 8) ≪ 8)) (as_u8 v) = v.
Proof.
  intros Hv. rewrite <- (from_be32_be32 v) at 4 by width. unfold from_be32.
  replace (as_u8 (v ≫ 24)) with 0; [done|]. rewrite shiftr_div by lia. change (2 ^ 24) with 16777216.
  rewrite Z.div_small by lia. done.
Qed.

Lemma parse_der_tl_der t c rest : len c < 16777216 ->
  parse_der_tl (der t c ++ rest) = Ok (t, 1 + len (der_len (len c)), len c).
Proof.
  intros Hc. unfold der, der_len. pose proof (len_nonneg c).
  destruct (Z.ltb_spec (len c) 128); [|destruct (Z.ltb_spec (len c) 256);
    [|destruct (Z.ltb_spec (len c) 65536)]];
  unfold parse_der_tl, be16; cbn [app is_empty];
  rewrite ?len_cons; set (k := len (c ++ rest)); assert (0 <= k) by apply len_nonneg;
  change (idx (?a :: ?l) 0) with (@Ok TlsError _ a); change (idx (?a :: ?b :: ?l) 1) with (@Ok TlsError _ b);
  change (idx (?a :: ?b :: ?d :: ?l) 2) with (@Ok TlsError _ d);
  change (idx (?a :: ?b :: ?d :: ?e :: ?l) 3) with (@Ok TlsError _ e);
  change (idx (?a :: ?b :: ?d :: ?e :: ?f :: ?l) 4) with (@Ok TlsError _ f);
  cbn [mbind outcome_bind];
  repeat match goal with |- context [?a <? ?b] => destruct (Z.ltb_spec a b); try lia end; try done;
  cbn -[as_u8]; do 2 f_equal.
  all: first [by apply from_be16_be16|by apply from_be24].
Qed.

Lemma parse_der_element_der t c rest : len c < 16777216 ->
  parse_der_element (der t c ++ rest) = Ok (t, c, len (der t c)).
Proof.
  intros Hc. unfold parse_der_element. rewrite parse_der_tl_der by done. cbn [mbind outcome_bind].
  assert (len (der t c) = 1 + len (der_len (len c)) + len c) as Hl.
  { unfold der. rewrite len_cons, len_app. lia. }
  rewrite len_app, Hl. pose proof (len_nonneg rest). pose proof (len_nonneg c).
  pose proof (len_nonneg (der_len (len c))).
  destruct (Z.ltb_spec (1 + len (der_len (len c)) + len c + len rest) (1 + len (der_len (len c)) + len c)); [lia|].
  replace (der t c ++ rest) with ((t :: der_len (len c)) ++ c ++ rest)
    by (unfold der; simpl; by rewrite <- app_assoc).
  rewrite slice_middle; [done|rewrite len_cons; lia..].
Qed.

Lemma skip_der_element_der t c rest : len c < 16777216 ->
  skip_der_element (der t c ++ rest) = Ok (len (der t c), rest).
Proof.
  intros Hc. unfold skip_der_element. rewrite parse_der_element_der by done. cbn [mbind outcome_bind].
  pose proof (len_nonneg (der t c)). pose proof (len_nonneg rest).
  rewrite slice_ok by (rewrite ?len_app; lia). rewrite drop_z_app_len.
  rewrite take_z_all by (rewrite len_app; lia). done.
Qed.

Lemma is_empty_der t c rest : is_empty (der t c ++ rest) = false.
Proof. done. Qed.

(** The parts of an X.509 certificate (RFC 5280, section 4.1). *)
Record X509 : Type := mkX509 {
  x_version : option bytes;
  x_serial : bytes; x_signature : bytes; x_issuer : bytes; x_validity : bytes; x_subject : bytes;
  x_key_algorithm : bytes; x_unused_bits : Z; x_key : bytes;
  x_extensions : bytes; x_outer_signature : bytes;
}.
Definition spki_of (x : X509) : bytes :=
  der 0x30 (der 0x30 (x_key_algorithm x) ++ der 0x03 (x_unused_bits x :: x_key x)).
Definition tbs_of (x : X509) : bytes :=
  from_option (der 0xA0) [] (x_version x) ++
  der 0x02 (x_serial x) ++ der 0x30 (x_signature x) ++ der 0x30 (x_issuer x) ++
  der 0x30 (x_validity x) ++ der 0x30 (x_subject x) ++ spki_of x ++ x_extensions x.
Definition encode_cert (x : X509) : bytes := der 0x30 (der 0x30 (tbs_of x) ++ x_outer_signature x).

Lemma len_der_ge t c : len c <= len (der t c).
Proof. unfold der. rewrite len_cons, len_app. pose proof (len_nonneg (der_len (len c))). lia. Qed.

(** Stepping over one element. *)
Lemma skip_field_der n names t c rest : len c < 16777216 ->
  skip_fields (n :: names) (der t c ++ rest) = skip_fields names rest.
Proof. intros Hc. cbn [skip_fields]. rewrite is_empty_der, skip_der_element_der by done. done. Qed.

(** Reading the header of an element and taking all that follows it. *)
Lemma der_body t c : len c < 16777216 ->
  exists s n, parse_der_tl (der t c) = Ok (t, s, n) /\
    forall E, slice (E := E) (der t c) s (len (der t c)) = Ok c.
Proof.
  intros Hc. rewrite <- (app_nil_r (der t c)), parse_der_tl_der by done. do 2 eexists. split; [done|].
  intros E. rewrite app_nil_r. change (der t c) with ((t :: der_len (len c)) ++ c).
  pose proof (slice_middle (E := E) (t :: der_len (len c)) c []) as Hm. rewrite app_nil_r in Hm.
  apply Hm; rewrite ?len_app, ?len_cons; lia.
Qed.

Lemma extract_spki_encode x : len (encode_cert x) < 16777216 ->
  extract_spki_from_cert (encode_cert x) = Ok (spki_of x).
Proof.
  intros Hl. pose proof (len_der_ge 0x30 (der 0x30 (tbs_of x) ++ x_outer_signature x)) as H1.
  fold (encode_cert x) in H1. pose proof (len_der_ge 0x30 (tbs_of x)) as H2.
  rewrite len_app in H1. pose proof (len_nonneg (x_outer_signature x)).
  assert (len (tbs_of x) < 16777216) as Htbs by lia.
  unfold extract_spki_from_cert, encode_cert.
  destruct (der_body 0x30 (der 0x30 (tbs_of x) ++ x_outer_signature x)) as (s & n & -> & Hs);
    [rewrite len_app; lia|].
  cbn [mbind outcome_bind]. change (negb (48 =? 48)) with false. cbv iota. rewrite Hs.
  cbn [mbind outcome_bind]. rewrite parse_der_element_der by done. cbn [mbind outcome_bind].
  change (negb (48 =? 48)) with false. cbv iota.
  set (fields := der 0x02 (x_serial x) ++ der 0x30 (x_signature x) ++ der 0x30 (x_issuer x) ++
    der 0x30 (x_validity x) ++ der 0x30 (x_subject x) ++ spki_of x ++ x_extensions x).
  assert (tbs_of x = from_option (der 0xA0) [] (x_version x) ++ fields) as Ht by done.
  rewrite Ht in Htbs |- *. rewrite len_app in Htbs.
  pose proof (len_nonneg (from_option (der 160) [] (x_version x))).
  assert ((if is_empty (from_option (der 160) [] (x_version x) ++ fields)
           then Ok (from_option (der 160) [] (x_version x) ++ fields)
           else first ← idx (from_option (der 160) [] (x_version x) ++ fields) 0;
                if first =? 160
                then '(_, rest) ← skip_der_element (from_option (der 160) [] (x_version x) ++ fields); Ok rest
                else Ok (from_option (der 160) [] (x_version x) ++ fields)) =
          (Ok fields : Outcome TlsError bytes)) as ->.
  { destruct (x_version x) as [v|]; [|done]. cbn [from_option] in *.
    pose proof (len_nonneg fields). pose proof (len_der_ge 160 v).
    rewrite skip_der_element_der by lia. done. }
  cbn [mbind outcome_bind]. unfold fields in Htbs |- *. rewrite !len_app in Htbs.
  repeat match goal with H : context [len (der ?t ?c)] |- _ =>
    lazymatch goal with _ : len c <= len (der t c) |- _ => fail | _ =>
      pose proof (len_der_ge t c); pose proof (len_nonneg c) end end.
  pose proof (len_nonneg (x_extensions x)). pose proof (len_nonneg (spki_of x)).
  rewrite !skip_field_der by lia. cbn [skip_fields mbind outcome_bind].
  unfold spki_of in *. set (k := der 0x30 (x_key_algorithm x) ++ der 0x03 (x_unused_bits x :: x_key x)) in *.
  pose proof (len_der_ge 0x30 k). rewrite is_empty_der, parse_der_element_der by lia. cbn [mbind outcome_bind].
  apply (slice_middle []); done.
Qed.

Lemma extract_key_encode x : len (spki_of x) < 16777216 ->
  extract_rsa_public_key_from_spki (spki_of x) = Ok (x_key x).
Proof.
  intros Hl. pose proof (len_der_ge 0x30 (der 0x30 (x_key_algorithm x) ++ der 0x03 (x_unused_bits x :: x_key x))) as H1.
  fold (spki_of x) in H1. rewrite len_app in H1.
  pose proof (len_der_ge 0x30 (x_key_algorithm x)). pose proof (len_der_ge 0x03 (x_unused_bits x :: x_key x)).
  pose proof (len_nonneg (x_key_algorithm x)). pose proof (len_nonneg (x_unused_bits x :: x_key x)).
  unfold extract_rsa_public_key_from_spki, spki_of.
  destruct (der_body 0x30 (der 0x30 (x_key_algorithm x) ++ der 0x03 (x_unused_bits x :: x_key x)))
    as (s & n & -> & Hs); [rewrite len_app; lia|].
  cbn [mbind outcome_bind]. rewrite Hs. cbn [mbind outcome_bind].
  rewrite skip_der_element_der by lia. cbn [mbind outcome_bind].
  rewrite <- (app_nil_r (der 3 _)), parse_der_element_der by lia. cbn [mbind outcome_bind].
  change (negb (3 =? 3)) with false. cbv iota. cbn [is_empty].
  change (x_unused_bits x :: x_key x) with ([x_unused_bits x] ++ x_key x).
  pose proof (slice_middle (E := TlsError) [x_unused_bits x] (x_key x) []) as Hm. rewrite app_nil_r in Hm.
  apply Hm; [done|]. by rewrite len_app.
Qed.

(** The algorithm of a signature scheme of TLS 1.3, for the schemes accepted. *)
Definition scheme_algorithm (scheme : Z) : option SignatureAlgorithm :=
  match scheme with
  | 0x0804 => Some RSA_PSS_2048_8192_SHA256
  | 0x0805 => Some RSA_PSS_2048_8192_SHA384
  | 0x0806 => Some RSA_PSS_2048_8192_SHA512
  | 0x0403 => Some ECDSA_P256_SHA256_ASN1
  | 0x0503 => Some ECDSA_P384_SHA384_ASN1
  | 0x0807 => Some ED25519
  | _ => None
  end.

Section cv.
Context {SG : Signatures}.

(** For every well-formed certificate, a CertificateVerify is accepted
    exactly when its scheme is one of the six supported ones and its signature
    is valid, under the public key of that certificate, for the context string
    of RFC 8446 followed by the transcript hash. *)
Theorem certificate_verify_iff (x : X509) (scheme : Z) (th sg : bytes) :
  len (encode_cert x) < 16777216 ->
  (verify_certificate_verify scheme (encode_cert x) th sg = Ok tt <->
   exists alg, scheme_algorithm scheme = Some alg /\
     sig_verify alg (x_key x) (signed_content th) sg = true).
Proof.
  intros Hl.
  assert (len (spki_of x) < 16777216) as Hk.
  { pose proof (len_der_ge 0x30 (der 0x30 (tbs_of x) ++ x_outer_signature x)) as H1.
    fold (encode_cert x) in H1. pose proof (len_der_ge 0x30 (tbs_of x)) as H2. rewrite len_app in H1.
    unfold tbs_of in H2 at 1. rewrite !len_app in H2.
    repeat match goal with H : context [len ?l] |- _ =>
      lazymatch goal with _ : 0 <= len l |- _ => fail | _ => pose proof (len_nonneg l) end end. lia. }
  unfold verify_certificate_verify. rewrite extract_spki_encode by done. cbn [mbind outcome_bind].
  unfold extract_ec_point_from_spki. rewrite extract_key_encode by done. cbn [mbind outcome_bind].
  destruct (scheme_algorithm scheme) as [alg|] eqn:Ha; split.
  - unfold scheme_algorithm in Ha. intros Hv. exists alg. split; [done|].
    repeat (case_match; try discriminate); simplify_eq; simpl in Hv; unfold check in Hv;
      by case_match.
  - intros (? & ? & Hv). unfold scheme_algorithm in Ha.
    repeat (case_match; try discriminate); simplify_eq; simpl; unfold check; by rewrite Hv.
  - unfold scheme_algorithm in Ha. repeat (case_match; try discriminate).
  - by intros (? & ? & ?).
Qed.
End cv.

(** A TLS 1.2 server may sign its key exchange with rsa_pss_rsae_sha384 or
    rsa_pss_rsae_sha512, which every browser profile offers; the check of that
    signature rejects both whatever the certificate and the signature are,
    though the check of TLS 1.3 knows them. *)
Lemma ske_rejects_offered_schemes `{Signatures} (x : X509) (data sg : bytes) :
  len (encode_cert x) < 16777216 ->
  verify_server_key_exchange_signature (encode_cert x) 0x0805 data sg =
    Err (CryptoError "unsupported ServerKeyExchange signature algorithm: 0x0805") /\
  verify_server_key_exchange_signature (encode_cert x) 0x0806 data sg =
    Err (CryptoError "unsupported ServerKeyExchange signature algorithm: 0x0806").
Proof.
  intros Hl. unfold verify_server_key_exchange_signature. by rewrite extract_spki_encode.
Qed.

(** ** Witnesses *)

Definition demo_cert : X509 :=
  {| x_version := Some [2; 1; 2]; x_serial := [7]; x_signature := [6; 1; 9]; x_issuer := [];
     x_validity := []; x_subject := []; x_key_algorithm := [6; 1; 9]; x_unused_bits := 0;
     x_key := replicate 140 5; x_extensions := []; x_outer_signature := [3; 1; 0] |}.
(** A verifier that accepts the signature equal to the key. *)
Definition demo_sigs : Signatures := {| sig_verify _ k _ s := bool_decide (k = s) |}.

Lemma certificate_verify_iff_witness :
  @verify_certificate_verify demo_sigs 0x0804 (encode_cert demo_cert) [1; 2; 3] (replicate 140 5) = Ok tt.
Proof.
  apply (@certificate_verify_iff demo_sigs); [by vm_compute|].
  exists RSA_PSS_2048_8192_SHA256. split; [done|by vm_compute].
Defined.

Lemma certificate_parsing_safe_witness :
  extract_spki_from_cert [0x30; 0x83; 0xff; 0xff; 0xff; 0x30; 0x82; 0xff] <> Panic.
Proof.
  apply (@certificate_parsing_safe demo_sigs _ [] [] [] 0).
  apply (bool_decide_unpack _); vm_compute; exact I.
Defined.

End certchain_props.
