(* ===== verification/SessionStore.v ===== *)
(** * Session tickets (lktls/src/session_store.rs)

    Tickets, the per-host store and the NewSessionTicket parsers.  An [Instant]
    is its number of nanoseconds; the clock is read from the environment state,
    which every reading advances.  The store's mutex makes its operations atomic,
    so each is one state transformer. *)
From S2P Require Import Prelude TlsError TlsCipher TlsHkdf ServerHello.
Import error tls12_cipher server_hello hkdf.

(** [Instant::now()] and [SystemTime::now()]. *)
Class Clock (R : Type) : Type := {
  instant_now : R -> Z * R;
  system_now : R -> Z * R;
}.
(** [Instant] is monotonic. *)
Class ClockLaws (R : Type) (C : Clock R) : Prop := {
  instant_monotone r : (instant_now r).1 <= (instant_now (instant_now r).2).1;
}.

Module session_store.

Inductive TicketTlsVersion : Type := TicketTls13 | TicketTls12.

Record SessionTicketData : Type := mkTicket {
  ticket : bytes;
  resumption_psk : bytes;
  tls_version : TicketTlsVersion;
  t_cipher_suite : Z;
  lifetime_secs : Z;
  age_add : Z;
  received_at : Z;
  t_alpn : option bytes;
  t_hkdf_algorithm : HkdfAlgorithm;
  t_aead_algorithm : AeadAlgorithm;
  t_master_secret : bytes;
  max_early_data_size : Z;
  peer_transport_parameters : option bytes;
}.

(** [self.received_at.elapsed()] at the instant [now]: it saturates at zero. *)
Definition elapsed (now : Z) (t : SessionTicketData) : Z := Z.max 0 (now - received_at t).

Definition is_expired (now : Z) (t : SessionTicketData) : bool :=
  lifetime_secs t * 1000000000 <? elapsed now t.

Definition obfuscated_ticket_age (now : Z) (t : SessionTicketData) : Z :=
  let age_ms := as_u32 (elapsed now t / 1000000) in
  as_u32 (age_ms + age_add t).

(** ** The store *)

Record InMemorySessionStore : Type := mkStore {
  store_map : gmap bytes (list SessionTicketData);
  max_tickets_per_host : Z;
}.

Definition store_new : InMemorySessionStore := {| store_map := ∅; max_tickets_per_host := 2 |}.
Definition with_max_tickets (n : Z) : InMemorySessionStore :=
  {| store_map := ∅; max_tickets_per_host := n |}.

(** [while queue.len() >= max { queue.pop_front(); }]; [None] when the fuel runs
    out. *)
Fixpoint evict (fuel : nat) (max : Z) (queue : list SessionTicketData)
    : option (list SessionTicketData) :=
  match fuel with
  | O => None
  | S fuel => if max <=? len queue then evict fuel max (tail queue) else Some queue
  end.

Definition store (fuel : nat) (s : InMemorySessionStore) (host : bytes) (t : SessionTicketData)
    : option InMemorySessionStore :=
  let queue := default [] (store_map s !! host) in
  queue ← evict fuel (max_tickets_per_host s) queue;
  Some {| store_map := <[host := queue ++ [t]]> (store_map s);
          max_tickets_per_host := max_tickets_per_host s |}.

Section take.
Context {R : Type} {CK : Clock R}.

(** [while let Some(ticket) = queue.pop_back()], on the queue reversed: the
    ticket found and the reversed rest. *)
Fixpoint take_loop (rev_queue : list SessionTicketData) (r : R)
    : option SessionTicketData * list SessionTicketData * R :=
  match rev_queue with
  | [] => (None, [], r)
  | t :: rest =>
      let '(now, r) := instant_now r in
      if negb (is_expired now t) then (Some t, rest, r) else take_loop rest r
  end.

Definition take (s : InMemorySessionStore) (host : bytes) (r : R)
    : option SessionTicketData * InMemorySessionStore * R :=
  match store_map s !! host with
  | None => (None, s, r)
  | Some queue =>
      let '(found, rest, r) := take_loop (reverse queue) r in
      let m := match found with
               | Some _ => <[host := reverse rest]> (store_map s)
               | None => delete host (store_map s)
               end in
      (found, {| store_map := m; max_tickets_per_host := max_tickets_per_host s |}, r)
  end.

End take.

(** ** NewSessionTicket *)

Definition read_u32 {E} (data : bytes) (pos : Z) : Outcome E Z :=
  a ← idx data pos; b ← idx data (pos + 1); c ← idx data (pos + 2); d ← idx data (pos + 3);
  Ok (from_be32 a b c d).

(** The payload with or without its handshake header. *)
Definition strip_header (payload : bytes) : Outcome string bytes :=
  if 4 <? len payload then
    ty ← idx payload 0;
    if ty =? 0x04 then slice payload 4 (len payload) else Ok payload
  else Ok payload.

(** The extension loop: the early-data size found so far. *)
Fixpoint ticket_ext_loop (fuel : nat) (data : bytes) (ext_end pos size : Z) : Outcome string Z :=
  match fuel with
  | O => Panic
  | S fuel =>
      if pos + 4 <=? ext_end then
        ext_type ← read_u16 data pos;
        ext_len ← read_u16 data (pos + 2);
        let pos := pos + 4 in
        if ext_end <? pos + ext_len then Ok size
        else
          size ← (if (ext_type =? 0x002a) && (4 <=? ext_len) then read_u32 data pos else Ok size);
          ticket_ext_loop fuel data ext_end (pos + ext_len) size
      else Ok size
  end.

Section parse.
Context {R : Type} {CK : Clock R} {P O : Type} {H : Hkdf P O}.

Definition parse_tls13_new_session_ticket (payload resumption_master_secret : bytes)
    (hkdf_algorithm : HkdfAlgorithm) (aead_algorithm : AeadAlgorithm) (cipher_suite : Z)
    (alpn : option bytes) (r : R) : Outcome string (SessionTicketData * R) :=
  data ← strip_header payload;
  if len data <? 12 then Err "NewSessionTicket too short" else
  lifetime ← read_u32 data 0;
  age_add ← read_u32 data 4;
  if len data <=? 8 then Err "NewSessionTicket truncated at nonce length" else
  nonce_len ← idx data 8;
  if len data <? 9 + nonce_len then Err "NewSessionTicket truncated at nonce data" else
  ticket_nonce ← slice data 9 (9 + nonce_len);
  let pos := 9 + nonce_len in
  if len data <? pos + 2 then Err "NewSessionTicket truncated at ticket length" else
  ticket_len ← read_u16 data pos;
  let pos := pos + 2 in
  if len data <? pos + ticket_len then Err "NewSessionTicket truncated at ticket data" else
  ticket ← slice data pos (pos + ticket_len);
  let pos := pos + ticket_len in
  size ← (if pos + 2 <=? len data then
            ext_total ← read_u16 data pos;
            let pos := pos + 2 in
            ticket_ext_loop (S (length data)) data (Z.min (pos + ext_total) (len data)) pos 0
          else Ok 0);
  psk ← match hkdf_expand_label hkdf_algorithm resumption_master_secret "resumption" ticket_nonce
                (hash_len hkdf_algorithm) with
        | Ok p => Ok p
        | Err e => Err ("failed to derive resumption PSK: " +:+ error_display e)
        | Panic => Panic
        end;
  let '(now, r) := instant_now r in
  Ok ({| ticket := ticket; resumption_psk := psk; tls_version := TicketTls13;
         t_cipher_suite := cipher_suite; lifetime_secs := lifetime; age_add := age_add;
         received_at := now; t_alpn := alpn; t_hkdf_algorithm := hkdf_algorithm;
         t_aead_algorithm := aead_algorithm; t_master_secret := [];
         max_early_data_size := size; peer_transport_parameters := None |}, r).

Definition tls12_ticket_algorithms (negotiated_suite : option Tls12CipherSuite)
    : Z * HkdfAlgorithm * AeadAlgorithm :=
  match negotiated_suite with
  | Some suite =>
      let hkdf := match prf_algorithm suite with
                  | PrfSha256 => HkdfSha256
                  | PrfSha384 => HkdfSha384
                  end in
      let aead :=
        if is_aead suite then
          if enc_key_len suite =? 32 then
            match suite with
            | EcdheEcdsaChacha20Poly1305 | EcdheRsaChacha20Poly1305 => Chacha20Poly1305
            | _ => Aes256Gcm
            end
          else Aes128Gcm
        else Aes128Gcm in
      (code_point suite, hkdf, aead)
  | None => (0, HkdfSha256, Aes128Gcm)
  end.

Definition parse_tls12_new_session_ticket (payload master_secret : bytes) (alpn : option bytes)
    (negotiated_suite : option Tls12CipherSuite) (r : R) : Outcome string (SessionTicketData * R) :=
  data ← strip_header payload;
  if len data <? 6 then Err "TLS 1.2 NewSessionTicket too short" else
  lifetime_hint ← read_u32 data 0;
  ticket_len ← read_u16 data 4;
  if len data <? 6 + ticket_len then Err "TLS 1.2 NewSessionTicket truncated" else
  ticket ← slice data 6 (6 + ticket_len);
  let '(suite_code, hkdf_alg, aead_alg) := tls12_ticket_algorithms negotiated_suite in
  let '(now, r) := instant_now r in
  Ok ({| ticket := ticket; resumption_psk := []; tls_version := TicketTls12;
         t_cipher_suite := suite_code; lifetime_secs := lifetime_hint; age_add := 0;
         received_at := now; t_alpn := alpn; t_hkdf_algorithm := hkdf_alg;
         t_aead_algorithm := aead_alg; t_master_secret := master_secret;
         max_early_data_size := 0; peer_transport_parameters := None |}, r).

End parse.
End session_store.
