(* ===== verification/SessionStoreProps.v ===== *)
(** * The ticket store and the ticket parser

    The store gives out each ticket at most once, the newest valid one first,
    keeps at most its bound per host and ends for every positive bound; the
    parser inverts the encoding of RFC 8446. *)
From S2P Require Import Prelude TlsError TlsCipher TlsHkdf ServerHello ServerHelloProps SessionStore.
Import error hkdf server_hello sh_props session_store.

Module session_store_props.

(** ** Eviction *)

Lemma evict_enough max : 0 < max -> forall fuel q, (length q < fuel)%nat ->
  evict fuel max q = Some (drop (length q + 1 - Z.to_nat max) q).
Proof.
  intros Hm. induction fuel as [|fuel IH]; intros q Hf; [lia|]. simpl.
  destruct (Z.leb_spec max (len q)).
  - destruct q as [|t q]; [unfold len in *; simpl in *; lia|]. cbn [tail]. rewrite IH by (simpl in Hf; lia).
    unfold len in *. cbn [length] in *.
    replace (S (length q) + 1 - Z.to_nat max)%nat with (S (length q + 1 - Z.to_nat max)) by lia. done.
  - unfold len in *. by replace (length q + 1 - Z.to_nat max)%nat with 0%nat by lia.
Qed.

(** With a bound of zero the eviction loop never ends: [pop_front] on an empty
    queue changes nothing and [0 >= 0] stays true. *)
Lemma store_zero_diverges host t : forall fuel, store fuel (with_max_tickets 0) host t = None.
Proof.
  intros fuel. unfold store. simpl. rewrite lookup_empty. simpl.
  assert (evict fuel 0 [] = None) as ->; [|done].
  induction fuel as [|fuel IH]; [done|]. simpl. exact IH.
Qed.

Definition queue_of (s : InMemorySessionStore) (host : bytes) : list SessionTicketData :=
  default [] (store_map s !! host).

(** Storing a ticket ends for every positive bound, and its effect is exact:
    the queue of the host becomes its newest tickets followed by the new one,
    within the bound, and no other host is touched. *)
Theorem store_keeps_newest (s : InMemorySessionStore) (host : bytes) (t : SessionTicketData) (fuel : nat) :
  0 < max_tickets_per_host s -> (length (queue_of s host) < fuel)%nat ->
  exists s', store fuel s host t = Some s' /\
    max_tickets_per_host s' = max_tickets_per_host s /\
    queue_of s' host =
      drop (length (queue_of s host) + 1 - Z.to_nat (max_tickets_per_host s)) (queue_of s host) ++ [t] /\
    (len (queue_of s host) <= max_tickets_per_host s -> len (queue_of s' host) <= max_tickets_per_host s) /\
    forall h, h <> host -> queue_of s' h = queue_of s h.
Proof.
  intros Hm Hf. unfold store. fold (queue_of s host).
  rewrite evict_enough by done. simpl. eexists. split; [done|]. simpl. split_and!; [done|..].
  - unfold queue_of at 1. simpl. by rewrite lookup_insert_eq.
  - intros Hq. unfold queue_of at 1. simpl. rewrite lookup_insert_eq. simpl.
    rewrite len_app. unfold len in *. rewrite length_drop. cbn [length]. lia.
  - intros h Hh. unfold queue_of. simpl. by rewrite lookup_insert_ne.
Qed.

(** ** Taking *)

Section take.
Context {R : Type} {CK : Clock R} {CL : ClockLaws R CK}.

(** Expiry is permanent. *)
Lemma is_expired_later a b t : a <= b -> is_expired a t = true -> is_expired b t = true.
Proof. unfold is_expired, elapsed. intros Hab H. apply Z.ltb_lt in H. apply Z.ltb_lt. lia. Qed.

(** The loop splits the queue at the newest ticket that is still valid. *)
Lemma take_loop_spec q : forall lo r found rest r', lo <= (instant_now r).1 ->
  take_loop q r = (found, rest, r') ->
  exists newer now, lo <= now /\
    q = newer ++ match found with Some t => t :: rest | None => rest end /\
    Forall (fun t => is_expired now t = true) newer /\
    match found with Some t => is_expired now t = false | None => rest = [] end.
Proof.
  induction q as [|t q IH]; intros lo r found rest r' Hlo H; simpl in H.
  { simplify_eq. exists [], lo. split_and!; auto. lia. }
  pose proof (instant_monotone r) as Hmono.
  destruct (instant_now r) as [now r1] eqn:Hn. simpl in *.
  destruct (is_expired now t) eqn:He; simpl in H.
  - destruct (IH now _ _ _ _ Hmono H) as (newer & now' & Hle & -> & Hf & Hx).
    exists (t :: newer), now'. split_and!; [lia|done| |done].
    constructor; [by eapply is_expired_later|done].
  - simplify_eq. by exists [], now.
Qed.

(** Taking a ticket returns the newest one of the host that has not expired
    when it is read, with every newer ticket expired by then; it and the newer
    ones leave the store and the older ones stay, in order.  When nothing is
    returned every ticket of the host has expired and the host is forgotten.
    Other hosts are not touched. *)
Lemma take_spec (s s' : InMemorySessionStore) (host : bytes) (r r' : R) found :
  take s host r = (found, s', r') ->
  (exists newer now, (instant_now r).1 <= now /\
    Forall (fun t => is_expired now t = true) newer /\
    match found with
    | Some t => queue_of s host = queue_of s' host ++ t :: newer /\ is_expired now t = false
    | None => queue_of s host = newer /\ store_map s' !! host = None
    end) /\
  (forall h, h <> host -> store_map s' !! h = store_map s !! h) /\
  max_tickets_per_host s' = max_tickets_per_host s.
Proof.
  unfold take, queue_of. destruct (store_map s !! host) as [q|] eqn:Hq.
  2:{ intros [= <- <- <-]. split_and!; [|done..]. exists [], (instant_now r).1. split_and!; auto. lia. }
  destruct (take_loop (reverse q) r) as [[f rest] r1] eqn:Hl.
  apply (take_loop_spec _ (instant_now r).1) in Hl as (newer & now & Hle & Hrev & Hf & Hx); [|lia].
  apply (f_equal reverse) in Hrev. rewrite reverse_involutive, reverse_app in Hrev.
  assert (Forall (fun t => is_expired now t = true) (reverse newer)) as Hf'.
  { by apply Forall_reverse. }
  intros [= <- <- <-]. split_and!; [|..].
  - exists (reverse newer), now. split_and!; [done|done|]. destruct f as [t|]; simpl.
    + rewrite lookup_insert_eq. simpl. split; [|done].
      by rewrite Hrev, reverse_cons, <- app_assoc.
    + rewrite lookup_delete_eq, Hrev, Hx. by rewrite reverse_nil.
  - intros h Hh. destruct f; simpl; [by rewrite lookup_insert_ne|by rewrite lookup_delete_ne].
  - done.
Qed.

(** A run of stores and takes: the tickets given out, with their hosts. *)
Inductive StoreOp : Type := OStore (host : bytes) (t : SessionTicketData) | OTake (host : bytes).

Fixpoint run (fuel : nat) (s : InMemorySessionStore) (ops : list StoreOp) (r : R)
    : option (list (bytes * SessionTicketData) * InMemorySessionStore) :=
  match ops with
  | [] => Some ([], s)
  | OStore h t :: ops => s ← store fuel s h t; run fuel s ops r
  | OTake h :: ops =>
      let '(found, s, r) := take s h r in
      '(taken, s) ← run fuel s ops r;
      Some (((fun t => (h, t)) <$> option_list found) ++ taken, s)
  end.

Definition of_host (h : bytes) (l : list (bytes * SessionTicketData)) : list SessionTicketData :=
  omap (fun '(h', t) => if decide (h' = h) then Some t else None) l.
Definition stored_for (h : bytes) (ops : list StoreOp) : list SessionTicketData :=
  omap (fun op => match op with
                  | OStore h' t => if decide (h' = h) then Some t else None
                  | OTake _ => None
                  end) ops.

Lemma evict_suffix fuel max : forall q q', evict fuel max q = Some q' -> q' ⊆+ q.
Proof.
  induction fuel as [|fuel IH]; intros q q' H; simpl in H; [done|].
  destruct (max <=? len q); [|by simplify_eq]. apply IH in H. etrans; [done|].
  destruct q; simpl; [done|]. by apply submseteq_cons.
Qed.

(** C36. Tickets are single use and never cross hosts: over any sequence of
    stores and takes, the tickets given out for a host together with those still
    stored for it are among those it started with and those stored for it, each
    as often as it was put in. *)
Theorem tickets_single_use (fuel : nat) (h : bytes) : forall (ops : list StoreOp) (s s' : InMemorySessionStore) (r : R) taken,
  run fuel s ops r = Some (taken, s') ->
  of_host h taken ++ queue_of s' h ⊆+ queue_of s h ++ stored_for h ops.
Proof.
  induction ops as [|[h' t|h'] ops IH]; intros s s' r taken Hrun; simpl in Hrun.
  - simplify_eq. by rewrite app_nil_r.
  - destruct (store fuel s h' t) as [s1|] eqn:Hs; [|done]. simpl in Hrun.
    etrans; [by eapply IH|]. unfold store in Hs.
    destruct (evict fuel (max_tickets_per_host s) (default [] (store_map s !! h'))) as [q|] eqn:He; [|done].
    simplify_eq/=. apply evict_suffix in He. unfold queue_of; simpl.
    destruct (decide (h' = h)) as [->|Hne].
    + rewrite lookup_insert_eq. simpl. rewrite <- app_assoc. by apply submseteq_app.
    + by rewrite lookup_insert_ne.
  - destruct (take s h' r) as [[found s1] r1] eqn:Ht.
    destruct (run fuel s1 ops r1) as [[taken1 s2]|] eqn:Hr; [|done]. simpl in Hrun. simplify_eq/=.
    apply take_spec in Ht as ((newer & now & _ & _ & Hq) & Hother & _).
    specialize (IH _ _ _ _ Hr). unfold of_host in *. rewrite omap_app.
    destruct (decide (h' = h)) as [->|Hne].
    + destruct found as [t|]; simpl.
      * destruct Hq as [-> _]. rewrite decide_True by done. simpl.
        etrans; [by apply submseteq_skip, IH|]. rewrite (Permutation_middle (queue_of s1 h)).
        rewrite <- !app_assoc. apply submseteq_app; [done|]. simpl. apply submseteq_skip.
        apply submseteq_inserts_l. done.
      * destruct Hq as [-> Hn]. etrans; [done|]. unfold queue_of. rewrite Hn. simpl.
        by apply submseteq_inserts_l.
    + assert (queue_of s1 h = queue_of s h) as <- by (unfold queue_of; by rewrite Hother).
      destruct found as [t|]; simpl; [by rewrite decide_False|done].
Qed.

End take.

(** ** The parser of TLS 1.3 tickets *)

Definition encode_ticket (lifetime add : Z) (nonce tk : bytes) (l : list (Z * bytes)) : bytes :=
  be32 lifetime ++ be32 add ++ [len nonce] ++ nonce ++ be16 (len tk) ++ tk ++
  be16 (len (encode_exts l)) ++ encode_exts l.

(** The last early_data extension of at least four bytes decides. *)
Definition at_u32 (d : bytes) (pos : Z) : Z :=
  from_be32 (default 0 (d !! Z.to_nat pos)) (default 0 (d !! Z.to_nat (pos + 1)))
            (default 0 (d !! Z.to_nat (pos + 2))) (default 0 (d !! Z.to_nat (pos + 3))).
Definition early_data_size (l : list (Z * bytes)) (size : Z) : Z :=
  foldl (fun n '(t, d) => if (t =? 0x002a) && (4 <=? len d) then at_u32 d 0 else n) size l.

Lemma read_u32_default {E} data pos : 0 <= pos -> pos + 4 <= len data ->
  read_u32 (E := E) data pos = Ok (at_u32 data pos).
Proof. intros. unfold read_u32. by rewrite !idx_default by lia. Qed.

Lemma at_u32_after pre l i : 0 <= i -> at_u32 (pre ++ l) (len pre + i) = at_u32 l i.
Proof. intros Hi. unfold at_u32. by rewrite <- !Z.add_assoc, !lookup_after by lia. Qed.
Lemma at_u32_head v post : u32 v -> at_u32 (be32 v ++ post) 0 = v.
Proof. apply from_be32_be32. Qed.
Lemma at_u32_inner d post : 4 <= len d -> at_u32 (d ++ post) 0 = at_u32 d 0.
Proof. intros Hd. unfold at_u32, len in *. by rewrite !lookup_app_l by lia. Qed.

Lemma ticket_ext_loop_encode post : forall l pre size fuel,
  Forall ext_sized l -> (length (encode_exts l) < fuel)%nat ->
  ticket_ext_loop fuel (pre ++ encode_exts l ++ post) (len pre + len (encode_exts l)) (len pre) size =
    Ok (early_data_size l size).
Proof.
  induction l as [|[t d] l IH]; intros pre size fuel Hl Hf.
  { destruct fuel; [simpl in Hf; lia|]. simpl. change (len (encode_exts [])) with 0.
    destruct (Z.leb_spec (len pre + 4) (len pre + 0)); [lia|]. done. }
  apply Forall_cons in Hl as [(Ht & Hd & Hdb) Hl]. simpl in Ht, Hd, Hdb.
  destruct fuel as [|fuel]; [lia|].
  destruct (encoded_head pre t d l post Ht Hd) as (Hdata & Hlp & H1 & H2 & _).
  pose proof (len_encode_exts_cons t d l) as Hlen.
  pose proof (len_nonneg pre). pose proof (len_nonneg d). pose proof (len_nonneg (encode_exts l)).
  pose proof (len_nonneg post). rewrite Hlen. cbn [ticket_ext_loop].
  destruct (Z.leb_spec (len pre + 4) (len pre + (4 + len d + len (encode_exts l)))); [|lia].
  set (data := pre ++ encode_exts ((t, d) :: l) ++ post) in *.
  assert (len data = len pre + (4 + len d + len (encode_exts l)) + len post) as Hdl
    by (unfold data; rewrite !len_app, Hlen; lia).
  rewrite (read_u16_at data (len pre)), (read_u16_at data (len pre + 2)) by lia. rewrite H1, H2. cbn [mbind outcome_bind].
  destruct (Z.ltb_spec (len pre + (4 + len d + len (encode_exts l))) (len pre + 4 + len d)); [lia|].
  assert ((if (t =? 42) && (4 <=? len d)
           then read_u32 data (len pre + 4) else Ok size) =
          (Ok (early_data_size [(t, d)] size) : Outcome string Z)) as ->.
  { simpl. destruct ((t =? 42) && (4 <=? len d)) eqn:E; [|done]. apply andb_prop in E as [_ E].
    apply Z.leb_le in E. rewrite read_u32_default by lia. unfold data.
    rewrite at_u32_after by lia. rewrite encode_exts_cons, <- !app_assoc.
    change 4 with (len (be16 t ++ be16 (len d)) + 0) at 1. rewrite app_assoc, at_u32_after by lia.
    by rewrite at_u32_inner. }
  cbn [mbind outcome_bind]. specialize (IH (pre ++ be16 t ++ be16 (len d) ++ d)).
  rewrite <- Hdata, Hlp in IH.
  replace (len pre + (4 + len d + len (encode_exts l))) with
    (len pre + 4 + len d + len (encode_exts l)) by lia.
  rewrite IH; [done|done|]. unfold len in Hlen. lia.
Qed.

(** Every read of the parser on an encoded ticket. *)
Lemma encode_ticket_fields (lifetime add : Z) (nonce tk : bytes) (l : list (Z * bytes)) :
  u32 lifetime -> u32 add -> u16 (len tk) -> Forall ext_sized l -> u16 (len (encode_exts l)) ->
  let data := encode_ticket lifetime add nonce tk l in
  let n := len nonce in let m := len tk in
  len data = 13 + n + m + len (encode_exts l) /\
  read_u32 (E := string) data 0 = Ok lifetime /\ read_u32 (E := string) data 4 = Ok add /\
  idx (E := string) data 8 = Ok n /\ slice (E := string) data 9 (9 + n) = Ok nonce /\
  read_u16 (E := string) data (9 + n) = Ok m /\
  slice (E := string) data (9 + n + 2) (9 + n + 2 + m) = Ok tk /\
  read_u16 (E := string) data (9 + n + 2 + m) = Ok (len (encode_exts l)) /\
  ticket_ext_loop (S (length data)) data
    (Z.min (9 + n + 2 + m + 2 + len (encode_exts l)) (len data)) (9 + n + 2 + m + 2) 0 =
    Ok (early_data_size l 0).
Proof.
  intros Hlt Hadd Htk Hl Hel data n m.
  pose proof (len_nonneg nonce). pose proof (len_nonneg tk). pose proof (len_nonneg (encode_exts l)).
  set (p9 := be32 lifetime ++ be32 add ++ [n]).
  assert (data = p9 ++ nonce ++ be16 m ++ tk ++ be16 (len (encode_exts l)) ++ encode_exts l) as E1
    by (unfold data, encode_ticket, p9; by rewrite <- !app_assoc).
  assert (len p9 = 9) as L1 by done.
  assert (data = ((p9 ++ nonce ++ be16 m) ++ tk ++ be16 (len (encode_exts l)) ++ encode_exts l)) as E2
    by (rewrite E1; by rewrite <- !app_assoc).
  set (pre := p9 ++ nonce ++ be16 m ++ tk).
  assert (data = pre ++ be16 (len (encode_exts l)) ++ encode_exts l) as E3
    by (rewrite E1; unfold pre; by rewrite <- !app_assoc).
  assert (len pre = 11 + n + m) as Lp by (unfold pre; rewrite !len_app, len_be16; lia).
  assert (len data = 13 + n + m + len (encode_exts l)) as Hlen
    by (rewrite E3, !len_app, len_be16; lia).
  split_and!; [done|..].
  - rewrite read_u32_default by lia. unfold data, encode_ticket. by rewrite at_u32_head.
  - rewrite read_u32_default by lia. unfold data, encode_ticket.
    change 4 with (len (be32 lifetime) + 0). rewrite at_u32_after by lia. by rewrite at_u32_head.
  - done.
  - rewrite E1. by apply slice_middle.
  - rewrite read_u16_at by lia. replace (9 + n) with (len (p9 ++ nonce)) by (rewrite len_app; lia).
    rewrite E1, app_assoc. by rewrite at_u16_app.
  - rewrite E2. apply slice_middle; rewrite !len_app, len_be16; lia.
  - rewrite read_u16_at by lia. replace (9 + n + 2 + m) with (len pre) by lia.
    rewrite E3. by rewrite at_u16_app.
  - pose proof (ticket_ext_loop_encode [] l (pre ++ be16 (len (encode_exts l))) 0 (S (length data)) Hl) as Hloop.
    rewrite app_nil_r, <- app_assoc, <- E3, len_app, Lp, len_be16 in Hloop.
    rewrite Z.min_l by lia. replace (9 + n + 2 + m + 2) with (11 + n + m + 2) by lia.
    apply Hloop. unfold len in *. lia.
Qed.

Section ticket.
Context {R : Type} {CK : Clock R} {P O : Type} {H : Hkdf P O} {L : HkdfLaws P O H}.

(** Every TLS 1.3 NewSessionTicket in the encoding of RFC 8446 is accepted
    and its fields are recovered: the lifetime, the age offset, the ticket and
    the early-data size; the PSK stored with it is the expansion of the
    resumption master secret with the ticket's nonce, of the length of the hash. *)
Theorem ticket_parse_encode (lifetime add : Z) (nonce tk rms : bytes) (l : list (Z * bytes))
    (alg : HkdfAlgorithm) (aead : AeadAlgorithm) (suite : Z) (alpn : option bytes) (a b c : Z) (r : R) :
  u32 lifetime -> u32 add -> len nonce <= 60 -> u16 (len tk) -> Forall ext_sized l ->
  u16 (len (encode_exts l)) -> len rms <= 64 ->
  exists psk, hkdf_expand_label alg rms "resumption" nonce (hash_len alg) = Ok psk /\
    len psk = hash_len alg /\
    parse_tls13_new_session_ticket (0x04 :: a :: b :: c :: encode_ticket lifetime add nonce tk l)
      rms alg aead suite alpn r =
    Ok ({| ticket := tk; resumption_psk := psk; tls_version := TicketTls13; t_cipher_suite := suite;
           lifetime_secs := lifetime; age_add := add; received_at := (instant_now r).1;
           t_alpn := alpn; t_hkdf_algorithm := alg; t_aead_algorithm := aead; t_master_secret := [];
           max_early_data_size := early_data_size l 0; peer_transport_parameters := None |},
        (instant_now r).2).
Proof.
  intros Hlt Hadd Hn Htk Hl Hel Hrms.
  destruct (hkdf_expand_label_ok alg rms "resumption" nonce (hash_len alg)) as (psk & Hpsk & Hpl & _);
    [done|simpl; lia|pose proof (hash_len_range alg); lia|].
  exists psk. split_and!; [done..|].
  destruct (encode_ticket_fields lifetime add nonce tk l)
    as (Hlen & H1 & H2 & H3 & H4 & H5 & H6 & H7 & H8); [done..|].
  set (data := encode_ticket lifetime add nonce tk l) in *.
  pose proof (len_nonneg nonce). pose proof (len_nonneg tk). pose proof (len_nonneg (encode_exts l)).
  unfold parse_tls13_new_session_ticket, strip_header. rewrite !len_cons.
  destruct (Z.ltb_spec 4 (1 + (1 + (1 + (1 + len data))))); [|lia].
  change (idx (4 :: _) 0) with (@Ok string _ 4). cbn [mbind outcome_bind]. change (4 =? 4) with true. cbv iota.
  rewrite slice_ok by (rewrite ?len_cons; lia). change (drop_z 4 _) with data.
  rewrite take_z_all by lia. cbn [mbind outcome_bind].
  destruct (Z.ltb_spec (len data) 12); [lia|]. rewrite H1, H2. cbn [mbind outcome_bind].
  destruct (Z.leb_spec (len data) 8); [lia|]. rewrite H3. cbn [mbind outcome_bind].
  destruct (Z.ltb_spec (len data) (9 + len nonce)); [lia|]. rewrite H4. cbn [mbind outcome_bind].
  destruct (Z.ltb_spec (len data) (9 + len nonce + 2)); [lia|]. rewrite H5. cbn [mbind outcome_bind].
  destruct (Z.ltb_spec (len data) (9 + len nonce + 2 + len tk)); [lia|]. rewrite H6. cbn [mbind outcome_bind].
  destruct (Z.leb_spec (9 + len nonce + 2 + len tk + 2) (len data)); [|lia].
  rewrite H7. cbn [mbind outcome_bind]. rewrite H8. cbn [mbind outcome_bind]. rewrite Hpsk.
  cbn [mbind outcome_bind]. by destruct (instant_now r).
Qed.
End ticket.

(** ** Witnesses *)

(** A clock that ticks one second per reading. *)
Definition tick : Clock Z := {| instant_now r := (r, r + 1000000000); system_now r := (r, r) |}.
Lemma tick_laws : ClockLaws Z tick.
Proof. constructor. intros r. simpl. lia. Qed.

Definition demo_ticket (n lifetime : Z) : SessionTicketData :=
  mkTicket [n] [] TicketTls13 0x1301 lifetime 0 0 None HkdfSha256 Aes128Gcm [] 0 None.

Lemma store_keeps_newest_witness :
  exists s', store 2 (with_max_tickets 1) [104] (demo_ticket 1 9) = Some s' /\
    queue_of s' [104] = [demo_ticket 1 9].
Proof.
  destruct (store_keeps_newest (with_max_tickets 1) [104] (demo_ticket 1 9) 2)
    as (s' & H1 & _ & H2 & _); [done|unfold queue_of; simpl; rewrite lookup_empty; simpl; lia|].
  exists s'. split; [done|]. rewrite H2. unfold queue_of. simpl. by rewrite lookup_empty.
Defined.

(** Two tickets stored, the newer one taken, then the older one has expired. *)
Definition demo_ops : list StoreOp :=
  [OStore [104] (demo_ticket 1 0); OStore [104] (demo_ticket 2 9); OTake [104]; OTake [104]].
Lemma tickets_single_use_witness :
  [demo_ticket 2 9] ⊆+ [demo_ticket 1 0; demo_ticket 2 9].
Proof.
  destruct (run (CK := tick) 9 store_new demo_ops 1000000000) as [[taken s']|] eqn:E; [|by vm_compute in E].
  pose proof (tickets_single_use (CL := tick_laws) 9 [104] _ _ _ _ _ E) as H.
  vm_compute in E. injection E as <- <-. exact H.
Defined.

Lemma ticket_parse_encode_witness :
  exists t, parse_tls13_new_session_ticket (CK := tick) (H := toy_hkdf)
    (0x04 :: 0 :: 0 :: 33 :: encode_ticket 7200 5 [1] [7; 8] [(0x2a, [0; 0; 64; 0])])
    (replicate 32 9) HkdfSha256 Aes128Gcm 0x1301 None 0 = Ok (t, 1000000000) /\
    ticket t = [7; 8] /\ max_early_data_size t = 16384.
Proof.
  destruct (ticket_parse_encode (CK := tick) (L := toy_hkdf_laws) 7200 5 [1] [7; 8] (replicate 32 9)
    [(0x2a, [0; 0; 64; 0])] HkdfSha256 Aes128Gcm 0x1301 None 0 0 33 0) as (psk & _ & _ & ->);
    try (apply (bool_decide_unpack _); vm_compute; exact I); try done.
  by eexists.
Defined.
End session_store_props.
