(* ===== verification/AltSvc.v ===== *)
(** * Alt-Svc cache and broken-QUIC tracker (lkrequest/src/alt_svc.rs)

    What a session learns about HTTP/3: the Alt-Svc advertisements of each
    origin on each route, the last validation, and the QUIC failures in their
    cooldown.  Every table is guarded by a lock, so an operation is one state
    transformer.  Instants and durations are nanoseconds; each [elapsed()] is a
    reading of the clock.  The order in which a [HashMap] is iterated is
    unspecified: it is a parameter. *)
From S2P Require Import Prelude Text LkError Route SessionStore.
Import proxy route protocol.

(** [HashMap::iter]. *)
Class HashOrder : Type :=
  hash_iter : forall {K : Type} {HE : EqDecision K} {HC : Countable K} {A : Type}, gmap K A -> list (K * A).
Class HashOrderLaws (HO : HashOrder) : Prop :=
  hash_iter_perm : forall {K} {HE : EqDecision K} {HC : Countable K} {A} (m : gmap K A),
    hash_iter m ≡ₚ map_to_list m.

(** [Iterator::min_by_key]: the first of the least elements. *)
Fixpoint min_by_key {A} (f : A -> Z) (l : list A) : option A :=
  match l with
  | [] => None
  | a :: l =>
      match min_by_key f l with
      | Some b => Some (if f b <? f a then b else a)
      | None => Some a
      end
  end.

Module alt_svc.

Definition ALT_SVC_MAX_AGE_CEILING : Z := secs (7 * 24 * 60 * 60).

(** ** Origins *)

Inductive Scheme : Type := Http | Https.

Record Origin : Type := mkOrigin {
  o_scheme : Scheme;
  o_host : bytes;
  o_port : Z;
}.

Record RouteOriginKey : Type := mkKey {
  k_route : RouteKey;
  k_origin : Origin;
}.

#[export] Instance Scheme_eq_dec : EqDecision Scheme.
Proof. solve_decision. Defined.
#[export] Instance Origin_eq_dec : EqDecision Origin.
Proof. solve_decision. Defined.
#[export] Instance RouteOriginKey_eq_dec : EqDecision RouteOriginKey.
Proof. solve_decision. Defined.

Definition scheme_code (s : Scheme) : bool := match s with Http => false | Https => true end.
Definition scheme_of_code (b : bool) : Scheme := if b then Https else Http.

#[export] Instance Origin_countable : Countable Origin.
Proof.
  refine (inj_countable' (fun o => (scheme_code (o_scheme o), o_host o, o_port o))
            (fun '(s, h, p) => mkOrigin (scheme_of_code s) h p) _).
  by intros [[] h p].
Defined.
#[export] Instance RouteOriginKey_countable : Countable RouteOriginKey.
Proof.
  refine (inj_countable' (fun k => (k_route k, k_origin k)) (fun '(r, o) => mkKey r o) _).
  by intros [r o].
Defined.

Definition normalize_host (host : bytes) : bytes := to_ascii_lowercase (trim_matches 46 (trim host)).

Definition new_origin (s : Scheme) (host : bytes) (port : Z) : Origin :=
  mkOrigin s (normalize_host host) port.

(** ** The header parser *)

Record AltSvcEntry : Type := mkEntry {
  e_protocol : bytes;
  e_host : option bytes;
  e_port : Z;
  max_age : Z;
  stored_at : Z;
}.

(** The pieces between unquoted delimiters. *)
Definition push_head (b : Z) (parts : list bytes) : list bytes :=
  match parts with
  | [] => [[b]]
  | p :: ps => (b :: p) :: ps
  end.
Fixpoint split_raw (delimiter : Z) (in_quotes escape : bool) (s : bytes) : list bytes :=
  match s with
  | [] => [[]]
  | b :: s =>
      if escape then push_head b (split_raw delimiter in_quotes false s)
      else if (b =? 92) && in_quotes then push_head b (split_raw delimiter in_quotes true s)
      else if b =? 34 then push_head b (split_raw delimiter (negb in_quotes) false s)
      else if (b =? delimiter) && negb in_quotes then [] :: split_raw delimiter in_quotes false s
      else push_head b (split_raw delimiter in_quotes false s)
  end.
Definition split_unquoted (input : bytes) (delimiter : Z) : list bytes :=
  filter (fun p => negb (is_empty p)) (trim <$> split_raw delimiter false false input).

Fixpoint unescape (s : bytes) : bytes :=
  match s with
  | [] => []
  | b :: s =>
      if b =? 92 then match s with [] => [] | c :: s => c :: unescape s end
      else b :: unescape s
  end.
Definition unquote_owned (value : bytes) : option bytes :=
  inner ← strip_prefix [34] value;
  inner ← strip_suffix [34] inner;
  Some (if contains [92] inner then unescape inner else inner).

Definition parse_max_age (param : bytes) : option Z :=
  '(name, value) ← split_once 61 param;
  if negb (eq_ignore_ascii_case (trim name) (ascii_bytes "ma")) then None
  else
    let value := trim value in
    let seconds_str := default value (unquote_owned value) in
    seconds ← parse_uint 18446744073709551615 seconds_str;
    Some (Z.min (secs seconds) ALT_SVC_MAX_AGE_CEILING).

Definition parse_alt_authority (authority : bytes) : option (option bytes * Z) :=
  if is_empty authority then None
  else match strip_prefix [58] authority with
       | Some port => port ← parse_uint 65535 port; Some (None, port)
       | None =>
           '(host, port) ← rsplit_once 58 authority;
           let host := trim host in
           let host := default host (strip_prefix [91] host) in
           let host := default host (strip_suffix [93] host) in
           let host := normalize_host host in
           port ← parse_uint 65535 port;
           Some (Some host, port)
       end.

(** [Iterator::find_map]. *)
Fixpoint find_map {A B} (f : A -> option B) (l : list A) : option B :=
  match l with
  | [] => None
  | a :: l => match f a with Some b => Some b | None => find_map f l end
  end.

Definition parse_alt_svc_item (item : bytes) (now : Z) : option AltSvcEntry :=
  let parts := split_unquoted item 59 in
  first ← head parts;
  '(protocol_raw, authority_raw) ← split_once 61 first;
  let protocol := to_ascii_lowercase (trim protocol_raw) in
  let authority_raw := trim authority_raw in
  let authority := default authority_raw (unquote_owned authority_raw) in
  '(host, port) ← parse_alt_authority authority;
  let age := default (secs (24 * 60 * 60)) (find_map parse_max_age (drop 1 parts)) in
  Some {| e_protocol := protocol; e_host := host; e_port := port; max_age := age; stored_at := now |}.

Definition select_h3 (entries : list AltSvcEntry) : option AltSvcEntry :=
  match list_find (fun e => bool_decide (e_protocol e = ascii_bytes "h3")) entries with
  | Some (_, e) => Some e
  | None => snd <$> list_find (fun e => starts_with (ascii_bytes "h3-") (e_protocol e)) entries
  end.

(** ** The cache *)

Record AltSvcCache : Type := mkCache {
  entries : gmap RouteOriginKey (list AltSvcEntry);
  validated : gmap RouteOriginKey Z;
}.

Definition cache_new : AltSvcCache := mkCache ∅ ∅.

(** [stored_at.elapsed()] saturates at zero. *)
Definition elapsed_since (now at_ : Z) : Z := Z.max 0 (now - at_).

Section clock.
Context {R : Type} {CK : Clock R}.

Definition entry_is_expired (e : AltSvcEntry) (r : R) : bool * R :=
  let '(now, r) := instant_now r in
  (max_age e <? elapsed_since now (stored_at e), r).

Fixpoint retain_fresh (l : list AltSvcEntry) (r : R) : list AltSvcEntry * R :=
  match l with
  | [] => ([], r)
  | e :: l =>
      let '(expired, r) := entry_is_expired e r in
      let '(l, r) := retain_fresh l r in
      (if expired then l else e :: l, r)
  end.

Definition store_from_header_for_route (route : RouteKey) (origin : Origin) (header_value : bytes)
    (c : AltSvcCache) (r : R) : AltSvcCache * R :=
  if negb (bool_decide (o_scheme origin = Https)) then (c, r)
  else
    let trimmed := trim header_value in
    let key := mkKey route origin in
    if eq_ignore_ascii_case trimmed (ascii_bytes "clear") then
      (mkCache (delete key (entries c)) (delete key (validated c)), r)
    else
      let '(now, r) := instant_now r in
      let parsed := omap (fun item => parse_alt_svc_item item now) (split_unquoted trimmed 44) in
      if is_empty parsed then (c, r)
      else (mkCache (<[key := parsed]> (entries c)) (validated c), r).

Definition find_h3_for_route (route : RouteKey) (origin : Origin) (c : AltSvcCache) (r : R)
    : option AltSvcEntry * AltSvcCache * R :=
  let key := mkKey route origin in
  match entries c !! key with
  | None => (None, c, r)
  | Some l =>
      let '(l, r) := retain_fresh l r in
      let found := select_h3 l in
      if is_empty l then (found, mkCache (delete key (entries c)) (delete key (validated c)), r)
      else (found, mkCache (<[key := l]> (entries c)) (validated c), r)
  end.

Definition mark_h3_validated_for_route (route : RouteKey) (origin : Origin) (c : AltSvcCache) (r : R)
    : AltSvcCache * R :=
  let '(now, r) := instant_now r in
  (mkCache (entries c) (<[mkKey route origin := now]> (validated c)), r).

Definition clear_h3_validation_for_route (route : RouteKey) (origin : Origin) (c : AltSvcCache)
    : AltSvcCache :=
  mkCache (entries c) (delete (mkKey route origin) (validated c)).

Definition last_validated_at_for_route (route : RouteKey) (origin : Origin) (c : AltSvcCache) : option Z :=
  validated c !! mkKey route origin.

(** [entries.retain], in the order of the map. *)
Definition evict_key (kv : RouteOriginKey * list AltSvcEntry) (st : AltSvcCache * R) : AltSvcCache * R :=
  let '(key, per_origin) := kv in
  let '(c, r) := st in
  let '(per_origin, r) := retain_fresh per_origin r in
  if is_empty per_origin then (mkCache (delete key (entries c)) (delete key (validated c)), r)
  else (mkCache (<[key := per_origin]> (entries c)) (validated c), r).
Definition evict_expired `{HO : HashOrder} (c : AltSvcCache) (r : R) : AltSvcCache * R :=
  foldl (fun st kv => evict_key kv st) (c, r) (hash_iter (entries c)).

End clock.

(** ** The broken-QUIC tracker *)

Inductive H3Reachability : Type :=
| RUnknown | Advertised | Validated | FailedTransiently | FailedPersistently.

Inductive BrokenReason : Type := OriginH3Failure | ProxyUdpUnavailable.

Record BrokenQuicConfig : Type := mkConfig {
  max_entries : Z;
  initial_cooldown : Z;
  max_cooldown : Z;
  failure_escalation_threshold : Z;
  enabled : bool;
  route_cooldown : Z;
  max_route_entries : Z;
}.

Definition default_config : BrokenQuicConfig :=
  {| max_entries := 1024; initial_cooldown := secs (5 * 60); max_cooldown := secs (60 * 60);
     failure_escalation_threshold := 4; enabled := true; route_cooldown := secs (30 * 60);
     max_route_entries := 256 |}.

Inductive BrokenQuicPolicy : Type :=
| Strict | Resilient | PolicyDisabled | Custom (cfg : BrokenQuicConfig).

Definition resolve (p : BrokenQuicPolicy) : BrokenQuicConfig :=
  match p with
  | Strict => default_config
  | Resilient =>
      {| max_entries := max_entries default_config; initial_cooldown := secs 1; max_cooldown := secs 10;
         failure_escalation_threshold := 4294967295; enabled := enabled default_config;
         route_cooldown := secs 60; max_route_entries := max_route_entries default_config |}
  | PolicyDisabled =>
      {| max_entries := max_entries default_config; initial_cooldown := initial_cooldown default_config;
         max_cooldown := max_cooldown default_config;
         failure_escalation_threshold := failure_escalation_threshold default_config; enabled := false;
         route_cooldown := route_cooldown default_config;
         max_route_entries := max_route_entries default_config |}
  | Custom cfg => cfg
  end.

Record BrokenEntry : Type := mkBroken {
  failed_at : Z;
  cooldown : Z;
  failure_count : Z;
}.
Record BrokenRouteEntry : Type := mkBrokenRoute {
  r_failed_at : Z;
  r_cooldown : Z;
  r_reason : BrokenReason;
}.

Record BrokenQuicTracker : Type := mkTracker {
  broken : gmap RouteOriginKey BrokenEntry;
  broken_routes : gmap RouteKey BrokenRouteEntry;
  config : BrokenQuicConfig;
}.

Definition with_config (cfg : BrokenQuicConfig) : BrokenQuicTracker := mkTracker ∅ ∅ cfg.

(** The interpolation is computed in [u128], where it cannot overflow; the step
    is truncated to 64 bits of nanoseconds. *)
Definition cooldown_for_failure (cfg : BrokenQuicConfig) (count : Z) : Z :=
  let threshold := Z.max (failure_escalation_threshold cfg) 1 in
  let clamped := Z.min count threshold in
  if clamped <=? 1 then Z.min (initial_cooldown cfg) (max_cooldown cfg)
  else
    let initial := initial_cooldown cfg in
    let max := Z.max (max_cooldown cfg) initial in
    let span := Z.max 0 (max - initial) in
    let numerator := (clamped - 1) * span in
    let denominator := Z.max (threshold - 1) 1 in
    let step := as_u64 (numerator / denominator) in
    Z.min (initial + step) max.

Definition u32_saturating_add (a b : Z) : Z := Z.min (a + b) 4294967295.

Section tracker.
Context {R : Type} {CK : Clock R} {HO : HashOrder}.

(** Make room for a new key: the entry that failed first goes. *)
Definition evict_oldest {K A} `{Countable K} (at_ : A -> Z) (key : K) (cap : Z) (m : gmap K A) : gmap K A :=
  if negb (bool_decide (is_Some (m !! key))) && (cap <=? Z.of_nat (size m)) then
    match min_by_key (fun kv => at_ kv.2) (hash_iter m) with
    | Some (victim, _) => delete victim m
    | None => m
    end
  else m.

Definition mark_broken_for_route (route : RouteKey) (origin : Origin) (t : BrokenQuicTracker) (r : R)
    : BrokenQuicTracker * R :=
  let key := mkKey route origin in
  let '(next_count, r) :=
    match broken t !! key with
    | Some e =>
        let '(now, r) := instant_now r in
        (if cooldown e <=? elapsed_since now (failed_at e) then 1
         else u32_saturating_add (failure_count e) 1, r)
    | None => (1, r)
    end in
  let cd := cooldown_for_failure (config t) next_count in
  let m := evict_oldest failed_at key (max_entries (config t)) (broken t) in
  let '(now, r) := instant_now r in
  (mkTracker (<[key := mkBroken now cd next_count]> m) (broken_routes t) (config t), r).

Definition is_route_broken (route : RouteKey) (t : BrokenQuicTracker) (r : R)
    : bool * BrokenQuicTracker * R :=
  if negb (enabled (config t)) then (false, t, r)
  else match broken_routes t !! route with
       | None => (false, t, r)
       | Some e =>
           let '(now, r) := instant_now r in
           if elapsed_since now (r_failed_at e) <? r_cooldown e then (true, t, r)
           else (false, mkTracker (broken t) (delete route (broken_routes t)) (config t), r)
       end.

Definition is_broken_for_route (route : RouteKey) (origin : Origin) (t : BrokenQuicTracker) (r : R)
    : bool * BrokenQuicTracker * R :=
  if negb (enabled (config t)) then (false, t, r)
  else
    let '(rb, t, r) := is_route_broken route t r in
    if rb then (true, t, r)
    else
      let key := mkKey route origin in
      match broken t !! key with
      | None => (false, t, r)
      | Some e =>
          let '(now, r) := instant_now r in
          if elapsed_since now (failed_at e) <? cooldown e then (true, t, r)
          else (false, mkTracker (delete key (broken t)) (broken_routes t) (config t), r)
      end.

Definition mark_working_for_route (route : RouteKey) (origin : Origin) (t : BrokenQuicTracker)
    : BrokenQuicTracker :=
  mkTracker (delete (mkKey route origin) (broken t)) (broken_routes t) (config t).

Definition mark_route_broken (route : RouteKey) (reason : BrokenReason) (t : BrokenQuicTracker) (r : R)
    : BrokenQuicTracker * R :=
  let m := evict_oldest r_failed_at route (max_route_entries (config t)) (broken_routes t) in
  let '(now, r) := instant_now r in
  (mkTracker (broken t)
     (<[route := mkBrokenRoute now (route_cooldown (config t)) reason]> m) (config t), r).

Definition mark_route_working (route : RouteKey) (t : BrokenQuicTracker) : BrokenQuicTracker :=
  mkTracker (broken t) (delete route (broken_routes t)) (config t).

Definition h3_reachability_for_route (route : RouteKey) (origin : Origin) (t : BrokenQuicTracker) (r : R)
    : option H3Reachability * BrokenQuicTracker * R :=
  let key := mkKey route origin in
  match broken t !! key with
  | None => (None, t, r)
  | Some e =>
      let '(now, r) := instant_now r in
      if cooldown e <=? elapsed_since now (failed_at e) then
        (None, mkTracker (delete key (broken t)) (broken_routes t) (config t), r)
      else
        (Some (if Z.max (failure_escalation_threshold (config t)) 1 <=? failure_count e
               then FailedPersistently else FailedTransiently), t, r)
  end.

Definition should_skip_quic (proxy : option ProxyConfig) (origin : Origin) (t : BrokenQuicTracker) (r : R)
    : bool * BrokenQuicTracker * R :=
  let is_http_proxy := match proxy with
                       | Some p => match scheme p with PHttp _ _ => true | _ => false end
                       | None => false
                       end in
  if is_http_proxy then (true, t, r)
  else is_broken_for_route (from_proxy proxy) origin t r.

Record LearnedProtocolState : Type := mkLearned {
  l_alt_svc : option AltSvcEntry;
  h3_status : H3Reachability;
  last_validated_at : option Z;
}.

Definition learned_protocol_state_for_route (c : AltSvcCache) (t : BrokenQuicTracker)
    (route : RouteKey) (origin : Origin) (r : R)
    : LearnedProtocolState * AltSvcCache * BrokenQuicTracker * R :=
  let '(alt_svc, c, r) := find_h3_for_route route origin c r in
  let last := last_validated_at_for_route route origin c in
  let '(reach, t, r) := h3_reachability_for_route route origin t r in
  let status :=
    match reach with
    | Some s => s
    | None => if bool_decide (is_Some last) then Validated
              else if bool_decide (is_Some alt_svc) then Advertised
              else RUnknown
    end in
  (mkLearned alt_svc status last, c, t, r).

End tracker.

End alt_svc.
