(* ===== verification/AltSvcProps.v ===== *)
(** * Alt-Svc lookups (lkrequest/src/alt_svc.rs)

    The cache refines a map that remembers, for each route and origin, the
    entries of the last usable header: what a lookup gives back is one of them,
    advertises HTTP/3 and is fresh, whatever operations ran in between. *)
From S2P Require Import Prelude Text LkError Route SessionStore AltSvc.
Import proxy route protocol alt_svc.

Module alt_svc_props.

(** ** The parser *)

Lemma find_map_Some {A B} (f : A -> option B) l b :
  find_map f l = Some b -> exists a, a ∈ l /\ f a = Some b.
Proof.
  induction l as [|a l IH]; simpl; [done|]. destruct (f a) eqn:E.
  - intros [= ->]. exists a. split; [left|done].
  - intros H. destruct (IH H) as (x & ? & ?). exists x. split; [by right|done].
Qed.

Lemma parse_max_age_range p a : parse_max_age p = Some a -> 0 <= a <= ALT_SVC_MAX_AGE_CEILING.
Proof.
  unfold parse_max_age. destruct (split_once 61 p) as [[n v]|]; [|done]. cbn [mbind option_bind].
  case_match; [done|]. destruct (parse_uint _ _) as [s|] eqn:E; [|done]. intros [= <-].
  apply parse_uint_range in E; [|lia]. unfold ALT_SVC_MAX_AGE_CEILING, secs. lia.
Qed.

(** What every parsed entry satisfies. *)
Definition entry_ok (now : Z) (e : AltSvcEntry) : Prop :=
  stored_at e = now /\ 0 <= max_age e <= ALT_SVC_MAX_AGE_CEILING /\ u16 (e_port e).

Lemma parse_alt_authority_port a h p : parse_alt_authority a = Some (h, p) -> u16 p.
Proof.
  unfold parse_alt_authority. case_match; [done|]. destruct (strip_prefix [58] a) as [q|].
  - destruct (parse_uint 65535 q) eqn:E; [|done]. intros [= <- <-].
    apply parse_uint_range in E; [|lia]. unfold u16. lia.
  - destruct (rsplit_once 58 a) as [[x q]|]; [|done]. cbn [mbind option_bind].
    destruct (parse_uint 65535 q) eqn:E; [|done]. intros [= <- <-].
    apply parse_uint_range in E; [|lia]. unfold u16. lia.
Qed.

Lemma parse_item_ok item now e : parse_alt_svc_item item now = Some e -> entry_ok now e.
Proof.
  unfold parse_alt_svc_item. destruct (head _) as [f|]; [|done]. cbn [mbind option_bind].
  destruct (split_once 61 f) as [[p a]|]; [|done]. cbn [mbind option_bind].
  destruct (parse_alt_authority _) as [[h port]|] eqn:E; [|done]. intros [= <-].
  apply parse_alt_authority_port in E. split_and!; try done; simpl;
    (destruct (find_map parse_max_age _) as [x|] eqn:F;
     [apply find_map_Some in F as (q & _ & F); apply parse_max_age_range in F; simpl; lia
     |unfold ALT_SVC_MAX_AGE_CEILING, secs; simpl; lia]).
Qed.

(** The entries a header stands for when it is stored at [now]. *)
Definition header_entries (header : bytes) (now : Z) : list AltSvcEntry :=
  omap (fun item => parse_alt_svc_item item now) (split_unquoted (trim header) 44).

Lemma header_entries_ok header now : Forall (entry_ok now) (header_entries header now).
Proof.
  apply Forall_forall. intros e (i & _ & H)%list_elem_of_omap. by apply parse_item_ok in H.
Qed.

(** ** Selection *)

Definition h3_exact (e : AltSvcEntry) : bool := bool_decide (e_protocol e = ascii_bytes "h3").
Definition h3_draft (e : AltSvcEntry) : bool := starts_with (ascii_bytes "h3-") (e_protocol e).

Lemma select_h3_Some l e : select_h3 l = Some e ->
  e ∈ l /\ (h3_exact e \/ (h3_draft e /\ Forall (fun x => ~ h3_exact x) l)).
Proof.
  unfold select_h3, h3_exact, h3_draft.
  destruct (list_find _ l) as [[i x]|] eqn:E.
  - intros [= ->]. apply list_find_Some in E as (Hl & Hx & _). split; [by eapply list_elem_of_lookup_2|by left].
  - destruct (list_find (fun e => Is_true (starts_with _ (e_protocol e))) l) as [[i x]|] eqn:E2; [|done].
    intros [= ->]. apply list_find_Some in E2 as (Hl & Hx & _).
    split; [by eapply list_elem_of_lookup_2|]. right. split; [done|]. by apply list_find_None in E.
Qed.
Lemma select_h3_None l : select_h3 l = None -> Forall (fun e => ~ h3_exact e /\ ~ h3_draft e) l.
Proof.
  unfold select_h3, h3_exact, h3_draft.
  destruct (list_find _ l) as [[i x]|] eqn:E; [done|].
  destruct (list_find (fun e => Is_true (starts_with _ (e_protocol e))) l) as [[i x]|] eqn:E2; [done|]. intros _.
  apply list_find_None in E, E2. apply Forall_and. done.
Qed.

(** ** Time *)

Section props.
Context {R : Type} {CK : Clock R} {CL : ClockLaws R CK} {HO : HashOrder} {HL : HashOrderLaws HO}.

(** The next reading: every later one is at least this. *)
Definition horizon (r : R) : Z := (instant_now r).1.

Lemma horizon_step r t r' : instant_now r = (t, r') -> t = horizon r /\ t <= horizon r'.
Proof.
  intros E. pose proof (instant_monotone r) as H. unfold horizon. rewrite E in *. done.
Qed.

Definition expired_at (t : Z) (e : AltSvcEntry) : Prop := max_age e < elapsed_since t (stored_at e).

Lemma expired_mono t t' e : t <= t' -> expired_at t e -> expired_at t' e.
Proof. unfold expired_at, elapsed_since. lia. Qed.

Lemma retain_fresh_spec l : forall r l' r',
  retain_fresh l r = (l', r') ->
  horizon r <= horizon r' /\ sublist l' l /\ Forall (fun e => ~ expired_at (horizon r) e) l' /\
  (forall e, e ∈ l -> e ∈ l' \/ expired_at (horizon r') e).
Proof.
  induction l as [|e l IH]; intros r l' r'; simpl.
  { intros [= <- <-]. split_and!; [lia|done|constructor|by left]. }
  unfold entry_is_expired. destruct (instant_now r) as [t r1] eqn:E.
  apply horizon_step in E as [-> Ht].
  destruct (retain_fresh l r1) as [k r2] eqn:Er. intros [= <- <-].
  destruct (IH _ _ _ Er) as (Hm & Hs & Hf & Ha).
  assert (Hf' : Forall (fun x => ~ expired_at (horizon r) x) k).
  { eapply Forall_impl; [exact Hf|]. cbn. intros x Hx Hexp. apply Hx. by eapply expired_mono. }
  destruct (Z.ltb_spec (max_age e) (elapsed_since (horizon r) (stored_at e))) as [Hx|Hx].
  - split_and!; [lia|by apply sublist_cons|done|].
    intros x [->|Hin]%elem_of_cons; [|by apply Ha].
    right. apply (expired_mono (horizon r)); [lia|exact Hx].
  - split_and!; [lia|by apply sublist_skip|constructor; [unfold expired_at; lia|done]|].
    intros x [->|Hin]%elem_of_cons; [left; left|]. destruct (Ha x Hin); [left; by right|by right].
Qed.

(** ** The specification: the entries of the last usable header *)

Notation Spec := (gmap RouteOriginKey (list AltSvcEntry)).

Definition spec_store (route : RouteKey) (origin : Origin) (header : bytes) (now : Z) (sp : Spec) : Spec :=
  if negb (bool_decide (o_scheme origin = Https)) then sp
  else if eq_ignore_ascii_case (trim header) (ascii_bytes "clear") then delete (mkKey route origin) sp
  else if is_empty (header_entries header now) then sp
  else <[mkKey route origin := header_entries header now]> sp.

(** What the cache may have forgotten is expired. *)
Definition key_rel (t : Z) (l L : option (list AltSvcEntry)) : Prop :=
  match l, L with
  | Some l, Some L => sublist l L /\ (forall e, e ∈ L -> e ∈ l \/ expired_at t e)
  | None, Some L => forall e, e ∈ L -> expired_at t e
  | None, None => True
  | Some _, None => False
  end.
Definition cache_rel (c : AltSvcCache) (sp : Spec) (r : R) : Prop :=
  forall k, key_rel (horizon r) (entries c !! k) (sp !! k).

Lemma key_rel_mono t t' l L : t <= t' -> key_rel t l L -> key_rel t' l L.
Proof.
  intros Ht. destruct l as [l|], L as [L|]; simpl; try done.
  - intros [? H]. split; [done|]. intros e He. destruct (H e He); [by left|right; by eapply expired_mono].
  - intros H e He. eapply expired_mono; eauto.
Qed.
Lemma cache_rel_mono c sp r r' : horizon r <= horizon r' -> cache_rel c sp r -> cache_rel c sp r'.
Proof. intros Ht H k. eapply key_rel_mono; eauto. Qed.

Lemma cache_rel_new r : cache_rel cache_new ∅ r.
Proof. intros k. unfold cache_new. cbn [entries]. by rewrite !lookup_empty. Qed.

Lemma store_rel route origin header c sp r c' r' :
  cache_rel c sp r ->
  store_from_header_for_route route origin header c r = (c', r') ->
  horizon r <= horizon r' /\ cache_rel c' (spec_store route origin header (horizon r) sp) r'.
Proof.
  intros H. unfold store_from_header_for_route, spec_store.
  case_match; [intros [= <- <-]; split; [lia|done]|].
  case_match.
  { intros [= <- <-]. split; [lia|]. intros k. simpl.
    destruct (decide (k = mkKey route origin)) as [->|Hk];
      [by rewrite !lookup_delete_eq|rewrite !lookup_delete_ne by done; apply H]. }
  destruct (instant_now r) as [t r1] eqn:E. apply horizon_step in E as [-> Ht].
  change (omap (fun item => parse_alt_svc_item item (horizon r)) (split_unquoted (trim header) 44))
    with (header_entries header (horizon r)).
  case_match; intros [= <- <-]; (split; [done|]).
  - by eapply cache_rel_mono.
  - intros k. simpl. destruct (decide (k = mkKey route origin)) as [->|Hk].
    + rewrite !lookup_insert_eq. split; [done|]. by left.
    + rewrite !lookup_insert_ne by done. eapply key_rel_mono; [done|apply H].
Qed.

(** Filtering the list of one key keeps the relation. *)
Lemma filtered_rel c sp r k l l' r' :
  cache_rel c sp r -> entries c !! k = Some l -> retain_fresh l r = (l', r') ->
  key_rel (horizon r') (if is_empty l' then None else Some l') (sp !! k).
Proof.
  intros H Hk Hr. specialize (H k). rewrite Hk in H. destruct (sp !! k) as [L|]; [|done].
  destruct H as [Hs Hf]. apply retain_fresh_spec in Hr as (Ht & Hs' & _ & Ha).
  assert (Hall : forall e, e ∈ L -> e ∈ l' \/ expired_at (horizon r') e).
  { intros e He. destruct (Hf e He) as [Hel|Hx]; [by apply Ha|right; by eapply expired_mono]. }
  destruct l' as [|e l']; simpl.
  - intros e He. destruct (Hall e He) as [[]%elem_of_nil|]; done.
  - split; [by etrans|done].
Qed.

Lemma find_rel route origin c sp r found c' r' :
  cache_rel c sp r -> find_h3_for_route route origin c r = (found, c', r') ->
  horizon r <= horizon r' /\ cache_rel c' sp r' /\
  match found with
  | Some e => exists L, sp !! mkKey route origin = Some L /\ e ∈ L /\ ~ expired_at (horizon r) e /\
      (h3_exact e \/ (h3_draft e /\ forall x, x ∈ L -> h3_exact x -> expired_at (horizon r') x))
  | None => forall L, sp !! mkKey route origin = Some L ->
      forall x, x ∈ L -> h3_exact x \/ h3_draft x -> expired_at (horizon r') x
  end.
Proof.
  intros H. unfold find_h3_for_route. pose proof (H (mkKey route origin)) as Hk.
  destruct (entries c !! mkKey route origin) as [l|] eqn:El.
  2:{ intros [= <- <- <-]. split_and!; [lia|done|]. intros L HL' x Hx _. rewrite HL' in Hk. by apply Hk. }
  destruct (retain_fresh l r) as [l' r1] eqn:Er.
  pose proof (filtered_rel _ _ _ _ _ _ _ H El Er) as Hrel.
  destruct (sp !! mkKey route origin) as [L|] eqn:EL; [|done]. destruct Hk as [Hs _].
  pose proof (retain_fresh_spec _ _ _ _ Er) as (Ht & Hs' & Hf & Ha).
  set (c1 := if is_empty l' then mkCache (delete (mkKey route origin) (entries c))
                                   (delete (mkKey route origin) (validated c))
             else mkCache (<[mkKey route origin := l']> (entries c)) (validated c)).
  assert (Hc : cache_rel c1 sp r1).
  { intros k. unfold c1. destruct (decide (k = mkKey route origin)) as [->|Hne].
    - rewrite EL. destruct (is_empty l'); simpl in *;
        by rewrite ?lookup_delete_eq, ?lookup_insert_eq.
    - destruct (is_empty l'); simpl; rewrite ?lookup_delete_ne, ?lookup_insert_ne by done;
        (eapply key_rel_mono; [exact Ht|apply H]). }
  assert (Hgone : forall x, x ∈ L -> x ∈ l' \/ expired_at (horizon r1) x).
  { intros x Hx. destruct l' as [|y l']; simpl in Hrel; [right; by apply Hrel|by apply Hrel]. }
  intros E. assert (found = select_h3 l' /\ c' = c1 /\ r' = r1) as (-> & -> & ->).
  { unfold c1. destruct (is_empty l'); by simplify_eq. }
  split_and!; [done|exact Hc|]. destruct (select_h3 l') as [e|] eqn:Esel.
  - apply select_h3_Some in Esel as [He Hp]. exists L. split_and!; [done| | |].
    + by eapply elem_of_sublist, Hs; eapply elem_of_sublist.
    + rewrite Forall_forall in Hf. by apply Hf.
    + destruct Hp as [Hp|[Hp Hn]]; [by left|right]. split; [done|]. intros x Hx Hex.
      destruct (Hgone x Hx) as [Hin|]; [|done]. rewrite Forall_forall in Hn. by destruct (Hn x Hin).
  - apply select_h3_None in Esel. rewrite Forall_forall in Esel. intros L' [= <-] x Hx Hp.
    destruct (Hgone x Hx) as [Hin|]; [|done]. destruct (Esel x Hin). tauto.
Qed.

Lemma evict_key_rel k l c sp r c' r' :
  cache_rel c sp r -> entries c !! k = Some l -> evict_key (k, l) (c, r) = (c', r') ->
  horizon r <= horizon r' /\ cache_rel c' sp r' /\ (forall k', k' <> k -> entries c' !! k' = entries c !! k').
Proof.
  intros H Hk. cbn [evict_key]. destruct (retain_fresh l r) as [l' r1] eqn:Er.
  pose proof (filtered_rel _ _ _ _ _ _ _ H Hk Er) as Hrel.
  pose proof (retain_fresh_spec _ _ _ _ Er) as (Ht & _).
  intros E. assert (r' = r1) as -> by (destruct (is_empty l'); by simplify_eq). split; [done|].
  destruct (is_empty l'); simplify_eq; (split; [intros k'|intros k' Hk'; simpl];
    [destruct (decide (k' = k)) as [->|Hne]; simpl|]);
    rewrite ?lookup_delete_eq, ?lookup_insert_eq, ?lookup_delete_ne, ?lookup_insert_ne by done;
    try done; (eapply key_rel_mono; [exact Ht|apply H]).
Qed.

Lemma evict_fold_rel sp kvs : forall c r c' r',
  NoDup kvs.*1 -> Forall (fun kv => entries c !! kv.1 = Some kv.2) kvs -> cache_rel c sp r ->
  foldl (fun st kv => evict_key kv st) (c, r) kvs = (c', r') ->
  horizon r <= horizon r' /\ cache_rel c' sp r'.
Proof.
  induction kvs as [|[k l] kvs IH]; intros c r c' r' Hnd Hl Hr; cbn [foldl].
  { intros [= <- <-]. split; [lia|done]. }
  destruct (evict_key (k, l) (c, r)) as [c1 r1] eqn:E. intros Hf.
  cbn in Hnd. apply NoDup_cons in Hnd as [Hni Hnd]. apply Forall_cons in Hl as [Hkl Hl].
  destruct (evict_key_rel _ _ _ _ _ _ _ Hr Hkl E) as (Ht & Hr1 & Hsame).
  destruct (IH c1 r1 c' r') as [Ht' ?]; try done; [|split; [lia|done]].
  rewrite Forall_forall in Hl |- *. intros [k' l'] Hin. simpl. rewrite Hsame; [by apply (Hl (k', l'))|].
  intros ->. apply Hni. apply list_elem_of_fmap. by exists (k, l').
Qed.

Lemma evict_rel c sp r c' r' :
  cache_rel c sp r -> evict_expired c r = (c', r') -> horizon r <= horizon r' /\ cache_rel c' sp r'.
Proof.
  intros H. unfold evict_expired. apply evict_fold_rel; [| |done].
  - rewrite (hash_iter_perm (entries c)). apply NoDup_fst_map_to_list.
  - rewrite (hash_iter_perm (entries c)). apply Forall_forall. intros [k l] Hin.
    by apply elem_of_map_to_list in Hin.
Qed.

(** ** Runs *)

Inductive CacheOp : Type :=
| OpStore (route : RouteKey) (origin : Origin) (header : bytes)
| OpFind (route : RouteKey) (origin : Origin)
| OpValidate (route : RouteKey) (origin : Origin)
| OpClearValidation (route : RouteKey) (origin : Origin)
| OpEvict.

Definition run_op (op : CacheOp) (st : AltSvcCache * R) : AltSvcCache * R :=
  let '(c, r) := st in
  match op with
  | OpStore route origin header => store_from_header_for_route route origin header c r
  | OpFind route origin => let '(_, c, r) := find_h3_for_route route origin c r in (c, r)
  | OpValidate route origin => mark_h3_validated_for_route route origin c r
  | OpClearValidation route origin => (clear_h3_validation_for_route route origin c, r)
  | OpEvict => evict_expired c r
  end.
Definition run (ops : list CacheOp) (r : R) : AltSvcCache * R :=
  foldl (fun st op => run_op op st) (cache_new, r) ops.

Definition spec_op (op : CacheOp) (now : Z) (sp : Spec) : Spec :=
  match op with OpStore route origin header => spec_store route origin header now sp | _ => sp end.

Lemma run_op_rel op c sp r c' r' :
  cache_rel c sp r -> run_op op (c, r) = (c', r') ->
  horizon r <= horizon r' /\ cache_rel c' (spec_op op (horizon r) sp) r'.
Proof.
  intros H. destruct op; cbn [run_op spec_op].
  - by apply store_rel.
  - destruct (find_h3_for_route _ _ c r) as [[f c1] r1] eqn:E. intros [= <- <-].
    apply find_rel with (sp := sp) in E; naive_solver.
  - unfold mark_h3_validated_for_route. destruct (instant_now r) as [t r1] eqn:E.
    apply horizon_step in E as [-> Ht]. intros [= <- <-]. split; [done|]. by apply (cache_rel_mono c sp r).
  - intros [= <- <-]. split; [lia|done].
  - by apply evict_rel.
Qed.

(** An operation that leaves the header of a key in force. *)
Definition keeps (k : RouteOriginKey) (op : CacheOp) : Prop :=
  match op with
  | OpStore route origin header =>
      mkKey route origin = k ->
      eq_ignore_ascii_case (trim header) (ascii_bytes "clear") = false /\
      header_entries header 0 = []
  | _ => True
  end.

Lemma header_entries_nil header now now' : header_entries header now = [] -> header_entries header now' = [].
Proof.
  unfold header_entries. induction (split_unquoted (trim header) 44) as [|i l IH]; [done|].
  cbn [omap list_omap]. intros H. destruct (parse_alt_svc_item i now) eqn:E; [done|].
  assert (parse_alt_svc_item i now' = None) as ->; [|by apply IH].
  revert E. unfold parse_alt_svc_item. destruct (head _) as [f|]; [|done]. cbn [mbind option_bind].
  destruct (split_once 61 f) as [[p a]|]; [|done]. cbn [mbind option_bind].
  by destruct (parse_alt_authority _) as [[h q]|].
Qed.

(** What the specification remembers for a key comes from the last store on it. *)
Lemma spec_provenance ops : forall r c r',
  run ops r = (c, r') -> exists sp, cache_rel c sp r' /\
  forall k L, sp !! k = Some L ->
    exists header pre post, ops = pre ++ OpStore (k_route k) (k_origin k) header :: post /\
      Forall (keeps k) post /\ o_scheme (k_origin k) = Https /\
      L = header_entries header (horizon (run pre r).2).
Proof.
  induction ops as [|op ops IH] using rev_ind; intros r c r'; unfold run at 1.
  { intros [= <- <-]. exists ∅. split; [apply cache_rel_new|]. intros k L H. by rewrite lookup_empty in H. }
  rewrite foldl_snoc. fold (run ops r). destruct (run ops r) as [c0 r0] eqn:E0. intros E.
  destruct (IH _ _ _ E0) as (sp & Hr & Hp).
  destruct (run_op_rel _ _ _ _ _ _ Hr E) as [_ Hr']. exists (spec_op op (horizon r0) sp). split; [done|].
  intros k L HL'.
  assert (Hold : sp !! k = Some L -> keeps k op ->
    exists header pre post, ops ++ [op] = pre ++ OpStore (k_route k) (k_origin k) header :: post /\
      Forall (keeps k) post /\ o_scheme (k_origin k) = Https /\
      L = header_entries header (horizon (run pre r).2)).
  { intros Hk Hkeep. destruct (Hp k L Hk) as (h & pre & post & -> & Hpost & Hs & ->).
    exists h, pre, (post ++ [op]). rewrite <- app_assoc. split_and!; try done.
    apply Forall_app. split; [done|by constructor]. }
  destruct op as [route origin header| | | |]; cbn [spec_op] in HL'; try (by apply Hold).
  unfold spec_store in HL'. case_bool_decide as Hs; cbn [negb] in HL'.
  2:{ apply Hold; [done|]. intros Hk. exfalso. subst k.
      destruct (Hp _ _ HL') as (? & ? & ? & _ & _ & H & _). done. }
  destruct (eq_ignore_ascii_case _ _) eqn:Ec.
  { apply lookup_delete_Some in HL' as [Hne HL']. apply Hold; [done|]. intros Hk. by subst. }
  destruct (is_empty _) eqn:Ee.
  { apply Hold; [done|]. intros _. split; [done|]. apply (header_entries_nil _ (horizon r0)).
    by destruct (header_entries header (horizon r0)). }
  apply lookup_insert_Some in HL' as [[<- <-]|[Hne HL']]; [|apply Hold; [done|]; intros Hk; by subst].
  exists header, ops, []. rewrite E0. by split_and!.
Qed.

Lemma spec_op_keeps op now k sp :
  keeps k op -> spec_op op now sp !! k = sp !! k.
Proof.
  destruct op as [route origin header| | | |]; try done. cbn [keeps spec_op]. intros H. unfold spec_store.
  destruct (decide (mkKey route origin = k)) as [Hk|Hk].
  - destruct (H Hk) as [-> Hn]. rewrite (header_entries_nil _ _ now Hn). by case_bool_decide.
  - repeat case_match; rewrite ?lookup_delete_ne, ?lookup_insert_ne by done; done.
Qed.

Lemma run_keeps k ops : forall c sp r c' r',
  cache_rel c sp r -> Forall (keeps k) ops ->
  foldl (fun st op => run_op op st) (c, r) ops = (c', r') ->
  exists sp', cache_rel c' sp' r' /\ sp' !! k = sp !! k.
Proof.
  induction ops as [|op ops IH]; intros c sp r c' r' Hr Hk; cbn [foldl].
  { intros [= <- <-]. by exists sp. }
  apply Forall_cons in Hk as [Hop Hk]. destruct (run_op op (c, r)) as [c1 r1] eqn:E. intros Hf.
  destruct (run_op_rel _ _ _ _ _ _ Hr E) as [_ Hr1].
  destruct (IH _ _ _ _ _ Hr1 Hk Hf) as (sp' & ? & Hk'). exists sp'. split; [done|].
  rewrite Hk'. by apply spec_op_keeps.
Qed.

(** C31. Alt-Svc lookups are sound and fresh: after any sequence of cache
    operations, an entry found for a route and an origin advertises HTTP/3, was
    parsed from the header of the last effective store for exactly that route
    and that [https] origin (a plaintext response or another origin or route never
    contributes one), had not outlived its [ma], counted from that store, when the lookup
    began, and its lifetime is at most seven days. *)
Theorem alt_svc_lookup_sound (ops : list CacheOp) r c r1 route origin e c' r2 :
  run ops r = (c, r1) -> find_h3_for_route route origin c r1 = (Some e, c', r2) ->
  exists header pre post, let now := horizon (run pre r).2 in
    ops = pre ++ OpStore route origin header :: post /\ Forall (keeps (mkKey route origin)) post /\
    o_scheme origin = Https /\ e ∈ header_entries header now /\ (h3_exact e \/ h3_draft e) /\
    horizon r1 <= now + max_age e /\ 0 <= max_age e <= ALT_SVC_MAX_AGE_CEILING.
Proof.
  intros Hrun Hf. destruct (spec_provenance _ _ _ _ Hrun) as (sp & Hrel & Hp).
  destruct (find_rel _ _ _ _ _ _ _ _ Hrel Hf) as (_ & _ & L & HL' & He & Hfresh & Hh3).
  destruct (Hp _ _ HL') as (header & pre & post & -> & Hpost & Hs & ->).
  pose proof (header_entries_ok header (horizon (run pre r).2)) as Hok. rewrite Forall_forall in Hok.
  destruct (Hok e He) as (Hat & Hage & _).
  exists header, pre, post. cbn zeta. split_and!; try done; try lia; [naive_solver|].
  unfold expired_at, elapsed_since in Hfresh. rewrite Hat in Hfresh. lia.
Qed.

(** C32. Alt-Svc lookups are complete: after any sequence of cache operations a
    lookup that finds nothing means that every HTTP/3 entry of the last
    effective store for that route and origin has outlived its [ma], counted from the
    clock at that store; no entry is lost to an eviction or to another origin's traffic. *)
Theorem alt_svc_lookup_complete (ops : list CacheOp) r c r1 route origin c' r2 header pre post :
  run ops r = (c, r1) -> find_h3_for_route route origin c r1 = (None, c', r2) ->
  ops = pre ++ OpStore route origin header :: post -> Forall (keeps (mkKey route origin)) post ->
  o_scheme origin = Https -> eq_ignore_ascii_case (trim header) (ascii_bytes "clear") = false ->
  let now := horizon (run pre r).2 in
  forall e, e ∈ header_entries header now -> h3_exact e \/ h3_draft e -> now + max_age e < horizon r2.
Proof.
  intros Hrun Hf -> Hpost Hs Hc. unfold run in Hrun. rewrite foldl_app in Hrun. cbn [foldl] in Hrun.
  fold (run pre r) in Hrun. destruct (run pre r) as [c0 r0] eqn:E0. cbn zeta. cbn [snd].
  destruct (spec_provenance _ _ _ _ E0) as (sp & Hrel & _).
  destruct (run_op (OpStore route origin header) (c0, r0)) as [cs rs] eqn:Es.
  destruct (run_op_rel _ _ _ _ _ _ Hrel Es) as [_ Hrs].
  destruct (run_keeps _ _ _ _ _ _ _ Hrs Hpost Hrun) as (sp' & Hr1 & Hk).
  destruct (find_rel _ _ _ _ _ _ _ _ Hr1 Hf) as (_ & _ & Hnone).
  intros e He Hh3. pose proof (header_entries_ok header (horizon r0)) as Hok. rewrite Forall_forall in Hok.
  destruct (Hok e He) as (Hat & Hage & _).
  assert (Hex : expired_at (horizon r2) e).
  { apply (Hnone (header_entries header (horizon r0))); [|done..]. rewrite Hk. cbn [spec_op]. unfold spec_store.
    rewrite bool_decide_eq_true_2 by done. cbn [negb]. rewrite Hc.
    destruct (is_empty _) eqn:Ee; [|by rewrite lookup_insert_eq].
    by destruct (header_entries header (horizon r0)); [apply elem_of_nil in He|]. }
  unfold expired_at, elapsed_since in Hex. rewrite Hat in Hex. lia.
Qed.

End props.

End alt_svc_props.
