(* ===== verification/BrokenQuic.v ===== *)
(** * The broken-QUIC tracker (lkrequest/src/alt_svc.rs)

    The cooldown curve, the size bound, and the refinement of the tracker to a
    table of failures that nothing but a success ever clears: deleting an entry
    lazily once its cooldown has passed is not observable. *)
From S2P Require Import Prelude Text LkError Route SessionStore AltSvc AltSvcProps.
Import proxy route protocol alt_svc alt_svc_props.

Module broken_quic.

(** ** The cooldown curve *)

Definition config_ok (cfg : BrokenQuicConfig) : Prop :=
  0 <= initial_cooldown cfg <= max_cooldown cfg /\ u64 (max_cooldown cfg) /\
  u32 (failure_escalation_threshold cfg).

Lemma step_range cfg k :
  config_ok cfg -> 0 <= k <= Z.max (failure_escalation_threshold cfg) 1 - 1 ->
  let span := max_cooldown cfg - initial_cooldown cfg in
  let d := Z.max (Z.max (failure_escalation_threshold cfg) 1 - 1) 1 in
  0 <= k * span / d <= span.
Proof.
  intros (Hi & Hm & Ht) Hk span d. unfold u64, u32 in *. subst span d. split.
  - apply Z.div_pos; nia.
  - apply Z.div_le_upper_bound; nia.
Qed.

(** The interpolation, where nothing is clamped or truncated. *)
Lemma cooldown_formula cfg n : config_ok cfg -> 1 <= n ->
  let threshold := Z.max (failure_escalation_threshold cfg) 1 in
  let k := Z.min n threshold - 1 in
  cooldown_for_failure cfg n =
    initial_cooldown cfg + k * (max_cooldown cfg - initial_cooldown cfg) / Z.max (threshold - 1) 1.
Proof.
  intros Hok Hn threshold k. pose proof Hok as (Hi & Hm & Ht). unfold u64, u32 in *.
  unfold cooldown_for_failure. fold threshold.
  destruct (Z.leb_spec (Z.min n threshold) 1) as [H1|H1].
  - assert (k = 0) as -> by (subst k threshold; lia). rewrite Z.mul_0_l, Z.div_0_l by lia. lia.
  - pose proof (step_range cfg k Hok ltac:(subst k threshold; lia)) as Hs. cbn zeta in Hs. fold threshold in Hs.
    replace (Z.max (max_cooldown cfg) (initial_cooldown cfg)) with (max_cooldown cfg) by lia.
    replace (Z.max 0 (max_cooldown cfg - initial_cooldown cfg)) with (max_cooldown cfg - initial_cooldown cfg) by lia.
    fold k. unfold as_u64. rewrite Z.mod_small by lia. lia.
Qed.

(** With a sane configuration the cooldown of the [n]-th failure in a row
    lies between the initial and the maximum one, grows with [n], starts at the
    initial one and reaches the maximum at the escalation threshold. *)
Theorem cooldown_curve cfg : config_ok cfg ->
  (forall n, 1 <= n -> initial_cooldown cfg <= cooldown_for_failure cfg n <= max_cooldown cfg) /\
  (forall n m, 1 <= n <= m -> cooldown_for_failure cfg n <= cooldown_for_failure cfg m) /\
  cooldown_for_failure cfg 1 = initial_cooldown cfg /\
  (forall n, 2 <= failure_escalation_threshold cfg <= n -> cooldown_for_failure cfg n = max_cooldown cfg).
Proof.
  intros Hok. pose proof Hok as (Hi & Hm & Ht). unfold u64, u32 in *. split_and!.
  - intros n Hn. rewrite cooldown_formula by done.
    pose proof (step_range cfg (Z.min n (Z.max (failure_escalation_threshold cfg) 1) - 1) Hok ltac:(lia)) as Hs.
    cbn zeta in Hs. lia.
  - intros n m Hn. rewrite !cooldown_formula by (done || lia).
    apply Z.add_le_mono_l, Z.div_le_mono; [lia|]. nia.
  - rewrite cooldown_formula by (done || lia).
    replace (Z.min 1 _ - 1) with 0 by lia. rewrite Z.mul_0_l, Z.div_0_l by lia. lia.
  - intros n Hn. rewrite cooldown_formula by (done || lia).
    replace (Z.min n (Z.max (failure_escalation_threshold cfg) 1) - 1)
      with (Z.max (Z.max (failure_escalation_threshold cfg) 1 - 1) 1) by lia.
    rewrite Z.mul_comm, Z.div_mul by lia. lia.
Qed.

(** ** Timed tables *)

(** [m] is the table [M] up to entries that have expired at [t]. *)
Definition entry_rel {A} (done_at : Z -> A -> Prop) (t : Z) (e E : option A) : Prop :=
  match e, E with
  | Some e, Some E => e = E
  | None, Some E => done_at t E
  | None, None => True
  | Some _, None => False
  end.
Definition table_rel {K A} `{Countable K} (done_at : Z -> A -> Prop) (t : Z) (m M : gmap K A) : Prop :=
  forall k, entry_rel done_at t (m !! k) (M !! k).

Section table.
Context {K A : Type} `{Countable K} (done_at : Z -> A -> Prop).
Hypothesis done_mono : forall t t' e, t <= t' -> done_at t e -> done_at t' e.

Lemma table_rel_mono t t' (m M : gmap K A) : t <= t' -> table_rel done_at t m M -> table_rel done_at t' m M.
Proof.
  intros Ht Hr k. specialize (Hr k). destruct (m !! k), (M !! k); simpl in *; eauto.
Qed.
Lemma table_rel_insert t (m M : gmap K A) k e :
  table_rel done_at t m M -> table_rel done_at t (<[k := e]> m) (<[k := e]> M).
Proof.
  intros Hr k'. destruct (decide (k = k')) as [->|Hk]; [by rewrite !lookup_insert_eq|].
  rewrite !lookup_insert_ne by done. apply Hr.
Qed.
Lemma table_rel_delete t (m M : gmap K A) k :
  table_rel done_at t m M -> table_rel done_at t (delete k m) (delete k M).
Proof.
  intros Hr k'. destruct (decide (k = k')) as [->|Hk]; [by rewrite !lookup_delete_eq|].
  rewrite !lookup_delete_ne by done. apply Hr.
Qed.
(** Forgetting an expired entry. *)
Lemma table_rel_forget t (m M : gmap K A) k e :
  table_rel done_at t m M -> m !! k = Some e -> done_at t e -> table_rel done_at t (delete k m) M.
Proof.
  intros Hr Hk Hd k'. destruct (decide (k = k')) as [->|Hne].
  - specialize (Hr k'). rewrite Hk in Hr. rewrite lookup_delete_eq.
    destruct (M !! k'); simpl in *; [by subst|done].
  - rewrite lookup_delete_ne by done. apply Hr.
Qed.
Lemma table_rel_dom t (m M : gmap K A) : table_rel done_at t m M -> dom m ⊆ dom M.
Proof.
  intros Hr k. rewrite !elem_of_dom. specialize (Hr k). destruct (m !! k), (M !! k); simpl in *; eauto.
  by intros [].
Qed.
End table.

Lemma hash_iter_nil {K A} `{Countable K} {HO : HashOrder} {HL : HashOrderLaws HO} (m : gmap K A) :
  hash_iter m = [] -> m = ∅.
Proof.
  intros E. apply map_to_list_empty_iff. apply Permutation_nil_r. by rewrite <- (hash_iter_perm m), E.
Qed.

(** A table with room keeps everything. *)
Lemma evict_oldest_room {K A} `{Countable K} {HO : HashOrder} (at_ : A -> Z) (key : K) cap (m : gmap K A)
    (D : gset K) :
  dom m ⊆ D -> key ∈ D -> Z.of_nat (size D) <= cap -> evict_oldest at_ key cap m = m.
Proof.
  intros Hd Hk Hc. unfold evict_oldest. case_bool_decide as Hi; [done|]. cbn [negb andb].
  destruct (Z.leb_spec cap (Z.of_nat (size m))); [|done]. exfalso.
  assert (key ∉ dom m) by (by rewrite elem_of_dom).
  assert (size ({[key]} ∪ dom m) <= size D)%nat by (apply subseteq_size; set_solver).
  rewrite size_union, size_singleton, size_dom in * by set_solver. lia.
Qed.

(** Without room the table never grows past its cap. *)
Lemma min_by_key_elem {A} (f : A -> Z) l a : min_by_key f l = Some a -> a ∈ l /\ Forall (fun b => f a <= f b) l.
Proof.
  revert a. induction l as [|x l IH]; intros a; simpl; [done|].
  destruct (min_by_key f l) as [b|] eqn:E.
  - destruct (IH b eq_refl) as [Hb Hl]. intros [= <-]. destruct (Z.ltb_spec (f b) (f x)).
    + split; [by right|]. constructor; [lia|done].
    + split; [left|]. constructor; [lia|]. eapply Forall_impl; [exact Hl|]. cbn. lia.
  - intros [= <-]. destruct l; [|simpl in E; by destruct (min_by_key f l)].
    split; [left|repeat constructor; lia].
Qed.
Lemma evict_oldest_bound {K A} `{Countable K} {HO : HashOrder} {HL : HashOrderLaws HO}
    (at_ : A -> Z) (key : K) cap (m : gmap K A) e :
  1 <= cap -> Z.of_nat (size m) <= cap ->
  Z.of_nat (size (<[key := e]> (evict_oldest at_ key cap m))) <= cap.
Proof.
  intros Hc Hs. unfold evict_oldest. case_bool_decide as Hi; cbn [negb andb].
  - destruct Hi as [x Hx]. rewrite map_size_insert_Some by (by exists x). done.
  - assert (Hn : m !! key = None) by (by apply eq_None_not_Some).
    destruct (Z.leb_spec cap (Z.of_nat (size m))).
    + destruct (min_by_key _ (hash_iter m)) as [[v a]|] eqn:E.
      * apply min_by_key_elem in E as [Hv _]. rewrite (hash_iter_perm m) in Hv. apply elem_of_map_to_list in Hv.
        rewrite map_size_insert_None by (rewrite lookup_delete_None; by right).
        rewrite map_size_delete_Some by (by exists a). lia.
      * assert (m = ∅) as -> by (apply hash_iter_nil; destruct (hash_iter m) as [|x l]; [done|];
          simpl in E; by destruct (min_by_key _ l)).
        rewrite map_size_insert_None by apply lookup_empty. rewrite map_size_empty. lia.
    + rewrite map_size_insert_None by done. lia.
Qed.

(** ** The specification: the last failure, until a success *)

Section refinement.
Context {R : Type} {CK : Clock R} {CL : ClockLaws R CK} {HO : HashOrder} {HL : HashOrderLaws HO}.

Inductive TrackerOp : Type :=
| TMarkBroken (route : RouteKey) (origin : Origin)
| TMarkWorking (route : RouteKey) (origin : Origin)
| TIsBroken (route : RouteKey) (origin : Origin)
| TReachability (route : RouteKey) (origin : Origin)
| TMarkRouteBroken (route : RouteKey) (reason : BrokenReason)
| TMarkRouteWorking (route : RouteKey)
| TIsRouteBroken (route : RouteKey).

Definition track_op (op : TrackerOp) (t : BrokenQuicTracker) (r : R) : BrokenQuicTracker * R :=
  match op with
  | TMarkBroken route origin => mark_broken_for_route route origin t r
  | TMarkWorking route origin => (mark_working_for_route route origin t, r)
  | TIsBroken route origin => let '(_, t, r) := is_broken_for_route route origin t r in (t, r)
  | TReachability route origin => let '(_, t, r) := h3_reachability_for_route route origin t r in (t, r)
  | TMarkRouteBroken route reason => mark_route_broken route reason t r
  | TMarkRouteWorking route => (mark_route_working route t, r)
  | TIsRouteBroken route => let '(_, t, r) := is_route_broken route t r in (t, r)
  end.

(** The failures recorded, with no eviction and no expiry. *)
Record Failures : Type := mkFailures {
  f_origins : gmap RouteOriginKey BrokenEntry;
  f_routes : gmap RouteKey BrokenRouteEntry;
}.

Definition origin_over (t : Z) (e : BrokenEntry) : Prop := cooldown e <= elapsed_since t (failed_at e).
Definition route_over (t : Z) (e : BrokenRouteEntry) : Prop := r_cooldown e <= elapsed_since t (r_failed_at e).

Definition next_failure (cfg : BrokenQuicConfig) (prev : option BrokenEntry) (t0 t1 : Z) : BrokenEntry :=
  let count := match prev with
               | Some e => if cooldown e <=? elapsed_since t0 (failed_at e) then 1
                           else u32_saturating_add (failure_count e) 1
               | None => 1
               end in
  mkBroken t1 (cooldown_for_failure cfg count) count.

(** [t0] is the first reading of the clock in the operation and [t1] the last. *)
Definition spec_track (cfg : BrokenQuicConfig) (op : TrackerOp) (t0 t1 : Z) (f : Failures) : Failures :=
  match op with
  | TMarkBroken route origin =>
      let k := mkKey route origin in
      mkFailures (<[k := next_failure cfg (f_origins f !! k) t0 t1]> (f_origins f)) (f_routes f)
  | TMarkWorking route origin => mkFailures (delete (mkKey route origin) (f_origins f)) (f_routes f)
  | TMarkRouteBroken route reason =>
      mkFailures (f_origins f) (<[route := mkBrokenRoute t1 (route_cooldown cfg) reason]> (f_routes f))
  | TMarkRouteWorking route => mkFailures (f_origins f) (delete route (f_routes f))
  | _ => f
  end.

Definition tracker_rel (t : BrokenQuicTracker) (f : Failures) (r : R) : Prop :=
  table_rel origin_over (horizon r) (broken t) (f_origins f) /\
  table_rel route_over (horizon r) (broken_routes t) (f_routes f).

Lemma origin_over_mono t t' e : t <= t' -> origin_over t e -> origin_over t' e.
Proof. unfold origin_over, elapsed_since. lia. Qed.
Lemma route_over_mono t t' e : t <= t' -> route_over t e -> route_over t' e.
Proof. unfold route_over, elapsed_since. lia. Qed.
Lemma tracker_rel_mono t f r r' : horizon r <= horizon r' -> tracker_rel t f r -> tracker_rel t f r'.
Proof.
  intros Ht [H1 H2].
  split; (eapply table_rel_mono; [|exact Ht|]; eauto using origin_over_mono, route_over_mono).
Qed.

(** An answer is right at some moment between the call and the return. *)
Definition answer (over : Z -> Prop) (b : bool) (r r' : R) : Prop :=
  if b then ~ over (horizon r) else over (horizon r').

Definition origin_ok (f : Failures) (k : RouteOriginKey) (t : Z) : Prop :=
  match f_origins f !! k with Some e => origin_over t e | None => True end.
Definition route_ok (f : Failures) (route : RouteKey) (t : Z) : Prop :=
  match f_routes f !! route with Some e => route_over t e | None => True end.

Lemma is_route_broken_rel route t f r b t' r' :
  enabled (config t) = true -> tracker_rel t f r -> is_route_broken route t r = (b, t', r') ->
  horizon r <= horizon r' /\ tracker_rel t' f r' /\ config t' = config t /\ broken t' = broken t /\
  answer (route_ok f route) b r r'.
Proof.
  intros He Hr. unfold is_route_broken. rewrite He. cbn [negb]. pose proof Hr as [H1 H2].
  specialize (H2 route) as Hk. unfold answer, route_ok.
  destruct (broken_routes t !! route) as [e|] eqn:E; cycle 1.
  { intros [= <- <- <-]. split_and!; [lia|done..|]. by destruct (f_routes f !! route). }
  destruct (f_routes f !! route) as [x|] eqn:Ef; [|done]. cbn [entry_rel] in Hk. subst x.
  destruct (instant_now r) as [now r1] eqn:En. apply horizon_step in En as [-> Hn].
  destruct (Z.ltb_spec (elapsed_since (horizon r) (r_failed_at e)) (r_cooldown e)); intros [= <- <- <-].
  - split_and!; try done; [by eapply tracker_rel_mono|]. unfold route_over. lia.
  - assert (Ho : route_over (horizon r1) e) by (eapply route_over_mono; [exact Hn|done]).
    split_and!; try done. split; [by eapply table_rel_mono; eauto using origin_over_mono|]. cbn [broken_routes].
    eapply table_rel_forget; [|done..]. eapply table_rel_mono; eauto using route_over_mono.
Qed.

Lemma is_broken_rel route origin t f r b t' r' :
  enabled (config t) = true -> tracker_rel t f r -> is_broken_for_route route origin t r = (b, t', r') ->
  horizon r <= horizon r' /\ tracker_rel t' f r' /\ config t' = config t /\
  answer (fun now => route_ok f route now /\ origin_ok f (mkKey route origin) now) b r r'.
Proof.
  intros He Hr. unfold is_broken_for_route. rewrite He. cbn [negb].
  destruct (is_route_broken route t r) as [[rb t1] r1] eqn:E.
  destruct (is_route_broken_rel _ _ _ _ _ _ _ He Hr E) as (Ht & Hr1 & Hc & Hb & Ha).
  destruct rb; cbn [answer] in *.
  { intros [= <- <- <-]. split_and!; try done. unfold answer in *. tauto. }
  pose proof Hr1 as [H1 H2]. specialize (H1 (mkKey route origin)) as Hk. unfold origin_ok.
  destruct (broken t1 !! mkKey route origin) as [e|] eqn:Eb; cycle 1.
  { intros [= <- <- <-]. by split_and!. }
  destruct (f_origins f !! mkKey route origin) as [x|] eqn:Ef; [|done]. cbn [entry_rel] in Hk. subst x.
  destruct (instant_now r1) as [now r2] eqn:En. apply horizon_step in En as [-> Hn].
  destruct (Z.ltb_spec (elapsed_since (horizon r1) (failed_at e)) (cooldown e)); intros [= <- <- <-].
  - split_and!; try done; [lia|by eapply tracker_rel_mono|]. cbn. intros [_ Ho].
    apply (origin_over_mono _ (horizon r1)) in Ho; [|lia]. unfold origin_over in Ho. lia.
  - assert (Ho : origin_over (horizon r2) e) by (eapply origin_over_mono; [exact Hn|done]).
    split_and!; try done; [lia| |].
    + split; [|by eapply table_rel_mono; eauto using route_over_mono]. cbn [broken].
      eapply table_rel_forget; [|done..]. eapply table_rel_mono; eauto using origin_over_mono.
    + cbn. split; [|done]. unfold route_ok in *. destruct (f_routes f !! route); [|done].
      by eapply route_over_mono.
Qed.

Lemma reachability_rel route origin t f r s t' r' :
  tracker_rel t f r -> h3_reachability_for_route route origin t r = (s, t', r') ->
  horizon r <= horizon r' /\ tracker_rel t' f r' /\ config t' = config t /\
  answer (origin_ok f (mkKey route origin)) (bool_decide (is_Some s)) r r'.
Proof.
  intros Hr. unfold h3_reachability_for_route. pose proof Hr as [H1 H2].
  specialize (H1 (mkKey route origin)) as Hk. unfold origin_ok.
  destruct (broken t !! mkKey route origin) as [e|] eqn:Eb; cycle 1.
  { intros [= <- <- <-]. split_and!; [lia|done..|]. cbn. by destruct (f_origins f !! _). }
  destruct (f_origins f !! mkKey route origin) as [x|] eqn:Ef; [|done]. cbn [entry_rel] in Hk. subst x.
  destruct (instant_now r) as [now r1] eqn:En. apply horizon_step in En as [-> Hn].
  destruct (Z.leb_spec (cooldown e) (elapsed_since (horizon r) (failed_at e))); intros [= <- <- <-].
  - assert (Ho : origin_over (horizon r1) e) by (eapply origin_over_mono; [exact Hn|done]).
    split_and!; try done. split; [|by eapply table_rel_mono; eauto using route_over_mono]. cbn [broken].
    eapply table_rel_forget; [|done..]. eapply table_rel_mono; eauto using origin_over_mono.
  - split_and!; try done; [by eapply tracker_rel_mono|]. cbn. unfold origin_over. lia.
Qed.

(** The keys an operation may add. *)
Definition op_key (op : TrackerOp) : gset RouteOriginKey :=
  match op with TMarkBroken route origin => {[mkKey route origin]} | _ => ∅ end.
Definition op_route (op : TrackerOp) : gset RouteKey :=
  match op with TMarkRouteBroken route _ => {[route]} | _ => ∅ end.

Lemma mark_broken_rel route origin t f r t' r' D :
  tracker_rel t f r -> dom (f_origins f) ⊆ D -> mkKey route origin ∈ D ->
  Z.of_nat (size D) <= max_entries (config t) ->
  mark_broken_for_route route origin t r = (t', r') ->
  exists t1, horizon r <= t1 <= horizon r' /\ config t' = config t /\
  tracker_rel t' (spec_track (config t) (TMarkBroken route origin) (horizon r) t1 f) r'.
Proof.
  intros Hr Hd Hk Hcap. unfold mark_broken_for_route. pose proof Hr as [H1 H2].
  rewrite (evict_oldest_room _ _ _ _ D); [|by etrans; [eapply table_rel_dom, H1|]|done..].
  specialize (H1 (mkKey route origin)) as Hkr. cbn [spec_track]. unfold next_failure.
  destruct (broken t !! mkKey route origin) as [e|] eqn:Eb.
  - destruct (f_origins f !! mkKey route origin) as [x|] eqn:Ef; [|done]. cbn [entry_rel] in Hkr. subst x.
    destruct (instant_now r) as [now r1] eqn:En. apply horizon_step in En as [-> Hn].
    destruct (instant_now r1) as [now r2] eqn:En. apply horizon_step in En as [-> Hn2]. intros [= <- <-].
    exists (horizon r1). split_and!; try done.
    destruct (tracker_rel_mono t f r r2 ltac:(lia) Hr) as [Ha Hb]. split; [|done]. by apply table_rel_insert.
  - destruct (instant_now r) as [now r1] eqn:En. apply horizon_step in En as [-> Hn]. intros [= <- <-].
    exists (horizon r). split_and!; try done; try lia.
    destruct (tracker_rel_mono t f r r1 ltac:(lia) Hr) as [Ha Hb]. split; [|done].
    cbn [broken f_origins]. destruct (f_origins f !! mkKey route origin) as [x|] eqn:Ef; [|by apply table_rel_insert].
    cbn [entry_rel] in Hkr. unfold origin_over in Hkr.
    replace (cooldown x <=? elapsed_since (horizon r) (failed_at x)) with true by lia. by apply table_rel_insert.
Qed.

Lemma track_op_rel op t f r t' r' D DR :
  enabled (config t) = true -> tracker_rel t f r ->
  dom (f_origins f) ⊆ D -> op_key op ⊆ D -> Z.of_nat (size D) <= max_entries (config t) ->
  dom (f_routes f) ⊆ DR -> op_route op ⊆ DR -> Z.of_nat (size DR) <= max_route_entries (config t) ->
  track_op op t r = (t', r') ->
  exists t1, horizon r <= t1 <= horizon r' /\ config t' = config t /\
    tracker_rel t' (spec_track (config t) op (horizon r) t1 f) r'.
Proof.
  intros He Hr Hd Hk Hc Hdr Hkr Hcr. destruct op; cbn [track_op op_key op_route] in *.
  - apply (mark_broken_rel _ _ _ _ _ _ _ D); set_solver.
  - intros [= <- <-]. exists (horizon r). split_and!; try done; try lia.
    destruct Hr. split; [by apply table_rel_delete|done].
  - destruct (is_broken_for_route _ _ t r) as [[b t1] r1] eqn:E. intros [= <- <-].
    destruct (is_broken_rel _ _ _ _ _ _ _ _ He Hr E) as (? & ? & ? & _). by exists (horizon r).
  - destruct (h3_reachability_for_route _ _ t r) as [[b t1] r1] eqn:E. intros [= <- <-].
    destruct (reachability_rel _ _ _ _ _ _ _ _ Hr E) as (? & ? & ? & _). by exists (horizon r).
  - unfold mark_route_broken. destruct Hr as [H1 H2].
    rewrite (evict_oldest_room _ _ _ _ DR); [|by etrans; [eapply table_rel_dom, H2|]|set_solver|done].
    destruct (instant_now r) as [now r1] eqn:En. apply horizon_step in En as [-> Hn]. intros [= <- <-].
    exists (horizon r). split_and!; try done; try lia.
    destruct (tracker_rel_mono t f r r1 Hn (conj H1 H2)) as [Ha Hb]. split; [done|]. by apply table_rel_insert.
  - intros [= <- <-]. exists (horizon r). split_and!; try done; try lia.
    destruct Hr. split; [done|by apply table_rel_delete].
  - destruct (is_route_broken _ t r) as [[b t1] r1] eqn:E. intros [= <- <-].
    destruct (is_route_broken_rel _ _ _ _ _ _ _ He Hr E) as (? & ? & ? & _). by exists (horizon r).
Qed.

(** ** Runs *)

Definition run_tracker (cfg : BrokenQuicConfig) (ops : list TrackerOp) (r : R) : BrokenQuicTracker * R :=
  foldl (fun st op => track_op op st.1 st.2) (with_config cfg, r) ops.

(** An operation with its first and its last reading of the clock. *)
Record Timed : Type := mkTimed { t_op : TrackerOp; t_first : Z; t_last : Z }.

Definition failures (cfg : BrokenQuicConfig) (tl : list Timed) : Failures :=
  foldl (fun f x => spec_track cfg (t_op x) (t_first x) (t_last x) f) (mkFailures ∅ ∅) tl.

(** The readings are those of a run: an operation starts at the clock of the state it
    meets and ends before the clock of the state it leaves. *)
Definition read_in (r : R) (x : Timed) (r' : R) : Prop :=
  t_first x = horizon r /\ horizon r <= t_last x <= horizon r'.
Fixpoint timed_run (t : BrokenQuicTracker) (r : R) (tl : list Timed) : Prop :=
  match tl with
  | [] => True
  | x :: tl => read_in r x (track_op (t_op x) t r).2 /\
               timed_run (track_op (t_op x) t r).1 (track_op (t_op x) t r).2 tl
  end.

Lemma timed_run_snoc t r tl x :
  timed_run t r (tl ++ [x]) <->
  timed_run t r tl /\
  let st := foldl (fun st op => track_op op st.1 st.2) (t, r) (t_op <$> tl) in
  read_in st.2 x (track_op (t_op x) st.1 st.2).2.
Proof.
  revert t r. induction tl as [|y tl IH]; intros t r; cbn [app timed_run fmap list_fmap foldl].
  { cbn. tauto. }
  rewrite IH. cbn [fst snd]. destruct (track_op (t_op y) t r) as [t1 r1]. cbn [fst snd]. tauto.
Qed.

Definition keys_of (ops : list TrackerOp) : gset RouteOriginKey := ⋃ (op_key <$> ops).
Definition routes_of (ops : list TrackerOp) : gset RouteKey := ⋃ (op_route <$> ops).

Lemma failures_dom cfg tl :
  dom (f_origins (failures cfg tl)) ⊆ keys_of (t_op <$> tl) /\
  dom (f_routes (failures cfg tl)) ⊆ routes_of (t_op <$> tl).
Proof.
  unfold failures, keys_of, routes_of. induction tl as [|x tl IH] using rev_ind; [cbn; set_solver|].
  rewrite foldl_snoc, !fmap_app, !union_list_app_L. cbn [fmap list_fmap union_list foldr].
  destruct IH as [H1 H2]. destruct (t_op x); cbn [spec_track f_origins f_routes op_key op_route];
    rewrite ?dom_insert_L, ?dom_delete_L; set_solver.
Qed.

Lemma run_tracker_rel cfg ops : forall r t r',
  enabled cfg = true -> Z.of_nat (size (keys_of ops)) <= max_entries cfg ->
  Z.of_nat (size (routes_of ops)) <= max_route_entries cfg -> run_tracker cfg ops r = (t, r') ->
  exists tl, t_op <$> tl = ops /\ timed_run (with_config cfg) r tl /\ config t = cfg /\
    tracker_rel t (failures cfg tl) r'.
Proof.
  induction ops as [|op ops IH] using rev_ind; intros r t r' He Hk Hr; unfold run_tracker.
  { intros [= <- <-]. exists []. by split_and!. }
  rewrite foldl_snoc. fold (run_tracker cfg ops r). destruct (run_tracker cfg ops r) as [t0 r0] eqn:E0.
  unfold keys_of, routes_of in Hk, Hr. 
  rewrite fmap_app, union_list_app_L in Hk. rewrite fmap_app, union_list_app_L in Hr. cbn in Hk, Hr.
  rewrite (right_id_L ∅ (∪)) in Hk. rewrite (right_id_L ∅ (∪)) in Hr. fold (keys_of ops) in Hk. fold (routes_of ops) in Hr.
  destruct (IH r t0 r0 He) as (tl & Hops & Hord & Hcfg & Hrel); try done.
  { etrans; [|exact Hk]. apply inj_le, subseteq_size. set_solver. }
  { etrans; [|exact Hr]. apply inj_le, subseteq_size. set_solver. }
  cbn [fst snd]. intros Hop. destruct (failures_dom cfg tl) as [Hd1 Hd2]. rewrite Hops in Hd1, Hd2.
  destruct (track_op_rel op t0 (failures cfg tl) r0 t r' (keys_of ops ∪ op_key op) (routes_of ops ∪ op_route op))
    as (t1 & Ht1 & Hc & Hrel'); rewrite ?Hcfg; try done; try set_solver.
  exists (tl ++ [mkTimed op (horizon r0) t1]). split_and!.
  - by rewrite fmap_app, Hops.
  - apply timed_run_snoc. split; [done|]. rewrite Hops. fold (run_tracker cfg ops r). rewrite E0. cbn zeta.
    cbn [fst snd t_op]. rewrite Hop. split; [done|]. cbn [t_last snd]. lia.
  - congruence.
  - unfold failures. rewrite foldl_snoc. rewrite Hcfg in Hrel'. exact Hrel'.
Qed.

(** C18. The quarantine of QUIC refines a table of failures.  With the tracker
    enabled, and no more distinct keys than it has room for, run any operations
    and then ask whether an origin is broken on a route.  With each
    operation timed by the clock readings of its own execution, the answer agrees with the failures recorded on
    it: [true] only if the route, or the origin on that route, has a failure that
    no success cleared and whose cooldown was still running when the question was
    asked; [false] only if no such cooldown is still running when the answer is
    given.  That expired entries are dropped lazily by the queries is not
    observable. *)
Theorem quarantine_refines cfg ops r t r1 route origin b t' r2 :
  enabled cfg = true -> Z.of_nat (size (keys_of ops)) <= max_entries cfg ->
  Z.of_nat (size (routes_of ops)) <= max_route_entries cfg ->
  run_tracker cfg ops r = (t, r1) -> is_broken_for_route route origin t r1 = (b, t', r2) ->
  exists tl, t_op <$> tl = ops /\ timed_run (with_config cfg) r tl /\
    if b then ~ (route_ok (failures cfg tl) route (horizon r1) /\
                 origin_ok (failures cfg tl) (mkKey route origin) (horizon r1))
    else route_ok (failures cfg tl) route (horizon r2) /\
         origin_ok (failures cfg tl) (mkKey route origin) (horizon r2).
Proof.
  intros He Hk Hr Hrun Hq.
  destruct (run_tracker_rel _ _ _ _ _ He Hk Hr Hrun) as (tl & Hops & Hord & Hcfg & Hrel).
  exists tl. split_and!; try done.
  destruct (is_broken_rel _ _ _ _ _ _ _ _ ltac:(by rewrite Hcfg) Hrel Hq) as (_ & _ & _ & Ha). by destruct b.
Qed.

Lemma size_delete_le {K A} `{Countable K} (m : gmap K A) k : (size (delete k m) <= size m)%nat.
Proof. rewrite <- !size_dom. apply subseteq_size. rewrite dom_delete. set_solver. Qed.

(** The tables never outgrow their caps. *)
Lemma tracker_bounded cfg ops r t r' :
  1 <= max_entries cfg -> 1 <= max_route_entries cfg -> run_tracker cfg ops r = (t, r') ->
  config t = cfg /\ Z.of_nat (size (broken t)) <= max_entries cfg /\
  Z.of_nat (size (broken_routes t)) <= max_route_entries cfg.
Proof.
  intros H1 H2. revert t r'. unfold run_tracker.
  induction ops as [|op ops IH] using rev_ind; intros t r'.
  { intros [= <- <-]. unfold with_config. cbn [config broken broken_routes]. rewrite !map_size_empty. split_and!; [done|lia..]. }
  rewrite foldl_snoc. destruct (foldl _ _ ops) as [t0 r0]. destruct (IH t0 r0 eq_refl) as (<- & Hb & Hr).
  destruct op; cbn [track_op fst snd];
    unfold mark_broken_for_route, mark_working_for_route, is_broken_for_route, is_route_broken,
      h3_reachability_for_route, mark_route_broken, mark_route_working;
    repeat case_match; intros; simplify_eq/=; split_and!;
    try done; try (by apply evict_oldest_bound); by (etrans; [apply inj_le, size_delete_le|]).
Qed.

End refinement.

End broken_quic.
