(* ===== verification/Pipeline.v ===== *)
(** * Protocol selection (lkrequest/src/session/pipeline.rs, lkrequest/src/session/mod.rs)

    How a request picks its transport: the effective policy and version, the
    discovery of QUIC support from what the session has learned and from DNS,
    the decision between TCP, QUIC and a race, and the fallback from one to the
    other.  The DNS resolver is an argument of the discovery.  The crate is
    modelled with its [quic-h3] feature. *)
From S2P Require Import Prelude Text LkError Route SessionStore AltSvc AltSvcProps BrokenQuic.
Import lk_error protocol proxy route alt_svc.

Module pipeline.

Inductive PreferredHttpVersion : Type :=
| VAuto | Http1Only | Http2Only | Http3Only | Http3WithFallback.

#[export] Instance PreferredHttpVersion_eq_dec : EqDecision PreferredHttpVersion.
Proof. solve_decision. Defined.

Inductive ProtocolSelectionPolicy : Type := Deterministic | ChromeLike.

Record ChromeLikeProtocolConfig : Type := mkChromeLike {
  tcp_main_job_delay : Z;
  keep_quic_probe_after_tcp_win : bool;
  keep_tcp_probe_after_quic_win : bool;
}.
Definition default_chrome_like : ChromeLikeProtocolConfig := mkChromeLike (millis 300) true false.

(** The two [match] statements of the builder's legacy overrides. *)
Definition override_version (p : ProtocolPolicy) (v : PreferredHttpVersion) : ProtocolPolicy :=
  match v with
  | Http1Only | Http2Only => mkPolicy H2Only EstablishBestAvailable Off NoFallback
  | Http3Only => mkPolicy H3Only EstablishBestAvailable (upgrade p) NoFallback
  | Http3WithFallback =>
      mkPolicy AcquireH3WhenViable EstablishBestAvailable (upgrade p)
        (if bool_decide (fallback p = NoFallback) then AllowFallbackOnNetworkErrors else fallback p)
  | VAuto => p
  end.
Definition apply_legacy_protocol_policy_overrides (p : ProtocolPolicy) (v : PreferredHttpVersion)
    (sel : ProtocolSelectionPolicy) (cfg : ChromeLikeProtocolConfig) : ProtocolPolicy :=
  let p := override_version p v in
  match sel with
  | Deterministic =>
      match acquisition p with
      | Race _ => if bool_decide (v = VAuto) then with_acquisition p EstablishBestAvailable else p
      | _ => p
      end
  | ChromeLike =>
      with_acquisition p (Race {| enable_tcp := true; enable_quic := true;
                                  tcp_delay := tcp_main_job_delay cfg; quic_delay := 0;
                                  only_when_h3_advertised := true |})
  end.

(** The part of a session these functions read. *)
Record SessionConfig : Type := mkSessionConfig {
  s_proxy : option ProxyConfig;
  s_protocol_policy : ProtocolPolicy;
  s_preferred_http_version : PreferredHttpVersion;
  has_quic_profile : bool;
}.

Definition effective_proxy (over : option ProxyConfig) (s : SessionConfig) : option ProxyConfig :=
  match over with Some p => Some p | None => s_proxy s end.
Definition effective_protocol_policy (over : option ProtocolPolicy) (s : SessionConfig) : ProtocolPolicy :=
  default (s_protocol_policy s) over.
Definition protocol_policy_http_version (p : ProtocolPolicy) : PreferredHttpVersion :=
  match intent p with
  | H2Only => Http2Only
  | H3Only => Http3Only
  | AcquireH3WhenViable | PreferH3 => Http3WithFallback
  | ReuseExistingProtocol | IntentAuto => VAuto
  end.
Definition effective_http_version (over : option PreferredHttpVersion) (p : ProtocolPolicy)
    (s : SessionConfig) : PreferredHttpVersion :=
  match over with
  | Some v => v
  | None => if bool_decide (s_preferred_http_version s = Http1Only) then Http1Only
            else protocol_policy_http_version p
  end.

Definition probes (u : UpgradePolicy) : bool :=
  match u with
  | ProbeOnly | ProbeAndMigrate | ForceForNewRequests | BackgroundProbe
  | BackgroundProbeAndMigrate | ForceUpgradeForNewRequests => true
  | _ => false
  end.
Definition protocol_policy_chrome_like_config (p : ProtocolPolicy) (legacy : ChromeLikeProtocolConfig)
    : ChromeLikeProtocolConfig :=
  match acquisition p with
  | Race race => mkChromeLike (tcp_delay race) (probes (upgrade p)) false
  | _ => legacy
  end.

(** ** DNS *)

Record HttpsRecord : Type := mkHttps {
  ech_config_list : option bytes;
  h_alpn : list bytes;
  h_target : option bytes;
  h_port : option Z;
  ipv4_hints : list bytes;
  ipv6_hints : list bytes;
}.
Definition supports_h3 (r : HttpsRecord) : bool :=
  existsb (fun p => bool_decide (p = ascii_bytes "h3") || starts_with (ascii_bytes "h3-") p) (h_alpn r).

(** ** Discovery *)

Inductive QuicDiscoverySource : Type := FromAltSvc | FromDnsHttps.
Inductive QuicSkipReason : Type :=
| CleartextHttp | HttpVersionPreference | HttpProxyConfigured | BrokenOrigin
| SkipProxyUdpUnavailable | MissingProfile.

Record QuicDiscovery : Type := mkDiscovery {
  d_route : RouteKey;
  d_origin : Origin;
  learned_state : LearnedProtocolState;
  source : option QuicDiscoverySource;
  force_attempt : bool;
  advertised_host : option bytes;
  advertised_port : option Z;
  d_dns_https : option HttpsRecord;
  skip_reason : option QuicSkipReason;
}.

Definition should_attempt_quic (d : QuicDiscovery) : bool :=
  (force_attempt d || bool_decide (is_Some (source d))) && negb (bool_decide (is_Some (skip_reason d))).
Definition advertised_authority (d : QuicDiscovery) : option bytes :=
  port ← advertised_port d;
  Some (default (o_host (d_origin d)) (advertised_host d) ++ 58 :: show_dec port).

Definition unknown_state : LearnedProtocolState := mkLearned None RUnknown None.
Definition skipped (route : RouteKey) (origin : Origin) (reason : QuicSkipReason) : QuicDiscovery :=
  mkDiscovery route origin unknown_state None false None None None (Some reason).

Definition is_http_proxy (p : option ProxyConfig) : bool :=
  match p with
  | Some p => match proxy.scheme p with PHttp _ _ => true | _ => false end
  | None => false
  end.
Definition failed_status (s : H3Reachability) : bool :=
  match s with FailedTransiently | FailedPersistently => true | _ => false end.

Section discovery.
Context {R : Type} {CK : Clock R} {HO : HashOrder}.
(** [resolver.lookup_https(host).await.ok().flatten()]. *)
Variable lookup_https : bytes -> R -> option HttpsRecord * R.

Definition discover_quic_support (s : SessionConfig) (c : AltSvcCache) (t : BrokenQuicTracker)
    (scheme : Scheme) (host : bytes) (port : Z) (proxy : option ProxyConfig) (policy : ProtocolPolicy)
    (http_version : PreferredHttpVersion) (r : R)
    : QuicDiscovery * AltSvcCache * BrokenQuicTracker * R :=
  let origin := new_origin scheme host port in
  let route := from_proxy proxy in
  if negb (bool_decide (scheme = Https)) then (skipped route origin CleartextHttp, c, t, r)
  else if bool_decide (http_version = Http1Only) || bool_decide (http_version = Http2Only) then
    (skipped route origin HttpVersionPreference, c, t, r)
  else if negb (has_quic_profile s) then (skipped route origin MissingProfile, c, t, r)
  else
    let '(learned, c, t, r) := learned_protocol_state_for_route c t route origin r in
    let '(dns_https, r) :=
      if bool_decide (dns_mode route = Local) then lookup_https host r else (None, r) in
    let '(src, ahost, aport) :=
      match l_alt_svc learned with
      | Some e => (Some FromAltSvc, e_host e, Some (e_port e))
      | None =>
          match dns_https with
          | Some record =>
              if supports_h3 record then
                (Some FromDnsHttps, h_target record, Some (default port (h_port record)))
              else (None, None, None)
          | None => (None, None, None)
          end
      end in
    let force := bool_decide (http_version = Http3Only) || bool_decide (intent policy = H3Only) in
    let '(route_udp_broken, t, r) := is_route_broken route t r in
    let skip :=
      if route_udp_broken && negb force then Some SkipProxyUdpUnavailable
      else if negb (bool_decide (is_Some src)) then None
      else if is_http_proxy proxy && negb force then Some HttpProxyConfigured
      else if failed_status (h3_status learned) && negb force then Some BrokenOrigin
      else None in
    (mkDiscovery route origin learned src force ahost aport dns_https skip, c, t, r).

End discovery.

(** ** The decision *)

Inductive ProtocolDecision : Type := DTcp | DQuic | DRace.

Definition forces (u : UpgradePolicy) : bool :=
  match u with ForceForNewRequests | ForceUpgradeForNewRequests => true | _ => false end.
Definition migrates (u : UpgradePolicy) : bool :=
  match u with
  | ProbeAndMigrate | ForceForNewRequests | BackgroundProbeAndMigrate | ForceUpgradeForNewRequests => true
  | _ => false
  end.
Definition is_validated (s : H3Reachability) : bool := match s with Validated => true | _ => false end.
Definition is_advertised (s : H3Reachability) : bool := match s with Advertised => true | _ => false end.

Definition decide_protocol (v : PreferredHttpVersion) (p : ProtocolPolicy) (d : QuicDiscovery)
    : ProtocolDecision :=
  if bool_decide (v = Http1Only) then DTcp
  else if bool_decide (intent p = H2Only) || bool_decide (v = Http2Only) then DTcp
  else if bool_decide (intent p = H3Only) || bool_decide (v = Http3Only) then DQuic
  else if bool_decide (is_Some (skip_reason d)) then DTcp
  else
    let status := h3_status (learned_state d) in
    let advertised := is_advertised status || is_validated status in
    if negb (advertised || force_attempt d) then DTcp
    else match intent p with
         | AcquireH3WhenViable | PreferH3 =>
             match acquisition p with
             | Race race => if enable_quic race && enable_tcp race then DRace else DQuic
             | ReuseExistingFirst => if forces (upgrade p) && is_validated status then DQuic else DTcp
             | EstablishBestAvailable => DQuic
             end
         | ReuseExistingProtocol | IntentAuto =>
             let can_force_upgrade := migrates (upgrade p) && is_validated status in
             match acquisition p with
             | Race race =>
                 if enable_quic race && enable_tcp race &&
                    (negb (only_when_h3_advertised race) || advertised)
                 then DRace else DTcp
             | EstablishBestAvailable | ReuseExistingFirst => if can_force_upgrade then DQuic else DTcp
             end
         | H2Only => DTcp
         | H3Only => DQuic
         end.

Definition should_background_probe (p : ProtocolPolicy) (d : QuicDiscovery) : bool :=
  probes (upgrade p) && is_advertised (h3_status (learned_state d)) &&
  negb (bool_decide (is_Some (skip_reason d))).

Definition fallback_permitted (p : ProtocolPolicy) (e : Error) : bool :=
  match fallback p with
  | AllowFallback => true
  | AllowFallbackOnNetworkErrors => is_quic_handshake_failure e || is_timeout e || is_proxy_tunnel e
  | NoFallback => false
  end.

Definition is_connection_limit_error (e : Error) : bool :=
  match e with
  | Pool m => starts_with (ascii_bytes "session connection limit reached") m
  | _ => false
  end.

(** [show] is the [Display] of an error. *)
Definition protocol_race_error (show : Error -> bytes) (tcp_error quic_error : Error) : Error :=
  Connection (mkConnectionError QuicFallback
    (ascii_bytes "protocol race failed (tcp: " ++ show tcp_error ++ ascii_bytes "; quic: " ++
     show quic_error ++ ascii_bytes ")")).

Definition alpn_for_h1_only (base : list bytes) : list bytes :=
  let filtered := filter (fun p => negb (bool_decide (p = ascii_bytes "h2"))) base in
  if is_empty filtered then [ascii_bytes "http/1.1"] else filtered.

Definition should_use_h2 (negotiated_alpn : option bytes) (v : PreferredHttpVersion) : Outcome Error bool :=
  if bool_decide (v = Http1Only) then Ok false
  else if bool_decide (negotiated_alpn = Some (ascii_bytes "h2")) then Ok true
  else if bool_decide (v = Http2Only) then
    Err (lk_error.Http (ascii_bytes "HTTP/2 required but server did not negotiate h2 via ALPN"))
  else Ok false.

Definition default_port (s : Scheme) (port : Z) : bool :=
  match s with Https => port =? 443 | Http => port =? 80 end.
Definition build_host_value (s : Scheme) (host : bytes) (port : Z) : bytes :=
  if default_port s port then host else host ++ 58 :: show_dec port.
Definition build_h2_uri (s : Scheme) (host : bytes) (port : Z) (path : bytes) : bytes :=
  let scheme_str := ascii_bytes match s with Https => "https" | Http => "http" end in
  if default_port s port then scheme_str ++ ascii_bytes "://" ++ host ++ path
  else scheme_str ++ ascii_bytes "://" ++ host ++ 58 :: show_dec port ++ path.

End pipeline.

(** * Protocol selection: what a QUIC attempt rests on

    The decision composed with the discovery and with what the session has
    learned, for every interleaving of the operations that teach it. *)
Import lk_error protocol proxy route alt_svc alt_svc_props broken_quic pipeline.

Module pipeline_props.

(** ** Policies *)

(** Picking an intent makes a policy coherent, unless its race enables nothing. *)
Lemma with_intent_valid p i :
  (forall race, acquisition p = Race race -> enable_tcp race || enable_quic race = true) ->
  (i = H2Only \/ i = H3Only) -> validate (with_intent p i) = Ok tt.
Proof.
  intros Hr [->| ->]; destruct p as [i a u f]; cbn in *; destruct a as [| |race]; try done.
  specialize (Hr _ eq_refl). unfold with_intent, normalize_for_intent. cbn.
  destruct (enable_tcp race) eqn:E; [done|]. unfold validate. cbn. rewrite E. cbn in *. by rewrite Hr.
Qed.

(** A session that asks for HTTP/2 only, HTTP/1.1 only or HTTP/3 only and also for the
    Chrome-like selection cannot send a request: the builder combines the two into
    a policy that the validation in front of every request rejects. *)
Theorem legacy_overrides_conflict p v cfg :
  v = Http1Only \/ v = Http2Only \/ v = Http3Only ->
  exists m, validate (apply_legacy_protocol_policy_overrides p v ChromeLike cfg) = Err (InvalidConfig m).
Proof. intros [->|[->| ->]]; eexists; reflexivity. Qed.

Lemma legacy_deterministic_valid p v cfg :
  validate p = Ok tt -> validate (apply_legacy_protocol_policy_overrides p v Deterministic cfg) = Ok tt.
Proof.
  intros Hp. destruct v; try done; cbn [apply_legacy_protocol_policy_overrides override_version acquisition].
  destruct p as [i a u f]. cbn. destruct a as [| |race]; try done.
  revert Hp. unfold validate, with_acquisition. cbn. destruct i, f; done || (destruct u; done).
Qed.

(** ** The decision *)

Definition forced (v : PreferredHttpVersion) (p : ProtocolPolicy) : bool :=
  bool_decide (v = Http3Only) || bool_decide (intent p = H3Only).

Lemma decide_quic v p d :
  forced v p = false -> decide_protocol v p d <> DTcp ->
  v <> Http1Only /\ v <> Http2Only /\ intent p <> H2Only /\ skip_reason d = None /\
  (is_advertised (h3_status (learned_state d)) || is_validated (h3_status (learned_state d)) = true
   \/ force_attempt d = true).
Proof.
  unfold forced, decide_protocol. intros [Hv Hi]%orb_false_iff.
  apply bool_decide_eq_false in Hv, Hi.
  case_bool_decide as H1; [done|]. case_bool_decide as H2; [done|]. case_bool_decide as H3; [done|].
  rewrite !bool_decide_eq_false_2 by done. cbn [orb]. case_bool_decide as H4; [done|]. intros H.
  split_and!; try done; [by apply eq_None_not_Some|].
  destruct (is_advertised _ || is_validated _) eqn:E; [by left|]. right.
  cbn [orb] in H. by destruct (force_attempt d).
Qed.

Section learn.
Context {R : Type} {CK : Clock R} {CL : ClockLaws R CK} {HO : HashOrder} {HL : HashOrderLaws HO}.
Variable lookup_https : bytes -> R -> option HttpsRecord * R.
(** The resolver does not turn the clock back. *)
Hypothesis lookup_clock : forall h r, horizon r <= horizon (lookup_https h r).2.

Lemma learned_rel c t route origin sp f r ls c' t' r' :
  cache_rel c sp r -> tracker_rel t f r ->
  learned_protocol_state_for_route c t route origin r = (ls, c', t', r') ->
  horizon r <= horizon r' /\ cache_rel c' sp r' /\ tracker_rel t' f r' /\ config t' = config t /\
  (h3_status ls = Advertised -> exists e L, l_alt_svc ls = Some e /\ sp !! mkKey route origin = Some L /\
     e ∈ L /\ ~ expired_at (horizon r) e /\ (h3_exact e \/ h3_draft e)) /\
  (failed_status (h3_status ls) = false -> origin_ok f (mkKey route origin) (horizon r')) /\
  (h3_status ls = Validated -> is_Some (validated c !! mkKey route origin)) /\
  (forall e, l_alt_svc ls = Some e -> exists L, sp !! mkKey route origin = Some L /\ e ∈ L).
Proof.
  intros Hc Ht. unfold learned_protocol_state_for_route.
  destruct (find_h3_for_route route origin c r) as [[found c1] r1] eqn:Ef.
  pose proof (find_rel _ _ _ _ _ _ _ _ Hc Ef) as (Hle & Hc1 & Hfound).
  destruct (h3_reachability_for_route route origin t r1) as [[s t1] r2] eqn:Es.
  pose proof (reachability_rel _ _ _ _ _ _ _ _ (tracker_rel_mono _ _ _ _ Hle Ht) Es) as (Hle2 & Ht1 & Hcfg & Ha).
  intros [= <- <- <- <-]. cbn [h3_status l_alt_svc].
  assert (Hv : is_Some (last_validated_at_for_route route origin c1) -> is_Some (validated c !! mkKey route origin)).
  { unfold last_validated_at_for_route. revert Ef. unfold find_h3_for_route. clear.
    repeat case_match; intros [= <- <- <-]; cbn [validated]; try done.
    rewrite lookup_delete_eq. by intros [? [=]]. }
  split_and!; [lia|by eapply cache_rel_mono|done..| | | |].
  - destruct s as [s|]; [intros ->|].
    { revert Es. unfold h3_reachability_for_route. clear. repeat case_match; intros; by simplify_eq. }
    repeat case_bool_decide; try done. destruct found as [e|]; [|by destruct H0].
    intros _. destruct Hfound as (L & ? & ? & ? & ?). exists e, L. naive_solver.
  - destruct s as [s|]; [|by intros _; rewrite bool_decide_eq_false_2 in Ha by (by intros [? [=]])].
    intros Hs. exfalso. revert Es Hs. unfold h3_reachability_for_route. clear.
    repeat case_match; intros; simplify_eq; done.
  - destruct s as [s|]; [intros ->|].
    { revert Es. unfold h3_reachability_for_route. clear. repeat case_match; intros; by simplify_eq. }
    destruct (last_validated_at_for_route route origin c1) as [v|]; [by intros _; apply Hv; exists v|].
    by destruct found.
  - intros e ->. destruct Hfound as (L & ? & ? & _). by exists L.
Qed.

(** ** What a session learns, in any order *)

Record Learned : Type := mkLearnedState { ln_cache : AltSvcCache; ln_tracker : BrokenQuicTracker; ln_env : R }.

Definition learn_op (op : CacheOp + TrackerOp) (s : Learned) : Learned :=
  match op with
  | inl op => let '(c, r) := run_op op (ln_cache s, ln_env s) in mkLearnedState c (ln_tracker s) r
  | inr op => let '(t, r) := track_op op (ln_tracker s) (ln_env s) in mkLearnedState (ln_cache s) t r
  end.
Definition learn (cfg : BrokenQuicConfig) (ops : list (CacheOp + TrackerOp)) (r : R) : Learned :=
  foldl (fun s op => learn_op op s) (mkLearnedState cache_new (with_config cfg) r) ops.

Definition tracker_ops (ops : list (CacheOp + TrackerOp)) : list TrackerOp :=
  omap (fun op => match op with inl _ => None | inr op => Some op end) ops.

(** An entry that an operation of the history stored, at the clock of that moment. *)
Definition stored_for (cfg : BrokenQuicConfig) (ops : list (CacheOp + TrackerOp)) (r : R)
    (k : RouteOriginKey) (e : AltSvcEntry) : Prop :=
  exists header pre post, ops = pre ++ inl (OpStore (k_route k) (k_origin k) header) :: post /\
    o_scheme (k_origin k) = Https /\ e ∈ header_entries header (horizon (ln_env (learn cfg pre r))).

(** The operations of the tracker with the readings of the clock in this history. *)
Fixpoint timed_learn (s : Learned) (ops : list (CacheOp + TrackerOp)) (tl : list Timed) : Prop :=
  match ops, tl with
  | [], [] => True
  | inl op :: ops, tl => timed_learn (learn_op (inl op) s) ops tl
  | inr op :: ops, x :: tl =>
      let s' := learn_op (inr op) s in
      t_op x = op /\ read_in (ln_env s) x (ln_env s') /\ timed_learn s' ops tl
  | _, _ => False
  end.
Definition timeline (cfg : BrokenQuicConfig) (r : R) : list (CacheOp + TrackerOp) -> list Timed -> Prop :=
  timed_learn (mkLearnedState cache_new (with_config cfg) r).

Lemma timed_learn_cache s ops tl op :
  timed_learn s ops tl -> timed_learn s (ops ++ [inl op]) tl.
Proof.
  revert s tl. induction ops as [|[o|o] ops IH]; intros s tl; cbn; [by destruct tl|apply IH|].
  destruct tl as [|x tl]; [done|]. naive_solver.
Qed.
Lemma timed_learn_tracker s ops tl op x :
  timed_learn s ops tl -> t_op x = op ->
  (let s1 := foldl (fun s op => learn_op op s) s ops in read_in (ln_env s1) x (ln_env (learn_op (inr op) s1))) ->
  timed_learn s (ops ++ [inr op]) (tl ++ [x]).
Proof.
  revert s tl. induction ops as [|[o|o] ops IH]; intros s tl; cbn [app foldl timed_learn]; [|apply IH|].
  - destruct tl as [|y tl]; [|done]. by cbn.
  - destruct tl as [|y tl]; [done|]. cbn [app]. intros (? & ? & ?) ? ?. split_and!; try done. by apply IH.
Qed.

Lemma tracker_ops_snoc ops op :
  tracker_ops (ops ++ [op]) = tracker_ops ops ++ match op with inl _ => [] | inr op => [op] end.
Proof. unfold tracker_ops. rewrite omap_app. by destruct op. Qed.

Lemma stored_for_later cfg ops op r k e : stored_for cfg ops r k e -> stored_for cfg (ops ++ [op]) r k e.
Proof.
  intros (h & pre & post & -> & ? & ?). exists h, pre, (post ++ [op]). rewrite <- app_assoc. by split_and!.
Qed.
Lemma spec_op_from op now sp k L :
  spec_op op now sp !! k = Some L ->
  sp !! k = Some L \/ exists header, op = OpStore (k_route k) (k_origin k) header /\
    o_scheme (k_origin k) = Https /\ L = header_entries header now.
Proof.
  destruct op as [route origin header| | | |]; cbn [spec_op]; try by left.
  unfold spec_store. case_bool_decide as Hs; cbn [negb]; [|by left].
  case_match; [intros [_ Hd]%lookup_delete_Some; by left|]. case_match; [by left|].
  intros [[<- <-]|[_ H']]%lookup_insert_Some; [|by left]. right. by exists header.
Qed.

Lemma learn_rel cfg ops r :
  enabled cfg = true -> Z.of_nat (size (keys_of (tracker_ops ops))) <= max_entries cfg ->
  Z.of_nat (size (routes_of (tracker_ops ops))) <= max_route_entries cfg ->
  let s := learn cfg ops r in
  exists sp tl, cache_rel (ln_cache s) sp (ln_env s) /\ config (ln_tracker s) = cfg /\
    tracker_rel (ln_tracker s) (failures cfg tl) (ln_env s) /\ t_op <$> tl = tracker_ops ops /\
    timeline cfg r ops tl /\
    (forall k L e, sp !! k = Some L -> e ∈ L -> stored_for cfg ops r k e).
Proof.
  intros He Hk Hr. cbn zeta. revert Hk Hr. unfold learn.
  induction ops as [|op ops IH] using rev_ind; intros Hk Hr.
  { exists ∅, []. cbn. by split_and!. }
  rewrite foldl_snoc. set (s0 := foldl _ _ ops) in *.
  rewrite tracker_ops_snoc in *. set (new := match op with inl _ => [] | inr op => [op] end) in *.
  assert (Hmono : keys_of (tracker_ops ops) ⊆ keys_of (tracker_ops ops ++ new) /\
    routes_of (tracker_ops ops) ⊆ routes_of (tracker_ops ops ++ new)).
  { unfold keys_of, routes_of. rewrite !fmap_app, !union_list_app_L. set_solver. }
  destruct IH as (sp & tl & Hc & Hcfg & Ht & Hops & Hord & Hp).
  { etrans; [|exact Hk]. apply inj_le, subseteq_size, Hmono. }
  { etrans; [|exact Hr]. apply inj_le, subseteq_size, Hmono. }
  subst new. destruct op as [op|op]; cbn [learn_op].
  - destruct (run_op op (ln_cache s0, ln_env s0)) as [c' r'] eqn:E.
    destruct (run_op_rel _ _ _ _ _ _ Hc E) as [Hle Hc']. cbn [ln_cache ln_tracker ln_env].
    exists (spec_op op (horizon (ln_env s0)) sp), tl. rewrite app_nil_r. split_and!; try done.
    + by eapply tracker_rel_mono.
    + by apply timed_learn_cache.
    + intros k L e HL' He'. destruct (spec_op_from _ _ _ _ _ HL') as [Hold|(header & Hop & Hs & ->)].
      * by apply stored_for_later, (Hp _ L).
      * exists header, ops, []. rewrite Hop. by split_and!.
  - destruct (track_op op (ln_tracker s0) (ln_env s0)) as [t' r'] eqn:E.
    destruct (failures_dom cfg tl) as [Hd1 Hd2]. rewrite Hops in Hd1, Hd2.
    unfold keys_of, routes_of in Hk, Hr. rewrite fmap_app, union_list_app_L in Hk.
    rewrite fmap_app, union_list_app_L in Hr. cbn in Hk, Hr.
    rewrite (right_id_L ∅ (∪)) in Hk. rewrite (right_id_L ∅ (∪)) in Hr.
    destruct (track_op_rel op _ _ _ t' r' (keys_of (tracker_ops ops) ∪ op_key op)
                (routes_of (tracker_ops ops) ∪ op_route op) ltac:(by rewrite Hcfg) Ht)
      as (t1 & Ht1 & Hc' & Hrel'); rewrite ?Hcfg; try done;
      try apply union_subseteq_r; try (etrans; [eassumption|apply union_subseteq_l]).
    cbn [ln_cache ln_tracker ln_env]. exists sp, (tl ++ [mkTimed op (horizon (ln_env s0)) t1]).
    split_and!.
    + eapply cache_rel_mono; [|done]. lia.
    + congruence.
    + unfold failures. rewrite foldl_snoc. rewrite Hcfg in Hrel'. exact Hrel'.
    + by rewrite fmap_app, Hops.
    + apply timed_learn_tracker; [done..|]. cbn zeta. fold s0. cbn [learn_op]. rewrite E. split; [done|].
      cbn [t_last ln_env]. lia.
    + intros k L e HL' He'. by apply stored_for_later, (Hp _ L).
Qed.

(** ** Discovery *)

Lemma discover_rel sc c t sp f scheme host port proxy policy v r d c' t' r' :
  cache_rel c sp r -> tracker_rel t f r -> enabled (config t) = true ->
  discover_quic_support lookup_https sc c t scheme host port proxy policy v r = (d, c', t', r') ->
  forced v policy = false -> skip_reason d = None ->
  let k := mkKey (from_proxy proxy) (new_origin scheme host port) in
  scheme = Https /\ has_quic_profile sc = true /\ force_attempt d = false /\
  route_ok f (from_proxy proxy) (horizon r') /\
  (failed_status (h3_status (learned_state d)) = false -> origin_ok f k (horizon r')) /\
  (h3_status (learned_state d) = Advertised -> is_http_proxy proxy = false /\ exists e L,
     advertised_port d = Some (e_port e) /\ advertised_host d = e_host e /\ sp !! k = Some L /\ e ∈ L /\
     ~ expired_at (horizon r) e /\ (h3_exact e \/ h3_draft e)) /\
  (h3_status (learned_state d) = Validated -> is_Some (validated c !! k)).
Proof.
  intros Hc Ht He. unfold discover_quic_support. case_bool_decide as Hs; cbn [negb]; [|by intros [= <- <- <- <-]].
  case_match; [by intros [= <- <- <- <-]|]. destruct (has_quic_profile sc); cbn [negb]; [|by intros [= <- <- <- <-]].
  set (k := mkKey (from_proxy proxy) (new_origin scheme host port)).
  destruct (learned_protocol_state_for_route _ _ _ _ _) as [[[ls c1] t1] r1] eqn:El.
  destruct (learned_rel _ _ _ _ _ _ _ _ _ _ _ Hc Ht El) as (H1 & Hc1 & Ht1 & Hcfg & Hadv & Hok & Hval & _).
  fold k in Hadv, Hok, Hval.
  destruct (if bool_decide _ then lookup_https host r1 else (None, r1)) as [dns r2] eqn:Ed.
  assert (H2 : horizon r1 <= horizon r2).
  { case_bool_decide; [|by simplify_eq]. pose proof (lookup_clock host r1) as Hl. by rewrite Ed in Hl. }
  destruct (match l_alt_svc ls with Some _ => _ | None => _ end) as [[src ahost] aport] eqn:Esrc.
  destruct (is_route_broken (from_proxy proxy) t1 r2) as [[rb t2] r3] eqn:Er.
  destruct (is_route_broken_rel _ _ _ _ _ _ _ ltac:(by rewrite Hcfg) (tracker_rel_mono _ _ _ _ H2 Ht1) Er)
    as (H3 & _ & _ & _ & Ha).
  intros [= <- <- <- <-] Hf. fold (forced v policy). rewrite Hf. cbn [negb skip_reason]. rewrite !andb_true_r.
  destruct rb; [done|]. cbn [answer] in Ha. intros Hskip.
  split_and!; try done; cbn [learned_state advertised_port advertised_host].
  - intros Hst. specialize (Hok Hst). unfold origin_ok in *. destruct (f_origins f !! k); [|done].
    eapply origin_over_mono; [|done]. lia.
  - intros Hst. destruct (Hadv Hst) as (e & L & Ee & ? & ? & ? & ?). rewrite Ee in Esrc. simplify_eq.
    cbn [is_Some] in Hskip. split; [|by exists e, L].
    by destruct (is_http_proxy proxy).
Qed.


Lemma learned_unknown c t route origin r ls c' t' r' :
  learned_protocol_state_for_route c t route origin r = (ls, c', t', r') ->
  l_alt_svc ls = None -> last_validated_at ls = None ->
  is_advertised (h3_status ls) = false /\ is_validated (h3_status ls) = false.
Proof.
  unfold learned_protocol_state_for_route.
  destruct (find_h3_for_route route origin c r) as [[found c1] r1].
  destruct (h3_reachability_for_route route origin t r1) as [[s t1] r2] eqn:Es.
  intros [= <- <- <- <-]. cbn [l_alt_svc last_validated_at h3_status]. intros -> ->. cbn.
  destruct s as [s|]; [|done]. revert Es. unfold h3_reachability_for_route.
  repeat case_match; intros; by simplify_eq.
Qed.

(** HTTPS resource records never lead to QUIC: while an origin has no fresh
    Alt-Svc entry and no validated connection on its route, the decision is TCP
    and no background probe is started, whatever the resolver answers. *)
Theorem dns_discovery_unused sc c t scheme host port proxy policy v r d c' t' r' :
  forced v policy = false ->
  discover_quic_support lookup_https sc c t scheme host port proxy policy v r = (d, c', t', r') ->
  l_alt_svc (learned_state d) = None -> last_validated_at (learned_state d) = None ->
  decide_protocol v policy d = DTcp /\ should_background_probe policy d = false.
Proof.
  intros Hf Hd Ha Hl.
  assert (Hst : is_advertised (h3_status (learned_state d)) = false /\
                is_validated (h3_status (learned_state d)) = false /\ force_attempt d = false).
  { revert Hd Ha Hl. unfold discover_quic_support. repeat (case_match; [by intros [= <- <- <- <-]|]).
    destruct (learned_protocol_state_for_route _ _ _ _ _) as [[[ls c1] t1] r1] eqn:El.
    pose proof (learned_unknown _ _ _ _ _ _ _ _ _ El).
    repeat case_match; intros [= <- <- <- <-]; cbn [learned_state force_attempt]; naive_solver. }
  destruct Hst as (H1 & H2 & H3). split.
  - unfold decide_protocol. rewrite H1, H2, H3. revert Hf. unfold forced.
    intros [Hv Hi]%orb_false_iff. apply bool_decide_eq_false in Hv, Hi.
    rewrite (bool_decide_eq_false_2 (intent policy = H3Only)), (bool_decide_eq_false_2 (v = Http3Only)) by done.
    cbn [orb negb]. by repeat case_match.
  - unfold should_background_probe. rewrite H1. by rewrite andb_false_r.
Qed.

End learn.

End pipeline_props.
