(* ===== verification/Retry.v ===== *)
(** * Retries (lkrequest/src/retry.rs, the loop of lkrequest/src/session/request.rs)

    The retry policies with their backoff, the replay-safety gate, and the loop
    that sends a request until it succeeds or a retry is refused.  Durations are
    nanoseconds.  The jitter is computed in [f64]: the standard library's
    [spec_float] is IEEE-754 arithmetic written out. *)
From Stdlib Require Import SpecFloat.
From S2P Require Import Prelude Text TlsCipher LkError Route.
Import lk_error protocol.

Module retry.

(** ** Replay safety *)

Inductive Idempotency : Type := IDefault | Idempotent | NotIdempotent.

Definition is_method (m : bytes) (s : string) : bool := bool_decide (m = ascii_bytes s).
Definition can_send_early_data (method : bytes) (i : Idempotency) : bool :=
  match i with
  | Idempotent => true
  | NotIdempotent => false
  | IDefault => is_method method "GET" || is_method method "HEAD" || is_method method "OPTIONS" ||
                is_method method "TRACE"
  end.

Definition retry_is_replay_safe (method : bytes) (i : Idempotency) (e : Error) : bool :=
  is_safe_to_replay e || can_send_early_data method i.

Definition is_retryable_status (status : Z) : bool :=
  (status =? 429) || (status =? 502) || (status =? 503) || ((520 <=? status) && (status <=? 530)).

(** ** Policies *)

(** The trait: the delay before the retry, if there is to be one. *)
Class RetryPolicy (R P : Type) : Type :=
  should_retry : P -> Z -> option Error -> option Z -> R -> option Z * R.

Definition retryable (e : option Error) (status : option Z) : bool :=
  match e, status with
  | Some e, _ => is_retryable e
  | None, Some s => is_retryable_status s
  | None, None => false
  end.

(** [Duration::as_millis() as u64], and back. *)
Definition as_millis (d : Z) : Z := as_u64 (d / 1000000).

Definition f64_of (n : Z) : spec_float := binary_normalize 53 1024 n 0 false.
(** [x as u64]: truncated and saturated. *)
Definition f64_to_u64 (x : spec_float) : Z :=
  match x with
  | S754_finite false m e => Z.min (Z.shiftl (Z.pos m) e) 18446744073709551615
  | S754_infinity false => 18446744073709551615
  | _ => 0
  end.

Section jitter.
Context {R : Type} `{SystemRandom R}.

Definition apply_jitter (delay_ms : Z) (r : R) : Z * R :=
  match fill 4 r with
  | (Some [b0; b1; b2; b3], r) =>
      (** [u32::from_ne_bytes], little endian *)
      let random_u32 := b0 + 256 * b1 + 65536 * b2 + 16777216 * b3 in
      let ratio := SFdiv 53 1024 (f64_of random_u32) (f64_of 4294967295) in
      let half := SFdiv 53 1024 (f64_of 1) (f64_of 2) in
      let three_quarters := SFdiv 53 1024 (f64_of 3) (f64_of 4) in
      let factor := SFadd 53 1024 three_quarters (SFmul 53 1024 ratio half) in
      let jittered := f64_to_u64 (SFmul 53 1024 (f64_of delay_ms) factor) in
      (millis (Z.max jittered 1), r)
  | (_, r) => (millis delay_ms, r)
  end.

Record ExponentialBackoff : Type := mkBackoff {
  eb_max_retries : Z;
  base_delay : Z;
  max_delay : Z;
  jitter : bool;
}.
Definition default_backoff : ExponentialBackoff := mkBackoff 3 (millis 500) (secs 30) true.

(** [2u64.saturating_pow(n)]. *)
Definition saturating_pow2 (n : Z) : Z := if n <? 64 then 2 ^ n else 18446744073709551615.

(** [base_delay * 2^(attempt - 1)], capped.  The product wraps. *)
Definition backoff_ms (p : ExponentialBackoff) (attempt : Z) : Z :=
  let multiplier := saturating_pow2 (Z.max 0 (attempt - 1)) in
  let delay_ms := as_u64 (as_millis (base_delay p) * multiplier) in
  Z.min delay_ms (as_millis (max_delay p)).

#[export] Instance exponential_policy : RetryPolicy R ExponentialBackoff := fun p attempt e status r =>
  if eb_max_retries p <? attempt then (None, r)
  else if negb (retryable e status) then (None, r)
  else
    let delay_ms := backoff_ms p attempt in
    if jitter p then let '(d, r) := apply_jitter delay_ms r in (Some d, r)
    else (Some (millis delay_ms), r).

Record FixedInterval : Type := mkFixed {
  fi_max_retries : Z;
  interval : Z;
}.

#[export] Instance fixed_policy : RetryPolicy R FixedInterval := fun p attempt e status r =>
  if fi_max_retries p <? attempt then (None, r)
  else (if retryable e status then Some (interval p) else None, r).

End jitter.

(** ** The loop

    [send] is one attempt, redirects included; a response is known here by its
    status.  [attempt] is a [u32]. *)
Section loop.
Context {R P Resp : Type} {RP : RetryPolicy R P}.
Variables (send : R -> Outcome Error Resp * R) (status_of : Resp -> Z) (sleep : Z -> R -> R).

(** The result, the environment, and the results of all attempts, in order. *)
Fixpoint retry_loop (fuel : nat) (policy : P) (method : bytes) (idem : Idempotency) (attempt : Z) (r : R)
    : option (Outcome Error Resp * list (Outcome Error Resp) * R) :=
  match fuel with
  | O => None
  | S fuel =>
      let '(result, r) := send r in
      let again (attempt : Z) (delay : Z) (r : R) :=
        '(final, tried, r) ← retry_loop fuel policy method idem attempt (sleep delay r);
        Some (final, result :: tried, r) in
      match result with
      | Ok resp =>
          let status := status_of resp in
          if is_retryable_status status then
            let attempt := as_u32 (attempt + 1) in
            match should_retry policy attempt None (Some status) r with
            | (Some delay, r) => again attempt delay r
            | (None, r) => Some (result, [result], r)
            end
          else Some (result, [result], r)
      | Err e =>
          let attempt := as_u32 (attempt + 1) in
          match should_retry policy attempt (Some e) None r with
          | (Some delay, r) =>
              if retry_is_replay_safe method idem e then again attempt delay r
              else Some (result, [result], r)
          | (None, r) => Some (result, [result], r)
          end
      | Panic => Some (Panic, [result], r)
      end
  end.

(** A policy with a limit, that retries nothing but transient failures. *)
Class RetryLimit : Type := retry_limit : P -> Z.
Class RetryLaws (RL : RetryLimit) : Prop :=
  should_retry_law : forall p attempt e s r d r',
    should_retry p attempt e s r = (Some d, r') -> attempt <= retry_limit p /\ retryable e s = true.
Context {RL : RetryLimit} {LW : RetryLaws RL}.

(** An attempt whose result allows another one. *)
Definition may_retry (method : bytes) (idem : Idempotency) (result : Outcome Error Resp) : Prop :=
  match result with
  | Ok resp => is_retryable_status (status_of resp) = true
  | Err e => is_retryable e = true /\ retry_is_replay_safe method idem e = true
  | Panic => False
  end.

Lemma retry_loop_run fuel policy method idem : forall attempt r,
  retry_limit policy < 4294967295 -> 0 <= attempt <= Z.max 0 (retry_limit policy) ->
  Z.max 0 (retry_limit policy) - attempt < Z.of_nat fuel ->
  exists final init r',
    retry_loop fuel policy method idem attempt r = Some (final, init ++ [final], r') /\
    len init <= Z.max 0 (retry_limit policy) - attempt /\ Forall (may_retry method idem) init.
Proof.
  induction fuel as [|fuel IH]; intros attempt r Hl Ha Hf; [lia|]. cbn [retry_loop].
  destruct (send r) as [result r1].
  assert (Hstop : forall r2 : R, exists final init r',
    Some (result, [result], r2) = Some (final, init ++ [final], r') /\
    len init <= Z.max 0 (retry_limit policy) - attempt /\ Forall (may_retry method idem) init).
  { intros r2. exists result, [], r2. rewrite len_nil. split_and!; [done|lia|constructor]. }
  assert (Hagain : forall e s d r2 r3, should_retry policy (as_u32 (attempt + 1)) e s r2 = (Some d, r3) ->
    may_retry method idem result ->
    exists final init r',
      match retry_loop fuel policy method idem (as_u32 (attempt + 1)) (sleep d r3) with
      | Some (final, tried, r) => Some (final, result :: tried, r)
      | None => None
      end = Some (final, init ++ [final], r') /\
      len init <= Z.max 0 (retry_limit policy) - attempt /\ Forall (may_retry method idem) init).
  { intros e s d r2 r3 Hs Hm. destruct (should_retry_law _ _ _ _ _ _ _ Hs) as [Hle _].
    rewrite as_u32_small in * by (unfold u32; lia).
    destruct (IH (attempt + 1) (sleep d r3)) as (final & init & r' & -> & Hn & Hall); [lia..|].
    exists final, (result :: init), r'. rewrite len_cons. split_and!; [done|lia|by constructor]. }
  destruct result as [resp|e|]; [| |exact (Hstop r1)].
  - destruct (is_retryable_status (status_of resp)) eqn:Es; [|apply Hstop].
    destruct (should_retry _ _ _ _ r1) as [[d|] r2] eqn:Er; [|apply Hstop]. by eapply Hagain.
  - destruct (should_retry _ _ _ _ r1) as [[d|] r2] eqn:Er; [|apply Hstop].
    destruct (retry_is_replay_safe method idem e) eqn:Es; [|apply Hstop]. eapply Hagain; [done|].
    destruct (should_retry_law _ _ _ _ _ _ _ Er) as [_ Hr]. done.
Qed.


End loop.
Arguments RetryLimit : clear implicits.
Arguments RetryLaws R P {RP} RL.

(** The built-in policies keep the law. *)
#[export] Instance exponential_limit : RetryLimit ExponentialBackoff := eb_max_retries.
#[export] Instance fixed_limit : RetryLimit FixedInterval := fi_max_retries.

#[export] Instance exponential_laws {R} `{SystemRandom R} : RetryLaws R ExponentialBackoff exponential_limit.
Proof.
  intros p a e s r d r'. unfold should_retry, exponential_policy, retry_limit, exponential_limit.
  destruct (Z.ltb_spec (eb_max_retries p) a); [done|]. by destruct (retryable e s).
Qed.
#[export] Instance fixed_laws {R} : RetryLaws R FixedInterval fixed_limit.
Proof.
  intros p a e s r d r'. unfold should_retry, fixed_policy, retry_limit, fixed_limit.
  destruct (Z.ltb_spec (fi_max_retries p) a); [done|]. by destruct (retryable e s).
Qed.

(** The delay doubles up to the cap, as long as the product fits. *)
Lemma backoff_doubles p n :
  1 <= n <= 64 -> 0 <= base_delay p -> as_millis (base_delay p) * 2 ^ (n - 1) < 18446744073709551616 ->
  backoff_ms p n = Z.min (as_millis (base_delay p) * 2 ^ (n - 1)) (as_millis (max_delay p)).
Proof.
  intros Hn Hb Hp. unfold backoff_ms, saturating_pow2. replace (Z.max 0 (n - 1)) with (n - 1) by lia.
  replace (n - 1 <? 64) with true by lia. unfold as_u64 at 1. rewrite Z.mod_small; [done|].
  split; [|done]. apply Z.mul_nonneg_nonneg; [|lia]. unfold as_millis, as_u64. apply Z.mod_pos_bound. lia.
Qed.
(** Past that the product wraps: with the default base the 63rd retry is immediate. *)
Lemma backoff_wraps : backoff_ms default_backoff 63 = 0.
Proof. reflexivity. Qed.

End retry.
