(* ===== verification/Hsts.v ===== *)
(** * HSTS policies (lkrequest/src/hsts.rs)

    The trait is a class; its instances are the closure, the empty, the static
    and the dynamic policy.  The dynamic one is a set behind a lock; iterating
    it with [any] does not depend on the order. *)
From S2P Require Import Prelude Text.

Module hsts.

(** [should_upgrade] takes [&self]; [record_sts] updates what is behind the
    lock, and does nothing by default. *)
Class HstsPolicy (P : Type) : Type := {
  should_upgrade : P -> bytes -> bool;
  record_sts : P -> bytes -> bytes -> P;
}.

#[export] Instance closure_policy : HstsPolicy (bytes -> bool) := {
  should_upgrade f host := f host;
  record_sts f _ _ := f;
}.

Inductive NoHsts : Type := mkNoHsts.
#[export] Instance no_hsts_policy : HstsPolicy NoHsts := {
  should_upgrade _ _ := false;
  record_sts p _ _ := p;
}.

Definition normalize_host (host : bytes) : bytes := to_ascii_lowercase (trim_end_matches 46 host).

Definition host_matches (host entry : bytes) : bool :=
  bool_decide (host = entry) ||
  match strip_suffix entry host with
  | Some prefix => ends_with [46] prefix
  | None => false
  end.

Fixpoint parse_max_age_in (directives : list bytes) : option Z :=
  match directives with
  | [] => None
  | directive :: rest =>
      match split_once 61 directive with
      | Some (name, value) =>
          if eq_ignore_ascii_case (trim name) (ascii_bytes "max-age") then
            parse_uint 18446744073709551615 (trim_matches 34 (trim value))
          else parse_max_age_in rest
      | None => parse_max_age_in rest
      end
  end.
Definition parse_max_age (header : bytes) : option Z := parse_max_age_in (split_on 59 header).

(** ** Static *)

Definition FULLY_PRELOADED_TLDS : list bytes :=
  ascii_bytes <$> ["dev"; "app"; "page"; "foo"; "dad"; "prof"; "esq"; "new"; "boo"; "rsvp"; "channel"; "gle"]%string.

Record StaticHsts : Type := mkStatic {
  st_hosts : list bytes;
  preloaded_tlds : bool;
}.
Definition static_new (hosts : list bytes) : StaticHsts := mkStatic (normalize_host <$> hosts) false.
Definition with_preloaded_tlds (s : StaticHsts) : StaticHsts := mkStatic (st_hosts s) true.

Definition static_should_upgrade (s : StaticHsts) (host : bytes) : bool :=
  let host := normalize_host host in
  if existsb (host_matches host) (st_hosts s) then true
  else if preloaded_tlds s then
    match last (split_on 46 host) with
    | Some tld => bool_decide (tld ∈ FULLY_PRELOADED_TLDS)
    | None => false
    end
  else false.
#[export] Instance static_policy : HstsPolicy StaticHsts := {
  should_upgrade := static_should_upgrade;
  record_sts p _ _ := p;
}.

(** ** Dynamic *)

Definition DynamicHsts : Type := gset bytes.
Definition dynamic_new : DynamicHsts := ∅.
Definition with_seed (hosts : list bytes) : DynamicHsts := list_to_set (normalize_host <$> hosts).

Definition dynamic_should_upgrade (s : DynamicHsts) (host : bytes) : bool :=
  existsb (host_matches (normalize_host host)) (elements s).
Definition dynamic_record_sts (s : DynamicHsts) (host sts_header : bytes) : DynamicHsts :=
  let host := normalize_host host in
  match parse_max_age sts_header with
  | Some max_age => if 0 <? max_age then s ∪ {[host]} else s ∖ {[host]}
  | None => s
  end.
#[export] Instance dynamic_policy : HstsPolicy DynamicHsts := {
  should_upgrade := dynamic_should_upgrade;
  record_sts := dynamic_record_sts;
}.

(** ** What the dynamic store knows *)

(** The host itself, or one of its parent domains. *)
Definition covers (entry host : bytes) : Prop := host = entry \/ exists sub, host = sub ++ 46 :: entry.

Lemma host_matches_covers host entry : host_matches host entry = true <-> covers entry host.
Proof.
  unfold host_matches, covers. rewrite orb_true_iff, bool_decide_eq_true.
  destruct (strip_suffix entry host) as [prefix|] eqn:E.
  - apply strip_suffix_Some in E as ->. rewrite ends_with_iff. split; intros [H|[r H]]; auto.
    + right. exists r. subst prefix. by rewrite <- app_assoc.
    + right. exists r. change (46 :: entry) with ([46] ++ entry) in H. rewrite app_assoc in H.
      by apply app_inv_tail in H.
  - split; [naive_solver|]. intros [->|[r ->]]; [by left|]. exfalso.
    change (46 :: entry) with ([46] ++ entry) in E. rewrite app_assoc in E.
    assert (strip_suffix entry ((r ++ [46]) ++ entry) = Some (r ++ [46])) by (by apply strip_suffix_Some).
    congruence.
Qed.

(** One [Strict-Transport-Security] header seen for a host. *)
Record Sts : Type := mkSts { sts_host : bytes; sts_header : bytes }.

(** Whether the headers seen, in order, leave an exact host asserted. *)
Fixpoint asserted (seed : bool) (host : bytes) (seen : list Sts) : bool :=
  match seen with
  | [] => seed
  | s :: seen =>
      let seed :=
        if bool_decide (normalize_host (sts_host s) = host) then
          match parse_max_age (sts_header s) with Some n => 0 <? n | None => seed end
        else seed in
      asserted seed host seen
  end.

Definition observe (s : DynamicHsts) (seen : list Sts) : DynamicHsts :=
  foldl (fun s x => record_sts s (sts_host x) (sts_header x)) s seen.

Lemma observe_asserted seen host : forall s : DynamicHsts,
  host ∈ observe s seen <-> asserted (bool_decide (host ∈ s)) host seen = true.
Proof.
  induction seen as [|x seen IH]; intros s; cbn [observe foldl asserted].
  { by rewrite bool_decide_eq_true. }
  fold (observe (record_sts s (sts_host x) (sts_header x)) seen). rewrite IH.
  unfold record_sts, dynamic_policy, dynamic_record_sts.
  repeat case_match; try done; f_equiv; repeat case_bool_decide; subst; try done; set_solver.
Qed.


End hsts.
