(* ===== verification/Pool.v ===== *)
(** * The connection pool (lkrequest/src/connection_pool.rs)

    Connections per key: one multiplexed HTTP/2 and HTTP/3 connection, a queue of
    idle HTTP/1.1 ones.  A permit stands for one physical connection; it is
    owned by an idle HTTP/1.1 entry, by the task that tracks a multiplexed
    connection, by the legacy table, or by a caller, and dropping it decrements
    the shared counter.  Tasks are a store of their own: the pool refers to them
    by their identity, and they finish on their own.  A sender is the identity of
    its connection.  The crate is modelled with its [quic-h3] feature. *)
From S2P Require Import Prelude Text LkError Route SessionStore AltSvc.
Import route protocol alt_svc.

Module pool.

Record ConnectionKey : Type := mkConnKey {
  ck_scheme : Scheme;
  ck_host : bytes;
  ck_port : Z;
  ck_route : RouteKey;
}.
#[export] Instance ConnectionKey_eq_dec : EqDecision ConnectionKey.
Proof. solve_decision. Defined.
#[export] Instance ConnectionKey_countable : Countable ConnectionKey.
Proof.
  refine (inj_countable' (fun k => (scheme_code (ck_scheme k), ck_host k, ck_port k, ck_route k))
            (fun '(s, h, p, r) => mkConnKey (scheme_of_code s) h p r) _).
  by intros [[] h p r].
Defined.

(** ** Tasks and permits *)

(** A spawned task: whether it has ended, was told to end, holds a permit, is
    still referred to by a strong handle, and which task it aborts when it is
    dropped. *)
Record Task : Type := mkTask {
  finished : bool;
  aborted : bool;
  holds_permit : bool;
  has_handle : bool;
  aborts : option Z;
}.

Record World : Type := mkWorld {
  tasks : gmap Z Task;
  connections_in_use : Z;
}.

Definition is_finished (w : World) (id : Z) : bool :=
  match tasks w !! id with Some t => finished t | None => true end.
(** [Weak::upgrade] gives a handle whose task still runs. *)
Definition upgrade_running (w : World) (id : Z) : bool :=
  match tasks w !! id with Some t => has_handle t && negb (finished t) | None => false end.

Definition drop_permits (n : Z) (w : World) : World := mkWorld (tasks w) (connections_in_use w - n).
Definition abort (id : Z) (w : World) : World :=
  mkWorld (alter (fun t => mkTask (finished t) true (holds_permit t) (has_handle t) (aborts t)) id (tasks w))
          (connections_in_use w).

(** [tokio::spawn]: a new identity. *)
Definition fresh_id (w : World) : Z := fresh (dom (tasks w)).
Definition spawn (t : Task) (w : World) : Z * World :=
  let id := fresh_id w in (id, mkWorld (<[id := t]> (tasks w)) (connections_in_use w)).

(** A task that owns the permit for as long as the connection's task runs. *)
Definition track_connection_task (task : Z) : World -> Z * World :=
  spawn (mkTask false false true true (Some task)).
(** The deprecated variant polls the shared handle and never aborts it. *)
Definition track_shared_h3_task : World -> Z * World := spawn (mkTask false false true true None).

(** A task ends: its locals are dropped, the permit and the guard among them. *)
Definition task_ends (id : Z) (w : World) : World :=
  match tasks w !! id with
  | Some t =>
      if finished t then w
      else
        let w' := mkWorld (<[id := mkTask true (aborted t) false (has_handle t) (aborts t)]> (tasks w))
                          (if holds_permit t then connections_in_use w - 1 else connections_in_use w) in
        match aborts t with Some inner => abort inner w' | None => w' end
  | None => w
  end.

(** One turn of the loop of [try_reserve_counter]: [current] is what the thread last
    read, [in_use] the counter at the exchange, which may fail spuriously. *)
Inductive LoopTurn : Type := TurnNone | TurnReserved (in_use : Z) | TurnRetry.
Definition reserve_turn (max_total current in_use : Z) (spurious : bool) : LoopTurn :=
  if max_total <=? current then TurnNone
  else if negb spurious && (in_use =? current) then TurnReserved (current + 1) else TurnRetry.

(** [try_reserve_counter] as one step: [counter_linearises] in [PoolProps] has the
    interleavings of its loop. *)
Definition try_reserve_counter (max_total : Z) (w : World) : bool * World :=
  if max_total <=? connections_in_use w then (false, w)
  else (true, mkWorld (tasks w) (connections_in_use w + 1)).

(** ** The pool *)

Inductive H3DriverTask : Type :=
| TrackedDriver (task : Z)
| LegacyDriver (task permit_task : Z).

Definition driver_finished (w : World) (d : H3DriverTask) : bool :=
  match d with TrackedDriver t => is_finished w t | LegacyDriver t _ => is_finished w t end.
Definition driver_abort (d : H3DriverTask) (w : World) : World :=
  match d with TrackedDriver t => abort t w | LegacyDriver t p => abort p (abort t w) end.

Record H2PoolEntry : Type := mkH2 { h2_sender : Z; h2_task : Z; h2_last_used : Z }.
Record H3PoolEntry : Type := mkH3 { h3_sender : Z; h3_driver : H3DriverTask; h3_last_used : Z }.
(** An idle entry owns its permit. *)
Record H1PoolEntry : Type := mkH1 { h1_sender : Z; h1_task : Z; h1_last_used : Z }.

Record ConnectionPool : Type := mkPool {
  legacy_h1_permits : gmap Z Z;
  h2_connections : gmap ConnectionKey H2PoolEntry;
  h3_connections : gmap ConnectionKey H3PoolEntry;
  h1_connections : gmap ConnectionKey (list H1PoolEntry);
  max_per_key : Z;
  max_total : Z;
  idle_timeout : Z;
}.

Definition with_max_total (n : Z) : ConnectionPool := mkPool ∅ ∅ ∅ ∅ 16 n (secs 300).
Definition pool_new : ConnectionPool := with_max_total 64.

Definition set_h1 (m : gmap ConnectionKey (list H1PoolEntry)) (p : ConnectionPool) : ConnectionPool :=
  mkPool (legacy_h1_permits p) (h2_connections p) (h3_connections p) m (max_per_key p) (max_total p) (idle_timeout p).
Definition set_h2 (m : gmap ConnectionKey H2PoolEntry) (p : ConnectionPool) : ConnectionPool :=
  mkPool (legacy_h1_permits p) m (h3_connections p) (h1_connections p) (max_per_key p) (max_total p) (idle_timeout p).
Definition set_h3 (m : gmap ConnectionKey H3PoolEntry) (p : ConnectionPool) : ConnectionPool :=
  mkPool (legacy_h1_permits p) (h2_connections p) m (h1_connections p) (max_per_key p) (max_total p) (idle_timeout p).
Definition set_legacy (m : gmap Z Z) (p : ConnectionPool) : ConnectionPool :=
  mkPool m (h2_connections p) (h3_connections p) (h1_connections p) (max_per_key p) (max_total p) (idle_timeout p).
Definition set_max_total (p : ConnectionPool) (n : Z) : ConnectionPool :=
  mkPool (legacy_h1_permits p) (h2_connections p) (h3_connections p) (h1_connections p) (max_per_key p) n (idle_timeout p).

(** [values().map(len).sum()]. *)
Definition h1_count (m : gmap ConnectionKey (list H1PoolEntry)) : Z :=
  map_fold (fun _ l n => len l + n) 0 m.

(** Keep the entries of every queue that pass, drop empty queues. *)
Definition retain_h1 (keep : H1PoolEntry -> bool) (m : gmap ConnectionKey (list H1PoolEntry))
    : gmap ConnectionKey (list H1PoolEntry) :=
  omap (fun l => let l := filter (fun e => keep e = true) l in if is_empty l then None else Some l) m.

Definition evict_closed (p : ConnectionPool) (w : World) : ConnectionPool * World :=
  let legacy := filter (fun kv => upgrade_running w kv.2 = true) (legacy_h1_permits p) in
  let h2 := filter (fun kv => is_finished w (h2_task kv.2) = false) (h2_connections p) in
  let h3 := filter (fun kv => driver_finished w (h3_driver kv.2) = false) (h3_connections p) in
  let h1 := retain_h1 (fun e => negb (is_finished w (h1_task e))) (h1_connections p) in
  let dropped := Z.of_nat (size (legacy_h1_permits p)) - Z.of_nat (size legacy) +
                 (h1_count (h1_connections p) - h1_count h1) in
  (mkPool legacy h2 h3 h1 (max_per_key p) (max_total p) (idle_timeout p), drop_permits dropped w).

(** The queue whose oldest entry is the least recently used loses that entry. *)
Definition evict_one_idle_h1 `{HO : HashOrder} (p : ConnectionPool) (w : World)
    : bool * ConnectionPool * World :=
  let fronts := omap (fun kv => match kv.2 with e :: _ => Some (kv.1, h1_last_used e) | [] => None end)
                     (hash_iter (h1_connections p)) in
  match min_by_key snd fronts with
  | None => (false, p, w)
  | Some (key, _) =>
      match h1_connections p !! key with
      | Some (entry :: rest) =>
          let m := if is_empty rest then delete key (h1_connections p)
                   else <[key := rest]> (h1_connections p) in
          (true, set_h1 m p, drop_permits 1 (abort (h1_task entry) w))
      | _ => (false, p, w)
      end
  end.

Definition try_reserve_connection `{HO : HashOrder} (p : ConnectionPool) (w : World)
    : bool * ConnectionPool * World :=
  let '(p, w) := evict_closed p w in
  let '(ok, w) := try_reserve_counter (max_total p) w in
  if ok then (true, p, w)
  else
    let '(evicted, p, w) := evict_one_idle_h1 p w in
    if evicted then let '(ok, w) := try_reserve_counter (max_total p) w in (ok, p, w)
    else (false, p, w).

Definition is_at_capacity (p : ConnectionPool) (w : World) : bool := max_total p <=? connections_in_use w.

Section clock.
Context {R : Type} {CK : Clock R}.

(** [now.duration_since(last_used)] saturates at zero. *)
Definition idle_for (now last_used : Z) : Z := Z.max 0 (now - last_used).

Definition evict_idle (max_idle : Z) (p : ConnectionPool) (w : World) (r : R)
    : Z * ConnectionPool * World * R :=
  let '(now, r) := instant_now r in
  let keep t := idle_for now t <=? max_idle in
  let h2 := filter (fun kv => keep (h2_last_used kv.2) = true) (h2_connections p) in
  let h3 := filter (fun kv => keep (h3_last_used kv.2) = true) (h3_connections p) in
  let h1 := retain_h1 (fun e => keep (h1_last_used e)) (h1_connections p) in
  let dropped := h1_count (h1_connections p) - h1_count h1 in
  let evicted := Z.of_nat (size (h2_connections p)) - Z.of_nat (size h2) +
                 (Z.of_nat (size (h3_connections p)) - Z.of_nat (size h3)) + dropped in
  (evicted, mkPool (legacy_h1_permits p) h2 h3 h1 (max_per_key p) (max_total p) (idle_timeout p),
   drop_permits dropped w, r).

(** ** Acquiring *)

Inductive AcquiredConnection : Type :=
| AcquiredH2 (sender : Z)
| AcquiredH3 (sender : Z)
| AcquiredH1 (sender conn_task : Z).

Definition try_acquire_h3 (key : ConnectionKey) (p : ConnectionPool) (r : R) : option Z * ConnectionPool * R :=
  match h3_connections p !! key with
  | None => (None, p, r)
  | Some e =>
      let '(now, r) := instant_now r in
      (Some (h3_sender e), set_h3 (<[key := mkH3 (h3_sender e) (h3_driver e) now]> (h3_connections p)) p, r)
  end.
Definition try_acquire_h2 (key : ConnectionKey) (p : ConnectionPool) (r : R) : option Z * ConnectionPool * R :=
  match h2_connections p !! key with
  | None => (None, p, r)
  | Some e =>
      let '(now, r) := instant_now r in
      (Some (h2_sender e), set_h2 (<[key := mkH2 (h2_sender e) (h2_task e) now]> (h2_connections p)) p, r)
  end.
(** [pop_back]: the most recently used. *)
Definition try_acquire_h1 (key : ConnectionKey) (p : ConnectionPool) : option H1PoolEntry * ConnectionPool :=
  match h1_connections p !! key with
  | None => (None, p)
  | Some entries =>
      let rest := take (length entries - 1) entries in
      (last entries, set_h1 (if is_empty rest then delete key (h1_connections p)
                             else <[key := rest]> (h1_connections p)) p)
  end.

Definition try_acquire_h3_pooled_internal (key : ConnectionKey) (p : ConnectionPool) (w : World) (r : R)
    : option AcquiredConnection * ConnectionPool * World * R :=
  let '(_, p, w, r) := evict_idle (idle_timeout p) p w r in
  let '(s, p, r) := try_acquire_h3 key p r in
  (AcquiredH3 <$> s, p, w, r).
Definition try_acquire_h2_pooled_internal (key : ConnectionKey) (p : ConnectionPool) (w : World) (r : R)
    : option AcquiredConnection * ConnectionPool * World * R :=
  let '(_, p, w, r) := evict_idle (idle_timeout p) p w r in
  let '(s, p, r) := try_acquire_h2 key p r in
  (AcquiredH2 <$> s, p, w, r).
Definition try_acquire_h1_pooled_internal (key : ConnectionKey) (p : ConnectionPool) (w : World) (r : R)
    : option AcquiredConnection * ConnectionPool * World * R :=
  let '(_, p, w, r) := evict_idle (idle_timeout p) p w r in
  let '(e, p) := try_acquire_h1 key p in
  ((fun e => AcquiredH1 (h1_sender e) (h1_task e)) <$> e, p, w, r).
Definition try_acquire_internal (key : ConnectionKey) (p : ConnectionPool) (w : World) (r : R)
    : option AcquiredConnection * ConnectionPool * World * R :=
  let '(_, p, w, r) := evict_idle (idle_timeout p) p w r in
  match try_acquire_h3_pooled_internal key p w r with
  | (Some c, p, w, r) => (Some c, p, w, r)
  | (None, p, w, r) =>
      match try_acquire_h2_pooled_internal key p w r with
      | (Some c, p, w, r) => (Some c, p, w, r)
      | (None, p, w, r) => try_acquire_h1_pooled_internal key p w r
      end
  end.

(** The deprecated API parks the permit of a checked-out connection. *)
Definition convert_legacy_connection (c : AcquiredConnection) (p : ConnectionPool) : ConnectionPool :=
  match c with
  | AcquiredH1 _ conn_task => set_legacy (<[conn_task := conn_task]> (legacy_h1_permits p)) p
  | _ => p
  end.

Definition has_connection (key : ConnectionKey) (p : ConnectionPool) (w : World) (r : R)
    : bool * ConnectionPool * World * R :=
  let '(_, p, w, r) := evict_idle (idle_timeout p) p w r in
  (bool_decide (is_Some (h2_connections p !! key)) ||
   match h1_connections p !! key with Some l => negb (is_empty l) | None => false end ||
   bool_decide (is_Some (h3_connections p !! key)), p, w, r).

(** ** Inserting *)

Definition insert_h3_reserved (key : ConnectionKey) (sender driver : Z) (p : ConnectionPool) (w : World) (r : R)
    : ConnectionPool * World * R :=
  match h3_connections p !! key with
  | Some _ => (p, drop_permits 1 (abort driver w), r)
  | None =>
      let '(task, w) := track_connection_task driver w in
      let '(now, r) := instant_now r in
      (set_h3 (<[key := mkH3 sender (TrackedDriver task) now]> (h3_connections p)) p, w, r)
  end.

Definition insert_h2_reserved (key : ConnectionKey) (sender conn_task : Z) (p : ConnectionPool) (w : World) (r : R)
    : ConnectionPool * World * R :=
  let '(task, w) := track_connection_task conn_task w in
  match h2_connections p !! key with
  | Some _ => (p, w, r)
  | None =>
      let '(now, r) := instant_now r in
      (set_h2 (<[key := mkH2 sender task now]> (h2_connections p)) p, w, r)
  end.

Definition return_h1_reserved (key : ConnectionKey) (sender conn_task : Z) (p : ConnectionPool) (w : World) (r : R)
    : ConnectionPool * World * R :=
  let entries := default [] (h1_connections p !! key) in
  let '(entries, w) :=
    if max_per_key p <=? len entries then
      match entries with
      | e :: rest => (rest, drop_permits 1 (abort (h1_task e) w))
      | [] => ([], w)
      end
    else (entries, w) in
  let '(now, r) := instant_now r in
  (set_h1 (<[key := entries ++ [mkH1 sender conn_task now]]> (h1_connections p)) p, w, r).

Definition insert_h1_reserved (key : ConnectionKey) (sender conn_task : Z) (p : ConnectionPool) (r : R)
    : ConnectionPool * R :=
  let entries := default [] (h1_connections p !! key) in
  let '(now, r) := instant_now r in
  (set_h1 (<[key := entries ++ [mkH1 sender conn_task now]]> (h1_connections p)) p, r).

(** The deprecated insertions count a connection that was never reserved. *)
Definition adopt_existing_connection (w : World) : World := mkWorld (tasks w) (connections_in_use w + 1).
Definition insert_h2 (key : ConnectionKey) (sender conn_task : Z) (p : ConnectionPool) (w : World) (r : R)
    : ConnectionPool * World * R :=
  insert_h2_reserved key sender conn_task p (adopt_existing_connection w) r.
Definition insert_h1 (key : ConnectionKey) (sender conn_task : Z) (p : ConnectionPool) (w : World) (r : R)
    : ConnectionPool * World * R :=
  let '(p, r) := insert_h1_reserved key sender conn_task p r in (p, adopt_existing_connection w, r).
Definition insert_h3 (key : ConnectionKey) (sender driver : Z) (p : ConnectionPool) (w : World) (r : R)
    : ConnectionPool * World * R :=
  let '(task, w) := track_shared_h3_task (adopt_existing_connection w) in
  match h3_connections p !! key with
  | Some _ => (p, w, r)
  | None =>
      let '(now, r) := instant_now r in
      (set_h3 (<[key := mkH3 sender (LegacyDriver driver task) now]> (h3_connections p)) p, w, r)
  end.
Definition return_h1 (key : ConnectionKey) (sender conn_task : Z) (p : ConnectionPool) (w : World) (r : R)
    : ConnectionPool * World * R :=
  let w := match legacy_h1_permits p !! conn_task with
           | Some _ => w
           | None => adopt_existing_connection w
           end in
  return_h1_reserved key sender conn_task (set_legacy (delete conn_task (legacy_h1_permits p)) p) w r.

End clock.

(** ** Maintenance *)

Definition queue_at (key : ConnectionKey) (p : ConnectionPool) : list H1PoolEntry :=
  default [] (h1_connections p !! key).
Definition remove (key : ConnectionKey) (p : ConnectionPool) (w : World) : ConnectionPool * World :=
  (set_h1 (delete key (h1_connections p))
     (set_h2 (delete key (h2_connections p)) (set_h3 (delete key (h3_connections p)) p)),
   drop_permits (len (queue_at key p)) w).

Definition clear `{HO : HashOrder} (p : ConnectionPool) (w : World) : ConnectionPool * World :=
  let '(p, w) := evict_closed p w in
  let w := foldl (fun w kv => abort (h2_task kv.2) w) w (hash_iter (h2_connections p)) in
  let w := foldl (fun w kv => driver_abort (h3_driver kv.2) w) w (hash_iter (h3_connections p)) in
  let w := foldl (fun w kv => foldl (fun w e => abort (h1_task e) w) w kv.2) w (hash_iter (h1_connections p)) in
  (set_h1 ∅ (set_h2 ∅ (set_h3 ∅ p)), drop_permits (h1_count (h1_connections p)) w).

Definition pool_len (p : ConnectionPool) : Z :=
  Z.of_nat (size (h3_connections p)) + Z.of_nat (size (h2_connections p)) + h1_count (h1_connections p).

Record PoolStats : Type := mkStats {
  ps_h3 : Z; ps_h2 : Z; ps_h1 : Z; ps_total : Z; ps_max_total : Z; ps_at_capacity : bool;
}.
Definition stats (p : ConnectionPool) (w : World) : PoolStats :=
  mkStats (Z.of_nat (size (h3_connections p))) (Z.of_nat (size (h2_connections p)))
    (h1_count (h1_connections p)) (connections_in_use w) (max_total p)
    (max_total p <=? connections_in_use w).

End pool.
