(* ===== verification/PoolProps.v ===== *)
(** * The pool as a transition system

    Permits are conserved, the limit holds, an HTTP/1.1 connection is never in two
    hands, and the counter is safe under every interleaving of its
    compare-and-swap loops. *)
From S2P Require Import Prelude Text LkError Route SessionStore AltSvc AltSvcProps BrokenQuic Pool.
Import route protocol alt_svc alt_svc_props broken_quic pool.

Module pool_props.

(** ** Queues as one list *)

Definition all_entries (m : gmap ConnectionKey (list H1PoolEntry)) : list H1PoolEntry :=
  concat (map_to_list m).*2.

Lemma all_entries_insert m k l : m !! k = None -> all_entries (<[k := l]> m) ≡ₚ l ++ all_entries m.
Proof. intros H. unfold all_entries. by rewrite map_to_list_insert. Qed.
Lemma all_entries_lookup m k l : m !! k = Some l -> all_entries m ≡ₚ l ++ all_entries (delete k m).
Proof.
  intros H. rewrite <- (insert_delete_id m k l H) at 1. apply all_entries_insert, lookup_delete_eq.
Qed.
Lemma all_entries_update m k l : all_entries (<[k := l]> m) ≡ₚ l ++ all_entries (delete k m).
Proof. rewrite <- insert_delete_eq. apply all_entries_insert, lookup_delete_eq. Qed.
Lemma all_entries_default m k : all_entries m ≡ₚ default [] (m !! k) ++ all_entries (delete k m).
Proof.
  destruct (m !! k) as [l|] eqn:E; [by apply all_entries_lookup|]. simpl. by rewrite delete_id.
Qed.
Lemma h1_count_entries m : h1_count m = len (all_entries m).
Proof.
  unfold h1_count. induction m as [|k l m Hk Hf IH] using map_first_key_ind.
  { unfold all_entries. by rewrite map_fold_empty, map_to_list_empty. }
  rewrite map_fold_insert_first_key, IH by done. unfold len.
  rewrite (Permutation_length (all_entries_insert _ _ l Hk)), length_app. lia.
Qed.
Lemma h1_count_perm m l : all_entries m ≡ₚ l -> h1_count m = len l.
Proof. intros H. rewrite h1_count_entries. unfold len. by rewrite (Permutation_length H). Qed.
Lemma retain_h1_entries keep m :
  all_entries (retain_h1 keep m) ≡ₚ filter (fun e => keep e = true) (all_entries m).
Proof.
  unfold retain_h1. induction m as [|k l m Hk IH] using map_ind.
  { by rewrite omap_empty. }
  rewrite omap_insert. rewrite (all_entries_insert m k l) by done. rewrite filter_app, <- IH.
  set (f := fun l : list H1PoolEntry => _) in *.
  assert (Hn : omap f m !! k = None) by (by rewrite lookup_omap, Hk).
  destruct (filter _ l) as [|e l'] eqn:E; cbn [is_empty].
  - by rewrite delete_id.
  - by rewrite all_entries_insert.
Qed.

(** ** States and steps *)

Definition tracked (w : World) : Z :=
  Z.of_nat (size (filter (fun kv => holds_permit kv.2 = true) (tasks w))).

(** A pool with the permits of its callers: those that dial, and those that come with
    a checked-out HTTP/1.1 connection, by its task. *)
Record Sys : Type := mkSys {
  s_pool : ConnectionPool;
  s_world : World;
  dialing : Z;
  out : list Z;
}.

Definition idle (s : Sys) : list Z := h1_task <$> all_entries (h1_connections (s_pool s)).

Section steps.
Context {R : Type} {CK : Clock R} {HO : HashOrder} {HL : HashOrderLaws HO}.

Definition hand_out (c : option AcquiredConnection) (o : list Z) : list Z :=
  match c with Some (AcquiredH1 _ task) => task :: o | _ => o end.

Inductive acquires (key : ConnectionKey) (p : ConnectionPool) (w : World) :
    option AcquiredConnection -> ConnectionPool -> World -> Prop :=
| acquire_any r c p' w' r' : try_acquire_internal key p w r = (c, p', w', r') -> acquires key p w c p' w'
| acquire_h3 r c p' w' r' : try_acquire_h3_pooled_internal key p w r = (c, p', w', r') -> acquires key p w c p' w'
| acquire_h2 r c p' w' r' : try_acquire_h2_pooled_internal key p w r = (c, p', w', r') -> acquires key p w c p' w'
| acquire_h1 r c p' w' r' : try_acquire_h1_pooled_internal key p w r = (c, p', w', r') -> acquires key p w c p' w'
| acquire_h3_kept r c p' r' : try_acquire_h3 key p r = (c, p', r') -> acquires key p w (AcquiredH3 <$> c) p' w.

(** What the session, its callers and the runtime can do. *)
Inductive step : Sys -> Sys -> Prop :=
| step_reserve p w n o ok p' w' :
    try_reserve_connection p w = (ok, p', w') ->
    step (mkSys p w n o) (mkSys p' w' (if ok then n + 1 else n) o)
| step_speculative p w n o ok w' :
    try_reserve_counter (max_total p) w = (ok, w') ->
    step (mkSys p w n o) (mkSys p w' (if ok then n + 1 else n) o)
| step_drop_permit p w n o :
    0 < n -> step (mkSys p w n o) (mkSys p (drop_permits 1 w) (n - 1) o)
| step_connected_h1 p w n o task :
    0 < n -> task ∉ idle (mkSys p w n o) -> task ∉ o -> step (mkSys p w n o) (mkSys p w (n - 1) (task :: o))
| step_return_h1 p w n o1 o2 key sender task r p' w' r' :
    return_h1_reserved key sender task p w r = (p', w', r') ->
    step (mkSys p w n (o1 ++ task :: o2)) (mkSys p' w' n (o1 ++ o2))
| step_insert_h1 p w n o1 o2 key sender task r p' r' :
    insert_h1_reserved key sender task p r = (p', r') ->
    step (mkSys p w n (o1 ++ task :: o2)) (mkSys p' w n (o1 ++ o2))
| step_discard_h1 p w n o1 o2 task :
    step (mkSys p w n (o1 ++ task :: o2)) (mkSys p (drop_permits 1 w) n (o1 ++ o2))
| step_insert_h2 p w n o key sender task r p' w' r' :
    0 < n -> insert_h2_reserved key sender task p w r = (p', w', r') ->
    step (mkSys p w n o) (mkSys p' w' (n - 1) o)
| step_insert_h3 p w n o key sender driver r p' w' r' :
    0 < n -> insert_h3_reserved key sender driver p w r = (p', w', r') ->
    step (mkSys p w n o) (mkSys p' w' (n - 1) o)
| step_acquire p w n o key c p' w' :
    acquires key p w c p' w' -> step (mkSys p w n o) (mkSys p' w' n (hand_out c o))
| step_evict_idle p w n o max_idle r e p' w' r' :
    evict_idle max_idle p w r = (e, p', w', r') -> step (mkSys p w n o) (mkSys p' w' n o)
| step_remove p w n o key p' w' :
    remove key p w = (p', w') -> step (mkSys p w n o) (mkSys p' w' n o)
| step_clear p w n o p' w' :
    clear p w = (p', w') -> step (mkSys p w n o) (mkSys p' w' n o)
| step_task_ends p w n o id :
    step (mkSys p w n o) (mkSys p (task_ends id w) n o)
| step_abort p w n o id :
    step (mkSys p w n o) (mkSys p (abort id w) n o)
| step_spawned p w n o id t :
    tasks w !! id = None -> holds_permit t = false ->
    step (mkSys p w n o) (mkSys p (mkWorld (<[id := t]> (tasks w)) (connections_in_use w)) n o).

Definition init (max : Z) : Sys := mkSys (with_max_total max) (mkWorld ∅ 0) 0 [].

(** Every unit of the counter is a permit that somebody holds. *)
Definition balance (p : ConnectionPool) (w : World) (held : Z) : Prop :=
  connections_in_use w =
    held + h1_count (h1_connections p) + tracked w + Z.of_nat (size (legacy_h1_permits p)).

Record inv (max : Z) (s : Sys) : Prop := mkInv {
  inv_balance : balance (s_pool s) (s_world s) (dialing s + len (out s));
  inv_dialing : 0 <= dialing s;
  inv_limit : connections_in_use (s_world s) <= max;
  inv_max : max_total (s_pool s) = max;
  inv_exclusive : NoDup (idle s ++ out s);
}.

Ltac pool_cbn :=
  unfold balance in *;
  cbn [connections_in_use drop_permits set_h1 set_h2 set_h3 set_legacy h1_connections h2_connections
       h3_connections legacy_h1_permits max_total tasks s_pool s_world dialing out] in *.

(** ** Tasks *)

Lemma tracked_abort id w : tracked (abort id w) = tracked w.
Proof.
  unfold tracked, abort. cbn [tasks]. set (f := fun t => mkTask _ _ _ _ _). f_equal.
  rewrite <- !(size_dom (D := gset Z)). f_equal. apply set_eq. intros k.
  rewrite !elem_of_dom. unfold is_Some. setoid_rewrite map_lookup_filter_Some. cbn [snd].
  destruct (decide (id = k)) as [->|Hk].
  - rewrite lookup_alter_eq. destruct (tasks w !! k) as [t|]; [|naive_solver].
    split; intros [x [[= <-] H]]; eauto.
  - by setoid_rewrite lookup_alter_ne; [|done].
Qed.
Lemma tracked_insert_fresh id t w c :
  tasks w !! id = None ->
  tracked (mkWorld (<[id := t]> (tasks w)) c) = tracked w + (if holds_permit t then 1 else 0).
Proof.
  intros H. unfold tracked. cbn [tasks]. destruct (holds_permit t) eqn:E.
  - rewrite map_filter_insert_True by done.
    rewrite map_size_insert_None by (apply map_lookup_filter_None; by left). lia.
  - rewrite map_filter_insert_False by (cbn; congruence). rewrite delete_id by done. lia.
Qed.
Lemma tracked_drop n w : tracked (drop_permits n w) = tracked w.
Proof. done. Qed.
Lemma fresh_task w : tasks w !! fresh_id w = None.
Proof. apply not_elem_of_dom, (is_fresh (dom (tasks w))). Qed.

Lemma spawn_spec t w id w' : spawn t w = (id, w') ->
  connections_in_use w' = connections_in_use w /\ tracked w' = tracked w + (if holds_permit t then 1 else 0).
Proof.
  unfold spawn. intros [= <- <-]. split; [done|]. apply tracked_insert_fresh, fresh_task.
Qed.

Lemma tracked_nonneg w : 0 <= tracked w.
Proof. unfold tracked. lia. Qed.

Lemma task_ends_spec id w :
  connections_in_use (task_ends id w) - tracked (task_ends id w) = connections_in_use w - tracked w /\
  connections_in_use (task_ends id w) <= connections_in_use w.
Proof.
  unfold task_ends. destruct (tasks w !! id) as [t|] eqn:E; [|lia]. destruct (finished t); [lia|].
  set (w' := mkWorld _ _).
  assert (H : connections_in_use w' - tracked w' = connections_in_use w - tracked w /\
              connections_in_use w' <= connections_in_use w).
  { subst w'. cbn [connections_in_use]. rewrite <- insert_delete_eq.
    pose proof (tracked_insert_fresh id (mkTask true (aborted t) false (has_handle t) (aborts t))
      (mkWorld (delete id (tasks w)) 0) (if holds_permit t then connections_in_use w - 1 else connections_in_use w))
      as H1. cbn [tasks holds_permit] in H1. rewrite H1 by apply lookup_delete_eq.
    assert (Hw : w = mkWorld (<[id := t]> (delete id (tasks w))) (connections_in_use w)).
    { rewrite insert_delete_id by done. by destruct w. }
    pose proof (tracked_insert_fresh id t (mkWorld (delete id (tasks w)) 0) (connections_in_use w)) as H2.
    cbn [tasks] in H2. rewrite <- Hw in H2. rewrite H2 by apply lookup_delete_eq.
    destruct (holds_permit t); lia. }
  destruct (aborts t); [|done]. rewrite tracked_abort. done.
Qed.

(** ** Operations that only let go of connections *)

Record shrinks (p : ConnectionPool) (w : World) (p' : ConnectionPool) (w' : World) : Prop := mkShrinks {
  shr_balance h : balance p w h -> balance p' w' h;
  shr_use : connections_in_use w' <= connections_in_use w;
  shr_max : max_total p' = max_total p;
  shr_entries : all_entries (h1_connections p') ⊆+ all_entries (h1_connections p);
}.

Lemma shrinks_refl p w : shrinks p w p w.
Proof. by constructor. Qed.
Lemma shrinks_trans p w p1 w1 p2 w2 : shrinks p w p1 w1 -> shrinks p1 w1 p2 w2 -> shrinks p w p2 w2.
Proof. intros [] []. constructor; [auto|lia|congruence|by etrans]. Qed.

Lemma retain_h1_sub keep m :
  all_entries (retain_h1 keep m) ⊆+ all_entries m /\ 0 <= h1_count m - h1_count (retain_h1 keep m).
Proof.
  assert (H : all_entries (retain_h1 keep m) ⊆+ all_entries m).
  { rewrite retain_h1_entries. apply sublist_submseteq, sublist_filter. }
  split; [done|]. rewrite !h1_count_entries. unfold len. apply submseteq_length in H. lia.
Qed.
Lemma filter_size_le {K A} `{Countable K} (P : K * A -> Prop) `{forall x, Decision (P x)} (m : gmap K A) :
  (size (filter P m) <= size m)%nat.
Proof.
  rewrite <- !(size_dom (D := gset K)). apply subseteq_size, subseteq_dom, map_filter_subseteq.
Qed.

Lemma evict_closed_shrinks p w p' w' : evict_closed p w = (p', w') -> shrinks p w p' w'.
Proof.
  unfold evict_closed. intros [= <- <-].
  set (h1 := retain_h1 _ _). destruct (retain_h1_sub (fun e => negb (is_finished w (h1_task e))) (h1_connections p)) as [Hs Hn].
  fold h1 in Hs, Hn. set (legacy := filter _ (legacy_h1_permits p)).
  assert (size legacy <= size (legacy_h1_permits p))%nat by apply filter_size_le.
  constructor; try done; [|cbn; lia].
  intros h. unfold balance. cbn [h1_connections connections_in_use legacy_h1_permits drop_permits]. 
  rewrite tracked_drop. lia.
Qed.

Lemma evict_idle_shrinks max_idle p w r e p' w' r' :
  evict_idle max_idle p w r = (e, p', w', r') -> shrinks p w p' w'.
Proof.
  unfold evict_idle. destruct (instant_now r) as [now r1]. intros [= <- <- <- <-].
  set (h1 := retain_h1 _ _).
  destruct (retain_h1_sub (fun e => idle_for now (h1_last_used e) <=? max_idle) (h1_connections p)) as [Hs Hn].
  fold h1 in Hs, Hn. constructor; try done; [|cbn; lia].
  intros h. unfold balance. cbn [h1_connections connections_in_use legacy_h1_permits drop_permits].
  rewrite tracked_drop. lia.
Qed.

Lemma remove_shrinks key p w p' w' : remove key p w = (p', w') -> shrinks p w p' w'.
Proof.
  unfold remove. intros [= <- <-]. pose proof (all_entries_default (h1_connections p) key) as Hp.
  fold (queue_at key p) in Hp. constructor; try done; pool_cbn.
  - intros h. rewrite tracked_drop, (h1_count_perm _ _ Hp), len_app, <- h1_count_entries. lia.
  - pose proof (len_nonneg (queue_at key p)). lia.
  - rewrite Hp. apply submseteq_inserts_l. done.
Qed.

Lemma aborts_spec {A} (f : A -> World -> World) l w :
  (forall a w, connections_in_use (f a w) = connections_in_use w /\ tracked (f a w) = tracked w) ->
  connections_in_use (foldl (fun w a => f a w) w l) = connections_in_use w /\
  tracked (foldl (fun w a => f a w) w l) = tracked w.
Proof.
  intros Hf. revert w. induction l as [|a l IH]; intros w; [done|]. cbn [foldl].
  destruct (IH (f a w)) as [-> ->]. apply Hf.
Qed.
Lemma abort_spec id w : connections_in_use (abort id w) = connections_in_use w /\ tracked (abort id w) = tracked w.
Proof. split; [done|apply tracked_abort]. Qed.
Lemma driver_abort_spec d w :
  connections_in_use (driver_abort d w) = connections_in_use w /\ tracked (driver_abort d w) = tracked w.
Proof. destruct d; cbn [driver_abort]; [apply abort_spec|]. by rewrite !tracked_abort. Qed.

Lemma clear_shrinks p w p' w' : clear p w = (p', w') -> shrinks p w p' w'.
Proof.
  unfold clear. destruct (evict_closed p w) as [p1 w1] eqn:E. intros [= <- <-].
  eapply shrinks_trans; [by apply evict_closed_shrinks|].
  set (w2 := foldl (fun w kv => abort (h2_task kv.2) w) w1 _).
  set (w3 := foldl (fun w kv => driver_abort (h3_driver kv.2) w) w2 _).
  set (w4 := foldl _ w3 _).
  destruct (aborts_spec (fun kv : ConnectionKey * H2PoolEntry => abort (h2_task kv.2)) (hash_iter (h2_connections p1)) w1)
    as [Hu2 Ht2]; [intros; apply abort_spec|].
  destruct (aborts_spec (fun kv : ConnectionKey * H3PoolEntry => driver_abort (h3_driver kv.2))
    (hash_iter (h3_connections p1)) w2) as [Hu3 Ht3]; [intros; apply driver_abort_spec|].
  destruct (aborts_spec (fun (kv : ConnectionKey * list H1PoolEntry) w => foldl (fun w e => abort (h1_task e) w) w kv.2)
    (hash_iter (h1_connections p1)) w3) as [Hu4 Ht4].
  { intros kv w5. apply (aborts_spec (fun e => abort (h1_task e))). intros; apply abort_spec. }
  pose proof (len_nonneg (all_entries (h1_connections p1))) as Hn. rewrite <- h1_count_entries in Hn.
  constructor; try done.
  - intros h. pool_cbn. rewrite tracked_drop. fold w4 in Hu4, Ht4. fold w3 in Hu3, Ht3, Hu4, Ht4. fold w2 in Hu2, Ht2, Hu3, Ht3.
    rewrite Hu4, Ht4, Hu3, Ht3, Hu2, Ht2. change (h1_count ∅) with 0. lia.
  - cbn [connections_in_use drop_permits]. fold w4 in Hu4. fold w3 in Hu3, Hu4. fold w2 in Hu2, Hu3. lia.
  - apply submseteq_nil_l.
Qed.

Lemma evict_one_shrinks p w b p' w' : evict_one_idle_h1 p w = (b, p', w') ->
  shrinks p w p' w' /\ (b = true -> connections_in_use w' = connections_in_use w - 1).
Proof.
  unfold evict_one_idle_h1. destruct (min_by_key snd _) as [[key t]|]; [|intros [= <- <- <-]; split; [apply shrinks_refl|done]].
  destruct (h1_connections p !! key) as [[|e rest]|] eqn:E;
    try (intros [= <- <- <-]; split; [apply shrinks_refl|done]).
  intros [= <- <- <-]. split; [|done].
  assert (Hp : all_entries (h1_connections p) ≡ₚ
    e :: all_entries (if is_empty rest then delete key (h1_connections p) else <[key := rest]> (h1_connections p))).
  { rewrite (all_entries_lookup _ _ _ E). destruct rest as [|x rest]; cbn [is_empty]; [done|].
    by rewrite all_entries_update. }
  constructor; try done; pool_cbn.
  - intros h. rewrite tracked_drop, tracked_abort, (h1_count_perm _ _ Hp), len_cons, <- h1_count_entries.
    unfold abort. pool_cbn. lia.
  - unfold abort. pool_cbn. lia.
  - rewrite Hp. apply submseteq_cons. done.
Qed.

(** There is something to evict whenever a queue is not empty. *)
Lemma evict_one_none p w p' w' :
  evict_one_idle_h1 p w = (false, p', w') -> all_entries (h1_connections p) = [].
Proof.
  unfold evict_one_idle_h1. set (fronts := omap _ _).
  assert (Hf : forall k t, (k, t) ∈ fronts -> exists e rest, h1_connections p !! k = Some (e :: rest)).
  { intros k t. unfold fronts. rewrite list_elem_of_omap. intros ([k' l] & Hin & E).
    rewrite (hash_iter_perm (h1_connections p)) in Hin. apply elem_of_map_to_list in Hin.
    destruct l as [|e l]; [done|]. simplify_eq/=. eauto. }
  destruct (min_by_key snd fronts) as [[key t]|] eqn:Em.
  { apply min_by_key_elem in Em as [Hin _]. destruct (Hf _ _ Hin) as (e & rest & ->). done. }
  intros _. assert (Hnil : fronts = []).
  { destruct fronts as [|x fr]; [done|]. cbn in Em. by destruct (min_by_key snd fr). }
  unfold all_entries. apply Permutation_nil_r. rewrite <- (hash_iter_perm (h1_connections p)).
  unfold fronts in Hnil. clear Em Hf fronts. induction (hash_iter (h1_connections p)) as [|[k l] kvs IH]; [done|].
  cbn in *. destruct l as [|e l]; [by apply IH|done].
Qed.

(** ** Reserving *)

Lemma try_reserve_counter_spec max w ok w' :
  try_reserve_counter max w = (ok, w') ->
  tracked w' = tracked w /\ connections_in_use w' = connections_in_use w + (if ok then 1 else 0) /\
  (ok = true <-> connections_in_use w < max).
Proof.
  unfold try_reserve_counter. destruct (Z.leb_spec max (connections_in_use w)); intros [= <- <-]; cbn;
    (split_and!; [done|lia|split; intros; (done || lia)]).
Qed.

Lemma reserve_spec p w ok p' w' :
  try_reserve_connection p w = (ok, p', w') ->
  exists w1, shrinks p w p' w1 /\ tracked w' = tracked w1 /\
    connections_in_use w' = connections_in_use w1 + (if ok then 1 else 0) /\
    (ok = true -> connections_in_use w1 < max_total p) /\
    (ok = false -> connections_in_use w <= max_total p ->
       max_total p <= connections_in_use w' /\ all_entries (h1_connections p') = []).
Proof.
  unfold try_reserve_connection. destruct (evict_closed p w) as [p1 w1] eqn:E1.
  apply evict_closed_shrinks in E1. destruct (try_reserve_counter _ w1) as [ok1 w2] eqn:E2.
  apply try_reserve_counter_spec in E2 as (Ht2 & Hu2 & Hok2). rewrite (shr_max _ _ _ _ E1) in *.
  destruct ok1. { intros [= <- <- <-]. exists w1. split_and!; try done. naive_solver. }
  assert (Hfull : ~ connections_in_use w1 < max_total p) by naive_solver.
  destruct (evict_one_idle_h1 p1 w2) as [[ev p2] w3] eqn:E3.
  pose proof (evict_one_shrinks _ _ _ _ _ E3) as [Hs3 Hu3].
  assert (Hs : shrinks p1 w1 p2 w3).
  { destruct Hs3. constructor; try done; [|lia]. intros h Hb. apply shr_balance0.
    unfold balance in *. lia. }
  destruct ev.
  - specialize (Hu3 eq_refl). destruct (try_reserve_counter (max_total p2) w3) as [ok2 w4] eqn:E4.
    apply try_reserve_counter_spec in E4 as (Ht4 & Hu4 & Hok4).
    rewrite (shr_max _ _ _ _ Hs3), (shr_max _ _ _ _ E1) in Hok4.
    intros [= <- <- <-]. exists w3. split_and!; try done; [by eapply shrinks_trans|naive_solver|].
    intros -> Hle. exfalso. pose proof (shr_use _ _ _ _ E1). assert (false = true) by (apply Hok4; lia). done.
  - intros [= <- <- <-]. exists w3. split_and!; try done; [by eapply shrinks_trans|lia|].
    intros _ Hle. pose proof (evict_one_none _ _ _ _ E3) as Hn. split.
    + unfold evict_one_idle_h1 in E3. repeat case_match; simplify_eq; lia.
    + apply submseteq_nil_r. rewrite <- Hn. apply (shr_entries _ _ _ _ Hs3).
Qed.

(** ** Acquiring *)

Definition h1_handed (c : option AcquiredConnection) : list Z := hand_out c [].

(** A connection is taken out of the pool together with its permit. *)
Record takes (p : ConnectionPool) (w : World) (c : option AcquiredConnection) (p' : ConnectionPool) (w' : World)
    : Prop := mkTakes {
  tk_use : connections_in_use w' <= connections_in_use w;
  tk_max : max_total p' = max_total p;
  tk_balance h : balance p w h -> balance p' w' (h + len (h1_handed c));
  tk_entries : h1_handed c ++ (h1_task <$> all_entries (h1_connections p')) ⊆+
               (h1_task <$> all_entries (h1_connections p));
}.

Lemma takes_shrinks p w c p1 w1 p' w' : shrinks p w p1 w1 -> takes p1 w1 c p' w' -> takes p w c p' w'.
Proof.
  intros [] []. constructor; [lia|congruence|auto|]. etrans; [done|].
  by apply fmap_submseteq.
Qed.
Lemma takes_nothing p w c p' w' : shrinks p w p' w' -> h1_handed c = [] -> takes p w c p' w'.
Proof.
  intros [] Hc. constructor; rewrite ?Hc; try done.
  - intros h Hb. rewrite len_nil, Z.add_0_r. auto.
  - cbn [app]. by apply fmap_submseteq.
Qed.

Lemma take_h1 key p w e p' :
  try_acquire_h1 key p = (e, p') ->
  takes p w ((fun e => AcquiredH1 (h1_sender e) (h1_task e)) <$> e) p' w.
Proof.
  unfold try_acquire_h1. destruct (h1_connections p !! key) as [l|] eqn:E; cycle 1.
  { intros [= <- <-]. apply takes_nothing; [apply shrinks_refl|done]. }
  intros [= <- <-]. set (rest := take _ l).
  assert (Hp : all_entries (h1_connections p) ≡ₚ l ++ all_entries (delete key (h1_connections p)))
    by (by apply all_entries_lookup).
  assert (Hq : all_entries (if is_empty rest then delete key (h1_connections p) else <[key := rest]> (h1_connections p))
               ≡ₚ rest ++ all_entries (delete key (h1_connections p))).
  { destruct rest as [|x rest']; cbn [is_empty]; [done|apply all_entries_update]. }
  destruct l as [|x l' _] using rev_ind.
  { assert (rest = []) as -> by done. cbn [is_empty app] in *.
    apply takes_nothing; [|done]. constructor; try done; pool_cbn.
    - intros h. by rewrite (h1_count_perm _ _ Hp), h1_count_entries.
    - by rewrite Hp. }
  assert (Hrest : rest = l').
  { subst rest. rewrite length_app. cbn [length]. by rewrite take_app_length' by lia. }
  rewrite Hrest in *. clear rest Hrest. rewrite last_snoc. cbn [fmap option_fmap option_map].
  constructor; try done; unfold h1_handed; cbn [hand_out]; pool_cbn.
  - intros h. rewrite (h1_count_perm _ _ Hp), (h1_count_perm _ _ Hq). slen.
  - rewrite Hp, Hq, !fmap_app. cbn [app fmap list_fmap]. rewrite <- app_assoc. cbn [app].
    by rewrite Permutation_middle.
Qed.

Lemma set_h3_shrinks m p w : shrinks p w (set_h3 m p) w.
Proof. by constructor. Qed.
Lemma set_h2_shrinks m p w : shrinks p w (set_h2 m p) w.
Proof. by constructor. Qed.

Lemma take_h3 key p w r c p' r' : try_acquire_h3 key p r = (c, p', r') -> takes p w (AcquiredH3 <$> c) p' w.
Proof.
  unfold try_acquire_h3. destruct (h3_connections p !! key); [destruct (instant_now r)|]; intros [= <- <- <-];
    (apply takes_nothing; [|done]); [apply set_h3_shrinks|apply shrinks_refl].
Qed.
Lemma acquire_h3_takes key p w r c p' w' r' :
  try_acquire_h3_pooled_internal key p w r = (c, p', w', r') -> takes p w c p' w'.
Proof.
  unfold try_acquire_h3_pooled_internal. destruct (evict_idle _ p w r) as [[[e p1] w1] r1] eqn:E.
  apply evict_idle_shrinks in E. destruct (try_acquire_h3 key p1 r1) as [[s p2] r2] eqn:E3.
  intros [= <- <- <- <-]. eapply takes_shrinks; [exact E|]. by eapply take_h3.
Qed.
Lemma acquire_h2_takes key p w r c p' w' r' :
  try_acquire_h2_pooled_internal key p w r = (c, p', w', r') -> takes p w c p' w'.
Proof.
  unfold try_acquire_h2_pooled_internal. destruct (evict_idle _ p w r) as [[[e p1] w1] r1] eqn:E.
  apply evict_idle_shrinks in E. unfold try_acquire_h2.
  destruct (h2_connections p1 !! key); [destruct (instant_now r1)|]; intros [= <- <- <- <-];
    (eapply takes_shrinks; [exact E|]); (apply takes_nothing; [|done]).
  - apply set_h2_shrinks.
  - apply shrinks_refl.
Qed.
Lemma acquire_h1_takes key p w r c p' w' r' :
  try_acquire_h1_pooled_internal key p w r = (c, p', w', r') -> takes p w c p' w'.
Proof.
  unfold try_acquire_h1_pooled_internal. destruct (evict_idle _ p w r) as [[[e p1] w1] r1] eqn:E.
  apply evict_idle_shrinks in E. destruct (try_acquire_h1 key p1) as [x p2] eqn:E1.
  intros [= <- <- <- <-]. eapply takes_shrinks; [exact E|]. by eapply take_h1.
Qed.

(** Taking nothing is letting go. *)
Lemma takes_then p w p1 w1 c p' w' : takes p w None p1 w1 -> takes p1 w1 c p' w' -> takes p w c p' w'.
Proof.
  intros [] []. constructor; [lia|congruence| |].
  - intros h Hb. apply tk_balance1. specialize (tk_balance0 h Hb). unfold h1_handed in tk_balance0.
    cbn [hand_out] in tk_balance0. by rewrite len_nil, Z.add_0_r in tk_balance0.
  - by etrans.
Qed.

Lemma acquire_spec key p w c p' w' : acquires key p w c p' w' -> takes p w c p' w'.
Proof.
  destruct 1 as [r c p' w' r' E|r c p' w' r' E|r c p' w' r' E|r c p' w' r' E|r c p' r' E].
  2: by eapply acquire_h3_takes. 2: by eapply acquire_h2_takes. 2: by eapply acquire_h1_takes. 2: by eapply take_h3.
  unfold try_acquire_internal in E. destruct (evict_idle _ p w r) as [[[e p1] w1] r1] eqn:E1.
  apply evict_idle_shrinks in E1. eapply takes_shrinks; [exact E1|].
  destruct (try_acquire_h3_pooled_internal key p1 w1 r1) as [[[[c3|] p3] w3] r3] eqn:E3;
    apply acquire_h3_takes in E3; [by simplify_eq|]. eapply takes_then; [exact E3|].
  destruct (try_acquire_h2_pooled_internal key p3 w3 r3) as [[[[c2|] p2] w2] r2] eqn:E2;
    apply acquire_h2_takes in E2; [by simplify_eq|]. eapply takes_then; [exact E2|].
  by eapply acquire_h1_takes.
Qed.

(** ** Inserting *)

Lemma return_h1_spec key sender task p w r p' w' r' h :
  return_h1_reserved key sender task p w r = (p', w', r') -> balance p w (h + 1) ->
  balance p' w' h /\ connections_in_use w' <= connections_in_use w /\ max_total p' = max_total p /\
  (h1_task <$> all_entries (h1_connections p')) ⊆+ task :: (h1_task <$> all_entries (h1_connections p)).
Proof.
  unfold return_h1_reserved. pose proof (all_entries_default (h1_connections p) key) as Hp.
  set (q := default [] (h1_connections p !! key)) in *.
  destruct (instant_now r) as [now r1] eqn:En.
  assert (Hgo : forall q' d w1, q = d ++ q' -> connections_in_use w1 = connections_in_use w - len d -> tracked w1 = tracked w ->
    balance p w (h + 1) ->
    let p1 := set_h1 (<[key := q' ++ [mkH1 sender task now]]> (h1_connections p)) p in
    balance p1 w1 h /\ connections_in_use w1 <= connections_in_use w /\ max_total p1 = max_total p /\
    (h1_task <$> all_entries (h1_connections p1)) ⊆+ task :: (h1_task <$> all_entries (h1_connections p))).
  { intros q' d w1 Hq Hu Ht Hb. cbn zeta. pool_cbn.
    pose proof (all_entries_update (h1_connections p) key (q' ++ [mkH1 sender task now])) as Hp'.
    rewrite (h1_count_perm _ _ Hp) in Hb. rewrite (h1_count_perm _ _ Hp'). rewrite Hq in Hb.
    pose proof (len_nonneg d). split_and!; [|lia|done|].
    - revert Hb. slen.
    - rewrite Hp, Hp', Hq, !fmap_app. cbn [fmap list_fmap h1_task]. rewrite <- !app_assoc. cbn [app].
      rewrite <- Permutation_middle. apply submseteq_skip, submseteq_inserts_l. done. }
  destruct (max_per_key p <=? len q); [|intros [= <- <- <-] Hb; apply (Hgo q []); [done|slen|done|done]].
  destruct q as [|e rest] eqn:Eq; intros [= <- <- <-] Hb; [apply (Hgo [] []); [done|slen|done|done]|].
  apply (Hgo rest [e]); [done|cbn; slen|by rewrite tracked_drop, tracked_abort|done].
Qed.

Lemma insert_h1_spec key sender task p w r p' r' h :
  insert_h1_reserved key sender task p r = (p', r') -> balance p w (h + 1) ->
  balance p' w h /\ max_total p' = max_total p /\
  (h1_task <$> all_entries (h1_connections p')) ≡ₚ task :: (h1_task <$> all_entries (h1_connections p)).
Proof.
  unfold insert_h1_reserved. destruct (instant_now r) as [now r1]. intros [= <- <-] Hb. pool_cbn.
  pose proof (all_entries_default (h1_connections p) key) as Hp.
  set (q := default [] (h1_connections p !! key)) in *.
  pose proof (all_entries_update (h1_connections p) key (q ++ [mkH1 sender task now])) as Hp'.
  rewrite (h1_count_perm _ _ Hp) in Hb. rewrite (h1_count_perm _ _ Hp'). split_and!; try done.
  - revert Hb. slen.
  - rewrite Hp, Hp', !fmap_app. cbn [fmap list_fmap h1_task]. rewrite <- !app_assoc. cbn [app].
    by rewrite <- Permutation_middle.
Qed.

(** Inserting a multiplexed connection moves its permit to a task, or drops it. *)
Lemma insert_h2_spec key sender task p w r p' w' r' h :
  insert_h2_reserved key sender task p w r = (p', w', r') -> balance p w (h + 1) ->
  balance p' w' h /\ connections_in_use w' <= connections_in_use w /\ max_total p' = max_total p /\
  h1_connections p' = h1_connections p.
Proof.
  unfold insert_h2_reserved, track_connection_task. destruct (spawn _ w) as [id w1] eqn:E.
  apply spawn_spec in E as [Hu Ht]. cbn in Ht.
  destruct (h2_connections p !! key); [|destruct (instant_now r)]; intros [= <- <- <-]; pool_cbn; intros Hb;
    (split_and!; [lia|lia|done|done]).
Qed.
Lemma insert_h3_spec key sender driver p w r p' w' r' h :
  insert_h3_reserved key sender driver p w r = (p', w', r') -> balance p w (h + 1) ->
  balance p' w' h /\ connections_in_use w' <= connections_in_use w /\ max_total p' = max_total p /\
  h1_connections p' = h1_connections p.
Proof.
  unfold insert_h3_reserved, track_connection_task.
  destruct (h3_connections p !! key).
  - intros [= <- <- <-]; pool_cbn; intros Hb. rewrite tracked_drop, tracked_abort. unfold abort. pool_cbn.
    split_and!; [lia|lia|done|done].
  - destruct (spawn _ w) as [id w1] eqn:E. apply spawn_spec in E as [Hu Ht]. cbn in Ht.
    destruct (instant_now r). intros [= <- <- <-]; pool_cbn; intros Hb. split_and!; [lia|lia|done|done].
Qed.

(** ** Every step preserves the invariant *)

Lemma submseteq_nodup {A} (l l' : list A) : l' ⊆+ l -> NoDup l -> NoDup l'.
Proof.
  intros H. apply submseteq_Permutation in H as [k ->]. rewrite NoDup_app. tauto.
Qed.
Lemma sub_nodup {A} (l l' o : list A) : l' ⊆+ l -> NoDup (l ++ o) -> NoDup (l' ++ o).
Proof. intros H. apply submseteq_nodup, submseteq_app; done. Qed.

(** The task of a connection that changes hands, brought to the front. *)
Lemma out_middle (l o1 o2 : list Z) task : l ++ o1 ++ task :: o2 ≡ₚ (task :: l) ++ o1 ++ o2.
Proof. cbn [app]. by rewrite <- !Permutation_middle. Qed.
Lemma len_middle (o1 o2 : list Z) task : len (o1 ++ task :: o2) = len (o1 ++ o2) + 1.
Proof. slen. Qed.

Lemma shrinks_inv max p w p' w' n o : shrinks p w p' w' -> inv max (mkSys p w n o) -> inv max (mkSys p' w' n o).
Proof.
  intros [] []. pool_cbn. constructor; cbn [s_pool s_world dialing out]; [by apply shr_balance0|done|lia|congruence|].
  unfold idle in *. cbn [s_pool] in *. eapply sub_nodup; [|done]. by apply fmap_submseteq.
Qed.
Lemma reserve_inv max p w n o ok p' w' :
  try_reserve_connection p w = (ok, p', w') -> inv max (mkSys p w n o) ->
  inv max (mkSys p' w' (if ok then n + 1 else n) o).
Proof.
  intros E Hi. apply reserve_spec in E as (w1 & Hs & Ht & Hu & Hok & _).
  pose proof (inv_max _ _ Hi) as Hm. pose proof (shrinks_inv _ _ _ _ _ _ _ Hs Hi) as [].
  pool_cbn. constructor; cbn [s_pool s_world dialing out]; try done; pool_cbn; destruct ok;
    try specialize (Hok eq_refl); lia.
Qed.
Lemma counter_inv max p w n o ok w' :
  try_reserve_counter (max_total p) w = (ok, w') -> inv max (mkSys p w n o) ->
  inv max (mkSys p w' (if ok then n + 1 else n) o).
Proof.
  intros E []. apply try_reserve_counter_spec in E as (Ht & Hu & Hok).
  assert (ok = true -> connections_in_use w < max_total p) by (by apply Hok). clear Hok.
  pool_cbn. constructor; cbn [s_pool s_world dialing out]; try done; pool_cbn; destruct ok; lia.
Qed.
Lemma return_inv max p w n o1 o2 key sender task r p' w' r' :
  return_h1_reserved key sender task p w r = (p', w', r') ->
  inv max (mkSys p w n (o1 ++ task :: o2)) -> inv max (mkSys p' w' n (o1 ++ o2)).
Proof.
  intros E [Hb ? ? ? Hx]. cbn [s_pool s_world dialing out] in *. rewrite len_middle, Z.add_assoc in Hb.
  eapply return_h1_spec in E as (Hb' & Hu & Hm & Hs); [|exact Hb].
  constructor; cbn [s_pool s_world dialing out]; [done|done|lia|congruence|].
  eapply sub_nodup; [exact Hs|]. by rewrite <- out_middle.
Qed.
Lemma insert_h1_inv max p w n o1 o2 key sender task r p' r' :
  insert_h1_reserved key sender task p r = (p', r') ->
  inv max (mkSys p w n (o1 ++ task :: o2)) -> inv max (mkSys p' w n (o1 ++ o2)).
Proof.
  intros E [Hb ? ? ? Hx]. cbn [s_pool s_world dialing out] in *. rewrite len_middle, Z.add_assoc in Hb.
  eapply insert_h1_spec in E as (Hb' & Hm & Hs); [|exact Hb].
  constructor; cbn [s_pool s_world dialing out]; [done|done|lia|congruence|].
  unfold idle. cbn [s_pool out]. rewrite Hs. by rewrite <- out_middle.
Qed.
Lemma pool_acquire_inv max p w n o key c p' w' :
  acquires key p w c p' w' -> inv max (mkSys p w n o) -> inv max (mkSys p' w' n (hand_out c o)).
Proof.
  intros E [Hb ? ? ? Hx]. apply acquire_spec in E as [Hu Hm Hb' He]. cbn [s_pool s_world dialing out] in *.
  assert (Ho : hand_out c o = h1_handed c ++ o) by (by destruct c as [[]|]).
  constructor; cbn [s_pool s_world dialing out]; [|done|lia|congruence|].
  - specialize (Hb' _ Hb). rewrite Ho, len_app. unfold balance in *. lia.
  - unfold idle. cbn [s_pool out]. rewrite Ho, app_assoc. eapply sub_nodup; [|exact Hx].
    etrans; [|exact He]. by rewrite Permutation_app_comm.
Qed.

(** The multiplexed insertions change neither list of HTTP/1.1 connections. *)
Lemma insert_mux_inv max p w n o p' w' :
  (forall h, balance p w (h + 1) ->
     balance p' w' h /\ connections_in_use w' <= connections_in_use w /\ max_total p' = max_total p /\
     h1_connections p' = h1_connections p) ->
  0 < n -> inv max (mkSys p w n o) -> inv max (mkSys p' w' (n - 1) o).
Proof.
  intros Hs Hn [Hb ? ? ? Hx]. cbn [s_pool s_world dialing out] in *.
  destruct (Hs (n - 1 + len o)) as (Hb' & Hu & Hm & Hh).
  { by replace (n - 1 + len o + 1) with (n + len o) by lia. }
  constructor; cbn [s_pool s_world dialing out]; [done|lia|lia|congruence|].
  unfold idle in *. cbn [s_pool out] in *. by rewrite Hh.
Qed.

Lemma drop_inv max p w n o n' o' :
  n' + len o' = n + len o - 1 -> 0 <= n' -> o' ⊆+ o ->
  inv max (mkSys p w n o) -> inv max (mkSys p (drop_permits 1 w) n' o').
Proof.
  intros Hl Hn Ho []. pool_cbn. constructor; cbn [s_pool s_world dialing out]; try done; pool_cbn; try lia.
  - rewrite tracked_drop. lia.
  - eapply submseteq_nodup; [|done]. unfold idle. cbn [s_pool]. by apply submseteq_app.
Qed.
Lemma world_inv max p w w' n o :
  connections_in_use w' - tracked w' = connections_in_use w - tracked w ->
  connections_in_use w' <= connections_in_use w ->
  inv max (mkSys p w n o) -> inv max (mkSys p w' n o).
Proof.
  intros Ht Hu []. pool_cbn. constructor; cbn [s_pool s_world dialing out]; try done; pool_cbn; lia.
Qed.

Lemma step_inv max s s' : step s s' -> inv max s -> inv max s'.
Proof.
  destruct 1 as [p w n o ok p' w' E|p w n o ok w' E|p w n o Hn|p w n o task Hn Hi Ho
    |p w n o1 o2 key sender task r p' w' r' E|p w n o1 o2 key sender task r p' r' E|p w n o1 o2 task
    |p w n o key sender task r p' w' r' Hn E|p w n o key sender driver r p' w' r' Hn E
    |p w n o key c p' w' E|p w n o max_idle r e p' w' r' E|p w n o key p' w' E|p w n o p' w' E
    |p w n o id|p w n o id|p w n o id t Hid Ht].
  - by eapply reserve_inv.
  - by eapply counter_inv.
  - apply drop_inv; [lia|lia|done].
  - intros []. pool_cbn. constructor; cbn [s_pool s_world dialing out]; try done; pool_cbn; [slen|lia|].
    unfold idle in *. cbn [s_pool out] in *. rewrite <- Permutation_middle. constructor; [|done].
    rewrite elem_of_app. tauto.
  - by eapply return_inv.
  - by eapply insert_h1_inv.
  - intros Hi. eapply drop_inv; [| |  |exact Hi]; [rewrite len_middle; lia|by destruct Hi|].
    rewrite <- Permutation_middle. by apply submseteq_cons.
  - apply insert_mux_inv; [|done]. intros h. by eapply insert_h2_spec.
  - apply insert_mux_inv; [|done]. intros h. by eapply insert_h3_spec.
  - by eapply pool_acquire_inv.
  - eapply shrinks_inv, evict_idle_shrinks, E.
  - eapply shrinks_inv, remove_shrinks, E.
  - eapply shrinks_inv, clear_shrinks, E.
  - destruct (task_ends_spec id w). by apply world_inv.
  - apply world_inv; rewrite ?tracked_abort; [done|]. cbn. lia.
  - apply world_inv; cbn [connections_in_use]; [|lia]. rewrite tracked_insert_fresh, Ht by done. lia.
Qed.

Lemma init_inv max : 0 <= max -> inv max (init max).
Proof.
  intros H. constructor; try done. unfold idle, init, with_max_total. cbn. constructor.
Qed.
Lemma pool_reachable_inv max s : 0 <= max -> rtc step (init max) s -> inv max s.
Proof.
  intros Hm H. pose proof (init_inv max Hm) as Hi. induction H as [|x y z Hs _ IH]; [done|].
  by apply IH, (step_inv max x).
Qed.

(** Over every interleaving of reservations, handshakes, check-outs, returns,
    evictions, removals and task ends, from a fresh pool: the counter of connections
    in use is exactly the number of permits that somebody holds (a dialling caller, a
    caller with a checked-out HTTP/1.1 connection, an idle entry, the task of a
    multiplexed connection, the legacy table), it never exceeds the limit, and no
    HTTP/1.1 connection is idle twice, checked out twice, or both at once. *)
Theorem pool_permits_conserved (max : Z) (s : Sys) :
  0 <= max -> rtc step (init max) s ->
  connections_in_use (s_world s) =
    dialing s + len (out s) + h1_count (h1_connections (s_pool s)) + tracked (s_world s) +
    Z.of_nat (size (legacy_h1_permits (s_pool s))) /\
  connections_in_use (s_world s) <= max /\ 0 <= dialing s /\
  NoDup (idle s ++ out s).
Proof. intros Hm Hr. destruct (pool_reachable_inv max s Hm Hr). pool_cbn. done. Qed.

(** A reservation in a reachable pool is refused only when every permit is in
    use by something that cannot be evicted: the counter is at the limit and, once the
    closed connections are gone, not one idle HTTP/1.1 connection is left.  Otherwise it
    succeeds, at the price of at most one idle connection. *)
Theorem reserve_refused_only_when_full (max : Z) (s : Sys) ok p' w' :
  0 <= max -> rtc step (init max) s ->
  try_reserve_connection (s_pool s) (s_world s) = (ok, p', w') ->
  (if ok then connections_in_use w' <= max
   else connections_in_use w' = max /\ all_entries (h1_connections p') = []) /\
  all_entries (h1_connections p') ⊆+ all_entries (h1_connections (s_pool s)).
Proof.
  intros Hm Hr E. pose proof (pool_reachable_inv max s Hm Hr) as Hi. destruct s as [p w n o].
  pose proof (reserve_inv _ _ _ _ _ _ _ _ E Hi) as [_ _ Hl _ _].
  apply reserve_spec in E as (w1 & Hs & _ & _ & _ & Hfull). destruct Hi as [_ _ Hl0 Hmax _].
  cbn [s_pool s_world] in *. split; [|by destruct Hs].
  destruct ok; [done|]. destruct Hfull as [H1 H2]; [done|lia|]. split; [lia|done].
Qed.
End steps.

(** ** The counter under concurrent loops *)

Inductive Thread : Type := Outside | Looping (current : Z) | Holding.

Record Threads : Type := mkThreads { in_use : Z; threads : list Thread }.

(** A load may return any value the thread is allowed to see: none is excluded. *)
Inductive cas_step (max : Z) : Threads -> Threads -> Prop :=
| cas_load c ts i v : ts !! i = Some Outside ->
    cas_step max (mkThreads c ts) (mkThreads c (<[i := Looping v]> ts))
| cas_none c ts i v sp : ts !! i = Some (Looping v) -> reserve_turn max v c sp = TurnNone ->
    cas_step max (mkThreads c ts) (mkThreads c (<[i := Outside]> ts))
| cas_reserved c ts i v sp c' : ts !! i = Some (Looping v) -> reserve_turn max v c sp = TurnReserved c' ->
    cas_step max (mkThreads c ts) (mkThreads c' (<[i := Holding]> ts))
| cas_retry c ts i v sp seen : ts !! i = Some (Looping v) -> reserve_turn max v c sp = TurnRetry ->
    cas_step max (mkThreads c ts) (mkThreads c (<[i := Looping seen]> ts))
| cas_drop c ts i : ts !! i = Some Holding ->
    cas_step max (mkThreads c ts) (mkThreads (c - 1) (<[i := Outside]> ts)).

Definition holds (t : Thread) : bool := match t with Holding => true | _ => false end.
Definition holders (ts : list Thread) : Z := len (filter (fun t => holds t = true) ts).

Lemma holders_app l1 l2 : holders (l1 ++ l2) = holders l1 + holders l2.
Proof. unfold holders. by rewrite filter_app, len_app. Qed.
Lemma holders_cons t l : holders (t :: l) = (if holds t then 1 else 0) + holders l.
Proof. unfold holders. rewrite filter_cons. destruct (holds t); case_decide; try done; slen. Qed.
Lemma holders_outside n : holders (replicate n Outside) = 0.
Proof. induction n as [|n IH]; [done|]. cbn [replicate]. rewrite holders_cons, IH. done. Qed.
Lemma holders_insert ts i t t' : ts !! i = Some t ->
  holders (<[i := t']> ts) = holders ts + (if holds t' then 1 else 0) - (if holds t then 1 else 0).
Proof.
  intros H. rewrite <- (take_drop_middle ts i t H) at 2.
  rewrite insert_take_drop by (by eapply lookup_lt_Some).
  rewrite !holders_app, !holders_cons. lia.
Qed.

Lemma reserve_turn_reserved max v c sp c' :
  reserve_turn max v c sp = TurnReserved c' -> v = c /\ c' = c + 1 /\ c < max.
Proof.
  unfold reserve_turn. destruct (Z.leb_spec max v); [done|].
  destruct sp, (Z.eqb_spec c v); cbn; intros [= <-]. lia.
Qed.

Definition cas_inv (max : Z) (s : Threads) : Prop := in_use s = holders (threads s) /\ in_use s <= max.

Lemma cas_step_inv max s s' : cas_step max s s' -> cas_inv max s -> cas_inv max s'.
Proof.
  unfold cas_inv.
  destruct 1 as [c ts i v H|c ts i v sp H E|c ts i v sp c' H E|c ts i v sp seen H E|c ts i H];
    cbn [in_use threads]; rewrite (holders_insert _ _ _ _ H); cbn [holds]; try lia.
  apply reserve_turn_reserved in E. lia.
Qed.

(** C23. The permit counter under any number of threads, each in the
    compare-and-swap loop of [try_reserve_counter], with stale loads, spurious failures
    and drops in any order: the counter is the number of permits held, and never
    exceeds the limit; a turn that reserves is the atomic operation of the pool, and so is
    a turn on the counter's value that the exchange does not spuriously fail. *)
Theorem counter_linearises (max : Z) (n : nat) (s : Threads) :
  0 <= max -> rtc (cas_step max) (mkThreads 0 (replicate n Outside)) s ->
  (in_use s = holders (threads s) /\ in_use s <= max) /\
  (forall v sp c' ts, reserve_turn max v (in_use s) sp = TurnReserved c' ->
     try_reserve_counter max (mkWorld ts (in_use s)) = (true, mkWorld ts c')) /\
  (forall ts, match reserve_turn max (in_use s) (in_use s) false with
              | TurnNone => try_reserve_counter max (mkWorld ts (in_use s)) = (false, mkWorld ts (in_use s))
              | TurnReserved c' => try_reserve_counter max (mkWorld ts (in_use s)) = (true, mkWorld ts c')
              | TurnRetry => False
              end).
Proof.
  intros Hm Hr. split; [|split].
  - fold (cas_inv max s). assert (H0 : cas_inv max (mkThreads 0 (replicate n Outside))).
    { split; [|done]. symmetry. apply holders_outside. }
    induction Hr as [|x y z Hs _ IH]; [done|]. by apply IH, (cas_step_inv max x).
  - intros v sp c' ts (-> & -> & Hlt)%reserve_turn_reserved. unfold try_reserve_counter. cbn [connections_in_use tasks].
    by rewrite (proj2 (Z.leb_gt _ _)) by lia.
  - intros ts. unfold reserve_turn, try_reserve_counter. cbn [connections_in_use tasks].
    destruct (max <=? in_use s); [done|]. by rewrite Z.eqb_refl.
Qed.
End pool_props.
