(* ===== verification/HttpLib.v ===== *)
(** * The [http] and [url] crates, as the sources use them

    A header map is a multimap from lower-case names to values: what its documentation
    promises is the class [HeaderMapLaws]; the order in which names are iterated is not
    promised.  A URL is an opaque value with accessors, a parser and a serialization;
    [UrlLaws] states the round trip and what the two setters do. *)
From S2P Require Import Prelude Text.

(** ** [http::HeaderMap] and [http::HeaderValue] *)

Class HeaderMap (H : Type) : Type := {
  hm_new : H;
  hm_insert : bytes -> bytes -> H -> H;
  hm_append : bytes -> bytes -> H -> H;
  hm_remove : bytes -> H -> H;
  hm_get_all : H -> bytes -> list bytes;
  hm_iter : H -> list (bytes * bytes);
  (** [drain]: a value without a name belongs to the name before it. *)
  hm_drain : H -> list (option bytes * bytes);
  (** [HeaderValue::to_str] and [HeaderValue::from_str]. *)
  hv_to_str : bytes -> option bytes;
  hv_from_str : bytes -> option bytes;
}.

(** The values of one name, in their order. *)
Definition values_of (name : bytes) (l : list (bytes * bytes)) : list bytes :=
  snd <$> filter (fun nv => nv.1 = name) l.

(** The drained list with the names filled in; [last_name] is the name before it. *)
Fixpoint fill_names (last_name : option bytes) (l : list (option bytes * bytes)) : list (bytes * bytes) :=
  match l with
  | [] => []
  | (Some n, v) :: l => (n, v) :: fill_names (Some n) l
  | (None, v) :: l =>
      match last_name with
      | Some n => (n, v) :: fill_names last_name l
      | None => fill_names last_name l
      end
  end.

Class HeaderMapLaws (H : Type) {HM : HeaderMap H} : Prop := {
  hm_get_new n : hm_get_all (hm_new (H := H)) n = [];
  hm_get_insert n v h m : hm_get_all (hm_insert n v h) m = if bool_decide (m = n) then [v] else hm_get_all h m;
  hm_get_append n v h m :
    hm_get_all (hm_append n v h) m = hm_get_all h m ++ (if bool_decide (m = n) then [v] else []);
  hm_get_remove n h m : hm_get_all (hm_remove n h) m = if bool_decide (m = n) then [] else hm_get_all h m;
  hm_iter_values h n : values_of n (hm_iter h) = hm_get_all h n;
  hm_drain_values h n : values_of n (fill_names None (hm_drain h)) = hm_get_all h n;
  hv_to_str_same v s : hv_to_str v = Some s -> s = v;
  hv_from_str_same s v : hv_from_str s = Some v -> v = s;
}.

Section header_map.
Context {H : Type} {HM : HeaderMap H}.
Definition hm_get (h : H) (n : bytes) : option bytes := head (hm_get_all h n).
Definition hm_contains (h : H) (n : bytes) : bool := negb (is_empty (hm_get_all h n)).
End header_map.

(** Names used by the sources. *)
Definition COOKIE : bytes := ascii_bytes "cookie".
Definition HOST : bytes := ascii_bytes "host".
Definition AUTHORIZATION : bytes := ascii_bytes "authorization".
Definition REFERER : bytes := ascii_bytes "referer".
Definition LOCATION : bytes := ascii_bytes "location".
Definition STRICT_TRANSPORT_SECURITY : bytes := ascii_bytes "strict-transport-security".
Definition CONTENT_TYPE : bytes := ascii_bytes "content-type".
Definition CONTENT_LENGTH : bytes := ascii_bytes "content-length".
Definition CONTENT_ENCODING : bytes := ascii_bytes "content-encoding".
Definition CONTENT_LANGUAGE : bytes := ascii_bytes "content-language".
Definition CONTENT_LOCATION : bytes := ascii_bytes "content-location".

(** ** [url::Url] *)

Definition https : bytes := ascii_bytes "https".
Definition http : bytes := ascii_bytes "http".

Class UrlLib (U : Type) : Type := {
  (** The error is its message. *)
  url_parse : bytes -> bytes + U;
  url_join : U -> bytes -> bytes + U;
  url_to_string : U -> bytes;
  url_scheme : U -> bytes;
  host_str : U -> option bytes;
  url_port : U -> option Z;
  port_or_known_default : U -> option Z;
  url_path : U -> bytes;
  url_query : U -> option bytes;
  set_scheme : bytes -> U -> option U;
  set_port : option Z -> U -> option U;
  append_pairs : list (bytes * bytes) -> U -> U;
}.

Class UrlLaws (U : Type) {UL : UrlLib U} : Prop := {
  url_roundtrip u : url_parse (url_to_string u) = inr u;
  (** A change between the two special schemes succeeds and keeps the host. *)
  set_scheme_https u : url_scheme u = http ->
    exists u', set_scheme https u = Some u' /\ url_scheme u' = https /\ host_str u' = host_str u;
  set_port_some u p h : host_str u = Some h ->
    exists u', set_port (Some p) u = Some u' /\ url_scheme u' = url_scheme u /\ host_str u' = host_str u;
}.
