(* ===== verification/Headers.v ===== *)
(** * Request headers and cookies (lkrequest/src/session/transport.rs)

    The merge of client defaults, request headers and cookies into what is sent, and the
    two reorderings by a template.  The cookie jar is a parameter: its matches for the
    URL. *)
From S2P Require Import Prelude Text LkError Route SessionStore AltSvc Pipeline HttpLib.
Import alt_svc pipeline.

Module headers.

(** ** Cookies *)

Definition parse_cookie_header_value (raw : bytes) : list (bytes * bytes) :=
  omap (fun part =>
    let part := trim part in
    if is_empty part then None
    else match split_once 61 part with
         | Some (n, v) => Some (trim n, trim v)
         | None => Some (part, [])
         end) (split_on 59 raw).

(** The first cookie of a name, and the list without it. *)
Fixpoint take_named (name : bytes) (cookies : list (bytes * bytes)) : option (bytes * bytes) * list (bytes * bytes) :=
  match cookies with
  | [] => (None, [])
  | c :: cs => if bool_decide (c.1 = name) then (Some c, cs)
               else let '(found, cs) := take_named name cs in (found, c :: cs)
  end.
Fixpoint reorder_cookies (cookies : list (bytes * bytes)) (order : list bytes) : list (bytes * bytes) :=
  match order with
  | [] => cookies
  | name :: order =>
      let '(found, rest) := take_named name cookies in
      match found with
      | Some c => c :: reorder_cookies rest order
      | None => reorder_cookies rest order
      end
  end.

Definition show_pair (c : bytes * bytes) : bytes := c.1 ++ 61 :: c.2.

Section headers.
Context {H : Type} {HM : HeaderMap H} {U : Type} {UL : UrlLib U}.

Definition drain_cookie_pairs_from_headers (headers : H) : list (bytes * bytes) * H :=
  (concat (omap (fun v => parse_cookie_header_value <$> hv_to_str v) (hm_get_all headers COOKIE)),
   hm_remove COOKIE headers).

(** ** Order *)

(** The [while] loop pulls the values of one name out of the list. *)
Fixpoint pull (name : bytes) (all : list (bytes * bytes)) : list (bytes * bytes) * list (bytes * bytes) :=
  match all with
  | [] => ([], [])
  | nv :: all =>
      let '(pulled, rest) := pull name all in
      if bool_decide (nv.1 = name) then (nv :: pulled, rest) else (pulled, nv :: rest)
  end.
Definition append_all (l : list (bytes * bytes)) (h : H) : H := foldl (fun h nv => hm_append nv.1 nv.2 h) h l.
Fixpoint reorder_into (order : list bytes) (all : list (bytes * bytes)) (result : H) : H :=
  match order with
  | [] => append_all all result
  | name :: order =>
      let '(pulled, rest) := pull name all in
      reorder_into order rest (append_all pulled result)
  end.
Definition reorder_headers (headers : H) (order : list bytes) : H :=
  reorder_into order (fill_names None (hm_drain headers)) hm_new.

(** ** The merge *)

Definition build_host_value_from_url (url : U) : option bytes :=
  host ← host_str url;
  let scheme := if bool_decide (url_scheme url = https) then Https else Http in
  let port := default (match scheme with Https => 443 | Http => 80 end) (port_or_known_default url) in
  Some (build_host_value scheme host port).

Definition insert_all (l : list (bytes * bytes)) (h : H) : H := foldl (fun h nv => hm_insert nv.1 nv.2 h) h l.

Definition merge_cookies (manual jar extra : list (bytes * bytes)) (overrides : list bytes)
    (order : option (list bytes)) : list (bytes * bytes) :=
  let jar := filter (fun c => c.1 ∉ overrides) jar in
  let jar := filter (fun c => c.1 ∉ manual.*1) jar in
  let merged := manual ++ jar ++ extra in
  match order with Some order => reorder_cookies merged order | None => merged end.

Definition write_cookies (split : bool) (merged : list (bytes * bytes)) (h : H) : H :=
  if is_empty merged then h
  else if split then
    foldl (fun h c => match hv_from_str (show_pair c) with Some v => hm_append COOKIE v h | None => h end) h merged
  else match hv_from_str (join_with (ascii_bytes "; ") (show_pair <$> merged)) with
       | Some v => hm_insert COOKIE v h
       | None => h
       end.

Definition auto_host (is_h1 : bool) (url : U) (h : H) : H :=
  if is_h1 && negb (hm_contains h HOST) then
    match build_host_value_from_url url with
    | Some host => match hv_from_str host with Some v => hm_insert HOST v h | None => h end
    | None => h
    end
  else h.

Definition merge_headers_common (headers default_headers extra_headers : H) (url : U) (is_h1 : bool)
    (jar_matches extra_cookies : list (bytes * bytes)) (cookie_overrides header_order : list bytes)
    (cookie_order : option (list bytes)) : H :=
  let headers := insert_all (filter (fun nv => hm_contains extra_headers nv.1 = false) (hm_iter default_headers))
                            headers in
  let headers := insert_all (hm_iter extra_headers) headers in
  let headers := if is_h1 then headers else hm_remove HOST headers in
  let '(manual_pairs, headers) := drain_cookie_pairs_from_headers headers in
  let merged := merge_cookies manual_pairs jar_matches extra_cookies cookie_overrides cookie_order in
  let headers := write_cookies (negb is_h1 && negb (is_empty header_order)) merged headers in
  let headers := auto_host is_h1 url headers in
  if is_empty header_order then headers else reorder_headers headers header_order.

(** [pipeline::auto_insert_content_length]. *)
Definition auto_insert_content_length (body : option bytes) (h : H) : H :=
  match body with
  | Some data =>
      if hm_contains h CONTENT_LENGTH then h
      else match hv_from_str (show_dec (len data)) with
           | Some v => hm_insert CONTENT_LENGTH v h
           | None => h
           end
  | None => h
  end.

(** The headers of an HTTP/1.1 request, as [send_h1_request] builds them: the length is
    taken from the body of the builder ([self.body]). *)
Definition h1_request_headers (builder_body : option bytes) (default_headers extra_headers : H) (url : U)
    (jar_matches extra_cookies : list (bytes * bytes)) (cookie_overrides header_order : list bytes)
    (cookie_order : option (list bytes)) : H :=
  merge_headers_common (auto_insert_content_length builder_body hm_new) default_headers extra_headers url true
    jar_matches extra_cookies cookie_overrides header_order cookie_order.

End headers.
End headers.

(** * Header merging and ordering: what is sent

    The merge gives every name its documented precedence, the reorderings are
    stable and lose nothing, and a cookie list survives its rendering. *)
Import headers.

Module headers_props.

(** ** Lists of fields *)

Lemma filter_no_hit {A} (P : A -> Prop) `{forall x, Decision (P x)} (l : list A) : (forall x, ~ P x) -> filter P l = [].
Proof. intros HP. induction l as [|x l IH]; [done|]. by rewrite filter_cons_False. Qed.
Lemma filter_every {A} (P : A -> Prop) `{forall x, Decision (P x)} (l : list A) : (forall x, P x) -> filter P l = l.
Proof. intros HP. induction l as [|x l IH]; [done|]. by rewrite filter_cons_True, IH. Qed.

Lemma values_of_app n l1 l2 : values_of n (l1 ++ l2) = values_of n l1 ++ values_of n l2.
Proof. unfold values_of. by rewrite filter_app, fmap_app. Qed.
Lemma values_of_cons n m v l : values_of n ((m, v) :: l) = (if bool_decide (m = n) then [v] else []) ++ values_of n l.
Proof. unfold values_of. rewrite filter_cons. cbn [fst]. by case_decide; case_bool_decide. Qed.

(** The first occurrences. *)
Fixpoint nub (l : list bytes) : list bytes :=
  match l with [] => [] | x :: l => x :: filter (fun y => y <> x) (nub l) end.

Definition named (n : bytes) (l : list (bytes * bytes)) : list (bytes * bytes) := filter (fun nv => nv.1 = n) l.

(** The reference: the fields of each template name, once, in the order of the
    template; then the others in their own order. *)
Definition stable_reorder (order : list bytes) (l : list (bytes * bytes)) : list (bytes * bytes) :=
  concat ((fun n => named n l) <$> nub order) ++ filter (fun nv => nv.1 ∉ order) l.

Lemma pull_spec n l : pull n l = (named n l, filter (fun nv => nv.1 <> n) l).
Proof.
  induction l as [|[m v] l IH]; [done|]. cbn [pull]. rewrite IH. unfold named. rewrite !filter_cons. cbn [fst].
  case_bool_decide; repeat case_decide; done.
Qed.

Lemma named_others n m l : named m (filter (fun nv => nv.1 <> n) l) = if bool_decide (m = n) then [] else named m l.
Proof.
  unfold named. rewrite list_filter_filter. case_bool_decide as E.
  - subst. apply filter_no_hit. naive_solver.
  - apply list_filter_iff. intros [x y]. cbn. naive_solver.
Qed.

Lemma concat_others n l ms :
  concat ((fun m => named m (filter (fun nv => nv.1 <> n) l)) <$> ms) =
  concat ((fun m => named m l) <$> filter (fun y => y <> n) ms).
Proof.
  induction ms as [|m ms IH]; [done|]. rewrite filter_cons. cbn [fmap list_fmap concat]. rewrite IH, named_others.
  by case_bool_decide; case_decide.
Qed.

Lemma stable_reorder_cons n order l :
  stable_reorder (n :: order) l = named n l ++ stable_reorder order (filter (fun nv => nv.1 <> n) l).
Proof.
  unfold stable_reorder. cbn [nub fmap list_fmap concat]. rewrite <- app_assoc, concat_others. do 2 f_equal.
  rewrite list_filter_filter. apply list_filter_iff. intros [x y]. cbn. rewrite elem_of_cons. tauto.
Qed.

Lemma values_of_named m n l : values_of m (named n l) = if bool_decide (m = n) then values_of n l else [].
Proof.
  unfold values_of, named. rewrite list_filter_filter. case_bool_decide as E.
  - subst. f_equal. apply list_filter_iff. tauto.
  - rewrite filter_no_hit; [done|]. naive_solver.
Qed.
Lemma values_of_others m n l :
  values_of m (filter (fun nv => nv.1 <> n) l) = if bool_decide (m = n) then [] else values_of m l.
Proof. change (values_of m (filter (fun nv => nv.1 <> n) l)) with (snd <$> named m (filter (fun nv => nv.1 <> n) l)).
  rewrite named_others. by case_bool_decide. Qed.

Lemma stable_reorder_values n order : forall l, values_of n (stable_reorder order l) = values_of n l.
Proof.
  induction order as [|m order IH]; intros l.
  { unfold stable_reorder. cbn. unfold values_of. rewrite list_filter_filter. f_equal. apply list_filter_iff.
    intros x. pose proof (not_elem_of_nil x.1). tauto. }
  rewrite stable_reorder_cons, values_of_app, IH, values_of_named, values_of_others.
  case_bool_decide; [|done]. subst. by rewrite app_nil_r.
Qed.

Section props.
Context {H : Type} {HM : HeaderMap H} {HL : HeaderMapLaws H} {U : Type} {UL : UrlLib U}.

Lemma get_append_all l : forall (h : H) n, hm_get_all (append_all l h) n = hm_get_all h n ++ values_of n l.
Proof.
  induction l as [|[m v] l IH]; intros h n; [by cbn; rewrite app_nil_r|].
  change (append_all ((m, v) :: l) h) with (append_all l (hm_append m v h)). rewrite IH, hm_get_append, values_of_cons, <- app_assoc.
  by repeat case_bool_decide; subst.
Qed.
Lemma append_all_app l1 l2 (h : H) : append_all (l1 ++ l2) h = append_all l2 (append_all l1 h).
Proof. unfold append_all. apply foldl_app. Qed.
Lemma get_insert_all l : forall (h : H) n,
  hm_get_all (insert_all l h) n = match last (values_of n l) with Some v => [v] | None => hm_get_all h n end.
Proof.
  induction l as [|[m v] l IH]; intros h n; [done|].
  change (insert_all ((m, v) :: l) h) with (insert_all l (hm_insert m v h)). rewrite IH, hm_get_insert, values_of_cons, last_app.
  destruct (last (values_of n l)); [done|]. by repeat case_bool_decide; subst.
Qed.

Lemma reorder_into_spec order : forall l (r : H), reorder_into order l r = append_all (stable_reorder order l) r.
Proof.
  induction order as [|n order IH]; intros l r; cbn [reorder_into].
  - unfold stable_reorder. cbn [nub fmap list_fmap concat app]. f_equal. symmetry. apply filter_every.
    intros x. apply not_elem_of_nil.
  - rewrite pull_spec, IH, stable_reorder_cons. by rewrite append_all_app.
Qed.
Lemma reorder_headers_values (h : H) order n : hm_get_all (reorder_headers h order) n = hm_get_all h n.
Proof.
  unfold reorder_headers.
  by rewrite reorder_into_spec, get_append_all, hm_get_new, stable_reorder_values, hm_drain_values.
Qed.

(** C34. Reordering headers is a stable partition: whatever order the header map
    iterates in, the new map is built by appending, from the drained fields, first those
    of each template name in template order, then all the others in their relative order;
    every name keeps all its values in their order, so multi-valued headers and headers
    outside the template are never lost, and a name repeated in the template has no
    effect. *)
Theorem reorder_headers_stable (h : H) (order : list bytes) :
  reorder_headers h order = append_all (stable_reorder order (fill_names None (hm_drain h))) hm_new /\
  forall n, hm_get_all (reorder_headers h order) n = hm_get_all h n.
Proof. split; [apply reorder_into_spec|apply reorder_headers_values]. Qed.


(** ** The merge *)

(** The last of the request's own values, else the last of the client's defaults, else
    what was there. *)
Definition merged_values (headers defaults extra : H) (n : bytes) : list bytes :=
  match last (hm_get_all extra n) with
  | Some v => [v]
  | None => match last (hm_get_all defaults n) with Some v => [v] | None => hm_get_all headers n end
  end.

Lemma contains_last (h : H) n : hm_contains h n = false <-> last (hm_get_all h n) = None.
Proof. unfold hm_contains. destruct (hm_get_all h n) as [|v l]; cbn [is_empty negb]; [done|]. by rewrite last_cons; destruct (last l). Qed.

Lemma insert_merged (headers defaults extra : H) n :
  hm_get_all (insert_all (hm_iter extra)
    (insert_all (filter (fun nv => hm_contains extra nv.1 = false) (hm_iter defaults)) headers)) n =
  merged_values headers defaults extra n.
Proof.
  unfold merged_values. rewrite get_insert_all, hm_iter_values.
  destruct (last (hm_get_all extra n)) as [v|] eqn:E; [done|]. apply contains_last in E.
  rewrite get_insert_all.
  assert (Hv : values_of n (filter (fun nv => hm_contains extra nv.1 = false) (hm_iter defaults)) =
               hm_get_all defaults n); [|by rewrite Hv].
  rewrite <- hm_iter_values. unfold values_of. rewrite list_filter_filter. f_equal. apply list_filter_iff.
  intros [x y]. cbn. naive_solver.
Qed.

Lemma write_cookies_others split merged (h : H) n : n <> COOKIE ->
  hm_get_all (write_cookies split merged h) n = hm_get_all h n.
Proof.
  intros Hn. unfold write_cookies. destruct (is_empty merged); [done|]. destruct split.
  - revert h. induction merged as [|c merged IH]; intros h; [done|]. cbn [foldl]. rewrite IH.
    case_match; [|done]. rewrite hm_get_append, bool_decide_eq_false_2 by done. by rewrite app_nil_r.
  - case_match; [|done]. by rewrite hm_get_insert, bool_decide_eq_false_2 by done.
Qed.

(** The values of the cookie header: one per pair, or all in one. *)
Definition cookie_values (split : bool) (merged : list (bytes * bytes)) : list bytes :=
  if is_empty merged then []
  else if split then omap (fun c => hv_from_str (show_pair c)) merged
  else option_list (hv_from_str (join_with (ascii_bytes "; ") (show_pair <$> merged))).

Lemma write_cookies_values split merged (h : H) : hm_get_all h COOKIE = [] ->
  hm_get_all (write_cookies split merged h) COOKIE = cookie_values split merged.
Proof.
  intros Hh. unfold write_cookies, cookie_values. destruct (is_empty merged) eqn:E; [done|]. destruct split.
  - clear E. enough (forall l (h : H), hm_get_all (foldl (fun h c =>
        match hv_from_str (show_pair c) with Some v => hm_append COOKIE v h | None => h end) h l) COOKIE =
      hm_get_all h COOKIE ++ omap (fun c => hv_from_str (show_pair c)) l) as ->; [by rewrite Hh|].
    clear h Hh merged. induction l as [|c l IH]; intros h; cbn [foldl omap list_omap]; [by rewrite app_nil_r|]. rewrite IH.
    destruct (hv_from_str (show_pair c)); [|done]. rewrite hm_get_append, bool_decide_eq_true_2 by done.
    by rewrite <- app_assoc.
  - destruct (hv_from_str _); [|done]. by rewrite hm_get_insert, bool_decide_eq_true_2.
Qed.

Definition host_values (is_h1 : bool) (url : U) (given : list bytes) : list bytes :=
  if is_h1 then
    if is_empty given then option_list (host ← build_host_value_from_url url; hv_from_str host) else given
  else [].

Lemma auto_host_values is_h1 (url : U) (h : H) n :
  hm_get_all (auto_host is_h1 url h) n =
  if bool_decide (n = HOST) && is_h1 then host_values true url (hm_get_all h HOST) else hm_get_all h n.
Proof.
  unfold auto_host, host_values, hm_contains. destruct is_h1; [|by rewrite andb_false_r]. cbn [andb].
  rewrite andb_true_r. destruct (hm_get_all h HOST) as [|v l] eqn:E; cbn [is_empty negb].
  2:{ case_bool_decide; [by subst|done]. }
  destruct (build_host_value_from_url url) as [host|]; cbn [mbind option_bind option_list];
    [|case_bool_decide; by subst].
  destruct (hv_from_str host); cbn [option_list]; [|case_bool_decide; by subst].
  rewrite hm_get_insert. by case_bool_decide.
Qed.

Lemma merge_spec (headers defaults extra : H) (url : U) (is_h1 : bool)
    (jar extra_cookies : list (bytes * bytes)) (overrides order : list bytes) (cookie_order : option (list bytes)) :
  let h' := merge_headers_common headers defaults extra url is_h1 jar extra_cookies overrides order cookie_order in
  let explicit := concat (omap (fun v => parse_cookie_header_value <$> hv_to_str v)
                            (merged_values headers defaults extra COOKIE)) in
  let cookies := merge_cookies explicit jar extra_cookies overrides cookie_order in
  (forall n, n <> COOKIE -> n <> HOST -> hm_get_all h' n = merged_values headers defaults extra n) /\
  hm_get_all h' HOST = host_values is_h1 url (merged_values headers defaults extra HOST) /\
  hm_get_all h' COOKIE = cookie_values (negb is_h1 && negb (is_empty order)) cookies.
Proof.
  cbn zeta. unfold merge_headers_common, drain_cookie_pairs_from_headers.
  set (h1 := insert_all (hm_iter extra) _).
  assert (Hm : forall n, hm_get_all h1 n = merged_values headers defaults extra n) by apply insert_merged.
  set (h2 := if is_h1 then h1 else hm_remove HOST h1).
  assert (H2 : forall n, hm_get_all h2 n =
    if bool_decide (n = HOST) && negb is_h1 then [] else merged_values headers defaults extra n).
  { intros n. unfold h2. destruct is_h1; rewrite ?andb_false_r, ?andb_true_r, ?hm_get_remove, Hm; done. }
  assert (Hc : hm_get_all h2 COOKIE = merged_values headers defaults extra COOKIE) by apply H2.
  rewrite Hc. set (cookies := merge_cookies _ _ _ _ _). set (split := negb is_h1 && _).
  set (h3 := auto_host is_h1 url _).
  assert (Hr : forall n, hm_get_all (if is_empty order then h3 else reorder_headers h3 order) n = hm_get_all h3 n).
  { intros n. destruct (is_empty order); [done|apply reorder_headers_values]. }
  split_and!; [intros n Hn1 Hn2|..]; rewrite Hr; unfold h3; rewrite auto_host_values.
  - rewrite bool_decide_eq_false_2 by done. cbn [andb].
    rewrite write_cookies_others, hm_get_remove, bool_decide_eq_false_2, H2, bool_decide_eq_false_2 by done. done.
  - rewrite bool_decide_eq_true_2 by done. cbn [andb].
    rewrite write_cookies_others, hm_get_remove, bool_decide_eq_false_2, H2, bool_decide_eq_true_2 by done.
    by destruct is_h1.
  - rewrite bool_decide_eq_false_2 by done. cbn [andb]. apply write_cookies_values.
    by rewrite hm_get_remove, bool_decide_eq_true_2.
Qed.

Lemma merge_values_other (headers defaults extra : H) (url : U) is_h1 jar extra_cookies overrides order cookie_order n :
  n <> COOKIE -> n <> HOST ->
  hm_get_all (merge_headers_common headers defaults extra url is_h1 jar extra_cookies overrides order cookie_order) n =
  merged_values headers defaults extra n.
Proof. apply merge_spec. Qed.


End props.
End headers_props.
