(* ===== verification/Redirect.v ===== *)
(** * Redirects (lkrequest/src/session/transport.rs)

    The loop that sends a request and follows its redirects: HSTS upgrades, [https_only],
    the rewriting of method, body and headers, and the limit.  Sending one request is a
    parameter: it may do anything to the session, its HSTS policy included (other requests
    share it).  The trace lists what was sent, with the policy at that moment. *)
From S2P Require Import Prelude Text HttpLib LkError Hsts.
Import lk_error hsts.

Module redirect.

Inductive RedirectPolicy : Type := NoRedirects | Follow (n : nat).
#[export] Instance RedirectPolicy_eq_dec : EqDecision RedirectPolicy.
Proof. solve_decision. Defined.
Definition default_redirect_policy : RedirectPolicy := Follow 10.
Definition max_redirects (p : RedirectPolicy) : option nat :=
  match p with NoRedirects => None | Follow n => Some n end.

Section redirect.
Context {H : Type} {HM : HeaderMap H} {U : Type} {UL : UrlLib U} {P : Type} {HP : HstsPolicy P} {W : Type}.

Record RedirectRecord : Type := mkRecord {
  rr_url : bytes;
  rr_status : Z;
  rr_headers : H;
  rr_redirect_to : bytes;
}.

Record Response : Type := mkResponse {
  status : Z;
  resp_headers : H;
  resp_body : bytes;
  resp_url : bytes;
  redirect_history : list RedirectRecord;
}.
Definition set_url (url : bytes) (r : Response) : Response :=
  mkResponse (status r) (resp_headers r) (resp_body r) url (redirect_history r).
Definition set_redirect_history (h : list RedirectRecord) (r : Response) : Response :=
  mkResponse (status r) (resp_headers r) (resp_body r) (resp_url r) h.

(** What one request is sent with. *)
Record Request : Type := mkRequest {
  q_url : bytes;
  q_method : bytes;
  q_headers : H;
  q_body : option bytes;
  q_extra_cookies : list (bytes * bytes);
  q_cookie_overrides : list bytes;
  q_deadline : Z;
}.

(** [send_single_request]. *)
Variable send : Request -> P -> W -> Outcome Error Response * P * W.

Record SessionSettings : Type := mkSettings {
  redirect_policy : RedirectPolicy;
  https_only : bool;
}.

Definition redirect_is_cross_origin (from to : U) : bool :=
  negb (bool_decide (url_scheme from = url_scheme to)) ||
  negb (bool_decide (host_str from = host_str to)) ||
  negb (bool_decide (port_or_known_default from = port_or_known_default to)).

Definition hsts_upgrade (url : bytes) (policy : P) : option bytes :=
  parsed ← match url_parse url with inr u => Some u | inl _ => None end;
  if negb (bool_decide (url_scheme parsed = http)) then None
  else
    host ← host_str parsed;
    if negb (should_upgrade policy host) then None
    else
      parsed ← set_scheme https parsed;
      parsed ← (if bool_decide (url_port parsed = Some 80) then set_port (Some 443) parsed else Some parsed);
      Some (url_to_string parsed).

Definition refuses_plaintext (s : SessionSettings) (url : bytes) : bool :=
  https_only s && match url_parse url with inr u => negb (bool_decide (url_scheme u = https)) | inl _ => false end.

(** Learning from a [Strict-Transport-Security] header. *)
Definition learn_sts (url : bytes) (resp : Response) (policy : P) : P :=
  match hm_get (resp_headers resp) STRICT_TRANSPORT_SECURITY ≫= hv_to_str with
  | Some sts =>
      match url_parse url with
      | inr u => match host_str u with Some host => record_sts policy host sts | None => policy end
      | inl _ => policy
      end
  | None => policy
  end.

Definition strip_body_headers (h : H) : H :=
  hm_remove CONTENT_LOCATION (hm_remove CONTENT_LANGUAGE (hm_remove CONTENT_ENCODING
    (hm_remove CONTENT_LENGTH (hm_remove CONTENT_TYPE h)))).

Definition parse_error (url e : bytes) : Error := UrlParse (url ++ ascii_bytes ": " ++ e).

(** The request after a redirect; or the response itself, for the other codes. *)
Definition next_hop (req : Request) (history : list RedirectRecord) (resp : Response)
    : Outcome Error (Response + Request * list RedirectRecord) :=
  match hm_get (resp_headers resp) LOCATION ≫= hv_to_str with
  | None => Err (Http (ascii_bytes "redirect response missing Location header"))
  | Some location =>
      match url_parse (q_url req) with
      | inl e => Err (parse_error (q_url req) e)
      | inr base_url =>
          match url_join base_url location with
          | inl e => Err (UrlParse (ascii_bytes "invalid redirect URL '" ++ location ++ ascii_bytes "': " ++ e))
          | inr redirect_url =>
              let is_cross_origin := redirect_is_cross_origin base_url redirect_url in
              let redirect_to := url_to_string redirect_url in
              let history := history ++ [mkRecord (q_url req) (status resp) (resp_headers resp) redirect_to] in
              let rewritten :=
                if (301 <=? status resp) && (status resp <=? 303) then
                  Some (ascii_bytes "GET", None, strip_body_headers (q_headers req))
                else if (status resp =? 307) || (status resp =? 308) then
                  Some (q_method req, q_body req, q_headers req)
                else None in
              match rewritten with
              | None => Ok (inl (set_redirect_history history resp))
              | Some (method, body, headers) =>
                  let headers := if is_cross_origin then hm_remove HOST (hm_remove AUTHORIZATION headers)
                                 else headers in
                  let headers := if bool_decide (url_scheme base_url = https) &&
                                    bool_decide (url_scheme redirect_url = http)
                                 then hm_remove REFERER headers else headers in
                  let headers := hm_remove COOKIE headers in
                  Ok (inr (mkRequest redirect_to method headers body
                             (if is_cross_origin then [] else q_extra_cookies req)
                             (if is_cross_origin then [] else q_cookie_overrides req)
                             (q_deadline req), history))
              end
          end
      end
  end.

Definition with_url (url : bytes) (req : Request) : Request :=
  mkRequest url (q_method req) (q_headers req) (q_body req) (q_extra_cookies req) (q_cookie_overrides req)
    (q_deadline req).

(** The loop; the argument of the recursion is [redirects_remaining]. *)
Fixpoint redirect_loop (s : SessionSettings) (remaining : nat) (req : Request) (history : list RedirectRecord)
    (policy : P) (w : W) : Outcome Error Response * list (Request * P) * P * W :=
  let url := default (q_url req) (hsts_upgrade (q_url req) policy) in
  let req := with_url url req in
  if refuses_plaintext s url then
    (Err (Http (ascii_bytes "https_only: refusing non-HTTPS request to " ++ url)), [], policy, w)
  else
    let sent := (req, policy) in
    let '(result, policy, w) := send req policy w in
    match result with
    | Err e => (Err e, [sent], policy, w)
    | Panic => (Panic, [sent], policy, w)
    | Ok resp =>
        let policy := learn_sts url resp policy in
        let redirected := is_redirection (status resp) && bool_decide (redirect_policy s <> NoRedirects) in
        match redirected, remaining with
        | false, _ => (Ok (set_redirect_history history (set_url url resp)), [sent], policy, w)
        | true, O => (Err (TooManyRedirects (Z.of_nat (default O (max_redirects (redirect_policy s))))),
                      [sent], policy, w)
        | true, S remaining =>
            match next_hop req history resp with
            | Err e => (Err e, [sent], policy, w)
            | Panic => (Panic, [sent], policy, w)
            | Ok (inl resp) => (Ok resp, [sent], policy, w)
            | Ok (inr (next, history)) =>
                let '(result, trace, policy, w) := redirect_loop s remaining next history policy w in
                (result, sent :: trace, policy, w)
            end
        end
    end.

(** [send_with_redirects]: the query parameters, then the loop. *)
Definition send_with_redirects (s : SessionSettings) (req : Request) (query_params : list (bytes * bytes))
    (policy : P) (w : W) : Outcome Error Response * list (Request * P) * P * W :=
  let start url := redirect_loop s (default O (max_redirects (redirect_policy s))) (with_url url req) [] policy w in
  if is_empty query_params then start (q_url req)
  else match url_parse (q_url req) with
       | inl e => (Err (parse_error (q_url req) e), [], policy, w)
       | inr u => start (url_to_string (append_pairs query_params u))
       end.

End redirect.
End redirect.
