(* ===== verification/RedirectProps.v ===== *)
(** * What a chain of redirects can leak

    Credentials stay with the host they were set for, bodies with the request that
    carried them, plaintext is used only when nothing forbids it, and the chain is
    bounded. *)
From S2P Require Import Prelude Text LkError Hsts HttpLib Headers Redirect.
Import hsts redirect.

Module redirect_props.

Section props.
Context {H : Type} {HM : HeaderMap H} {HL : HeaderMapLaws H} {U : Type} {UL : UrlLib U} {UW : UrlLaws U}.
Context {P : Type} {HP : HstsPolicy P} {W : Type}.
Variable send : Request (H := H) -> P -> W -> Outcome lk_error.Error (Response (H := H)) * P * W.

(** ** URLs *)

Definition host_of (url : bytes) : option (option bytes) :=
  match url_parse url with inr u => Some (host_str u) | inl _ => None end.
Definition is_https (url : bytes) : bool :=
  match url_parse url with inr u => bool_decide (url_scheme u = https) | inl _ => false end.
Definition is_http (url : bytes) : bool :=
  match url_parse url with inr u => bool_decide (url_scheme u = http) | inl _ => false end.

(** A later URL on the same host, and not a downgrade. *)
Record stays (from to : bytes) : Prop := mkStays {
  stays_host : host_of to = host_of from;
  stays_https : is_https from = true -> is_https to = true;
}.
Lemma stays_refl url : stays url url.
Proof. done. Qed.
Lemma stays_trans a b c : stays a b -> stays b c -> stays a c.
Proof. intros [] []. constructor; [congruence|auto]. Qed.

Lemma hsts_upgrade_spec url (policy : P) url' :
  hsts_upgrade url policy = Some url' -> is_http url = true /\ is_https url' = true /\ host_of url' = host_of url.
Proof.
  unfold hsts_upgrade, is_http, is_https, host_of. destruct (url_parse url) as [|u]; [done|]. cbn [mbind option_bind].
  case_bool_decide as Hs; cbn [negb]; [|done]. destruct (host_str u) as [h|] eqn:Eh; [|done]. cbn [mbind option_bind].
  destruct (should_upgrade policy h); cbn [negb]; [|done].
  destruct (set_scheme_https u Hs) as (u1 & -> & Hs1 & Hh1). rewrite Eh in Hh1.
  cbn [mbind option_bind]. case_bool_decide.
  - destruct (set_port_some u1 443 h Hh1) as (u2 & -> & Hs2 & Hh2). cbn [mbind option_bind].
    intros [= <-]. rewrite url_roundtrip, ?bool_decide_eq_true. split_and!; congruence.
  - cbn [mbind option_bind]. intros [= <-]. rewrite url_roundtrip, ?bool_decide_eq_true.
    split_and!; congruence.
Qed.
Lemma hsts_upgrade_None url (policy : P) h :
  hsts_upgrade url policy = None -> is_http url = true -> host_of url = Some (Some h) ->
  should_upgrade policy h = false.
Proof.
  unfold hsts_upgrade, is_http, host_of. destruct (url_parse url) as [|u]; [done|]. cbn [mbind option_bind].
  case_bool_decide as Hs; cbn [negb]; [|done]. intros HN _ [= Hh]. rewrite Hh in HN. cbn [mbind option_bind] in HN.
  destruct (should_upgrade policy h); cbn [negb] in HN; [|done]. exfalso.
  destruct (set_scheme_https u Hs) as (u1 & E1 & Hs1 & Hh1). rewrite E1 in HN. rewrite Hh in Hh1. cbn [mbind option_bind] in HN.
  case_bool_decide; [|done]. destruct (set_port_some u1 443 h Hh1) as (u2 & E2 & _). by rewrite E2 in HN.
Qed.

Definition upgraded (url : bytes) (policy : P) : bytes := default url (hsts_upgrade url policy).
Lemma upgraded_stays url (policy : P) : stays url (upgraded url policy).
Proof.
  unfold upgraded. destruct (hsts_upgrade url policy) as [url'|] eqn:E; [|apply stays_refl].
  apply hsts_upgrade_spec in E as (_ & H2 & H3). by constructor.
Qed.
Lemma upgraded_policy url (policy : P) h :
  is_http (upgraded url policy) = true -> host_of (upgraded url policy) = Some (Some h) ->
  should_upgrade policy h = false.
Proof.
  unfold upgraded. destruct (hsts_upgrade url policy) as [url'|] eqn:E; cbn [from_option id].
  - apply hsts_upgrade_spec in E as (_ & H2 & _). unfold is_http, is_https in *.
    destruct (url_parse url'); [done|]. apply bool_decide_eq_true in H2. rewrite H2. done.
  - by apply hsts_upgrade_None.
Qed.

(** ** One hop *)

Definition credentials (req : Request (H := H)) : Prop :=
  hm_get_all (q_headers req) AUTHORIZATION <> [] \/ q_extra_cookies req <> [].

(** What the next request may carry on from this one. *)
Record follows (req next : Request (H := H)) : Prop := mkFollows {
  fo_credentials : credentials next -> credentials req /\ stays (q_url req) (q_url next);
  fo_body : q_body next = None \/ q_body next = q_body req /\ q_method next = q_method req;
  fo_headers n : hm_get_all (q_headers next) n = [] \/ hm_get_all (q_headers next) n = hm_get_all (q_headers req) n;
  fo_referer : is_https (q_url req) = true -> is_http (q_url next) = true -> hm_get_all (q_headers next) REFERER = [];
  fo_cookie : hm_get_all (q_headers next) COOKIE = [];
}.

Lemma remove_sub (h h' : H) n :
  (forall m, hm_get_all h m = [] \/ hm_get_all h m = hm_get_all h' m) ->
  forall m, hm_get_all (hm_remove n h) m = [] \/ hm_get_all (hm_remove n h) m = hm_get_all h' m.
Proof. intros Hs m. rewrite hm_get_remove. case_bool_decide; [by left|apply Hs]. Qed.
Lemma strip_body_sub (h : H) m :
  hm_get_all (strip_body_headers h) m = [] \/ hm_get_all (strip_body_headers h) m = hm_get_all h m.
Proof. unfold strip_body_headers. revert m. repeat apply remove_sub. by right. Qed.

Lemma same_origin_stays (base target : U) url : url_parse url = inr base ->
  redirect_is_cross_origin base target = false -> stays url (url_to_string target).
Proof.
  unfold redirect_is_cross_origin. intros Hp. rewrite !orb_false_iff, !negb_false_iff, !bool_decide_eq_true.
  intros [[Hs Hh] _].
  constructor; unfold host_of, is_https; rewrite Hp, url_roundtrip; [congruence|by rewrite Hs].
Qed.

Lemma next_hop_follows req history resp next history' :
  next_hop req history resp = Ok (inr (next, history')) -> follows req next.
Proof.
  unfold next_hop. destruct (_ ≫= hv_to_str) as [location|]; [|done].
  destruct (url_parse (q_url req)) as [e|base] eqn:Ep; [done|]. destruct (url_join base location) as [e|target]; [done|].
  set (cross := redirect_is_cross_origin base target).
  destruct (if (301 <=? status resp) && _ then _ else _) as [[[method body] headers]|] eqn:Er; [|done].
  intros [= <- <-].
  assert (Hr : (body = None \/ body = q_body req /\ method = q_method req) /\
    forall n, hm_get_all headers n = [] \/ hm_get_all headers n = hm_get_all (q_headers req) n).
  { repeat case_match; simplify_eq; (split; [auto|]); [apply strip_body_sub|by right]. }
  destruct Hr as [Hbody Hhead]. clear Er.
  set (h1 := if cross then _ else headers). set (h2 := if bool_decide (url_scheme base = https) && _ then _ else h1).
  assert (H1 : forall n, hm_get_all h1 n = [] \/ hm_get_all h1 n = hm_get_all (q_headers req) n).
  { unfold h1. destruct cross; [repeat apply remove_sub|]; exact Hhead. }
  assert (H2 : forall n, hm_get_all h2 n = [] \/ hm_get_all h2 n = hm_get_all (q_headers req) n).
  { unfold h2. destruct (_ && _); [apply remove_sub|]; exact H1. }
  constructor; cbn [q_url q_headers q_body q_method].
  - unfold credentials. cbn [q_headers q_extra_cookies]. rewrite hm_get_remove, bool_decide_eq_false_2 by done.
    destruct cross eqn:Ec.
    + assert (Ha : hm_get_all h2 AUTHORIZATION = []).
      { assert (H0 : hm_get_all h1 AUTHORIZATION = []) by (unfold h1; by rewrite !hm_get_remove).
        unfold h2. destruct (_ && _); [|done]. by rewrite hm_get_remove, H0. }
      naive_solver.
    + intros Hc. split; [|by eapply same_origin_stays]. destruct Hc as [Hc|]; [left|by right].
      destruct (H2 AUTHORIZATION) as [|E]; [done|]. by rewrite <- E.
  - exact Hbody.
  - apply remove_sub, H2.
  - unfold is_https, is_http. rewrite Ep, url_roundtrip. intros Hs Hp. rewrite hm_get_remove, bool_decide_eq_false_2 by done.
    unfold h2. rewrite Hs, Hp. cbn [andb]. by rewrite hm_get_remove.
  - by rewrite hm_get_remove.
Qed.


(** ** The chain *)

(** What holds of a request of the chain, relative to one it comes from. *)
Record derived (s : SessionSettings) (req : Request (H := H)) (sent : Request (H := H) * P) : Prop := mkDerived {
  de_credentials : credentials sent.1 -> credentials req /\ stays (q_url req) (q_url sent.1);
  de_body : q_body sent.1 = None \/ q_body sent.1 = q_body req /\ q_method sent.1 = q_method req;
  de_headers n : hm_get_all (q_headers sent.1) n = [] \/
                 hm_get_all (q_headers sent.1) n = hm_get_all (q_headers req) n;
  de_hsts h : is_http (q_url sent.1) = true -> host_of (q_url sent.1) = Some (Some h) ->
              should_upgrade sent.2 h = false;
  de_https_only : https_only s = true -> host_of (q_url sent.1) <> None -> is_https (q_url sent.1) = true;
}.

Lemma derived_start s req policy :
  refuses_plaintext s (upgraded (q_url req) policy) = false ->
  derived s req (with_url (upgraded (q_url req) policy) req, policy).
Proof.
  intros Hr. constructor; cbn [fst snd with_url q_url q_body q_method q_headers].
  - intros Hc. split; [exact Hc|apply upgraded_stays].
  - by right.
  - by right.
  - apply upgraded_policy.
  - intros Ho. unfold refuses_plaintext in Hr. rewrite Ho in Hr. unfold host_of, is_https.
    destruct (url_parse _); [done|]. cbn [andb] in Hr. by apply negb_false_iff in Hr.
Qed.
Lemma derived_follows s req policy next sent :
  follows (with_url (upgraded (q_url req) policy) req) next -> derived s next sent -> derived s req sent.
Proof.
  intros [F1 F2 F3 _ _] [D1 D2 D3 D4 D5]. constructor; [| | |done|done].
  - intros Hc. destruct (D1 Hc) as [Hc1 Hs1]. destruct (F1 Hc1) as [Hc2 Hs2]. split; [exact Hc2|].
    eapply stays_trans; [apply (upgraded_stays _ policy)|]. exact (stays_trans _ _ _ Hs2 Hs1).
  - destruct D2 as [|[Hb Hm]]; [by left|]. rewrite Hb, Hm. exact F2.
  - intros n. destruct (D3 n) as [|E]; [by left|]. rewrite E. apply F3.
Qed.

Lemma redirect_loop_head s remaining req history policy w result trace policy' w' first :
  redirect_loop send s remaining req history policy w = (result, trace, policy', w') -> head trace = Some first ->
  first = (with_url (upgraded (q_url req) policy) req, policy).
Proof.
  destruct remaining; cbn [redirect_loop]; fold (upgraded (q_url req) policy); repeat case_match;
    intros; by simplify_eq/=.
Qed.

(** Consecutive requests. *)
Definition chained (trace : list (Request (H := H) * P)) : Prop :=
  forall i a b, trace !! i = Some a -> trace !! S i = Some b ->
    exists next, follows a.1 next /\ b.1 = with_url (upgraded (q_url next) b.2) next.
Definition good_trace (s : SessionSettings) (req : Request (H := H)) (n : nat) (trace : list (Request (H := H) * P)) : Prop :=
  (length trace <= S n)%nat /\ Forall (derived s req) trace /\ chained trace.

Lemma good_one s req n sent : derived s req sent -> good_trace s req n [sent].
Proof. intros Hd. split_and!; [cbn; lia|by constructor|]. by intros i a b _ [=]. Qed.

Lemma redirect_loop_good s remaining : forall req history policy w result trace policy' w',
  redirect_loop send s remaining req history policy w = (result, trace, policy', w') ->
  good_trace s req remaining trace.
Proof.
  induction remaining as [|remaining IH]; intros req history policy w result trace policy' w'; cbn [redirect_loop];
    fold (upgraded (q_url req) policy); destruct (refuses_plaintext s (upgraded (q_url req) policy)) eqn:Er;
    try (intros [= <- <- <- <-]; split_and!; [cbn; lia|constructor|by intros i]);
    pose proof (good_one s req) as Hone; specialize (fun n => Hone n _ (derived_start s req policy Er));
    destruct (send _ policy w) as [[r p1] w1].
  - repeat case_match; intros; simplify_eq; apply Hone.
  - destruct r as [resp|e|]; [|intros [= <- <- <- <-]; apply Hone..].
    destruct (_ && _); [|intros [= <- <- <- <-]; apply Hone].
    destruct (next_hop _ history resp) as [[resp'|[next history']]|e|] eqn:En;
      [intros [= <- <- <- <-]; apply Hone| |intros [= <- <- <- <-]; apply Hone..].
    apply next_hop_follows in En.
    destruct (redirect_loop send s remaining next history' _ w1) as [[[r2 t2] p2] w2] eqn:E2.
    intros [= <- <- <- <-]. destruct (IH _ _ _ _ _ _ _ _ E2) as (Hl & Ht & Hc). split_and!.
    + cbn. lia.
    + constructor; [apply derived_start, Er|]. eapply Forall_impl; [exact Ht|]. intros x. by eapply derived_follows.
    + intros [|i] a b; [|apply Hc]. cbn. intros [= <-] Hb. exists next. split; [done|].
      rewrite (redirect_loop_head _ _ _ _ _ _ _ _ _ _ b E2); [done|]. by destruct t2.
Qed.


Lemma upgraded_http url (policy : P) : is_http (upgraded url policy) = true -> is_http url = true.
Proof.
  unfold upgraded. destruct (hsts_upgrade url policy) as [url'|] eqn:E; [|done].
  by apply hsts_upgrade_spec in E as (? & _).
Qed.

(** Credentials are carried along an unbroken run of stays. *)
Lemma chained_credentials trace : chained trace -> forall i first sent,
  trace !! O = Some first -> trace !! i = Some sent -> credentials sent.1 ->
  host_of (q_url sent.1) = host_of (q_url first.1) /\
  (is_https (q_url first.1) = true -> is_https (q_url sent.1) = true).
Proof.
  intros Hc i first. assert (Hgo : forall sent, trace !! O = Some first -> trace !! i = Some sent ->
    credentials sent.1 -> stays (q_url first.1) (q_url sent.1)).
  { induction i as [|i IH]; intros sent Hf Hi Hcr; [by simplify_eq|].
    destruct (lookup_lt_is_Some_2 trace i) as [prev Hp]; [apply lookup_lt_Some in Hi; lia|].
    destruct (Hc i prev sent Hp Hi) as (next & [F1 _ _ _ _] & Hb). rewrite Hb in Hcr |- *.
    destruct (F1 Hcr) as [Hcp Hst]. eapply stays_trans; [by apply IH|]. eapply stays_trans; [exact Hst|].
    apply upgraded_stays. }
  intros sent Hf Hi Hcr. by destruct (Hgo sent Hf Hi Hcr).
Qed.

(** Where a run starts: the URL with its query. *)
Lemma send_with_redirects_good s req query policy w result trace policy' w' :
  send_with_redirects send s req query policy w = (result, trace, policy', w') ->
  exists url, good_trace s (with_url url req) (default O (max_redirects (redirect_policy s))) trace.
Proof.
  unfold send_with_redirects. destruct (is_empty query).
  - intros E. exists (q_url req). by eapply redirect_loop_good.
  - destruct (url_parse (q_url req)) as [e|u].
    + intros [= <- <- <- <-]. exists (q_url req). split_and!; [cbn; lia|constructor|by intros i].
    + intros E. eexists. by eapply redirect_loop_good.
Qed.



End props.
End redirect_props.

(** * Redirects over HTTP/1.1

    The redirect loop and the header merge together: what a request that lost its body
    declares as its length. *)
Import hsts headers headers_props redirect redirect_props.

Module redirect_h1.

Section h1.
Context {H : Type} {HM : HeaderMap H} {HL : HeaderMapLaws H} {U : Type} {UL : UrlLib U} {UW : UrlLaws U}.

Lemma next_hop_get req history resp next history' :
  next_hop req history resp = Ok (inr (next, history')) -> 301 <= status resp <= 303 ->
  q_method next = ascii_bytes "GET" /\ q_body next = None /\ hm_get_all (q_headers next) CONTENT_LENGTH = [].
Proof.
  unfold next_hop. intros E Hs. destruct (_ ≫= hv_to_str) as [location|]; [|done].
  destruct (url_parse (q_url req)) as [e|base]; [done|]. destruct (url_join base location) as [e|target]; [done|].
  replace ((301 <=? status resp) && (status resp <=? 303)) with true in E by lia. injection E as <- _.
  cbn [q_method q_body q_headers]. split_and!; [done|done|].
  repeat case_match; unfold strip_body_headers; by rewrite !hm_get_remove.
Qed.

Lemma merged_length (headers defaults extra : H) url jar cookies overrides order cookie_order :
  hm_get_all (merge_headers_common headers defaults extra url true jar cookies overrides order cookie_order) CONTENT_LENGTH =
  merged_values headers defaults extra CONTENT_LENGTH.
Proof. by apply merge_values_other. Qed.

(** A redirected GET still declares the old body's length over HTTP/1.1.
    When a 301, 302 or 303 has turned a request with a body into a GET without one, and its
    [Content-Length] header was removed, the HTTP/1.1 request for the next hop is sent
    without a body but with the [Content-Length] of the original one. *)
Theorem redirected_get_declares_length req history resp next history' data v (defaults : H) (url : U)
    jar cookies overrides order cookie_order :
  next_hop req history resp = Ok (inr (next, history')) -> 301 <= status resp <= 303 ->
  hm_get_all defaults CONTENT_LENGTH = [] -> hv_from_str (H := H) (show_dec (len data)) = Some v ->
  q_method next = ascii_bytes "GET" /\ q_body next = None /\
  hm_get_all (h1_request_headers (Some data) defaults (q_headers next) url jar cookies overrides order cookie_order)
    CONTENT_LENGTH = [v].
Proof.
  intros E Hs Hd Hv. destruct (next_hop_get _ _ _ _ _ E Hs) as (Hm & Hb & Hl). split_and!; [done|done|].
  unfold h1_request_headers, auto_insert_content_length, hm_contains. rewrite hm_get_new, Hv. cbn [is_empty negb].
  rewrite merged_length. unfold merged_values. rewrite Hl, Hd. cbn [last]. rewrite hm_get_insert.
  by rewrite bool_decide_eq_true_2.
Qed.
End h1.
End redirect_h1.
