(* ===== verification/Transport.v ===== *)
(** * Connection establishment (lkrequest/src/session/transport.rs, pipeline.rs)

    The asynchronous functions that turn a request into a response, from the pool
    lookup to the protocol race, as programs over effects: an effect is an await on the
    network, answered by the environment, or an action under one of the session's
    locks.  Between two effects any other task may run.  A future owns its permits and
    its in-flight guard; when it returns, fails or is dropped they are released.

    A send effect stands for one transmission of the request together with reading its
    response; an error that occurs before anything is written is among its answers.  What
    the discovery of QUIC support answers is left to the environment here: [Pipeline] has
    the function. *)
From S2P Require Import Prelude Text LkError Route SessionStore AltSvc AltSvcProps BrokenQuic Pipeline Retry Hsts Pool PoolProps HttpLib Redirect.
Import lk_error route protocol alt_svc alt_svc_props broken_quic pipeline pipeline_props retry pool pool_props redirect.

Module transport.

Record FallbackConfig : Type := mkFallback {
  h2_to_h1 : bool;
  proxy_to_direct : bool;
  retry_on_connection_close : bool;
}.
Definition default_fallback : FallbackConfig := mkFallback true false true.

(** What the functions read of the request, the session and the client. *)
Record Ctx : Type := mkCtx {
  method : bytes;
  idempotency : Idempotency;
  key : ConnectionKey;
  policy : ProtocolPolicy;
  version : PreferredHttpVersion;
  quic_profile : bool;
  fallback_config : FallbackConfig;
  race_cfg : ChromeLikeProtocolConfig;
}.

Record Conn : Type := mkConn { negotiated_alpn : option bytes; plain : bool }.

(** ** The target and the pool *)

Record ParsedTarget (U : Type) : Type := mkTarget {
  t_path : bytes;
  t_conn_key : ConnectionKey;
  t_parsed_url : U;
}.
Arguments mkTarget {U}.
Arguments t_path {U}.
Arguments t_conn_key {U}.
Arguments t_parsed_url {U}.

Definition parse_request_target {U : Type} {UL : UrlLib U} (url : bytes) (proxy : option proxy.ProxyConfig)
    : Outcome Error (ParsedTarget U) :=
  match url_parse url with
  | inl e => Err (UrlParse (url ++ ascii_bytes ": " ++ e))
  | inr parsed_url =>
      scheme ← (if bool_decide (url_scheme parsed_url = https) then Ok Https
                else if bool_decide (url_scheme parsed_url = http) then Ok Http
                else Err (UrlParse (ascii_bytes "unsupported scheme: " ++ url_scheme parsed_url)));
      host ← match host_str parsed_url with
             | Some h => Ok h
             | None => Err (UrlParse (ascii_bytes "missing host"))
             end;
      let port := default (match scheme with Https => 443 | Http => 80 end) (port_or_known_default parsed_url) in
      let path := match url_query parsed_url with
                  | Some query => url_path parsed_url ++ 63 :: query
                  | None => url_path parsed_url
                  end in
      Ok (mkTarget path (mkConnKey scheme host port (from_proxy proxy)) parsed_url)
  end.

Definition try_acquire_pooled {R : Type} {CK : Clock R} (v : PreferredHttpVersion) (k : ConnectionKey)
    (p : ConnectionPool) (w : World) (r : R) : option AcquiredConnection * ConnectionPool * World * R :=
  match v with
  | VAuto => try_acquire_internal k p w r
  | Http1Only => try_acquire_h1_pooled_internal k p w r
  | Http2Only => try_acquire_h2_pooled_internal k p w r
  | Http3Only | Http3WithFallback => try_acquire_h3_pooled_internal k p w r
  end.

Section programs.
Context {H : Type} {HM : HeaderMap H}.
Notation Resp := (@Response H).
Notation Res A := (Outcome Error A).

Inductive H3ConnectOutcome : Type :=
| Handshook (sender driver : Z)
| ZeroRtt.

(** ** Effects *)

Inductive Op : Type -> Type :=
(** The network. *)
| NConnect (h1_only : bool) : Op (Res Conn)
| NHandshakeH1 : Op (Res (Z * Z))
| NConnectH2 (first_request : bool) : Op (Res (Z * Z))
| NReadyH2 (sender : Z) : Op (Res unit)
| NReadyH1 (sender : Z) : Op (Res unit)
| NFirstResponse : Op (Res Resp)
| NSendH1 (sender : Z) : Op (Res Resp)
| NSendH2 (sender : Z) : Op (Res Resp)
| NSendH3 (sender : Z) : Op (Res Resp)
| NConnectH3 (early_data : bool) : Op (Res H3ConnectOutcome)
| NSend0Rtt : Op (Res (Z * Z * option Resp))
| NMakeResponse (r : Resp) : Op (Res Resp)
| NDiscover : Op QuicDiscovery
| NWait (ticket : Z) : Op unit
(** Under the lock of the pool. *)
| SAcquire : Op (option AcquiredConnection)
| STryH3 : Op (option Z)
| SReserve : Op (unit + Z)
| SRemove : Op unit
| SInsertH2 (sender task : Z) : Op unit
| SInsertH3 (sender driver : Z) : Op unit
| SReturnH1 (sender task : Z) : Op unit
| SInsertH1 (sender task : Z) : Op unit
(** Tasks and permits. *)
| SAbort (task : Z) : Op unit
| SDropPermit : Op unit
| SDropH1 (task : Z) : Op unit
(** The Alt-Svc cache and the broken-QUIC tracker. *)
| SLearn (ops : list (CacheOp + TrackerOp)) : Op unit
| SProbe (quic : bool) : Op unit
(** The table of QUIC handshakes in flight. *)
| SInFlight : Op (option Z)
| SSubscribe (notify : Z) : Op Z
| SGuard : Op unit
| SDropGuard : Op unit.

Inductive Prog (A : Type) : Type :=
| Ret (a : A)
| Vis (X : Type) (op : Op X) (k : X -> Prog A).
Arguments Ret {A} a.
Arguments Vis {A X} op k.

Fixpoint bind {A B} (p : Prog A) (k : A -> Prog B) : Prog B :=
  match p with
  | Ret a => k a
  | Vis op f => Vis op (fun x => bind (f x) k)
  end.

(** [?], and [?] in a function that owns the permit. *)
Definition try_ {A B} (p : Prog (Res A)) (k : A -> Prog (Res B)) : Prog (Res B) :=
  bind p (fun r => match r with Ok a => k a | Err e => Ret (Err e) | Panic => Ret Panic end).
Definition dropping {B} (r : Res B) : Prog (Res B) := Vis SDropPermit (fun _ => Ret r).
Definition try_drop {A B} (p : Prog (Res A)) (k : A -> Prog (Res B)) : Prog (Res B) :=
  bind p (fun r => match r with Ok a => k a | Err e => dropping (Err e) | Panic => dropping Panic end).
Definition do {X} (op : Op X) : Prog X := Vis op Ret.

(** ** HTTP/1.1, HTTP/2 and HTTP/3 *)

Definition reserve_connection : Prog (Res unit) :=
  Vis SReserve (fun r =>
    Ret match r with
        | inl _ => Ok tt
        | inr max => Err (lk_error.Pool (ascii_bytes "session connection limit reached (" ++ show_dec max ++
                                         ascii_bytes " connections)"))
        end).

Definition connection_close (r : Resp) : bool :=
  match hm_get (resp_headers r) (ascii_bytes "connection") ≫= hv_to_str with
  | Some v => eq_ignore_ascii_case v (ascii_bytes "close")
  | None => false
  end.

(** The function owns the permit of the connection's task. *)
Definition send_h1_request (sender task : Z) : Prog (Res Resp) :=
  Vis (NSendH1 sender) (fun r =>
    match r with
    | Ok resp =>
        if connection_close resp then bind (do (NMakeResponse resp)) (fun r => Vis (SDropH1 task) (fun _ => Ret r))
        else Vis (SReturnH1 sender task) (fun _ => do (NMakeResponse resp))
    | Err e => Vis (SDropH1 task) (fun _ => Ret (Err e))
    | Panic => Vis (SDropH1 task) (fun _ => Ret Panic)
    end).
Definition send_h2_request (sender : Z) : Prog (Res Resp) := do (NSendH2 sender).
Definition send_h3_request (sender : Z) : Prog (Res Resp) := do (NSendH3 sender).

Definition handshake_h1_and_send : Prog (Res Resp) :=
  try_drop (do NHandshakeH1) (fun '(sender, task) => send_h1_request sender task).

Definition establish_h2_and_pool : Prog (Res Z) :=
  try_drop (do (NConnectH2 false)) (fun '(sender, task) =>
    Vis (SInsertH2 sender task) (fun _ => try_ (do (NReadyH2 sender)) (fun _ => Ret (Ok sender)))).
Definition establish_h2_with_first_request : Prog (Res unit) :=
  try_drop (do (NConnectH2 true)) (fun '(sender, task) =>
    Vis (SInsertH2 sender task) (fun _ => do (NReadyH2 sender))).

Definition h2c_error (show : Error -> bytes) (e : Error) : Error :=
  Connection (mkConnectionError H2Negotiation (ascii_bytes "h2c prior knowledge handshake failed: " ++ show e)).
Definition map_err {A} (f : Error -> Error) (p : Prog (Res A)) : Prog (Res A) :=
  bind p (fun r => Ret match r with Ok a => Ok a | Err e => Err (f e) | Panic => Panic end).

Variable show : Error -> bytes.

Definition send_cleartext (ctx : Ctx) : Prog (Res Resp) :=
  match validate (policy ctx) with
  | Ok _ =>
      match version ctx with
      | Http1Only | VAuto | Http3WithFallback => handshake_h1_and_send
      | Http2Only => try_ (map_err (h2c_error show) establish_h2_and_pool) send_h2_request
      | Http3Only => dropping (Err (InvalidConfig (ascii_bytes
          "HTTP/3 requires HTTPS and QUIC, but the request URL is cleartext `http://`")))
      end
  | Err e => dropping (Err e)
  | Panic => dropping Panic
  end.

(** ** TCP *)

Definition is_h2_error (e : Error) : bool := match e with H2 _ => true | _ => false end.

Definition establish_and_send_tcp (ctx : Ctx) : Prog (Res Resp) :=
  try_ reserve_connection (fun _ =>
  try_drop (do (NConnect (bool_decide (version ctx = Http1Only)))) (fun conn =>
  if bool_decide (ck_scheme (key ctx) = Http) then
    if plain conn then send_cleartext ctx
    else dropping (Err (lk_error.Http (ascii_bytes "expected plain TCP for HTTP scheme")))
  else
    match should_use_h2 (negotiated_alpn conn) (version ctx) with
    | Ok true =>
        bind (try_ establish_h2_with_first_request (fun _ => do NFirstResponse)) (fun h2_result =>
        match h2_result with
        | Err e =>
            if h2_to_h1 (fallback_config ctx) && (is_h2_error e || is_connection_closed e) then
              try_ reserve_connection (fun _ =>
              try_drop (do (NConnect true)) (fun _ => handshake_h1_and_send))
            else Ret (Err e)
        | other => Ret other
        end)
    | Ok false => handshake_h1_and_send
    | Err e => dropping (Err e)
    | Panic => dropping Panic
    end)).

(** ** QUIC *)

Definition mark_h3_working (d : QuicDiscovery) : list (CacheOp + TrackerOp) :=
  [inr (TMarkWorking (d_route d) (d_origin d)); inr (TMarkRouteWorking (d_route d));
   inl (OpValidate (d_route d) (d_origin d))].
Definition mark_h3_broken (d : QuicDiscovery) : list (CacheOp + TrackerOp) :=
  [inr (TMarkBroken (d_route d) (d_origin d)); inl (OpClearValidation (d_route d) (d_origin d))].

(** With a connection at hand: it is pooled and carries the request. *)
Definition pool_h3_and_send (d : QuicDiscovery) (sender driver : Z) : Prog (Res Resp) :=
  Vis (SLearn (mark_h3_working d)) (fun _ =>
  Vis (SInsertH3 sender driver) (fun _ => send_h3_request sender)).

(** [establish_h3_connection] completes the handshake. *)
Definition establish_h3_connection : Prog (Res (Z * Z)) :=
  bind (do (NConnectH3 false)) (fun r =>
    Ret match r with
        | Ok (Handshook s d) => Ok (s, d)
        | Ok ZeroRtt => Err (InvalidConfig (ascii_bytes "internal error: unexpected HTTP/3 0-RTT connection"))
        | Err e => Err e
        | Panic => Panic
        end).

(** The 0-RTT branch: the early response, or a fresh connection for the replay. *)
Definition zero_rtt_branch (ctx : Ctx) (d : QuicDiscovery) : Prog (Res Resp) :=
  let replay := try_drop establish_h3_connection (fun '(sender, driver) => pool_h3_and_send d sender driver) in
  bind (do NSend0Rtt) (fun r =>
    match r with
    | Ok (sender, driver, Some resp) =>
        Vis (SLearn (mark_h3_working d)) (fun _ =>
        Vis (SInsertH3 sender driver) (fun _ => Ret (Ok resp)))
    | Ok (_, _, None) => Vis (SLearn (mark_h3_working d)) (fun _ => replay)
    | Err e =>
        if is_connection_closed e && retry_on_connection_close (fallback_config ctx) then
          try_drop establish_h3_connection (fun '(sender, driver) =>
            Vis (SLearn (mark_h3_working d)) (fun _ => pool_h3_and_send d sender driver))
        else dropping (Err e)
    | Panic => dropping Panic
    end).

(** With the permit: it is still held while the fallback reserves another. *)
Definition connect_quic (ctx : Ctx) (d : QuicDiscovery) : Prog (Res Resp) :=
  bind (do (NConnectH3 (can_send_early_data (method ctx) (idempotency ctx)))) (fun r =>
    match r with
    | Ok (Handshook sender driver) => pool_h3_and_send d sender driver
    | Ok ZeroRtt => zero_rtt_branch ctx d
    | Err e =>
        let handshake_class := is_quic_handshake_failure e in
        bind (if handshake_class then do (SLearn (mark_h3_broken d)) else Ret tt) (fun _ =>
        if handshake_class && fallback_permitted (policy ctx) e then
          bind (establish_and_send_tcp ctx) dropping
        else dropping (Err e))
    | Panic => dropping Panic
    end).

Definition guarded_quic (ctx : Ctx) (d : QuicDiscovery) : Prog (Res Resp) :=
  Vis SGuard (fun _ =>
  bind (try_ reserve_connection (fun _ => connect_quic ctx d)) (fun r =>
  Vis SDropGuard (fun _ => Ret r))).

Definition establish_and_send_quic (ctx : Ctx) (d : QuicDiscovery) : Prog (Res Resp) :=
  Vis SInFlight (fun wait =>
  match wait with
  | Some notify =>
      Vis (SSubscribe notify) (fun ticket =>
      Vis (NWait ticket) (fun _ =>
      Vis STryH3 (fun pooled =>
      match pooled with
      | Some sender => send_h3_request sender
      | None => guarded_quic ctx d
      end)))
  | None => guarded_quic ctx d
  end).

(** ** The request *)

(** The race has two futures of its own: [Running] has its states. *)
Inductive Final : Type :=
| Done (r : Res Resp)
| StartRace (d : QuicDiscovery)
| Connected (r : Res unit).

Definition finish (p : Prog (Res Resp)) : Prog Final := bind p (fun r => Ret (Done r)).

Definition establish_and_send (ctx : Ctx) : Prog Final :=
  match validate (policy ctx) with
  | Ok _ =>
      if bool_decide (version ctx = Http3Only) && negb (quic_profile ctx) then
        Ret (Done (Err (InvalidConfig (ascii_bytes "HTTP/3 requested but client has no QUIC/H3 profile"))))
      else
        Vis NDiscover (fun d =>
        match decide_protocol (version ctx) (policy ctx) d with
        | DTcp =>
            bind (establish_and_send_tcp ctx) (fun r =>
              match r with
              | Ok _ => if should_background_probe (policy ctx) d then Vis (SProbe true) (fun _ => Ret (Done r))
                        else Ret (Done r)
              | _ => Ret (Done r)
              end)
        | DRace => Ret (StartRace d)
        | DQuic => finish (establish_and_send_quic ctx d)
        end)
  | Err e => Ret (Done (Err e))
  | Panic => Ret (Done Panic)
  end.

(** A pooled connection that turns out closed: again, on a fresh one. *)
Definition or_again (ctx : Ctx) (remove : bool) (p : Prog (Res Resp)) : Prog Final :=
  bind p (fun r =>
    match r with
    | Err e =>
        if is_connection_closed e && retry_on_connection_close (fallback_config ctx) then
          if remove then Vis SRemove (fun _ => establish_and_send ctx) else establish_and_send ctx
        else Ret (Done (Err e))
    | other => Ret (Done other)
    end).

Definition send_single_request_inner (ctx : Ctx) : Prog Final :=
  match validate (policy ctx) with
  | Ok _ =>
      Vis SAcquire (fun pooled =>
      match pooled with
      | Some (AcquiredH3 sender) => or_again ctx true (send_h3_request sender)
      | Some (AcquiredH2 sender) =>
          Vis (NReadyH2 sender) (fun ready =>
          match ready with
          | Ok _ => or_again ctx true (send_h2_request sender)
          | Err _ => Vis SRemove (fun _ => establish_and_send ctx)
          | Panic => Ret (Done Panic)
          end)
      | Some (AcquiredH1 sender task) =>
          Vis (NReadyH1 sender) (fun ready =>
          match ready with
          | Ok _ => or_again ctx false (send_h1_request sender task)
          | Err _ => Vis (SAbort task) (fun _ => Vis (SDropH1 task) (fun _ => establish_and_send ctx))
          | Panic => Vis (SDropH1 task) (fun _ => Ret (Done Panic))
          end)
      | None => establish_and_send ctx
      end)
  | Err e => Ret (Done (Err e))
  | Panic => Ret (Done Panic)
  end.

(** ** Connections ahead of requests *)

(** [spawn_background_quic_probe]. *)
Definition quic_probe (d : QuicDiscovery) : Prog (Res unit) :=
  try_ reserve_connection (fun _ =>
  bind establish_h3_connection (fun r =>
  match r with
  | Ok (sender, driver) =>
      Vis (SLearn (mark_h3_working d)) (fun _ => Vis (SInsertH3 sender driver) (fun _ => Ret (Ok tt)))
  | Err e =>
      bind (if is_quic_handshake_failure e then do (SLearn (mark_h3_broken d)) else Ret tt) (fun _ =>
      dropping (Err e))
  | Panic => dropping Panic
  end)).

Definition preconnect_h3 (d : QuicDiscovery) : Prog (Res unit) :=
  try_ reserve_connection (fun _ =>
  bind establish_h3_connection (fun r =>
  match r with
  | Ok (sender, driver) =>
      Vis (SLearn (mark_h3_working d)) (fun _ => Vis (SInsertH3 sender driver) (fun _ => Ret (Ok tt)))
  | Err e => Vis (SLearn (mark_h3_broken d)) (fun _ => dropping (Err e))
  | Panic => dropping Panic
  end)).

Definition preconnect_tcp (ctx : Ctx) : Prog (Res unit) :=
  try_ reserve_connection (fun _ =>
  try_drop (do (NConnect (bool_decide (version ctx = Http1Only)))) (fun conn =>
  match should_use_h2 (negotiated_alpn conn) (version ctx) with
  | Ok true =>
      try_drop (do (NConnectH2 false)) (fun '(sender, task) =>
        Vis (SInsertH2 sender task) (fun _ => Ret (Ok tt)))
  | Ok false =>
      try_drop (do NHandshakeH1) (fun '(sender, task) =>
        Vis (SInsertH1 sender task) (fun _ => Ret (Ok tt)))
  | Err e => dropping (Err e)
  | Panic => dropping Panic
  end)).

(** What a task of the session runs. *)
Inductive Job : Type :=
| JRequest
| JQuicProbe (d : QuicDiscovery)
| JPreconnectH3 (d : QuicDiscovery)
| JPreconnectTcp.
Definition job_prog (ctx : Ctx) (j : Job) : Prog Final :=
  match j with
  | JRequest => send_single_request_inner ctx
  | JQuicProbe d => bind (quic_probe d) (fun r => Ret (Connected r))
  | JPreconnectH3 d => bind (preconnect_h3 d) (fun r => Ret (Connected r))
  | JPreconnectTcp => bind (preconnect_tcp ctx) (fun r => Ret (Connected r))
  end.

End programs.
Arguments Ret {H A} a.
Arguments Vis {H A X} op k.
End transport.
