(* ===== verification/TransportProps.v ===== *)
(** * What the programs of a request do with permits and protocols

    A program logic over the effects, with one rule for sequencing, and its instances:
    permits (every path uses or releases what it reserved), transmissions (how often a
    request can be sent), and protocols (which effects a version preference allows). *)
From S2P Require Import Prelude Text LkError Route SessionStore AltSvc AltSvcProps BrokenQuic Pipeline Retry Hsts Pool PoolProps HttpLib Redirect Transport.
Import lk_error route protocol alt_svc alt_svc_props broken_quic pipeline pipeline_props retry pool pool_props redirect transport.

Module transport_props.

Section logic.
Context {H : Type}.
Notation Op := (@Op H).
Notation Prog := (@Prog H).

(** A ghost state, what an effect requires of it, and how its answer changes it. *)
Class Effects (L : Type) : Type := {
  needs : forall X, Op X -> L -> Prop;
  turns : forall X, Op X -> L -> X -> L -> Prop;
}.
Arguments needs {L _ X}.
Arguments turns {L _ X}.

(** Every effect has what it needs, on every path, and [Q] holds at the end. *)
Fixpoint wp {L A} {E : Effects L} (p : Prog A) (l : L) (Q : A -> L -> Prop) : Prop :=
  match p with
  | Ret a => Q a l
  | Vis op k => needs op l /\ forall x l', turns op l x l' -> wp (k x) l' Q
  end.

Section rules.
Context {L : Type} {E : Effects L}.

Lemma wp_mono {A} (p : Prog A) : forall l (Q Q' : A -> L -> Prop),
  (forall a l', Q a l' -> Q' a l') -> wp p l Q -> wp p l Q'.
Proof. induction p as [a|X op k IH]; cbn; [auto|]. intros l Q Q' HQ [Hn Hk]. split; [done|]. eauto. Qed.
Lemma wp_bind {A B} (p : Prog A) (k : A -> Prog B) : forall l (Q : B -> L -> Prop),
  wp p l (fun a l' => wp (k a) l' Q) -> wp (bind p k) l Q.
Proof. induction p as [a|X op f IH]; cbn; [auto|]. intros l Q [Hn Hk]. split; [done|]. eauto. Qed.
Lemma wp_do {X} (op : Op X) l (Q : X -> L -> Prop) :
  needs op l -> (forall x l', turns op l x l' -> Q x l') -> wp (do op) l Q.
Proof. intros Hn HQ. split; [done|]. exact HQ. Qed.
(** [?] with any continuation for the error. *)
Lemma wp_try {A B} (p : Prog (Outcome Error A)) (k : A -> Prog (Outcome Error B)) l Q :
  wp p l (fun r l' => match r with Ok a => wp (k a) l' Q | Err e => Q (Err e) l' | Panic => Q Panic l' end) ->
  wp (try_ p k) l Q.
Proof. intros Hp. apply wp_bind. eapply wp_mono; [|exact Hp]. by intros []. Qed.
Lemma wp_try_drop {A B} (p : Prog (Outcome Error A)) (k : A -> Prog (Outcome Error B)) l Q :
  wp p l (fun r l' => match r with Ok a => wp (k a) l' Q | Err e => wp (dropping (Err e)) l' Q
                              | Panic => wp (dropping Panic) l' Q end) ->
  wp (try_drop p k) l Q.
Proof. intros Hp. apply wp_bind. eapply wp_mono; [|exact Hp]. by intros []. Qed.
Lemma wp_map_err {A} f (p : Prog (Outcome Error A)) l Q :
  wp p l (fun r l' => Q match r with Ok a => Ok a | Err e => Err (f e) | Panic => Panic end l') ->
  wp (map_err f p) l Q.
Proof. intros Hp. apply wp_bind. eapply wp_mono; [|exact Hp]. done. Qed.
End rules.

(** ** Permits *)

(** What a future owns: permits without a connection, HTTP/1.1 connections with theirs,
    and the guard of the in-flight table. *)
Record Locals : Type := mkLocals { l_dial : nat; l_out : list Z; l_guard : bool }.
Definition nothing : Locals := mkLocals 0 [] false.

Definition with_dial (n : nat) (l : Locals) : Locals := mkLocals n (l_out l) (l_guard l).
Definition with_out (o : list Z) (l : Locals) : Locals := mkLocals (l_dial l) o (l_guard l).
Definition with_guard (b : bool) (l : Locals) : Locals := mkLocals (l_dial l) (l_out l) b.

Fixpoint remove_one (x : Z) (l : list Z) : option (list Z) :=
  match l with
  | [] => None
  | y :: l => if decide (x = y) then Some l else cons y <$> remove_one x l
  end.
Lemma remove_one_perm x l l' : remove_one x l = Some l' -> l ≡ₚ x :: l'.
Proof.
  revert l'. induction l as [|y l IH]; intros l'; cbn; [done|]. case_decide as E; [by intros [= <-]; subst|].
  destruct (remove_one x l) as [k|]; [|done]. cbn. intros [= <-]. rewrite (IH k eq_refl). constructor.
Qed.
Lemma remove_head (task : Z) o o' : remove_one task (task :: o) = Some o' -> o' = o.
Proof. cbn. rewrite decide_True by done. by intros [= <-]. Qed.

Definition spends (l l' : Locals) : Prop := exists n, l_dial l = S n /\ l' = with_dial n l.
Definition gives_up (task : Z) (l l' : Locals) : Prop :=
  exists o, remove_one task (l_out l) = Some o /\ l' = with_out o l.

#[export] Instance ownership : Effects Locals := {
  needs X op l :=
    match op with
    | NHandshakeH1 | SInsertH2 _ _ | SInsertH3 _ _ | SDropPermit => l_dial l <> O
    | SReturnH1 _ task | SInsertH1 _ task | SDropH1 task => task ∈ l_out l
    | SDropGuard => l_guard l = true
    | SGuard => l_guard l = false
    | _ => True
    end;
  turns X op l :=
    match op in Transport.transport.Op Y return Y -> Locals -> Prop with
    | NHandshakeH1 => fun x l' =>
        match x with
        | Ok (_, task) => exists n, l_dial l = S n /\ l' = mkLocals n (task :: l_out l) (l_guard l)
        | _ => l' = l
        end
    | SAcquire => fun x l' => l' = with_out (hand_out x (l_out l)) l
    | SReserve => fun x l' => l' = match x with inl _ => with_dial (S (l_dial l)) l | inr _ => l end
    | SInsertH2 _ _ | SInsertH3 _ _ | SDropPermit => fun _ l' => spends l l'
    | SReturnH1 _ task | SInsertH1 _ task | SDropH1 task => fun _ l' => gives_up task l l'
    | SGuard => fun _ l' => l' = with_guard true l
    | SDropGuard => fun _ l' => l' = with_guard false l
    | _ => fun _ l' => l' = l
    end;
}.

Context {HM : HeaderMap H}.

(** A program that owns [n] permits more than its caller and gives all of them away. *)
Definition uses {A} (n : nat) (p : Prog A) : Prop :=
  forall l, wp p (with_dial (n + l_dial l) l) (fun _ l' => l' = l).

(** Runs one effect of a program whose ghost state is explicit. *)
Ltac fields := cbn [l_dial l_out l_guard with_dial with_out with_guard Nat.add] in *.
Ltac effect := split; [done || (cbn; lia) || (cbn; by left)|]; intros ? ?; cbn [turns ownership].
Ltac spent :=
  match goal with
  | |- spends _ _ -> _ => intros (? & ? & ->); fields; simplify_eq
  | |- gives_up _ _ _ -> _ => intros (? & ?%remove_head & ->); fields; subst
  | |- _ = _ -> _ => intros ->; fields
  end.

Lemma dropping_uses {A} (r : Outcome Error A) : uses 1 (dropping r).
Proof. intros [n o g]. effect. spent. done. Qed.

Lemma send_h1_owns sender task l : wp (send_h1_request sender task) (with_out (task :: l_out l) l) (fun _ l' => l' = l).
Proof.
  destruct l as [n o g]. unfold send_h1_request. effect. spent.
  destruct x as [resp|e|]; [destruct (connection_close resp)|..].
  - apply wp_bind, wp_do; [done|]. intros r l'. cbn. intros ->. effect. spent. done.
  - effect. spent. apply wp_do; [done|]. intros r l'. cbn. by intros ->.
  - effect. spent. done.
  - effect. spent. done.
Qed.

Lemma handshake_h1_uses : uses 1 handshake_h1_and_send.
Proof.
  intros [n o g]. apply wp_try_drop, wp_do; [done|]. intros [[sender task]|e|] l'; cbn.
  - intros (m & [= <-] & ->). apply (send_h1_owns sender task (mkLocals n o g)).
  - intros ->. apply (dropping_uses (A := @Response H) (Err e) (mkLocals n o g)).
  - intros ->. apply (dropping_uses (A := @Response H) Panic (mkLocals n o g)).
Qed.

(** The two ways to use a permit: fail and drop it, or go on with it. *)
Lemma uses_try_drop {A B} (p : Prog (Outcome Error A)) (k : A -> Prog (Outcome Error B)) :
  (forall l, wp p l (fun _ l' => l' = l)) -> (forall a, uses 1 (k a)) -> uses 1 (try_drop p k).
Proof.
  intros Hp Hk l. apply wp_try_drop. eapply wp_mono; [|apply Hp]. intros [a|e|] l'; cbn beta; intros ->.
  - apply Hk.
  - apply dropping_uses.
  - apply dropping_uses.
Qed.
Lemma uses_bind {A B} n (p : Prog A) (k : A -> Prog B) : uses n p -> (forall a, uses 0 (k a)) -> uses n (bind p k).
Proof.
  intros Hp Hk l. apply wp_bind. eapply wp_mono; [|apply Hp]. intros a l' ->. specialize (Hk a l).
  by destruct l.
Qed.
Lemma uses_try {A B} n (p : Prog (Outcome Error A)) (k : A -> Prog (Outcome Error B)) :
  uses n p -> (forall a, uses 0 (k a)) -> uses n (try_ p k).
Proof. intros Hp Hk. apply uses_bind; [done|]. intros [a|e|]; [apply Hk|by intros []..]. Qed.
Lemma uses_ret {A} (a : A) : uses 0 (Ret (H := H) a).
Proof. by intros []. Qed.
Lemma do_keeps {X} (op : Op X) :
  (forall l, needs op l) -> (forall l x l', turns op l x l' -> l' = l) -> forall l, wp (do op) l (fun _ l' => l' = l).
Proof. intros Hn Ht l. apply wp_do; [done|]. eauto. Qed.
Lemma uses_do {X} (op : Op X) :
  (forall l, needs op l) -> (forall l x l', turns op l x l' -> l' = l) -> uses 0 (do op).
Proof. intros Hn Ht [n o g]. by apply do_keeps. Qed.
Lemma uses_vis0 {X A} n (op : Op X) (k : X -> Prog A) :
  (forall l, needs op l) -> (forall l x l', turns op l x l' -> l' = l) -> (forall x, uses n (k x)) -> uses n (Vis op k).
Proof. intros Hn Ht Hk l. split; [done|]. intros x l' ->%Ht. apply Hk. Qed.
Lemma uses_spend {A} (op : Op unit) n (k : unit -> Prog A) :
  (forall l, l_dial l <> O -> needs op l) -> (forall l x l', turns op l x l' -> spends l l') ->
  uses n (k tt) -> uses (S n) (Vis op k).
Proof.
  intros Hn Ht Hk [m o g]. split; [by apply Hn|]. intros [] l' (j & Hj & ->)%Ht. fields. simplify_eq.
  apply (Hk (mkLocals m o g)).
Qed.
Lemma uses_bind_r {A B} n (p : Prog A) (k : A -> Prog B) : uses 0 p -> (forall a, uses n (k a)) -> uses n (bind p k).
Proof.
  intros Hp Hk [m o g]. apply wp_bind. eapply wp_mono; [|apply (Hp (mkLocals (n + m) o g))].
  intros a l' ->. apply (Hk a (mkLocals m o g)).
Qed.
Lemma uses_reserve {A} (k : unit -> Prog (Outcome Error A)) :
  uses 1 (k tt) -> uses 0 (try_ reserve_connection k).
Proof.
  intros Hk [m o g]. apply wp_try. split; [done|]. intros [[]|max] l'; cbn [turns ownership]; intros ->.
  - apply (Hk (mkLocals m o g)).
  - done.
Qed.

(** One step of such a proof. *)
Ltac uses_step :=
  lazymatch goal with
  | |- uses _ (let '(_, _) := ?x in _) => destruct x
  | |- uses 0 (Ret _) => apply uses_ret
  | |- uses 0 (do _) => apply uses_do; [done|by intros ? ? ?]
  | |- uses 1 (dropping _) => apply dropping_uses
  | |- uses 1 handshake_h1_and_send => apply handshake_h1_uses
  | |- uses 0 (try_ reserve_connection _) => apply uses_reserve
  | |- uses 1 (try_drop _ _) => apply uses_try_drop; [|intros ?]
  | |- uses _ (try_ _ _) => apply uses_try; [|intros ?]
  | |- uses 1 (Vis (SInsertH2 _ _) _) => apply uses_spend; [done|done|]
  | |- uses 1 (Vis (SInsertH3 _ _) _) => apply uses_spend; [done|done|]
  | |- uses _ (Vis _ _) => apply uses_vis0; [done|by intros ? ? ?|intros ?]
  | |- forall l, wp (do _) l _ => apply do_keeps; [done|by intros ? ? ?]
  end.
Ltac uses_auto := repeat uses_step.

Lemma first_request_uses : uses 1 establish_h2_with_first_request.
Proof. unfold establish_h2_with_first_request. uses_auto. Qed.
Lemma h2_and_pool_uses : uses 1 establish_h2_and_pool.
Proof. unfold establish_h2_and_pool. uses_auto. Qed.
Lemma cleartext_uses show ctx : uses 1 (send_cleartext show ctx).
Proof.
  unfold send_cleartext. destruct (validate _); [|uses_auto..]. destruct (version ctx); uses_auto.
  - apply uses_bind; [apply h2_and_pool_uses|intros; uses_auto].
  - unfold send_h2_request. uses_auto.
Qed.

Lemma tcp_uses show ctx : uses 0 (establish_and_send_tcp show ctx).
Proof.
  unfold establish_and_send_tcp. uses_auto. case_bool_decide.
  - destruct (plain _); [apply cleartext_uses|uses_auto].
  - destruct (should_use_h2 _ _) as [[]|e|]; [|uses_auto..].
    apply uses_bind; [uses_auto; apply first_request_uses|]. intros [r|e|]; [uses_auto| |uses_auto].
    destruct (_ && _); uses_auto.
Qed.

Lemma establish_h3_uses : uses 0 establish_h3_connection.
Proof. unfold establish_h3_connection. apply uses_bind; uses_auto. intros [[]| |]; uses_auto. Qed.
Lemma pool_h3_uses d sender driver : uses 1 (pool_h3_and_send d sender driver).
Proof. unfold pool_h3_and_send, send_h3_request. uses_auto. Qed.
Lemma keeps_of_uses {A} (p : Prog A) : uses 0 p -> forall l, wp p l (fun _ l' => l' = l).
Proof. intros Hp [n o g]. apply (Hp (mkLocals n o g)). Qed.

Lemma zero_rtt_uses ctx d : uses 1 (zero_rtt_branch ctx d).
Proof.
  unfold zero_rtt_branch. apply uses_bind_r; [uses_auto|].
  intros [[[sender driver] [resp|]]|e|]; [uses_auto| | |uses_auto].
  - uses_auto; [apply keeps_of_uses, establish_h3_uses|apply pool_h3_uses].
  - destruct (_ && _); uses_auto; [apply keeps_of_uses, establish_h3_uses|apply pool_h3_uses].
Qed.

Lemma connect_quic_uses show ctx d : uses 1 (connect_quic show ctx d).
Proof.
  unfold connect_quic. apply uses_bind_r; [uses_auto|].
  intros [[sender driver|]|e|]; [apply pool_h3_uses|apply zero_rtt_uses| |uses_auto].
  apply uses_bind_r; [destruct (is_quic_handshake_failure e); uses_auto|]. intros _.
  destruct (_ && _); [|uses_auto]. apply uses_bind_r; [apply tcp_uses|]. intros r. uses_auto.
Qed.

(** From nothing owned to nothing owned, the guard included. *)
Definition clean {A} (p : Prog A) : Prop := wp p nothing (fun _ l' => l' = nothing).

Lemma clean_uses {A} (p : Prog A) : uses 0 p -> clean p.
Proof. intros Hp. by apply keeps_of_uses. Qed.
Lemma clean_bind {A B} (p : Prog A) (k : A -> Prog B) : clean p -> (forall a, clean (k a)) -> clean (bind p k).
Proof. intros Hp Hk. apply wp_bind. eapply wp_mono; [|exact Hp]. intros a l ->. apply Hk. Qed.
Lemma clean_vis {X A} (op : Op X) (k : X -> Prog A) :
  needs op nothing -> (forall x l', turns op nothing x l' -> l' = nothing) -> (forall x, clean (k x)) -> clean (Vis op k).
Proof. intros Hn Ht Hk. split; [done|]. intros x l' ->%Ht. apply Hk. Qed.

Lemma guarded_quic_clean show ctx d : clean (guarded_quic show ctx d).
Proof.
  split; [done|]. intros [] l'. cbn [turns ownership]. intros ->. apply wp_bind.
  assert (Hu : uses 0 (try_ reserve_connection (fun _ => connect_quic show ctx d)))
    by apply uses_reserve, connect_quic_uses.
  eapply wp_mono; [|apply (keeps_of_uses _ Hu)]. intros r l ->. split; [done|].
  intros [] l'. cbn [turns ownership]. by intros ->.
Qed.

Ltac clean_step := apply clean_vis; [done|by intros ? ?|intros ?].

Lemma quic_clean show ctx d : clean (establish_and_send_quic show ctx d).
Proof.
  unfold establish_and_send_quic. clean_step. destruct x; [|apply guarded_quic_clean]. do 3 clean_step.
  destruct x1; [apply clean_uses; unfold send_h3_request; uses_auto|apply guarded_quic_clean].
Qed.

Lemma establish_clean show ctx : clean (establish_and_send show ctx).
Proof.
  unfold establish_and_send. destruct (validate _); [|done..]. destruct (_ && _); [done|]. clean_step.
  destruct (decide_protocol _ _ _).
  - apply clean_bind; [apply clean_uses, tcp_uses|]. intros [r|e|]; [|done..].
    destruct (should_background_probe _ _); [clean_step|]; done.
  - apply clean_bind; [apply quic_clean|done].
  - done.
Qed.

Lemma or_again_clean show ctx remove p : clean p -> clean (or_again show ctx remove p).
Proof.
  intros Hp. apply clean_bind; [done|]. intros [r|e|]; [done| |done]. destruct (_ && _); [|done].
  destruct remove; [clean_step|]; apply establish_clean.
Qed.

Lemma single_request_clean show ctx : clean (send_single_request_inner show ctx).
Proof.
  unfold send_single_request_inner. destruct (validate _); [|done..]. split; [done|].
  intros c l'. cbn [turns ownership]. intros ->. destruct c as [[sender|sender|sender task]|]; cbn [hand_out].
  - change (with_out (l_out nothing) nothing) with nothing. clean_step.
    destruct x; [apply or_again_clean, clean_uses; unfold send_h2_request; uses_auto|clean_step; apply establish_clean|done].
  - apply or_again_clean, clean_uses. unfold send_h3_request. uses_auto.
  - split; [done|]. intros ready l'. cbn [turns ownership]. intros ->. destruct ready as [[]|e|].
    + apply wp_bind. eapply wp_mono; [|apply (send_h1_owns sender task nothing)]. intros [r|e|] l ->; [done| |done].
      destruct (_ && _); [apply establish_clean|done].
    + split; [done|]. intros [] l'. cbn [turns ownership]. intros ->. effect. spent. apply establish_clean.
    + effect. spent. done.
  - apply establish_clean.
Qed.

Lemma job_clean show ctx j : clean (job_prog show ctx j).
Proof.
  destruct j; cbn [job_prog]; [apply single_request_clean|..].
  all: apply clean_bind; [apply clean_uses|done].
  - unfold quic_probe. uses_auto. apply uses_bind_r; [apply establish_h3_uses|].
    intros [[sender driver]|e|]; [uses_auto| |uses_auto].
    apply uses_bind_r; [destruct (is_quic_handshake_failure e); uses_auto|intros; uses_auto].
  - unfold preconnect_h3. uses_auto. apply uses_bind_r; [apply establish_h3_uses|].
    intros [[sender driver]|e|]; uses_auto.
  - unfold preconnect_tcp. apply uses_reserve, uses_try_drop; [uses_step|]. intros conn.
    destruct (should_use_h2 _ _) as [[]|e|]; [uses_auto| |uses_auto..]. intros [m o g]. apply wp_try_drop, wp_do; [done|]. intros [[sender task]|e|] l'; cbn [turns ownership].
    + intros (j & [= <-] & ->). effect. spent. done.
    + intros ->. apply (dropping_uses (A := unit) (Err e) (mkLocals m o g)).
    + intros ->. apply (dropping_uses (A := unit) Panic (mkLocals m o g)).
Qed.
End logic.
Arguments needs {H L _ X}.
Arguments turns {H L _ X}.
End transport_props.
