(* ===== verification/TransportSys.v ===== *)
(** * Any number of requests at once

    The programs of [Transport] run concurrently over the shared session: every effect is
    one step, the legs of a race interleave, and a future may be dropped between any two
    effects (a timeout, a lost race, a caller that goes away). *)
From S2P Require Import Prelude Text LkError Route SessionStore AltSvc AltSvcProps BrokenQuic Pipeline Retry Hsts Pool PoolProps HttpLib Redirect Transport TransportProps.
Import lk_error route protocol alt_svc alt_svc_props broken_quic pipeline pipeline_props retry pool pool_props
  redirect transport transport_props.

Module transport_sys.

Section system.
Context {H : Type} {HM : HeaderMap H}.
Context {R : Type} {CK : Clock R} {HO : HashOrder} {HL : HashOrderLaws HO}.
Variable show : Error -> bytes.
Notation Op := (@Op H).
Notation Prog := (@Prog H).
Notation Res := (Outcome Error (@Response H)).
Notation Fin := (@Final H).

(** ** Shared state *)

(** [in_flight] maps a key to the [Notify] of its handshake; a ticket is a [Notified]
    future, with its [Notify] and whether it was woken. *)
Record Shared : Type := mkShared {
  sys : Sys;
  learned : Learned (R := R);
  in_flight : gmap ConnectionKey Z;
  next_notify : Z;
  tickets : gmap Z (Z * bool);
}.
Definition with_sys (s : Sys) (g : Shared) : Shared :=
  mkShared s (learned g) (in_flight g) (next_notify g) (tickets g).

(** [InFlightGuard::drop]: whatever marker the key has is removed, its waiters woken. *)
Definition drop_guard (k : ConnectionKey) (g : Shared) : Shared :=
  match in_flight g !! k with
  | Some n => mkShared (sys g) (learned g) (delete k (in_flight g)) (next_notify g)
                ((fun '(m, woken) => (m, woken || (m =? n))) <$> tickets g)
  | None => g
  end.

(** ** Effects *)

(** What an effect does to the pool, its callers and its tasks. *)
Definition sys_sem (ctx : Ctx) {X} (op : Op X) : Sys -> X -> Sys -> Prop :=
  match op in Transport.transport.Op Y return Sys -> Y -> Sys -> Prop with
  | NHandshakeH1 => fun s x s' =>
      match x with
      | Ok (_, task) => task ∉ idle s /\ task ∉ out s /\
          s' = mkSys (s_pool s) (s_world s) (dialing s - 1) (task :: out s)
      | _ => s' = s
      end
  | SAcquire => fun s x s' => exists r r' p' w',
      try_acquire_pooled (version ctx) (key ctx) (s_pool s) (s_world s) r = (x, p', w', r') /\
      s' = mkSys p' w' (dialing s) (hand_out x (out s))
  | STryH3 => fun s x s' => exists (r : R) p' r',
      try_acquire_h3 (key ctx) (s_pool s) r = (x, p', r') /\ s' = mkSys p' (s_world s) (dialing s) (out s)
  | SReserve => fun s x s' => exists ok p' w',
      try_reserve_connection (s_pool s) (s_world s) = (ok, p', w') /\
      x = (if ok then inl tt else inr (max_total p')) /\
      s' = mkSys p' w' (if ok : bool then dialing s + 1 else dialing s) (out s)
  | SRemove => fun s _ s' => exists p' w',
      remove (key ctx) (s_pool s) (s_world s) = (p', w') /\ s' = mkSys p' w' (dialing s) (out s)
  | SInsertH2 sender task => fun s _ s' => exists (r : R) p' w' r',
      insert_h2_reserved (key ctx) sender task (s_pool s) (s_world s) r = (p', w', r') /\
      s' = mkSys p' w' (dialing s - 1) (out s)
  | SInsertH3 sender driver => fun s _ s' => exists (r : R) p' w' r',
      insert_h3_reserved (key ctx) sender driver (s_pool s) (s_world s) r = (p', w', r') /\
      s' = mkSys p' w' (dialing s - 1) (out s)
  | SReturnH1 sender task => fun s _ s' => exists (r : R) p' w' r' o1 o2,
      return_h1_reserved (key ctx) sender task (s_pool s) (s_world s) r = (p', w', r') /\
      out s = o1 ++ task :: o2 /\ s' = mkSys p' w' (dialing s) (o1 ++ o2)
  | SInsertH1 sender task => fun s _ s' => exists (r : R) p' r' o1 o2,
      insert_h1_reserved (key ctx) sender task (s_pool s) r = (p', r') /\
      out s = o1 ++ task :: o2 /\ s' = mkSys p' (s_world s) (dialing s) (o1 ++ o2)
  | SDropPermit => fun s _ s' => s' = mkSys (s_pool s) (drop_permits 1 (s_world s)) (dialing s - 1) (out s)
  | SDropH1 task => fun s _ s' => exists o1 o2,
      out s = o1 ++ task :: o2 /\ s' = mkSys (s_pool s) (drop_permits 1 (s_world s)) (dialing s) (o1 ++ o2)
  | SAbort task => fun s _ s' => s' = mkSys (s_pool s) (abort task (s_world s)) (dialing s) (out s)
  | _ => fun s _ s' => s' = s
  end.

(** What it does to the rest of the session. *)
Definition shared_sem (ctx : Ctx) {X} (op : Op X) : Shared -> X -> Shared -> Prop :=
  match op in Transport.transport.Op Y return Shared -> Y -> Shared -> Prop with
  | SLearn ops => fun g _ g' =>
      g' = mkShared (sys g) (foldl (fun s op => learn_op op s) (learned g) ops) (in_flight g) (next_notify g) (tickets g)
  | SInFlight => fun g x g' =>
      x = in_flight g !! key ctx /\
      g' = match in_flight g !! key ctx with
           | Some _ => g
           | None => mkShared (sys g) (learned g) (<[key ctx := next_notify g]> (in_flight g)) (next_notify g + 1) (tickets g)
           end
  | SSubscribe n => fun g x g' =>
      x = fresh (dom (tickets g)) /\
      g' = mkShared (sys g) (learned g) (in_flight g) (next_notify g) (<[x := (n, false)]> (tickets g))
  | NWait ticket => fun g _ g' => g' = g /\ exists n, tickets g !! ticket = Some (n, true)
  | SDropGuard => fun g _ g' => g' = drop_guard (key ctx) g
  | _ => fun g _ g' => g' = g
  end.

Definition op_sem (ctx : Ctx) {X} (op : Op X) (g : Shared) (l : Locals) (x : X) (g' : Shared) (l' : Locals) : Prop :=
  exists s' g1, sys_sem ctx op (sys g) x s' /\ shared_sem ctx op g x g1 /\ g' = with_sys s' g1 /\
    turns op l x l'.

(** ** Futures and requests *)

Definition leg_step (ctx : Ctx) {A : Type} (g : Shared) (l : Locals) (p : Prog A)
    (g' : Shared) (l' : Locals) (p' : Prog A) : Prop :=
  match p with
  | Ret _ => False
  | Vis op k => exists x, op_sem ctx op g l x g' l' /\ p' = k x
  end.

(** Dropping a future: its permits, then its guard. *)
Fixpoint remove_all (xs l : list Z) : option (list Z) :=
  match xs with [] => Some l | x :: xs => l ← remove_one x l; remove_all xs l end.
Definition release (ctx : Ctx) (l : Locals) (g g' : Shared) : Prop :=
  exists o, remove_all (l_out l) (out (sys g)) = Some o /\
    let s := sys g in
    let g1 := with_sys (mkSys (s_pool s) (drop_permits (Z.of_nat (l_dial l) + len (l_out l)) (s_world s))
                          (dialing s - Z.of_nat (l_dial l)) o) g in
    g' = if l_guard l then drop_guard (key ctx) g1 else g1.

(** A request: one future, or the states of [establish_and_send_race]. *)
Inductive Running : Type :=
| RPlain (l : Locals) (p : Prog Fin)
| RQuicFirst (d : QuicDiscovery) (l : Locals) (quic : Prog Res)
| RBoth (d : QuicDiscovery) (lq : Locals) (quic : Prog Res) (lt : Locals) (tcp : Prog Res)
| RTcp (quic_error : Error) (l : Locals) (tcp : Prog Res)
| RQuic (tcp_error : Error) (l : Locals) (quic : Prog Res)
| RTcpLast (quic_error : Error) (l : Locals) (tcp : Prog Res)
| RDone (r : option Fin).

Definition owned (r : Running) : list Locals :=
  match r with
  | RPlain l _ | RQuicFirst _ l _ | RTcp _ l _ | RQuic _ l _ | RTcpLast _ l _ => [l]
  | RBoth _ lq _ lt _ => [lq; lt]
  | RDone _ => []
  end.

Definition start_race (ctx : Ctx) (d : QuicDiscovery) : Running :=
  if tcp_main_job_delay (race_cfg ctx) =? 0 then
    RBoth d nothing (establish_and_send_quic show ctx d) nothing (establish_and_send_tcp show ctx)
  else RQuicFirst d nothing (establish_and_send_quic show ctx d).

Definition race_lost (tcp_error quic_error : Error) : Fin :=
  Done (Err (protocol_race_error show tcp_error quic_error)).

(** What follows the end of a leg. *)
Definition after_tcp (ctx : Ctx) (quic_error : Error) (r : Res) : Running :=
  match r with
  | Err tcp_error =>
      if is_connection_limit_error tcp_error then RTcpLast quic_error nothing (establish_and_send_tcp show ctx)
      else RDone (Some (race_lost tcp_error quic_error))
  | _ => RDone (Some (Done r))
  end.
Definition after_quic (ctx : Ctx) (tcp_error : Error) (r : Res) : Running :=
  match r with
  | Err quic_error =>
      if is_connection_limit_error tcp_error then RTcpLast quic_error nothing (establish_and_send_tcp show ctx)
      else RDone (Some (race_lost tcp_error quic_error))
  | _ => RDone (Some (Done r))
  end.
Definition after_last (quic_error : Error) (r : Res) : Running :=
  match r with
  | Err tcp_error => RDone (Some (race_lost tcp_error quic_error))
  | _ => RDone (Some (Done r))
  end.

(** A leg that ends gives back what it still owns before anything follows. *)
Inductive req_step (ctx : Ctx) : Shared -> Running -> Shared -> Running -> Prop :=
| rs_plain g l p g' l' p' : leg_step ctx g l p g' l' p' -> req_step ctx g (RPlain l p) g' (RPlain l' p')
| rs_plain_ret g l f g' :
    release ctx l g g' ->
    req_step ctx g (RPlain l (Ret f)) g' (match f with StartRace d => start_race ctx d | _ => RDone (Some f) end)
| rs_first g d l p g' l' p' : leg_step ctx g l p g' l' p' -> req_step ctx g (RQuicFirst d l p) g' (RQuicFirst d l' p')
| rs_first_ret g d l r g' :
    release ctx l g g' ->
    req_step ctx g (RQuicFirst d l (Ret r)) g'
      (match r with
       | Err quic_error => RTcpLast quic_error nothing (establish_and_send_tcp show ctx)
       | _ => RDone (Some (Done r))
       end)
| rs_first_delay g d l p :
    req_step ctx g (RQuicFirst d l p) g (RBoth d l p nothing (establish_and_send_tcp show ctx))
| rs_both_quic g d lq q lt t g' lq' q' :
    leg_step ctx g lq q g' lq' q' -> req_step ctx g (RBoth d lq q lt t) g' (RBoth d lq' q' lt t)
| rs_both_tcp g d lq q lt t g' lt' t' :
    leg_step ctx g lt t g' lt' t' -> req_step ctx g (RBoth d lq q lt t) g' (RBoth d lq q lt' t')
| rs_both_quic_err g d lq e lt t g' :
    release ctx lq g g' -> req_step ctx g (RBoth d lq (Ret (Err e)) lt t) g' (RTcp e lt t)
| rs_both_quic_ret g d lq r lt t g1 g' :
    (forall e, r <> Err e) -> release ctx lq g g1 -> release ctx lt g1 g' ->
    req_step ctx g (RBoth d lq (Ret r) lt t) g' (RDone (Some (Done r)))
| rs_both_tcp_err g d lq q lt e g' :
    release ctx lt g g' -> req_step ctx g (RBoth d lq q lt (Ret (Err e))) g' (RQuic e lq q)
| rs_both_tcp_ret g d lq q lt r g1 g' :
    (forall e, r <> Err e) -> release ctx lt g g1 -> release ctx lq g1 g' ->
    req_step ctx g (RBoth d lq q lt (Ret r)) g' (RDone (Some (Done r)))
| rs_tcp g e l p g' l' p' : leg_step ctx g l p g' l' p' -> req_step ctx g (RTcp e l p) g' (RTcp e l' p')
| rs_tcp_ret g e l r g' : release ctx l g g' -> req_step ctx g (RTcp e l (Ret r)) g' (after_tcp ctx e r)
| rs_quic g e l p g' l' p' : leg_step ctx g l p g' l' p' -> req_step ctx g (RQuic e l p) g' (RQuic e l' p')
| rs_quic_ret g e l r g' : release ctx l g g' -> req_step ctx g (RQuic e l (Ret r)) g' (after_quic ctx e r)
| rs_last g e l p g' l' p' : leg_step ctx g l p g' l' p' -> req_step ctx g (RTcpLast e l p) g' (RTcpLast e l' p')
| rs_last_ret g e l r g' : release ctx l g g' -> req_step ctx g (RTcpLast e l (Ret r)) g' (after_last e r)
(** Dropped from outside, at any moment. *)
| rs_cancel_one g r l g' : owned r = [l] -> release ctx l g g' -> req_step ctx g r g' (RDone None)
| rs_cancel_two g r l1 l2 g1 g' :
    owned r = [l1; l2] -> release ctx l1 g g1 -> release ctx l2 g1 g' -> req_step ctx g r g' (RDone None).

(** ** The session *)

(** What the runtime and the maintenance do on their own. *)
Definition background (s s' : Sys) : Prop := step s s' /\ dialing s' = dialing s /\ out s' = out s.

Inductive session_step : Shared * list (Ctx * Running) -> Shared * list (Ctx * Running) -> Prop :=
| ss_spawn g rs ctx j : session_step (g, rs) (g, rs ++ [(ctx, RPlain nothing (job_prog show ctx j))])
| ss_request g rs1 ctx r rs2 g' r' :
    req_step ctx g r g' r' -> session_step (g, rs1 ++ (ctx, r) :: rs2) (g', rs1 ++ (ctx, r') :: rs2)
| ss_background g rs s' : background (sys g) s' -> session_step (g, rs) (with_sys s' g, rs).

Definition start (max : Z) (ln : Learned) : Shared := mkShared (init max) ln ∅ 0 ∅.

End system.
End transport_sys.
