(* ===== verification/TransportInv.v ===== *)
(** * No permit is ever lost

    The invariant of [TransportSys]: the permits the pool counts as held by callers are
    exactly those the live futures own, whatever runs, fails or is dropped. *)
From S2P Require Import Prelude Text LkError Route SessionStore AltSvc AltSvcProps BrokenQuic Pipeline Retry Hsts Pool PoolProps HttpLib Redirect Transport TransportProps TransportSys.
Import lk_error route protocol alt_svc alt_svc_props broken_quic pipeline pipeline_props retry pool pool_props
  redirect transport transport_props transport_sys.

Module transport_inv.

#[export] Instance len_perm {A} : Proper ((≡ₚ) ==> (=)) (@len A).
Proof. intros l l' Hl. unfold len. by rewrite Hl. Qed.

Section inv.
Context {H : Type} {HM : HeaderMap H}.
Context {R : Type} {CK : Clock R} {HO : HashOrder} {HL : HashOrderLaws HO}.
Variable show : Error -> bytes.
Notation Op := (@Op H).
Notation Prog := (@Prog H).
Notation Shared := (@Shared R).

(** A future and the rest: what is dialling and checked out is its own and others'. *)
Record accounts (s : Sys) (l : Locals) (others : Z) (outs : list Z) : Prop := mkAccounts {
  ac_dial : dialing s = Z.of_nat (l_dial l) + others;
  ac_others : 0 <= others;
  ac_out : out s ≡ₚ l_out l ++ outs;
}.

Lemma remove_accounts o1 task o2 (l o outs : list Z) :
  remove_one task l = Some o -> o1 ++ task :: o2 ≡ₚ l ++ outs -> o1 ++ o2 ≡ₚ o ++ outs.
Proof.
  intros Hr%remove_one_perm. rewrite Hr, <- Permutation_middle. cbn [app]. apply Permutation_cons_inv.
Qed.

Lemma pooled_acquires v k p w r c p' w' r' :
  try_acquire_pooled v k p w r = (c, p', w', r') -> acquires k p w c p' w'.
Proof.
  destruct v; cbn [try_acquire_pooled].
  - apply acquire_any.
  - apply acquire_h1.
  - apply acquire_h2.
  - apply acquire_h3.
  - apply acquire_h3.
Qed.

(** One effect is a step of the pool and keeps the accounts. *)
Lemma sys_sem_step ctx X (op : Op X) s x s' l l' others outs :
  sys_sem ctx op s x s' -> turns op l x l' -> needs op l -> accounts s l others outs ->
  rtc step s s' /\ accounts s' l' others outs.
Proof.
  destruct s as [p w n o]. intros Hs Ht Hn [Hd H0 Ho]. cbn [dialing out] in *.
  destruct op; cbn [sys_sem turns needs ownership s_pool s_world dialing out] in *;
    try (subst; split; [reflexivity|by constructor]).
  - destruct x as [[sender task]|e|]; [|subst; split; [reflexivity|by constructor]..].
    destruct Hs as (Hi & Hno & ->), Ht as (m & Hm & ->). split.
    + apply rtc_once, step_connected_h1; [lia|done|done].
    + constructor; cbn [dialing out l_dial l_out app]; [lia|done|by rewrite Ho].
  - destruct Hs as (r & r' & p' & w' & E & ->). subst l'. split.
    + by eapply rtc_once, step_acquire, pooled_acquires.
    + constructor; cbn [dialing out with_out l_dial l_out]; [lia|done|].
      destruct x as [[]|]; cbn [hand_out app]; [done|done|by rewrite Ho|done].
  - destruct Hs as (r & p' & r' & E & ->). subst l'. split; [|by constructor]. apply rtc_once.
    pose proof (step_acquire p w n o _ _ _ _ (acquire_h3_kept (key ctx) p w _ _ _ _ E)) as Hst. by destruct x.
  - destruct Hs as (ok & p' & w' & E & -> & ->). split; [by eapply rtc_once, step_reserve|].
    subst l'. destruct ok; constructor; cbn [dialing out with_dial l_dial l_out]; try done; lia.
  - destruct Hs as (p' & w' & E & ->). subst l'. split; [by eapply rtc_once, step_remove|by constructor].
  - destruct Hs as (r & p' & w' & r' & E & ->), Ht as (m & Hm & ->). split; [eapply rtc_once, step_insert_h2, E; lia|].
    constructor; cbn [dialing out with_dial l_dial l_out]; [lia|done|done].
  - destruct Hs as (r & p' & w' & r' & E & ->), Ht as (m & Hm & ->). split; [eapply rtc_once, step_insert_h3, E; lia|].
    constructor; cbn [dialing out with_dial l_dial l_out]; [lia|done|done].
  - destruct Hs as (r & p' & w' & r' & o1 & o2 & E & -> & ->), Ht as (k & Hk & ->).
    split; [by eapply rtc_once, step_return_h1|].
    constructor; cbn [dialing out with_out l_dial l_out]; [done|done|by eapply remove_accounts].
  - destruct Hs as (r & p' & r' & o1 & o2 & E & -> & ->), Ht as (k & Hk & ->).
    split; [by eapply rtc_once, step_insert_h1|].
    constructor; cbn [dialing out with_out l_dial l_out]; [done|done|by eapply remove_accounts].
  - subst s' l'. split; [apply rtc_once, step_abort|by constructor].
  - destruct Ht as (m & Hm & ->). subst s'. split; [apply rtc_once, step_drop_permit; lia|].
    constructor; cbn [dialing out with_dial l_dial l_out]; [lia|done|done].
  - destruct Hs as (o1 & o2 & -> & ->), Ht as (k & Hk & ->). split; [apply rtc_once, step_discard_h1|].
    constructor; cbn [dialing out with_out l_dial l_out]; [done|done|by eapply remove_accounts].
Qed.

(** Releasing everything is a sequence of drops. *)
Lemma drop_many n : forall p w d o,
  Z.of_nat n <= d -> rtc step (mkSys p w d o) (mkSys p (drop_permits (Z.of_nat n) w) (d - Z.of_nat n) o).
Proof.
  induction n as [|n IH]; intros p w d o Hd.
  { unfold drop_permits. rewrite !Z.sub_0_r. destruct w. reflexivity. }
  eapply rtc_l; [apply step_drop_permit; lia|]. specialize (IH p (drop_permits 1 w) (d - 1) o).
  unfold drop_permits in *. cbn [tasks connections_in_use] in *.
  replace (connections_in_use w - Z.of_nat (S n)) with (connections_in_use w - 1 - Z.of_nat n) by lia.
  replace (d - Z.of_nat (S n)) with (d - 1 - Z.of_nat n) by lia. apply IH. lia.
Qed.

Lemma remove_one_split x l l' : remove_one x l = Some l' -> exists o1 o2, l = o1 ++ x :: o2 /\ l' = o1 ++ o2.
Proof.
  revert l'. induction l as [|y l IH]; intros l'; cbn; [done|]. case_decide as E.
  { intros [= <-]. subst. by exists [], l. }
  destruct (remove_one x l) as [k|]; [|done]. cbn. intros [= <-].
  destruct (IH k eq_refl) as (o1 & o2 & -> & ->). by exists (y :: o1), o2.
Qed.
Lemma remove_all_perm xs : forall l l', remove_all xs l = Some l' -> l ≡ₚ xs ++ l'.
Proof.
  induction xs as [|x xs IH]; intros l l'; cbn; [by intros [= <-]|].
  destruct (remove_one x l) as [k|] eqn:E; [|done]. cbn. intros Hk%IH. apply remove_one_perm in E. by rewrite E, Hk.
Qed.
Lemma remove_all_steps xs : forall p w d l l', remove_all xs l = Some l' ->
  rtc step (mkSys p w d l) (mkSys p (drop_permits (len xs) w) d l').
Proof.
  induction xs as [|x xs IH]; intros p w d l l'; cbn [remove_all].
  { intros [= <-]. unfold drop_permits. rewrite len_nil, Z.sub_0_r. destruct w. reflexivity. }
  destruct (remove_one x l) as [k|] eqn:E; [|done]. cbn [mbind option_bind]. intros Hk.
  apply remove_one_split in E as (o1 & o2 & -> & ->). eapply rtc_l; [apply step_discard_h1|].
  eapply IH in Hk. unfold drop_permits in *. cbn [tasks connections_in_use] in *. rewrite len_cons.
  replace (connections_in_use w - (1 + len xs)) with (connections_in_use w - 1 - len xs) by lia. exact Hk.
Qed.

Lemma drop_guard_sys k (g : Shared) : sys (drop_guard k g) = sys g.
Proof. unfold drop_guard. by destruct (in_flight g !! k). Qed.

Lemma release_steps ctx l (g g' : Shared) others outs :
  release ctx l g g' -> accounts (sys g) l others outs ->
  rtc step (sys g) (sys g') /\ accounts (sys g') nothing others outs.
Proof.
  intros (o & Ho & Hg) [Hd H0 Hp]. cbn zeta in Hg. set (g1 := with_sys _ g) in Hg.
  assert (Hs : sys g' = sys g1) by (subst g'; destruct (l_guard l); [apply drop_guard_sys|done]).
  rewrite Hs. subst g1. cbn [sys with_sys]. destruct (sys g) as [p w d os]. cbn [s_pool s_world dialing out] in *. split.
  - etrans; [apply (drop_many (l_dial l)); lia|].
    eapply remove_all_steps in Ho. unfold drop_permits in *. cbn [tasks connections_in_use] in *.
    rewrite Z.sub_add_distr. exact Ho.
  - constructor; cbn [dialing out nothing l_dial l_out app]; [lia|done|].
    apply remove_all_perm in Ho. rewrite Hp in Ho. by apply Permutation_app_inv_l in Ho.
Qed.

Lemma op_sem_steps ctx X (op : Op X) (g : Shared) l x g' l' others outs :
  op_sem ctx op g l x g' l' -> needs op l -> accounts (sys g) l others outs ->
  rtc step (sys g) (sys g') /\ accounts (sys g') l' others outs.
Proof.
  intros (s' & g1 & Hs & _ & -> & Ht) Hn Ha. cbn [sys with_sys]. by eapply sys_sem_step.
Qed.

(** ** Requests *)

Definition leg_ok {A} (l : Locals) (p : Prog A) : Prop := wp p l (fun _ l' => l' = nothing).

Definition legs_ok (r : Running (H := H)) : Prop :=
  match r with
  | RPlain l p => leg_ok l p
  | RQuicFirst _ l p | RTcp _ l p | RQuic _ l p | RTcpLast _ l p => leg_ok l p
  | RBoth _ lq q lt t => leg_ok lq q /\ leg_ok lt t
  | RDone _ => True
  end.

Definition dial_of (ls : list Locals) : Z := foldr (fun l n => Z.of_nat (l_dial l) + n) 0 ls.
Definition out_of (ls : list Locals) : list Z := concat (l_out <$> ls).

Lemma leg_step_ok ctx A (g : Shared) l (p : Prog A) g' l' p' others outs :
  leg_step ctx g l p g' l' p' -> leg_ok l p -> accounts (sys g) l others outs ->
  rtc step (sys g) (sys g') /\ accounts (sys g') l' others outs /\ leg_ok l' p'.
Proof.
  destruct p as [a|X op k]; [done|]. intros (x & Hop & ->) [Hn Hk] Ha.
  destruct (op_sem_steps _ _ _ _ _ _ _ _ _ _ Hop Hn Ha) as [Hs Ha']. split_and!; [done|done|].
  apply Hk. by destruct Hop as (? & ? & _ & _ & _ & Ht).
Qed.

(** The accounts of a request: all its legs, and the others. *)
Definition req_accounts (s : Sys) (r : Running (H := H)) (others : Z) (outs : list Z) : Prop :=
  dialing s = dial_of (owned r) + others /\ 0 <= others /\ out s ≡ₚ out_of (owned r) ++ outs.

Lemma one_leg s l others outs : dialing s = dial_of [l] + others /\ 0 <= others /\ out s ≡ₚ out_of [l] ++ outs <->
  accounts s l others outs.
Proof.
  unfold out_of. cbn. rewrite app_nil_r. split; [intros (? & ? & ?)|intros []]; [constructor|split_and!]; try done; lia.
Qed.
Lemma first_leg s l1 l2 others outs :
  dialing s = dial_of [l1; l2] + others /\ 0 <= others /\ out s ≡ₚ out_of [l1; l2] ++ outs <->
  accounts s l1 (Z.of_nat (l_dial l2) + others) (l_out l2 ++ outs) /\ 0 <= others.
Proof.
  unfold out_of. cbn. rewrite app_nil_r, <- app_assoc. split; [intros (? & ? & ?)|intros [[] ?]]; [|split_and!; [lia|done..]].
  split; [|done]. constructor; [lia|lia|done].
Qed.
Lemma swap_legs s l1 l2 others outs :
  dialing s = dial_of [l1; l2] + others /\ 0 <= others /\ out s ≡ₚ out_of [l1; l2] ++ outs ->
  dialing s = dial_of [l2; l1] + others /\ 0 <= others /\ out s ≡ₚ out_of [l2; l1] ++ outs.
Proof.
  unfold out_of. cbn. rewrite !app_nil_r. intros (? & ? & Ho). split_and!; [lia|done|].
  by rewrite Ho, (Permutation_app_comm (l_out l1)).
Qed.

Lemma tcp_leg_ok ctx : leg_ok nothing (establish_and_send_tcp show ctx).
Proof. apply clean_uses, tcp_uses. Qed.
Lemma quic_leg_ok ctx d : leg_ok nothing (establish_and_send_quic show ctx d).
Proof. apply quic_clean. Qed.

(** A state that starts with nothing of its own. *)
Definition idle_start (r : Running (H := H)) : Prop :=
  legs_ok r /\ dial_of (owned r) = 0 /\ out_of (owned r) = [].
Lemma start_race_idle ctx d : idle_start (start_race show ctx d).
Proof.
  unfold start_race. destruct (_ =? _); (split; [|done]); cbn [legs_ok]; auto using tcp_leg_ok, quic_leg_ok.
Qed.
Lemma done_idle f : idle_start (RDone f).
Proof. done. Qed.
Lemma last_idle ctx e : idle_start (RTcpLast e nothing (establish_and_send_tcp show ctx)).
Proof. split; [apply tcp_leg_ok|done]. Qed.
Lemma after_tcp_idle ctx e r : idle_start (after_tcp show ctx e r).
Proof. unfold after_tcp. repeat case_match; auto using done_idle, last_idle. Qed.
Lemma after_quic_idle ctx e r : idle_start (after_quic show ctx e r).
Proof. unfold after_quic. repeat case_match; auto using done_idle, last_idle. Qed.
Lemma after_last_idle e r : idle_start (after_last show e r).
Proof. unfold after_last. repeat case_match; auto using done_idle. Qed.

Definition req_ok (s s' : Sys) (r' : Running (H := H)) others outs : Prop :=
  rtc step s s' /\ req_accounts s' r' others outs /\ legs_ok r'.

(** A future ends, and what follows starts afresh. *)
Lemma release_then ctx l (g g' : Shared) r' others outs :
  release ctx l g g' -> accounts (sys g) l others outs -> idle_start r' -> req_ok (sys g) (sys g') r' others outs.
Proof.
  intros Hr Ha (Hok & Hd & Ho). destruct (release_steps _ _ _ _ _ _ Hr Ha) as [Hs [H1 H2 H3]].
  cbn [nothing l_dial l_out app] in *. split_and!; [done| |done].
  unfold req_accounts. rewrite Hd, Ho. split_and!; [lia|done|done].
Qed.
Lemma release_two ctx l1 l2 (g g1 g' : Shared) f others outs :
  release ctx l1 g g1 -> release ctx l2 g1 g' ->
  accounts (sys g) l1 (Z.of_nat (l_dial l2) + others) (l_out l2 ++ outs) -> 0 <= others ->
  req_ok (sys g) (sys g') (RDone f) others outs.
Proof.
  intros Hr1 Hr2 Ha H0. destruct (release_steps _ _ _ _ _ _ Hr1 Ha) as [Hs1 [H1 _ H3]].
  destruct (release_then ctx l2 g1 g' (RDone f) others outs Hr2) as (Hs2 & Ha2 & Hok); [|done|].
  { constructor; cbn [nothing l_dial l_out app] in *; [lia|done|done]. }
  split_and!; [by etrans|done|done].
Qed.

(** A leg moves while the rest of the request waits. *)
Lemma leg_moves ctx A (g : Shared) l (p : Prog A) g' l' p' others outs (r' : Running (H := H)) :
  leg_step ctx g l p g' l' p' -> leg_ok l p -> accounts (sys g) l others outs ->
  owned r' = [l'] -> (leg_ok l' p' -> legs_ok r') -> req_ok (sys g) (sys g') r' others outs.
Proof.
  intros Hst Hok Ha Ho Hl. destruct (leg_step_ok _ _ _ _ _ _ _ _ _ _ Hst Hok Ha) as (Hs & Ha' & Hok').
  split_and!; [done| |by apply Hl]. unfold req_accounts. rewrite Ho. by apply one_leg.
Qed.
Lemma req_step_ok ctx (g : Shared) r g' r' others outs :
  req_step show ctx g r g' r' -> legs_ok r -> req_accounts (sys g) r others outs ->
  req_ok (sys g) (sys g') r' others outs.
Proof.
  unfold req_accounts. intros Hst.
  destruct Hst as [g l p g' l' p' Hl|g l f g' Hr|g d l p g' l' p' Hl|g d l r g' Hr|g d l p
    |g d lq q lt t g' lq' q' Hl|g d lq q lt t g' lt' t' Hl|g d lq e lt t g' Hr|g d lq r lt t g1 g' _ Hr1 Hr2
    |g d lq q lt e g' Hr|g d lq q lt r g1 g' _ Hr1 Hr2|g e l p g' l' p' Hl|g e l r g' Hr|g e l p g' l' p' Hl|g e l r g' Hr
    |g e l p g' l' p' Hl|g e l r g' Hr|g r l g' Ho Hr|g r l1 l2 g1 g' Ho Hr1 Hr2];
    cbn [owned legs_ok]; intros Hok Ha; try (apply one_leg in Ha).
  all: try (eapply leg_moves; [exact Hl|exact Hok|exact Ha|done|done]).
  all: try (eapply release_then; [exact Hr|exact Ha|]; auto using after_tcp_idle, after_quic_idle, after_last_idle).
  - destruct f; auto using done_idle, start_race_idle.
  - destruct r; auto using done_idle, last_idle.
  - split_and!; [reflexivity| |split; [done|apply tcp_leg_ok]]. apply first_leg. destruct Ha. split; [constructor|]; done.
  - apply first_leg in Ha as [Ha H0]. destruct Hok as [Hq Ht].
    destruct (leg_step_ok _ _ _ _ _ _ _ _ _ _ Hl Hq Ha) as (Hs & Ha' & Hq'). split_and!; [done| |done].
    by apply first_leg.
  - apply swap_legs, first_leg in Ha as [Ha H0]. destruct Hok as [Hq Ht].
    destruct (leg_step_ok _ _ _ _ _ _ _ _ _ _ Hl Ht Ha) as (Hs & Ha' & Ht'). split_and!; [done| |done].
    by apply swap_legs, first_leg.
  - apply first_leg in Ha as [Ha H0]. destruct Hok as [_ Ht].
    destruct (release_steps _ _ _ _ _ _ Hr Ha) as [Hs [H1 _ H3]]. split_and!; [done| |done].
    apply one_leg. by constructor.
  - apply first_leg in Ha as [Ha H0]. by eapply release_two.
  - apply swap_legs, first_leg in Ha as [Ha H0]. destruct Hok as [Hq _].
    destruct (release_steps _ _ _ _ _ _ Hr Ha) as [Hs [H1 _ H3]]. split_and!; [done| |done].
    apply one_leg. by constructor.
  - apply swap_legs, first_leg in Ha as [Ha H0]. by eapply release_two.
  - rewrite Ho in Ha. apply one_leg in Ha. eapply release_then; [exact Hr|exact Ha|apply done_idle].
  - rewrite Ho in Ha. apply first_leg in Ha as [Ha H0]. by eapply release_two.
Qed.

(** ** The session *)

Definition all_owned (rs : list (Ctx * Running (H := H))) : list Locals := concat ((fun cr => owned cr.2) <$> rs).

Record session_inv (max : Z) (g : Shared) (rs : list (Ctx * Running (H := H))) : Prop := mkSessionInv {
  si_reach : rtc step (init max) (sys g);
  si_dial : dialing (sys g) = dial_of (all_owned rs);
  si_out : out (sys g) ≡ₚ out_of (all_owned rs);
  si_legs : Forall (fun cr => legs_ok cr.2) rs;
}.

Lemma dial_of_app ls1 ls2 : dial_of (ls1 ++ ls2) = dial_of ls1 + dial_of ls2.
Proof. unfold dial_of. induction ls1 as [|l ls1 IH]; cbn in *; [done|lia]. Qed.
Lemma out_of_app ls1 ls2 : out_of (ls1 ++ ls2) = out_of ls1 ++ out_of ls2.
Proof. unfold out_of. by rewrite fmap_app, concat_app. Qed.
Lemma dial_of_nonneg ls : 0 <= dial_of ls.
Proof. unfold dial_of. induction ls as [|l ls IH]; cbn in *; [lia|lia]. Qed.
Lemma all_owned_app rs1 rs2 : all_owned (rs1 ++ rs2) = all_owned rs1 ++ all_owned rs2.
Proof. unfold all_owned. by rewrite fmap_app, concat_app. Qed.
Lemma all_owned_cons ctx r rs : all_owned ((ctx, r) :: rs) = owned r ++ all_owned rs.
Proof. done. Qed.

(** A request within its session. *)
Lemma framed (s : Sys) rs1 ctx r rs2 :
  dialing s = dial_of (all_owned (rs1 ++ (ctx, r) :: rs2)) /\ out s ≡ₚ out_of (all_owned (rs1 ++ (ctx, r) :: rs2)) <->
  req_accounts s r (dial_of (all_owned rs1 ++ all_owned rs2)) (out_of (all_owned rs1 ++ all_owned rs2)).
Proof.
  unfold req_accounts. rewrite all_owned_app, all_owned_cons, !dial_of_app, !out_of_app.
  pose proof (dial_of_nonneg (all_owned rs1)). pose proof (dial_of_nonneg (all_owned rs2)).
  rewrite (Permutation_app_swap_app (out_of (all_owned rs1))). split; [intros []; split_and!|intros (?&?&?); split]; try done; lia.
Qed.

Lemma session_step_inv max g rs g' rs' :
  session_step show (g, rs) (g', rs') -> session_inv max g rs -> session_inv max g' rs'.
Proof.
  intros Hst [Hr Hd Ho Hl]. inversion Hst as [? ? ctx j|? rs1 ctx r rs2 ? r' Hreq|? ? s' (Hs & Hd' & Ho')]; subst.
  - constructor; [done| | |].
    + rewrite all_owned_app, dial_of_app, Hd. cbn. lia.
    + rewrite all_owned_app, out_of_app, Ho. by rewrite app_nil_r.
    + apply Forall_app. split; [done|]. constructor; [apply job_clean|constructor].
  - apply Forall_app in Hl as [Hl1 [Hok Hl2]%Forall_cons].
    destruct (req_step_ok _ _ _ _ _ _ _ Hreq Hok (proj1 (framed _ _ ctx _ _) (conj Hd Ho))) as (Hs & Ha & Hok').
    apply (framed _ _ ctx) in Ha as [Hd' Ho']. constructor; [by etrans|done|done|]. apply Forall_app. split; [done|].
    by constructor.
  - constructor; cbn [sys with_sys]; [by eapply rtc_r|congruence|by rewrite Ho'|done].
Qed.

Lemma session_reachable max ln g rs :
  rtc (session_step show) (start max ln, []) (g, rs) -> session_inv max g rs.
Proof.
  assert (Hgen : forall st st', rtc (session_step show) st st' -> session_inv max st.1 st.2 -> session_inv max st'.1 st'.2).
  { induction 1 as [|[g1 rs1] [g2 rs2] z Hst _ IH]; [done|]. intros Hi. by apply IH, (session_step_inv max g1 rs1). }
  intros Hr. apply (Hgen _ _ Hr). constructor; [reflexivity|done|done|constructor].
Qed.

End inv.
End transport_inv.
