(* ===== verification/TransportVersion.v ===== *)
(** * How often, and over what, a request is transmitted

    The transmissions on every path of a request, by the program logic of
    [TransportProps] with the list of transmissions as its ghost state. *)
From S2P Require Import Prelude Text LkError Route SessionStore AltSvc AltSvcProps BrokenQuic Pipeline Retry Hsts Pool PoolProps HttpLib Redirect Transport TransportProps TransportSys.
Import lk_error route protocol alt_svc alt_svc_props broken_quic pipeline pipeline_props retry pool pool_props
  redirect transport transport_props transport_sys.

Module transport_version.

Inductive Tx : Type := TxH1 | TxH2 | TxH3 | TxEarly.

Section version.
Context {H : Type} {HM : HeaderMap H}.
Variable show : Error -> bytes.
Notation Op := (@Op H).
Notation Prog := (@Prog H).
Notation Res A := (Outcome Error A).

Definition tx_of {X} (op : Op X) : list Tx :=
  match op with
  | NSendH1 _ => [TxH1]
  | NSendH2 _ | NConnectH2 true => [TxH2]
  | NSendH3 _ => [TxH3]
  | NSend0Rtt => [TxEarly]
  | _ => []
  end.

(** What an effect can answer: the pool gives out what was asked for, and there is no
    0-RTT connection unless it was allowed. *)
Definition answered (ctx : Ctx) {X} (op : Op X) : X -> Prop :=
  match op in Transport.transport.Op Y return Y -> Prop with
  | SAcquire => fun x =>
      match version ctx, x with
      | Http1Only, Some (AcquiredH2 _) | Http1Only, Some (AcquiredH3 _) => False
      | Http2Only, Some (AcquiredH1 _ _) | Http2Only, Some (AcquiredH3 _) => False
      | Http3Only, Some (AcquiredH1 _ _) | Http3Only, Some (AcquiredH2 _) => False
      | Http3WithFallback, Some (AcquiredH1 _ _) | Http3WithFallback, Some (AcquiredH2 _) => False
      | _, _ => True
      end
  | NConnectH3 false => fun x => x <> Ok ZeroRtt
  | _ => fun _ => True
  end.

Definition transmissions (ctx : Ctx) : Effects (H := H) (list Tx) := {|
  needs X op l := True;
  turns X op l x l' := answered ctx op x /\ l' = l ++ tx_of op;
|}.

(** A path through a program: its transmissions and its result. *)
Inductive path (ctx : Ctx) {A : Type} : Prog A -> list Tx -> A -> Prop :=
| path_ret a : path ctx (Ret a) [] a
| path_vis X (op : Op X) k x txs a :
    answered ctx op x -> path ctx (k x) txs a -> path ctx (Vis op k) (tx_of op ++ txs) a.

Lemma wp_path ctx {A} (p : Prog A) txs a : path ctx p txs a -> forall l Q,
  wp (E := transmissions ctx) p l Q -> Q a (l ++ txs).
Proof.
  induction 1 as [a|X op k x txs a Hx _ IH]; intros l Q; [by rewrite app_nil_r|].
  intros [_ Hk]. rewrite app_assoc. apply IH, Hk. by split.
Qed.

Section spec.
Context (ctx : Ctx).
#[local] Existing Instance transmissions.

(** The caller's wish for HTTP/3 and nothing else. *)
Definition strict_h3 : Prop :=
  version ctx = Http3Only /\ intent (policy ctx) <> H2Only /\ fallback (policy ctx) = NoFallback.

Definition tx_ok (t : Tx) : Prop :=
  (version ctx = Http1Only -> t = TxH1) /\
  (strict_h3 -> t = TxH3 \/ t = TxEarly) /\
  (t = TxEarly -> can_send_early_data (method ctx) (idempotency ctx) = true).

(** At most [n] transmissions, all of them allowed. *)
Definition emits {A} (n : nat) (p : Prog A) : Prop :=
  forall l, wp (E := transmissions ctx) p l (fun _ l' => exists t, l' = l ++ t /\ (length t <= n)%nat /\ Forall tx_ok t).

Lemma emits_ret {A} n (a : A) : emits n (Ret a).
Proof. intros l. exists []. rewrite app_nil_r. split_and!; [done|cbn; lia|constructor]. Qed.
Lemma emits_weaken {A} n m (p : Prog A) : (n <= m)%nat -> emits n p -> emits m p.
Proof. intros Hle Hp l. eapply wp_mono; [|apply Hp]. intros a l' (t & ? & ? & ?). exists t. split_and!; [done|lia|done]. Qed.
Lemma emits_bind {A B} n m (p : Prog A) (k : A -> Prog B) :
  emits n p -> (forall a, emits m (k a)) -> emits (n + m) (bind p k).
Proof.
  intros Hp Hk l. apply wp_bind. eapply wp_mono; [|apply Hp]. intros a l' (t & -> & Hl & Hf).
  eapply wp_mono; [|apply (Hk a)]. intros b l'' (t' & -> & Hl' & Hf'). exists (t ++ t').
  rewrite <- app_assoc, length_app. split_and!; [done|lia|by apply Forall_app].
Qed.
Lemma emits_vis {X A} n m (op : Op X) (k : X -> Prog A) :
  (length (tx_of op) <= n)%nat -> Forall tx_ok (tx_of op) -> (forall x, answered ctx op x -> emits m (k x)) ->
  emits (n + m) (Vis op k).
Proof.
  intros Hl Hf Hk l. split; [done|]. intros x l' [Hx ->]. eapply wp_mono; [|apply (Hk x Hx)].
  intros b l'' (t & -> & Hl' & Hf'). exists (tx_of op ++ t).
  rewrite <- app_assoc, length_app. split_and!; [done|lia|by apply Forall_app].
Qed.
Lemma emits_silent {X A} m (op : Op X) (k : X -> Prog A) :
  tx_of op = [] -> (forall x, answered ctx op x -> emits m (k x)) -> emits m (Vis op k).
Proof. intros Ht. apply (emits_vis 0); rewrite Ht; [done|constructor]. Qed.
Lemma emits_do {X} n (op : Op X) : (length (tx_of op) <= n)%nat -> Forall tx_ok (tx_of op) -> emits n (do op).
Proof. intros. eapply (emits_weaken (n + 0)); [lia|]. apply emits_vis; [done..|]. intros x _. apply emits_ret. Qed.
Lemma emits_try {A B} n m (p : Prog (Res A)) (k : A -> Prog (Res B)) :
  emits n p -> (forall a, emits m (k a)) -> emits (n + m) (try_ p k).
Proof. intros Hp Hk. apply emits_bind; [done|]. intros []; auto using emits_ret. Qed.
Lemma emits_dropping {B} n (r : Res B) : emits n (dropping (H := H) r).
Proof. apply emits_silent; [done|]. intros. apply emits_ret. Qed.
Lemma emits_try_drop {A B} n m (p : Prog (Res A)) (k : A -> Prog (Res B)) :
  emits n p -> (forall a, emits m (k a)) -> emits (n + m) (try_drop p k).
Proof. intros Hp Hk. apply emits_bind; [done|]. intros []; auto using emits_dropping. Qed.
Lemma emits_reserve : emits 0 (reserve_connection (H := H)).
Proof. apply emits_silent; [done|]. intros. apply emits_ret. Qed.

(** One step of such a proof; a transmission leaves its permission as a goal. *)
Ltac emits_step :=
  lazymatch goal with
  | |- emits _ (let '(_, _) := ?x in _) => destruct x
  | |- emits _ (match ?x with _ => _ end) => destruct x
  | |- emits _ (Ret _) => apply emits_ret
  | |- emits _ (dropping _) => apply emits_dropping
  | |- emits _ reserve_connection => apply emits_reserve
  | |- emits 0 (do _) => apply emits_do; [cbn; lia|constructor]
  | |- emits ?n (try_ reserve_connection _) => apply (emits_try 0 n); [apply emits_reserve|intros ?]
  | |- emits ?n (Vis _ _) => apply emits_silent; [done|intros ? ?]
  end.
Ltac emits_auto := repeat emits_step.

(** ** The functions *)

Lemma send_h1_emits sender task : tx_ok TxH1 -> emits 1 (send_h1_request sender task).
Proof.
  intros Hok. unfold send_h1_request. apply (emits_vis 1 0); [done|by constructor|].
  intros [resp|e|] _; [destruct (connection_close resp)|..]; emits_auto.
  apply (emits_bind 0 0); intros; emits_auto.
Qed.
Lemma handshake_emits : tx_ok TxH1 -> emits 1 handshake_h1_and_send.
Proof. intros Hok. apply (emits_try_drop 0 1); [emits_auto|]. intros [s t]. by apply send_h1_emits. Qed.

Lemma h1_ok : ~ strict_h3 -> tx_ok TxH1.
Proof. by intros Hs; split_and!. Qed.
Lemma h2_ok : ~ strict_h3 -> version ctx <> Http1Only -> tx_ok TxH2.
Proof. by intros Hs Hv; split_and!. Qed.
Lemma h3_ok : version ctx <> Http1Only -> tx_ok TxH3.
Proof. intros Hv; split_and!; [done|by left|done]. Qed.
Lemma early_ok : version ctx <> Http1Only -> can_send_early_data (method ctx) (idempotency ctx) = true -> tx_ok TxEarly.
Proof. intros Hv He; split_and!; [done|by right|done]. Qed.

Lemma cleartext_emits : ~ strict_h3 -> emits 1 (send_cleartext show ctx).
Proof.
  intros Hs. unfold send_cleartext. destruct (validate _); [|emits_auto..].
  destruct (version ctx) eqn:Ev; try (by apply handshake_emits, h1_ok); [|emits_auto].
  apply (emits_try 0 1).
  - unfold establish_h2_and_pool. apply (emits_bind 0 0); [|intros; emits_auto].
    apply (emits_try_drop 0 0); [emits_auto|]. intros [sender task]. emits_auto.
    apply (emits_try 0 0); intros; emits_auto.
  - intros sender. apply emits_do; [done|]. constructor; [|constructor]. apply h2_ok; [done|congruence].
Qed.

Lemma h2_first_emits : ~ strict_h3 -> version ctx <> Http1Only ->
  emits 1 (try_ establish_h2_with_first_request (fun _ => do NFirstResponse)).
Proof.
  intros Hs Hv. apply (emits_try 1 0); [|intros; emits_auto].
  apply (emits_try_drop 1 0); [apply emits_do; [done|constructor; [by apply h2_ok|constructor]]|].
  intros [sender task]. emits_auto.
Qed.

Lemma tcp_emits : ~ strict_h3 -> emits 2 (establish_and_send_tcp show ctx).
Proof.
  intros Hs. unfold establish_and_send_tcp. emits_step. apply (emits_try_drop 0 2); [emits_auto|]. intros conn.
  case_bool_decide.
  { destruct (plain conn); [|emits_auto]. apply (emits_weaken 1); [lia|]. by apply cleartext_emits. }
  destruct (should_use_h2 _ _) as [[]|e|] eqn:Eu; [| |emits_auto..].
  - assert (Hv : version ctx <> Http1Only) by (intros Hv; unfold should_use_h2 in Eu; by rewrite Hv in Eu).
    apply (emits_bind 1 1); [by apply h2_first_emits|]. intros [r|e|]; [emits_auto| |emits_auto].
    destruct (_ && _); [|emits_auto]. emits_step. apply (emits_try_drop 0 1); [emits_auto|].
    intros _. by apply handshake_emits, h1_ok.
  - apply (emits_weaken 1); [lia|]. by apply handshake_emits, h1_ok.
Qed.

Lemma pool_h3_emits d sender driver : version ctx <> Http1Only -> emits 1 (pool_h3_and_send d sender driver).
Proof.
  intros Hv. unfold pool_h3_and_send. emits_auto. apply emits_do; [done|]. constructor; [by apply h3_ok|constructor].
Qed.
Lemma establish_h3_emits : emits 0 (establish_h3_connection (H := H)).
Proof.
  unfold establish_h3_connection. apply (emits_bind 0 0); [emits_auto|]. intros [[]| |]; emits_auto.
Qed.

Lemma zero_rtt_emits d :
  version ctx <> Http1Only -> can_send_early_data (method ctx) (idempotency ctx) = true -> emits 2 (zero_rtt_branch ctx d).
Proof.
  intros Hv He. unfold zero_rtt_branch.
  apply (emits_bind 1 1); [apply emits_do; [done|constructor; [by apply early_ok|constructor]]|].
  intros [[[sender driver] [resp|]]|e|]; [emits_auto| | |emits_auto].
  - emits_step. apply (emits_try_drop 0 1); [apply establish_h3_emits|]. intros [s t]. by apply pool_h3_emits.
  - destruct (_ && _); [|emits_auto]. apply (emits_try_drop 0 1); [apply establish_h3_emits|]. intros [s t].
    emits_step. by apply pool_h3_emits.
Qed.

Lemma connect_quic_emits d : version ctx <> Http1Only -> emits 2 (connect_quic show ctx d).
Proof.
  intros Hv. unfold connect_quic. apply emits_silent; [done|]. cbn [bind].
  intros [[sender driver|]|e|] Ha; [| | |emits_auto].
  - apply (emits_weaken 1); [lia|]. by apply pool_h3_emits.
  - destruct (can_send_early_data _ _) eqn:Ee; [by apply zero_rtt_emits|done].
  - apply (emits_bind 0 2); [destruct (is_quic_handshake_failure e); emits_auto|]. intros _.
    destruct (_ && _) eqn:Ef; [|emits_auto]. apply andb_true_iff in Ef as [_ Ef].
    apply (emits_bind 2 0); [|intros; emits_auto]. apply tcp_emits. intros (_ & _ & Hno).
    unfold fallback_permitted in Ef. by rewrite Hno in Ef.
Qed.

Lemma quic_emits d : version ctx <> Http1Only -> emits 2 (establish_and_send_quic show ctx d).
Proof.
  intros Hv. unfold establish_and_send_quic.
  assert (Hg : emits 2 (guarded_quic show ctx d)).
  { unfold guarded_quic. emits_step. apply (emits_bind 2 0); [|intros; emits_auto]. emits_step.
    by apply connect_quic_emits. }
  emits_step. destruct x as [notify|]; [|done]. do 3 emits_step. destruct x1 as [sender|]; [|done].
  apply (emits_weaken 1); [lia|]. apply emits_do; [done|]. constructor; [by apply h3_ok|constructor].
Qed.

Lemma decide_tcp_not_strict d : decide_protocol (version ctx) (policy ctx) d = DTcp -> ~ strict_h3.
Proof.
  intros Hd (Hv & Hi & _). revert Hd. unfold decide_protocol. rewrite Hv. cbn.
  rewrite (bool_decide_eq_false_2 (intent (policy ctx) = H2Only)) by done. cbn. by rewrite orb_true_r.
Qed.
Lemma decide_not_tcp d : decide_protocol (version ctx) (policy ctx) d <> DTcp -> version ctx <> Http1Only.
Proof. intros Hd Hv. apply Hd. unfold decide_protocol. by rewrite Hv. Qed.

Lemma establish_emits : emits 2 (establish_and_send show ctx).
Proof.
  unfold establish_and_send. destruct (validate _); [|emits_auto..]. destruct (_ && _); [emits_auto|]. emits_step.
  destruct (decide_protocol _ _ _) eqn:Ed.
  - apply (emits_bind 2 0); [by apply tcp_emits, (decide_tcp_not_strict x)|]. intros [r|e|]; [|emits_auto..].
    destruct (should_background_probe _ _); emits_auto.
  - apply (emits_bind 2 0); [|intros; emits_auto]. apply quic_emits, (decide_not_tcp x). congruence.
  - emits_auto.
Qed.

Lemma or_again_emits remove p : emits 1 p -> emits 3 (or_again show ctx remove p).
Proof.
  intros Hp. apply (emits_bind 1 2); [done|]. intros [r|e|]; [emits_auto| |emits_auto].
  destruct (_ && _); [|emits_auto]. destruct remove; [emits_step|]; apply establish_emits.
Qed.

Lemma single_request_emits : emits 3 (send_single_request_inner show ctx).
Proof.
  unfold send_single_request_inner. destruct (validate _); [|emits_auto..].
  apply emits_silent; [done|]. intros c Hc. cbn [answered] in Hc.
  assert (Hest : emits 3 (establish_and_send show ctx)) by (apply (emits_weaken 2); [lia|apply establish_emits]).
  destruct c as [[sender|sender|sender task]|]; [| | |done].
  - apply emits_silent; [done|]. intros [[]|e|] _; [|emits_step; apply Hest|emits_auto].
    apply or_again_emits, emits_do; [done|]. constructor; [|constructor].
    apply h2_ok; [intros (Hv & _)|intros Hv]; by rewrite Hv in Hc.
  - apply or_again_emits, emits_do; [done|]. constructor; [|constructor]. apply h3_ok. intros Hv. by rewrite Hv in Hc.
  - assert (Hs : ~ strict_h3) by (intros (Hv & _); by rewrite Hv in Hc).
    apply emits_silent; [done|]. intros [[]|e|] _; [|do 2 emits_step; apply Hest|emits_auto].
    by apply or_again_emits, send_h1_emits, h1_ok.
Qed.
End spec.

(** The pool answers as assumed. *)
Lemma try_acquire_answered {R : Type} {CK : Clock R} ctx p w (r : R) x p' w' r' :
  try_acquire_pooled (version ctx) (key ctx) p w r = (x, p', w', r') -> answered ctx SAcquire x.
Proof.
  cbn [answered]. unfold try_acquire_pooled. destruct (version ctx); [by destruct x as [[]|]|..].
  - unfold try_acquire_h1_pooled_internal. destruct (evict_idle _ _ _ _) as [[[? ?] ?] ?].
    destruct (try_acquire_h1 _ _) as [[e|] ?]; intros [= <- _ _ _]; done.
  - unfold try_acquire_h2_pooled_internal. destruct (evict_idle _ _ _ _) as [[[? ?] ?] ?].
    destruct (try_acquire_h2 _ _ _) as [[[e|] ?] ?]; intros [= <- _ _ _]; done.
  - unfold try_acquire_h3_pooled_internal. destruct (evict_idle _ _ _ _) as [[[? ?] ?] ?].
    destruct (try_acquire_h3 _ _ _) as [[[e|] ?] ?]; intros [= <- _ _ _]; done.
  - unfold try_acquire_h3_pooled_internal. destruct (evict_idle _ _ _ _) as [[[? ?] ?] ?].
    destruct (try_acquire_h3 _ _ _) as [[[e|] ?] ?]; intros [= <- _ _ _]; done.
Qed.

(** C8. What a request puts on the wire before it ends or starts a race: at most
    three transmissions, on every path through pooled connections, resends and fallbacks;
    with a preference for HTTP/1.1 all of them are HTTP/1.1; with HTTP/3 only, no HTTP/2
    intent and no fallback in the policy, all of them are HTTP/3; and nothing goes out as
    early data unless the method or the caller allows a replay. *)
Theorem transmissions_disciplined (ctx : Ctx) txs f :
  path ctx (send_single_request_inner show ctx) txs f ->
  (length txs <= 3)%nat /\
  forall t, t ∈ txs ->
    (version ctx = Http1Only -> t = TxH1) /\
    (version ctx = Http3Only -> intent (policy ctx) <> H2Only -> fallback (policy ctx) = NoFallback ->
       t = TxH3 \/ t = TxEarly) /\
    (t = TxEarly -> can_send_early_data (method ctx) (idempotency ctx) = true).
Proof.
  intros Hp. destruct (wp_path ctx _ _ _ Hp [] _ (single_request_emits ctx [])) as (t & Ht & Hl & Hf).
  cbn [app] in Ht. subst t. split; [done|]. intros t Hin. rewrite Forall_forall in Hf.
  destruct (Hf t Hin) as (H1 & H2 & H3). split_and!; [done| |done]. intros ? ? ?. by apply H2.
Qed.

(** C24. Resends ignore idempotency and a forced version.  With the default
    fallbacks, a request of any method, marked idempotent or not, that insists on HTTP/2
    can be transmitted three times: on a pooled HTTP/2 connection that closes under it, on a
    fresh one whose response is lost, and finally over HTTP/1.1, whose response
    is returned. *)
Theorem resends_escape (ctx : Ctx) (resp : Response (H := H)) :
  fallback_config ctx = default_fallback -> version ctx = Http2Only -> ck_scheme (key ctx) = Https ->
  validate (policy ctx) = Ok tt ->
  path ctx (send_single_request_inner show ctx) [TxH2; TxH2; TxH1] (Done (Ok resp)).
Proof.
  intros Hf Hv Hs Hp. unfold send_single_request_inner. rewrite Hp.
  set (closed := ConnectionClosed HttpRequest Goaway []).
  apply (path_vis ctx _ SAcquire _ (Some (AcquiredH2 0)) [TxH2; TxH2; TxH1]); [cbn; by rewrite Hv|].
  apply (path_vis ctx _ (NReadyH2 0) _ (Ok tt) [TxH2; TxH2; TxH1]); [done|].
  apply (path_vis ctx _ (NSendH2 0) _ (Err closed) [TxH2; TxH1]); [done|]. cbn [bind]. rewrite Hf. cbn.
  apply (path_vis ctx _ SRemove _ tt [TxH2; TxH1]); [done|]. unfold establish_and_send. rewrite Hp, Hv. cbn.
  apply (path_vis ctx _ NDiscover _ (skipped (ck_route (key ctx)) (mkOrigin Https [] 0) HttpVersionPreference) [TxH2; TxH1]); [done|].
  assert (Hd : forall d, decide_protocol Http2Only (policy ctx) d = DTcp).
  { intros d. unfold decide_protocol. cbn. by rewrite orb_true_r. }
  rewrite Hd. unfold establish_and_send_tcp. rewrite Hs, Hv, Hf. cbn.
  apply (path_vis ctx _ SReserve _ (inl tt) [TxH2; TxH1]); [done|]. cbn.
  apply (path_vis ctx _ (NConnect false) _ (Ok (mkConn (Some (ascii_bytes "h2")) false)) [TxH2; TxH1]); [done|]. cbn.
  apply (path_vis ctx _ (NConnectH2 true) _ (Ok (0, 0)) [TxH1]); [done|]. cbn.
  apply (path_vis ctx _ (SInsertH2 0 0) _ tt [TxH1]); [done|]. cbn.
  apply (path_vis ctx _ (NReadyH2 0) _ (Ok tt) [TxH1]); [done|]. cbn.
  apply (path_vis ctx _ NFirstResponse _ (Err (H2 [])) [TxH1]); [done|]. cbn.
  apply (path_vis ctx _ SReserve _ (inl tt) [TxH1]); [done|]. cbn.
  apply (path_vis ctx _ (NConnect true) _ (Ok (mkConn None false)) [TxH1]); [done|]. cbn.
  apply (path_vis ctx _ NHandshakeH1 _ (Ok (0, 0)) [TxH1]); [done|]. cbn.
  apply (path_vis ctx _ (NSendH1 0) _ (Ok resp) []); [done|]. cbn. destruct (connection_close resp); cbn.
  - apply (path_vis ctx _ (NMakeResponse resp) _ (Ok resp) []); [done|]. cbn.
    apply (path_vis ctx _ (SDropH1 0) _ tt []); [done|]. cbn. destruct (should_background_probe _ _); [|constructor].
    apply (path_vis ctx _ (SProbe true) _ tt []); [done|constructor].
  - apply (path_vis ctx _ (SReturnH1 0 0) _ tt []); [done|]. cbn.
    apply (path_vis ctx _ (NMakeResponse resp) _ (Ok resp) []); [done|]. cbn.
    destruct (should_background_probe _ _); [|constructor].
    apply (path_vis ctx _ (SProbe true) _ tt []); [done|constructor].
Qed.
End version.
End transport_version.
