(* ===== verification/TransportCoalesce.v ===== *)
(** * Coalesced handshakes

    A request that finds a QUIC handshake in flight takes the [Notify] under the lock and
    asks to be notified after releasing it.  A ticket whose [Notify] is no longer in the
    table is never woken. *)
From S2P Require Import Prelude Text LkError Route SessionStore AltSvc AltSvcProps BrokenQuic Pipeline Retry Hsts Pool PoolProps HttpLib Redirect Transport TransportProps TransportSys.
Import lk_error route protocol alt_svc alt_svc_props broken_quic pipeline pipeline_props retry pool pool_props
  redirect transport transport_props transport_sys.

Module transport_coalesce.

Section coalesce.
Context {H : Type} {HM : HeaderMap H}.
Context {R : Type} {CK : Clock R} {HO : HashOrder} {HL : HashOrderLaws HO}.
Variable show : Error -> bytes.
Notation Shared := (@Shared R).

(** A ticket that waits for a [Notify] nobody can find any more. *)
Record stranded (ticket n : Z) (g : Shared) : Prop := mkStranded {
  st_ticket : tickets g !! ticket = Some (n, false);
  st_old : n < next_notify g;
  st_gone k : in_flight g !! k <> Some n;
}.

Lemma stranded_sys ticket n s g : stranded ticket n g -> stranded ticket n (with_sys s g).
Proof. by intros []. Qed.
Lemma stranded_drop ticket n k g : stranded ticket n g -> stranded ticket n (drop_guard k g).
Proof.
  intros [Ht Ho Hg]. unfold drop_guard. destruct (in_flight g !! k) as [m|] eqn:E; [|done].
  constructor; cbn [tickets next_notify in_flight].
  - rewrite lookup_fmap, Ht. cbn. do 2 f_equal. apply Z.eqb_neq. intros ->. by apply (Hg k).
  - done.
  - intros k' [_ Hk]%lookup_delete_Some. by apply (Hg k').
Qed.
Lemma stranded_shared ctx X (op : Op (H := H) X) ticket n g x g' :
  shared_sem ctx op g x g' -> stranded ticket n g -> stranded ticket n g'.
Proof.
  intros Hs Hst. destruct op; cbn [shared_sem] in Hs; try (by subst).
  - by destruct Hs as [-> _].
  - subst. by destruct Hst.
  - destruct Hs as [_ ->]. destruct Hst as [Ht Ho Hg]. destruct (in_flight g !! key ctx); [done|].
    constructor; cbn [tickets next_notify in_flight]; [done|lia|].
    intros k [[_ E]|[_ Hk]]%lookup_insert_Some; [lia|by apply (Hg k)].
  - destruct Hs as [-> ->]. destruct Hst as [Ht Ho Hg]. constructor; cbn [tickets next_notify in_flight]; [|done|done].
    rewrite lookup_insert_ne; [done|]. intros E.
    apply (is_fresh (dom (tickets g))). rewrite E. apply elem_of_dom. by rewrite Ht.
  - subst. by apply stranded_drop.
Qed.
Lemma stranded_leg ctx A ticket n g l (p : Prog (H := H) A) g' l' p' :
  leg_step ctx g l p g' l' p' -> stranded ticket n g -> stranded ticket n g'.
Proof.
  destruct p as [a|X op k]; [done|]. intros (x & (s' & g1 & _ & Hs & -> & _) & _) Hst.
  by eapply stranded_sys, stranded_shared.
Qed.
Lemma stranded_release ctx l ticket n (g g' : Shared) : release ctx l g g' -> stranded ticket n g -> stranded ticket n g'.
Proof.
  intros (o & _ & ->) Hst. destruct (l_guard l); [apply stranded_drop|]; by apply stranded_sys.
Qed.
Lemma stranded_req ctx ticket n g r g' r' :
  req_step show ctx g r g' r' -> stranded ticket n g -> stranded ticket n g'.
Proof. destruct 1; eauto using stranded_leg, stranded_release. Qed.

(** A request blocked on such a ticket can only be dropped. *)
Lemma stranded_blocked ctx ticket n g k r g' :
  stranded ticket n g -> req_step show ctx g (RPlain nothing (Vis (NWait ticket) k)) g' r -> r = RDone None.
Proof.
  intros [Ht _ _] Hst. remember (RPlain nothing (Vis (NWait ticket) k)) as r0 eqn:E.
  destruct Hst; try done; injection E as -> ->.
  destruct H0 as (x & (s' & g1 & _ & [_ (m & Hm)] & _) & _). congruence.
Qed.

Lemma stranded_forever ticket n st st' :
  rtc (session_step show) st st' -> stranded ticket n st.1 -> stranded ticket n st'.1.
Proof.
  induction 1 as [|x y z Hst _ IH]; [done|]. intros Hs. apply IH.
  destruct Hst as [g rs ctx j|g rs1 ctx r rs2 g' r' Hreq|g rs s' _]; cbn [fst] in *; [done| |by apply stranded_sys].
  by eapply stranded_req.
Qed.

(** ** Such a state is reachable *)

Definition h3_only : ProtocolPolicy := mkPolicy H3Only EstablishBestAvailable Off NoFallback.
Definition h3_ctx (k : ConnectionKey) : Ctx :=
  mkCtx (ascii_bytes "GET") IDefault k h3_only Http3Only true default_fallback default_chrome_like.

Lemma empty_pool_acquire max k (r : R) :
  exists r', try_acquire_h3_pooled_internal k (with_max_total max) (mkWorld ∅ 0) r = (None, with_max_total max, mkWorld ∅ 0, r').
Proof.
  unfold try_acquire_h3_pooled_internal, evict_idle. destruct (instant_now r) as [now r1]. by exists r1.
Qed.

(** An effect of one of two requests that leaves the pool alone. *)
Lemma plain_step ctx (g : Shared) X (op : Op (H := H) X) kont l x g1 l' rs1 rs2 :
  sys_sem (R := R) ctx op (sys g) x (sys g) -> shared_sem ctx op g x g1 -> sys g1 = sys g -> turns op l x l' ->
  session_step show (g, rs1 ++ (ctx, RPlain l (Vis op kont)) :: rs2) (g1, rs1 ++ (ctx, RPlain l' (kont x)) :: rs2).
Proof.
  intros Hs Hg He Ht. apply ss_request, rs_plain. exists x. split; [|done]. exists (sys g), g1. split_and!; [done..| |done].
  rewrite <- He. by destruct g1.
Qed.

Definition after_acquire (ctx : Ctx) : Prog (H := H) Final := establish_and_send show ctx.

Lemma request_acquires max (ln : Learned (R := R)) fl nn tk k rs1 rs2 :
  session_step show
    (mkShared (init max) ln fl nn tk, rs1 ++ (h3_ctx k, RPlain nothing (job_prog show (h3_ctx k) JRequest)) :: rs2)
    (mkShared (init max) ln fl nn tk, rs1 ++ (h3_ctx k, RPlain nothing (after_acquire (h3_ctx k))) :: rs2).
Proof.
  apply ss_request. unfold job_prog, send_single_request_inner. cbn [policy h3_ctx]. change (validate h3_only) with (Ok (E := Error) tt).
  apply rs_plain. exists None. split; [|done]. exists (init max). eexists. split_and!; [|done|done|done].
  destruct (empty_pool_acquire max k (ln_env ln)) as [r' Hr]. by exists (ln_env ln), r', (with_max_total max), (mkWorld ∅ 0).
Qed.

(** Where the two requests stand before and after the table is consulted. *)
Definition at_table (k : ConnectionKey) (d : QuicDiscovery) : Prog (H := H) Final :=
  finish (establish_and_send_quic show (h3_ctx k) d).
Definition with_guard_next (k : ConnectionKey) (d : QuicDiscovery) : Prog (H := H) Final :=
  finish (guarded_quic show (h3_ctx k) d).
Definition about_to_subscribe (k : ConnectionKey) (d : QuicDiscovery) (notify : Z) : Prog (H := H) Final :=
  finish (Vis (SSubscribe notify) (fun ticket => Vis (NWait ticket) (fun _ => Vis STryH3 (fun pooled =>
    match pooled with Some sender => send_h3_request sender | None => guarded_quic show (h3_ctx k) d end)))).

Lemma at_table_unfold k d :
  at_table k d = Vis SInFlight (fun wait => finish (match wait with
    | Some notify => Vis (SSubscribe notify) (fun ticket => Vis (NWait ticket) (fun _ => Vis STryH3 (fun pooled =>
        match pooled with Some sender => send_h3_request sender | None => guarded_quic show (h3_ctx k) d end)))
    | None => guarded_quic show (h3_ctx k) d
    end)).
Proof. reflexivity. Qed.

Lemma discovers (g : Shared) k d rs1 rs2 :
  session_step show (g, rs1 ++ (h3_ctx k, RPlain nothing (after_acquire (h3_ctx k))) :: rs2)
    (g, rs1 ++ (h3_ctx k, RPlain nothing (at_table k d)) :: rs2).
Proof. by apply (plain_step (h3_ctx k) g _ NDiscover _ nothing d g nothing). Qed.
Lemma registers max (ln : Learned (R := R)) k d rs1 rs2 :
  session_step show (mkShared (init max) ln ∅ 0 ∅, rs1 ++ (h3_ctx k, RPlain nothing (at_table k d)) :: rs2)
    (mkShared (init max) ln {[k := 0]} 1 ∅, rs1 ++ (h3_ctx k, RPlain nothing (with_guard_next k d)) :: rs2).
Proof. rewrite at_table_unfold. by refine (plain_step (h3_ctx k) _ _ SInFlight _ nothing None _ nothing rs1 rs2 _ _ _ _). Qed.
Lemma finds max (ln : Learned (R := R)) k d rs1 rs2 :
  session_step show (mkShared (init max) ln {[k := 0]} 1 ∅, rs1 ++ (h3_ctx k, RPlain nothing (at_table k d)) :: rs2)
    (mkShared (init max) ln {[k := 0]} 1 ∅, rs1 ++ (h3_ctx k, RPlain nothing (about_to_subscribe k d 0)) :: rs2).
Proof.
  rewrite at_table_unfold. refine (plain_step (h3_ctx k) _ _ SInFlight _ nothing (Some 0) _ nothing rs1 rs2 _ _ _ _); try done.
  cbn [shared_sem in_flight key h3_ctx]. by rewrite lookup_singleton_eq.
Qed.

(** The first request takes its guard and is dropped. *)
Lemma leaves max (ln : Learned (R := R)) k d rs1 rs2 :
  rtc (session_step show)
    (mkShared (init max) ln {[k := 0]} 1 ∅, rs1 ++ (h3_ctx k, RPlain nothing (with_guard_next k d)) :: rs2)
    (mkShared (init max) ln ∅ 1 ∅, rs1 ++ (h3_ctx k, RDone None) :: rs2).
Proof.
  eapply rtc_l.
  - refine (plain_step (h3_ctx k) _ _ SGuard _ nothing tt (mkShared (init max) ln {[k := 0]} 1 ∅) (with_guard true nothing) rs1 rs2 _ _ _ _); done.
  - apply rtc_once, ss_request. eapply (rs_cancel_one _ _ _ _ (with_guard true nothing)); [done|].
    exists []. split; [done|]. cbn [with_guard l_guard l_dial l_out nothing sys with_sys]. unfold drop_guard.
    cbn [in_flight with_sys key h3_ctx sys learned next_notify tickets]. rewrite lookup_singleton_eq, delete_singleton_eq. done.
Qed.

Definition the_ticket : Z := fresh (dom (∅ : gmap Z (Z * bool))).
Definition waiting (k : ConnectionKey) (d : QuicDiscovery) (_ : unit) : Prog (H := H) Final :=
  finish (Vis STryH3 (fun pooled =>
    match pooled with Some sender => send_h3_request sender | None => guarded_quic show (h3_ctx k) d end)).

(** The second one subscribes to what it took from the table. *)
Lemma subscribes max (ln : Learned (R := R)) k d rs1 rs2 :
  session_step show
    (mkShared (init max) ln ∅ 1 ∅, rs1 ++ (h3_ctx k, RPlain nothing (about_to_subscribe k d 0)) :: rs2)
    (mkShared (init max) ln ∅ 1 {[the_ticket := (0, false)]},
     rs1 ++ (h3_ctx k, RPlain nothing (Vis (NWait the_ticket) (waiting k d))) :: rs2).
Proof.
  refine (plain_step (h3_ctx k) _ _ (SSubscribe 0) _ nothing the_ticket _ nothing rs1 rs2 _ _ _ _); done.
Qed.

(** C13. A coalesced QUIC handshake can lose its wake-up.  For every key there is a
    run of two requests in which the second, having found the first one's handshake in
    flight, subscribes to its [Notify] only after the first one has given up and left: from
    then on no run of the session, whatever other requests do, ever wakes it; its caller
    waits until the total timeout drops it. *)
Theorem coalesced_wait_lost (max : Z) (ln : Learned (R := R)) (k : ConnectionKey) :
  exists g rs ctx cont ticket n,
    key ctx = k /\
    rtc (session_step show) (start max ln, []) (g, rs ++ [(ctx, RPlain nothing (Vis (NWait ticket) cont))]) /\
    forall g' rs', rtc (session_step show) (g, rs ++ [(ctx, RPlain nothing (Vis (NWait ticket) cont))]) (g', rs') ->
      tickets g' !! ticket = Some (n, false).
Proof.
  set (d := skipped (ck_route k) (mkOrigin Https [] 0) HttpVersionPreference).
  exists (mkShared (init max) ln ∅ 1 {[the_ticket := (0, false)]}), [(h3_ctx k, RDone None)], (h3_ctx k),
    (waiting k d), the_ticket, 0. split_and!; [done| |].
  - do 2 (eapply rtc_l; [apply (ss_spawn _ _ _ (h3_ctx k) JRequest)|]).
    eapply rtc_l; [apply (request_acquires max ln ∅ 0 ∅ k [])|]. eapply rtc_l; [apply (discovers _ k d [])|].
    eapply rtc_l; [apply (registers max ln k d [])|].
    eapply rtc_l; [apply (request_acquires max ln _ _ _ k [_] [])|]. eapply rtc_l; [apply (discovers _ k d [_] [])|].
    eapply rtc_l; [apply (finds max ln k d [_] [])|]. etrans; [apply (leaves max ln k d [] [_])|].
    apply rtc_once, (subscribes max ln k d [_] []).
  - intros g' rs' Hr. eapply (stranded_forever _ 0) in Hr; [by destruct Hr|].
    constructor; cbn [fst tickets next_notify in_flight]; [by rewrite lookup_singleton_eq|lia|].
    intros k'. by rewrite lookup_empty.
Qed.
End coalesce.
End transport_coalesce.
