(* ===== verification/RequestDemo.v ===== *)
(** * Concrete instances for the request layer

    A ticking clock, a hash order, a header map and a URL library small enough to
    compute with, and for each theorem of this layer a run it applies to. *)
From S2P Require Import Prelude Text LkError Route SessionStore SessionStoreProps AltSvc AltSvcProps BrokenQuic Pipeline Retry Hsts Pool PoolProps HttpLib Headers Redirect RedirectProps Transport TransportProps TransportSys TransportInv TransportVersion.
Import lk_error protocol proxy route alt_svc alt_svc_props broken_quic pipeline pipeline_props.

Module request_demo.

Definition tick := session_store_props.tick.
#[local] Existing Instance tick.
Definition tick_laws : ClockLaws Z tick := session_store_props.tick_laws.
#[local] Existing Instance tick_laws.

Definition list_order : HashOrder := fun K HE HC A m => map_to_list m.
#[local] Existing Instance list_order.
Lemma list_order_laws : HashOrderLaws list_order.
Proof. by intros K HE HC A m. Qed.
#[local] Existing Instance list_order_laws.

(** ** Alt-Svc and quarantine *)

Definition demo_route : RouteKey := from_proxy None.
Definition demo_origin : Origin := mkOrigin Https (ascii_bytes "a.example") 443.
Definition demo_header : bytes := ascii_bytes "h3=:8443".
Definition demo_cache_ops : list CacheOp := [OpStore demo_route demo_origin demo_header].

Lemma alt_svc_lookup_sound_witness :
  exists header pre post, demo_cache_ops = pre ++ OpStore demo_route demo_origin header :: post.
Proof.
  destruct (find_h3_for_route demo_route demo_origin (run demo_cache_ops 0).1 (run demo_cache_ops 0).2)
    as [[[e|] c'] r2] eqn:E; [|by vm_compute in E].
  destruct (alt_svc_lookup_sound demo_cache_ops 0 _ _ demo_route demo_origin e c' r2 (surjective_pairing _) E)
    as (header & pre & post & H & _).
  by exists header, pre, post.
Defined.

(** A header whose entry lives for no time at all. *)
Definition short_header : bytes := ascii_bytes "h3=:8443; ma=0".
Lemma alt_svc_lookup_complete_witness :
  exists e, e ∈ header_entries short_header 0 /\ h3_exact e /\ 0 + max_age e < 2000000000.
Proof.
  destruct (find_h3_for_route demo_route demo_origin (run [OpStore demo_route demo_origin short_header] 0).1
    (run [OpStore demo_route demo_origin short_header] 0).2) as [[[e|] c'] r2] eqn:E; [by vm_compute in E|].
  pose proof (alt_svc_lookup_complete [OpStore demo_route demo_origin short_header] 0 _ _ demo_route demo_origin c' r2
    short_header [] [] (surjective_pairing _) E eq_refl (List.Forall_nil _) eq_refl eq_refl) as H.
  vm_compute in E. injection E as _ <-. eexists.
  assert (Hin : ?[e] ∈ header_entries short_header 0) by (vm_compute; left).
  split_and!; [exact Hin|reflexivity|]. apply (H _ Hin). left. reflexivity.
Defined.

Definition demo_failures : list TrackerOp := [TMarkBroken demo_route demo_origin].
Lemma quarantine_refines_witness :
  exists tl, t_op <$> tl = demo_failures /\ timed_run (with_config default_config) 0 tl.
Proof.
  destruct (is_broken_for_route demo_route demo_origin (run_tracker default_config demo_failures 0).1
    (run_tracker default_config demo_failures 0).2) as [[b t'] r2] eqn:E.
  destruct (quarantine_refines default_config demo_failures 0 (run_tracker default_config demo_failures 0).1
    (run_tracker default_config demo_failures 0).2 demo_route demo_origin b t' r2)
    as (tl & H1 & H2 & _); [done|by vm_compute|by vm_compute|apply surjective_pairing|exact E|].
  by exists tl.
Defined.

(** ** Protocol selection *)

Definition demo_session : SessionConfig :=
  mkSessionConfig None (mkPolicy PreferH3 EstablishBestAvailable Off AllowFallback) VAuto true.
Definition demo_history : list (CacheOp + TrackerOp) := [inl (OpStore demo_route (new_origin Https (ascii_bytes "a.example") 443) demo_header)].
Definition no_https (h : bytes) (r : Z) : option HttpsRecord * Z := (None, r).
Lemma no_https_clock h r : horizon r <= horizon (no_https h r).2.
Proof. done. Qed.


Lemma dns_discovery_unused_witness :
  exists d c' t' r', discover_quic_support no_https demo_session cache_new (with_config default_config) Https
    (ascii_bytes "a.example") 443 None (s_protocol_policy demo_session) VAuto 0 = (d, c', t', r') /\
    decide_protocol VAuto (s_protocol_policy demo_session) d = DTcp.
Proof.
  destruct (discover_quic_support no_https demo_session cache_new (with_config default_config) Https
    (ascii_bytes "a.example") 443 None (s_protocol_policy demo_session) VAuto 0) as [[[d c'] t'] r'] eqn:E.
  exists d, c', t', r'. split; [done|].
  apply (dns_discovery_unused no_https demo_session cache_new (with_config default_config) Https
    (ascii_bytes "a.example") 443 None (s_protocol_policy demo_session) VAuto 0 d c' t' r' eq_refl E);
    vm_compute in E; injection E as <- _ _ _; done.
Defined.

(** ** Retries *)

(** A server that answers 503 whatever is sent. *)
Definition always_503 (r : Z) : Outcome Error Z * Z := (Ok 503, r + 1).
Definition retry_twice : retry.FixedInterval := retry.mkFixed 2 1000.

(** ** The pool *)

Import pool pool_props.

Definition demo_key : ConnectionKey := mkConnKey Https (ascii_bytes "a.example") 443 demo_route.
Lemma one_reserved : rtc step (init 1) (mkSys (with_max_total 1) (mkWorld ∅ 1) 1 []).
Proof. apply rtc_once, (step_reserve (with_max_total 1) (mkWorld ∅ 0) 0 [] true). reflexivity. Qed.

Lemma pool_permits_conserved_witness : connections_in_use (mkWorld ∅ 1) <= 1.
Proof. apply (pool_permits_conserved 1 _ ltac:(lia) one_reserved). Defined.

Lemma reserve_refused_only_when_full_witness :
  exists p' w', try_reserve_connection (with_max_total 1) (mkWorld ∅ 1) = (false, p', w') /\ connections_in_use w' = 1.
Proof.
  destruct (try_reserve_connection (with_max_total 1) (mkWorld ∅ 1)) as [[ok p'] w'] eqn:E.
  pose proof (reserve_refused_only_when_full 1 _ ok p' w' ltac:(lia) one_reserved E) as [H _].
  assert (ok = false) as -> by (vm_compute in E; congruence). exists p', w'. split; [done|]. by apply H.
Defined.

(** One thread reserves the only permit while another fails its exchange and is refused. *)
Lemma demo_threads : rtc (cas_step 1) (mkThreads 0 (replicate 2 Outside)) (mkThreads 1 [Holding; Outside]).
Proof.
  eapply rtc_l; [apply (cas_load 1 0 _ 0 0); reflexivity|].
  eapply rtc_l; [apply (cas_load 1 0 _ 1 0); reflexivity|].
  eapply rtc_l; [apply (cas_reserved 1 0 _ 0 0 false 1); reflexivity|].
  eapply rtc_l; [apply (cas_retry 1 1 _ 1 0 false 1); reflexivity|].
  eapply rtc_l; [apply (cas_none 1 1 _ 1 1 false); reflexivity|]. reflexivity.
Qed.
Lemma counter_linearises_witness : 1 = holders [Holding; Outside].
Proof. apply (counter_linearises 1 2 _ ltac:(lia) demo_threads). Defined.

(** ** Headers and URLs *)

Import headers headers_props redirect redirect_props.

Definition Fields : Type := list (bytes * bytes).
Definition visible_ascii (v : bytes) : option bytes :=
  if forallb (fun b => (32 <=? b) && (b <? 127)) v then Some v else None.
Definition list_fields : HeaderMap Fields := {|
  hm_new := [];
  hm_insert n v h := filter (fun nv => nv.1 <> n) h ++ [(n, v)];
  hm_append n v h := h ++ [(n, v)];
  hm_remove n h := filter (fun nv => nv.1 <> n) h;
  hm_get_all h n := values_of n h;
  hm_iter h := h;
  hm_drain h := (fun nv => (Some nv.1, nv.2)) <$> h;
  hv_to_str := visible_ascii;
  hv_from_str := visible_ascii;
|}.
#[local] Existing Instance list_fields.
Lemma fill_named (h : Fields) last : fill_names last ((fun nv => (Some nv.1, nv.2)) <$> h) = h.
Proof. revert last. induction h as [|[n v] h IH]; intros last; [done|]. cbn. by rewrite IH. Qed.
Lemma visible_ascii_same v s : visible_ascii v = Some s -> s = v.
Proof. unfold visible_ascii. case_match; congruence. Qed.
Lemma list_fields_laws : HeaderMapLaws Fields.
Proof.
  constructor; cbn -[values_of].
  - done.
  - intros n v h m. rewrite values_of_app, values_of_others, values_of_cons.
    case_bool_decide; [subst; by rewrite bool_decide_eq_true_2|]. rewrite bool_decide_eq_false_2 by done. by rewrite app_nil_r.
  - intros n v h m. rewrite values_of_app, values_of_cons. by repeat case_bool_decide; subst.
  - intros n h m. apply values_of_others.
  - done.
  - intros h n. by rewrite fill_named.
  - apply visible_ascii_same.
  - intros s v E. by apply visible_ascii_same.
Qed.
#[local] Existing Instance list_fields_laws.

(** A URL is a scheme and a host of one byte; [https] is written 49 (the digit 1). *)
Record ToyUrl : Type := mkUrl { toy_tls : bool; toy_host : Z }.
Definition toy_parse (s : bytes) : bytes + ToyUrl :=
  match s with
  | [t; h] => if t =? 49 then inr (mkUrl true h) else if t =? 48 then inr (mkUrl false h) else inl []
  | _ => inl []
  end.
Definition toy_url : UrlLib ToyUrl := {|
  url_parse := toy_parse;
  url_join _ s := toy_parse s;
  url_to_string u := [if toy_tls u then 49 else 48; toy_host u];
  HttpLib.url_scheme u := if toy_tls u then https else http;
  host_str u := Some [toy_host u];
  HttpLib.url_port _ := None;
  port_or_known_default u := Some (if toy_tls u then 443 else 80);
  url_path _ := [47];
  url_query _ := None;
  set_scheme s u := if bool_decide (s = https) then Some (mkUrl true (toy_host u)) else None;
  set_port _ u := Some u;
  append_pairs _ u := u;
|}.
#[local] Existing Instance toy_url.
Lemma toy_url_laws : UrlLaws ToyUrl.
Proof.
  constructor; cbn.
  - by intros [[] h].
  - intros u _. by exists (mkUrl true (toy_host u)).
  - intros u p h _. by exists u.
Qed.
#[local] Existing Instance toy_url_laws.

Definition demo_fields : Fields := [(AUTHORIZATION, ascii_bytes "secret"); (CONTENT_LENGTH, ascii_bytes "3")].
Lemma reorder_headers_stable_witness :
  hm_get_all (reorder_headers demo_fields [CONTENT_LENGTH]) AUTHORIZATION = [ascii_bytes "secret"].
Proof. exact (proj2 (reorder_headers_stable demo_fields [CONTENT_LENGTH]) AUTHORIZATION). Defined.

(** Host [A] redirects to host [B], which answers. *)
Definition server (r : Request (H := Fields)) (p : hsts.NoHsts) (w : unit) : Outcome Error Response * hsts.NoHsts * unit :=
  (Ok (if bool_decide (q_url r = ascii_bytes "1A") then mkResponse 303 [(LOCATION, ascii_bytes "1B")] [] [] []
       else mkResponse 200 [] [] [] []), p, w).
Definition demo_post : Request (H := Fields) :=
  mkRequest (ascii_bytes "1A") (ascii_bytes "POST") demo_fields (Some (ascii_bytes "abc")) [] [] 0.
Definition follow_ten : SessionSettings := mkSettings default_redirect_policy false.
Definition demo_chain := send_with_redirects (U := ToyUrl) (HP := hsts.no_hsts_policy) server follow_ten demo_post [] hsts.mkNoHsts ().



Lemma redirected_get_declares_length_witness :
  exists next history', next_hop (U := ToyUrl) demo_post [] (mkResponse 303 [(LOCATION, ascii_bytes "1B")] [] [] []) =
      Ok (inr (next, history')) /\ q_body next = None /\ hm_get_all (h1_request_headers (Some (ascii_bytes "abc")) hm_new (q_headers next) (mkUrl true 66) [] [] [] [] None)
      CONTENT_LENGTH = [ascii_bytes "3"].
Proof.
  destruct (next_hop (U := ToyUrl) demo_post [] (mkResponse 303 [(LOCATION, ascii_bytes "1B")] [] [] []))
    as [[|[next history']]|e|] eqn:E; [by vm_compute in E| |by vm_compute in E..].
  exists next, history'. split; [done|].
  apply (redirect_h1.redirected_get_declares_length demo_post [] (mkResponse 303 [(LOCATION, ascii_bytes "1B")] [] [] [])
    next history' (ascii_bytes "abc") (ascii_bytes "3") hm_new (mkUrl true 66) [] [] [] [] None E); [cbn; lia|done|reflexivity].
Defined.

(** ** Connections *)

Import transport transport_props transport_sys transport_inv transport_version.

Definition no_text (e : Error) : bytes := [].
Definition h2_ctx : Ctx :=
  mkCtx (ascii_bytes "POST") retry.NotIdempotent demo_key (mkPolicy PreferH3 EstablishBestAvailable Off AllowFallback) Http2Only
    false default_fallback default_chrome_like.
Definition answer : Response (H := Fields) := mkResponse 200 [] [] [] [].

Lemma resends_escape_witness :
  path (H := Fields) h2_ctx (send_single_request_inner no_text h2_ctx) [TxH2; TxH2; TxH1] (Done (Ok answer)).
Proof. apply (resends_escape no_text h2_ctx answer); reflexivity. Defined.

(** A GET that may only go over HTTP/1.1, on a pooled connection. *)
Definition h1_ctx : Ctx :=
  mkCtx (ascii_bytes "GET") retry.IDefault demo_key (mkPolicy PreferH3 EstablishBestAvailable Off AllowFallback) Http1Only
    false default_fallback default_chrome_like.
Lemma h1_path : path (H := Fields) h1_ctx (send_single_request_inner no_text h1_ctx) [TxH1] (Done (Ok answer)).
Proof.
  unfold send_single_request_inner. cbn.
  apply (path_vis h1_ctx _ SAcquire _ (Some (AcquiredH1 0 0)) [TxH1]); [done|]. cbn.
  apply (path_vis h1_ctx _ (NReadyH1 0) _ (Ok tt) [TxH1]); [done|]. cbn.
  apply (path_vis h1_ctx _ (NSendH1 0) _ (Ok answer) []); [done|]. cbn.
  apply (path_vis h1_ctx _ (SReturnH1 0 0) _ tt []); [done|]. cbn.
  apply (path_vis h1_ctx _ (NMakeResponse answer) _ (Ok answer) []); [done|]. constructor.
Qed.
Lemma transmissions_disciplined_witness : (length [TxH1] <= 3)%nat /\ version h1_ctx = Http1Only.
Proof. split; [apply (transmissions_disciplined no_text h1_ctx _ _ h1_path)|reflexivity]. Defined.

Definition knows_nothing : Learned (R := Z) := learn default_config [] 0.
Lemma one_request :
  rtc (session_step no_text) (start 1 knows_nothing, [])
    (start 1 knows_nothing, [(h1_ctx, RPlain nothing (job_prog (H := Fields) no_text h1_ctx JRequest))]).
Proof. apply rtc_once, (ss_spawn no_text _ [] h1_ctx JRequest). Qed.
End request_demo.
