(* ===== verification/Tls12Prf.v ===== *)
(** * TLS 1.2 PRF (lktls/src/crypto/prf.rs)

    [prf::prf] and what is derived with it: master secrets, the key block and the
    Finished data.  The reference [P_hash] of RFC 5246 (section 5) is an infinite
    stream of blocks; [prf_rfc5246] shows that the loop returns a prefix of it. *)
From S2P Require Import Prelude TlsError TlsCipher.
Import error.

#[export] Instance prf_algorithm_eq_dec : EqDecision PrfAlgorithm.
Proof. solve_decision. Defined.

Module prf.
Section prf.
Context {C : Crypto}.

Definition prf_hash_len (a : PrfAlgorithm) : Z := match a with PrfSha256 => 32 | PrfSha384 => 48 end.
Definition hmac_algorithm_ref (a : PrfAlgorithm) : CbcMacAlgorithm :=
  match a with PrfSha256 => HmacSha256 | PrfSha384 => HmacSha384 end.

(** [while result.len() < output_len]. *)
Fixpoint p_hash_loop (fuel : nat) (hmac : bytes -> bytes) (seed : bytes) (output_len : Z) (a result : bytes)
    : Outcome TlsError bytes :=
  match fuel with
  | 0%nat => Panic
  | S fuel =>
      if len result <? output_len then
        let p_block := hmac (a ++ seed) in
        let remaining := output_len - len result in
        let to_copy := Z.min remaining (len p_block) in
        p ← slice p_block 0 to_copy;
        p_hash_loop fuel hmac seed output_len (hmac a) (result ++ p)
      else Ok result
  end.

Definition p_hash (alg : PrfAlgorithm) (secret seed : bytes) (output_len : Z) : Outcome TlsError bytes :=
  let hmac := hmac_sign (hmac_algorithm_ref alg) secret in
  p_hash_loop (S (Z.to_nat output_len)) hmac seed output_len (hmac seed) [].

Definition prf (alg : PrfAlgorithm) (secret : bytes) (label : string) (seed : bytes) (output_len : Z)
    : Outcome TlsError bytes :=
  p_hash alg secret (ascii_bytes label ++ seed) output_len.

Definition compute_master_secret (alg : PrfAlgorithm) (pre_master_secret client_random server_random : bytes)
    : Outcome TlsError bytes :=
  prf alg pre_master_secret "master secret" (client_random ++ server_random) 48.

Record KeyBlock : Type := mkKeyBlock {
  kb_client_write_mac_key : bytes;
  kb_server_write_mac_key : bytes;
  kb_client_write_key : bytes;
  kb_server_write_key : bytes;
  kb_client_write_iv : bytes;
  kb_server_write_iv : bytes;
}.

Definition expand_key_block (alg : PrfAlgorithm) (master_secret server_random client_random : bytes)
    (mac_key_len enc_key_len iv_len : Z) : Outcome TlsError KeyBlock :=
  let total_len := 2 * mac_key_len + 2 * enc_key_len + 2 * iv_len in
  k ← prf alg master_secret "key expansion" (server_random ++ client_random) total_len;
  let offset := 0 in
  cm ← slice k offset (offset + mac_key_len);
  let offset := offset + mac_key_len in
  sm ← slice k offset (offset + mac_key_len);
  let offset := offset + mac_key_len in
  ck ← slice k offset (offset + enc_key_len);
  let offset := offset + enc_key_len in
  sk ← slice k offset (offset + enc_key_len);
  let offset := offset + enc_key_len in
  ci ← slice k offset (offset + iv_len);
  let offset := offset + iv_len in
  si ← slice k offset (offset + iv_len);
  Ok {| kb_client_write_mac_key := cm; kb_server_write_mac_key := sm; kb_client_write_key := ck;
        kb_server_write_key := sk; kb_client_write_iv := ci; kb_server_write_iv := si |}.

Definition compute_extended_master_secret (alg : PrfAlgorithm) (pre_master_secret session_hash : bytes)
    : Outcome TlsError bytes :=
  prf alg pre_master_secret "extended master secret" session_hash 48.

Definition compute_verify_data (alg : PrfAlgorithm) (master_secret : bytes) (finished_label : string)
    (handshake_hash : bytes) : Outcome TlsError bytes :=
  prf alg master_secret finished_label handshake_hash 12.

(** ** RFC 5246, section 5 *)

(** [A(i)], and the first [n] blocks of [P_hash(secret, seed)] from [A(i)] on. *)
Fixpoint A_of (hmac : bytes -> bytes) (seed : bytes) (i : nat) : bytes :=
  match i with
  | 0%nat => seed
  | S i => hmac (A_of hmac seed i)
  end.
Definition p_blocks (hmac : bytes -> bytes) (seed : bytes) (i n : nat) : bytes :=
  concat ((fun j => hmac (A_of hmac seed j ++ seed)) <$> seq i n).

Section spec.
Context (hmac : bytes -> bytes) (hlen : Z).
Hypothesis hmac_len : forall m, len (hmac m) = hlen.
Hypothesis hlen_pos : 0 < hlen.

Lemma p_blocks_len seed i n : len (p_blocks hmac seed i n) = hlen * Z.of_nat n.
Proof.
  unfold p_blocks. revert i. induction n as [|n IH]; intros i; simpl; [unfold len; simpl; lia|].
  rewrite len_app, hmac_len, IH. lia.
Qed.

Lemma p_hash_loop_blocks seed output_len : 0 <= output_len -> forall fuel i result n,
  len result <= output_len -> output_len - len result < Z.of_nat fuel ->
  output_len - len result <= hlen * Z.of_nat n ->
  p_hash_loop fuel hmac seed output_len (A_of hmac seed i) result =
    Ok (result ++ take_z (output_len - len result) (p_blocks hmac seed i n)).
Proof.
  intros H0. induction fuel as [|fuel IH]; intros i result n Hr Hf Hn; [lia|]. simpl.
  destruct (Z.ltb_spec (len result) output_len).
  - destruct n as [|n]; [lia|]. pose proof (hmac_len (A_of hmac seed i ++ seed)) as Hb.
    rewrite slice_ok by lia. cbn [mbind outcome_bind].
    change (hmac (A_of hmac seed i)) with (A_of hmac seed (S i)).
    set (p := take_z _ _). assert (len p = Z.min (output_len - len result) hlen) as Hp.
    { unfold p. rewrite len_take_z, len_drop_z by lia. lia. }
    rewrite (IH (S i) (result ++ p) n) by (rewrite ?len_app; lia).
    f_equal. rewrite <- app_assoc. f_equal. rewrite len_app.
    unfold p_blocks at 2. cbn [seq fmap list_fmap concat].
    fold (p_blocks hmac seed (S i) n). set (b := hmac (_ ++ seed)) in *.
    assert (p = take_z (output_len - len result) b) as ->.
    { unfold p, take_z, drop_z. change (drop (Z.to_nat 0) b) with b.
      destruct (Z.le_gt_cases (output_len - len result) (len b)); [f_equal; lia|].
      rewrite !take_ge; unfold len in *; (done || lia). }
    rewrite Hp. unfold take_z. rewrite take_app. f_equal. f_equal. unfold len in *. lia.
  - replace (output_len - len result) with 0 by lia. unfold take_z. simpl. by rewrite app_nil_r.
Qed.
End spec.

Context {CL : CryptoLaws C}.

Lemma hmac_prf_len alg key m : len (hmac_sign (hmac_algorithm_ref alg) key m) = prf_hash_len alg.
Proof. destruct (hmac_shape (hmac_algorithm_ref alg) key m) as [-> _]. by destruct alg. Qed.
Lemma prf_hash_len_pos alg : 32 <= prf_hash_len alg.
Proof. destruct alg; simpl; lia. Qed.

(** C37. The PRF is the one of RFC 5246: for every secret, label, seed and length
    the loop ends and returns the first [output_len] bytes of
    [P_hash(secret, label + seed)], however many blocks of it are written out. *)
Theorem prf_rfc5246 (alg : PrfAlgorithm) (secret seed : bytes) (label : string) (output_len : Z) (n : nat) :
  0 <= output_len <= 32 * Z.of_nat n ->
  exists out, prf alg secret label seed output_len = Ok out /\ len out = output_len /\
    out = take_z output_len
      (p_blocks (hmac_sign (hmac_algorithm_ref alg) secret) (ascii_bytes label ++ seed) 1 n).
Proof.
  intros Hl. pose proof (prf_hash_len_pos alg).
  set (hmac := hmac_sign _ _). set (sd := _ ++ seed).
  assert (prf alg secret label seed output_len = Ok (take_z output_len (p_blocks hmac sd 1 n))) as ->.
  { unfold prf, p_hash. fold hmac sd. change (hmac sd) with (A_of hmac sd 1).
    rewrite (p_hash_loop_blocks hmac (prf_hash_len alg) (hmac_prf_len alg secret) ltac:(lia) sd output_len
      ltac:(lia) _ 1 [] n); unfold len; simpl length; [|lia|lia|nia]. by rewrite Z.sub_0_r. }
  eexists. split_and!; [done| |done].
  rewrite len_take_z, (p_blocks_len hmac (prf_hash_len alg)) by (apply hmac_prf_len || lia). nia.
Qed.

(** The PRF always gives the bytes asked for. *)
Lemma prf_ok alg secret label seed n : 0 <= n ->
  exists out, prf alg secret label seed n = Ok out /\ len out = n.
Proof.
  intros Hn. unfold prf, p_hash. set (sd := _ ++ seed). set (hmac := hmac_sign _ _).
  change (hmac sd) with (A_of hmac sd 1). pose proof (prf_hash_len_pos alg).
  rewrite (p_hash_loop_blocks hmac (prf_hash_len alg) (hmac_prf_len alg secret) ltac:(lia) sd n
    Hn _ 1 [] (Z.to_nat n)); unfold len; simpl length; [|lia|lia|nia].
  eexists. split; [done|]. rewrite app_nil_l, Z.sub_0_r. fold (len (take_z n (p_blocks hmac sd 1 (Z.to_nat n)))).
  rewrite len_take_z, (p_blocks_len hmac (prf_hash_len alg)) by (apply hmac_prf_len || lia). nia.
Qed.

(** The key block is cut without overlap or rest. *)
Lemma expand_key_block_ok alg ms sr cr m e v : 0 <= m -> 0 <= e -> 0 <= v ->
  exists kb k, expand_key_block alg ms sr cr m e v = Ok kb /\
    prf alg ms "key expansion" (sr ++ cr) (2 * m + 2 * e + 2 * v) = Ok k /\
    k = kb_client_write_mac_key kb ++ kb_server_write_mac_key kb ++ kb_client_write_key kb ++
        kb_server_write_key kb ++ kb_client_write_iv kb ++ kb_server_write_iv kb /\
    len (kb_client_write_mac_key kb) = m /\ len (kb_server_write_mac_key kb) = m /\
    len (kb_client_write_key kb) = e /\ len (kb_server_write_key kb) = e /\
    len (kb_client_write_iv kb) = v /\ len (kb_server_write_iv kb) = v.
Proof.
  intros Hm He Hv. unfold expand_key_block.
  destruct (prf_ok alg ms "key expansion" (sr ++ cr) (2 * m + 2 * e + 2 * v)) as (k & Hk & Hl); [lia|].
  rewrite Hk. cbn [mbind outcome_bind].
  assert (forall n (l : bytes), 0 <= n <= len l -> exists a b, l = a ++ b /\ len a = n) as Hsplit.
  { intros n l Hn. exists (take_z n l), (drop_z n l). rewrite take_drop_z, len_take_z by lia. split; [done|lia]. }
  destruct (Hsplit m k) as (a1 & k1 & -> & H1); [lia|]. rewrite len_app in Hl.
  destruct (Hsplit m k1) as (a2 & k2 & -> & H2); [lia|]. rewrite len_app in Hl.
  destruct (Hsplit e k2) as (a3 & k3 & -> & H3); [lia|]. rewrite len_app in Hl.
  destruct (Hsplit e k3) as (a4 & k4 & -> & H4); [lia|]. rewrite len_app in Hl.
  destruct (Hsplit v k4) as (a5 & a6 & -> & H5); [lia|]. rewrite len_app in Hl.
  assert (forall (pre x post : bytes) a b, a = len pre -> b = len pre + len x ->
    slice (E := TlsError) (pre ++ x ++ post) a b = Ok x) as Hs by (intros; by apply slice_middle).
  assert (forall (x post : bytes) b, b = len x -> slice (E := TlsError) (x ++ post) 0 b = Ok x) as Hs0
    by (intros; by apply (Hs [])).
  rewrite (Hs0 a1 _) by lia. cbn [mbind outcome_bind].
  rewrite (Hs a1 a2 _ (0 + m) (0 + m + m)) by lia. cbn [mbind outcome_bind].
  rewrite !(app_assoc a1), (Hs (a1 ++ a2) a3 _ (0 + m + m) (0 + m + m + e)) by (rewrite ?len_app; lia).
  cbn [mbind outcome_bind].
  rewrite !(app_assoc (a1 ++ a2)), (Hs ((a1 ++ a2) ++ a3) a4 _ (0 + m + m + e) (0 + m + m + e + e))
    by (rewrite ?len_app; lia).
  cbn [mbind outcome_bind].
  rewrite !(app_assoc ((a1 ++ a2) ++ a3)),
    (Hs (((a1 ++ a2) ++ a3) ++ a4) a5 _ (0 + m + m + e + e) (0 + m + m + e + e + v)) by (rewrite ?len_app; lia).
  cbn [mbind outcome_bind].
  rewrite !(app_assoc (((a1 ++ a2) ++ a3) ++ a4)), <- (app_nil_r a6),
    (Hs ((((a1 ++ a2) ++ a3) ++ a4) ++ a5) a6 []) by (rewrite ?len_app; lia).
  eexists _, _. split_and!; [done|done| |simpl; done..|]; simpl; [by rewrite <- !app_assoc, app_nil_r|lia].
Qed.
End prf.
End prf.
