(* ===== verification/Tls13.v ===== *)
(** * TLS 1.3 handshake (lktls/src/handshake/tls13.rs)

    The client's state machine, from the ClientHello to the traffic secrets.  A
    method of the source is a computation on the handshake state and the
    environment (random generator and clocks): it returns its outcome together
    with the state it leaves, because the fields assigned before an error stay
    assigned.  [None] is the rejection sampling of the extension shuffle that has
    not ended within its fuel; only [build_client_hello] can give it.

    [digest::Context] is the bytes fed to it.  The certificate compression crates
    (flate2, brotli) are the class [Decompress].  A runtime ECHConfigList leads
    the builder to the HPKE code, which is not modelled: the handshake here is
    the one without it ([set_ech_config] not called); the processing of the
    server's messages keeps the ECH branches. *)
From S2P Require Import Prelude TlsError StateM TlsCipher TlsProfile TlsExtensions QuicParams TlsKx ClientHello ServerHello TlsHkdf CertChain SessionStore Hpack Synthesis.
Import error statem types extensions kx client_hello server_hello hkdf certchain session_store quic_transport_params.

Module handshake_type.
Definition CLIENT_HELLO : Z := 0x01.
Definition SERVER_HELLO : Z := 0x02.
Definition NEW_SESSION_TICKET : Z := 0x04.
Definition ENCRYPTED_EXTENSIONS : Z := 0x08.
Definition CERTIFICATE : Z := 0x0b.
Definition CERTIFICATE_REQUEST : Z := 0x0d.
Definition CERTIFICATE_VERIFY : Z := 0x0f.
Definition CERTIFICATE_STATUS : Z := 0x16.
Definition FINISHED : Z := 0x14.
Definition COMPRESSED_CERTIFICATE : Z := 0x19.
Definition KEY_UPDATE : Z := 0x18.
Definition MESSAGE_HASH : Z := 0xFE.
End handshake_type.

(** [read_to_end] of the two decoders; errors are their display. *)
Class Decompress : Type := {
  zlib_decode : bytes -> string + bytes;
  brotli_decode : bytes -> string + bytes;
}.

Module tls13.

(** ** Free functions *)

Inductive Tls13State : Type :=
| Start
| WaitServerHello
| WaitEncryptedExtensions
| WaitCertificate
| WaitCertificateVerify
| WaitFinished
| Connected.
#[export] Instance tls13_state_eq_dec : EqDecision Tls13State.
Proof. solve_decision. Defined.

Definition state_debug (s : Tls13State) : string :=
  match s with
  | Start => "Start"
  | WaitServerHello => "WaitServerHello"
  | WaitEncryptedExtensions => "WaitEncryptedExtensions"
  | WaitCertificate => "WaitCertificate"
  | WaitCertificateVerify => "WaitCertificateVerify"
  | WaitFinished => "WaitFinished"
  | Connected => "Connected"
  end.

(** [{:?}] of a hash. *)
Definition hkdf_debug (a : HkdfAlgorithm) : string :=
  match a with HkdfSha256 => "Sha256" | HkdfSha384 => "Sha384" end.

Record HandshakeKeys : Type := mkHandshakeKeys {
  hk_hkdf_algorithm : HkdfAlgorithm;
  hk_aead_algorithm : AeadAlgorithm;
  hk_server_secret : bytes;
  hk_client_secret : bytes;
  hk_server_key : bytes;
  hk_server_iv : bytes;
  hk_client_key : bytes;
  hk_client_iv : bytes;
}.

Record TrafficSecrets : Type := mkTrafficSecrets {
  ts_aead_algorithm : AeadAlgorithm;
  ts_hkdf_algorithm : HkdfAlgorithm;
  ts_client_key : bytes;
  ts_client_iv : bytes;
  ts_server_key : bytes;
  ts_server_iv : bytes;
  ts_server_app_secret : bytes;
  ts_client_app_secret : bytes;
  ts_exporter_master_secret : bytes;
}.

Record HandshakeComplete : Type := mkComplete {
  hc_client_encrypted_extensions : option bytes;
  hc_client_certificate : option bytes;
  hc_client_finished : bytes;
  hc_traffic_secrets : TrafficSecrets;
  hc_negotiated_alpn : option bytes;
  hc_resumption_master_secret : bytes;
  hc_negotiated_cipher_suite : Z;
  hc_server_certificates : list bytes;
  hc_ech_retry_configs : option bytes;
  hc_ech_accepted : bool;
  hc_peer_quic_transport_params : option QuicTransportParams;
  hc_early_data_accepted : bool;
}.

Inductive HandshakeAction : Type :=
| InstallHandshakeKeys (k : HandshakeKeys)
| ContinueReading
| Complete (c : HandshakeComplete)
| RetryClientHello (ch2 : bytes).

Definition cipher_suite_info (suite : Z) : Outcome TlsError (HkdfAlgorithm * AeadAlgorithm) :=
  match suite with
  | 0x1301 => Ok (HkdfSha256, Aes128Gcm)
  | 0x1302 => Ok (HkdfSha384, Aes256Gcm)
  | 0x1303 => Ok (HkdfSha256, Chacha20Poly1305)
  | _ => Err (HandshakeFailure ("unsupported cipher suite: 0x" +:+ hex4 suite))
  end.

(** [((a as usize) << 16) | ((b as usize) << 8) | c]. *)
Definition from_be24 (a b c : Z) : Z := Z.lor (Z.lor (a ≪ 16) (b ≪ 8)) c.
Definition read_u24 {E} (data : bytes) (pos : Z) : Outcome E Z :=
  a ← idx data pos; b ← idx data (pos + 1); c ← idx data (pos + 2); Ok (from_be24 a b c).
Definition be24 (v : Z) : bytes := [as_u8 (v ≫ 16); as_u8 (v ≫ 8); as_u8 v].

Definition to_hex (l : bytes) : string := foldr (fun b s => hex2 b +:+ s) EmptyString l.

Definition MAX_DECOMPRESSED_CERT_LEN : Z := 256 * 1024.

Section decompress.
Context {DC : Decompress}.

Definition decompress_certificate (algorithm : Z) (compressed : bytes) (max_len : Z)
    : Outcome TlsError bytes :=
  if MAX_DECOMPRESSED_CERT_LEN <? max_len then
    Err (HandshakeFailure ("decompressed certificate too large: " +:+ pretty max_len
           +:+ " bytes (max " +:+ pretty MAX_DECOMPRESSED_CERT_LEN +:+ ")")) else
  let finish (d : bytes) :=
    if negb (len d =? max_len) then
      Err (HandshakeFailure ("decompressed certificate size mismatch: expected " +:+ pretty max_len
             +:+ ", got " +:+ pretty (len d)))
    else Ok d in
  match algorithm with
  | 1 => match zlib_decode compressed with
         | inl e => Err (HandshakeFailure ("zlib decompression failed: " +:+ e))
         | inr d => finish d
         end
  | 2 => match brotli_decode compressed with
         | inl e => Err (HandshakeFailure ("brotli decompression failed: " +:+ e))
         | inr d => finish d
         end
  | _ => Err (HandshakeFailure ("unsupported certificate compression algorithm: " +:+ pretty algorithm))
  end.

End decompress.

Definition parse_certificate_request_context (payload : bytes) : Outcome TlsError bytes :=
  match payload with
  | [] => Err (UnexpectedMessage "truncated TLS 1.3 CertificateRequest")
  | context_len :: _ =>
      let context_end := 1 + context_len in
      if len payload <? context_end then
        Err (UnexpectedMessage "truncated TLS 1.3 CertificateRequest context")
      else slice payload 1 context_end
  end.

Definition build_empty_client_certificate (request_context : bytes) : bytes :=
  let body_len := 1 + len request_context + 3 in
  [handshake_type.CERTIFICATE] ++ be24 (as_u32 body_len) ++ [as_u8 (len request_context)] ++
  request_context ++ [0; 0; 0].

(** [while pos + 3 <= list_end]. *)
Fixpoint cert_loop (fuel : nat) (payload : bytes) (list_end pos : Z) (certs : list bytes)
    : Outcome TlsError (list bytes) :=
  match fuel with
  | 0%nat => Panic
  | S fuel =>
      if pos + 3 <=? list_end then
        cert_len ← read_u24 payload pos;
        let pos := pos + 3 in
        if list_end <? pos + cert_len then
          Err (UnexpectedMessage "Certificate entry exceeds list") else
        cert ← slice payload pos (pos + cert_len);
        let certs := certs ++ [cert] in
        let pos := pos + cert_len in
        if list_end <? pos + 2 then Ok certs else
        ext_len ← read_u16 payload pos;
        cert_loop fuel payload list_end (pos + (2 + ext_len)) certs
      else Ok certs
  end.

Definition parse_certificate_message (payload : bytes) : Outcome TlsError (list bytes) :=
  if len payload <=? 0 then Err (UnexpectedMessage "Certificate message too short") else
  ctx_len ← idx payload 0;
  if negb (ctx_len =? 0) then
    Err (HandshakeFailure ("server Certificate has non-empty request_context (len="
           +:+ pretty ctx_len +:+ ")")) else
  let pos := 1 + ctx_len in
  if len payload <? pos + 3 then
    Err (UnexpectedMessage "Certificate message truncated at list length") else
  list_len ← read_u24 payload pos;
  let pos := pos + 3 in
  let list_end := pos + list_len in
  if len payload <? list_end then
    Err (UnexpectedMessage "Certificate list length exceeds message") else
  cert_loop (S (length payload)) payload list_end pos [].

Section keys.
Context {P O : Type} {H : Hkdf P O} {C : Crypto}.

(** *** Transcript *)

Record TranscriptHash : Type := mkTh { th_context : bytes; th_algorithm : HkdfAlgorithm }.
Definition th_new (alg : HkdfAlgorithm) : TranscriptHash := {| th_context := []; th_algorithm := alg |}.
Definition th_update (t : TranscriptHash) (data : bytes) : TranscriptHash :=
  {| th_context := th_context t ++ data; th_algorithm := th_algorithm t |}.
Definition current_hash (t : TranscriptHash) : bytes := digest (th_algorithm t) (th_context t).
Definition message_hash (hash : bytes) : bytes :=
  [handshake_type.MESSAGE_HASH; 0; 0; as_u8 (len hash)] ++ hash.
Definition replace_with_message_hash (t : TranscriptHash) : TranscriptHash :=
  {| th_context := message_hash (current_hash t); th_algorithm := th_algorithm t |}.

Definition compute_finished_verify_data (alg : HkdfAlgorithm) (base_key transcript_hash : bytes)
    : Outcome TlsError bytes :=
  finished_key ← hkdf_expand_label alg base_key "finished" [] (hash_len alg);
  Ok (hmac_sign (hmac_of alg) finished_key transcript_hash).

End keys.

(** [bytes[i] = v], and [bytes[a..b].copy_from_slice(src)]: both panic outside
    the buffer, the copy also when the lengths differ. *)
Definition set_byte {E} (l : bytes) (i v : Z) : Outcome E bytes :=
  if (0 <=? i) && (i <? len l) then Ok (<[Z.to_nat i := v]> l) else Panic.
Definition copy_at {E} (l : bytes) (a b : Z) (src : bytes) : Outcome E bytes :=
  if (0 <=? a) && (a <=? b) && (b <=? len l) && (b - a =? len src)
  then Ok (take_z a l ++ src ++ drop_z b l) else Panic.

(** [Vec::swap_remove]. *)
Definition swap_remove {A} (i : nat) (l : list A) : option (A * list A) :=
  a ← l !! i; z ← last l;
  Some (a, firstn (length l - 1) (<[i := z]> l)).

Fixpoint position {A} (f : A -> bool) (l : list A) : option nat :=
  match l with
  | [] => None
  | a :: l => if f a then Some 0%nat else S <$> position f l
  end.

(** *** The profile of a ClientHello *)

Definition quic_tp_insert_at (l : list ExtensionSpec) : nat :=
  default (length l)
    (position (fun e => (extension_type e =? ext_type.PADDING) || (extension_type e =? ext_type.PRE_SHARED_KEY)) l).
Definition insert_quic_tp (l : list ExtensionSpec) : list ExtensionSpec :=
  if existsb (fun e => extension_type e =? ext_type.QUIC_TRANSPORT_PARAMETERS) l then l else
  let i := quic_tp_insert_at l in
  firstn i l ++ [{| extension_type := ext_type.QUIC_TRANSPORT_PARAMETERS; source := Auto |}] ++ skipn i l.

(** The profile for ALPS off and for QUIC. *)
Definition profile_for_ch (p : TlsProfile) (alps quic : bool) : TlsProfile :=
  {| name := name p; tls_client_hello_style := tls_client_hello_style p;
     tls_min_version := if quic then Tls13 else tls_min_version p;
     tls_max_version := if quic then Tls13 else tls_max_version p;
     cipher_suites := cipher_suites p;
     extensions := if quic then insert_quic_tp (extensions p) else extensions p;
     supported_groups := supported_groups p; signature_algorithms := signature_algorithms p;
     ec_point_formats := ec_point_formats p; compression_methods := compression_methods p;
     grease := grease p; padding := padding p;
     alps_protocols := if alps then alps_protocols p else None;
     compress_cert_algorithms := compress_cert_algorithms p; key_share_curves := key_share_curves p;
     record_size_limit := record_size_limit p; delegated_credentials := delegated_credentials p;
     session_id_length := if quic then 0 else session_id_length p;
     alpn_protocols := alpn_protocols p; randomization := randomization p; ech := ech p;
     ech_outer_extensions := ech_outer_extensions p; session_resumption := session_resumption p |}.

(** ** The handshake *)

Section handshake.
Context {R K D P O E T N : Type}.
Context {SR : SystemRandom R} {AG : Agreement R K D} {CK : Clock R} {H : Hkdf P O} {C : Crypto}.
Context {SG : Signatures} {W : Webpki E T N} {DC : Decompress}.

Abbreviation KeyPair := (EphemeralKeyPair K D).
Abbreviation Prk := (HkdfPrk P).

Record Tls13Handshake : Type := mkHs {
  hs_state : Tls13State;
  hs_profile : TlsProfile;
  hs_hostname : bytes;
  hs_transcript : option TranscriptHash;
  hs_buffered_client_hello : option bytes;
  hs_key_pairs : list KeyPair;
  hs_client_random : option bytes;
  hs_session_id : option bytes;
  hs_hrr_received : bool;
  hs_grease_values : option GreaseValues;
  hs_extension_order : option (list ExtensionSpec);
  hs_ech_grease_extension : option bytes;
  hs_cipher_suite : option Z;
  hs_hkdf_algorithm : option HkdfAlgorithm;
  hs_aead_algorithm : option AeadAlgorithm;
  hs_handshake_secret : option Prk;
  hs_client_hs_traffic_secret : option bytes;
  hs_server_hs_traffic_secret : option bytes;
  hs_server_certificates : list bytes;
  hs_client_certificate_request_context : option bytes;
  hs_alps_payload : option bytes;
  hs_server_alps_data : option bytes;
  hs_alps_code_point : option Z;
  hs_negotiated_alpn : option bytes;
  hs_ech_retry_configs : option bytes;
  hs_quic_transport_parameters : option bytes;
  hs_peer_quic_transport_params : option QuicTransportParams;
  hs_quic_mode : bool;
  hs_early_data_accepted : bool;
  hs_ech_offered : bool;
  hs_ech_accepted : bool;
  hs_ech_inner_hello : option bytes;
  hs_ech_hrr_accepted : option bool;
  hs_hrr_raw_bytes : option bytes;
  hs_hrr_inner_ch2 : option bytes;
  hs_verification_policy : VerificationPolicy;
  hs_custom_ca_anchors : option (list T);
  hs_psk_ticket : option SessionTicketData;
  hs_tls12_session_ticket_data : option bytes;
  hs_psk_accepted : bool;
  hs_early_secret_from_psk : option Prk;
  hs_keylog : option (list string);
}.

Definition handshake_new (p : TlsProfile) (host : bytes) : Tls13Handshake :=
  {| hs_state := Start; hs_profile := p; hs_hostname := host; hs_transcript := None;
  hs_buffered_client_hello := None; hs_key_pairs := []; hs_client_random := None;
  hs_session_id := None; hs_hrr_received := false; hs_grease_values := None;
  hs_extension_order := None; hs_ech_grease_extension := None; hs_cipher_suite := None;
  hs_hkdf_algorithm := None; hs_aead_algorithm := None; hs_handshake_secret := None;
  hs_client_hs_traffic_secret := None; hs_server_hs_traffic_secret := None;
  hs_server_certificates := []; hs_client_certificate_request_context := None;
  hs_alps_payload := None; hs_server_alps_data := None; hs_alps_code_point := None;
  hs_negotiated_alpn := None; hs_ech_retry_configs := None; hs_quic_transport_parameters := None;
  hs_peer_quic_transport_params := None; hs_quic_mode := false; hs_early_data_accepted := false;
  hs_ech_offered := false; hs_ech_accepted := false; hs_ech_inner_hello := None;
  hs_ech_hrr_accepted := None; hs_hrr_raw_bytes := None; hs_hrr_inner_ch2 := None;
  hs_verification_policy := Strict; hs_custom_ca_anchors := None; hs_psk_ticket := None;
  hs_tls12_session_ticket_data := None; hs_psk_accepted := false; hs_early_secret_from_psk := None;
  hs_keylog := None |}.

(** The record rebuilt from its fields, and the assignment to one of them. *)
Definition hs_eta (h : Tls13Handshake) : Tls13Handshake :=
  {| hs_state := hs_state h; hs_profile := hs_profile h; hs_hostname := hs_hostname h;
  hs_transcript := hs_transcript h; hs_buffered_client_hello := hs_buffered_client_hello h;
  hs_key_pairs := hs_key_pairs h; hs_client_random := hs_client_random h;
  hs_session_id := hs_session_id h; hs_hrr_received := hs_hrr_received h;
  hs_grease_values := hs_grease_values h; hs_extension_order := hs_extension_order h;
  hs_ech_grease_extension := hs_ech_grease_extension h; hs_cipher_suite := hs_cipher_suite h;
  hs_hkdf_algorithm := hs_hkdf_algorithm h; hs_aead_algorithm := hs_aead_algorithm h;
  hs_handshake_secret := hs_handshake_secret h;
  hs_client_hs_traffic_secret := hs_client_hs_traffic_secret h;
  hs_server_hs_traffic_secret := hs_server_hs_traffic_secret h;
  hs_server_certificates := hs_server_certificates h;
  hs_client_certificate_request_context := hs_client_certificate_request_context h;
  hs_alps_payload := hs_alps_payload h; hs_server_alps_data := hs_server_alps_data h;
  hs_alps_code_point := hs_alps_code_point h; hs_negotiated_alpn := hs_negotiated_alpn h;
  hs_ech_retry_configs := hs_ech_retry_configs h;
  hs_quic_transport_parameters := hs_quic_transport_parameters h;
  hs_peer_quic_transport_params := hs_peer_quic_transport_params h; hs_quic_mode := hs_quic_mode h;
  hs_early_data_accepted := hs_early_data_accepted h; hs_ech_offered := hs_ech_offered h;
  hs_ech_accepted := hs_ech_accepted h; hs_ech_inner_hello := hs_ech_inner_hello h;
  hs_ech_hrr_accepted := hs_ech_hrr_accepted h; hs_hrr_raw_bytes := hs_hrr_raw_bytes h;
  hs_hrr_inner_ch2 := hs_hrr_inner_ch2 h; hs_verification_policy := hs_verification_policy h;
  hs_custom_ca_anchors := hs_custom_ca_anchors h; hs_psk_ticket := hs_psk_ticket h;
  hs_tls12_session_ticket_data := hs_tls12_session_ticket_data h;
  hs_psk_accepted := hs_psk_accepted h; hs_early_secret_from_psk := hs_early_secret_from_psk h;
  hs_keylog := hs_keylog h |}.
Ltac assign field v h :=
  let e := eval cbv beta delta [hs_eta] in (hs_eta h) in
  match e with context C [field h] => let r := context C [v] in exact r end.
Definition set_state (v : Tls13State) (h : Tls13Handshake) : Tls13Handshake := ltac:(assign hs_state v h).
Definition set_transcript (v : option TranscriptHash) (h : Tls13Handshake) : Tls13Handshake := ltac:(assign hs_transcript v h).
Definition set_buffered_client_hello (v : option bytes) (h : Tls13Handshake) : Tls13Handshake := ltac:(assign hs_buffered_client_hello v h).
Definition set_key_pairs (v : list KeyPair) (h : Tls13Handshake) : Tls13Handshake := ltac:(assign hs_key_pairs v h).
Definition set_client_random (v : option bytes) (h : Tls13Handshake) : Tls13Handshake := ltac:(assign hs_client_random v h).
Definition set_session_id (v : option bytes) (h : Tls13Handshake) : Tls13Handshake := ltac:(assign hs_session_id v h).
Definition set_hrr_received (v : bool) (h : Tls13Handshake) : Tls13Handshake := ltac:(assign hs_hrr_received v h).
Definition set_grease_values (v : option GreaseValues) (h : Tls13Handshake) : Tls13Handshake := ltac:(assign hs_grease_values v h).
Definition set_extension_order (v : option (list ExtensionSpec)) (h : Tls13Handshake) : Tls13Handshake := ltac:(assign hs_extension_order v h).
Definition set_ech_grease_extension (v : option bytes) (h : Tls13Handshake) : Tls13Handshake := ltac:(assign hs_ech_grease_extension v h).
Definition set_cipher_suite (v : option Z) (h : Tls13Handshake) : Tls13Handshake := ltac:(assign hs_cipher_suite v h).
Definition set_hkdf_algorithm (v : option HkdfAlgorithm) (h : Tls13Handshake) : Tls13Handshake := ltac:(assign hs_hkdf_algorithm v h).
Definition set_aead_algorithm (v : option AeadAlgorithm) (h : Tls13Handshake) : Tls13Handshake := ltac:(assign hs_aead_algorithm v h).
Definition set_handshake_secret (v : option Prk) (h : Tls13Handshake) : Tls13Handshake := ltac:(assign hs_handshake_secret v h).
Definition set_client_hs_traffic_secret (v : option bytes) (h : Tls13Handshake) : Tls13Handshake := ltac:(assign hs_client_hs_traffic_secret v h).
Definition set_server_hs_traffic_secret (v : option bytes) (h : Tls13Handshake) : Tls13Handshake := ltac:(assign hs_server_hs_traffic_secret v h).
Definition set_server_certificates (v : list bytes) (h : Tls13Handshake) : Tls13Handshake := ltac:(assign hs_server_certificates v h).
Definition set_client_certificate_request_context (v : option bytes) (h : Tls13Handshake) : Tls13Handshake := ltac:(assign hs_client_certificate_request_context v h).
Definition set_alps_payload (v : option bytes) (h : Tls13Handshake) : Tls13Handshake := ltac:(assign hs_alps_payload v h).
Definition set_server_alps_data (v : option bytes) (h : Tls13Handshake) : Tls13Handshake := ltac:(assign hs_server_alps_data v h).
Definition set_alps_code_point (v : option Z) (h : Tls13Handshake) : Tls13Handshake := ltac:(assign hs_alps_code_point v h).
Definition set_negotiated_alpn (v : option bytes) (h : Tls13Handshake) : Tls13Handshake := ltac:(assign hs_negotiated_alpn v h).
Definition set_ech_retry_configs (v : option bytes) (h : Tls13Handshake) : Tls13Handshake := ltac:(assign hs_ech_retry_configs v h).
Definition set_quic_transport_parameters (v : option bytes) (h : Tls13Handshake) : Tls13Handshake := ltac:(assign hs_quic_transport_parameters v h).
Definition set_peer_quic_transport_params (v : option QuicTransportParams) (h : Tls13Handshake) : Tls13Handshake := ltac:(assign hs_peer_quic_transport_params v h).
Definition set_quic_mode (v : bool) (h : Tls13Handshake) : Tls13Handshake := ltac:(assign hs_quic_mode v h).
Definition set_early_data_accepted (v : bool) (h : Tls13Handshake) : Tls13Handshake := ltac:(assign hs_early_data_accepted v h).
Definition set_ech_offered (v : bool) (h : Tls13Handshake) : Tls13Handshake := ltac:(assign hs_ech_offered v h).
Definition set_ech_accepted (v : bool) (h : Tls13Handshake) : Tls13Handshake := ltac:(assign hs_ech_accepted v h).
Definition set_ech_inner_hello (v : option bytes) (h : Tls13Handshake) : Tls13Handshake := ltac:(assign hs_ech_inner_hello v h).
Definition set_ech_hrr_accepted (v : option bool) (h : Tls13Handshake) : Tls13Handshake := ltac:(assign hs_ech_hrr_accepted v h).
Definition set_hrr_raw_bytes (v : option bytes) (h : Tls13Handshake) : Tls13Handshake := ltac:(assign hs_hrr_raw_bytes v h).
Definition set_hrr_inner_ch2 (v : option bytes) (h : Tls13Handshake) : Tls13Handshake := ltac:(assign hs_hrr_inner_ch2 v h).
Definition set_verification_policy (v : VerificationPolicy) (h : Tls13Handshake) : Tls13Handshake := ltac:(assign hs_verification_policy v h).
Definition set_custom_ca_anchors (v : option (list T)) (h : Tls13Handshake) : Tls13Handshake := ltac:(assign hs_custom_ca_anchors v h).
Definition set_psk_ticket (v : option SessionTicketData) (h : Tls13Handshake) : Tls13Handshake := ltac:(assign hs_psk_ticket v h).
Definition set_tls12_session_ticket_data (v : option bytes) (h : Tls13Handshake) : Tls13Handshake := ltac:(assign hs_tls12_session_ticket_data v h).
Definition set_psk_accepted (v : bool) (h : Tls13Handshake) : Tls13Handshake := ltac:(assign hs_psk_accepted v h).
Definition set_early_secret_from_psk (v : option Prk) (h : Tls13Handshake) : Tls13Handshake := ltac:(assign hs_early_secret_from_psk v h).
Definition set_keylog (v : option (list string)) (h : Tls13Handshake) : Tls13Handshake := ltac:(assign hs_keylog v h).

(** *** Computations *)

Abbreviation HM := (SM Tls13Handshake R).

(** [if let Some(ref mut t) = self.transcript { t.update(msg) }]. *)
Definition update_transcript (msg : bytes) : HM unit :=
  modify (fun h => set_transcript ((fun t => th_update t msg) <$> hs_transcript h) h).

(** The key log callback, when there is one and the client random is known. *)
Definition log_secret (label : string) (secret : bytes) : HM unit :=
  modify (fun h =>
    match hs_keylog h, hs_client_random h with
    | Some l, Some cr => set_keylog (Some (l ++ [label +:+ " " +:+ to_hex cr +:+ " " +:+ to_hex secret])) h
    | _, _ => h
    end).

Definition has_received_hrr (h : Tls13Handshake) : bool := hs_hrr_received h.

(** *** Client EncryptedExtensions *)

Definition build_client_encrypted_extensions (h : Tls13Handshake) : option bytes :=
  code_point ← hs_alps_code_point h;
  payload ← hs_alps_payload h;
  let ext_data_len := len payload in
  let extensions_len := 2 + 2 + ext_data_len in
  let body_len := 2 + extensions_len in
  Some ([handshake_type.ENCRYPTED_EXTENSIONS] ++ be24 (as_u32 body_len) ++ be16 extensions_len ++
        be16 code_point ++ be16 ext_data_len ++ payload).

(** *** ClientHello *)

Definition builder_for (h : Tls13Handshake) : ClientHelloBuilder (G := R) :=
  {| profile := profile_for_ch (hs_profile h) (bool_decide (is_Some (hs_alps_payload h))) (hs_quic_mode h);
     hostname := hs_hostname h; random := None; session_id := None; cookie := None;
     session_ticket_data := hs_tls12_session_ticket_data h; ech_config_list := None;
     quic_transport_parameters := hs_quic_transport_parameters h;
     early_data := false; psk_offer := None; grease_values := None; extension_order := None;
     ech_grease_extension := None; omit_grease_key_share := false; shuffle_rng := None |}.

(** [with_early_data]. *)
Definition with_early (v : bool) (b : ClientHelloBuilder (G := R)) : ClientHelloBuilder (G := R) :=
  {| profile := profile b; hostname := hostname b; random := random b; session_id := session_id b;
     cookie := cookie b; session_ticket_data := session_ticket_data b;
     ech_config_list := ech_config_list b;
     quic_transport_parameters := quic_transport_parameters b; early_data := v;
     psk_offer := psk_offer b; grease_values := grease_values b;
     extension_order := extension_order b; ech_grease_extension := ech_grease_extension b;
     omit_grease_key_share := omit_grease_key_share b; shuffle_rng := shuffle_rng b |}.

(** The saved values of the first ClientHello, and the cookie. *)
Definition with_retry (h : Tls13Handshake) (rnd sid : bytes) (ck : option bytes)
    (b : ClientHelloBuilder (G := R)) : ClientHelloBuilder (G := R) :=
  {| profile := profile b; hostname := hostname b; random := Some rnd; session_id := Some sid;
     cookie := ck; session_ticket_data := session_ticket_data b;
     ech_config_list := ech_config_list b;
     quic_transport_parameters := quic_transport_parameters b; early_data := early_data b;
     psk_offer := psk_offer b; grease_values := hs_grease_values h;
     extension_order := hs_extension_order h; ech_grease_extension := hs_ech_grease_extension h;
     omit_grease_key_share := omit_grease_key_share b; shuffle_rng := shuffle_rng b |}.

Definition run_build (b : R -> BuildResult (R := R) (K := K) (D := D) (G := R))
    : HM (ClientHelloOutput (K := K) (D := D)) := fun h r =>
  match b r with
  | None => None
  | Some (Ok (out, _, r)) => Some (Ok out, h, r)
  | Some (Err e) => Some (Err e, h, r)
  | Some Panic => Some (Panic, h, r)
  end.

(** The lengths at the head of the message and before its extensions, after
    [added] bytes were appended. *)
Definition patch_lengths (m : bytes) (added : Z) : Outcome TlsError bytes :=
  let new_body_len := len m - 4 in
  m ← set_byte m 1 (as_u8 (Z.land (new_body_len ≫ 16) 0xFF));
  m ← set_byte m 2 (as_u8 (Z.land (new_body_len ≫ 8) 0xFF));
  m ← set_byte m 3 (as_u8 (Z.land new_body_len 0xFF));
  sid_len ← idx m 38;
  let cs_start := 39 + sid_len in
  cs_len ← read_u16 m cs_start;
  let comp_start := cs_start + 2 + cs_len in
  comp_len ← idx m comp_start;
  let ext_len_pos := comp_start + 1 + comp_len in
  old_ext_len ← read_u16 m ext_len_pos;
  let new_ext_len := old_ext_len + added in
  m ← set_byte m ext_len_pos (as_u8 (Z.land (new_ext_len ≫ 8) 0xFF));
  set_byte m (ext_len_pos + 1) (as_u8 (Z.land new_ext_len 0xFF)).

Definition append_psk_extension (ch_msg : bytes) (t : SessionTicketData)
    (transcript_prefix : option TranscriptHash) : HM bytes :=
  let alg := t_hkdf_algorithm t in
  let binder_len := hash_len alg in
  now ← env instant_now;
  let '(psk_ext, binder_off) :=
    encode_psk_extension [mkPskIdentity (ticket t) (session_store.obfuscated_ticket_age now t)] binder_len in
  let old_len := len ch_msg in
  m ← lift (patch_lengths (ch_msg ++ psk_ext) (len psk_ext));
  truncated ← lift (slice m 0 (len m - binders_size 1 binder_len));
  let transcript_hash :=
    match transcript_prefix with
    | Some prefix => current_hash (th_update prefix truncated)
    | None => digest alg truncated
    end in
  binder ← lift (compute_psk_binder alg (resumption_psk t) transcript_hash);
  early ← lift (compute_early_secret alg (resumption_psk t));
  _ ← modify (set_early_secret_from_psk (Some early));
  let off := old_len + binder_off in
  lift (copy_at m off (off + binder_len) binder).

Definition build_client_hello (fuel : nat) : HM bytes :=
  h ← get;
  _ ← require (bool_decide (hs_state h = Start))
        (HandshakeFailure "build_client_hello called in wrong state");
  let early := match hs_psk_ticket h with Some t => 0 <? max_early_data_size t | None => false end in
  let psk_extra_len :=
    match hs_psk_ticket h with
    | Some t => psk_extension_length (len (ticket t)) (hash_len (t_hkdf_algorithm t))
    | None => 0
    end in
  output ← run_build (fun r => build_with_psk_hint (RNG := OsRng SR) fuel (with_early early (builder_for h)) psk_extra_len r);
  let msg := message output in
  rnd ← lift (slice msg 6 38);
  sid_len ← lift (idx msg 38);
  sid ← lift (slice msg 39 (39 + sid_len));
  _ ← require (negb (hs_quic_mode h && negb (sid_len =? 0)))
        (HandshakeFailure "QUIC ClientHello must use an empty legacy_session_id");
  _ ← modify (fun h =>
        set_ech_grease_extension (out_ech_grease_extension output)
          (set_extension_order (Some (shuffled_extensions output))
            (set_grease_values (Some (out_grease_values output))
              (set_key_pairs (key_shares output)
                (set_session_id (Some sid) (set_client_random (Some rnd) h))))));
  final ← match hs_psk_ticket h with
          | Some t => append_psk_extension msg t None
          | None => mret msg
          end;
  _ ← modify (fun h => set_state WaitServerHello (set_buffered_client_hello (Some final) h));
  mret final.

(** [build_client_hello_retry]. *)
Definition build_client_hello_retry (fuel : nat) (ck : option bytes) (replace_key_share : bool) : HM bytes :=
  h ← get;
  rnd ← ok_or (hs_client_random h) (HandshakeFailure "missing client_random for HRR");
  sid ← ok_or (hs_session_id h) (HandshakeFailure "missing session_id for HRR");
  let b := with_retry h rnd sid ck (builder_for h) in
  output ← run_build (fun r =>
    if replace_key_share
    then build_retry_with_key_pairs (RNG := OsRng SR) fuel b (hs_key_pairs h) r
    else build_cookie_retry_with_key_pairs (RNG := OsRng SR) fuel b (hs_key_pairs h) r);
  match hs_psk_ticket h with
  | Some t => append_psk_extension (message output) t (hs_transcript h)
  | None => mret (message output)
  end.

(** *** ECH acceptance *)

Definition fill_zero (l : bytes) (a n : Z) : bytes := take_z a l ++ zeros n ++ drop_z (a + n) l.

Definition check_ech_acceptance (h : Tls13Handshake) (alg : HkdfAlgorithm)
    (inner_hello server_hello_msg server_random : bytes) : Outcome TlsError bool :=
  let modified_sh :=
    if 38 <=? len server_hello_msg then fill_zero server_hello_msg 30 8 else server_hello_msg in
  let t := th_update (th_new alg) inner_hello in
  t ← (if hs_hrr_received h then
         let t := replace_with_message_hash t in
         match hs_hrr_raw_bytes h with
         | None => Err (HandshakeFailure "missing HRR transcript bytes for ECH")
         | Some hrr =>
             match hs_hrr_inner_ch2 h with
             | None => Err (HandshakeFailure "missing inner CH2 transcript bytes for ECH")
             | Some ch2 => Ok (th_update (th_update t hrr) ch2)
             end
         end
       else Ok t);
  let transcript_hash := current_hash (th_update t modified_sh) in
  if len inner_hello <? 38 then Ok false else
  inner_random ← slice inner_hello 6 38;
  ech_secret ← hkdf_extract alg (zeros (hash_len alg)) inner_random;
  conf ← expand_label ech_secret "ech accept confirmation" transcript_hash 8;
  expected ← slice server_random 24 32;
  computed ← slice conf 0 8;
  Ok (bool_decide (expected = computed)).

(** [while pos + 4 <= ext_end]: the message with the confirmation zeroed. *)
Fixpoint zero_hrr_loop (fuel : nat) (m : bytes) (ext_end pos : Z) : Outcome TlsError bytes :=
  match fuel with
  | 0%nat => Panic
  | S fuel =>
      let not_found := Err (HandshakeFailure "HRR ECH confirmation extension not found") in
      if pos + 4 <=? ext_end then
        extension_type ← read_u16 m pos;
        extension_len ← read_u16 m (pos + 2);
        let pos := pos + 4 in
        if ext_end <? pos + extension_len then not_found
        else if (extension_type =? ext_type.ENCRYPTED_CLIENT_HELLO) && (extension_len =? 8) then
          copy_at m pos (pos + 8) (zeros 8)
        else zero_hrr_loop fuel m ext_end (pos + extension_len)
      else not_found
  end.

Definition zero_hrr_ech_confirmation (m : bytes) : Outcome TlsError bytes :=
  if len m <? 4 + 2 + 32 + 1 + 2 + 1 + 2 then
    Err (HandshakeFailure "HRR too short for ECH confirmation") else
  sid_len ← idx m 38;
  let pos := 38 + (1 + sid_len) in
  if len m <? pos + 5 then Err (HandshakeFailure "malformed HRR before extensions") else
  let pos := pos + (2 + 1) in
  ext_len ← read_u16 m pos;
  let pos := pos + 2 in
  let ext_end := pos + ext_len in
  if len m <? ext_end then Err (HandshakeFailure "malformed HRR extensions length") else
  zero_hrr_loop (S (length m)) m ext_end pos.

Definition check_ech_hrr_acceptance (alg : HkdfAlgorithm) (inner_hello hrr_msg expected : bytes)
    : Outcome TlsError bool :=
  if len inner_hello <? 38 then Ok false else
  modified ← zero_hrr_ech_confirmation hrr_msg;
  let t := th_update (th_update (th_new alg) inner_hello) modified in
  inner_random ← slice inner_hello 6 38;
  ech_secret ← hkdf_extract alg (zeros (hash_len alg)) inner_random;
  conf ← expand_label ech_secret "hrr ech accept confirmation" (current_hash t) 8;
  Ok (bool_decide (expected = conf)).

(** *** Keys *)

(** The method [compute_shared_secret]. *)
Definition hs_compute_shared_secret (sh : ServerHello) : HM bytes :=
  '(server_group, server_public_key) ←
    ok_or (key_share (sh_extensions sh)) (HandshakeFailure "ServerHello missing key_share extension");
  h ← get;
  i ← ok_or (position (fun kp => group_code_point (kp_group kp) =? server_group) (hs_key_pairs h))
        (HandshakeFailure ("server selected group 0x" +:+ hex4 server_group
                             +:+ " but we don't have a key for it"));
  '(kp, rest) ← unwrap (swap_remove i (hs_key_pairs h));
  _ ← modify (set_key_pairs rest);
  lift (kx.compute_shared_secret kp server_public_key).

Definition derive_handshake_keys (alg : HkdfAlgorithm) (aead_alg : AeadAlgorithm) (shared_secret : bytes)
    : HM HandshakeKeys :=
  h ← get;
  let z := zeros (hash_len alg) in
  early_secret ←
    (if hs_psk_accepted h then
       match hs_early_secret_from_psk h with
       | Some es => _ ← modify (set_early_secret_from_psk None); mret es
       | None => lift (hkdf_extract alg z z)
       end
     else lift (hkdf_extract alg z z));
  handshake_secret ← lift (derive_next early_secret shared_secret);
  h ← get;
  t ← ok_or (hs_transcript h) (HandshakeFailure "missing transcript");
  let transcript_hash := current_hash t in
  client_hs ← lift (prk_derive_secret handshake_secret "c hs traffic" transcript_hash);
  server_hs ← lift (prk_derive_secret handshake_secret "s hs traffic" transcript_hash);
  client_key ← lift (hkdf_expand_label alg client_hs "key" [] (key_len aead_alg));
  client_iv ← lift (hkdf_expand_label alg client_hs "iv" [] (nonce_len aead_alg));
  server_key ← lift (hkdf_expand_label alg server_hs "key" [] (key_len aead_alg));
  server_iv ← lift (hkdf_expand_label alg server_hs "iv" [] (nonce_len aead_alg));
  _ ← log_secret "CLIENT_HANDSHAKE_TRAFFIC_SECRET" client_hs;
  _ ← log_secret "SERVER_HANDSHAKE_TRAFFIC_SECRET" server_hs;
  _ ← modify (fun h => set_server_hs_traffic_secret (Some server_hs)
                (set_client_hs_traffic_secret (Some client_hs)
                  (set_handshake_secret (Some handshake_secret) h)));
  mret {| hk_hkdf_algorithm := alg; hk_aead_algorithm := aead_alg; hk_server_secret := server_hs;
          hk_client_secret := client_hs; hk_server_key := server_key; hk_server_iv := server_iv;
          hk_client_key := client_key; hk_client_iv := client_iv |}.

(** *** HelloRetryRequest *)

(** The key share of the second ClientHello: whether it is replaced. *)
Definition hrr_key_share (sh : ServerHello) : HM bool :=
  match selected_group (sh_extensions sh) with
  | None => mret false
  | Some g =>
      h ← get;
      _ ← require (bool_decide (g ∈ supported_groups (hs_profile h)))
            (local_alert AIllegalParameter ("HRR requested group not offered in supported_groups: 0x" +:+ hex4 g));
      _ ← require (negb (existsb (fun kp => group_code_point (kp_group kp) =? g) (hs_key_pairs h)))
            (local_alert AIllegalParameter ("HRR requested group already present in CH1 key_share: 0x" +:+ hex4 g));
      kx ← ok_or (group_from_code_point g)
             (local_alert AIllegalParameter ("HRR requested unsupported group: 0x" +:+ hex4 g));
      kp ← env_try (generate_key_pair kx);
      _ ← modify (set_key_pairs [kp]);
      mret true
  end.

(** The ECH confirmation of the HelloRetryRequest. *)
Definition hrr_ech (full_msg : bytes) (sh : ServerHello) (alg : HkdfAlgorithm) : HM unit :=
  h ← get;
  if hs_ech_offered h then
    match ech_confirmation (sh_extensions sh) with
    | Some expected =>
        inner ← ok_or (hs_ech_inner_hello h)
                  (local_alert AInternalError "real ECH was offered without a saved inner ClientHello");
        ok ← lift (check_ech_hrr_acceptance alg inner full_msg expected);
        _ ← require ok (local_alert AIllegalParameter "ECH HRR accept confirmation mismatch");
        modify (set_ech_hrr_accepted (Some true))
    | None => modify (set_ech_hrr_accepted (Some false))
    end
  else require (negb (bool_decide (is_Some (ech_confirmation (sh_extensions sh)))))
         (local_alert AUnsupportedExtension "server sent ECH HRR confirmation without a real ECH offer").

Definition process_hello_retry_request (fuel : nat) (full_msg : bytes) (sh : ServerHello)
    (alg : HkdfAlgorithm) : HM HandshakeAction :=
  h ← get;
  _ ← require (negb (hs_hrr_received h))
        (local_alert AUnexpectedMessage "received second HelloRetryRequest");
  _ ← require (legacy_version sh =? 0x0303)
        (local_alert AIllegalParameter ("HRR legacy_version must be 0x0303, got 0x" +:+ hex4 (legacy_version sh)));
  _ ← require (bool_decide (supported_version (sh_extensions sh) = Some 0x0304))
        (local_alert AIllegalParameter "HRR must contain supported_versions selecting TLS 1.3");
  _ ← hrr_ech full_msg sh alg;
  _ ← modify (fun h => set_hrr_raw_bytes (Some full_msg) (set_hrr_received true h));
  _ ← modify (fun h =>
        let t := match hs_buffered_client_hello h with
                 | Some ch => th_update (th_new alg) ch
                 | None => th_new alg
                 end in
        set_transcript (Some (th_update (replace_with_message_hash t) full_msg)) h);
  replace_key_share ← hrr_key_share sh;
  _ ← require (replace_key_share || bool_decide (is_Some (sh_cookie (sh_extensions sh))))
        (local_alert AIllegalParameter "HRR would not change the second ClientHello");
  ch2 ← build_client_hello_retry fuel (sh_cookie (sh_extensions sh)) replace_key_share;
  _ ← update_transcript ch2;
  _ ← modify (fun h => set_state WaitServerHello (set_buffered_client_hello None h));
  mret (RetryClientHello ch2).

(** *** ServerHello *)

(** Whether the server accepted the PSK. *)
Definition accept_psk (sh : ServerHello) (alg : HkdfAlgorithm) : HM unit :=
  match selected_psk_identity (sh_extensions sh) with
  | None => mret tt
  | Some selected =>
      h ← get;
      match hs_psk_ticket h with
      | Some t =>
          if selected =? 0 then
            _ ← require (bool_decide (t_hkdf_algorithm t = alg))
                  (HandshakeFailure ("server selected PSK but cipher suite hash " +:+ hkdf_debug alg
                     +:+ " does not match ticket hash " +:+ hkdf_debug (t_hkdf_algorithm t)));
            modify (set_psk_accepted true)
          else fail (HandshakeFailure ("server selected PSK identity " +:+ pretty selected
                                         +:+ " but we only offered 1"))
      | None => fail (HandshakeFailure ("server selected PSK identity " +:+ pretty selected
                                          +:+ " but we only offered 1"))
      end
  end.

(** The transcript with the ServerHello. *)
Definition transcript_server_hello (full_msg : bytes) (alg : HkdfAlgorithm) : HM unit :=
  h ← get;
  if hs_hrr_received h then update_transcript full_msg
  else
    let t := match hs_buffered_client_hello h with
             | Some ch => th_update (th_new alg) ch
             | None => th_new alg
             end in
    modify (fun h => set_buffered_client_hello None
                       (set_transcript (Some (th_update t full_msg)) h)).

(** Detection of the server's acceptance of ECH. *)
Definition accept_ech (full_msg : bytes) (sh : ServerHello) (alg : HkdfAlgorithm) : HM unit :=
  h ← get;
  if hs_ech_offered h then
    match hs_ech_inner_hello h with
    | None => mret tt
    | Some inner =>
        accepted ← lift (check_ech_acceptance h alg inner full_msg (sh_random sh));
        _ ← match hs_ech_hrr_accepted h with
            | Some a => require (bool_decide (accepted = a))
                          (HandshakeFailure "server changed ECH acceptance across HelloRetryRequest")
            | None => mret tt
            end;
        if (accepted : bool) then
          let t := th_update (th_new alg) inner in
          let t := if hs_hrr_received h then
                     let t := replace_with_message_hash t in
                     let t := from_option (th_update t) t (hs_hrr_raw_bytes h) in
                     from_option (th_update t) t (hs_hrr_inner_ch2 h)
                   else t in
          modify (fun h => set_buffered_client_hello None
                             (set_transcript (Some (th_update t full_msg)) (set_ech_accepted true h)))
        else mret tt
    end
  else mret tt.

Definition process_server_hello (fuel : nat) (full_msg payload : bytes) : HM HandshakeAction :=
  sh ← lift (parse_server_hello payload);
  _ ← require (is_tls13 sh) (HandshakeFailure "server did not negotiate TLS 1.3");
  _ ← require (compression_method sh =? 0)
        (HandshakeFailure ("ServerHello compression_method must be 0, got "
                             +:+ pretty (compression_method sh)));
  h ← get;
  _ ← require (match hs_session_id h with
               | Some sid => bool_decide (sh_session_id sh = sid)
               | None => true
               end) (HandshakeFailure "ServerHello session_id does not match ClientHello");
  '(alg, aead_alg) ← lift (cipher_suite_info (sh_cipher_suite sh));
  _ ← require (bool_decide (sh_cipher_suite sh ∈ cipher_suites (hs_profile h)))
        (HandshakeFailure ("server selected cipher suite 0x" +:+ hex4 (sh_cipher_suite sh)
                             +:+ " not offered by client"));
  _ ← match hs_hrr_received h, hs_cipher_suite h with
      | true, Some prev =>
          require (prev =? sh_cipher_suite sh)
            (HandshakeFailure ("ServerHello cipher suite 0x" +:+ hex4 (sh_cipher_suite sh)
                                 +:+ " differs from HRR 0x" +:+ hex4 prev))
      | _, _ => mret tt
      end;
  _ ← modify (fun h => set_aead_algorithm (Some aead_alg)
                (set_hkdf_algorithm (Some alg) (set_cipher_suite (Some (sh_cipher_suite sh)) h)));
  if is_hello_retry_request sh then process_hello_retry_request fuel full_msg sh alg
  else
    _ ← accept_psk sh alg;
    _ ← transcript_server_hello full_msg alg;
    shared_secret ← hs_compute_shared_secret sh;
    _ ← accept_ech full_msg sh alg;
    keys ← derive_handshake_keys alg aead_alg shared_secret;
    _ ← modify (set_state WaitEncryptedExtensions);
    mret (InstallHandshakeKeys keys).

(** *** EncryptedExtensions *)

(** The match on the extension type: whether it was the QUIC transport
    parameters. *)
Definition ee_extension (extension_type : Z) (d : bytes) : HM bool :=
  match extension_type with
  | 0x0010 =>
      if 4 <=? len d then
        name_len ← lift (idx d 2);
        if 3 + name_len <=? len d then
          proto ← lift (slice d 3 (3 + name_len));
          _ ← modify (set_negotiated_alpn (Some (from_utf8_lossy proto)));
          mret false
        else mret false
      else mret false
  | 0x4469 | 0x44CD =>
      _ ← modify (fun h => set_alps_code_point (Some extension_type) (set_server_alps_data (Some d) h));
      mret false
  | 0xFE0D => _ ← modify (set_ech_retry_configs (Some d)); mret false
  | 0x002a => _ ← modify (set_early_data_accepted true); mret false
  | 0x0039 =>
      params ← lift (decode_transport_params d);
      _ ← modify (set_peer_quic_transport_params (Some params));
      mret true
  | _ => mret false
  end.

(** [while pos + 4 <= ext_end]: whether QUIC transport parameters were seen. *)
Fixpoint ee_loop (fuel : nat) (payload : bytes) (ext_end pos : Z) (saw_quic : bool) : HM bool :=
  match fuel with
  | 0%nat => panic
  | S fuel =>
      if pos + 4 <=? ext_end then
        extension_type ← lift (read_u16 payload pos);
        ext_data_len ← lift (read_u16 payload (pos + 2));
        let pos := pos + 4 in
        if ext_end <? pos + ext_data_len then mret saw_quic
        else
          d ← lift (slice payload pos (pos + ext_data_len));
          q ← ee_extension extension_type d;
          ee_loop fuel payload ext_end (pos + ext_data_len) (saw_quic || q)
      else mret saw_quic
  end.

Definition process_encrypted_extensions (full_msg payload : bytes) : HM HandshakeAction :=
  _ ← update_transcript full_msg;
  _ ← require (2 <=? len payload) (UnexpectedMessage "EncryptedExtensions too short");
  ext_len ← lift (read_u16 payload 0);
  _ ← require (2 + ext_len <=? len payload) (UnexpectedMessage "EncryptedExtensions length mismatch");
  saw_quic ← ee_loop (S (length payload)) payload (2 + ext_len) 2 false;
  h ← get;
  _ ← require (negb (hs_quic_mode h && negb saw_quic))
        (HandshakeFailure "server did not provide QUIC transport parameters");
  _ ← modify (set_state (if hs_psk_accepted h then WaitFinished else WaitCertificate));
  mret ContinueReading.

(** *** Certificates *)

Definition process_certificate_request (full_msg payload : bytes) : HM HandshakeAction :=
  context ← lift (parse_certificate_request_context payload);
  _ ← modify (set_client_certificate_request_context (Some context));
  _ ← update_transcript full_msg;
  mret ContinueReading.

Definition install_certificates (message : bytes) : HM HandshakeAction :=
  certs ← lift (parse_certificate_message message);
  _ ← modify (set_server_certificates certs);
  _ ← require (negb (is_empty certs)) (CertificateError "server sent empty certificate chain");
  _ ← modify (set_state WaitCertificateVerify);
  mret ContinueReading.

Definition process_certificate (full_msg payload : bytes) : HM HandshakeAction :=
  _ ← update_transcript full_msg;
  install_certificates payload.

Definition process_compressed_certificate (full_msg payload : bytes) : HM HandshakeAction :=
  _ ← update_transcript full_msg;
  _ ← require (5 <=? len payload) (UnexpectedMessage "CompressedCertificate too short");
  algorithm ← lift (read_u16 payload 0);
  uncompressed_length ← lift (read_u24 payload 2);
  _ ← require (8 <=? len payload) (UnexpectedMessage "CompressedCertificate truncated");
  compressed_len ← lift (read_u24 payload 5);
  _ ← require (8 + compressed_len <=? len payload)
        (UnexpectedMessage "CompressedCertificate data extends past message");
  compressed ← lift (slice payload 8 (8 + compressed_len));
  decompressed ← lift (decompress_certificate algorithm compressed uncompressed_length);
  install_certificates decompressed.

Definition process_certificate_verify (full_msg payload : bytes) : HM HandshakeAction :=
  h ← get;
  t ← ok_or (hs_transcript h) (HandshakeFailure "missing transcript");
  let transcript_hash := current_hash t in
  _ ← update_transcript full_msg;
  if is_insecure (hs_verification_policy h) then
    _ ← modify (set_state WaitFinished); mret ContinueReading
  else
    _ ← require (4 <=? len payload) (UnexpectedMessage "CertificateVerify too short");
    sig_scheme ← lift (read_u16 payload 0);
    sig_len ← lift (read_u16 payload 2);
    _ ← require (4 + sig_len <=? len payload)
          (UnexpectedMessage "CertificateVerify signature length mismatch");
    signature ← lift (slice payload 4 (4 + sig_len));
    leaf ← unwrap (head (hs_server_certificates h));
    _ ← lift (policy_verify_certificate_verify (hs_verification_policy h) sig_scheme leaf
                transcript_hash signature);
    now ← env system_now;
    _ ← lift (policy_verify_certificate_chain (hs_verification_policy h) (hs_server_certificates h)
                (hs_hostname h) now (hs_custom_ca_anchors h));
    _ ← modify (set_state WaitFinished);
    mret ContinueReading.

(** *** Finished *)

Definition build_finished (verify_data : bytes) : bytes :=
  [handshake_type.FINISHED] ++ be24 (as_u32 (len verify_data)) ++ verify_data.

Definition process_finished (full_msg payload : bytes) : HM HandshakeAction :=
  h ← get;
  alg ← unwrap (hs_hkdf_algorithm h);
  aead_alg ← unwrap (hs_aead_algorithm h);
  t ← ok_or (hs_transcript h) (HandshakeFailure "missing transcript");
  server_hs ← ok_or (hs_server_hs_traffic_secret h)
                (HandshakeFailure "missing server_hs_traffic_secret");
  expected ← lift (compute_finished_verify_data alg server_hs (current_hash t));
  _ ← require (bool_decide (payload = expected))
        (HandshakeFailure "server Finished verify_data mismatch");
  _ ← update_transcript full_msg;
  handshake_secret ← ok_or (hs_handshake_secret h) (HandshakeFailure "missing handshake_secret");
  _ ← modify (set_handshake_secret None);
  master_secret ← lift (derive_next handshake_secret (zeros (hash_len alg)));
  h ← get;
  t ← unwrap (hs_transcript h);
  let th_ch_sf := current_hash t in
  client_app ← lift (prk_derive_secret master_secret "c ap traffic" th_ch_sf);
  server_app ← lift (prk_derive_secret master_secret "s ap traffic" th_ch_sf);
  exporter ← lift (prk_derive_secret master_secret "exp master" th_ch_sf);
  _ ← log_secret "CLIENT_TRAFFIC_SECRET_0" client_app;
  _ ← log_secret "SERVER_TRAFFIC_SECRET_0" server_app;
  client_key ← lift (hkdf_expand_label alg client_app "key" [] (key_len aead_alg));
  client_iv ← lift (hkdf_expand_label alg client_app "iv" [] (nonce_len aead_alg));
  server_key ← lift (hkdf_expand_label alg server_app "key" [] (key_len aead_alg));
  server_iv ← lift (hkdf_expand_label alg server_app "iv" [] (nonce_len aead_alg));
  let client_ee := build_client_encrypted_extensions h in
  _ ← from_option update_transcript (mret tt) client_ee;
  let client_certificate := build_empty_client_certificate <$> hs_client_certificate_request_context h in
  _ ← from_option update_transcript (mret tt) client_certificate;
  client_hs ← ok_or (hs_client_hs_traffic_secret h)
                (HandshakeFailure "missing client_hs_traffic_secret");
  h ← get;
  t ← unwrap (hs_transcript h);
  verify_data ← lift (compute_finished_verify_data alg client_hs (current_hash t));
  let client_finished := build_finished verify_data in
  _ ← update_transcript client_finished;
  h ← get;
  t ← unwrap (hs_transcript h);
  resumption ← lift (prk_derive_secret master_secret "res master" (current_hash t));
  _ ← modify (set_state Connected);
  mret (Complete {|
    hc_client_encrypted_extensions := client_ee;
    hc_client_certificate := client_certificate;
    hc_client_finished := client_finished;
    hc_traffic_secrets := {|
      ts_aead_algorithm := aead_alg; ts_hkdf_algorithm := alg;
      ts_client_key := client_key; ts_client_iv := client_iv;
      ts_server_key := server_key; ts_server_iv := server_iv;
      ts_server_app_secret := server_app; ts_client_app_secret := client_app;
      ts_exporter_master_secret := exporter |};
    hc_negotiated_alpn := hs_negotiated_alpn h;
    hc_resumption_master_secret := resumption;
    hc_negotiated_cipher_suite := default 0x1301 (hs_cipher_suite h);
    hc_server_certificates := hs_server_certificates h;
    hc_ech_retry_configs := hs_ech_retry_configs h;
    hc_ech_accepted := hs_ech_accepted h;
    hc_peer_quic_transport_params := hs_peer_quic_transport_params h;
    hc_early_data_accepted := hs_early_data_accepted h |}).

(** *** Dispatch *)

Definition process_single_message (fuel : nat) (msg_type : Z) (full_msg payload : bytes)
    : HM HandshakeAction :=
  h ← get;
  let unexpected :=
    fail (UnexpectedMessage ("unexpected message type 0x" +:+ hex2 msg_type +:+ " in state "
                               +:+ state_debug (hs_state h))) in
  match hs_state h with
  | WaitServerHello =>
      if msg_type =? handshake_type.SERVER_HELLO then process_server_hello fuel full_msg payload
      else unexpected
  | WaitEncryptedExtensions =>
      if msg_type =? handshake_type.ENCRYPTED_EXTENSIONS then process_encrypted_extensions full_msg payload
      else unexpected
  | WaitCertificate =>
      if msg_type =? handshake_type.CERTIFICATE_REQUEST then process_certificate_request full_msg payload
      else if msg_type =? handshake_type.CERTIFICATE then process_certificate full_msg payload
      else if msg_type =? handshake_type.COMPRESSED_CERTIFICATE then process_compressed_certificate full_msg payload
      else unexpected
  | WaitCertificateVerify =>
      if msg_type =? handshake_type.CERTIFICATE_VERIFY then process_certificate_verify full_msg payload
      else unexpected
  | WaitFinished =>
      if msg_type =? handshake_type.FINISHED then process_finished full_msg payload
      else unexpected
  | Start | Connected => unexpected
  end.

(** [while pos + 4 <= data.len()], with the action of the last message. *)
Fixpoint record_loop (fuel sfuel : nat) (data : bytes) (pos : Z) (last_action : HandshakeAction)
    : HM HandshakeAction :=
  match fuel with
  | 0%nat => panic
  | S fuel =>
      if pos + 4 <=? len data then
        msg_type ← lift (idx data pos);
        length ← lift (read_u24 data (pos + 1));
        let msg_end := pos + 4 + length in
        if len data <? msg_end then
          fail (UnexpectedMessage "truncated handshake message in record")
        else
          full_msg ← lift (slice data pos msg_end);
          payload ← lift (slice data (pos + 4) msg_end);
          action ← process_single_message sfuel msg_type full_msg payload;
          record_loop fuel sfuel data msg_end action
      else mret last_action
  end.

Definition process_handshake_record (sfuel : nat) (data : bytes) : HM HandshakeAction :=
  record_loop (S (length data)) sfuel data 0 ContinueReading.

End handshake.
End tls13.
