(* ===== verification/Tls12.v ===== *)
(** * TLS 1.2 handshake (lktls/src/handshake/tls12.rs)

    The client's side of the full handshake (ECDHE or RSA key exchange) and of
    the resumption with a session ticket, from the ServerHello to the server's
    Finished.  Methods are computations over the handshake object as in [Tls13];
    [rsa] of aws-lc-rs is the class [RsaCrate].  The field [key_pair] of the
    source is never assigned. *)
From S2P Require Import Prelude TlsError StateM TlsCipher TlsRecord TlsKx ServerHello TlsHkdf CertChain SessionStore Hpack Tls12Prf Tls13.
Import error statem tls12_cipher record kx server_hello hkdf certchain session_store prf.

(** [PublicEncryptingKey::from_der], [Pkcs1PublicEncryptingKey::new] and
    [encrypt]; [None] is the error. *)
Class RsaCrate (R PK EK : Type) : Type := {
  rsa_from_der : bytes -> option PK;
  pkcs1_new : PK -> option EK;
  pkcs1_encrypt : EK -> bytes -> R -> option bytes * R;
}.

Module tls12.

Inductive Tls12State : Type :=
| WaitServerHello
| WaitCertificateOrAbbreviated
| WaitCertificate
| WaitServerKeyExchange
| WaitServerHelloDone
| SendClientKeyExchange
| WaitServerChangeCipherSpec
| WaitServerFinished
| Connected.
#[export] Instance tls12_state_eq_dec : EqDecision Tls12State.
Proof. solve_decision. Defined.

Definition state12_debug (s : Tls12State) : string :=
  match s with
  | WaitServerHello => "WaitServerHello"
  | WaitCertificateOrAbbreviated => "WaitCertificateOrAbbreviated"
  | WaitCertificate => "WaitCertificate"
  | WaitServerKeyExchange => "WaitServerKeyExchange"
  | WaitServerHelloDone => "WaitServerHelloDone"
  | SendClientKeyExchange => "SendClientKeyExchange"
  | WaitServerChangeCipherSpec => "WaitServerChangeCipherSpec"
  | WaitServerFinished => "WaitServerFinished"
  | Connected => "Connected"
  end.

Record Tls12TrafficKeys : Type := mkKeys12 {
  tk_cipher_suite : Tls12CipherSuite;
  tk_client_write_key : bytes;
  tk_server_write_key : bytes;
  tk_client_write_iv : bytes;
  tk_server_write_iv : bytes;
  tk_client_write_mac_key : bytes;
  tk_server_write_mac_key : bytes;
}.

Record Tls12ClientFlight : Type := mkFlight {
  cf_client_certificate : option bytes;
  cf_client_key_exchange : bytes;
  cf_client_finished : bytes;
  cf_traffic_keys : Tls12TrafficKeys;
}.

Record Tls12AbbreviatedFlight : Type := mkAbbreviated {
  af_client_finished : bytes;
  af_traffic_keys : Tls12TrafficKeys;
}.

Inductive Tls12HandshakeAction : Type :=
| ContinueReading
| SendClientFlight (f : Tls12ClientFlight)
| SendAbbreviatedFlight (f : Tls12AbbreviatedFlight)
| Complete (k : Tls12TrafficKeys).

(** The keys of the suite from the key block. *)
Definition keys_of (suite : Tls12CipherSuite) (kb : KeyBlock) : Tls12TrafficKeys :=
  {| tk_cipher_suite := suite;
     tk_client_write_key := kb_client_write_key kb; tk_server_write_key := kb_server_write_key kb;
     tk_client_write_iv := kb_client_write_iv kb; tk_server_write_iv := kb_server_write_iv kb;
     tk_client_write_mac_key := kb_client_write_mac_key kb;
     tk_server_write_mac_key := kb_server_write_mac_key kb |}.

(** [{:?}] of a suite. *)
Definition suite_debug (s : Tls12CipherSuite) : string :=
  match s with
  | EcdheEcdsaAes128GcmSha256 => "EcdheEcdsaAes128GcmSha256"
  | EcdheRsaAes128GcmSha256 => "EcdheRsaAes128GcmSha256"
  | EcdheEcdsaAes256GcmSha384 => "EcdheEcdsaAes256GcmSha384"
  | EcdheRsaAes256GcmSha384 => "EcdheRsaAes256GcmSha384"
  | EcdheEcdsaChacha20Poly1305 => "EcdheEcdsaChacha20Poly1305"
  | EcdheRsaChacha20Poly1305 => "EcdheRsaChacha20Poly1305"
  | EcdheRsaAes128CbcSha => "EcdheRsaAes128CbcSha"
  | EcdheRsaAes256CbcSha => "EcdheRsaAes256CbcSha"
  | EcdheRsaAes128CbcSha256 => "EcdheRsaAes128CbcSha256"
  | EcdheRsaAes256CbcSha384 => "EcdheRsaAes256CbcSha384"
  | RsaAes256CbcSha => "RsaAes256CbcSha"
  | RsaAes128CbcSha => "RsaAes128CbcSha"
  | RsaAes256CbcSha256 => "RsaAes256CbcSha256"
  | RsaAes128CbcSha256 => "RsaAes128CbcSha256"
  | RsaAes128GcmSha256 => "RsaAes128GcmSha256"
  | RsaAes256GcmSha384 => "RsaAes256GcmSha384"
  end.

(** The MAC of a CBC suite. *)
Definition cbc_mac_algorithm (s : Tls12CipherSuite) : option CbcMacAlgorithm :=
  match s with
  | EcdheRsaAes128CbcSha | EcdheRsaAes256CbcSha | RsaAes128CbcSha | RsaAes256CbcSha => Some HmacSha1
  | EcdheRsaAes128CbcSha256 | RsaAes128CbcSha256 | RsaAes256CbcSha256 => Some HmacSha256
  | EcdheRsaAes256CbcSha384 => Some HmacSha384
  | _ => None
  end.

Section ciphers.
Context {C : Crypto}.

Definition create_tls12_record_cipher (suite : Tls12CipherSuite) (key iv mac_key : bytes)
    : Outcome TlsError Tls12RecordCipher :=
  match suite with
  | EcdheEcdsaChacha20Poly1305 | EcdheRsaChacha20Poly1305 =>
      if negb (len iv =? 12) then
        Err (CryptoError ("ChaCha20-Poly1305 IV must be 12 bytes, got " +:+ pretty (len iv)))
      else if negb (len key =? 32) then
        Err (CryptoError ("ChaCha20-Poly1305 key must be 32 bytes, got " +:+ pretty (len key)))
      else c ← chacha_new key iv; Ok (Chacha20 c)
  | _ =>
      if is_aead suite then
        if negb (len iv =? 4) then
          Err (CryptoError ("GCM implicit IV must be 4 bytes, got " +:+ pretty (len iv)))
        else c ← gcm_new key iv (len key =? 32); Ok (Gcm c)
      else if is_cbc suite then
        match cbc_mac_algorithm suite with
        | Some mac_algo => Ok (Cbc (cbc_new key mac_key mac_algo))
        | None => Err (CryptoError ("Unknown CBC MAC algorithm for suite " +:+ suite_debug suite))
        end
      else Err (NotImplemented ("Unsupported TLS 1.2 cipher suite: " +:+ suite_debug suite))
  end.

Definition to_record_cipher (k : Tls12TrafficKeys) (client_side : bool) : Outcome TlsError Tls12RecordCipher :=
  if client_side
  then create_tls12_record_cipher (tk_cipher_suite k) (tk_client_write_key k) (tk_client_write_iv k)
         (tk_client_write_mac_key k)
  else create_tls12_record_cipher (tk_cipher_suite k) (tk_server_write_key k) (tk_server_write_iv k)
         (tk_server_write_mac_key k).

Definition install_on_writer (k : Tls12TrafficKeys) (w : RecordWriter) : Outcome TlsError RecordWriter :=
  c ← to_record_cipher k true; Ok (writer_set_tls12_keys w c).
Definition install_on_reader (k : Tls12TrafficKeys) (rd : RecordReader) : Outcome TlsError RecordReader :=
  c ← to_record_cipher k false; Ok (reader_set_tls12_keys rd c).

End ciphers.

Definition build_handshake_message (msg_type : Z) (body : bytes) : bytes :=
  [msg_type; as_u8 (len body ≫ 16); as_u8 (len body ≫ 8); as_u8 (len body)] ++ body.

Record ServerKxParams : Type := mkKxParams {
  kx_curve : Z;
  kx_public_key : bytes;
  kx_signature_algorithm : Z;
  kx_signature : bytes;
  kx_signed_params : bytes;
}.

Record TranscriptHash : Type := mkTh12 { th12_context : bytes; th12_algorithm : PrfAlgorithm }.

(** ** The handshake *)

Section handshake.
Context {R K D P O E T N PK EK : Type}.
Context {SR : SystemRandom R} {AG : Agreement R K D} {CK : Clock R} {H : Hkdf P O} {C : Crypto}.
Context {SG : Signatures} {W : Webpki E T N} {RS : RsaCrate R PK EK}.

(** [digest] with the hash of the PRF. *)
Definition prf_digest (a : PrfAlgorithm) (m : bytes) : bytes :=
  digest (match a with PrfSha256 => HkdfSha256 | PrfSha384 => HkdfSha384 end) m.
Definition th12_new (a : PrfAlgorithm) : TranscriptHash := {| th12_context := []; th12_algorithm := a |}.
Definition th12_update (t : TranscriptHash) (data : bytes) : TranscriptHash :=
  {| th12_context := th12_context t ++ data; th12_algorithm := th12_algorithm t |}.
Definition th12_current_hash (t : TranscriptHash) : bytes := prf_digest (th12_algorithm t) (th12_context t).

Record Tls12Handshake : Type := mkHs12 {
  h_state : Tls12State;
  h_transcript : option TranscriptHash;
  h_client_hello_bytes : bytes;
  h_client_random : bytes;
  h_server_random : bytes;
  h_cipher_suite : option Tls12CipherSuite;
  h_prf_algorithm : PrfAlgorithm;
  h_server_certificates : list bytes;
  h_client_certificate_requested : bool;
  h_server_kx_params : option ServerKxParams;
  h_key_pair : option (EphemeralKeyPair K D);
  h_master_secret : option bytes;
  h_hostname : bytes;
  h_verification_policy : VerificationPolicy;
  h_custom_ca_anchors : option (list T);
  h_negotiated_alpn : option bytes;
  h_use_extended_master_secret : bool;
  h_resumed_master_secret : option bytes;
  h_abbreviated : bool;
}.

(** The record rebuilt from its fields, and the assignment to one of them. *)
Definition h_eta (h : Tls12Handshake) : Tls12Handshake :=
  {| h_state := h_state h;
     h_transcript := h_transcript h;
     h_client_hello_bytes := h_client_hello_bytes h;
     h_client_random := h_client_random h;
     h_server_random := h_server_random h;
     h_cipher_suite := h_cipher_suite h;
     h_prf_algorithm := h_prf_algorithm h;
     h_server_certificates := h_server_certificates h;
     h_client_certificate_requested := h_client_certificate_requested h;
     h_server_kx_params := h_server_kx_params h;
     h_key_pair := h_key_pair h;
     h_master_secret := h_master_secret h;
     h_hostname := h_hostname h;
     h_verification_policy := h_verification_policy h;
     h_custom_ca_anchors := h_custom_ca_anchors h;
     h_negotiated_alpn := h_negotiated_alpn h;
     h_use_extended_master_secret := h_use_extended_master_secret h;
     h_resumed_master_secret := h_resumed_master_secret h;
     h_abbreviated := h_abbreviated h |}.
Ltac assign12 field v h :=
  let e := eval cbv beta delta [h_eta] in (h_eta h) in
  match e with context C [field h] => let r := context C [v] in exact r end.
Definition put_state (v : Tls12State) (h : Tls12Handshake) : Tls12Handshake := ltac:(assign12 h_state v h).
Definition put_transcript (v : option TranscriptHash) (h : Tls12Handshake) : Tls12Handshake := ltac:(assign12 h_transcript v h).
Definition put_client_hello_bytes (v : bytes) (h : Tls12Handshake) : Tls12Handshake := ltac:(assign12 h_client_hello_bytes v h).
Definition put_server_random (v : bytes) (h : Tls12Handshake) : Tls12Handshake := ltac:(assign12 h_server_random v h).
Definition put_cipher_suite (v : option Tls12CipherSuite) (h : Tls12Handshake) : Tls12Handshake := ltac:(assign12 h_cipher_suite v h).
Definition put_prf_algorithm (v : PrfAlgorithm) (h : Tls12Handshake) : Tls12Handshake := ltac:(assign12 h_prf_algorithm v h).
Definition put_server_certificates (v : list bytes) (h : Tls12Handshake) : Tls12Handshake := ltac:(assign12 h_server_certificates v h).
Definition put_client_certificate_requested (v : bool) (h : Tls12Handshake) : Tls12Handshake := ltac:(assign12 h_client_certificate_requested v h).
Definition put_server_kx_params (v : option ServerKxParams) (h : Tls12Handshake) : Tls12Handshake := ltac:(assign12 h_server_kx_params v h).
Definition put_master_secret (v : option bytes) (h : Tls12Handshake) : Tls12Handshake := ltac:(assign12 h_master_secret v h).
Definition put_custom_ca_anchors (v : option (list T)) (h : Tls12Handshake) : Tls12Handshake := ltac:(assign12 h_custom_ca_anchors v h).
Definition put_negotiated_alpn (v : option bytes) (h : Tls12Handshake) : Tls12Handshake := ltac:(assign12 h_negotiated_alpn v h).
Definition put_use_extended_master_secret (v : bool) (h : Tls12Handshake) : Tls12Handshake := ltac:(assign12 h_use_extended_master_secret v h).
Definition put_resumed_master_secret (v : option bytes) (h : Tls12Handshake) : Tls12Handshake := ltac:(assign12 h_resumed_master_secret v h).
Definition put_abbreviated (v : bool) (h : Tls12Handshake) : Tls12Handshake := ltac:(assign12 h_abbreviated v h).

Abbreviation M := (SM Tls12Handshake R).

Definition handshake12_new (client_random hostname : bytes) (policy : VerificationPolicy) : Tls12Handshake :=
  {| h_state := WaitServerHello; h_transcript := None; h_client_hello_bytes := [];
     h_client_random := client_random; h_server_random := replicate 32 0; h_cipher_suite := None;
     h_prf_algorithm := PrfSha256; h_server_certificates := []; h_client_certificate_requested := false;
     h_server_kx_params := None; h_key_pair := None; h_master_secret := None; h_hostname := hostname;
     h_verification_policy := policy; h_custom_ca_anchors := None; h_negotiated_alpn := None;
     h_use_extended_master_secret := false; h_resumed_master_secret := None; h_abbreviated := false |}.

Definition set_session_ticket_master_secret (ms : bytes) (h : Tls12Handshake) : Tls12Handshake :=
  put_resumed_master_secret (Some ms) h.
Definition set_custom_ca_anchors (anchors : list T) (h : Tls12Handshake) : Tls12Handshake :=
  put_custom_ca_anchors (Some anchors) h.

Definition feed_client_hello (ch_bytes : bytes) (h : Tls12Handshake) : Tls12Handshake :=
  put_transcript (Some (th12_update (th12_new PrfSha256) ch_bytes)) (put_client_hello_bytes ch_bytes h).

(** [if let Some(ref mut t) = self.transcript { t.update(msg) }]. *)
Definition feed_handshake_message (msg : bytes) (h : Tls12Handshake) : Tls12Handshake :=
  put_transcript ((fun t => th12_update t msg) <$> h_transcript h) h.

Definition notify_server_ccs_received (h : Tls12Handshake) : Tls12Handshake :=
  if bool_decide (h_state h = WaitServerChangeCipherSpec) then put_state WaitServerFinished h else h.

Definition key_block (h : Tls12Handshake) (suite : Tls12CipherSuite) (ms : bytes) : Outcome TlsError KeyBlock :=
  expand_key_block (h_prf_algorithm h) ms (h_server_random h) (h_client_random h)
    (mac_key_len suite) (enc_key_len suite) (fixed_iv_len suite).

(** *** ServerHello *)

(** [while ext_offset + 4 <= ext_end && ext_offset + 4 <= body.len()]. *)
Fixpoint sh12_ext_loop (fuel : nat) (body : bytes) (ext_end ext_offset : Z) : M unit :=
  match fuel with
  | 0%nat => panic
  | S fuel =>
      if (ext_offset + 4 <=? ext_end) && (ext_offset + 4 <=? len body) then
        ext_type ← lift (read_u16 body ext_offset);
        ext_len ← lift (read_u16 body (ext_offset + 2));
        let ext_offset := ext_offset + 4 in
        if len body <? ext_offset + ext_len then mret tt
        else
          _ ← (if ext_type =? 0x0017 then modify (put_use_extended_master_secret true) else mret tt);
          _ ← (if (ext_type =? 0x0010) && (2 <=? ext_len) then
                 alpn_data ← lift (slice body ext_offset (ext_offset + ext_len));
                 alpn_list_len ← lift (read_u16 alpn_data 0);
                 if (0 <? alpn_list_len) && (2 <? len alpn_data) then
                   proto_len ← lift (idx alpn_data 2);
                   if 3 + proto_len <=? len alpn_data then
                     proto ← lift (slice alpn_data 3 (3 + proto_len));
                     if is_utf8 proto then modify (put_negotiated_alpn (Some proto)) else mret tt
                   else mret tt
                 else mret tt
               else mret tt);
          sh12_ext_loop fuel body ext_end (ext_offset + ext_len)
      else mret tt
  end.

Definition process_server_hello (body full_msg : bytes) : M Tls12HandshakeAction :=
  _ ← require (38 <=? len body) (HandshakeFailure "ServerHello too short");
  server_random ← lift (slice body 2 34);
  _ ← modify (put_server_random server_random);
  session_id_len ← lift (idx body 34);
  let offset := 35 + session_id_len in
  _ ← require (offset + 3 <=? len body) (HandshakeFailure "ServerHello truncated");
  cipher_suite_code ← lift (read_u16 body offset);
  suite ← ok_or (from_code_point cipher_suite_code)
            (HandshakeFailure ("unsupported TLS 1.2 cipher suite: 0x" +:+ hex4 cipher_suite_code));
  _ ← modify (fun h => put_prf_algorithm (prf_algorithm suite) (put_cipher_suite (Some suite) h));
  let ext_start := offset + 3 in
  _ ← (if ext_start + 2 <=? len body then
         extensions_len ← lift (read_u16 body ext_start);
         sh12_ext_loop (S (length body)) body (ext_start + 2 + extensions_len) (ext_start + 2)
       else mret tt);
  _ ← modify (fun h =>
        if bool_decide (prf_algorithm suite = PrfSha256) then feed_handshake_message full_msg h
        else put_transcript (Some (th12_update (th12_update (th12_new (prf_algorithm suite))
               (h_client_hello_bytes h)) full_msg)) h);
  _ ← modify (fun h => put_state
        (if bool_decide (is_Some (h_resumed_master_secret h)) then WaitCertificateOrAbbreviated
         else WaitCertificate) h);
  mret ContinueReading.

(** *** Certificate *)

(** [while offset < 3 + total_len]. *)
Fixpoint cert12_loop (fuel : nat) (body : bytes) (list_end offset : Z) (certs : list bytes)
    : Outcome TlsError (list bytes) :=
  match fuel with
  | 0%nat => Panic
  | S fuel =>
      if offset <? list_end then
        if len body <? offset + 3 then Ok certs else
        cert_len ← tls13.read_u24 body offset;
        let offset := offset + 3 in
        if len body <? offset + cert_len then Err (HandshakeFailure "Certificate truncated") else
        c ← slice body offset (offset + cert_len);
        cert12_loop fuel body list_end (offset + cert_len) (certs ++ [c])
      else Ok certs
  end.

Definition process_certificate (body full_msg : bytes) : M Tls12HandshakeAction :=
  _ ← require (3 <=? len body) (HandshakeFailure "Certificate message too short");
  total_len ← lift (tls13.read_u24 body 0);
  certs ← lift (cert12_loop (S (length body)) body (3 + total_len) 3 []);
  _ ← require (negb (is_empty certs)) (CertificateError "server sent no certificates");
  h ← get;
  now ← env system_now;
  _ ← lift (policy_verify_certificate_chain (h_verification_policy h) certs (h_hostname h) now
              (h_custom_ca_anchors h));
  _ ← modify (put_server_certificates certs);
  _ ← modify (feed_handshake_message full_msg);
  suite ← ok_or (h_cipher_suite h) (HandshakeFailure "no cipher suite");
  _ ← modify (put_state (match key_exchange suite with
                         | Rsa => WaitServerHelloDone
                         | Ecdhe => WaitServerKeyExchange
                         end));
  mret ContinueReading.

(** *** ServerKeyExchange *)

Definition process_server_key_exchange (body full_msg : bytes) : M Tls12HandshakeAction :=
  _ ← require (5 <=? len body) (HandshakeFailure "ServerKeyExchange too short");
  curve_type ← lift (idx body 0);
  _ ← require (curve_type =? 0x03)
        (HandshakeFailure ("unsupported curve type: 0x" +:+ hex2 curve_type
                             +:+ " (only named_curve supported)"));
  named_curve ← lift (read_u16 body 1);
  pubkey_len ← lift (idx body 3);
  _ ← require (4 + pubkey_len + 4 <=? len body) (HandshakeFailure "ServerKeyExchange truncated");
  public_key ← lift (slice body 4 (4 + pubkey_len));
  signed_params ← lift (slice body 0 (4 + pubkey_len));
  let sig_offset := 4 + pubkey_len in
  sig_algorithm ← lift (read_u16 body sig_offset);
  sig_len ← lift (read_u16 body (sig_offset + 2));
  _ ← require (sig_offset + 4 + sig_len <=? len body)
        (HandshakeFailure "ServerKeyExchange signature truncated");
  signature ← lift (slice body (sig_offset + 4) (sig_offset + 4 + sig_len));
  h ← get;
  _ ← match h_server_certificates h with
      | [] => mret tt
      | leaf :: _ =>
          lift (policy_verify_server_key_exchange_signature (h_verification_policy h) leaf sig_algorithm
                  (h_client_random h ++ h_server_random h ++ signed_params) signature)
      end;
  _ ← modify (put_server_kx_params (Some {| kx_curve := named_curve; kx_public_key := public_key;
         kx_signature_algorithm := sig_algorithm; kx_signature := signature;
         kx_signed_params := signed_params |}));
  _ ← modify (feed_handshake_message full_msg);
  _ ← modify (put_state WaitServerHelloDone);
  mret ContinueReading.

(** *** Key exchange *)

Definition build_ecdhe_key_exchange : M (bytes * bytes) :=
  h ← get;
  kx_params ← ok_or (h_server_kx_params h) (HandshakeFailure "no ServerKeyExchange received");
  kx_group ← ok_or (group_from_code_point (kx_curve kx_params))
               (HandshakeFailure ("unsupported ECDHE curve: 0x" +:+ hex4 (kx_curve kx_params)));
  kp ← env_try (generate_key_pair kx_group);
  let our_public_key := kp_public_key kp in
  pre_master_secret ← lift (compute_shared_secret kp (kx_public_key kx_params));
  mret (pre_master_secret,
        build_handshake_message 0x10 ([as_u8 (len our_public_key)] ++ our_public_key)).

Definition build_rsa_key_exchange : M (bytes * bytes) :=
  h ← get;
  leaf ← ok_or (head (h_server_certificates h))
           (HandshakeFailure "no server certificate for RSA key exchange");
  rnd ← env (fill 46);
  rnd ← ok_or rnd (CryptoError "failed to generate RSA pre_master_secret");
  let pre_master_secret := [0x03; 0x03] ++ rnd in
  spki ← lift (extract_spki_from_cert leaf);
  pub_key ← ok_or (rsa_from_der spki)
              (CryptoError "failed to parse RSA public key from certificate");
  pkcs1_key ← ok_or (pkcs1_new pub_key) (CryptoError "failed to create PKCS1 encrypting key");
  encrypted ← env (pkcs1_encrypt pkcs1_key pre_master_secret);
  encrypted ← ok_or encrypted (CryptoError "RSA PKCS1 encryption of pre_master_secret failed");
  let enc_len := len encrypted in
  mret (pre_master_secret,
        build_handshake_message 0x10 ([as_u8 (enc_len ≫ 8); as_u8 enc_len] ++ encrypted)).

(** The master secret, from the session hash when the extension was agreed. *)
Definition derive_master_secret (pre_master_secret : bytes) : M bytes :=
  h ← get;
  if h_use_extended_master_secret h then
    t ← ok_or (h_transcript h) (HandshakeFailure "no transcript for extended master secret");
    lift (compute_extended_master_secret (h_prf_algorithm h) pre_master_secret (th12_current_hash t))
  else
    lift (compute_master_secret (h_prf_algorithm h) pre_master_secret (h_client_random h) (h_server_random h)).

Definition process_server_hello_done (body full_msg : bytes) : M Tls12HandshakeAction :=
  _ ← modify (feed_handshake_message full_msg);
  h ← get;
  suite ← ok_or (h_cipher_suite h) (HandshakeFailure "no cipher suite");
  '(pre_master_secret, client_key_exchange) ←
    match key_exchange suite with
    | Ecdhe => build_ecdhe_key_exchange
    | Rsa => build_rsa_key_exchange
    end;
  let client_certificate :=
    if h_client_certificate_requested h
    then Some (build_handshake_message handshake_type.CERTIFICATE [0; 0; 0]) else None in
  _ ← modify (fun h => from_option (fun m => feed_handshake_message m h) h client_certificate);
  _ ← modify (feed_handshake_message client_key_exchange);
  master_secret ← derive_master_secret pre_master_secret;
  h ← get;
  kb ← lift (key_block h suite master_secret);
  t ← ok_or (h_transcript h) (HandshakeFailure "no transcript");
  verify_data ← lift (compute_verify_data (h_prf_algorithm h) master_secret "client finished"
                        (th12_current_hash t));
  let client_finished := build_handshake_message handshake_type.FINISHED verify_data in
  _ ← modify (feed_handshake_message client_finished);
  _ ← modify (fun h => put_state WaitServerChangeCipherSpec (put_master_secret (Some master_secret) h));
  mret (SendClientFlight {| cf_client_certificate := client_certificate;
          cf_client_key_exchange := client_key_exchange; cf_client_finished := client_finished;
          cf_traffic_keys := keys_of suite kb |}).

(** *** Finished *)

(** The verify data of a Finished, with or without its header. *)
Definition finished_verify_data (finished_body : bytes) (err : string) : M bytes :=
  if (len finished_body =? 16) && bool_decide (head finished_body = Some handshake_type.FINISHED)
  then lift (slice finished_body 4 16)
  else if len finished_body =? 12 then mret finished_body
  else fail (HandshakeFailure (err +:+ pretty (len finished_body))).

Definition process_server_finished (finished_body : bytes) : M Tls12HandshakeAction :=
  h ← get;
  _ ← require (bool_decide (h_state h = WaitServerFinished))
        (HandshakeFailure ("unexpected server Finished in state " +:+ state12_debug (h_state h)));
  master_secret ← ok_or (h_master_secret h)
                    (HandshakeFailure "no master secret for Finished verification");
  t ← ok_or (h_transcript h) (HandshakeFailure "no transcript for Finished verification");
  expected ← lift (compute_verify_data (h_prf_algorithm h) master_secret "server finished"
                     (th12_current_hash t));
  verify_data ← finished_verify_data finished_body "unexpected Finished length: ";
  _ ← require (bool_decide (verify_data = expected))
        (HandshakeFailure "server Finished verify_data mismatch");
  _ ← modify (put_state Connected);
  suite ← ok_or (h_cipher_suite h) (HandshakeFailure "no cipher suite");
  kb ← lift (key_block h suite master_secret);
  mret (Complete (keys_of suite kb)).

(** *** Resumption *)

Definition accept_abbreviated_ccs : M Tls12TrafficKeys :=
  h ← get;
  _ ← require (bool_decide (h_state h = WaitCertificateOrAbbreviated))
        (HandshakeFailure ("accept_abbreviated_ccs called in wrong state: " +:+ state12_debug (h_state h)));
  _ ← modify (put_resumed_master_secret None);
  master_secret ← ok_or (h_resumed_master_secret h)
                    (HandshakeFailure "no resumed master_secret for abbreviated handshake");
  suite ← ok_or (h_cipher_suite h) (HandshakeFailure "no cipher suite for abbreviated handshake");
  kb ← lift (key_block h suite master_secret);
  _ ← modify (fun h => put_state WaitServerFinished
                (put_abbreviated true (put_master_secret (Some master_secret) h)));
  mret (keys_of suite kb).

Definition process_abbreviated_server_finished (finished_body : bytes) : M Tls12AbbreviatedFlight :=
  h ← get;
  _ ← require (bool_decide (h_state h = WaitServerFinished) && h_abbreviated h)
        (HandshakeFailure ("process_abbreviated_server_finished called in wrong state: "
           +:+ state12_debug (h_state h) +:+ ", abbreviated="
           +:+ (if h_abbreviated h then "true" else "false")));
  master_secret ← ok_or (h_master_secret h) (HandshakeFailure "no master secret for abbreviated Finished");
  t ← ok_or (h_transcript h) (HandshakeFailure "no transcript for abbreviated Finished");
  expected ← lift (compute_verify_data (h_prf_algorithm h) master_secret "server finished"
                     (th12_current_hash t));
  verify_data ← finished_verify_data finished_body "unexpected abbreviated Finished length: ";
  _ ← require (bool_decide (verify_data = expected))
        (HandshakeFailure "server Finished verify_data mismatch (abbreviated)");
  _ ← modify (feed_handshake_message (build_handshake_message handshake_type.FINISHED verify_data));
  h ← get;
  t ← ok_or (h_transcript h) (HandshakeFailure "no transcript for client Finished");
  client_verify_data ← lift (compute_verify_data (h_prf_algorithm h) master_secret "client finished"
                               (th12_current_hash t));
  let client_finished := build_handshake_message handshake_type.FINISHED client_verify_data in
  _ ← modify (put_state Connected);
  suite ← ok_or (h_cipher_suite h) (HandshakeFailure "no cipher suite");
  kb ← lift (key_block h suite master_secret);
  mret {| af_client_finished := client_finished; af_traffic_keys := keys_of suite kb |}.

(** *** Dispatch *)

Definition process_single_message (msg_type : Z) (body full_msg : bytes) : M Tls12HandshakeAction :=
  h ← get;
  let expected what := fail (HandshakeFailure ("expected " +:+ what +:+ ", got type 0x" +:+ hex2 msg_type)) in
  match h_state h with
  | WaitServerHello =>
      if negb (msg_type =? handshake_type.SERVER_HELLO) then expected "ServerHello"
      else process_server_hello body full_msg
  | WaitCertificateOrAbbreviated =>
      if msg_type =? handshake_type.CERTIFICATE then
        _ ← modify (put_resumed_master_secret None);
        process_certificate body full_msg
      else if msg_type =? 0x04 then
        _ ← modify (feed_handshake_message full_msg);
        mret ContinueReading
      else expected "Certificate or NewSessionTicket in abbreviated handshake"
  | WaitCertificate =>
      if negb (msg_type =? handshake_type.CERTIFICATE) then expected "Certificate"
      else process_certificate body full_msg
  | WaitServerKeyExchange =>
      if msg_type =? 0x0C then process_server_key_exchange body full_msg
      else if msg_type =? handshake_type.CERTIFICATE_STATUS then
        _ ← modify (feed_handshake_message full_msg);
        mret ContinueReading
      else if msg_type =? 0x0E then process_server_hello_done body full_msg
      else expected "ServerKeyExchange or ServerHelloDone"
  | WaitServerHelloDone =>
      if msg_type =? 0x0D then
        _ ← modify (fun h => feed_handshake_message full_msg (put_client_certificate_requested true h));
        mret ContinueReading
      else if msg_type =? 0x0E then process_server_hello_done body full_msg
      else expected "ServerHelloDone"
  | _ => fail (HandshakeFailure ("unexpected handshake message type 0x" +:+ hex2 msg_type +:+ " in state "
                                   +:+ state12_debug (h_state h)))
  end.

(** [while offset < record.len()]: the first action that is not
    [ContinueReading] ends the loop. *)
Fixpoint record12_loop (fuel : nat) (record : bytes) (offset : Z) : M Tls12HandshakeAction :=
  match fuel with
  | 0%nat => panic
  | S fuel =>
      if offset <? len record then
        _ ← require (offset + 4 <=? len record)
              (HandshakeFailure "handshake message too short for header");
        msg_type ← lift (idx record offset);
        msg_len ← lift (tls13.read_u24 record (offset + 1));
        _ ← require (offset + 4 + msg_len <=? len record)
              (HandshakeFailure ("handshake message truncated: type=0x" +:+ hex2 msg_type +:+ ", len="
                 +:+ pretty msg_len +:+ ", available=" +:+ pretty (len record - offset - 4)));
        msg_bytes ← lift (slice record offset (offset + 4 + msg_len));
        msg_body ← lift (slice record (offset + 4) (offset + 4 + msg_len));
        action ← process_single_message msg_type msg_body msg_bytes;
        match action with
        | ContinueReading => record12_loop fuel record (offset + (4 + msg_len))
        | other => mret other
        end
      else mret ContinueReading
  end.

Definition process_handshake_record (record : bytes) : M Tls12HandshakeAction :=
  record12_loop (S (length record)) record 0.

End handshake.
End tls12.
