(* ===== verification/TlsDriver.v ===== *)
(** * TLS connection establishment (lktls/src/handshake/driver.rs)

    [HandshakeDriver] runs the record layer and the TLS 1.3 or 1.2 handshake over
    bytes its caller feeds; [QuicHandshakeDriver] runs TLS 1.3 over the CRYPTO
    stream.  Methods are computations of [StateM] over the driver.  The world they
    act on holds the random generator and the clocks, the session store that
    connections share, and what the two observation callbacks were given; the
    configuration says which of them are there.  [std::mem::replace] leaves
    [Complete] behind, so a driver that fails stays complete.  As in [Tls13] no
    ECHConfigList is configured. *)
From S2P Require Import Prelude TlsError StateM TlsCipher TlsRecord TlsProfile TlsExtensions QuicParams TlsKx ClientHello ServerHello TlsHkdf CertChain SessionStore Hpack Synthesis Tls12Prf Tls13 Tls12.
Import error statem tls12_cipher record types extensions kx client_hello server_hello hkdf certchain session_store quic_transport_params.

Module tls_driver.
#[local] Existing Instance tls12.tls12_state_eq_dec.

(** ** Reassembly of handshake messages *)

(** [pos.checked_add(4 + length)] on 64-bit [usize]: three length bytes cannot
    overflow it for a buffer that fits in memory, so the error is never taken
    and the sum is exact. *)
Fixpoint complete_loop (fuel : nat) (input : bytes) (pos : Z) : Outcome TlsError Z :=
  match fuel with
  | 0%nat => Panic
  | S fuel =>
      if pos <? len input then
        if len input - pos <? 4 then Ok pos else
        length ← tls13.read_u24 input (pos + 1);
        let msg_end := pos + (4 + length) in
        if len input <? msg_end then Ok pos else complete_loop fuel input msg_end
      else Ok pos
  end.

(** The messages taken and the input that is left. *)
Definition take_complete_handshake_messages (input : bytes) : Outcome TlsError (option bytes * bytes) :=
  pos ← complete_loop (S (length input)) input 0;
  if pos =? 0 then Ok (None, input) else Ok (Some (take_z pos input), drop_z pos input).

Definition take_next_handshake_message (input : bytes) : Outcome TlsError (option bytes * bytes) :=
  if len input <? 4 then Ok (None, input) else
  length ← tls13.read_u24 input 1;
  let msg_end := 4 + length in
  if len input <? msg_end then Ok (None, input)
  else Ok (Some (take_z msg_end input), drop_z msg_end input).

(** ** Data *)

Record QuicTrafficSecrets : Type := mkQuicSecrets {
  q_client_secret : bytes;
  q_server_secret : bytes;
  q_hkdf_algorithm : HkdfAlgorithm;
  q_aead_algorithm : AeadAlgorithm;
}.

Record PostHandshakeState : Type := mkPost {
  ph_server_app_secret : bytes;
  ph_client_app_secret : bytes;
  ph_hkdf_algorithm : HkdfAlgorithm;
  ph_aead_algorithm : AeadAlgorithm;
  ph_exporter_master_secret : bytes;
}.

(** The store of the context is the world's. *)
Record SessionTicketContext : Type := mkTicketCtx {
  sc_resumption_master_secret : bytes;
  sc_hkdf_algorithm : HkdfAlgorithm;
  sc_aead_algorithm : AeadAlgorithm;
  sc_cipher_suite : Z;
  sc_alpn : option bytes;
  sc_peer_transport_parameters : option bytes;
  sc_host_key : bytes;
}.

Record HandshakeResult : Type := mkResult {
  res_reader : RecordReader;
  res_writer : RecordWriter;
  res_negotiated_alpn : option bytes;
  res_negotiated_cipher_suite : option Z;
  res_negotiated_version : option Z;
  res_peer_certificates : list bytes;
  res_post_handshake : option PostHandshakeState;
  res_session_ticket_ctx : option SessionTicketContext;
}.

Inductive HandshakeOutput : Type :=
| SendData (d : bytes)
| NeedData
| Done (to_send : bytes) (result : HandshakeResult).

Record QuicHandshakeResult : Type := mkQuicResult {
  qr_negotiated_alpn : option bytes;
  qr_negotiated_cipher_suite : option Z;
  qr_handshake_secrets : QuicTrafficSecrets;
  qr_app_secrets : QuicTrafficSecrets;
  qr_post_handshake : option PostHandshakeState;
  qr_session_ticket_ctx : option SessionTicketContext;
  qr_peer_transport_params : option QuicTransportParams;
  qr_early_data_accepted : bool;
}.

Inductive QuicHandshakeOutput : Type :=
| QSendData (d : bytes)
| QNeedData
| QHandshakeSecretsReady (to_send : bytes) (secrets : QuicTrafficSecrets)
| QDone (to_send : bytes) (result : QuicHandshakeResult).

(** ** After the handshake *)

Section post.
Context {P O : Type} {H : Hkdf P O} {C : Crypto}.

(** The next generation of a traffic secret and its keys. *)
Definition next_generation (alg : HkdfAlgorithm) (aead_alg : AeadAlgorithm) (secret : bytes)
    : Outcome TlsError (bytes * aead.Aead) :=
  new_secret ← hkdf_expand_label alg secret "traffic upd" [] (hash_len alg);
  new_key ← hkdf_expand_label alg new_secret "key" [] (key_len aead_alg);
  new_iv ← hkdf_expand_label alg new_secret "iv" [] (nonce_len aead_alg);
  new_aead ← aead.aead_new aead_alg new_key new_iv;
  Ok (new_secret, new_aead).

(** The new key, and the state it leaves: that of before on an error. *)
Definition process_key_update (p : PostHandshakeState) : Outcome TlsError (aead.Aead * PostHandshakeState) :=
  '(s, a) ← next_generation (ph_hkdf_algorithm p) (ph_aead_algorithm p) (ph_server_app_secret p);
  Ok (a, {| ph_server_app_secret := s; ph_client_app_secret := ph_client_app_secret p;
            ph_hkdf_algorithm := ph_hkdf_algorithm p; ph_aead_algorithm := ph_aead_algorithm p;
            ph_exporter_master_secret := ph_exporter_master_secret p |}).

Definition build_key_update_response (p : PostHandshakeState)
    : Outcome TlsError (bytes * aead.Aead * PostHandshakeState) :=
  '(s, a) ← next_generation (ph_hkdf_algorithm p) (ph_aead_algorithm p) (ph_client_app_secret p);
  Ok ([0x18; 0x00; 0x00; 0x01; 0x00], a,
      {| ph_server_app_secret := ph_server_app_secret p; ph_client_app_secret := s;
         ph_hkdf_algorithm := ph_hkdf_algorithm p; ph_aead_algorithm := ph_aead_algorithm p;
         ph_exporter_master_secret := ph_exporter_master_secret p |}).
End post.

(** ** The driver *)

Section driver.
Context {R K D P O E T N PK EK : Type}.
Context {SR : SystemRandom R} {AG : Agreement R K D} {CK : Clock R} {H : Hkdf P O} {C : Crypto}.
Context {SG : Signatures} {W : Webpki E T N} {DC : Decompress} {RS : RsaCrate R PK EK}.

Abbreviation Hs13 := (tls13.Tls13Handshake (K := K) (D := D) (P := P) (T := T)).
Abbreviation Hs12 := (tls12.Tls12Handshake (K := K) (D := D) (T := T)).

Record HandshakeConfig : Type := mkConfig {
  c_profile : TlsProfile;
  c_hostname : bytes;
  c_port : Z;
  c_verification_policy : VerificationPolicy;
  c_alps_payload : option bytes;
  c_session_store : bool;
  c_custom_ca_anchors : option (list T);
  c_keylog_callback : bool;
  c_client_hello_callback : bool;
}.

Inductive DriverState : Type :=
| DStart
| DWaitServerHello (handshake : Hs13) (ch_msg : bytes)
| DTls13Encrypted (handshake : Hs13)
| DTls12ServerFlight (handshake : Hs12) (client_random : bytes)
| DTls12WaitServerFinished (handshake : Hs12) (client_random : bytes) (traffic_keys : tls12.Tls12TrafficKeys)
    (server_ccs_received : bool)
| DComplete.

Record HandshakeDriver : Type := mkDriver {
  d_config : HandshakeConfig;
  d_state : DriverState;
  d_reader : RecordReader;
  d_writer : RecordWriter;
  d_hs_buffer : bytes;
  d_original_ticket : option SessionTicketData;
  d_pending_alert : option bytes;
}.

Definition driver_new (config : HandshakeConfig) : HandshakeDriver :=
  {| d_config := config; d_state := DStart; d_reader := reader_new; d_writer := writer_new;
     d_hs_buffer := []; d_original_ticket := None; d_pending_alert := None |}.

Definition put_state (v : DriverState) (d : HandshakeDriver) : HandshakeDriver :=
  mkDriver (d_config d) v (d_reader d) (d_writer d) (d_hs_buffer d) (d_original_ticket d) (d_pending_alert d).
Definition put_reader (v : RecordReader) (d : HandshakeDriver) : HandshakeDriver :=
  mkDriver (d_config d) (d_state d) v (d_writer d) (d_hs_buffer d) (d_original_ticket d) (d_pending_alert d).
Definition put_writer (v : RecordWriter) (d : HandshakeDriver) : HandshakeDriver :=
  mkDriver (d_config d) (d_state d) (d_reader d) v (d_hs_buffer d) (d_original_ticket d) (d_pending_alert d).
Definition put_hs_buffer (v : bytes) (d : HandshakeDriver) : HandshakeDriver :=
  mkDriver (d_config d) (d_state d) (d_reader d) (d_writer d) v (d_original_ticket d) (d_pending_alert d).
Definition put_original_ticket (v : option SessionTicketData) (d : HandshakeDriver) : HandshakeDriver :=
  mkDriver (d_config d) (d_state d) (d_reader d) (d_writer d) (d_hs_buffer d) v (d_pending_alert d).
Definition put_pending_alert (v : option bytes) (d : HandshakeDriver) : HandshakeDriver :=
  mkDriver (d_config d) (d_state d) (d_reader d) (d_writer d) (d_hs_buffer d) (d_original_ticket d) v.

(** *** The world *)

Record World : Type := mkWorld {
  w_rng : R;
  w_store : InMemorySessionStore;
  w_keylog : list string;
  w_client_hellos : list bytes;
}.
Definition put_rng (r : R) (w : World) : World := mkWorld r (w_store w) (w_keylog w) (w_client_hellos w).
Definition put_store (s : InMemorySessionStore) (w : World) : World :=
  mkWorld (w_rng w) s (w_keylog w) (w_client_hellos w).
Definition add_keylog (l : list string) (w : World) : World :=
  mkWorld (w_rng w) (w_store w) (w_keylog w ++ l) (w_client_hellos w).
Definition add_client_hello (m : bytes) (w : World) : World :=
  mkWorld (w_rng w) (w_store w) (w_keylog w) (w_client_hellos w ++ [m]).

Section run.
Context {S : Type}.
(** A method of a handshake object that the driver holds by value: its result
    and the object.  On an error the object is dropped.  The key log lines it
    wrote go to the callback. *)
Definition run13 {A} (m : SM Hs13 R A) (h : Hs13) : SM S World (A * Hs13) := fun d w =>
  match m h (w_rng w) with
  | Some (o, h1, r) =>
      let lines := drop (length (default [] (tls13.hs_keylog h))) (default [] (tls13.hs_keylog h1)) in
      let w := add_keylog lines (put_rng r w) in
      Some (match o with Ok a => Ok (a, h1) | Err e => Err e | Panic => Panic end, d, w)
  | None => None
  end.
Definition run12 {A} (m : SM Hs12 R A) (h : Hs12) : SM S World (A * Hs12) := fun d w =>
  match m h (w_rng w) with
  | Some (o, h1, r) =>
      Some (match o with Ok a => Ok (a, h1) | Err e => Err e | Panic => Panic end, d, put_rng r w)
  | None => None
  end.
(** Nothing is returned within the fuel. *)
Definition diverge {A} : SM S World A := fun _ _ => None.
Definition tell (f : World -> World) : SM S World unit := fun d w => Some (Ok tt, d, f w).

(** [store.take(&host_key)] and [store.store(&host_key, ticket)].  The eviction
    loop of a store of capacity 0 does not end. *)
Definition store_take (host_key : bytes) : SM S World (option SessionTicketData) := fun d w =>
  let '(t, s, r) := take (w_store w) host_key (w_rng w) in Some (Ok t, d, put_store s (put_rng r w)).
Definition store_put (host_key : bytes) (t : SessionTicketData) : SM S World unit := fun d w =>
  match store (Datatypes.S (length (default [] (store_map (w_store w) !! host_key)))) (w_store w) host_key t with
  | Some s => Some (Ok tt, d, put_store s w)
  | None => None
  end.
(** A parser that reads the clock, its error only logged. *)
Definition parse_ticket (f : R -> Outcome string (SessionTicketData * R)) : SM S World (option SessionTicketData) :=
  fun d w => match f (w_rng w) with
             | Ok (t, r) => Some (Ok (Some t), d, put_rng r w)
             | Err _ => Some (Ok None, d, w)
             | Panic => Some (Panic, d, w)
             end.

Definition with_peer_parameters (v : option bytes) (t : SessionTicketData) : SessionTicketData :=
  {| ticket := ticket t; resumption_psk := resumption_psk t; tls_version := tls_version t;
     t_cipher_suite := t_cipher_suite t; lifetime_secs := lifetime_secs t; age_add := age_add t;
     received_at := received_at t; t_alpn := t_alpn t; t_hkdf_algorithm := t_hkdf_algorithm t;
     t_aead_algorithm := t_aead_algorithm t; t_master_secret := t_master_secret t;
     max_early_data_size := max_early_data_size t; peer_transport_parameters := v |}.

Definition process_new_session_ticket (c : SessionTicketContext) (payload : bytes) : SM S World unit :=
  t ← parse_ticket (parse_tls13_new_session_ticket payload (sc_resumption_master_secret c)
        (sc_hkdf_algorithm c) (sc_aead_algorithm c) (sc_cipher_suite c) (sc_alpn c));
  match t with
  | Some t => store_put (sc_host_key c) (with_peer_parameters (sc_peer_transport_parameters c) t)
  | None => mret tt
  end.
End run.

Definition host_key (c : HandshakeConfig) : bytes :=
  c_hostname c ++ [58] ++ ascii_bytes (pretty (c_port c)).

Definition alpn_compatible (t : SessionTicketData) (c : HandshakeConfig) : bool :=
  match t_alpn t with
  | None => true
  | Some alpn => existsb (fun p => bool_decide (p = alpn)) (alpn_protocols (c_profile c))
  end.

(** The TLS 1.3 handshake of a configuration. *)
Definition configured (c : HandshakeConfig) : Hs13 :=
  let hs := tls13.handshake_new (c_profile c) (c_hostname c) in
  let hs := tls13.set_verification_policy (c_verification_policy c) hs in
  let hs := match c_custom_ca_anchors c with Some a => tls13.set_custom_ca_anchors (Some a) hs | None => hs end in
  let hs := match c_alps_payload c with Some p => tls13.set_alps_payload (Some p) hs | None => hs end in
  if c_keylog_callback c then tls13.set_keylog (Some []) hs else hs.

Abbreviation DM := (SM HandshakeDriver World).

Definition write (ct : Z) (payload : bytes) : DM bytes := fun d w =>
  let '(o, wr, r) := write_record (d_writer d) ct payload (w_rng w) in
  Some (o, put_writer wr d, put_rng r w).
Definition read : DM (option PlaintextRecord) := fun d w =>
  let '(o, rd) := next_record (d_reader d) in Some (o, put_reader rd d, w).

(** The ticket of the store, when resumption is enabled, and the handshake that
    offers it. *)
Definition offer_ticket (hs : Hs13) : DM Hs13 :=
  d ← get;
  let c := d_config d in
  let cfg := session_resumption (c_profile c) in
  if any_enabled cfg && c_session_store c then
    t ← store_take (host_key c);
    match t with
    | Some t =>
        match tls_version t with
        | TicketTls13 =>
            if tls13_psk cfg && alpn_compatible t c then
              _ ← modify (put_original_ticket (Some t));
              mret (tls13.set_psk_ticket (Some t) hs)
            else mret hs
        | TicketTls12 =>
            if tls12_session_ticket cfg && alpn_compatible t c then
              _ ← modify (put_original_ticket (Some t));
              mret (tls13.set_tls12_session_ticket_data (Some (ticket t)) hs)
            else mret hs
        end
    | None => mret hs
    end
  else mret hs.

Definition start (fuel : nat) : DM bytes :=
  d ← get;
  hs ← offer_ticket (configured (d_config d));
  '(ch_msg, hs) ← run13 (tls13.build_client_hello fuel) hs;
  _ ← tell (if c_client_hello_callback (d_config d) then add_client_hello ch_msg else (fun w => w));
  ch_record ← write content_type.HANDSHAKE ch_msg;
  _ ← modify (put_state (DWaitServerHello hs ch_msg));
  mret ch_record.

Definition feed (data : bytes) (d : HandshakeDriver) : HandshakeDriver :=
  put_reader (record.feed (d_reader d) data) d.
Definition take_pending_alert (d : HandshakeDriver) : option bytes * HandshakeDriver :=
  (d_pending_alert d, put_pending_alert None d).

(** [Err(TlsError::Alert(..))] of an alert record. *)
Definition alert_error (payload : bytes) : TlsError :=
  Alert (alert_from_bytes (default 0 (payload !! 0%nat)) (default 0 (payload !! 1%nat))).

(** [std::mem::take] of reader and writer. *)
Definition finish (alpn : option bytes) (suite version : Z) (certs : list bytes) (post : option PostHandshakeState)
    (ctx : option SessionTicketContext) : DM HandshakeResult :=
  d ← get;
  _ ← modify (fun d => put_writer writer_new (put_reader reader_new (put_state DComplete d)));
  mret {| res_reader := d_reader d; res_writer := d_writer d; res_negotiated_alpn := alpn;
          res_negotiated_cipher_suite := Some suite; res_negotiated_version := Some version;
          res_peer_certificates := certs; res_post_handshake := post; res_session_ticket_ctx := ctx |}.

(** *** TLS 1.3 *)

Definition install_keys (alg : AeadAlgorithm) (server_key server_iv client_key client_iv : bytes) : DM unit :=
  a ← lift (aead.aead_new alg server_key server_iv);
  _ ← modify (fun d => put_reader (reader_set_keys (d_reader d) a) d);
  a ← lift (aead.aead_new alg client_key client_iv);
  modify (fun d => put_writer (writer_set_keys (d_writer d) a) d).

(** A record of a writer of its own: the second ClientHello. *)
Definition write_aside (ct : Z) (payload : bytes) : DM bytes := fun d w =>
  let '(o, _, r) := write_record (mark_post_initial writer_new) ct payload (w_rng w) in
  Some (o, d, put_rng r w).

Definition begin_tls13 (fuel : nat) (handshake : Hs13) (sh : bytes) : DM HandshakeOutput :=
  '(action, handshake) ← run13 (tls13.process_handshake_record fuel sh) handshake;
  match action with
  | tls13.InstallHandshakeKeys keys =>
      ccs ← (if tls13.has_received_hrr handshake then mret []
             else write content_type.CHANGE_CIPHER_SPEC [0x01]);
      _ ← install_keys (tls13.hk_aead_algorithm keys) (tls13.hk_server_key keys) (tls13.hk_server_iv keys)
            (tls13.hk_client_key keys) (tls13.hk_client_iv keys);
      _ ← modify (put_state (DTls13Encrypted handshake));
      mret (SendData ccs)
  | tls13.RetryClientHello ch2 =>
      ccs ← write content_type.CHANGE_CIPHER_SPEC [0x01];
      ch2_record ← write_aside content_type.HANDSHAKE ch2;
      _ ← modify (put_state (DWaitServerHello handshake ch2));
      mret (SendData (ccs ++ ch2_record))
  | _ => fail (HandshakeFailure "unexpected action after ServerHello")
  end.

Definition post_handshake_of (ts : tls13.TrafficSecrets) : PostHandshakeState :=
  {| ph_server_app_secret := tls13.ts_server_app_secret ts; ph_client_app_secret := tls13.ts_client_app_secret ts;
     ph_hkdf_algorithm := tls13.ts_hkdf_algorithm ts; ph_aead_algorithm := tls13.ts_aead_algorithm ts;
     ph_exporter_master_secret := tls13.ts_exporter_master_secret ts |}.

Definition ticket_ctx (c : HandshakeConfig) (complete : tls13.HandshakeComplete) (peer : option bytes)
    : option SessionTicketContext :=
  if store_tickets (session_resumption (c_profile c)) && c_session_store c then
    let ts := tls13.hc_traffic_secrets complete in
    Some {| sc_resumption_master_secret := tls13.hc_resumption_master_secret complete;
            sc_hkdf_algorithm := tls13.ts_hkdf_algorithm ts; sc_aead_algorithm := tls13.ts_aead_algorithm ts;
            sc_cipher_suite := tls13.hc_negotiated_cipher_suite complete;
            sc_alpn := tls13.hc_negotiated_alpn complete;
            sc_peer_transport_parameters := peer; sc_host_key := host_key c |}
  else None.

Definition write_opt (m : option bytes) : DM bytes :=
  match m with Some m => write content_type.HANDSHAKE m | None => mret [] end.

Definition finish_tls13 (complete : tls13.HandshakeComplete) : DM HandshakeOutput :=
  cee ← write_opt (tls13.hc_client_encrypted_extensions complete);
  certificate ← write_opt (tls13.hc_client_certificate complete);
  finished ← write content_type.HANDSHAKE (tls13.hc_client_finished complete);
  let ts := tls13.hc_traffic_secrets complete in
  _ ← install_keys (tls13.ts_aead_algorithm ts) (tls13.ts_server_key ts) (tls13.ts_server_iv ts)
        (tls13.ts_client_key ts) (tls13.ts_client_iv ts);
  d ← get;
  result ← finish (tls13.hc_negotiated_alpn complete) (tls13.hc_negotiated_cipher_suite complete) 0x0304
             (tls13.hc_server_certificates complete) (Some (post_handshake_of ts))
             (ticket_ctx (d_config d) complete None);
  mret (Done (cee ++ certificate ++ finished) result).

(** *** TLS 1.2 *)

Definition install_writer12 (k : tls12.Tls12TrafficKeys) : DM unit :=
  d ← get; wr ← lift (tls12.install_on_writer k (d_writer d)); modify (put_writer wr).
Definition install_reader12 (k : tls12.Tls12TrafficKeys) : DM unit :=
  d ← get; rd ← lift (tls12.install_on_reader k (d_reader d)); modify (put_reader rd).

Definition finish_tls12_full (handshake : Hs12) (client_random : bytes) (flight : tls12.Tls12ClientFlight)
    : DM HandshakeOutput :=
  certificate ← write_opt (tls12.cf_client_certificate flight);
  cke ← write content_type.HANDSHAKE (tls12.cf_client_key_exchange flight);
  ccs ← write content_type.CHANGE_CIPHER_SPEC [0x01];
  _ ← install_writer12 (tls12.cf_traffic_keys flight);
  fin ← write content_type.HANDSHAKE (tls12.cf_client_finished flight);
  _ ← modify (put_state (DTls12WaitServerFinished handshake client_random (tls12.cf_traffic_keys flight) false));
  mret (SendData (certificate ++ cke ++ ccs ++ fin)).

(** The TLS 1.2 handshake of a configuration, its ClientHello fed. *)
Definition configured12 (c : HandshakeConfig) (t : option SessionTicketData) (client_random ch_msg : bytes) : Hs12 :=
  let h := tls12.handshake12_new client_random (c_hostname c) (c_verification_policy c) in
  let h := match c_custom_ca_anchors c with Some a => tls12.set_custom_ca_anchors a h | None => h end in
  let h := match t with
           | Some t =>
               match tls_version t with
               | TicketTls12 =>
                   if negb (is_empty (t_master_secret t))
                   then tls12.set_session_ticket_master_secret (t_master_secret t) h else h
               | TicketTls13 => h
               end
           | None => h
           end in
  tls12.feed_client_hello ch_msg h.

Definition begin_tls12 (ch_msg sh : bytes) : DM HandshakeOutput :=
  d ← get;
  let c := d_config d in
  _ ← (if 0x0304 <=? version_as_u16 (tls_max_version (c_profile c))
       then lift (check_downgrade_sentinel sh) else mret tt);
  client_random ← lift (slice ch_msg 6 38);
  _ ← modify (put_original_ticket None);
  let h := configured12 c (d_original_ticket d) client_random ch_msg in
  '(msgs, initial) ← lift (take_complete_handshake_messages sh);
  '(action, h) ← match msgs with
                 | Some msgs => run12 (tls12.process_handshake_record msgs) h
                 | None => mret (tls12.ContinueReading, h)
                 end;
  _ ← modify (put_hs_buffer initial);
  match action with
  | tls12.SendClientFlight flight => finish_tls12_full h client_random flight
  | _ =>
      _ ← modify (put_state (DTls12ServerFlight h client_random));
      mret NeedData
  end.

Definition emit_tls12_keylog (handshake : Hs12) (client_random : bytes) : DM unit :=
  d ← get;
  match tls12.h_master_secret handshake with
  | Some ms =>
      if c_keylog_callback (d_config d)
      then tell (add_keylog ["CLIENT_RANDOM " +:+ tls13.to_hex client_random +:+ " " +:+ tls13.to_hex ms])
      else mret tt
  | None => mret tt
  end.

Definition complete_tls12_abbreviated (handshake : Hs12) (client_random finished_payload : bytes)
    : DM HandshakeOutput :=
  '(flight, handshake) ← run12 (tls12.process_abbreviated_server_finished finished_payload) handshake;
  ccs ← write content_type.CHANGE_CIPHER_SPEC [0x01];
  _ ← install_writer12 (tls12.af_traffic_keys flight);
  fin ← write content_type.HANDSHAKE (tls12.af_client_finished flight);
  _ ← emit_tls12_keylog handshake client_random;
  result ← finish (tls12.h_negotiated_alpn handshake) (code_point (tls12.tk_cipher_suite (tls12.af_traffic_keys flight)))
             0x0303 (tls12.h_server_certificates handshake) None None;
  mret (Done (ccs ++ fin) result).

(** [expected server Finished, got 0x..]. *)
Fixpoint abbreviated_loop (fuel : nat) (handshake : Hs12) (client_random : bytes) (tk : tls12.Tls12TrafficKeys)
    : DM HandshakeOutput :=
  match fuel with
  | 0%nat => diverge
  | S fuel =>
      rec ← read;
      match rec with
      | Some rec =>
          if pr_content_type rec =? content_type.CHANGE_CIPHER_SPEC then
            abbreviated_loop fuel handshake client_random tk
          else if pr_content_type rec =? content_type.HANDSHAKE then
            complete_tls12_abbreviated handshake client_random (pr_payload rec)
          else fail (UnexpectedMessage ("expected server Finished, got 0x" +:+ hex2 (pr_content_type rec)))
      | None =>
          _ ← modify (put_state (DTls12WaitServerFinished handshake client_random tk true));
          mret NeedData
      end
  end.

(** The buffer bounds the records left to read. *)
Definition read_fuel (d : HandshakeDriver) : nat := S (length (rd_buf (d_reader d))).

Definition handle_tls12_abbreviated_ccs : DM HandshakeOutput :=
  d ← get;
  _ ← modify (put_state DComplete);
  match d_state d with
  | DTls12ServerFlight handshake client_random =>
      '(tk, handshake) ← run12 tls12.accept_abbreviated_ccs handshake;
      _ ← install_reader12 tk;
      d ← get;
      abbreviated_loop (read_fuel d) handshake client_random tk
  | _ => fail (HandshakeFailure "unexpected state for abbreviated CCS")
  end.

Definition try_store_tls12_session_ticket (msg_type : Z) (payload : bytes) : DM unit :=
  d ← get;
  let c := d_config d in
  if negb (msg_type =? 0x04) then mret tt
  else if negb (store_tickets (session_resumption (c_profile c))) then mret tt
  else
    match d_state d with
    | DTls12WaitServerFinished handshake _ _ _ =>
        match c_session_store c, tls12.h_master_secret handshake with
        | true, Some ms =>
            t ← parse_ticket (parse_tls12_new_session_ticket payload ms (tls12.h_negotiated_alpn handshake)
                  (tls12.h_cipher_suite handshake));
            match t with Some t => store_put (host_key c) t | None => mret tt end
        | _, _ => mret tt
        end
    | _ => mret tt
    end.

(** The server's Finished after its ChangeCipherSpec. *)
Definition complete_tls12_full (handshake : Hs12) (client_random : bytes) (traffic_keys : tls12.Tls12TrafficKeys)
    (payload : bytes) : DM HandshakeOutput :=
  '(_, handshake) ← run12 (tls12.process_server_finished payload) (tls12.notify_server_ccs_received handshake);
  _ ← emit_tls12_keylog handshake client_random;
  result ← finish (tls12.h_negotiated_alpn handshake) (code_point (tls12.tk_cipher_suite traffic_keys)) 0x0303
             (tls12.h_server_certificates handshake) None None;
  mret (Done [] result).

Fixpoint wait_finished_loop (fuel : nat) : DM HandshakeOutput :=
  match fuel with
  | 0%nat => diverge
  | S fuel =>
      rec ← read;
      match rec with
      | None => mret NeedData
      | Some rec =>
          if pr_content_type rec =? content_type.ALERT then fail (alert_error (pr_payload rec)) else
          d ← get;
          match d_state d with
          | DTls12WaitServerFinished handshake client_random traffic_keys server_ccs_received =>
              if pr_content_type rec =? content_type.CHANGE_CIPHER_SPEC then
                _ ← (if negb server_ccs_received then
                       _ ← modify (put_state DComplete);
                       _ ← install_reader12 traffic_keys;
                       modify (put_state (DTls12WaitServerFinished handshake client_random traffic_keys true))
                     else mret tt);
                wait_finished_loop fuel
              else if pr_content_type rec =? content_type.HANDSHAKE then
                let msg_type := default 0 (head (pr_payload rec)) in
                if negb server_ccs_received then
                  _ ← try_store_tls12_session_ticket msg_type (pr_payload rec);
                  _ ← modify (put_state (DTls12WaitServerFinished
                         (tls12.feed_handshake_message (pr_payload rec) handshake) client_random traffic_keys
                         server_ccs_received));
                  wait_finished_loop fuel
                else
                  _ ← modify (put_state DComplete);
                  complete_tls12_full handshake client_random traffic_keys (pr_payload rec)
              else wait_finished_loop fuel
          | _ => fail (HandshakeFailure "unexpected state")
          end
      end
  end.

Definition progress_tls12_wait_finished : DM HandshakeOutput :=
  d ← get; wait_finished_loop (read_fuel d).

(** *** Progress *)

(** The server's flight: buffer the record and take the complete messages. *)
Definition reassemble (payload : bytes) : DM (option bytes) :=
  d ← get;
  let b := d_hs_buffer d ++ payload in
  _ ← modify (put_hs_buffer b);
  '(msgs, rest) ← lift (take_complete_handshake_messages b);
  _ ← modify (put_hs_buffer rest);
  mret msgs.

Fixpoint progress_loop (fuel sfuel : nat) : DM HandshakeOutput :=
  match fuel with
  | 0%nat => diverge
  | S fuel =>
      rec ← read;
      match rec with
      | None => mret NeedData
      | Some rec =>
          d ← get;
          if pr_content_type rec =? content_type.CHANGE_CIPHER_SPEC then
            match d_state d with
            | DTls12ServerFlight handshake _ =>
                if bool_decide (tls12.h_state handshake = tls12.WaitCertificateOrAbbreviated)
                then handle_tls12_abbreviated_ccs else progress_loop fuel sfuel
            | _ => progress_loop fuel sfuel
            end
          else if pr_content_type rec =? content_type.ALERT then fail (alert_error (pr_payload rec))
          else if negb (pr_content_type rec =? content_type.HANDSHAKE) then
            fail (UnexpectedMessage ("expected handshake, got content_type=0x" +:+ hex2 (pr_content_type rec)))
          else
            _ ← modify (put_state DComplete);
            match d_state d with
            | DWaitServerHello handshake ch_msg =>
                version ← lift (detect_version_from_server_hello (pr_payload rec));
                if version =? 0x0304 then begin_tls13 sfuel handshake (pr_payload rec)
                else if version =? 0x0303 then
                  o ← begin_tls12 ch_msg (pr_payload rec);
                  match o with
                  | NeedData => progress_loop fuel sfuel
                  | other => mret other
                  end
                else fail (HandshakeFailure ("unsupported TLS version: 0x" +:+ hex4 version))
            | DTls13Encrypted handshake =>
                msgs ← reassemble (pr_payload rec);
                match msgs with
                | None => _ ← modify (put_state (DTls13Encrypted handshake)); progress_loop fuel sfuel
                | Some messages =>
                    '(action, handshake) ← run13 (tls13.process_handshake_record sfuel messages) handshake;
                    match action with
                    | tls13.ContinueReading =>
                        _ ← modify (put_state (DTls13Encrypted handshake)); progress_loop fuel sfuel
                    | tls13.Complete c => finish_tls13 c
                    | _ => fail (HandshakeFailure "unexpected action during encrypted handshake")
                    end
                end
            | DTls12ServerFlight handshake client_random =>
                msgs ← reassemble (pr_payload rec);
                match msgs with
                | None => _ ← modify (put_state (DTls12ServerFlight handshake client_random)); progress_loop fuel sfuel
                | Some messages =>
                    '(action, handshake) ← run12 (tls12.process_handshake_record messages) handshake;
                    match action with
                    | tls12.ContinueReading =>
                        _ ← modify (put_state (DTls12ServerFlight handshake client_random)); progress_loop fuel sfuel
                    | tls12.SendClientFlight flight => finish_tls12_full handshake client_random flight
                    | _ => fail (HandshakeFailure "unexpected TLS 1.2 action during server flight")
                    end
                end
            | DStart => fail (HandshakeFailure "start() not called")
            | DComplete => fail (HandshakeFailure "handshake already complete")
            | DTls12WaitServerFinished _ _ _ _ => panic
            end
      end
  end.

Definition progress_inner (sfuel : nat) : DM HandshakeOutput :=
  d ← get;
  match d_state d with
  | DTls12WaitServerFinished _ _ _ _ => progress_tls12_wait_finished
  | _ => progress_loop (read_fuel d) sfuel
  end.

(** A local alert is kept for the caller, under the keys of the writer. *)
Definition progress (sfuel : nat) : DM HandshakeOutput := fun d w =>
  match progress_inner sfuel d w with
  | Some (Err (LocalAlert a msg), d, w) =>
      let e := LocalAlert a msg in
      match write content_type.ALERT [level_as_byte (level a); description_as_byte (description a)] d w with
      | Some (Ok record, d, w) => Some (Err e, put_pending_alert (Some record) d, w)
      | Some (Err _, d, w) => Some (Err e, d, w)
      | Some (Panic, d, w) => Some (Panic, d, w)
      | None => None
      end
  | res => res
  end.

(** ** QUIC *)

Record QuicHandshakeConfig : Type := mkQuicConfig {
  qc_tls : HandshakeConfig;
  qc_transport_parameters : bytes;
}.
Definition into_quic (c : HandshakeConfig) (p : bytes) : QuicHandshakeConfig :=
  {| qc_tls := c; qc_transport_parameters := p |}.

Inductive QuicDriverState : Type :=
| QStart
| QWaitServerHello (handshake : Hs13)
| QTls13Encrypted (handshake : Hs13)
| QComplete.

Record QuicHandshakeDriver : Type := mkQuicDriver {
  q_config : QuicHandshakeConfig;
  q_state : QuicDriverState;
  q_input : bytes;
  q_handshake_secrets : option QuicTrafficSecrets;
}.
Definition quic_new (config : QuicHandshakeConfig) : QuicHandshakeDriver :=
  {| q_config := config; q_state := QStart; q_input := []; q_handshake_secrets := None |}.
Definition q_put_state (v : QuicDriverState) (d : QuicHandshakeDriver) : QuicHandshakeDriver :=
  mkQuicDriver (q_config d) v (q_input d) (q_handshake_secrets d).
Definition q_put_input (v : bytes) (d : QuicHandshakeDriver) : QuicHandshakeDriver :=
  mkQuicDriver (q_config d) (q_state d) v (q_handshake_secrets d).
Definition q_put_secrets (v : option QuicTrafficSecrets) (d : QuicHandshakeDriver) : QuicHandshakeDriver :=
  mkQuicDriver (q_config d) (q_state d) (q_input d) v.

Abbreviation QM := (SM QuicHandshakeDriver World).

Definition quic_offer_ticket (hs : Hs13) : QM Hs13 :=
  d ← get;
  let c := qc_tls (q_config d) in
  if tls13_psk (session_resumption (c_profile c)) && c_session_store c then
    t ← store_take (host_key c);
    match t with
    | Some t =>
        match tls_version t with
        | TicketTls13 => mret (if alpn_compatible t c then tls13.set_psk_ticket (Some t) hs else hs)
        | TicketTls12 => mret hs
        end
    | None => mret hs
    end
  else mret hs.

Definition quic_start (fuel : nat) : QM bytes :=
  d ← get;
  let c := qc_tls (q_config d) in
  hs ← quic_offer_ticket (tls13.set_quic_transport_parameters (Some (qc_transport_parameters (q_config d)))
                            (tls13.set_quic_mode true (configured c)));
  '(ch, hs) ← run13 (tls13.build_client_hello fuel) hs;
  _ ← tell (if c_client_hello_callback c then add_client_hello ch else (fun w => w));
  _ ← modify (q_put_state (QWaitServerHello hs));
  mret ch.

Definition quic_feed (data : bytes) (d : QuicHandshakeDriver) : QuicHandshakeDriver :=
  q_put_input (q_input d ++ data) d.

Definition quic_secrets_from_handshake_keys (keys : tls13.HandshakeKeys) : QuicTrafficSecrets :=
  {| q_client_secret := tls13.hk_client_secret keys; q_server_secret := tls13.hk_server_secret keys;
     q_hkdf_algorithm := tls13.hk_hkdf_algorithm keys; q_aead_algorithm := tls13.hk_aead_algorithm keys |}.
Definition quic_secrets_from_traffic_secrets (s : tls13.TrafficSecrets) : QuicTrafficSecrets :=
  {| q_client_secret := tls13.ts_client_app_secret s; q_server_secret := tls13.ts_server_app_secret s;
     q_hkdf_algorithm := tls13.ts_hkdf_algorithm s; q_aead_algorithm := tls13.ts_aead_algorithm s |}.

Definition begin_quic_tls13 (fuel : nat) (handshake : Hs13) (sh : bytes) : QM QuicHandshakeOutput :=
  '(action, handshake) ← run13 (tls13.process_handshake_record fuel sh) handshake;
  match action with
  | tls13.InstallHandshakeKeys keys =>
      let secrets := quic_secrets_from_handshake_keys keys in
      _ ← modify (q_put_secrets (Some secrets));
      _ ← modify (q_put_state (QTls13Encrypted handshake));
      mret (QHandshakeSecretsReady [] secrets)
  | tls13.RetryClientHello ch2 =>
      _ ← modify (q_put_state (QWaitServerHello handshake));
      mret (QSendData ch2)
  | _ => fail (HandshakeFailure "unexpected action after QUIC ServerHello")
  end.

Definition finish_quic_tls13 (complete : tls13.HandshakeComplete) : QM QuicHandshakeOutput :=
  d ← get;
  let to_send := default [] (tls13.hc_client_encrypted_extensions complete) ++ tls13.hc_client_finished complete in
  let c := qc_tls (q_config d) in
  peer ← match tls13.hc_peer_quic_transport_params complete with
         | Some p =>
             if store_tickets (session_resumption (c_profile c)) && c_session_store c
             then b ← unwrap (encode_transport_params p); mret (Some b) else mret None
         | None => mret None
         end;
  let app_secrets := quic_secrets_from_traffic_secrets (tls13.hc_traffic_secrets complete) in
  handshake_secrets ← ok_or (q_handshake_secrets d)
                        (HandshakeFailure "missing QUIC handshake traffic secrets");
  _ ← modify (q_put_state QComplete);
  mret (QDone to_send
    {| qr_negotiated_alpn := tls13.hc_negotiated_alpn complete;
       qr_negotiated_cipher_suite := Some (tls13.hc_negotiated_cipher_suite complete);
       qr_handshake_secrets := handshake_secrets;
       qr_app_secrets := app_secrets;
       qr_post_handshake := Some {| ph_server_app_secret := q_server_secret app_secrets;
         ph_client_app_secret := q_client_secret app_secrets; ph_hkdf_algorithm := q_hkdf_algorithm app_secrets;
         ph_aead_algorithm := q_aead_algorithm app_secrets;
         ph_exporter_master_secret := tls13.ts_exporter_master_secret (tls13.hc_traffic_secrets complete) |};
       qr_session_ticket_ctx := ticket_ctx c complete peer;
       qr_peer_transport_params := tls13.hc_peer_quic_transport_params complete;
       qr_early_data_accepted := tls13.hc_early_data_accepted complete |}).

(** [loop]: each round takes a message off the input. *)
Fixpoint quic_progress_loop (fuel sfuel : nat) : QM QuicHandshakeOutput :=
  match fuel with
  | 0%nat => diverge
  | S fuel =>
      d ← get;
      _ ← modify (q_put_state QComplete);
      match q_state d with
      | QStart => fail (HandshakeFailure "start() not called")
      | QComplete => fail (HandshakeFailure "handshake already complete")
      | QWaitServerHello handshake =>
          '(sh, rest) ← lift (take_next_handshake_message (q_input d));
          _ ← modify (q_put_input rest);
          match sh with
          | None => _ ← modify (q_put_state (QWaitServerHello handshake)); mret QNeedData
          | Some sh =>
              version ← lift (detect_version_from_server_hello sh);
              if negb (version =? 0x0304) then
                fail (HandshakeFailure ("QUIC requires TLS 1.3, got 0x" +:+ hex4 version))
              else begin_quic_tls13 sfuel handshake sh
          end
      | QTls13Encrypted handshake =>
          '(msgs, rest) ← lift (take_complete_handshake_messages (q_input d));
          _ ← modify (q_put_input rest);
          match msgs with
          | None => _ ← modify (q_put_state (QTls13Encrypted handshake)); mret QNeedData
          | Some messages =>
              '(action, handshake) ← run13 (tls13.process_handshake_record sfuel messages) handshake;
              match action with
              | tls13.ContinueReading =>
                  _ ← modify (q_put_state (QTls13Encrypted handshake)); quic_progress_loop fuel sfuel
              | tls13.Complete complete => finish_quic_tls13 complete
              | _ => fail (HandshakeFailure "unexpected action during QUIC encrypted handshake")
              end
          end
      end
  end.

Definition quic_progress (sfuel : nat) : QM QuicHandshakeOutput :=
  d ← get; quic_progress_loop (S (length (q_input d))) sfuel.

End driver.
End tls_driver.
