(* ===== verification/Tls13Props.v ===== *)
(** * What a completed TLS 1.3 handshake guarantees

    Every state the handshake reaches keeps the transcript of RFC 8446 (section
    4.4.1) of the messages exchanged and secrets of its key schedule (section
    7.1); [Finished] is accepted only when the server is authenticated. *)
From S2P Require Import Prelude TlsError StateM TlsCipher TlsProfile TlsExtensions QuicParams TlsKx ClientHello ServerHello TlsHkdf CertChain SessionStore Hpack Synthesis Tls13.
Import error statem types extensions kx client_hello server_hello hkdf certchain session_store quic_transport_params tls13.

Module tls13_props.

Section props.
Context {R K D P O E T N : Type}.
Context {SR : SystemRandom R} {AG : Agreement R K D} {CK : Clock R} {H : Hkdf P O} {C : Crypto}.
Context {SG : Signatures} {W : Webpki E T N} {DC : Decompress}.

Abbreviation Hs := (Tls13Handshake (K := K) (D := D) (P := P) (T := T)).
Abbreviation HM := (SM Hs R).
Abbreviation step := (process_single_message (R := R) (K := K) (D := D) (P := P) (O := O) (E := E) (T := T) (N := N)).

(** ** Frames *)

Lemma update_transcript_ok msg u (h h1 : Hs) (r r1 : R) :
  update_transcript msg h r = Some (Ok u, h1, r1) ->
  h1 = set_transcript ((fun t => th_update t msg) <$> hs_transcript h) h /\ r1 = r.
Proof. intros Hx. unfold update_transcript in Hx. by hm. Qed.

Lemma set_transcript_same (h : Hs) : set_transcript (hs_transcript h) h = h.
Proof. by destruct h. Qed.
Lemma set_keylog_same (h : Hs) : set_keylog (hs_keylog h) h = h.
Proof. by destruct h. Qed.

Lemma update_opt_ok (o : option bytes) u (h h1 : Hs) (r r1 : R) :
  from_option update_transcript (mret tt) o h r = Some (Ok u, h1, r1) ->
  h1 = set_transcript ((fun t => th_update t (default [] o)) <$> hs_transcript h) h /\ r1 = r.
Proof.
  destruct o as [m|]; simpl; [apply update_transcript_ok|]. intros Hx. hm. split; [|done].
  replace (_ <$> _) with (hs_transcript h); [by rewrite set_transcript_same|].
  destruct (hs_transcript h) as [[c a]|]; [|done]. simpl. unfold th_update; simpl. by rewrite app_nil_r.
Qed.

Lemma log_secret_ok label s u (h h1 : Hs) (r r1 : R) :
  log_secret label s h r = Some (Ok u, h1, r1) -> exists l, h1 = set_keylog l h /\ r1 = r.
Proof.
  intros Hx. unfold log_secret in Hx. hm.
  exists (match hs_keylog h, hs_client_random h with
          | Some l, Some cr => Some (l ++ [label +:+ " " +:+ to_hex cr +:+ " " +:+ to_hex s])
          | _, _ => hs_keylog h
          end).
  destruct (hs_keylog h) eqn:E1, (hs_client_random h); (split; [|done]); rewrite <- ?E1; try done;
    by rewrite set_keylog_same.
Qed.

(** ** Specification *)

(** The transcript of RFC 8446 of a list of messages: after a
    HelloRetryRequest the first ClientHello counts as its hash. *)
Definition rfc_transcript (alg : HkdfAlgorithm) (hrr : bool) (log : list bytes) : bytes :=
  match hrr, log with
  | true, ch1 :: rest => message_hash (digest alg ch1) ++ concat rest
  | _, _ => concat log
  end.
Definition transcript_hash (alg : HkdfAlgorithm) (hrr : bool) (log : list bytes) : bytes :=
  digest alg (rfc_transcript alg hrr log).

Lemma rfc_transcript_app alg hrr log l : log <> [] ->
  rfc_transcript alg hrr (log ++ l) = rfc_transcript alg hrr log ++ concat l.
Proof.
  intros Hn. destruct log as [|c log]; [done|]. destruct hrr; simpl; rewrite concat_app; by rewrite <- !app_assoc.
Qed.

(** The key schedule of RFC 8446 down to the handshake secret. *)
Definition rfc_early_secret (alg : HkdfAlgorithm) (psk : option bytes) : Outcome TlsError (HkdfPrk P) :=
  hkdf_extract alg (zeros (hash_len alg)) (default (zeros (hash_len alg)) psk).
Definition rfc_handshake_secret (alg : HkdfAlgorithm) (psk : option bytes) (ecdhe : bytes)
    : Outcome TlsError (HkdfPrk P) :=
  es ← rfc_early_secret alg psk; derive_next es ecdhe.
Definition rfc_master_secret (alg : HkdfAlgorithm) (psk : option bytes) (ecdhe : bytes)
    : Outcome TlsError (HkdfPrk P) :=
  hs ← rfc_handshake_secret alg psk ecdhe; derive_next hs (zeros (hash_len alg)).

(** What the handshake is configured with and has negotiated, as far as the
    properties below depend on it. *)
Record Core : Type := mkCore {
  c_state : Tls13State; c_profile : TlsProfile; c_hostname : bytes;
  c_transcript : option TranscriptHash; c_buffered : option bytes; c_hrr : bool;
  c_suite : option Z; c_hkdf : option HkdfAlgorithm; c_aead : option AeadAlgorithm;
  c_hsec : option (HkdfPrk P); c_chs : option bytes; c_shs : option bytes;
  c_certs : list bytes; c_ech : bool; c_policy : VerificationPolicy;
  c_anchors : option (list T); c_ticket : option SessionTicketData; c_psk : bool;
  c_early : option (HkdfPrk P); c_random : option bytes; c_sid : option bytes;
}.
Definition core (h : Hs) : Core :=
  mkCore (hs_state h) (hs_profile h) (hs_hostname h) (hs_transcript h) (hs_buffered_client_hello h)
    (hs_hrr_received h) (hs_cipher_suite h) (hs_hkdf_algorithm h) (hs_aead_algorithm h)
    (hs_handshake_secret h) (hs_client_hs_traffic_secret h) (hs_server_hs_traffic_secret h)
    (hs_server_certificates h) (hs_ech_offered h) (hs_verification_policy h)
    (hs_custom_ca_anchors h) (hs_psk_ticket h) (hs_psk_accepted h) (hs_early_secret_from_psk h)
    (hs_client_random h) (hs_session_id h).

(** The message [m] is a Certificate with these certificates, possibly
    compressed. *)
Definition carries_certs (m : bytes) (certs : list bytes) : Prop :=
  match m with
  | t :: _ :: _ :: _ :: body =>
      (t = handshake_type.CERTIFICATE /\ parse_certificate_message body = Ok certs) \/
      (t = handshake_type.COMPRESSED_CERTIFICATE /\
       exists alg n k z d, (read_u16 body 0 : Outcome TlsError Z) = Ok alg /\
         (read_u24 body 2 : Outcome TlsError Z) = Ok n /\ (read_u24 body 5 : Outcome TlsError Z) = Ok k /\
         (slice body 8 (8 + k) : Outcome TlsError bytes) = Ok z /\
         decompress_certificate alg z n = Ok d /\ parse_certificate_message d = Ok certs)
  | _ => False
  end.

(** The key exchange with the ServerHello message [m]. *)
Definition key_exchange (m ecdhe : bytes) : Prop :=
  exists sh g pk (kp : EphemeralKeyPair K D), parse_server_hello (drop 4 m) = Ok sh /\
    key_share (sh_extensions sh) = Some (g, pk) /\ group_code_point (kp_group kp) = g /\
    kx.compute_shared_secret kp pk = Ok ecdhe.

Definition psk_of (c : Core) : option bytes :=
  if c_psk c then resumption_psk <$> c_ticket c else None.

(** The messages before the ServerHello: a ClientHello, or two with the
    HelloRetryRequest between them. *)
Definition is_hrr (m : bytes) : Prop :=
  exists sh, parse_server_hello (drop 4 m) = Ok sh /\ is_hello_retry_request sh = true.
Definition hellos (hrr : bool) (log : list bytes) : Prop :=
  if hrr then exists ch1 m ch2, log = [ch1; m; ch2] /\ is_hrr m else exists ch, log = [ch].

(** Keys are installed: the messages [pre ++ [sh]] up to the ServerHello and the
    secrets derived from them. *)
Definition keyed (log : list bytes) (c : Core) : Prop :=
  exists alg aead pre sh post ecdhe hsec chs shs,
    log = pre ++ sh :: post /\ hellos (c_hrr c) pre /\ (c_psk c = true -> c_ticket c <> None) /\
    c_hkdf c = Some alg /\ c_aead c = Some aead /\
    c_transcript c = Some (mkTh (rfc_transcript alg (c_hrr c) log) alg) /\
    c_hsec c = Some hsec /\ c_chs c = Some chs /\ c_shs c = Some shs /\
    key_exchange sh ecdhe /\
    rfc_handshake_secret alg (psk_of c) ecdhe = Ok hsec /\
    prk_derive_secret hsec "c hs traffic" (transcript_hash alg (c_hrr c) (pre ++ [sh])) = Ok chs /\
    prk_derive_secret hsec "s hs traffic" (transcript_hash alg (c_hrr c) (pre ++ [sh])) = Ok shs.

(** The message [m] is a CertificateVerify with this scheme and signature. *)
Definition carries_signature (m : bytes) (scheme : Z) (sg : bytes) : Prop :=
  exists n, (read_u16 (drop 4 m) 0 : Outcome TlsError Z) = Ok scheme /\
    (read_u16 (drop 4 m) 2 : Outcome TlsError Z) = Ok n /\
    (slice (drop 4 m) 4 (4 + n) : Outcome TlsError bytes) = Ok sg.

(** The server proved possession of the key of a certificate that is valid for
    the host: the last two messages are its Certificate and CertificateVerify. *)
Definition certified (alg : HkdfAlgorithm) (hrr : bool) (host : bytes) (anchors : option (list T))
    (log : list bytes) : Prop :=
  exists pre cm cv leaf rest scheme sg (rt : R),
    log = pre ++ [cm; cv] /\ carries_certs cm (leaf :: rest) /\ carries_signature cv scheme sg /\
    verify_certificate_verify scheme leaf (transcript_hash alg hrr (pre ++ [cm])) sg = Ok tt /\
    verify_certificate_chain (leaf :: rest) host (fst (system_now rt)) anchors = Ok tt.

(** The early secret of the ticket, if there is one, is ready. *)
Definition early_ready (c : Core) : Prop :=
  forall t, c_ticket c = Some t ->
    exists es, c_early c = Some es /\ compute_early_secret (t_hkdf_algorithm t) (resumption_psk t) = Ok es.
Lemma early_ready_eq c c' : c_ticket c' = c_ticket c -> c_early c' = c_early c ->
  early_ready c -> early_ready c'.
Proof. unfold early_ready. by intros -> ->. Qed.

(** Before the ServerHello. *)
Definition waiting (log : list bytes) (c : Core) : Prop :=
  c_psk c = false /\ early_ready c /\
  if c_hrr c then
    exists ch1 hrr ch2 alg aead suite, log = [ch1; hrr; ch2] /\ is_hrr hrr /\
      c_suite c = Some suite /\ cipher_suite_info suite = Ok (alg, aead) /\
      c_transcript c = Some (mkTh (rfc_transcript alg true log) alg)
  else exists ch, log = [ch] /\ c_buffered c = Some ch.

Definition inv (log : list bytes) (c : Core) : Prop :=
  c_ech c = false /\
  match c_state c with
  | Start => False
  | WaitServerHello => waiting log c
  | WaitEncryptedExtensions => keyed log c
  | WaitCertificate => keyed log c /\ c_psk c = false
  | WaitCertificateVerify =>
      keyed log c /\ c_psk c = false /\ exists pre cm, log = pre ++ [cm] /\
        pre <> [] /\ carries_certs cm (c_certs c) /\ c_certs c <> []
  | WaitFinished =>
      keyed log c /\ (c_psk c = true \/ c_policy c = Insecure \/
        exists alg, c_hkdf c = Some alg /\ certified alg (c_hrr c) (c_hostname c) (c_anchors c) log)
  | Connected => True
  end.

(** ** Preservation *)

Definition same_keys (c c' : Core) : Prop :=
  c_hkdf c' = c_hkdf c /\ c_aead c' = c_aead c /\ c_hrr c' = c_hrr c /\ c_hsec c' = c_hsec c /\
  c_chs c' = c_chs c /\ c_shs c' = c_shs c /\ c_psk c' = c_psk c /\ c_ticket c' = c_ticket c.

Lemma keyed_grow log m c c' : keyed log c -> same_keys c c' ->
  c_transcript c' = (fun t => th_update t m) <$> c_transcript c -> keyed (log ++ [m]) c'.
Proof.
  intros (alg & aead & pre & sh & post & ecdhe & hsec & chs & shs & -> & H0 & Hpt & H1 & H2 & H3 & H4 & H5 & H6 & H7 & H8 & H9 & H10)
    (E1 & E2 & E3 & E4 & E5 & E6 & E7 & E8) Et.
  exists alg, aead, pre, sh, (post ++ [m]), ecdhe, hsec, chs, shs.
  unfold psk_of in *. rewrite E1, E2, E3, E4, E5, E6, E7, E8, Et, H3.
  split_and!; try done; [by rewrite <- app_assoc|]. cbn [fmap option_fmap option_map]. unfold th_update.
  cbn [th_context th_algorithm]. do 2 f_equal.
  rewrite (rfc_transcript_app _ _ (pre ++ sh :: post) [m]) by (intros Hn; by destruct pre). simpl. by rewrite app_nil_r.
Qed.

(** EncryptedExtensions touch nothing of the core. *)
Lemma ee_extension_core t d b (h h1 : Hs) (r r1 : R) :
  ee_extension t d h r = Some (Ok b, h1, r1) -> core h1 = core h.
Proof.
  intros Hx. unfold ee_extension in Hx.
  repeat (case_match; hm; try done).
Qed.

Lemma ee_loop_core fuel : forall payload e pos saw b (h h1 : Hs) (r r1 : R),
  ee_loop fuel payload e pos saw h r = Some (Ok b, h1, r1) -> core h1 = core h.
Proof.
  induction fuel as [|fuel IH]; intros payload e pos saw b h h1 r r1 Hx; simpl in Hx; [by hm|].
  destruct (pos + 4 <=? e); [|by hm]. hm. case_match; [by hm|]. hm.
  match goal with H : ee_extension _ _ _ _ = _ |- _ => apply ee_extension_core in H; rewrite <- H end.
  by eapply IH.
Qed.

Definition framed (t : Z) (full payload : bytes) : Prop := exists a b c, full = t :: a :: b :: c :: payload.

Lemma inv_encrypted_extensions log full payload act (h h1 : Hs) (r r1 : R) :
  inv log (core h) -> hs_state h = WaitEncryptedExtensions ->
  process_encrypted_extensions full payload h r = Some (Ok act, h1, r1) ->
  inv (log ++ [full]) (core h1) /\ act = ContinueReading.
Proof.
  intros [Hech Hi] Hst Hx. simpl in Hi. rewrite Hst in Hi.
  unfold process_encrypted_extensions in Hx. hm.
  match goal with H : update_transcript _ _ _ = _ |- _ => apply update_transcript_ok in H as [-> ->] end.
  match goal with H : ee_loop _ _ _ _ _ ?h0 _ = Some (Ok _, ?h2, _) |- _ =>
    rename h2 into hl; apply ee_loop_core in H; rename H into Hcore end.
  assert (keyed (log ++ [full]) (core hl)) as Hk.
  { rewrite Hcore. eapply keyed_grow; [done| |done]. by split_and!. }
  assert (c_ech (core hl) = false) as Hech' by (by rewrite Hcore).
  split; [|done]. split; [done|]. simpl.
  destruct (hs_psk_accepted hl) eqn:Hp; simpl.
  - split; [done|]. by left.
  - split; done.
Qed.
Lemma inv_certificate_request log full payload act (h h1 : Hs) (r r1 : R) :
  inv log (core h) -> hs_state h = WaitCertificate ->
  process_certificate_request full payload h r = Some (Ok act, h1, r1) ->
  inv (log ++ [full]) (core h1) /\ act = ContinueReading.
Proof.
  intros [Hech Hi] Hst Hx. simpl in Hi. rewrite Hst in Hi. destruct Hi as [Hk Hp].
  unfold process_certificate_request in Hx. hm.
  match goal with H : update_transcript _ _ _ = _ |- _ => apply update_transcript_ok in H as [-> ->] end.
  split; [|done]. split; [done|]. simpl. rewrite Hst. split; [|done].
  eapply keyed_grow; [done| |done]. by split_and!.
Qed.

(** Installing the certificates of [message], after the message was added to the
    transcript. *)
Lemma inv_install log full message act (h h1 : Hs) (r r1 : R) :
  inv log (core h) -> hs_state h = WaitCertificate ->
  (forall certs, parse_certificate_message message = Ok certs -> carries_certs full certs) ->
  install_certificates message
    (set_transcript ((fun t => th_update t full) <$> hs_transcript h) h) r = Some (Ok act, h1, r1) ->
  inv (log ++ [full]) (core h1) /\ act = ContinueReading.
Proof.
  intros [Hech Hi] Hst Hc Hx. simpl in Hi. rewrite Hst in Hi. destruct Hi as [Hk Hp].
  unfold install_certificates in Hx. hm.
  split; [|done]. split; [done|]. simpl. split_and!; [|done|].
  - eapply keyed_grow; [done| |done]. by split_and!.
  - exists log, full. split_and!; [done| |by apply Hc|].
    + intros ->. by destruct Hk as (? & ? & [|] & ? & ? & ? & ? & ? & ? & ? & _).
    + match goal with H : negb (is_empty ?l) = true |- _ => by destruct l end.
Qed.

Lemma inv_certificate log full payload act (h h1 : Hs) (r r1 : R) :
  inv log (core h) -> hs_state h = WaitCertificate ->
  framed handshake_type.CERTIFICATE full payload ->
  process_certificate full payload h r = Some (Ok act, h1, r1) ->
  inv (log ++ [full]) (core h1) /\ act = ContinueReading.
Proof.
  intros Hi Hst (a & b & c & ->) Hx. unfold process_certificate in Hx. hm.
  match goal with H : update_transcript _ _ _ = _ |- _ => apply update_transcript_ok in H as [-> ->] end.
  eapply inv_install; [done|done| |done]. intros certs Hp. left. done.
Qed.

Lemma inv_compressed_certificate log full payload act (h h1 : Hs) (r r1 : R) :
  inv log (core h) -> hs_state h = WaitCertificate ->
  framed handshake_type.COMPRESSED_CERTIFICATE full payload ->
  process_compressed_certificate full payload h r = Some (Ok act, h1, r1) ->
  inv (log ++ [full]) (core h1) /\ act = ContinueReading.
Proof.
  intros Hi Hst (a & b & c & ->) Hx. unfold process_compressed_certificate in Hx. hm.
  match goal with H : update_transcript _ _ _ = _ |- _ => apply update_transcript_ok in H as [-> ->] end.
  eapply inv_install; [done|done| |done]. intros certs Hp. right. split; [done|].
  do 5 eexists. by split_and!.
Qed.

Lemma inv_certificate_verify log full payload act (h h1 : Hs) (r r1 : R) :
  inv log (core h) -> hs_state h = WaitCertificateVerify ->
  framed handshake_type.CERTIFICATE_VERIFY full payload ->
  process_certificate_verify full payload h r = Some (Ok act, h1, r1) ->
  inv (log ++ [full]) (core h1) /\ act = ContinueReading.
Proof.
  intros [Hech Hi] Hst (a & b & c & ->) Hx. simpl in Hi. rewrite Hst in Hi. destruct Hi as (Hk & Hp & pre & cm & -> & Hpre & Hcar & Hne).
  unfold process_certificate_verify in Hx. hm.
  match goal with H : update_transcript _ _ _ = _ |- _ => apply update_transcript_ok in H as [-> ->] end.
  match type of Hx with (if _ then _ else _) ?g _ = _ =>
    assert (keyed ((pre ++ [cm]) ++ [handshake_type.CERTIFICATE_VERIFY :: a :: b :: c :: payload])
      (core (set_state WaitFinished g))) as Hk' by (eapply keyed_grow; [done| |done]; by split_and!) end.
  destruct (hs_verification_policy h) eqn:Hpol; simpl in Hx; hm.
  - split; [|done]. split; [done|]. simpl. split; [done|]. right; right.
    destruct Hk as (alg & ? & ? & ? & ? & ? & ? & ? & ? & ? & _ & _ & Hal & _ & Htr & _).
    simpl in Htr, Hal, Hcar. destruct (hs_server_certificates h) as [|leaf rest] eqn:Hcs; [done|].
    simplify_eq/=. exists alg. split; [done|]. exists pre, cm.
    match goal with Hn : system_now ?rt = _ |- _ => eexists _, _, rest, _, _, rt; rewrite Hn end.
    split_and!; simpl; try done; [by rewrite <- app_assoc|]. by eexists.
  - split; [|done]. split; [done|]. simpl. split; [done|]. by right; left.
Qed.
(** *** ClientHello *)

Lemma run_build_ok b out (h h1 : Hs) (r r1 : R) : run_build b h r = Some (Ok out, h1, r1) ->
  h1 = h /\ exists g, b r = Some (Ok (out, g, r1)).
Proof. unfold run_build. destruct (b r) as [[[[o g] r']| |]|]; naive_solver. Qed.

Lemma append_psk_ok m t prefix m' (h h1 : Hs) (r r1 : R) :
  append_psk_extension m t prefix h r = Some (Ok m', h1, r1) ->
  exists es, compute_early_secret (t_hkdf_algorithm t) (resumption_psk t) = Ok es /\
    h1 = set_early_secret_from_psk (Some es) h.
Proof. intros Hx. unfold append_psk_extension in Hx. hm. eauto. Qed.

Lemma retry_hello_ok fuel ck rep ch2 (h h1 : Hs) (r r1 : R) :
  build_client_hello_retry fuel ck rep h r = Some (Ok ch2, h1, r1) ->
  exists e, h1 = set_early_secret_from_psk e h /\ early_ready (core h1).
Proof.
  intros Hx. unfold build_client_hello_retry in Hx. hm.
  match goal with H : run_build _ _ _ = _ |- _ => apply run_build_ok in H as [-> _] end.
  destruct (hs_psk_ticket h) as [t|] eqn:Ht.
  - apply append_psk_ok in Hx as (es & Hes & ->). exists (Some es). split; [done|].
    intros t' Ht'. simpl in Ht'. rewrite Ht in Ht'. simplify_eq. by exists es.
  - hm. exists (hs_early_secret_from_psk h). split; [by destruct h|].
    intros t' Ht'. simpl in Ht'. by rewrite Ht in Ht'.
Qed.

(** A handshake on which only the setters were used. *)
Definition fresh (h : Hs) : Prop :=
  hs_state h = Start /\ hs_hrr_received h = false /\ hs_psk_accepted h = false /\
  hs_ech_offered h = false.

Lemma inv_client_hello fuel ch (h h1 : Hs) (r r1 : R) :
  fresh h -> build_client_hello fuel h r = Some (Ok ch, h1, r1) -> inv [ch] (core h1).
Proof.
  intros (Hst & Hhrr & Hpsk & Hech) Hx. unfold build_client_hello in Hx. hm.
  match goal with H : run_build _ _ _ = _ |- _ => apply run_build_ok in H as [-> _] end.
  destruct (hs_psk_ticket h) as [t|] eqn:Ht.
  - match goal with H : append_psk_extension _ _ _ _ _ = _ |- _ => apply append_psk_ok in H as (es & Hes & ->) end.
    split; [done|]. simpl. split_and!; [done| |].
    + intros t' Ht'. simpl in Ht'. rewrite Ht in Ht'. simplify_eq. by exists es.
    + simpl. rewrite Hhrr. by eexists.
  - hm. split; [done|]. simpl. split_and!; [done| |].
    + intros t' Ht'. simpl in Ht'. by rewrite Ht in Ht'.
    + simpl. rewrite Hhrr. by eexists.
Qed.

(** *** ServerHello *)

Lemma accept_psk_ok sh alg u (h h1 : Hs) (r r1 : R) :
  accept_psk sh alg h r = Some (Ok u, h1, r1) ->
  h1 = h \/ exists t, hs_psk_ticket h = Some t /\ t_hkdf_algorithm t = alg /\ h1 = set_psk_accepted true h.
Proof.
  intros Hx. unfold accept_psk in Hx. case_match; hm; [|by left].
  destruct (hs_psk_ticket h) as [t|]; [|by hm]. case_match; hm. right.
  match goal with H : bool_decide _ = true |- _ => apply bool_decide_eq_true in H end. by exists t.
Qed.

Lemma position_Some {A} (f : A -> bool) l : forall i, position f l = Some i ->
  exists a, l !! i = Some a /\ f a = true.
Proof.
  induction l as [|a l IH]; intros i Hp; simpl in Hp; [done|].
  destruct (f a) eqn:Hf; simplify_eq; [by exists a|].
  destruct (position f l) as [j|]; simplify_eq/=. by apply IH.
Qed.
Lemma swap_remove_lookup {A} i (l : list A) a rest : swap_remove i l = Some (a, rest) -> l !! i = Some a.
Proof. unfold swap_remove. destruct (l !! i), (last l); simpl; naive_solver. Qed.

Lemma shared_secret_ok sh ss (h h1 : Hs) (r r1 : R) :
  hs_compute_shared_secret sh h r = Some (Ok ss, h1, r1) ->
  core h1 = core h /\ exists g pk (kp : EphemeralKeyPair K D), key_share (sh_extensions sh) = Some (g, pk) /\
    group_code_point (kp_group kp) = g /\ kx.compute_shared_secret kp pk = Ok ss.
Proof.
  intros Hx. unfold hs_compute_shared_secret in Hx. hm. split; [done|].
  match goal with H : swap_remove _ _ = _ |- _ => apply swap_remove_lookup in H as Hsw end.
  match goal with H : position _ _ = _ |- _ => apply position_Some in H as (kp & Hl & Hg) end.
  rewrite Hl in Hsw. simplify_eq. apply Z.eqb_eq in Hg. by do 3 eexists.
Qed.

Lemma derive_keys_ok alg aead ss k (h h1 : Hs) (r r1 : R) :
  derive_handshake_keys alg aead ss h r = Some (Ok k, h1, r1) ->
  exists es e t hsec chs shs,
    match hs_psk_accepted h, hs_early_secret_from_psk h with
    | true, Some x => es = x
    | _, _ => hkdf_extract alg (zeros (hash_len alg)) (zeros (hash_len alg)) = Ok es
    end /\
    hs_transcript h = Some t /\ derive_next es ss = Ok hsec /\
    prk_derive_secret hsec "c hs traffic" (current_hash t) = Ok chs /\
    prk_derive_secret hsec "s hs traffic" (current_hash t) = Ok shs /\
    core h1 = core (set_server_hs_traffic_secret (Some shs) (set_client_hs_traffic_secret (Some chs)
                (set_handshake_secret (Some hsec) (set_early_secret_from_psk e h)))).
Proof.
  intros Hx. unfold derive_handshake_keys in Hx. hm.
  repeat match goal with H : log_secret _ _ _ _ = _ |- _ => apply log_secret_ok in H as (? & -> & ->) end.
  destruct (hs_psk_accepted h); [destruct (hs_early_secret_from_psk h) eqn:He|]; hm.
  - eexists _, None, _, _, _, _. split_and!; first [eassumption|reflexivity].
  - eexists _, None, _, _, _, _. split_and!; first [eassumption|rewrite <- He; reflexivity].
  - eexists _, (hs_early_secret_from_psk h), _, _, _, _. split_and!; first [eassumption|reflexivity].
Qed.
Lemma cipher_suite_inj suite a1 a2 b1 b2 :
  cipher_suite_info suite = Ok (a1, b1) -> cipher_suite_info suite = Ok (a2, b2) -> a1 = a2.
Proof. intros H1 H2. rewrite H1 in H2. by simplify_eq. Qed.

Lemma core_fields (h h' : Hs) : core h = core h' ->
  hs_hkdf_algorithm h = hs_hkdf_algorithm h' /\ hs_aead_algorithm h = hs_aead_algorithm h' /\
  hs_hrr_received h = hs_hrr_received h' /\ hs_transcript h = hs_transcript h' /\
  hs_psk_ticket h = hs_psk_ticket h' /\ hs_psk_accepted h = hs_psk_accepted h' /\
  hs_ech_offered h = hs_ech_offered h' /\ hs_early_secret_from_psk h = hs_early_secret_from_psk h' /\
  hs_buffered_client_hello h = hs_buffered_client_hello h'.
Proof. unfold core. intros Hc. injection Hc. intros. by split_and!. Qed.

(** The ServerHello joins the transcript. *)
Lemma transcript_sh_ok log full alg u (h h1 : Hs) (r r1 : R) :
  (if hs_hrr_received h then hs_transcript h = Some (mkTh (rfc_transcript alg true log) alg) /\ log <> []
   else exists ch, log = [ch] /\ hs_buffered_client_hello h = Some ch) ->
  transcript_server_hello full alg h r = Some (Ok u, h1, r1) ->
  r1 = r /\ exists bf, h1 = set_buffered_client_hello bf
    (set_transcript (Some (mkTh (rfc_transcript alg (hs_hrr_received h) (log ++ [full])) alg)) h).
Proof.
  intros Hw Hx. unfold transcript_server_hello in Hx. hm.
  destruct (hs_hrr_received h) eqn:Hh.
  - destruct Hw as [Ht Hn]. apply update_transcript_ok in Hx as [-> ->]. split; [done|].
    exists (hs_buffered_client_hello h). rewrite Ht, (rfc_transcript_app _ _ log [full]) by done.
    simpl concat. by rewrite app_nil_r.
  - hm. destruct Hw as (ch & -> & ->). split; [done|]. exists None.
    unfold th_update, th_new; simpl. by rewrite app_nil_r.
Qed.

(** After a ServerHello that is not a HelloRetryRequest: the transcript with it
    and the secrets. *)
Lemma inv_keyed log full payload sh alg aead ss keys b bf (h h1 h2 h3 : Hs) (r2 r3 r4 : R) :
  hellos (hs_hrr_received h) log -> early_ready (core h) -> hs_ech_offered h = false -> framed handshake_type.SERVER_HELLO full payload ->
  parse_server_hello payload = Ok sh ->
  hs_hkdf_algorithm h = Some alg -> hs_aead_algorithm h = Some aead ->
  h1 = set_psk_accepted b h -> (b = true -> exists t, hs_psk_ticket h = Some t /\ t_hkdf_algorithm t = alg) ->
  hs_compute_shared_secret sh (set_buffered_client_hello bf
    (set_transcript (Some (mkTh (rfc_transcript alg (hs_hrr_received h) (log ++ [full])) alg)) h1)) r2 = Some (Ok ss, h2, r3) ->
  derive_handshake_keys alg aead ss h2 r3 = Some (Ok keys, h3, r4) ->
  keyed (log ++ [full]) (core h3) /\ hs_ech_offered h3 = false.
Proof.
  intros Hlog Hearly Hech Hfr Hsh Hal Hae -> Hb H1 H2.
  apply shared_secret_ok in H1 as (Hc & g & pk & kp & Hks & Hg & Hss).
  apply core_fields in Hc as (F1 & F2 & F3 & F4 & F5 & F6 & F7 & F8 & F9). simpl in *.
  apply derive_keys_ok in H2 as (es & e & t & hsec & chs & shs & Hes & Ht & Hhs & Hchs & Hshs & Hc).
  apply core_fields in Hc as Hf. destruct Hf as (G1 & G2 & G3 & G4 & G5 & G6 & G7 & G8 & G9). simpl in *.
  rewrite F4 in Ht. injection Ht as <-. split; [|by rewrite G7, F7].
  assert (rfc_early_secret alg (if b then resumption_psk <$> hs_psk_ticket h else None) = Ok es) as Hearlysec.
  { rewrite F6, F8 in Hes. destruct b; [|done]. destruct Hb as (t & Ht & <-); [done|].
    destruct (Hearly t Ht) as (es' & He & Hce). simpl in He. rewrite He in Hes. subst.
    unfold rfc_early_secret. rewrite Ht. exact Hce. }
  exists alg, aead, log, full, [], ss, hsec, chs, shs. unfold psk_of.
  rewrite Hc. simpl. unfold transcript_hash. split_and!; try done; try congruence.
  - rewrite F6, F5. intros ->. destruct Hb as (t & -> & _); done.
  - exists sh, g, pk, kp. destruct Hfr as (? & ? & ? & ->). by split_and!.
  - unfold rfc_handshake_secret. rewrite F6, F5, Hearlysec. done.
  - by rewrite F3.
  - by rewrite F3.
Qed.
(** *** HelloRetryRequest *)

Lemma hrr_ech_ok full sh alg u (h h1 : Hs) (r r1 : R) : hs_ech_offered h = false ->
  hrr_ech full sh alg h r = Some (Ok u, h1, r1) -> h1 = h /\ r1 = r.
Proof. intros He Hx. unfold hrr_ech in Hx. hm. rewrite He in Hx. by hm. Qed.

Lemma hrr_key_share_ok sh b (h h1 : Hs) (r r1 : R) :
  hrr_key_share sh h r = Some (Ok b, h1, r1) -> exists kps, h1 = set_key_pairs kps h.
Proof.
  intros Hx. unfold hrr_key_share in Hx. case_match; hm; [by eexists|].
  exists (hs_key_pairs h). by destruct h.
Qed.

Lemma inv_retry log fuel full sh suite alg aead act (h h1 : Hs) (r r1 : R) :
  waiting log (core h) -> hs_ech_offered h = false ->
  hs_cipher_suite h = Some suite -> cipher_suite_info suite = Ok (alg, aead) -> is_hrr full ->
  process_hello_retry_request fuel full sh alg h r = Some (Ok act, h1, r1) ->
  exists ch2, act = RetryClientHello ch2 /\ inv (log ++ [full; ch2]) (core h1).
Proof.
  intros (Hpsk & _ & Hw) Hech Hsu Hinfo Hfull Hx. unfold process_hello_retry_request in Hx. hm.
  match goal with H : hrr_ech _ _ _ _ _ = _ |- _ => apply hrr_ech_ok in H as [-> ->]; [|done] end.
  match goal with H : hrr_key_share _ _ _ = _ |- _ => apply hrr_key_share_ok in H as [kps ->] end.
  match goal with H : build_client_hello_retry _ _ _ _ _ = _ |- _ =>
    apply retry_hello_ok in H as (e & -> & Hearly) end.
  match goal with H : update_transcript _ _ _ = _ |- _ => apply update_transcript_ok in H as [-> ->] end.
  match goal with H : negb (hs_hrr_received h) = true |- _ => apply negb_true_iff in H; rename H into Hn end.
  simpl in Hw. rewrite Hn in Hw. destruct Hw as (ch1 & -> & Hbuf).
  eexists. split; [done|]. split; [done|]. simpl. split; [done|]. split; [refine (early_ready_eq _ _ _ _ Hearly); simpl; reflexivity|].
  simpl. do 6 eexists. split_and!; [done|done|done|done|]. simpl. rewrite Hbuf. simpl.
  unfold th_update, replace_with_message_hash, current_hash; simpl. do 2 f_equal.
  by rewrite app_nil_r, <- app_assoc.
Qed.

Lemma accept_ech_ok full sh alg u (h h1 : Hs) (r r1 : R) : hs_ech_offered h = false ->
  accept_ech full sh alg h r = Some (Ok u, h1, r1) -> h1 = h /\ r1 = r.
Proof. intros He Hx. unfold accept_ech in Hx. hm. rewrite He in Hx. by hm. Qed.

Lemma set_psk_same (h : Hs) b : hs_psk_accepted h = b -> set_psk_accepted b h = h.
Proof. destruct h; simpl. by intros ->. Qed.

Lemma accept_psk_cases sh alg u (h h1 : Hs) (r r1 : R) : hs_psk_accepted h = false ->
  accept_psk sh alg h r = Some (Ok u, h1, r1) ->
  exists b, h1 = set_psk_accepted b h /\
    (b = true -> exists t, hs_psk_ticket h = Some t /\ t_hkdf_algorithm t = alg).
Proof.
  intros Hp Hx. apply accept_psk_ok in Hx as [->|(t & Ht & Ha & ->)].
  - exists false. by rewrite set_psk_same.
  - exists true. split; [done|]. intros _. by exists t.
Qed.

(** Recording the negotiated suite keeps a waiting handshake waiting: after a
    HelloRetryRequest it is the suite already recorded. *)
Lemma waiting_suite log suite alg aead (h : Hs) : waiting log (core h) ->
  cipher_suite_info suite = Ok (alg, aead) ->
  (hs_hrr_received h = true -> hs_cipher_suite h = Some suite) ->
  waiting log (core (set_aead_algorithm (Some aead) (set_hkdf_algorithm (Some alg) (set_cipher_suite (Some suite) h)))).
Proof.
  intros (Hp & He & Hw) Hinfo Hs. split; [done|]. split; [done|]. simpl in *.
  destruct (hs_hrr_received h); [|done].
  destruct Hw as (ch1 & hrr & ch2 & alg' & aead' & suite' & Hlog & Hr & Hs' & Hinfo' & Ht).
  exists ch1, hrr, ch2, alg', aead', suite. rewrite Hs in Hs' by done. simplify_eq. by split_and!.
Qed.

Lemma waiting_transcript log suite alg aead (h : Hs) : waiting log (core h) ->
  hs_cipher_suite h = Some suite -> cipher_suite_info suite = Ok (alg, aead) ->
  if hs_hrr_received h then hs_transcript h = Some (mkTh (rfc_transcript alg true log) alg) /\ log <> []
  else exists ch, log = [ch] /\ hs_buffered_client_hello h = Some ch.
Proof.
  intros (Hp & He & Hw) Hs Hinfo. simpl in *. destruct (hs_hrr_received h); [|done].
  destruct Hw as (ch1 & hrr & ch2 & alg' & aead' & suite' & -> & Hr & Hs' & Hinfo' & Ht).
  rewrite Hs in Hs'. simplify_eq. rewrite Hinfo in Hinfo'. by simplify_eq.
Qed.

Lemma waiting_hellos log c : waiting log c -> hellos (c_hrr c) log.
Proof.
  intros (_ & _ & Hw). unfold hellos. destruct (c_hrr c).
  - destruct Hw as (ch1 & m & ch2 & _ & _ & _ & -> & Hm & _). by exists ch1, m, ch2.
  - destruct Hw as (ch & -> & _). by exists ch.
Qed.

Lemma inv_server_hello log fuel full payload act (h h1 : Hs) (r r1 : R) :
  inv log (core h) -> hs_state h = WaitServerHello ->
  framed handshake_type.SERVER_HELLO full payload ->
  process_server_hello fuel full payload h r = Some (Ok act, h1, r1) ->
  (exists ch2, act = RetryClientHello ch2 /\ inv (log ++ [full; ch2]) (core h1)) \/
  (exists keys, act = InstallHandshakeKeys keys /\ inv (log ++ [full]) (core h1)).
Proof.
  intros [Hech Hi] Hst Hfr Hx. simpl in Hi. rewrite Hst in Hi.
  unfold process_server_hello in Hx. hm.
  match goal with H : cipher_suite_info _ = Ok (?a, ?b) |- _ => rename a into alg, b into aead; rename H into Hinfo end.
  match goal with H : parse_server_hello _ = Ok ?s |- _ => rename s into sh; rename H into Hparse end.
  match goal with H : (if hs_hrr_received h then _ else _) _ _ = _ |- _ => rename H into Hprev end.
  assert (hs_hrr_received h = true -> hs_cipher_suite h = Some (sh_cipher_suite sh)) as Hsame.
  { intros Hh. destruct Hi as (_ & _ & Hw). simpl in Hw. rewrite Hh in Hw, Hprev.
    destruct Hw as (? & ? & ? & ? & ? & suite & _ & _ & Hs & _). simpl in Hs. rewrite Hs in Hprev. hm.
    match goal with H : (suite =? _) = true |- _ => apply Z.eqb_eq in H; subst end. done. }
  match type of Hprev with _ = Some (_, ?a, ?b) =>
    assert (a = h /\ b = r) as [-> ->] by (clear -Hprev; destruct (hs_hrr_received h); [destruct (hs_cipher_suite h)|]; by hm) end.
  clear Hprev.
  set (h0 := set_aead_algorithm _ _) in Hx.
  assert (waiting log (core h0)) as Hw0 by (by apply waiting_suite).
  assert (hs_ech_offered h0 = false) as He0 by exact Hech.
  destruct (is_hello_retry_request sh) eqn:Hhrr.
  { left. eapply inv_retry; [done|done| |exact Hinfo| |exact Hx]; [done|].
    destruct Hfr as (? & ? & ? & ->). by exists sh. }
  right. hm. match goal with H : accept_psk _ _ _ _ = _ |- _ => apply accept_psk_cases in H as (b & -> & Hb); [|apply Hw0] end.
  match goal with H : transcript_server_hello _ _ _ _ = _ |- _ =>
    apply (transcript_sh_ok log) in H as [-> [bf ->]];
      [|exact (waiting_transcript _ (sh_cipher_suite sh) _ aead _ Hw0 eq_refl Hinfo)] end.
  match goal with H : hs_compute_shared_secret _ _ _ = _, H' : accept_ech _ _ _ _ _ = _ |- _ =>
    pose proof (shared_secret_ok _ _ _ _ _ _ H) as [Hc _];
    apply core_fields in Hc as (_ & _ & _ & _ & _ & _ & Hec & _);
    apply accept_ech_ok in H' as [-> ->]; [|by rewrite Hec] end.
  match goal with H : hs_compute_shared_secret _ _ _ = _, H' : derive_handshake_keys _ _ _ _ _ = _ |- _ =>
    edestruct (inv_keyed log full payload sh alg aead) as [Hk Hek];
      [exact (waiting_hellos _ _ Hw0)|apply Hw0|exact He0|done|done|reflexivity|reflexivity|reflexivity|exact Hb|exact H|exact H'|] end.
  eexists. split; [done|]. split; [exact Hek|]. simpl. exact Hk.
Qed.

End props.
End tls13_props.
