(* ===== verification/Tls13Runs.v ===== *)
(** * Completed TLS 1.3 handshakes

    The handshakes a client runs, message by message, and what the one that
    completes has established. *)
From S2P Require Import Prelude TlsError StateM TlsCipher TlsProfile TlsExtensions QuicParams TlsKx ClientHello ServerHello TlsHkdf CertChain SessionStore Hpack Synthesis Tls13 Tls13Props.
Import error statem types extensions kx client_hello server_hello hkdf certchain session_store quic_transport_params tls13 tls13_props.

Module tls13_runs.

Section props.
Context {R K D P O E T N : Type}.
Context {SR : SystemRandom R} {AG : Agreement R K D} {CK : Clock R} {H : Hkdf P O} {C : Crypto}.
Context {SG : Signatures} {W : Webpki E T N} {DC : Decompress}.

Abbreviation Hs := (Tls13Handshake (K := K) (D := D) (P := P) (T := T)).
Abbreviation HM := (SM Hs R).
Abbreviation step := (process_single_message (R := R) (K := K) (D := D) (P := P) (O := O) (E := E) (T := T) (N := N)).


(** The messages of the client that an action carries. *)
Definition before_finished (c : HandshakeComplete) : list bytes :=
  option_list (hc_client_encrypted_extensions c) ++ option_list (hc_client_certificate c).
Definition sent (a : HandshakeAction) : list bytes :=
  match a with
  | RetryClientHello ch2 => [ch2]
  | Complete c => before_finished c ++ [hc_client_finished c]
  | _ => []
  end.

(** ** Finished *)

(** The secrets of a completed handshake are those of RFC 8446 for the key
    exchange [ecdhe], the PSK and the transcript: [log] are the messages before
    the server's Finished [full]. *)
Definition rfc_traffic (alg : HkdfAlgorithm) (aead : AeadAlgorithm) (secret k iv : bytes) : Prop :=
  hkdf_expand_label alg secret "key" [] (key_len aead) = Ok k /\
  hkdf_expand_label alg secret "iv" [] (nonce_len aead) = Ok iv.

Record schedule (alg : HkdfAlgorithm) (aead : AeadAlgorithm) (hrr : bool) (log : list bytes) (full : bytes)
    (psk : option bytes) (ecdhe : bytes) (hc : HandshakeComplete) : Prop := mkSchedule {
  sch_alg : ts_hkdf_algorithm (hc_traffic_secrets hc) = alg;
  sch_aead : ts_aead_algorithm (hc_traffic_secrets hc) = aead;
  sch_secrets : exists ms, rfc_master_secret alg psk ecdhe = Ok ms /\
    prk_derive_secret ms "c ap traffic" (transcript_hash alg hrr (log ++ [full])) =
      Ok (ts_client_app_secret (hc_traffic_secrets hc)) /\
    prk_derive_secret ms "s ap traffic" (transcript_hash alg hrr (log ++ [full])) =
      Ok (ts_server_app_secret (hc_traffic_secrets hc)) /\
    prk_derive_secret ms "exp master" (transcript_hash alg hrr (log ++ [full])) =
      Ok (ts_exporter_master_secret (hc_traffic_secrets hc)) /\
    prk_derive_secret ms "res master" (transcript_hash alg hrr (log ++ full :: sent (Complete hc))) =
      Ok (hc_resumption_master_secret hc);
  sch_client : rfc_traffic alg aead (ts_client_app_secret (hc_traffic_secrets hc))
    (ts_client_key (hc_traffic_secrets hc)) (ts_client_iv (hc_traffic_secrets hc));
  sch_server : rfc_traffic alg aead (ts_server_app_secret (hc_traffic_secrets hc))
    (ts_server_key (hc_traffic_secrets hc)) (ts_server_iv (hc_traffic_secrets hc));
}.

(** The transcript holds the messages [log]. *)
Definition holds (alg : HkdfAlgorithm) (hrr : bool) (log : list bytes) (h : Hs) : Prop :=
  hs_transcript h = Some (mkTh (rfc_transcript alg hrr log) alg) /\ log <> [].

Lemma holds_update alg hrr log m u (h h1 : Hs) (r r1 : R) : holds alg hrr log h ->
  update_transcript m h r = Some (Ok u, h1, r1) -> holds alg hrr (log ++ [m]) h1.
Proof.
  intros [Ht Hn] Hx. apply update_transcript_ok in Hx as [-> ->]. split; [|by destruct log].
  simpl. rewrite Ht, (rfc_transcript_app _ _ log [m]) by done. simpl. unfold th_update; simpl. by rewrite app_nil_r.
Qed.
Lemma holds_option alg hrr log o u (h h1 : Hs) (r r1 : R) : holds alg hrr log h ->
  from_option update_transcript (mret tt) o h r = Some (Ok u, h1, r1) -> holds alg hrr (log ++ option_list o) h1.
Proof.
  destruct o; simpl; [apply holds_update|]. intros Hh Hx. hm. by rewrite app_nil_r.
Qed.
Lemma holds_log alg hrr log l s u (h h1 : Hs) (r r1 : R) : holds alg hrr log h ->
  log_secret l s h r = Some (Ok u, h1, r1) -> holds alg hrr log h1.
Proof. intros Hh Hx. by apply log_secret_ok in Hx as (? & -> & ->). Qed.
Lemma holds_hash alg hrr log t (h : Hs) : holds alg hrr log h -> hs_transcript h = Some t ->
  current_hash t = transcript_hash alg hrr log.
Proof. intros [Ht _] Hx. rewrite Ht in Hx. by simplify_eq. Qed.

Ltac run :=
  repeat match goal with
  | Hh : holds _ _ _ ?h, H : update_transcript _ ?h _ = Some (_, _, _) |- _ =>
      pose proof (holds_update _ _ _ _ _ _ _ _ _ Hh H); clear H
  | Hh : holds _ _ _ ?h, H : from_option update_transcript _ _ ?h _ = Some (_, _, _) |- _ =>
      pose proof (holds_option _ _ _ _ _ _ _ _ _ Hh H); clear H
  | Hh : holds _ _ _ ?h, H : log_secret _ _ ?h _ = Some (_, _, _) |- _ =>
      pose proof (holds_log _ _ _ _ _ _ _ _ _ _ Hh H); clear H
  end.

(** The other name of the value of an option, replaced. *)
Ltac pin Hy :=
  match type of Hy with ?x = Some ?y =>
    match goal with Hz : x = Some ?z |- _ =>
      lazymatch z with y => fail | _ => rewrite Hy in Hz; injection Hz as <- end
    end
  end.

Lemma finished_ok log full payload act (h h1 : Hs) (r r1 : R) :
  keyed log (core h) -> process_finished full payload h r = Some (Ok act, h1, r1) ->
  exists alg aead pre sh post ecdhe hsec chs shs hc vd,
    act = Complete hc /\ hs_state h1 = Connected /\
    log = pre ++ sh :: post /\ hellos (hs_hrr_received h) pre /\
    (hs_psk_accepted h = true -> hs_psk_ticket h <> None) /\ key_exchange sh ecdhe /\
    rfc_handshake_secret alg (psk_of (core h)) ecdhe = Ok hsec /\
    prk_derive_secret hsec "c hs traffic" (transcript_hash alg (hs_hrr_received h) (pre ++ [sh])) = Ok chs /\
    prk_derive_secret hsec "s hs traffic" (transcript_hash alg (hs_hrr_received h) (pre ++ [sh])) = Ok shs /\
    hs_hkdf_algorithm h = Some alg /\
    compute_finished_verify_data alg shs (transcript_hash alg (hs_hrr_received h) log) = Ok payload /\
    compute_finished_verify_data alg chs
      (transcript_hash alg (hs_hrr_received h) (log ++ full :: before_finished hc)) = Ok vd /\
    hc_client_finished hc = build_finished vd /\
    schedule alg aead (hs_hrr_received h) log full (psk_of (core h)) ecdhe hc.
Proof.
  intros Hk Hx. unfold process_finished in Hx.
  apply bind_ok in Hx as (? & ? & ? & Hg & Hx). hm.
  destruct Hk as (alg & aead & pre & sh & post & ecdhe & hsec & chs & shs & Hlog & Hhel & Hpt & Ha & Hae & Ht & Hse & Hcs & Hss & Hkx & Hhs & Hchs & Hshs).
  cbn [core c_hkdf c_aead c_transcript c_hsec c_chs c_shs c_hrr] in *.
  assert (holds alg (hs_hrr_received h) log h) as Hh by (split; [done|subst log; by destruct pre]).
  match goal with H : update_transcript full h r = Some (_, ?h', _) |- _ =>
    pose proof (update_transcript_ok _ _ _ _ _ _ H) as [Heq _];
    pose proof (holds_update _ _ _ _ _ _ _ _ _ Hh H) as Hh1; clear H;
    assert (holds alg (hs_hrr_received h) (log ++ [full]) (set_handshake_secret None h')) as Hh2 by exact Hh1;
    assert (hs_client_hs_traffic_secret (set_handshake_secret None h') = Some chs) as Hc by (by rewrite Heq) end.
  run.
  repeat match goal with H : hs_transcript ?x = Some ?t, H' : holds _ _ _ ?x |- _ =>
    rewrite (holds_hash _ _ _ _ _ H' H) in *; clear H end.
  pin Ha; pin Hae; pin Hss; pin Hse; pin Hc.
  match goal with H : bool_decide _ = true |- _ => apply bool_decide_eq_true in H; subst end.
  exists alg, aead, pre, sh, post, ecdhe, hsec, chs, shs. do 2 eexists.
  split_and!; try done; [|constructor; try done; eexists; split_and!; try done].
  - match goal with Hv : compute_finished_verify_data alg chs _ = Ok _ |- _ => rewrite <- Hv end.
    unfold before_finished. cbn [hc_client_encrypted_extensions hc_client_certificate].
    by rewrite <- !app_assoc.
  - unfold rfc_master_secret. by rewrite Hhs.
  - match goal with Hv : prk_derive_secret _ "res master" _ = Ok _ |- _ => refine (eq_trans _ Hv) end.
    unfold sent, before_finished. cbn [hc_client_encrypted_extensions hc_client_certificate hc_client_finished].
    by rewrite <- !app_assoc.
Qed.

(** ** The configuration is constant *)

Definition config (h : Hs) := (hs_profile h, hs_hostname h, hs_verification_policy h, hs_custom_ca_anchors h,
  hs_psk_ticket h, hs_ech_offered h).

Lemma keeps_run_build b : keeps (R := R) config (run_build b).
Proof. intros h r o h1 r1 Hx. unfold run_build in Hx. destruct (b r) as [[[[]]| |]|]; by simplify_eq. Qed.
Lemma keeps_update_transcript m : keeps (R := R) config (update_transcript m).
Proof. unfold update_transcript. keeps. Qed.
Lemma keeps_log_secret l s : keeps (R := R) config (log_secret l s).
Proof. unfold log_secret. keeps. Qed.
Hint Resolve keeps_run_build keeps_update_transcript keeps_log_secret : keeps.

Lemma keeps_append_psk m t p : keeps (R := R) config (append_psk_extension m t p).
Proof. unfold append_psk_extension. keeps. Qed.
Hint Resolve keeps_append_psk : keeps.
Lemma keeps_client_hello fuel : keeps (R := R) config (build_client_hello fuel).
Proof. unfold build_client_hello. keeps. Qed.
Lemma keeps_retry fuel ck b : keeps (R := R) config (build_client_hello_retry fuel ck b).
Proof. unfold build_client_hello_retry. keeps. Qed.
Hint Resolve keeps_client_hello keeps_retry : keeps.
Lemma keeps_shared_secret sh : keeps (R := R) config (hs_compute_shared_secret sh).
Proof. unfold hs_compute_shared_secret. keeps. Qed.
Lemma keeps_derive a b c : keeps (R := R) config (derive_handshake_keys a b c).
Proof. unfold derive_handshake_keys. keeps. Qed.
Lemma keeps_hrr_key_share sh : keeps (R := R) config (hrr_key_share sh).
Proof. unfold hrr_key_share. keeps. Qed.
Lemma keeps_hrr_ech full sh alg : keeps (R := R) config (hrr_ech full sh alg).
Proof. unfold hrr_ech. keeps. Qed.
Hint Resolve keeps_shared_secret keeps_derive keeps_hrr_key_share keeps_hrr_ech : keeps.
Lemma keeps_server_hello fuel full payload : keeps (R := R) config (process_server_hello fuel full payload).
Proof.
  unfold process_server_hello, process_hello_retry_request, accept_psk, transcript_server_hello, accept_ech. keeps.
Qed.
Lemma keeps_ee_loop fuel : forall payload e pos saw, keeps (R := R) config (ee_loop fuel payload e pos saw).
Proof. induction fuel; intros; simpl; unfold ee_extension; keeps. Qed.
Hint Resolve keeps_server_hello keeps_ee_loop : keeps.
Lemma keeps_message fuel t full payload : keeps (R := R) config (process_single_message fuel t full payload).
Proof.
  unfold process_single_message, process_encrypted_extensions, process_certificate_request,
    process_certificate, process_compressed_certificate, process_certificate_verify, install_certificates,
    process_finished, from_option. keeps.
Qed.

(** ** Runs *)

(** The handshakes that start from [h0]: the ClientHello, then handshake
    messages of the server, each with its header.  Random generator and clocks
    are arbitrary at each message; [log] are the messages of both sides. *)
Inductive reach (h0 : Hs) : list bytes -> Hs -> Prop :=
| reach_hello fuel ch h r r1 :
    fresh h0 -> build_client_hello fuel h0 r = Some (Ok ch, h, r1) -> reach h0 [ch] h
| reach_message log h fuel t full payload act h1 r r1 :
    reach h0 log h -> framed t full payload ->
    process_single_message fuel t full payload h r = Some (Ok act, h1, r1) ->
    reach h0 (log ++ full :: sent act) h1.

Lemma reach_config h0 log h : reach h0 log h -> config h = config h0.
Proof.
  induction 1 as [fuel ch h r r1 _ Hx|log h fuel t full payload act h1 r r1 _ IH _ Hx].
  - by apply keeps_client_hello in Hx.
  - apply keeps_message in Hx. by rewrite Hx.
Qed.

Lemma inv_message log fuel t full payload act (h h1 : Hs) (r r1 : R) :
  inv log (core h) -> framed t full payload ->
  process_single_message fuel t full payload h r = Some (Ok act, h1, r1) ->
  inv (log ++ full :: sent act) (core h1) /\
  forall hc, act = Complete hc -> t = handshake_type.FINISHED /\ hs_state h = WaitFinished /\
    process_finished full payload h r = Some (Ok (Complete hc), h1, r1).
Proof.
  intros Hi Hfr Hx. unfold process_single_message in Hx. apply bind_ok in Hx as (? & ? & ? & Hg & Hx).
  apply get_ok in Hg as (-> & -> & ->).
  destruct (hs_state h) eqn:Hst; [by hm| | | | | |by hm];
    repeat match type of Hx with (if ?c =? ?d then _ else _) _ _ = _ => destruct (Z.eqb_spec c d) as [->|] end;
    try by hm.
  - destruct (inv_server_hello _ _ _ _ _ _ _ _ _ Hi Hst Hfr Hx) as [(ch2 & -> & Hi')|(k & -> & Hi')]; done.
  - by destruct (inv_encrypted_extensions _ _ _ _ _ _ _ _ Hi Hst Hx) as [? ->].
  - by destruct (inv_certificate_request _ _ _ _ _ _ _ _ Hi Hst Hx) as [? ->].
  - by destruct (inv_certificate _ _ _ _ _ _ _ _ Hi Hst Hfr Hx) as [? ->].
  - by destruct (inv_compressed_certificate _ _ _ _ _ _ _ _ Hi Hst Hfr Hx) as [? ->].
  - by destruct (inv_certificate_verify _ _ _ _ _ _ _ _ Hi Hst Hfr Hx) as [? ->].
  - destruct Hi as [He Hi]. simpl in Hi. rewrite Hst in Hi. destruct Hi as [Hk _].
    pose proof (finished_ok _ _ _ _ _ _ _ _ Hk Hx) as (? & ? & ? & ? & ? & ? & ? & ? & ? & ? & ? & _ & Hst1 & _).
    split; [|by intros hc ->]. split; [|simpl; by rewrite Hst1]. simpl.
    assert (keeps (R := R) config (process_finished full payload)) as Hkeep by (unfold process_finished, from_option; keeps).
    apply Hkeep in Hx. unfold config in Hx. injection Hx as _ _ _ _ _ Hx. by rewrite Hx.
Qed.

Lemma reach_inv h0 log h : reach h0 log h -> inv log (core h).
Proof.
  induction 1 as [fuel ch h r r1 Hf Hx|log h fuel t full payload act h1 r r1 _ IH Hfr Hx].
  - by eapply inv_client_hello.
  - by eapply (inv_message log).
Qed.

(** A message cut out of a record has its header. *)
Lemma slice_framed (data full payload : bytes) pos n t :
  (idx data pos : Outcome TlsError Z) = Ok t -> 0 <= n -> pos + 4 + n <= len data ->
  (slice data pos (pos + 4 + n) : Outcome TlsError bytes) = Ok full ->
  (slice data (pos + 4) (pos + 4 + n) : Outcome TlsError bytes) = Ok payload -> framed t full payload.
Proof.
  unfold idx, slice. intros Hi Hn Hl Hf Hp. repeat case_decide; simplify_eq.
  destruct (data !! Z.to_nat pos) as [x|] eqn:Hx; simplify_eq.
  unfold len in *. replace (Z.to_nat (pos + 4)) with (4 + Z.to_nat pos)%nat by lia.
  replace (Z.to_nat (pos + 4 + n - pos)) with (4 + Z.to_nat n)%nat by lia.
  replace (Z.to_nat (pos + 4 + n - (pos + 4))) with (Z.to_nat n) by lia.
  rewrite (drop_S _ _ _ Hx). replace (drop (4 + Z.to_nat pos) data) with (drop 3 (drop (S (Z.to_nat pos)) data))
    by (rewrite drop_drop; f_equal; lia).
  assert (length (drop (S (Z.to_nat pos)) data) >= 3)%nat as Hd by (rewrite length_drop; lia).
  destruct (drop (S (Z.to_nat pos)) data) as [|a [|b [|c l]]]; simpl in *; try lia. by exists a, b, c.
Qed.

Lemma from_be24_nonneg a b c : 0 <= a -> 0 <= b -> 0 <= c -> 0 <= from_be24 a b c.
Proof. unfold from_be24. intros. rewrite !Z.lor_nonneg, !Z.shiftl_nonneg. done. Qed.
Lemma idx_byte (l : bytes) i x : is_bytes l -> (idx l i : Outcome TlsError Z) = Ok x -> u8 x.
Proof.
  intros Hl Hx. unfold idx in Hx. case_decide; [|done]. destruct (l !! Z.to_nat i) eqn:Hy; simplify_eq.
  by eapply Forall_lookup_1 in Hy.
Qed.
Lemma read_u24_nonneg l pos n : is_bytes l -> (read_u24 l pos : Outcome TlsError Z) = Ok n -> 0 <= n.
Proof.
  intros Hl Hx. unfold read_u24 in Hx.
  repeat match type of Hx with context [idx l ?i] =>
    let E := fresh in destruct (idx l i) eqn:E; try done; apply idx_byte in E; [|exact Hl]; simpl in Hx end.
  simplify_eq. unfold u8 in *. apply from_be24_nonneg; lia.
Qed.

(** Records only take the handshake through its messages. *)
Lemma record_loop_reach h0 data : is_bytes data -> forall fuel sfuel pos log last act (h h1 : Hs) (r r1 : R),
  reach h0 log h -> record_loop fuel sfuel data pos last h r = Some (Ok act, h1, r1) ->
  (act = last /\ h1 = h /\ r1 = r) \/
  exists log' t full payload h2 r2, reach h0 log' h2 /\ log `prefix_of` log' /\ framed t full payload /\
    process_single_message sfuel t full payload h2 r2 = Some (Ok act, h1, r1).
Proof.
  intros Hb. induction fuel as [|fuel IH]; intros sfuel pos log last act h h1 r r1 Hr Hx; simpl in Hx; [by hm|].
  destruct (Z.leb_spec (pos + 4) (len data)); [|left; by hm]. hm.
  destruct (Z.ltb_spec (len data) (pos + 4 + x2)) as [|Hlen]; hm.
  match goal with H : read_u24 data _ = Ok _ |- _ => apply read_u24_nonneg in H as Hn; [|done] end.
  match goal with Hi : idx data pos = Ok _, Hf : slice data pos _ = Ok _, Hp : slice data (pos + 4) _ = Ok _ |- _ =>
    pose proof (slice_framed _ _ _ _ _ _ Hi Hn Hlen Hf Hp) as Hfr end.
  match goal with Hm : process_single_message _ _ _ _ _ _ = _ |- _ => rename Hm into Hmsg end.
  pose proof (reach_message h0 _ _ _ _ _ _ _ _ _ _ Hr Hfr Hmsg) as Hr1.
  destruct (IH _ _ _ _ _ _ _ _ _ Hr1 Hx) as [(-> & -> & ->)|(log' & t & f & p & h2 & r2 & G1 & G2 & G3 & G4)]; right.
  - do 6 eexists. split_and!; [exact Hr|done|exact Hfr|exact Hmsg].
  - exists log', t, f, p, h2, r2. split_and!; try done. etrans; [|exact G2]. by eexists.
Qed.

(** A record that completes the handshake ends in a Finished. *)
Lemma record_completes h0 sfuel data log hc (h h1 : Hs) (r r1 : R) : is_bytes data ->
  reach h0 log h -> process_handshake_record sfuel data h r = Some (Ok (Complete hc), h1, r1) ->
  exists log' full payload h2 r2, reach h0 log' h2 /\ log `prefix_of` log' /\
    framed handshake_type.FINISHED full payload /\ hs_state h2 = WaitFinished /\
    process_finished full payload h2 r2 = Some (Ok (Complete hc), h1, r1).
Proof.
  intros Hb Hr Hx. destruct (record_loop_reach h0 _ Hb _ _ _ _ _ _ _ _ _ _ Hr Hx) as [[? _]|(log' & t & full & payload & h2 & r2 & H1 & H2 & H3 & H4)]; [done|].
  pose proof (reach_inv _ _ _ H1) as Hi. exists log', full, payload, h2, r2.
  destruct (inv_message _ _ _ _ _ _ _ _ _ _ Hi H3 H4) as [_ Hc].
  by destruct (Hc hc eq_refl) as (-> & ? & ?).
Qed.

(** ** What completion establishes *)

(** A record that is accepted takes the handshake further. *)
Lemma record_reach h0 sfuel data log act (h h1 : Hs) (r r1 : R) : is_bytes data ->
  reach h0 log h -> process_handshake_record sfuel data h r = Some (Ok act, h1, r1) ->
  exists log', reach h0 log' h1 /\ log `prefix_of` log' /\ forall ch2, act = RetryClientHello ch2 -> last log' = Some ch2.
Proof.
  intros Hb Hr Hx. destruct (record_loop_reach h0 _ Hb _ _ _ _ _ _ _ _ _ _ Hr Hx)
    as [(-> & -> & ->)|(log' & t & full & payload & h2 & r2 & H1 & H2 & H3 & H4)].
  - exists log. by split_and!.
  - exists (log' ++ full :: sent act). split_and!; [by eapply (reach_message h0)|by apply prefix_app_r|].
    intros ch2 ->. by rewrite (app_assoc _ [full] [ch2]), last_snoc.
Qed.

(** Everything a completed handshake [hc] from [h0] on establishes: the messages
    [log] before the server's Finished are authentic and the secrets reported are
    those of the key schedule. *)
Record established (h0 : Hs) (alg : HkdfAlgorithm) (aead : AeadAlgorithm) (hrr : bool) (pre : list bytes) (sh : bytes)
    (post : list bytes) (psk : option bytes) (full : bytes) (hc : HandshakeComplete) : Prop := mkEstablished {
  est_hellos : hellos hrr pre;
  est_secrets : exists ecdhe hsec chs shs payload vd, key_exchange sh ecdhe /\
    rfc_handshake_secret alg psk ecdhe = Ok hsec /\
    prk_derive_secret hsec "c hs traffic" (transcript_hash alg hrr (pre ++ [sh])) = Ok chs /\
    prk_derive_secret hsec "s hs traffic" (transcript_hash alg hrr (pre ++ [sh])) = Ok shs /\
    framed handshake_type.FINISHED full payload /\
    compute_finished_verify_data alg shs (transcript_hash alg hrr (pre ++ sh :: post)) = Ok payload /\
    compute_finished_verify_data alg chs
      (transcript_hash alg hrr ((pre ++ sh :: post) ++ full :: before_finished hc)) = Ok vd /\
    hc_client_finished hc = build_finished vd /\
    schedule alg aead hrr (pre ++ sh :: post) full psk ecdhe hc;
  est_authentic :
    (exists t, hs_psk_ticket h0 = Some t /\ psk = Some (resumption_psk t)) \/
    hs_verification_policy h0 = Insecure \/
    certified (R := R) alg hrr (hs_hostname h0) (hs_custom_ca_anchors h0) (pre ++ sh :: post);
}.

Lemma record_established h0 log sfuel data hc (h h1 : Hs) (r r1 : R) :
  reach h0 log h -> is_bytes data ->
  process_handshake_record sfuel data h r = Some (Ok (Complete hc), h1, r1) ->
  exists alg aead hrr pre sh post psk full, log `prefix_of` pre ++ sh :: post /\
    established h0 alg aead hrr pre sh post psk full hc /\
    reach h0 ((pre ++ sh :: post) ++ full :: sent (Complete hc)) h1.
Proof.
  intros Hr Hb Hx. destruct (record_completes _ _ _ _ _ _ _ _ _ Hb Hr Hx) as (log' & full & payload & h2 & r2 & Hr2 & Hp & Hfr & Hst & Hf).
  pose proof (reach_inv _ _ _ Hr2) as [_ Hi]. simpl in Hi. rewrite Hst in Hi. destruct Hi as [Hk Hauth].
  pose proof (reach_config _ _ _ Hr2) as Hcfg. unfold config in Hcfg. injection Hcfg as _ Hho Hpo Han Hti _.
  destruct (finished_ok _ _ _ _ _ _ _ _ Hk Hf) as (alg & aead & pre & sh & post & ecdhe & hsec & chs & shs & hc' & vd &
    Heq & _ & -> & Hhel & Hpt & Hkx & Hhs & Hchs & Hshs & Ha & Hv & Hvd & Hfin & Hsch). injection Heq as <-.
  exists alg, aead, (hs_hrr_received h2), pre, sh, post, (psk_of (core h2)), full. split_and!; [done| |].
  - split; [done|by exists ecdhe, hsec, chs, shs, payload, vd|].
    rewrite <- Hho, <- Hpo, <- Han, <- Hti.
    destruct Hauth as [Hpsk|[Hpol|(alg' & Ha' & Hc)]]; [left|by right; left|right; right].
    + unfold psk_of in *. simpl in *. rewrite Hpsk in *. destruct (hs_psk_ticket h2) as [t|].
      * by exists t.
      * by destruct (Hpt eq_refl).
    + rewrite Ha in Ha'. by simplify_eq.
  - eapply (reach_message h0 _ _ sfuel _ _ _ _ _ r2 r1 Hr2 Hfr).
    unfold process_single_message. unfold mbind, sm_bind; simpl. by rewrite Hst.
Qed.

(** C5. The server of a handshake that completes is authenticated: its Finished
    is the HMAC, under the handshake secret of a key exchange with the ServerHello,
    of exactly the messages exchanged so far, and unless the client resumed a
    session with the PSK of its ticket or was told not to verify, the two messages
    before it are a certificate chain that is valid for the host and a signature of
    those messages by the key of its leaf. *)
Theorem completion_authenticated h0 log sfuel data hc (h h1 : Hs) (r r1 : R) :
  reach h0 log h -> is_bytes data ->
  process_handshake_record sfuel data h r = Some (Ok (Complete hc), h1, r1) ->
  exists alg hrr pre sh post ecdhe psk hsec shs full payload,
    log `prefix_of` pre ++ sh :: post /\ hellos hrr pre /\ key_exchange sh ecdhe /\
    rfc_handshake_secret alg psk ecdhe = Ok hsec /\
    prk_derive_secret hsec "s hs traffic" (transcript_hash alg hrr (pre ++ [sh])) = Ok shs /\
    framed handshake_type.FINISHED full payload /\
    compute_finished_verify_data alg shs (transcript_hash alg hrr (pre ++ sh :: post)) = Ok payload /\
    ((exists t, hs_psk_ticket h0 = Some t /\ psk = Some (resumption_psk t)) \/
     hs_verification_policy h0 = Insecure \/
     certified alg hrr (hs_hostname h0) (hs_custom_ca_anchors h0) (pre ++ sh :: post)).
Proof.
  intros Hr Hb Hx. destruct (record_established _ _ _ _ _ _ _ _ _ Hr Hb Hx)
    as (alg & aead & hrr & pre & sh & post & psk & full & Hp & [Hhel Hs Ha] & _).
  destruct Hs as (ecdhe & hsec & chs & shs & payload & vd & ? & ? & ? & ? & ? & ? & _).
  by exists alg, hrr, pre, sh, post, ecdhe, psk, hsec, shs, full, payload.
Qed.

(** C9. The secrets a completed handshake reports are those of the key schedule
    of RFC 8446 (section 7.1): the application traffic secrets and the exporter
    secret cover the messages up to the server's Finished, the resumption secret
    those up to the client's, keys and nonces are expanded from the traffic
    secrets, and the client's Finished is the HMAC of everything before it. *)
Theorem completion_key_schedule h0 log sfuel data hc (h h1 : Hs) (r r1 : R) :
  reach h0 log h -> is_bytes data ->
  process_handshake_record sfuel data h r = Some (Ok (Complete hc), h1, r1) ->
  exists alg aead hrr pre sh post ecdhe psk hsec chs full payload vd,
    log `prefix_of` pre ++ sh :: post /\ hellos hrr pre /\ key_exchange sh ecdhe /\
    framed handshake_type.FINISHED full payload /\
    rfc_handshake_secret alg psk ecdhe = Ok hsec /\
    prk_derive_secret hsec "c hs traffic" (transcript_hash alg hrr (pre ++ [sh])) = Ok chs /\
    compute_finished_verify_data alg chs
      (transcript_hash alg hrr ((pre ++ sh :: post) ++ full :: before_finished hc)) = Ok vd /\
    hc_client_finished hc = build_finished vd /\
    schedule alg aead hrr (pre ++ sh :: post) full psk ecdhe hc /\
    reach h0 ((pre ++ sh :: post) ++ full :: sent (Complete hc)) h1.
Proof.
  intros Hr Hb Hx. destruct (record_established _ _ _ _ _ _ _ _ _ Hr Hb Hx)
    as (alg & aead & hrr & pre & sh & post & psk & full & Hp & [Hhel Hs Ha] & Hr1).
  destruct Hs as (ecdhe & hsec & chs & shs & payload & vd & ? & ? & ? & ? & ? & ? & ? & ? & ?).
  by exists alg, aead, hrr, pre, sh, post, ecdhe, psk, hsec, chs, full, payload, vd.
Qed.
End props.
End tls13_runs.
