(* ===== verification/Tls13Safety.v ===== *)
(** * No message of the server panics the TLS 1.3 client

    Once the handshake keys are installed, whatever bytes the server's records
    carry, processing them ends in an action or an error: no index, slice or
    [unwrap] of the handlers fails. *)
From S2P Require Import Prelude TlsError StateM TlsCipher TlsProfile TlsExtensions QuicParams TlsKx ClientHello ServerHello TlsHkdf CertChain CertChainProps SessionStore Hpack Synthesis Tls13 Tls13Props Tls13Runs.
Import error statem types extensions kx client_hello server_hello hkdf certchain certchain_props session_store quic_transport_params tls13 tls13_props tls13_runs.

(** The decoders produce bytes. *)
Class DecompressLaws (DC : Decompress) : Prop := {
  zlib_bytes z d : zlib_decode z = inr d -> is_bytes d;
  brotli_bytes z d : brotli_decode z = inr d -> is_bytes d;
}.

Module tls13_safety.

(** ** Reading certificates *)

Lemma read_u24_wp (l : bytes) pos : is_bytes l -> 0 <= pos -> pos + 3 <= len l ->
  outcome_ok (fun n => 0 <= n) (read_u24 (E := TlsError) l pos).
Proof.
  intros Hl H0 H1. destruct (read_u24 (E := TlsError) l pos) as [n|e|] eqn:Hr; simpl; [|done|].
  - by eapply read_u24_nonneg.
  - unfold read_u24 in Hr.
    destruct (idx_ok (E := TlsError) l pos) as (a & Ea & _); [lia|].
    destruct (idx_ok (E := TlsError) l (pos + 1)) as (b & Eb & _); [lia|].
    destruct (idx_ok (E := TlsError) l (pos + 2)) as (c & Ec & _); [lia|].
    by rewrite Ea, Eb, Ec in Hr.
Qed.

Lemma cert_loop_wp payload list_end : is_bytes payload -> list_end <= len payload ->
  forall fuel pos certs, 0 <= pos -> (0 < fuel)%nat -> list_end - pos < Z.of_nat fuel -> Forall is_bytes certs ->
  outcome_ok (Forall is_bytes) (cert_loop fuel payload list_end pos certs).
Proof.
  intros Hp He. induction fuel as [|fuel IH]; intros pos certs H0 Hf0 Hf Hc; [lia|]. simpl.
  destruct (Z.leb_spec (pos + 3) list_end); [|done].
  eapply outcome_ok_bind; [apply read_u24_wp; (done || lia)|]. intros n Hn; cbv beta in Hn.
  destruct (Z.ltb_spec list_end (pos + 3 + n)); [done|].
  eapply outcome_ok_bind; [apply slice_wp; (done || lia)|]. intros c [Hcb _].
  assert (Forall is_bytes (certs ++ [c])) as Hc' by (by apply Forall_app_2; [|constructor]).
  destruct (Z.ltb_spec list_end (pos + 3 + n + 2)); [done|].
  eapply outcome_ok_bind; [apply read_u16_wp; (done || lia)|]. intros e He'. unfold u16 in He'.
  apply IH; (done || lia).
Qed.

Lemma parse_certificate_message_wp payload : is_bytes payload ->
  outcome_ok (Forall is_bytes) (parse_certificate_message payload).
Proof.
  intros Hp. unfold parse_certificate_message. destruct (Z.leb_spec (len payload) 0); [done|].
  eapply outcome_ok_bind; [apply (idx_wp u8); (done || lia)|]. intros n Hn.
  destruct (Z.eqb_spec n 0); [|done]. subst n. cbn [negb]. cbv zeta. change (1 + 0) with 1. change (1 + 3) with 4.
  destruct (Z.ltb_spec (len payload) 4); [done|].
  eapply outcome_ok_bind; [apply read_u24_wp; (done || lia)|]. intros l Hl; cbv beta in Hl.
  destruct (Z.ltb_spec (len payload) (4 + l)); [done|].
  apply cert_loop_wp; unfold len in *; (done || lia).
Qed.

Section safety.
Context {R K D P O E T N : Type}.
Context {SR : SystemRandom R} {AG : Agreement R K D} {CK : Clock R} {H : Hkdf P O} {C : Crypto}.
Context {SG : Signatures} {W : Webpki E T N} {DC : Decompress}.
Context {HL : HkdfLaws P O H} {CL : CryptoLaws C} {DL : DecompressLaws DC}.

Abbreviation Hs := (Tls13Handshake (K := K) (D := D) (P := P) (T := T)).
Abbreviation HM := (SM Hs R).

Lemma decompress_wp alg z n : outcome_ok is_bytes (decompress_certificate alg z n).
Proof.
  unfold decompress_certificate. repeat (case_match; try done); simpl; eauto using zlib_bytes, brotli_bytes.
Qed.

Lemma is_bytes_slice (l s : bytes) a b : is_bytes l -> slice (E := TlsError) l a b = Ok s -> is_bytes s.
Proof.
  intros Hl Hs. unfold slice in Hs. case_decide; simplify_eq. by apply Forall_take, Forall_drop.
Qed.

Lemma carries_certs_bytes m certs : is_bytes m -> carries_certs m certs -> Forall is_bytes certs.
Proof.
  intros Hm Hc. destruct m as [|t [|a [|b [|c body]]]]; try done. do 4 apply Forall_cons in Hm as [_ Hm].
  destruct Hc as [[_ Hc]|(_ & alg & n & k & z & d & _ & _ & _ & _ & Hd & Hc)].
  - pose proof (parse_certificate_message_wp _ Hm) as Hw. by rewrite Hc in Hw.
  - pose proof (decompress_wp alg z n) as Hz. rewrite Hd in Hz.
    pose proof (parse_certificate_message_wp _ Hz) as Hw. by rewrite Hc in Hw.
Qed.
Abbreviation runs := (runs (Hs := Hs) (R := R)).

Lemma update_transcript_runs m h : runs (update_transcript m)
  (fun _ h1 => h1 = set_transcript ((fun t => th_update t m) <$> hs_transcript h) h) h.
Proof. by intros r. Qed.

(** *** EncryptedExtensions *)

Lemma ee_extension_runs t d h : is_bytes d -> runs (ee_extension t d) any h.
Proof.
  intros Hd. unfold ee_extension.
  assert (forall f (b : bool), runs (_ ← modify f; mret b) any h) as Hm by (by intros f b r).
  repeat (case_match; try apply Hm; try by intros r).
  - turn; [apply decode_loop_total; lia|]. by intros r.
  - turn; [apply (idx_wp u8); (done || zbool; lia)|]. unfold u8 in *.
    destruct (Z.leb_spec (3 + a) (len d)); [|by intros r].
    turn; [apply slice_wp; (done || lia)|]. by intros r.
Qed.

Lemma ee_loop_runs payload ext_end : is_bytes payload -> ext_end <= len payload -> forall fuel pos saw h,
  0 <= pos -> (0 < fuel)%nat -> ext_end - pos < Z.of_nat fuel -> runs (ee_loop fuel payload ext_end pos saw) any h.
Proof.
  intros Hp He. induction fuel as [|fuel IH]; intros pos saw h H0 Hf0 Hf; [lia|]. simpl.
  destruct (Z.leb_spec (pos + 4) ext_end); [|by intros r].
  turn; [apply read_u16_wp; (done || lia)|]. turn; [apply read_u16_wp; (done || lia)|]. unfold u16 in *.
  destruct (Z.ltb_spec ext_end (pos + 4 + a0)); [by intros r|].
  turn; [apply slice_wp; (done || lia)|]. turn; [by apply ee_extension_runs|]. apply IH; lia.
Qed.

Lemma encrypted_extensions_runs full payload h : is_bytes payload ->
  runs (process_encrypted_extensions full payload) any h.
Proof.
  intros Hp. unfold process_encrypted_extensions. turn; [apply update_transcript_runs|].
  turn; zbool. turn; [apply read_u16_wp; (done || lia)|]. unfold u16 in *. turn; zbool.
  turn; [apply ee_loop_runs; unfold len in *; (done || lia)|]. turn. turn. turn. by intros r.
Qed.

(** *** Certificates *)

Lemma certificate_request_runs full payload h : is_bytes payload ->
  runs (process_certificate_request full payload) any h.
Proof.
  intros Hp. unfold process_certificate_request. turn.
  - instantiate (1 := fun _ => True). unfold parse_certificate_request_context. destruct payload as [|n l]; [done|].
    apply Forall_cons in Hp as Hn. destruct Hn as [Hn _]. unfold u8 in Hn.
    destruct (Z.ltb_spec (len (n :: l)) (1 + n)); [done|].
    eapply outcome_ok_weaken; [apply slice_wp; (done || lia)|done].
  - turn. turn; [apply update_transcript_runs|]. by intros r.
Qed.

Lemma install_runs m h : is_bytes m -> runs (install_certificates m) any h.
Proof.
  intros Hm. unfold install_certificates. turn; [by apply parse_certificate_message_wp|].
  turn. turn. turn. by intros r.
Qed.

Lemma compressed_certificate_runs full payload h : is_bytes payload ->
  runs (process_compressed_certificate full payload) any h.
Proof.
  intros Hp. unfold process_compressed_certificate. turn; [apply update_transcript_runs|]. turn; zbool.
  turn; [apply read_u16_wp; (done || lia)|]. turn; [apply read_u24_wp; (done || lia)|]. turn; zbool.
  turn; [apply read_u24_wp; (done || lia)|]. turn; zbool. turn; [apply slice_wp; (done || lia)|].
  turn; [apply decompress_wp|]. by apply install_runs.
Qed.

Lemma certificate_verify_runs full payload h : is_bytes payload ->
  Forall is_bytes (hs_server_certificates h) -> hs_server_certificates h <> [] ->
  runs (process_certificate_verify full payload) any h.
Proof.
  intros Hp Hc Hne. unfold process_certificate_verify. turn. turn. turn; [apply update_transcript_runs|].
  destruct (is_insecure _) eqn:Hpol; [by intros r|]. turn; zbool.
  turn; [apply read_u16_wp; (done || lia)|]. turn; [apply read_u16_wp; (done || lia)|]. unfold u16 in *.
  turn; zbool. turn; [apply slice_wp; (done || lia)|].
  destruct (hs_server_certificates h) as [|leaf rest] eqn:Hcs; [done|]. apply Forall_cons in Hc as [Hl _].
  turn; [done|]. simplify_eq/=. turn.
  { instantiate (1 := fun _ => True). unfold policy_verify_certificate_verify.
    destruct (hs_verification_policy h); [by apply verify_certificate_verify_wp|done]. }
  turn. turn.
  { instantiate (1 := fun _ => True). unfold policy_verify_certificate_chain, verify_certificate_chain.
    repeat (case_match; try done). }
  by intros r.
Qed.

(** *** Finished *)

Lemma derive_next_wp s ikm : outcome_ok (fun _ => True) (derive_next (P := P) s ikm).
Proof. by destruct (derive_next_ok s ikm) as (s' & -> & _). Qed.

Lemma prk_derive_secret_wp (s : HkdfPrk P) label th :
  outcome_ok (fun k => len k <= 64) (prk_derive_secret s label th).
Proof.
  unfold prk_derive_secret, expand_label, expand_info.
  destruct (prk_expand _ _ _); [|done]. destruct (okm_fill _ _) eqn:Ho; [|done]. simpl.
  pose proof (hash_len_range (prk_algorithm s)). apply fill_shape in Ho as [-> _]; lia.
Qed.

Lemma hkdf_expand_label_wp alg k label c n : len k <= 64 ->
  outcome_ok (fun _ => True) (hkdf_expand_label alg k label c n).
Proof.
  intros Hk. unfold hkdf_expand_label, expand_info. destruct (prk_total alg k Hk) as [p ->].
  destruct (prk_expand _ _ _); [|done]. by destruct (okm_fill _ _).
Qed.

Lemma finished_verify_data_wp alg k th : len k <= 64 ->
  outcome_ok (fun _ => True) (compute_finished_verify_data alg k th).
Proof.
  intros Hk. unfold compute_finished_verify_data. eapply outcome_ok_bind; [by apply hkdf_expand_label_wp|]. done.
Qed.

Lemma update_some_runs m h : is_Some (hs_transcript h) -> runs (update_transcript m)
  (fun _ h1 => is_Some (hs_transcript h1) /\ hs_client_hs_traffic_secret h1 = hs_client_hs_traffic_secret h) h.
Proof. intros [t Ht] r. simpl. rewrite Ht. by split. Qed.
Lemma update_option_runs o h : is_Some (hs_transcript h) ->
  runs (from_option update_transcript (mret tt) o) (fun _ h1 => is_Some (hs_transcript h1)) h.
Proof.
  intros Ht. destruct o; simpl; [|by intros r]. eapply runs_weaken; [by apply update_some_runs|]. by intros ? ? [? _].
Qed.
Lemma log_some_runs l s h : is_Some (hs_transcript h) ->
  runs (log_secret l s) (fun _ h1 => is_Some (hs_transcript h1)) h.
Proof. intros Ht r. simpl. by repeat case_match. Qed.

Lemma finished_runs full payload h : is_Some (hs_hkdf_algorithm h) -> is_Some (hs_aead_algorithm h) ->
  is_Some (hs_transcript h) ->
  (forall k, hs_server_hs_traffic_secret h = Some k -> len k <= 64) ->
  (forall k, hs_client_hs_traffic_secret h = Some k -> len k <= 64) ->
  runs (process_finished full payload) any h.
Proof.
  intros Ha Hae Ht Hs Hc. unfold process_finished. turn. turn; [done|]. turn; [done|]. turn. turn.
  turn; [by apply finished_verify_data_wp, Hs|]. turn. turn; [by apply update_some_runs|].
  turn. turn. turn; [apply derive_next_wp|]. turn. turn; [done|].
  turn; [apply prk_derive_secret_wp|]. turn; [apply prk_derive_secret_wp|]. turn; [apply prk_derive_secret_wp|].
  turn; [by apply log_some_runs|]. turn; [by apply log_some_runs|].
  do 4 (turn; [by apply hkdf_expand_label_wp|]).
  turn; [by apply update_option_runs|]. turn; [by apply update_option_runs|]. turn. turn. turn; [done|].
  turn; [apply finished_verify_data_wp, Hc; simpl in *; congruence|].
  turn; [by apply update_some_runs|]. turn. turn; [done|]. turn; [apply prk_derive_secret_wp|]. turn. by intros r.
Qed.

Lemma keyed_finished_runs log full payload h : keyed log (core h) -> runs (process_finished full payload) any h.
Proof.
  intros (alg & aead & pre & sh & post & ecdhe & hsec & chs & shs & _ & _ & _ & Ha & Hae & Ht & _ & Hc & Hs & _ & _ & Hdc & Hds).
  cbn [core c_hkdf c_aead c_transcript c_chs c_shs] in *.
  apply finished_runs; [by rewrite Ha|by rewrite Hae|by rewrite Ht| |].
  - intros k Hk. rewrite Hs in Hk. simplify_eq.
    match type of Hds with prk_derive_secret ?s ?l ?t = _ => pose proof (prk_derive_secret_wp s l t) as Hw end.
    by rewrite Hds in Hw.
  - intros k Hk. rewrite Hc in Hk. simplify_eq.
    match type of Hdc with prk_derive_secret ?s ?l ?t = _ => pose proof (prk_derive_secret_wp s l t) as Hw end.
    by rewrite Hdc in Hw.
Qed.

Lemma message_runs log fuel t full payload h : inv log (core h) -> Forall is_bytes log ->
  hs_state h <> WaitServerHello -> is_bytes payload -> runs (process_single_message fuel t full payload) any h.
Proof.
  intros [_ Hi] Hlog Hst Hp. simpl in Hi. unfold process_single_message. turn.
  destruct (hs_state h) eqn:Hs; try done; repeat case_match; try apply runs_fail.
  - by apply encrypted_extensions_runs.
  - by apply certificate_request_runs.
  - unfold process_certificate. turn; [apply update_transcript_runs|]. by apply install_runs.
  - by apply compressed_certificate_runs.
  - destruct Hi as (_ & _ & pre & cm & -> & _ & Hcar & Hne). apply Forall_app in Hlog as [_ Hcm].
    apply Forall_cons in Hcm as [Hcm _]. apply certificate_verify_runs; [done| |done]. exact (carries_certs_bytes cm _ Hcm Hcar).
  - destruct Hi as [Hk _]. by eapply keyed_finished_runs.
Qed.

(** A message that is not a ServerHello leads to no message of the client but
    the last ones, and to no state that waits for a ServerHello. *)
Lemma message_next log fuel t full payload act (h h1 : Hs) (r r1 : R) : inv log (core h) ->
  hs_state h <> WaitServerHello ->
  process_single_message fuel t full payload h r = Some (Ok act, h1, r1) ->
  hs_state h1 = Connected \/ (sent act = [] /\ hs_state h1 <> WaitServerHello).
Proof.
  intros [_ Hi] Hst Hx. simpl in Hi. unfold process_single_message in Hx. hm.
  destruct (hs_state h) eqn:Hs; try done; repeat case_match; hm; try (right; by rewrite ?Hs).
  - unfold process_encrypted_extensions in Hx. hm. right. split; [done|]. simpl. by case_match.
  - unfold process_certificate_request in Hx. hm. right. split; [done|]. simpl.
    match goal with Hu : update_transcript _ _ _ = _ |- _ => apply update_transcript_ok in Hu as [-> _] end. simpl. by rewrite Hs.
  - unfold process_certificate, install_certificates in Hx. hm. by right.
  - unfold process_compressed_certificate, install_certificates in Hx. hm. by right.
  - unfold process_certificate_verify in Hx. hm. case_match; hm; by right.
  - left. destruct Hi as [Hk _]. pose proof (finished_ok _ _ _ _ _ _ _ _ Hk Hx) as (? & ? & ? & ? & ? & ? & ? & ? & ? & ? & ? & _ & Hst1 & _).
    done.
Qed.

(** Between the messages of a record. *)
Definition between (h : Hs) : Prop :=
  hs_state h = Connected \/
  exists log, inv log (core h) /\ Forall is_bytes log /\ hs_state h <> WaitServerHello.

Lemma between_message fuel t full payload h : between h -> framed t full payload -> is_bytes full ->
  is_bytes payload -> runs (process_single_message fuel t full payload) (fun _ => between) h.
Proof.
  intros [Hc|(log & Hi & Hl & Hs)] Hfr Hfull Hp.
  - intros r. unfold process_single_message, mbind, sm_bind; simpl. by rewrite Hc.
  - apply runs_post; [by eapply message_runs|]. intros r act h1 r1 Hx.
    destruct (message_next _ _ _ _ _ _ _ _ _ _ Hi Hs Hx) as [?|[Hsent ?]]; [by left|right].
    apply (inv_message log) in Hx as [Hi1 _]; [|done..]. rewrite Hsent in Hi1. eexists. split_and!; [exact Hi1| |done].
    by apply Forall_app_2; [|constructor].
Qed.

Lemma record_loop_runs sfuel data : is_bytes data -> forall fuel pos last h, between h ->
  0 <= pos -> (0 < fuel)%nat -> len data - pos < Z.of_nat fuel -> runs (record_loop fuel sfuel data pos last) any h.
Proof.
  intros Hb. induction fuel as [|fuel IH]; intros pos last h Hh H0 Hf0 Hf; [lia|]. simpl.
  destruct (Z.leb_spec (pos + 4) (len data)); [|by intros r].
  destruct (idx_ok (E := TlsError) data pos) as (t & Ht & _); [lia|]. rewrite Ht.
  turn; [by instantiate (1 := fun a => a = t)|]. turn; [apply read_u24_wp; (done || lia)|]. cbv beta in *. subst.
  destruct (Z.ltb_spec (len data) (pos + 4 + a0)); [apply runs_fail|].
  rewrite !slice_ok by lia. turn; [by instantiate (1 := fun a => a = _)|].
  turn; [by instantiate (1 := fun a => a = _)|]. cbv beta in *. subst.
  eapply runs_bind; [apply between_message; [done| |auto with width_db..]|].
  - eapply (slice_framed data); [exact Ht| | |by apply slice_ok; lia|by apply slice_ok; lia]; lia.
  - intros act h1 Hh1. apply IH; (done || lia).
Qed.

(** C27. Once the keys are installed, no record panics the handshake: on any bytes,
    [process_handshake_record] returns an action or an error. *)
Theorem handshake_record_never_panics h0 log (h : Hs) sfuel data (r : R) :
  reach (O := O) (E := E) (N := N) h0 log h -> Forall is_bytes log -> hs_state h <> WaitServerHello -> is_bytes data ->
  exists o h1 r1, process_handshake_record sfuel data h r = Some (o, h1, r1) /\ o <> Panic.
Proof.
  intros Hr Hlog Hst Hb. apply reach_inv in Hr.
  assert (runs (process_handshake_record sfuel data) any h) as Hx.
  { apply record_loop_runs; [done|right; by exists log|lia|lia|unfold len; lia]. }
  specialize (Hx r). destruct (process_handshake_record _ _ _ _) as [[[[a|e|] h1] r1]|]; [by do 3 eexists..|done|done].
Qed.
End safety.
End tls13_safety.
