(* ===== verification/Tls12Props.v ===== *)
(** * What a completed TLS 1.2 handshake guarantees

    The states of [Tls12] keep the transcript of the messages exchanged; the
    server's Finished is accepted only over a master secret that is either the
    one of the session ticket or comes from a key exchange authenticated by a
    certificate that is valid for the host. *)
From S2P Require Import Prelude TlsError StateM TlsCipher TlsRecord TlsKx ServerHello TlsHkdf CertChain SessionStore Hpack Tls12Prf Tls13 Tls13Props Tls13Runs Tls13Safety Tls12.
Import error statem tls12_cipher record kx server_hello hkdf certchain session_store prf tls12.

Module tls12_props.

Section props.
Context {R K D P O E T N PK EK : Type}.
Context {SR : SystemRandom R} {AG : Agreement R K D} {CK : Clock R} {H : Hkdf P O} {C : Crypto}.
Context {SG : Signatures} {W : Webpki E T N} {RS : RsaCrate R PK EK}.

Abbreviation Hs := (Tls12Handshake (K := K) (D := D) (T := T)).
Abbreviation M := (SM Hs R).

(** ** Specification *)

(** The Certificate message [m] of TLS 1.2 carries [certs]. *)
Definition carries12 (m : bytes) (certs : list bytes) : Prop :=
  exists n, (tls13.read_u24 (drop 4 m) 0 : Outcome TlsError Z) = Ok n /\
    cert12_loop (S (length (drop 4 m))) (drop 4 m) (3 + n) 3 [] = Ok certs.

(** The certificates are valid for the host, unless verification is off. *)
Definition chain12 (h : Hs) (certs : list bytes) : Prop :=
  h_verification_policy h = Insecure \/
  exists rt : R, verify_certificate_chain certs (h_hostname h) (fst (system_now rt)) (h_custom_ca_anchors h) = Ok tt.

(** The parameters of the ServerKeyExchange, signed by the key of the leaf over
    both randoms. *)
Definition signed12 (h : Hs) (leaf : bytes) (p : ServerKxParams) : Prop :=
  (exists hi lo, kx_signed_params p = 3 :: hi :: lo :: len (kx_public_key p) :: kx_public_key p /\
     kx_curve p = from_be16 hi lo) /\
  (h_verification_policy h = Insecure \/
   verify_server_key_exchange_signature leaf (kx_signature_algorithm p)
     (h_client_random h ++ h_server_random h ++ kx_signed_params p) (kx_signature p) = Ok tt).

(** The pre-master secret and the ClientKeyExchange that conveys it: an
    agreement with the signed key of the server, or a secret encrypted to the key
    of its certificate. *)
Definition exchange12 (h : Hs) (suite : Tls12CipherSuite) (leaf pms cke : bytes) : Prop :=
  match key_exchange suite with
  | Ecdhe => exists p (kp : EphemeralKeyPair K D), signed12 h leaf p /\
      group_code_point (kp_group kp) = kx_curve p /\
      compute_shared_secret kp (kx_public_key p) = Ok pms /\
      cke = build_handshake_message 0x10 ([as_u8 (len (kp_public_key kp))] ++ kp_public_key kp)
  | Rsa => exists (rnd : bytes) spki (pk : PK) (ek : EK) ct (r r' : R), pms = [3; 3] ++ rnd /\
      extract_spki_from_cert leaf = Ok spki /\ rsa_from_der spki = Some pk /\ pkcs1_new pk = Some ek /\
      pkcs1_encrypt ek pms r = (Some ct, r') /\
      cke = build_handshake_message 0x10 ([as_u8 (len ct ≫ 8); as_u8 (len ct)] ++ ct)
  end.

(** The master secret of the pre-master secret (RFC 5246, section 8.1, or RFC
    7627 when extended): [log] are the messages up to the ClientKeyExchange. *)
Definition master12 (h : Hs) (log : list bytes) (pms ms : bytes) : Prop :=
  if h_use_extended_master_secret h
  then compute_extended_master_secret (h_prf_algorithm h) pms (prf_digest (h_prf_algorithm h) (concat log)) = Ok ms
  else compute_master_secret (h_prf_algorithm h) pms (h_client_random h) (h_server_random h) = Ok ms.

(** The master secret comes from an authenticated key exchange. *)
Definition keyed12 (h : Hs) (log : list bytes) (ms : bytes) : Prop :=
  exists pre rest suite cm leaf certs pms cke, log = pre ++ cke :: rest /\
    h_cipher_suite h = Some suite /\ cm ∈ pre /\ carries12 cm (leaf :: certs) /\ chain12 h (leaf :: certs) /\
    exchange12 h suite leaf pms cke /\ master12 h (pre ++ [cke]) pms ms.

(** ** Invariant *)

(** The ServerHello was processed: suite, hash and transcript agree. *)
Definition hashed (h : Hs) (log : list bytes) : Prop :=
  exists suite, h_cipher_suite h = Some suite /\ h_prf_algorithm h = prf_algorithm suite /\
    h_transcript h = Some (mkTh12 (concat log) (prf_algorithm suite)) /\ log <> [].

Definition certified12 (h : Hs) (log : list bytes) : Prop :=
  exists leaf rest cm, h_server_certificates h = leaf :: rest /\ cm ∈ log /\ carries12 cm (leaf :: rest) /\
    chain12 h (leaf :: rest).

Definition quiet (h : Hs) : Prop := h_abbreviated h = false /\ h_server_kx_params h = None.

Definition inv12 (h0 : Hs) (log : list bytes) (h : Hs) : Prop :=
  match h_state h with
  | WaitServerHello =>
      exists ch, log = [ch] /\ h_client_hello_bytes h = ch /\
        h_transcript h = Some (mkTh12 ch PrfSha256) /\ quiet h /\
        h_resumed_master_secret h = h_resumed_master_secret h0
  | WaitCertificateOrAbbreviated =>
      hashed h log /\ quiet h /\ h_resumed_master_secret h = h_resumed_master_secret h0
  | WaitCertificate => hashed h log /\ quiet h
  | WaitServerKeyExchange => hashed h log /\ quiet h /\ certified12 h log
  | WaitServerHelloDone =>
      hashed h log /\ h_abbreviated h = false /\ certified12 h log /\
      (forall p, h_server_kx_params h = Some p ->
         exists leaf rest, h_server_certificates h = leaf :: rest /\ signed12 h leaf p)
  | SendClientKeyExchange => False
  | WaitServerChangeCipherSpec =>
      hashed h log /\ h_abbreviated h = false /\ exists ms, h_master_secret h = Some ms /\ keyed12 h log ms
  | WaitServerFinished =>
      hashed h log /\ exists ms, h_master_secret h = Some ms /\
        if h_abbreviated h then h_resumed_master_secret h0 = Some ms else keyed12 h log ms
  | Connected => True
  end.

(** ** Preservation *)

Lemma hashed_feed m log h : hashed h log -> hashed (feed_handshake_message m h) (log ++ [m]).
Proof.
  intros (suite & H1 & H2 & H3 & Hn). exists suite. split_and!; [done|done| |by destruct log].
  simpl. rewrite H3. simpl. unfold th12_update; simpl. by rewrite concat_app, concat_cons, app_nil_r.
Qed.

(** The extensions of the ServerHello touch only the protocol and the flag of
    the extended master secret. *)
Definition sans_extensions (h : Hs) :=
  (h_state h, h_transcript h, h_client_hello_bytes h, h_client_random h, h_server_random h, h_cipher_suite h,
   h_prf_algorithm h, h_server_certificates h, h_server_kx_params h, h_master_secret h, h_hostname h,
   h_verification_policy h, h_custom_ca_anchors h, h_resumed_master_secret h, h_abbreviated h).
Lemma keeps_sh12_ext fuel : forall body e o, keeps (R := R) sans_extensions (sh12_ext_loop fuel body e o).
Proof. induction fuel; intros; simpl; keeps. Qed.

Lemma server_hello12 h0 log body full act (h h1 : Hs) (r r1 : R) :
  inv12 h0 log h -> h_state h = WaitServerHello ->
  process_server_hello body full h r = Some (Ok act, h1, r1) ->
  inv12 h0 (log ++ [full]) h1 /\ act = ContinueReading.
Proof.
  intros Hi Hst Hx. unfold inv12 in Hi. rewrite Hst in Hi. destruct Hi as (ch & -> & Hch & Ht & [Ha Hk] & Hres).
  unfold process_server_hello in Hx. hm.
  match goal with Hl : (if _ then _ else _) ?x _ = Some (_, ?y, _) |- _ =>
    assert (sans_extensions y = sans_extensions x) as Hf
      by (destruct (_ + 2 <=? len body); hm; [by eapply keeps_sh12_ext|done]); clear Hl end.
  unfold sans_extensions in Hf. simpl in Hf. injection Hf as ? ? ? ? ? ? ? ? ? ? ? ? ? ? ?.
  split; [|done]. unfold inv12.
  match goal with Hf : h_cipher_suite ?y = Some ?su |- context [put_state _ ?g] =>
    set (g' := g); assert (h_cipher_suite g' = Some su /\ h_prf_algorithm g' = prf_algorithm su /\
      h_transcript g' = Some (mkTh12 (concat ([h_client_hello_bytes h] ++ [full])) (prf_algorithm su)) /\
      quiet g' /\ h_resumed_master_secret g' = h_resumed_master_secret h0) as (G1 & G2 & G3 & [G4 G5] & G6) end.
  { unfold g'. case_bool_decide as Halg; simpl; split_and!; try (done || congruence).
    - match goal with Hf : h_transcript _ = h_transcript h |- _ => rewrite Hf, Ht end.
      simpl. unfold th12_update; simpl. rewrite Halg, app_nil_r. done.
    - split; simpl; congruence.
    - unfold th12_update, th12_new; simpl. rewrite app_nil_r.
      match goal with Hf : h_client_hello_bytes _ = h_client_hello_bytes h |- _ => by rewrite Hf end.
    - split; simpl; congruence. }
  clearbody g'. assert (hashed g' ([h_client_hello_bytes h] ++ [full])) as Hh by (eexists; by split_and!).
  unfold inv12; simpl h_state. by case_bool_decide.
Qed.

Lemma policy_chain (h : Hs) certs now r r' : system_now r = (now, r') ->
  policy_verify_certificate_chain (h_verification_policy h) certs (h_hostname h) now (h_custom_ca_anchors h) = Ok tt ->
  chain12 h certs.
Proof.
  intros Hn Hp. unfold chain12, policy_verify_certificate_chain in *.
  destruct (h_verification_policy h); [right|by left]. exists r. by rewrite Hn.
Qed.

Lemma certificate12 h0 log t body full act (h h1 : Hs) (r r1 : R) :
  hashed h log -> quiet h -> tls13_props.framed t full body ->
  process_certificate body full h r = Some (Ok act, h1, r1) ->
  inv12 h0 (log ++ [full]) h1 /\ act = ContinueReading.
Proof.
  intros Hh [Ha Hk] (a & b & c & ->) Hx. unfold process_certificate in Hx. hm.
  match goal with Hp : policy_verify_certificate_chain _ _ _ _ _ = Ok _ |- _ =>
    eapply policy_chain in Hp as Hch; [|eassumption] end.
  match goal with Hc : cert12_loop _ _ _ _ _ = Ok ?cs |- _ => rename cs into certs end.
  destruct certs as [|leaf rest]; [done|].
  pose proof (hashed_feed (t :: a :: b :: c :: body) _ _ Hh) as Hh1.
  set (g := feed_handshake_message _ _). assert (certified12 g (log ++ [t :: a :: b :: c :: body])) as Hc.
  { exists leaf, rest, (t :: a :: b :: c :: body). split_and!; [done|set_solver| |exact Hch]. by eexists. }
  split; [|done]. unfold inv12; simpl h_state.
  assert (hashed g (log ++ [t :: a :: b :: c :: body])) as Hg by exact Hh1.
  destruct (key_exchange _); split_and!; try done. intros p Hp. simpl in Hp. congruence.
Qed.

(** The signed parameters are laid out as read. *)
Lemma ske_layout (body pk sp : bytes) ct curve n :
  (idx body 0 : Outcome TlsError Z) = Ok ct -> ct = 3 -> (read_u16 body 1 : Outcome TlsError Z) = Ok curve ->
  (idx body 3 : Outcome TlsError Z) = Ok n -> 0 <= n ->
  (slice body 4 (4 + n) : Outcome TlsError bytes) = Ok pk -> (slice body 0 (4 + n) : Outcome TlsError bytes) = Ok sp ->
  exists hi lo, sp = 3 :: hi :: lo :: len pk :: pk /\ curve = from_be16 hi lo.
Proof.
  intros H0 -> H1 H3 Hn Hp Hs. unfold slice in *. repeat case_decide; simplify_eq.
  destruct body as [|b0 [|b1 [|b2 [|b3 l]]]]; try (unfold len in *; simpl in *; lia).
  assert (Z.to_nat n <= length l)%nat by (unfold len in *; cbn [length] in *; lia).
  unfold idx, read_u16 in *; simpl in *. simplify_eq. exists b1, b2. split; [|done].
  unfold len. rewrite length_take. cbn [drop].
  replace (Z.to_nat (4 + n - 0)) with (4 + Z.to_nat n)%nat by lia.
  replace (Z.to_nat (4 + n - 4)) with (Z.to_nat n) by lia. simpl.
  rewrite !drop_0, Nat.min_l by lia. by rewrite Z2Nat.id.
Qed.

Lemma server_key_exchange12 h0 log body full act (h h1 : Hs) (r r1 : R) :
  is_bytes body -> inv12 h0 log h -> h_state h = WaitServerKeyExchange ->
  process_server_key_exchange body full h r = Some (Ok act, h1, r1) ->
  inv12 h0 (log ++ [full]) h1 /\ act = ContinueReading.
Proof.
  intros Hb Hi Hst Hx. unfold inv12 in Hi. rewrite Hst in Hi.
  destruct Hi as (Hh & [Ha Hk] & leaf & rest & cm & Hcs & Hin & Hcar & Hch).
  unfold process_server_key_exchange in Hx. hm.
  match goal with Hs : match h_server_certificates h with _ => _ end _ _ = _ |- _ => rewrite Hcs in Hs end. hm.
  match goal with He : (_ =? 3) = true |- _ => apply Z.eqb_eq in He; rename He into Hct end.
  match goal with
    Hi3 : idx body 3 = Ok ?n, Hi0 : idx body 0 = Ok _, Hi1 : read_u16 body 1 = Ok _,
    Hp : slice body 4 _ = Ok ?pk, Hsp : slice body 0 _ = Ok ?sp |- _ =>
    assert (0 <= n) as Hn by (eapply tls13_runs.idx_byte in Hi3; [|exact Hb]; unfold u8 in Hi3; lia);
    pose proof (ske_layout _ _ _ _ _ _ Hi0 Hct Hi1 Hi3 Hn Hp Hsp) as Hlay end.
  split; [|done]. unfold inv12; simpl h_state. split_and!; [|done| |].
  - apply (hashed_feed full _ _ Hh).
  - exists leaf, rest, cm. split_and!; [done|set_solver|done|exact Hch].
  - intros p Hp. simpl in Hp. injection Hp as <-. exists leaf, rest. split; [done|]. split; [exact Hlay|].
    match goal with Hv : policy_verify_server_key_exchange_signature _ _ _ _ _ = Ok _ |- _ =>
      unfold policy_verify_server_key_exchange_signature in Hv; simpl;
      destruct (h_verification_policy h); [by right|by left] end.
Qed.

(** Building the ClientKeyExchange leaves the object alone. *)
Lemma keeps_all {A} (m : M A) o (h h1 : Hs) r r1 : keeps id m -> m h r = Some (o, h1, r1) -> h1 = h.
Proof. intros Hk Hx. by apply Hk in Hx. Qed.

Lemma ecdhe12 leaf rest suite pms cke (h h1 : Hs) (r r1 : R) :
  key_exchange suite = Ecdhe -> h_server_certificates h = leaf :: rest ->
  (forall p, h_server_kx_params h = Some p -> signed12 h leaf p) ->
  build_ecdhe_key_exchange h r = Some (Ok (pms, cke), h1, r1) -> h1 = h /\ exchange12 h suite leaf pms cke.
Proof.
  intros Hke Hcs Hsig Hx. unfold build_ecdhe_key_exchange in Hx. hm. split; [done|].
  unfold exchange12. rewrite Hke.
  match goal with Hg : generate_key_pair ?g ?r = Ok (?kp, _), Hp : h_server_kx_params h = Some ?p |- _ =>
    exists p, kp; pose proof (generate_key_pair_ok g r) as Hok; rewrite Hg in Hok; destruct Hok as [Hgr _] end.
  match goal with Hf : group_from_code_point _ = Some _ |- _ => apply group_from_code_point_Some in Hf end.
  split_and!; [by apply Hsig|congruence..].
Qed.

Lemma rsa12 suite pms cke (h h1 : Hs) (r r1 : R) : key_exchange suite = Rsa ->
  build_rsa_key_exchange h r = Some (Ok (pms, cke), h1, r1) ->
  h1 = h /\ exists leaf, head (h_server_certificates h) = Some leaf /\ exchange12 h suite leaf pms cke.
Proof.
  intros Hke Hx. unfold build_rsa_key_exchange in Hx. hm. split; [done|].
  eexists. split; [eassumption|]. unfold exchange12. rewrite Hke. simplify_eq. do 7 eexists. by split_and!.
Qed.

(** The messages of the client in an action. *)
Definition sent12 (a : Tls12HandshakeAction) : list bytes :=
  match a with
  | SendClientFlight f => option_list (cf_client_certificate f) ++ [cf_client_key_exchange f; cf_client_finished f]
  | SendAbbreviatedFlight f => [af_client_finished f]
  | _ => []
  end.

Lemma hashed_option o log h : hashed h log ->
  hashed (from_option (fun m => feed_handshake_message m h) h o) (log ++ option_list o).
Proof. destruct o; simpl; [apply hashed_feed|]. by rewrite app_nil_r. Qed.

Lemma from_option_feed {X} (p : Hs -> X) o h : (forall m h, p (feed_handshake_message m h) = p h) ->
  p (from_option (fun m => feed_handshake_message m h) h o) = p h.
Proof. intros Hp. destruct o; simpl; [apply Hp|done]. Qed.

Lemma master12_ok log pms ms (h h1 : Hs) (r r1 : R) : hashed h log ->
  derive_master_secret pms h r = Some (Ok ms, h1, r1) -> h1 = h /\ r1 = r /\ master12 h log pms ms.
Proof.
  intros (suite & _ & Hp & Ht & _) Hx. unfold derive_master_secret in Hx. hm. unfold master12.
  destruct (h_use_extended_master_secret h); hm; [|done]. rewrite Ht in *. simplify_eq. by rewrite Hp in *.
Qed.

Lemma server_hello_done12 h0 log body full act (h h1 : Hs) (r r1 : R) :
  hashed h log -> h_abbreviated h = false -> certified12 h log ->
  (forall p, h_server_kx_params h = Some p ->
     exists leaf rest, h_server_certificates h = leaf :: rest /\ signed12 h leaf p) ->
  process_server_hello_done body full h r = Some (Ok act, h1, r1) ->
  inv12 h0 (log ++ full :: sent12 act) h1 /\ exists f, act = SendClientFlight f.
Proof.
  intros Hh Ha (leaf & rest & cm & Hcs & Hin & Hcar & Hch) Hsig Hx. unfold process_server_hello_done in Hx. hm.
  set (g0 := feed_handshake_message full h) in *.
  match goal with Hs : h_cipher_suite g0 = Some ?su |- _ => rename su into suite end.
  match goal with Hk : match key_exchange suite with _ => _ end _ _ = Some (Ok (?a, ?b), ?h', _) |- _ =>
    rename a into pms, b into cke;
    assert (h' = g0 /\ exchange12 g0 suite leaf pms cke) as [-> Hex]; [|clear Hk] end.
  { destruct (key_exchange suite) eqn:Hke.
    - eapply (ecdhe12 leaf rest); [done|exact Hcs| |eassumption].
      intros p Hp. destruct (Hsig p Hp) as (leaf' & rest' & Hcs' & Hs). rewrite Hcs in Hcs'. simplify_eq. exact Hs.
    - match goal with Hk : build_rsa_key_exchange _ _ = _ |- _ => apply (rsa12 suite) in Hk as (-> & leaf' & Hl & Hex); [|done] end.
      split; [done|]. simpl in Hl. rewrite Hcs in Hl. injection Hl as <-. exact Hex. }
  match goal with Hd : derive_master_secret _ (feed_handshake_message _ (from_option _ _ ?o)) _ = _ |- _ =>
    set (oc := o) in *; set (g1 := from_option _ g0 oc) in Hd;
    assert (hashed (feed_handshake_message cke g1) (((log ++ [full]) ++ option_list oc) ++ [cke])) as Hh1
      by (by apply hashed_feed, hashed_option, hashed_feed);
    apply (master12_ok _ _ _ _ _ _ _ Hh1) in Hd as (-> & -> & Hms) end.
  split; [|by eexists]. unfold inv12; simpl h_state.
  set (g2 := feed_handshake_message cke g1) in *.
  match goal with |- context [feed_handshake_message ?m g2] => set (fin := m) end.
  assert (hashed (feed_handshake_message fin g2) (log ++ full :: option_list oc ++ [cke; fin])) as Hh2.
  { replace (log ++ full :: option_list oc ++ [cke; fin]) with ((((log ++ [full]) ++ option_list oc) ++ [cke]) ++ [fin])
      by (by rewrite <- !app_assoc). by apply hashed_feed. }
  assert (h_abbreviated g1 = false) as Ha1 by (unfold g1; by rewrite (from_option_feed h_abbreviated)).
  assert (h_cipher_suite g1 = Some suite) as Hs1 by (unfold g1; by rewrite (from_option_feed h_cipher_suite)).
  split_and!; [exact Hh2|exact Ha1|]. eexists. split; [done|].
  exists ((log ++ [full]) ++ option_list oc), [fin], suite, cm, leaf, rest, pms, cke.
  split_and!; [by rewrite <- !app_assoc|exact Hs1|set_solver|done| | |]; clear -Hch Hex Hms; subst g1 g2;
    destruct oc; [exact Hch|exact Hch|exact Hex|exact Hex|exact Hms|exact Hms].
Qed.

(** ** Runs *)

(** A handshake on which only the setters were used. *)
Definition fresh12 (h : Hs) : Prop :=
  h_state h = WaitServerHello /\ h_abbreviated h = false /\ h_server_kx_params h = None.

(** The handshakes that start from [h0]: the ClientHello is fed, then the
    driver hands over messages of the server, feeds the NewSessionTicket that
    may precede the ChangeCipherSpec, and reports the latter.  [log] are the
    messages of both sides. *)
Inductive reach12 (h0 : Hs) : list bytes -> Hs -> Prop :=
| reach12_hello ch : fresh12 h0 -> reach12 h0 [ch] (feed_client_hello ch h0)
| reach12_message log h t full body act h1 (r r1 : R) :
    reach12 h0 log h -> tls13_props.framed t full body -> is_bytes body ->
    process_single_message t body full h r = Some (Ok act, h1, r1) ->
    reach12 h0 (log ++ full :: sent12 act) h1
| reach12_ticket log h m :
    reach12 h0 log h -> h_state h = WaitServerChangeCipherSpec ->
    reach12 h0 (log ++ [m]) (feed_handshake_message m h)
| reach12_ccs log h : reach12 h0 log h -> reach12 h0 log (notify_server_ccs_received h)
| reach12_resume log h k h1 (r r1 : R) :
    reach12 h0 log h -> accept_abbreviated_ccs h r = Some (Ok k, h1, r1) -> reach12 h0 log h1.

Definition config12 (h : Hs) :=
  (h_client_random h, h_hostname h, h_verification_policy h, h_custom_ca_anchors h).

Lemma keeps12_ext fuel body e o : keeps (R := R) config12 (sh12_ext_loop fuel body e o).
Proof. intros h r x h1 r1 Hx. apply keeps_sh12_ext in Hx. unfold sans_extensions in Hx. unfold config12. congruence. Qed.
Hint Resolve keeps12_ext : keeps.
Lemma keeps12_message t body full : keeps (R := R) config12 (process_single_message t body full).
Proof.
  unfold process_single_message, process_server_hello, process_certificate, process_server_key_exchange,
    process_server_hello_done, build_ecdhe_key_exchange, build_rsa_key_exchange, derive_master_secret,
    feed_handshake_message, from_option. keeps.
Qed.
Lemma reach12_config h0 log h : reach12 h0 log h -> config12 h = config12 h0.
Proof.
  induction 1 as [ch Hf|log h t full body act h1 r r1 Hr IH Hfr Hb Hx|log h m Hr IH Hs|log h Hr IH|log h k h1 r r1 Hr IH Hx].
  - done.
  - apply keeps12_message in Hx. by rewrite Hx.
  - exact IH.
  - unfold notify_server_ccs_received. by case_bool_decide.
  - assert (keeps (R := R) config12 accept_abbreviated_ccs) as Hk by (unfold accept_abbreviated_ccs; keeps).
    apply Hk in Hx. by rewrite Hx.
Qed.

Lemma inv12_message h0 log t full body act (h h1 : Hs) (r r1 : R) :
  inv12 h0 log h -> tls13_props.framed t full body -> is_bytes body ->
  process_single_message t body full h r = Some (Ok act, h1, r1) ->
  inv12 h0 (log ++ full :: sent12 act) h1.
Proof.
  intros Hi Hfr Hb Hx. unfold process_single_message in Hx. apply bind_ok in Hx as (? & ? & ? & Hg & Hx).
  apply get_ok in Hg as (-> & -> & ->).
  destruct (h_state h) eqn:Hst; try by hm.
  - destruct (negb _); [by hm|]. by destruct (server_hello12 _ _ _ _ _ _ _ _ _ Hi Hst Hx) as [? ->].
  - unfold inv12 in Hi. rewrite Hst in Hi. destruct Hi as (Hh & Hq & Hres).
    destruct (t =? _); [|destruct (t =? 4); [|by hm]]; hm.
    + by destruct (certificate12 h0 log _ _ _ _ (put_resumed_master_secret None h) _ _ _ Hh Hq Hfr Hx) as [? ->].
    + unfold inv12. simpl h_state. rewrite Hst. split_and!; [by apply hashed_feed|done|done].
  - destruct (negb _); [by hm|]. unfold inv12 in Hi. rewrite Hst in Hi. destruct Hi as (Hh & Hq).
    by destruct (certificate12 h0 log _ _ _ _ _ _ _ _ Hh Hq Hfr Hx) as [? ->].
  - destruct (t =? _); [by destruct (server_key_exchange12 _ _ _ _ _ _ _ _ _ Hb Hi Hst Hx) as [? ->]|].
    unfold inv12 in Hi. rewrite Hst in Hi. destruct Hi as (Hh & [Ha Hk] & Hc).
    destruct (t =? _); [|destruct (t =? _); [|by hm]].
    + hm. unfold inv12. simpl h_state. rewrite Hst. split_and!; [by apply hashed_feed|done|].
      destruct Hc as (leaf & rest & cm & Hcs & Hin & Hcar & Hch). exists leaf, rest, cm. split_and!; [done|set_solver|done|exact Hch].
    + eapply server_hello_done12 in Hx as [? _]; [done|done|done|done|]. intros p Hp. congruence.
  - unfold inv12 in Hi. rewrite Hst in Hi. destruct Hi as (Hh & Ha & Hc & Hsig).
    destruct (t =? _); [|destruct (t =? _); [|by hm]].
    + hm. unfold inv12. simpl h_state. rewrite Hst.
      split_and!; [apply (hashed_feed full log (put_client_certificate_requested true h) Hh)|done| |exact Hsig].
      destruct Hc as (leaf & rest & cm & Hcs & Hin & Hcar & Hch). exists leaf, rest, cm. split_and!; [done|set_solver|done|exact Hch].
    + by eapply server_hello_done12 in Hx as [? _].
Qed.

Lemma keyed12_more h log m ms : keyed12 h log ms -> keyed12 h (log ++ [m]) ms.
Proof.
  intros (pre & rest & suite & cm & leaf & certs & pms & cke & -> & Hk).
  exists pre, (rest ++ [m]), suite, cm, leaf, certs, pms, cke. split; [by rewrite <- app_assoc|done].
Qed.

Lemma reach12_inv h0 log h : reach12 h0 log h -> inv12 h0 log h.
Proof.
  induction 1 as [ch Hf|log h t full body act h1 r r1 Hr IH Hfr Hb Hx|log h m Hr IH Hs|log h Hr IH|log h k h1 r r1 Hr IH Hx].
  - destruct Hf as (Hs & Ha & Hk). unfold inv12. simpl h_state. rewrite Hs. exists ch. by split_and!.
  - by eapply inv12_message.
  - unfold inv12 in *. simpl h_state. rewrite Hs in *. destruct IH as (Hh & Ha & ms & Hms & Hk).
    split_and!; [by apply hashed_feed|done|]. exists ms. split; [done|]. exact (keyed12_more _ _ m _ Hk).
  - unfold notify_server_ccs_received. case_bool_decide as Hs; [|done].
    unfold inv12 in IH. rewrite Hs in IH. destruct IH as (Hh & Ha & ms & Hms & Hk).
    unfold inv12; simpl. split; [exact Hh|]. exists ms. split; [done|]. rewrite Ha. exact Hk.
  - unfold accept_abbreviated_ccs in Hx. hm.
    match goal with Hs : bool_decide _ = true |- _ => apply bool_decide_eq_true in Hs; rename Hs into Hst end.
    unfold inv12 in IH. rewrite Hst in IH. destruct IH as (Hh & _ & Hres).
    unfold inv12; simpl. split; [exact Hh|]. eexists. split; [done|]. congruence.
Qed.

(** ** Completion *)

(** The Finished [data] of the server, with or without its header, is the PRF of
    RFC 5246 over the transcript [log]. *)
Definition finished12 (h : Hs) (ms : bytes) (log : list bytes) (data vd : bytes) : Prop :=
  compute_verify_data (h_prf_algorithm h) ms "server finished" (prf_digest (h_prf_algorithm h) (concat log)) = Ok vd /\
  (data = vd \/ tls13_props.framed handshake_type.FINISHED data vd).

(** The keys are the key block of the master secret, cut for the suite. *)
Definition keys12 (h : Hs) (ms : bytes) (k : Tls12TrafficKeys) : Prop :=
  exists suite kb, h_cipher_suite h = Some suite /\ key_block h suite ms = Ok kb /\ k = keys_of suite kb.

Lemma keys12_unique h ms k k' : keys12 h ms k -> keys12 h ms k' -> k = k'.
Proof. intros (su & kb & Hs & Hb & ->) (su' & kb' & Hs' & Hb' & ->). rewrite Hs in Hs'. injection Hs' as <-. congruence. Qed.

(** The master secret is the ticket's or comes from an authenticated exchange. *)
Definition authentic12 (h0 h : Hs) (log : list bytes) (ms : bytes) : Prop :=
  config12 h = config12 h0 /\ (h_resumed_master_secret h0 = Some ms \/ keyed12 h log ms).

Lemma verify_data_ok data err vd (h h1 : Hs) (r r1 : R) :
  finished_verify_data data err h r = Some (Ok vd, h1, r1) ->
  h1 = h /\ r1 = r /\ (data = vd \/ tls13_props.framed handshake_type.FINISHED data vd).
Proof.
  intros Hx. unfold finished_verify_data in Hx.
  destruct ((len data =? 16) && _) eqn:Hc; [|destruct (len data =? 12); hm; by auto].
  hm. split_and!; [done..|]. right.
  apply andb_prop in Hc as [Hl Hd]. apply Z.eqb_eq in Hl. apply bool_decide_eq_true in Hd.
  destruct data as [|a [|b [|c [|d l]]]]; try done. simplify_eq/=.
  match goal with Hs : slice _ _ _ = Ok _ |- _ => rewrite slice_ok in Hs by lia; injection Hs as <- end.
  exists b, c, d. do 4 f_equal. unfold take_z, drop_z. simpl. rewrite drop_0, take_ge; [done|].
  unfold len in Hl. simpl in Hl. lia.
Qed.

Lemma finished_state h0 log h : reach12 h0 log h -> h_state h = WaitServerFinished ->
  hashed h log /\ exists ms, h_master_secret h = Some ms /\ authentic12 h0 h log ms.
Proof.
  intros Hr Hs. pose proof (reach12_inv _ _ _ Hr) as Hi. apply reach12_config in Hr.
  unfold inv12 in Hi. rewrite Hs in Hi. destruct Hi as (Hh & ms & Hms & Hk). split; [done|].
  exists ms. split; [done|]. split; [done|]. destruct (h_abbreviated h); [by left|by right].
Qed.

(** A Finished that is accepted, in a full handshake or a resumed one. *)
Lemma server_finished_ok h0 log act (h h1 : Hs) (data : bytes) (r r1 : R) :
  reach12 h0 log h -> process_server_finished data h r = Some (Ok act, h1, r1) ->
  exists ms vd k, act = Complete k /\ h_state h = WaitServerFinished /\ h_master_secret h = Some ms /\
    authentic12 h0 h log ms /\ finished12 h ms log data vd /\ keys12 h ms k.
Proof.
  intros Hr Hx. unfold process_server_finished in Hx. hm.
  match goal with Hs : bool_decide (h_state h = _) = true |- _ => apply bool_decide_eq_true in Hs; rename Hs into Hst end.
  destruct (finished_state _ _ _ Hr Hst) as ((suite & Hsu & Hp & Ht & _) & ms & Hms & Hauth).
  match goal with Hv : finished_verify_data _ _ _ _ = _ |- _ => apply verify_data_ok in Hv as (-> & -> & Hd) end.
  match goal with Hs : bool_decide (_ = _) = true |- _ => apply bool_decide_eq_true in Hs; subst end.
  rewrite Hms, Ht, Hsu in *. simplify_eq. do 3 eexists. split_and!; [done|exact Hst|done|exact Hauth| |by do 2 eexists].
  split; [|exact Hd]. rewrite Hp in *. done.
Qed.

Lemma abbreviated_finished_ok h0 log f (h h1 : Hs) (data : bytes) (r r1 : R) :
  reach12 h0 log h -> process_abbreviated_server_finished data h r = Some (Ok f, h1, r1) ->
  exists ms vd cvd, h_master_secret h = Some ms /\
    authentic12 h0 h log ms /\ finished12 h ms log data vd /\ keys12 h ms (af_traffic_keys f) /\
    compute_verify_data (h_prf_algorithm h) ms "client finished"
      (prf_digest (h_prf_algorithm h)
         (concat (log ++ [build_handshake_message handshake_type.FINISHED vd]))) = Ok cvd /\
    af_client_finished f = build_handshake_message handshake_type.FINISHED cvd.
Proof.
  intros Hr Hx. unfold process_abbreviated_server_finished in Hx. hm.
  match goal with Hs : (_ && _) = true |- _ => apply andb_prop in Hs as [Hst _]; apply bool_decide_eq_true in Hst end.
  destruct (finished_state _ _ _ Hr Hst) as (Hh & ms & Hms & Hauth).
  match goal with Hv : finished_verify_data _ _ _ _ = _ |- _ => apply verify_data_ok in Hv as (-> & -> & Hd) end.
  match goal with Hs : bool_decide (_ = _) = true |- _ => apply bool_decide_eq_true in Hs; subst end.
  match goal with Ht : h_transcript (feed_handshake_message ?m _) = Some _ |- _ =>
    pose proof (hashed_feed m _ _ Hh) as (su' & Hsu' & Hp' & Ht' & _); rewrite Ht' in Ht; injection Ht as <- end.
  destruct Hh as (suite & Hsu & Hp & Ht & _). simpl in *. rewrite Hms, Ht, Hsu in *. simplify_eq.
  do 3 eexists. split_and!; [done|exact Hauth| |by do 2 eexists| |done].
  + split; [|exact Hd]. rewrite Hp in *. done.
  + rewrite Hp in *. assumption.
Qed.

(** ** Records *)

(** The client's flight carries the keys of the master secret. *)
Definition flight12 (act : Tls12HandshakeAction) (h : Hs) : Prop :=
  exists f ms, act = SendClientFlight f /\ h_state h = WaitServerChangeCipherSpec /\
    h_master_secret h = Some ms /\ keys12 h ms (cf_traffic_keys f).

Lemma server_hello_done_flight body full act (h h1 : Hs) (r r1 : R) :
  process_server_hello_done body full h r = Some (Ok act, h1, r1) -> flight12 act h1.
Proof.
  intros Hx. unfold process_server_hello_done in Hx. hm.
  match goal with Hd : derive_master_secret ?pms _ _ = Some (_, ?g', _) |- _ =>
    assert (keeps (R := R) (fun h : Hs => h) (derive_master_secret pms)) as Hk by (unfold derive_master_secret; keeps);
    apply Hk in Hd; subst g' end.
  do 2 eexists. split_and!; [done|done|done|]. do 2 eexists. split_and!; [|eassumption|done].
  match goal with Hk : match key_exchange ?su with _ => _ end _ _ = Some (_, ?g, _) |- _ =>
    assert (keeps (R := R) (fun h : Hs => h) (match key_exchange su with Ecdhe => build_ecdhe_key_exchange | Rsa => build_rsa_key_exchange end)) as Hk2
      by (unfold build_ecdhe_key_exchange, build_rsa_key_exchange; keeps);
    apply Hk2 in Hk; subst g end.
  unfold from_option. by repeat case_match.
Qed.

Lemma message12_action t body full act (h h1 : Hs) (r r1 : R) :
  process_single_message t body full h r = Some (Ok act, h1, r1) -> act = ContinueReading \/ flight12 act h1.
Proof.
  intros Hx. unfold process_single_message in Hx. apply bind_ok in Hx as (? & ? & ? & Hg & Hx).
  apply get_ok in Hg as (-> & -> & ->).
  destruct (h_state h); repeat match type of Hx with (if ?c then _ else _) _ _ = _ => destruct c end;
    try (right; exact (server_hello_done_flight _ _ _ _ _ _ _ Hx)); left;
    unfold process_server_hello, process_certificate, process_server_key_exchange in Hx; by hm.
Qed.

Lemma record12_ok h0 data : is_bytes data -> forall fuel pos log act (h h1 : Hs) (r r1 : R),
  reach12 h0 log h -> record12_loop fuel data pos h r = Some (Ok act, h1, r1) ->
  exists log', reach12 h0 log' h1 /\ log `prefix_of` log' /\ (act = ContinueReading \/ flight12 act h1).
Proof.
  intros Hb. induction fuel as [|fuel IH]; intros pos log act h h1 r r1 Hr Hx; simpl in Hx; [by hm|].
  destruct (Z.ltb_spec pos (len data)); [|hm; exists log; by auto]. hm.
  repeat match goal with Hc : (_ <=? _) = true |- _ => apply Z.leb_le in Hc end.
  match goal with Hn : tls13.read_u24 data _ = Ok _ |- _ => apply tls13_runs.read_u24_nonneg in Hn as Hn0; [|done] end.
  match goal with Hi : idx data pos = Ok _, Hf : slice data pos _ = Ok ?full, Hp : slice data (pos + 4) _ = Ok ?body |- _ =>
    pose proof (tls13_runs.slice_framed _ _ _ _ _ _ Hi Hn0 ltac:(eassumption) Hf Hp) as Hfr;
    assert (is_bytes body) as Hbb by (eapply tls13_safety.is_bytes_slice; [exact Hb|exact Hp]) end.
  match goal with Hm : process_single_message _ _ _ _ _ = _ |- _ => rename Hm into Hmsg end.
  pose proof (reach12_message h0 _ _ _ _ _ _ _ _ _ Hr Hfr Hbb Hmsg) as Hr1.
  destruct (message12_action _ _ _ _ _ _ _ _ Hmsg) as [->|Hfl].
  - destruct (IH _ _ _ _ _ _ _ Hr1 Hx) as (log' & G1 & G2 & G3). exists log'. split_and!; try done.
    etrans; [|exact G2]. by apply prefix_app_r.
  - destruct Hfl as (f & ms & -> & Hfl). hm. eexists. split_and!; [exact Hr1|by apply prefix_app_r|right; by exists f, ms].
Qed.

End props.
End tls12_props.
