(* ===== verification/TlsDriverProps.v ===== *)
(** * What a TLS connection and a QUIC handshake guarantee

    Reassembly of handshake messages, then the driver: it composes the record layer
    with the handshakes, and what is handed to the application has keys that come out
    of an authenticated handshake with the configured host. *)
From S2P Require Import Prelude Synthesis Hpack TlsError StateM TlsCipher TlsRecord TlsProfile TlsExtensions QuicParams TlsKx ClientHello ServerHello TlsHkdf CertChain SessionStore SessionStoreProps Tls12Prf Tls13 Tls12 TlsDriver Tls13Props Tls13Runs Tls13Safety Tls12Props.
Import error statem hkdf tls13_runs tls_driver.

Module reassembly.

(** ** Reassembly *)

(** One handshake message: type, length, body. *)
Definition message (m : bytes) : Prop :=
  exists t a b c body, m = t :: a :: b :: c :: body /\ len body = tls13.from_be24 a b c.

(** A message at the head of the input, if it is complete. *)
Lemma message_head input : is_bytes input ->
  (exists m rest, message m /\ input = m ++ rest) \/
  (len input < 4 \/ exists t a b c body, input = t :: a :: b :: c :: body /\ len body < tls13.from_be24 a b c).
Proof.
  intros Hb. destruct input as [|t [|a [|b [|c body]]]]; try (right; left; unfold len; simpl; lia).
  destruct (Z.lt_ge_cases (len body) (tls13.from_be24 a b c)) as [Hl|Hl]; [right; right; by exists t, a, b, c, body|].
  left. assert (0 <= tls13.from_be24 a b c).
  { unfold is_bytes in Hb. rewrite !Forall_cons in Hb. unfold u8 in Hb. apply from_be24_nonneg; lia. }
  exists (t :: a :: b :: c :: take_z (tls13.from_be24 a b c) body), (drop_z (tls13.from_be24 a b c) body).
  split; [|simpl; unfold take_z, drop_z; by rewrite take_drop].
  do 5 eexists. split; [done|]. rewrite len_take_z by lia. lia.
Qed.

(** No complete message. *)
Definition partial (rest : bytes) : Prop := forall m tl, rest = m ++ tl -> ~ message m.

Lemma partial_short rest : len rest < 4 \/ (exists t a b c body, rest = t :: a :: b :: c :: body /\ len body < tls13.from_be24 a b c) ->
  partial rest.
Proof.
  intros Hs m tl -> (t & a & b & c & body & -> & Hl). destruct Hs as [Hs|(t' & a' & b' & c' & body' & Heq & Hl')].
  - unfold len in *. simpl in Hs. lia.
  - simplify_list_eq. rewrite len_app in Hl'. unfold len in *. lia.
Qed.


Lemma read_u24_app {E} (pre : bytes) t a b c tl :
  tls13.read_u24 (E := E) (pre ++ t :: a :: b :: c :: tl) (len pre + 1) = Ok (tls13.from_be24 a b c).
Proof.
  unfold tls13.read_u24. rewrite <- !Z.add_assoc, !idx_app_r by lia. done.
Qed.

Lemma complete_loop_messages : forall fuel input pre, is_bytes input -> (length input < fuel)%nat ->
  exists l rest, input = concat l ++ rest /\ Forall message l /\ partial rest /\
    complete_loop fuel (pre ++ input) (len pre) = Ok (len (pre ++ concat l)).
Proof.
  induction fuel as [|fuel IH]; intros input pre Hb Hf; [lia|].
  destruct (message_head input Hb) as [(m & rest & Hm & ->)|Hs].
  - destruct Hm as (t & a & b & c & body & -> & Hl). apply is_bytes_app in Hb as [_ Hb].
    rewrite length_app in Hf. simpl in Hf. destruct (IH rest (pre ++ t :: a :: b :: c :: body) Hb ltac:(lia))
      as (l & tl & -> & Hml & Hp & Hx).
    exists ((t :: a :: b :: c :: body) :: l), tl. split_and!; [simpl; by rewrite <- app_assoc| |done|].
    + constructor; [|done]. by do 5 eexists.
    + rewrite <- app_assoc in Hx. cbn [concat].
      rewrite (app_assoc pre _ (concat l)), <- Hx.
      assert (len (pre ++ (t :: a :: b :: c :: body) ++ concat l ++ tl) =
        len pre + 4 + len body + len (concat l ++ tl)) as Hlen by (rewrite !len_app; unfold len; simpl; lia).
      assert (0 <= len (concat l ++ tl) /\ 0 <= len body) as [] by (unfold len; lia).
      cbn [complete_loop]. rewrite (proj2 (Z.ltb_lt _ _)), (proj2 (Z.ltb_ge _ _)) by lia.
      change ((t :: a :: b :: c :: body) ++ concat l ++ tl) with (t :: a :: b :: c :: body ++ concat l ++ tl) in *.
      rewrite read_u24_app. cbn [mbind outcome_bind].
      rewrite (proj2 (Z.ltb_ge _ _)) by lia. f_equal. rewrite len_app. unfold len in *. simpl. lia.
  - exists [], input. split_and!; [done|done|by apply partial_short|]. rewrite app_nil_r. simpl.
    destruct (Z.ltb_spec (len pre) (len (pre ++ input))); [|done].
    destruct (Z.ltb_spec (len (pre ++ input) - len pre) 4) as [|H4]; [done|].
    destruct Hs as [Hs|(t & a & b & c & body & -> & Hl)]; [rewrite len_app in H4; lia|].
    rewrite read_u24_app. cbn [mbind outcome_bind].
    rewrite (proj2 (Z.ltb_lt _ _)); [done|]. rewrite len_app. unfold len in *. simpl in *. lia.
Qed.

(** What is taken is whole messages, and what stays has no complete one. *)
Lemma take_complete_messages input : is_bytes input -> exists l rest,
  input = concat l ++ rest /\ Forall message l /\ partial rest /\
  take_complete_handshake_messages input = Ok (match l with [] => None | _ => Some (concat l) end, rest).
Proof.
  intros Hb. destruct (complete_loop_messages (S (length input)) input [] Hb ltac:(lia)) as (l & rest & -> & Hl & Hp & Hx).
  exists l, rest. split_and!; try done. unfold take_complete_handshake_messages. simpl app in Hx.
  change (len (@nil Z)) with 0 in Hx. rewrite Hx. cbn [mbind outcome_bind].
  rewrite take_z_app_len, drop_z_app_len. destruct l as [|m l]; [done|].
  inversion Hl as [|? ? (t & a & b & c & body & -> & _) _]. rewrite (proj2 (Z.eqb_neq _ _)); [done|].
  unfold len. simpl. lia.
Qed.

(** Records handed to the driver one after the other: the buffer and what was
    taken out of it. *)
Fixpoint reassemble_all (buf : bytes) (records : list bytes) : Outcome TlsError (list bytes * bytes) :=
  match records with
  | [] => Ok ([], buf)
  | r :: records =>
      '(msgs, buf) ← take_complete_handshake_messages (buf ++ r);
      '(rest, buf) ← reassemble_all buf records;
      Ok (option_list msgs ++ rest, buf)
  end.

(** However handshake messages are cut into records, joined or fragmented,
    the driver hands the state machine whole messages only, in order, every byte
    once; what it holds back at the end is less than a message. *)
Theorem reassembly_exact (records : list bytes) : Forall is_bytes records ->
  exists pieces buf ms, reassemble_all [] records = Ok (pieces, buf) /\
    concat records = concat (concat ms) ++ buf /\ pieces = (@concat Z) <$> ms /\
    Forall (fun l => l <> [] /\ Forall message l) ms /\ partial buf.
Proof.
  intros Hr. assert (forall buf, is_bytes buf -> partial buf -> exists pieces buf' ms,
    reassemble_all buf records = Ok (pieces, buf') /\ buf ++ concat records = concat (concat ms) ++ buf' /\
    pieces = (@concat Z) <$> ms /\ Forall (fun l => l <> [] /\ Forall message l) ms /\ partial buf') as Hx;
    [|destruct (Hx []) as (p & b & ms & ?); [constructor| |by exists p, b, ms]].
  - induction Hr as [|r records Hr _ IH]; intros buf Hb Hp; simpl.
    + exists [], buf, []. by rewrite app_nil_r.
    + destruct (take_complete_messages (buf ++ r)) as (l & rest & Heq & Hl & Hp1 & ->); [by apply is_bytes_app|].
      assert (is_bytes rest) as Hb1.
      { assert (is_bytes (buf ++ r)) as Hbr by (by apply is_bytes_app). rewrite Heq in Hbr. by apply is_bytes_app in Hbr as []. }
      destruct (IH rest Hb1 Hp1) as (pieces & buf' & ms & Hx & Hc & -> & Hm & Hp2). cbn [mbind outcome_bind].
      rewrite Hx. cbn [mbind outcome_bind]. rewrite app_assoc, Heq, <- app_assoc, Hc.
      destruct l as [|m l]; [exists ((@concat Z) <$> ms), buf', ms; by split_and!|].
      exists (concat (m :: l) :: ((@concat Z) <$> ms)), buf', ((m :: l) :: ms). split_and!; [done| |done| |done].
      * change (concat ((m :: l) :: ms)) with ((m :: l) ++ concat ms). by rewrite concat_app, <- app_assoc.
      * by constructor.
  - intros m tl Hn (t & a & b & c & body & -> & _). done.
Qed.
End reassembly.

(** * What a TLS connection guarantees

    The driver composes the record layer with the handshakes: a connection that is
    handed to the application has keys that come out of an authenticated handshake
    with the configured host. *)
Import error statem tls12_cipher record types extensions kx client_hello server_hello hkdf certchain session_store session_store_props tls13_props tls13_runs tls12_props tls_driver reassembly.

Module tls_driver_props.

(** ** Keys of readers and writers *)

Section keys.
Context {R : Type} {SR : SystemRandom R} {C : Crypto}.

Definition reader_keys (rd : RecordReader) := (rd_aead rd, rd_tls12_cipher rd).
Definition writer_keys (w : RecordWriter) := (wr_aead w, wr_tls12_cipher w).

Lemma open_record_keys rd h p o rd1 : open_record rd h p = (o, rd1) -> reader_keys rd1 = reader_keys rd.
Proof. unfold open_record. intros Hx. repeat (case_match; simplify_eq; try done). Qed.
Lemma next_record_keys rd o rd1 : next_record rd = (o, rd1) -> reader_keys rd1 = reader_keys rd.
Proof.
  unfold next_record. intros Hx. repeat (case_match; simplify_eq; try done).
  by apply open_record_keys in Hx as ->.
Qed.

Lemma encode_keys w ct p (r : R) o w1 r1 : encode_single_record w ct p r = (o, w1, r1) -> writer_keys w1 = writer_keys w.
Proof.
  unfold encode_single_record, encode_tls12_encrypted_record, encode_tls13_encrypted_record, encode_plaintext_record.
  intros Hx. repeat (case_match; simplify_eq; try done).
Qed.
Lemma emit_keys w out rec out1 w1 : emit w out rec = (out1, w1) -> writer_keys w1 = writer_keys w.
Proof. unfold emit. intros Hx. repeat (case_match; simplify_eq; try done). Qed.
Lemma write_record_keys w ct p (r : R) o w1 r1 : write_record w ct p r = (o, w1, r1) -> writer_keys w1 = writer_keys w.
Proof.
  unfold write_record. destruct (is_empty p).
  - destruct (encode_single_record w ct [] r) as [[[rec| |] w2] r2] eqn:He; apply encode_keys in He as <-; intros Hx; simplify_eq; try done.
    destruct (emit w2 [] rec) as [out w3] eqn:Hm. simplify_eq. by apply emit_keys in Hm.
  - generalize (chunks MAX_RECORD_PAYLOAD p) as cs. intros cs. generalize (@nil Z) as out. revert w r.
    induction cs as [|c cs IH]; intros w r out Hx; simpl in Hx; [by simplify_eq|].
    destruct (encode_single_record w ct c r) as [[[rec| |] w2] r2] eqn:He; apply encode_keys in He as <-; simplify_eq; try done.
    destruct (emit w2 out rec) as [out' w3] eqn:Hm. apply emit_keys in Hm as <-. by eapply IH.
Qed.
End keys.

Section props.
Context {R K D P O E T N PK EK : Type}.
Context {SR : SystemRandom R} {AG : Agreement R K D} {CK : Clock R} {H : Hkdf P O} {C : Crypto} {CL : CryptoLaws C}.
Context {SG : Signatures} {W : Webpki E T N} {DC : Decompress} {RS : RsaCrate R PK EK}.

Abbreviation Hs13 := (tls13.Tls13Handshake (K := K) (D := D) (P := P) (T := T)).
Abbreviation Hs12 := (tls12.Tls12Handshake (K := K) (D := D) (T := T)).
Abbreviation Driver := (HandshakeDriver (K := K) (D := D) (P := P) (T := T)).
Abbreviation Wd := (World (R := R)).
Abbreviation DM := (SM Driver Wd).
Abbreviation reach13 := (tls13_runs.reach (R := R) (K := K) (D := D) (P := P) (O := O) (E := E) (T := T) (N := N)).
Abbreviation reach_12 := (reach12 (R := R) (K := K) (D := D) (P := P) (O := O) (E := E) (T := T) (N := N) (PK := PK) (EK := EK)).

Lemma run13_ok {S A} (m : SM Hs13 R A) h (d d1 : S) (w w1 : Wd) a h1 :
  run13 m h d w = Some (Ok (a, h1), d1, w1) -> d1 = d /\ m h (w_rng w) = Some (Ok a, h1, w_rng w1).
Proof.
  unfold run13. destruct (m h (w_rng w)) as [[[[a'| |] h'] r]|]; [|done..]. intros Hx. by simplify_eq/=.
Qed.
Lemma run12_ok {S A} (m : SM Hs12 R A) h (d d1 : S) (w w1 : Wd) a h1 :
  run12 m h d w = Some (Ok (a, h1), d1, w1) -> d1 = d /\ m h (w_rng w) = Some (Ok a, h1, w_rng w1).
Proof.
  unfold run12. destruct (m h (w_rng w)) as [[[[a'| |] h'] r]|]; [|done..]. intros Hx. by simplify_eq/=.
Qed.
Lemma write_ok ct p b (d d1 : Driver) (w w1 : Wd) : write ct p d w = Some (Ok b, d1, w1) ->
  exists wr, d1 = put_writer wr d /\ writer_keys wr = writer_keys (d_writer d).
Proof.
  unfold write. destruct (write_record _ _ _ _) as [[o wr] r] eqn:Hw. intros Hx. simplify_eq.
  exists wr. split; [done|]. by apply write_record_keys in Hw.
Qed.
Lemma write_opt_ok m b (d d1 : Driver) (w w1 : Wd) : write_opt m d w = Some (Ok b, d1, w1) ->
  exists wr, d1 = put_writer wr d /\ writer_keys wr = writer_keys (d_writer d).
Proof.
  destruct m; simpl; [apply write_ok|]. intros Hx. hm. exists (d_writer d). split; [by destruct d|done].
Qed.
Lemma read_ok rec (d d1 : Driver) (w w1 : Wd) : reader_ok (d_reader d) -> read d w = Some (Ok rec, d1, w1) ->
  exists rd, d1 = put_reader rd d /\ w1 = w /\ reader_keys rd = reader_keys (d_reader d) /\ reader_ok rd /\
    from_option record_ok True rec.
Proof.
  intros Hr Hx. unfold read in Hx. destruct (next_record (d_reader d)) as [o rd] eqn:Hn. simplify_eq.
  destruct (next_record_safe _ _ _ Hr Hn) as [? ?]. exists rd. by split_and!; [| |eapply next_record_keys|..].
Qed.

Lemma tell_ok {S} f u (d d1 : S) (w w1 : Wd) : tell f d w = Some (Ok u, d1, w1) -> d1 = d /\ w1 = f w.
Proof. unfold tell. intros Hx. by simplify_eq. Qed.

Ltac dm :=
  repeat (progress (hm; repeat match goal with
  | Hx : (_, _) = (_, _) |- _ => injection Hx as ? ?
  | Hx : run13 _ _ _ _ = _ |- _ => apply run13_ok in Hx as [? Hx]
  | Hx : run12 _ _ _ _ = _ |- _ => apply run12_ok in Hx as [? Hx]
  | Hx : tell _ _ _ = _ |- _ => apply tell_ok in Hx as [? ?]
  | Hx : write _ _ _ _ = _ |- _ => apply write_ok in Hx as (? & ? & ?)
  | Hx : write_opt _ _ _ = _ |- _ => apply write_opt_ok in Hx as (? & ? & ?)
  end; subst)).

(** ** Specification *)

Definition reader13 (a : aead.Aead) (rd : RecordReader) : Prop := reader_keys rd = (Some a, None).
Definition writer13 (a : aead.Aead) (w : RecordWriter) : Prop := writer_keys w = (Some a, None).
(** The directions of the keys of a TLS 1.2 connection. *)
Definition reader12 (k : tls12.Tls12TrafficKeys) (rd : RecordReader) : Prop :=
  exists c, tls12.to_record_cipher k false = Ok c /\ reader_keys rd = (None, Some c).
Definition writer12 (k : tls12.Tls12TrafficKeys) (w : RecordWriter) : Prop :=
  exists c, tls12.to_record_cipher k true = Ok c /\ writer_keys w = (None, Some c).
Definition unkeyed (w : RecordWriter) : Prop := writer_keys w = (None, None).

(** A ticket that was in the store for this host and port. *)
Definition stored (c : HandshakeConfig (T := T)) (w0 : Wd) (t : SessionTicketData) : Prop :=
  t ∈ queue_of (w_store w0) (host_key c).

(** The handshakes of a configuration: its host, policy and anchors, and at most
    a ticket of the store. *)
Definition starts13 (c : HandshakeConfig (T := T)) (w0 : Wd) (h0 : Hs13) : Prop :=
  fresh h0 /\ tls13.hs_profile h0 = c_profile c /\ tls13.hs_hostname h0 = c_hostname c /\
  tls13.hs_verification_policy h0 = c_verification_policy c /\
  tls13.hs_custom_ca_anchors h0 = c_custom_ca_anchors c /\
  forall t, tls13.hs_psk_ticket h0 = Some t -> stored c w0 t.
Definition starts12 (c : HandshakeConfig (T := T)) (w0 : Wd) (h0 : Hs12) : Prop :=
  fresh12 h0 /\ tls12.h_hostname h0 = c_hostname c /\ tls12.h_verification_policy h0 = c_verification_policy c /\
  tls12.h_custom_ca_anchors h0 = c_custom_ca_anchors c /\
  forall ms, tls12.h_resumed_master_secret h0 = Some ms -> exists t, stored c w0 t /\ t_master_secret t = ms.

(** A connection of TLS 1.3: the handshake is [established] (authenticated, secrets
    of the key schedule) and both directions are keyed with its secrets. *)
Definition secured13 (c : HandshakeConfig (T := T)) (w0 : Wd) (res : HandshakeResult) : Prop :=
  res_negotiated_version res = Some 0x0304 /\
  exists (h0 : Hs13) alg aead hrr pre sh post psk full hc,
    starts13 c w0 h0 /\ established (R := R) h0 alg aead hrr pre sh post psk full hc /\
    let ts := tls13.hc_traffic_secrets hc in
    reader13 (aead.mkAead aead (tls13.ts_server_key ts) (tls13.ts_server_iv ts)) (res_reader res) /\
    writer13 (aead.mkAead aead (tls13.ts_client_key ts) (tls13.ts_client_iv ts)) (res_writer res) /\
    rd_seq_num (res_reader res) = 0 /\ wr_seq_num (res_writer res) = 0 /\
    res_peer_certificates res = tls13.hc_server_certificates hc /\
    res_post_handshake res = Some (post_handshake_of ts).

(** A connection of TLS 1.2: the server's Finished was checked under an authentic
    master secret, whose keys protect both directions; except that the writer of a
    resumed session may be without keys. *)
Definition secured12 (c : HandshakeConfig (T := T)) (w0 : Wd) (res : HandshakeResult) : Prop :=
  res_negotiated_version res = Some 0x0303 /\
  exists (h0 h : Hs12) log data ms vd k,
    starts12 c w0 h0 /\ reach_12 h0 log h /\ authentic12 (R := R) (PK := PK) (EK := EK) h0 h log ms /\
    finished12 h ms log data vd /\ keys12 h ms k /\ reader12 k (res_reader res) /\
    (writer12 k (res_writer res) \/ tls12.h_abbreviated h = true /\ unkeyed (res_writer res)).

(** ** Invariant *)

Definition driver_inv (c : HandshakeConfig (T := T)) (w0 : Wd) (d : Driver) : Prop :=
  d_config d = c /\ reader_ok (d_reader d) /\ is_bytes (d_hs_buffer d) /\
  match d_state d with
  | DStart => False
  | DWaitServerHello h ch => exists h0 log, starts13 c w0 h0 /\ reach13 h0 log h /\ last log = Some ch /\
      unkeyed (d_writer d) /\ (forall t, d_original_ticket d = Some t -> stored c w0 t)
  | DTls13Encrypted h => exists h0 log, starts13 c w0 h0 /\ reach13 h0 log h
  | DTls12ServerFlight h cr => exists h0 log, starts12 c w0 h0 /\ reach_12 h0 log h /\ unkeyed (d_writer d)
  | DTls12WaitServerFinished h cr keys ccs => exists h0 log ms, starts12 c w0 h0 /\ reach_12 h0 log h /\
      tls12.h_master_secret h = Some ms /\ keys12 h ms keys /\
      (ccs = true -> reader12 keys (d_reader d)) /\
      (tls12.h_state h = tls12.WaitServerChangeCipherSpec /\ writer12 keys (d_writer d) \/
       tls12.h_state h = tls12.WaitServerFinished /\ ccs = true /\ tls12.h_abbreviated h = true /\ unkeyed (d_writer d))
  | DComplete => True
  end.

Definition base (c : HandshakeConfig (T := T)) (d : Driver) : Prop :=
  d_config d = c /\ reader_ok (d_reader d) /\ is_bytes (d_hs_buffer d).
(** What a call that succeeds leaves and returns. *)
Definition result_ok (c : HandshakeConfig (T := T)) (w0 : Wd) (o : HandshakeOutput) (d : Driver) : Prop :=
  driver_inv c w0 d /\ forall b res, o = Done b res -> secured13 c w0 res \/ secured12 c w0 res.

(** *** The start *)

Lemma take_loop_in q t rest (r r1 : R) : take_loop q r = (Some t, rest, r1) -> t ∈ q.
Proof.
  revert r. induction q as [|t' q IH]; intros r Hx; simpl in Hx; [done|].
  destruct (instant_now r) as [now r']. destruct (negb _); simplify_eq; [by constructor|]. constructor. by eapply IH.
Qed.
Lemma take_in st k t st1 (r r1 : R) : take st k r = (Some t, st1, r1) -> t ∈ queue_of st k.
Proof.
  unfold take, queue_of. destruct (store_map st !! k) as [q|]; [|done]. simpl.
  destruct (take_loop (reverse q) r) as [[found rest] r'] eqn:Hl. intros Hx. simplify_eq.
  apply take_loop_in in Hl. by apply elem_of_reverse.
Qed.
Lemma store_take_ok {S} k t (d d1 : S) (w w1 : Wd) : store_take k d w = Some (Ok (Some t), d1, w1) ->
  d1 = d /\ t ∈ queue_of (w_store w) k.
Proof.
  unfold store_take. destruct (take _ _ _) as [[o st] r] eqn:Ht. intros Hx. simplify_eq. split; [done|].
  by eapply take_in.
Qed.
Lemma store_take_state {S} k t (d d1 : S) (w w1 : Wd) : store_take k d w = Some (Ok t, d1, w1) -> d1 = d.
Proof. unfold store_take. destruct (take _ _ _) as [[o st] r]. intros Hx. by simplify_eq. Qed.

Lemma offer_ticket_ok c hs hs1 (d d1 : Driver) (w w1 : Wd) :
  d_config d = c -> d_original_ticket d = None -> tls13.hs_psk_ticket hs = None ->
  offer_ticket hs d w = Some (Ok hs1, d1, w1) ->
  exists ot ps tt, d1 = put_original_ticket ot d /\ hs1 = tls13.set_psk_ticket ps (tls13.set_tls12_session_ticket_data tt hs) /\
    (forall t, ot = Some t -> stored c w t) /\ (forall t, ps = Some t -> stored c w t).
Proof.
  intros <- Hot Hps Hx. unfold offer_ticket in Hx. hm.
  assert (exists ot ps tt, d = put_original_ticket ot d /\ hs = tls13.set_psk_ticket ps (tls13.set_tls12_session_ticket_data tt hs) /\
    (forall t, ot = Some t -> stored (d_config d) w t) /\ (forall t, ps = Some t -> stored (d_config d) w t)) as Hsame.
  { exists None, None, (tls13.hs_tls12_session_ticket_data hs). split_and!; [| |done|done].
    - destruct d; simpl in *. by subst.
    - destruct hs; simpl in *. by subst. }
  destruct (any_enabled _ && _); [|by hm]. hm.
  match goal with Ht : store_take _ _ _ = Some (Ok ?o, _, _) |- _ => destruct o as [t|] end.
  2:{ match goal with Ht : store_take _ _ _ = _ |- _ => apply store_take_state in Ht; subst end. by hm. }
  match goal with Ht : store_take _ _ _ = _ |- _ => apply store_take_ok in Ht as [-> Hin] end.
  destruct (tls_version t); (destruct (_ && _); hm; [|exact Hsame]).
  - exists (Some t), (Some t), (tls13.hs_tls12_session_ticket_data hs). split_and!; [done|by destruct hs|..]; by intros ? [= <-].
  - exists (Some t), None, (Some (ticket t)). split_and!; [done| |by intros ? [= <-]|done].
    destruct hs; simpl in *. by subst.
Qed.

Lemma configured_start c (w0 : Wd) ps tt : (forall t, ps = Some t -> stored c w0 t) ->
  starts13 c w0 (tls13.set_psk_ticket ps (tls13.set_tls12_session_ticket_data tt (configured c))).
Proof.
  intros Hp. unfold starts13, fresh, configured.
  destruct (c_custom_ca_anchors c) eqn:Ha, (c_alps_payload c), (c_keylog_callback c); simpl; rewrite ?Ha; by split_and!.
Qed.

Lemma configured_no_ticket c : tls13.hs_psk_ticket (configured c : Hs13) = None.
Proof. unfold configured. by repeat case_match. Qed.

Lemma start_inv c fuel b (d : Driver) (w0 w : Wd) :
  start (O := O) fuel (driver_new c) w0 = Some (Ok b, d, w) -> driver_inv c w0 d.
Proof.
  intros Hx. unfold start in Hx. hm.
  match goal with Ht : offer_ticket _ _ _ = _ |- _ =>
    apply (offer_ticket_ok c) in Ht as (ot & ps & tt & -> & -> & Hot & Hps); [|done|done|apply configured_no_ticket] end.
  dm. split_and!; [done|by split; [constructor|]|by constructor|]. simpl.
  pose proof (configured_start c w0 ps tt Hps) as Hs.
  do 2 eexists. split_and!; [exact Hs|eapply reach_hello; [apply Hs|eassumption]|done|done|exact Hot].
Qed.

(** *** TLS 1.3 *)

Lemma aead_new_ok alg k v a : aead.aead_new alg k v = Ok a -> a = aead.mkAead alg k v.
Proof. unfold aead.aead_new. intros Hx. repeat case_match; by simplify_eq. Qed.

Lemma install_keys_ok alg sk siv ck civ u (d d1 : Driver) (w w1 : Wd) :
  install_keys alg sk siv ck civ d w = Some (Ok u, d1, w1) ->
  d1 = put_writer (writer_set_keys (d_writer d) (aead.mkAead alg ck civ))
         (put_reader (reader_set_keys (d_reader d) (aead.mkAead alg sk siv)) d).
Proof.
  intros Hx. unfold install_keys in Hx. hm.
  repeat match goal with Ha : aead.aead_new _ _ _ = _ |- _ => apply aead_new_ok in Ha end. by subst.
Qed.

Lemma reader_ok_new : reader_ok reader_new.
Proof. by split; [constructor|]. Qed.
Lemma base_write c wr (d : Driver) : base c d -> base c (put_writer wr d).
Proof. done. Qed.
Lemma base_keys c a (d : Driver) : base c d -> base c (put_reader (reader_set_keys (d_reader d) a) d).
Proof. intros (? & [? ?] & ?). by split_and!. Qed.

Lemma finish_tls13_ok c (w0 : Wd) (h0 : Hs13) alg aead hrr pre sh post psk full hc o (d d1 : Driver) (w w1 : Wd) :
  base c d -> starts13 c w0 h0 -> established (R := R) h0 alg aead hrr pre sh post psk full hc ->
  finish_tls13 hc d w = Some (Ok o, d1, w1) -> result_ok c w0 o d1.
Proof.
  intros Hb Hs He Hx. unfold finish_tls13, finish in Hx. dm.
  match goal with Hi : install_keys _ _ _ _ _ _ _ = _ |- _ => apply install_keys_ok in Hi; subst end.
  split; [destruct Hb as (? & ? & ?); split_and!; try done; apply reader_ok_new|].
  intros b res [= <- <-]. left. split; [done|].
  exists h0, alg, aead, hrr, pre, sh, post, psk, full, hc. split_and!; try done; simpl;
    destruct He as [_ (? & ? & ? & ? & ? & ? & _ & _ & _ & _ & _ & _ & _ & _ & [_ <- _ _ _]) _]; done.
Qed.

Lemma write_aside_ok ct p b (d d1 : Driver) (w w1 : Wd) : write_aside ct p d w = Some (Ok b, d1, w1) -> d1 = d.
Proof. unfold write_aside. destruct (write_record _ _ _ _) as [[]]. intros Hx. by simplify_eq. Qed.

Lemma begin_tls13_ok c (w0 : Wd) (h0 : Hs13) log h sfuel payload o (d d1 : Driver) (w w1 : Wd) :
  base c d -> starts13 c w0 h0 -> reach13 h0 log h -> is_bytes payload -> unkeyed (d_writer d) ->
  (forall t, d_original_ticket d = Some t -> stored c w0 t) ->
  begin_tls13 sfuel h payload d w = Some (Ok o, d1, w1) -> result_ok c w0 o d1.
Proof.
  intros Hb Hs Hr Hp Hu Ht Hx. unfold begin_tls13 in Hx. dm.
  match goal with Hm : tls13.process_handshake_record _ _ _ _ = Some (Ok ?a, _, _) |- _ =>
    destruct (record_reach _ _ _ _ _ _ _ _ _ Hp Hr Hm) as (log' & Hr' & _ & Hlast); destruct a end; dm.
  - match goal with Hi : install_keys _ _ _ _ _ _ _ = _ |- _ => apply install_keys_ok in Hi; subst end.
    assert (base c x0) as Hb0 by (destruct (tls13.has_received_hrr _); by dm).
    destruct (base_keys _ (aead.mkAead (tls13.hk_aead_algorithm k) (tls13.hk_server_key k) (tls13.hk_server_iv k)) _ Hb0) as (? & ? & ?).
    split; [|done]. split_and!; try done. simpl. by exists h0, log'.
  - match goal with Hw : write_aside _ _ _ _ = _ |- _ => apply write_aside_ok in Hw; subst end.
    destruct Hb as (? & ? & ?). split; [|done]. split_and!; try done. simpl. exists h0, log'. split_and!; try done; [by apply Hlast|].
    unfold unkeyed in *. congruence.
Qed.

(** *** TLS 1.2 *)

Lemma install_writer12_ok k u (d d1 : Driver) (w w1 : Wd) : install_writer12 k d w = Some (Ok u, d1, w1) ->
  exists wr, d1 = put_writer wr d /\ writer12 k wr.
Proof.
  intros Hx. unfold install_writer12, tls12.install_on_writer in Hx. hm.
  match goal with Hc : (_ ≫= _) = Ok _ |- _ => unfold mbind, outcome_bind in Hc; destruct (tls12.to_record_cipher k true) eqn:Hk; simplify_eq end.
  eexists. split; [done|]. by eexists.
Qed.
Lemma install_reader12_ok k u (d d1 : Driver) (w w1 : Wd) : reader_ok (d_reader d) ->
  install_reader12 k d w = Some (Ok u, d1, w1) ->
  exists rd, d1 = put_reader rd d /\ reader12 k rd /\ reader_ok rd.
Proof.
  intros [Hb _] Hx. unfold install_reader12, tls12.install_on_reader in Hx. hm.
  match goal with Hc : (_ ≫= _) = Ok _ |- _ => unfold mbind, outcome_bind in Hc; destruct (tls12.to_record_cipher k false) eqn:Hk; simplify_eq end.
  eexists. split; [done|]. split; [by eexists|by split].
Qed.
Lemma writer12_keys k wr wr1 : writer_keys wr1 = writer_keys wr -> writer12 k wr -> writer12 k wr1.
Proof. intros Hw (cc & ? & ?). exists cc. split; congruence. Qed.
Lemma reader12_keys k rd rd1 : reader_keys rd1 = reader_keys rd -> reader12 k rd -> reader12 k rd1.
Proof. intros Hw (cc & ? & ?). exists cc. split; congruence. Qed.

Lemma finish_tls12_full_ok c (w0 : Wd) (h0 h : Hs12) log cr f o (d d1 : Driver) (w w1 : Wd) :
  base c d -> starts12 c w0 h0 -> reach_12 h0 log h -> flight12 (tls12.SendClientFlight f) h ->
  finish_tls12_full h cr f d w = Some (Ok o, d1, w1) -> result_ok c w0 o d1.
Proof.
  intros Hb Hs Hr (f' & ms & [= <-] & Hst & Hms & Hk) Hx. unfold finish_tls12_full in Hx. dm.
  match goal with Hi : install_writer12 _ _ _ = _ |- _ => apply install_writer12_ok in Hi as (wr & -> & Hwr) end. dm.
  split; [|done]. destruct Hb as (? & ? & ?). split_and!; try done. simpl.
  exists h0, log, ms. split_and!; try done. left. split; [done|]. by eapply writer12_keys.
Qed.

Lemma configured12_start c (w0 : Wd) ot cr ch : (forall t, ot = Some t -> stored c w0 t) ->
  exists h0 : Hs12, starts12 c w0 h0 /\ configured12 c ot cr ch = tls12.feed_client_hello ch h0.
Proof.
  intros Ht. unfold configured12. eexists. split; [|done]. unfold starts12, fresh12.
  destruct (c_custom_ca_anchors c) eqn:Ha, ot as [t|]; simpl; rewrite ?Ha; try (by split_and!);
    destruct (tls_version t); try (by split_and!); destruct (is_empty _); simpl; rewrite ?Ha; split_and!; try done;
    intros ms [= <-]; exists t; by split; [apply Ht|].
Qed.

Lemma take_complete_bytes input o rest : is_bytes input -> take_complete_handshake_messages input = Ok (o, rest) ->
  is_bytes rest /\ forall m, o = Some m -> is_bytes m.
Proof.
  intros Hb Hx. destruct (take_complete_messages input Hb) as (l & rest' & -> & _ & _ & Hx').
  rewrite Hx' in Hx. simplify_eq. apply is_bytes_app in Hb as [? ?]. split; [done|].
  intros m Hm. destruct l; by simplify_eq.
Qed.

Lemma begin_tls12_ok c (w0 : Wd) ch payload o (d d1 : Driver) (w w1 : Wd) :
  base c d -> is_bytes payload -> unkeyed (d_writer d) -> (forall t, d_original_ticket d = Some t -> stored c w0 t) ->
  begin_tls12 ch payload d w = Some (Ok o, d1, w1) -> result_ok c w0 o d1.
Proof.
  intros Hb Hp Hu Ht Hx. unfold begin_tls12 in Hx. dm.
  match goal with Hc : (if ?v then _ else _) _ _ = Some (_, ?d', ?w') |- _ =>
    assert (d' = d) as -> by (destruct v; by dm); clear Hc end.
  destruct (take_complete_bytes _ _ _ Hp ltac:(eassumption)) as [Hl Hm].
  destruct Hb as (Hc & Hrd & Hbuf). rewrite Hc in *.
  match goal with Hm : match ?o with _ => _ end _ _ = Some (Ok (?a, ?h), ?d', ?w') |- _ =>
    destruct (configured12_start c w0 (d_original_ticket d) x5 ch Ht) as (h0 & Hs & Heq); rewrite Heq in Hm;
    assert (exists log, reach_12 h0 log h /\ d' = put_original_ticket None d /\ (a = tls12.ContinueReading \/ flight12 a h))
      as (log & Hr & -> & Ha) end.
  { pose proof (reach12_hello (R := R) (O := O) (E := E) (N := N) (PK := PK) (EK := EK) h0 ch (proj1 Hs)) as Hr0.
    destruct o0 as [m|]; dm.
    - match goal with Hx : tls12.process_handshake_record _ _ _ = _ |- _ =>
        destruct (record12_ok h0 m (Hm _ eq_refl) _ _ _ _ _ _ _ _ Hr0 Hx) as (log & ? & _ & ?) end. by exists log.
    - exists [ch]. split_and!; [exact Hr0|done|by left]. }
  destruct Ha as [->|Hf].
  - dm. split; [|done]. split_and!; try done. simpl. by exists h0, log.
  - destruct Hf as (f & ms & -> & Hf). eapply finish_tls12_full_ok; [|exact Hs|exact Hr|by exists f, ms|exact Hx].
    by split_and!.
Qed.

Lemma emit_keylog_ok h cr u (d d1 : Driver) (w w1 : Wd) : emit_tls12_keylog h cr d w = Some (Ok u, d1, w1) -> d1 = d.
Proof. unfold emit_tls12_keylog. intros Hx. dm. repeat (case_match; dm); done. Qed.

Lemma complete_abbreviated_ok c (w0 : Wd) (h0 h : Hs12) log cr data k ms o (d d1 : Driver) (w w1 : Wd) :
  base c d -> starts12 c w0 h0 -> reach_12 h0 log h -> tls12.h_master_secret h = Some ms -> keys12 h ms k ->
  reader12 k (d_reader d) ->
  complete_tls12_abbreviated h cr data d w = Some (Ok o, d1, w1) -> result_ok c w0 o d1.
Proof.
  intros (Hc & Hrd & Hbuf) Hs Hr Hms Hk Hrk Hx. unfold complete_tls12_abbreviated, finish in Hx. dm.
  match goal with Hf : tls12.process_abbreviated_server_finished _ _ _ = _ |- _ =>
    destruct (abbreviated_finished_ok _ _ _ _ _ _ _ _ Hr Hf) as (ms' & vd & cvd & Hms' & Hau & Hfin & Hk' & _) end.
  rewrite Hms in Hms'. injection Hms' as <-. pose proof (keys12_unique _ _ _ _ Hk Hk') as ->.
  match goal with Hi : install_writer12 _ _ _ = _ |- _ => apply install_writer12_ok in Hi as (wr & -> & Hwr) end.
  match goal with Hi : emit_tls12_keylog _ _ _ _ = _ |- _ => apply emit_keylog_ok in Hi; subst end.
  split; [by split_and!; try done; apply reader_ok_new|]. intros b res [= <- <-]. right. split; [done|].
  exists h0, h, log, data, ms, vd, (tls12.af_traffic_keys t). split_and!; try done. left. by eapply writer12_keys.
Qed.

Lemma abbreviated_loop_ok c (w0 : Wd) (h0 h : Hs12) log cr k ms o : forall fuel (d d1 : Driver) (w w1 : Wd),
  base c d -> starts12 c w0 h0 -> reach_12 h0 log h -> tls12.h_master_secret h = Some ms -> keys12 h ms k ->
  tls12.h_state h = tls12.WaitServerFinished -> tls12.h_abbreviated h = true -> unkeyed (d_writer d) ->
  reader12 k (d_reader d) ->
  abbreviated_loop fuel h cr k d w = Some (Ok o, d1, w1) -> result_ok c w0 o d1.
Proof.
  induction fuel as [|fuel IH]; intros d d1 w w1 (Hc & Hrd & Hbuf) Hs Hr Hms Hk Hst Hab Hu Hrk Hx; simpl in Hx; [done|].
  apply bind_ok in Hx as (rec & d2 & w2 & Hread & Hx).
  apply (read_ok _ _ _ _ _ Hrd) in Hread as (rd & -> & -> & Hkeys & Hok & Hrec).
  apply (reader12_keys _ _ _ Hkeys) in Hrk. destruct rec as [rec|].
  - destruct (_ =? _); [by eapply IH; [..|exact Hx]; try done|].
    destruct (_ =? _); [|by dm]. by eapply complete_abbreviated_ok; [..|exact Hx]; try done.
  - dm. split; [|done]. split_and!; try done. simpl. exists h0, log, ms. split_and!; try done. by right.
Qed.

Lemma accept_ccs_ok k (h h1 : Hs12) (r r1 : R) : tls12.accept_abbreviated_ccs h r = Some (Ok k, h1, r1) ->
  exists ms, tls12.h_master_secret h1 = Some ms /\ keys12 h1 ms k /\
    tls12.h_state h1 = tls12.WaitServerFinished /\ tls12.h_abbreviated h1 = true.
Proof.
  intros Hx. unfold tls12.accept_abbreviated_ccs in Hx. hm. eexists. split_and!; try done. by do 2 eexists.
Qed.

Lemma handle_ccs_ok c (w0 : Wd) (h0 h : Hs12) log cr o (d d1 : Driver) (w w1 : Wd) :
  base c d -> d_state d = DTls12ServerFlight h cr -> starts12 c w0 h0 -> reach_12 h0 log h -> unkeyed (d_writer d) ->
  handle_tls12_abbreviated_ccs d w = Some (Ok o, d1, w1) -> result_ok c w0 o d1.
Proof.
  intros (Hc & Hrd & Hbuf) Hst Hs Hr Hu Hx. unfold handle_tls12_abbreviated_ccs in Hx. hm. rewrite Hst in Hx. dm.
  match goal with Ha : tls12.accept_abbreviated_ccs _ _ = _ |- _ =>
    pose proof (reach12_resume h0 _ _ _ _ _ _ Hr Ha) as Hr'; apply accept_ccs_ok in Ha as (ms & Hms & Hk & Hst' & Hab) end.
  match goal with Hi : install_reader12 _ _ _ = _ |- _ =>
    apply install_reader12_ok in Hi as (rd & -> & Hrk & Hok); [|done] end.
  by eapply abbreviated_loop_ok; [..|exact Hx]; try done.
Qed.

Lemma try_store_ok ty payload u (d d1 : Driver) (w w1 : Wd) :
  try_store_tls12_session_ticket ty payload d w = Some (Ok u, d1, w1) -> d1 = d.
Proof.
  intros Hx. unfold try_store_tls12_session_ticket in Hx. hm.
  repeat (case_match; dm; try done); unfold parse_ticket, store_put in *; repeat (case_match; dm; simplify_eq; try done).
Qed.

Lemma complete_full_ok c (w0 : Wd) (h0 h : Hs12) log cr keys ms payload o (d d1 : Driver) (w w1 : Wd) :
  base c d -> starts12 c w0 h0 -> reach_12 h0 log h -> tls12.h_master_secret h = Some ms -> keys12 h ms keys ->
  reader12 keys (d_reader d) ->
  (tls12.h_state h = tls12.WaitServerChangeCipherSpec /\ writer12 keys (d_writer d) \/
   tls12.h_state h = tls12.WaitServerFinished /\ true = true /\ tls12.h_abbreviated h = true /\ unkeyed (d_writer d)) ->
  (modify (put_state DComplete) ≫= fun _ => complete_tls12_full h cr keys payload) d w = Some (Ok o, d1, w1) ->
  result_ok c w0 o d1.
Proof.
  intros (Hc & Hrd & Hbuf) Hs Hr Hms Hk Hrk Hm Hx. unfold complete_tls12_full, finish in Hx. dm.
  match goal with Hi : emit_tls12_keylog _ _ _ _ = _ |- _ => apply emit_keylog_ok in Hi; subst end.
  pose proof (reach12_ccs _ _ _ Hr) as Hr'. set (h' := tls12.notify_server_ccs_received h) in *.
  assert (tls12.h_master_secret h' = Some ms /\ keys12 h' ms keys /\ tls12.h_abbreviated h' = tls12.h_abbreviated h) as (Hms' & Hk' & Hab).
  { unfold h', tls12.notify_server_ccs_received. by case_bool_decide. }
  match goal with Hf : tls12.process_server_finished _ _ _ = _ |- _ =>
    destruct (server_finished_ok _ _ _ _ _ _ _ _ Hr' Hf) as (ms' & vd & k & _ & _ & Heq & Hau & Hfin & Hk2) end.
  rewrite Hms' in Heq. injection Heq as <-. pose proof (keys12_unique _ _ _ _ Hk' Hk2) as <-.
  split; [by split_and!; try done; apply reader_ok_new|]. intros b res [= <- <-]. right. split; [done|].
  exists h0, h', log, payload, ms, vd, keys. split_and!; try done. simpl.
  destruct Hm as [[_ ?]|(_ & _ & ? & ?)]; [by left|right]. by rewrite Hab.
Qed.

Lemma wait_finished_ok c (w0 : Wd) o : forall fuel (d d1 : Driver) (w w1 : Wd),
  driver_inv c w0 d -> wait_finished_loop fuel d w = Some (Ok o, d1, w1) -> result_ok c w0 o d1.
Proof.
  induction fuel as [|fuel IH]; intros d d1 w w1 (Hc & Hrd & Hbuf & Hi) Hx; simpl in Hx; [done|].
  apply bind_ok in Hx as (rec & d2 & w2 & Hread & Hx).
  apply (read_ok _ _ _ _ _ Hrd) in Hread as (rd & -> & -> & Hkeys & Hok & Hrec).
  assert (driver_inv c w0 (put_reader rd d)) as Hinv.
  { split_and!; try done. simpl. destruct (d_state d); try done.
    destruct Hi as (h0 & log & ms & ? & ? & ? & ? & Hrk & ?). exists h0, log, ms. split_and!; try done.
    intros ?. eapply reader12_keys; [exact Hkeys|]. by apply Hrk. }
  destruct rec as [rec|]; [|by hm]. destruct (_ =? content_type.ALERT); [by hm|].
  apply bind_ok in Hx as (? & ? & ? & Hg & Hx). apply get_ok in Hg as (-> & -> & ->).
  change (d_state (put_reader rd d)) with (d_state d) in Hx.
  clear Hi. destruct Hinv as (_ & _ & _ & Hi). simpl in Hi.
  destruct (d_state d) as [| | | |h cr keys ccs|] eqn:Hst; try by hm.
  destruct Hi as (h0 & log & ms & Hs & Hr & Hms & Hk & Hrk & Hm).
  assert (base c (put_reader rd d)) as Hbase by (by split_and!).
  destruct (_ =? content_type.CHANGE_CIPHER_SPEC).
  - hm. destruct ccs; simpl in *; dm. { eapply IH; [|exact Hx]. split_and!; try done. simpl. rewrite Hst. exists h0, log, ms. by split_and!. }
    match goal with Hi : install_reader12 _ _ _ = _ |- _ =>
      apply install_reader12_ok in Hi as (rd1 & -> & Hrk1 & Hok1); [|done] end. simpl in *.
    eapply IH; [|exact Hx]. split_and!; try done. simpl. exists h0, log, ms. split_and!; try done.
    destruct Hm as [?|(_ & ? & _)]; [by left|done].
  - destruct (_ =? content_type.HANDSHAKE).
    2:{ eapply IH; [|exact Hx]. split_and!; try done. simpl. rewrite Hst. by exists h0, log, ms. }
    destruct ccs; simpl in *; dm; [by eapply complete_full_ok; [exact Hbase|..|exact Hx]; eauto|].
    match goal with Hi : try_store_tls12_session_ticket _ _ _ _ = _ |- _ => apply try_store_ok in Hi; subst end.
    destruct Hm as [[Hst' Hw]|(_ & ? & _)]; [|done].
    eapply IH; [|exact Hx]. split_and!; try done. simpl.
    exists h0, (log ++ [pr_payload rec]), ms. split_and!; try done; [by apply reach12_ticket|by left].
Qed.

(** *** Progress *)

Lemma reassemble_ok c payload msgs (d d1 : Driver) (w w1 : Wd) : base c d -> is_bytes payload ->
  reassemble payload d w = Some (Ok msgs, d1, w1) ->
  exists buf, d1 = put_hs_buffer buf d /\ base c d1 /\ forall m, msgs = Some m -> is_bytes m.
Proof.
  intros (Hc & Hrd & Hbuf) Hp Hx. unfold reassemble in Hx. dm.
  match goal with Ht : take_complete_handshake_messages _ = Ok _ |- _ =>
    destruct (take_complete_bytes _ _ _ (proj2 (is_bytes_app _ _) (conj Hbuf Hp)) Ht) as [? ?] end.
  eexists. split_and!; try done.
Qed.

Lemma encrypted13_ok c (w0 : Wd) (h0 h : Hs13) log sfuel messages action h1 (r r1 : R) :
  starts13 c w0 h0 -> reach13 h0 log h -> is_bytes messages ->
  tls13.process_handshake_record sfuel messages h r = Some (Ok action, h1, r1) ->
  (exists log', reach13 h0 log' h1) /\
  forall hc, action = tls13.Complete hc -> exists alg aead hrr pre sh post psk full,
    established (R := R) h0 alg aead hrr pre sh post psk full hc.
Proof.
  intros Hs Hr Hb Hx. split; [by destruct (record_reach _ _ _ _ _ _ _ _ _ Hb Hr Hx) as (log' & ? & _); eauto|].
  intros hc ->. destruct (record_established _ _ _ _ _ _ _ _ _ Hr Hb Hx)
    as (alg & aead & hrr & pre & sh & post & psk & full & _ & He & _). by exists alg, aead, hrr, pre, sh, post, psk, full.
Qed.

Lemma progress_loop_ok c (w0 : Wd) sfuel o : forall fuel (d d1 : Driver) (w w1 : Wd),
  driver_inv c w0 d -> progress_loop fuel sfuel d w = Some (Ok o, d1, w1) -> result_ok c w0 o d1.
Proof.
  induction fuel as [|fuel IH]; intros d d1 w w1 (Hc & Hrd & Hbuf & Hi) Hx; simpl in Hx; [done|].
  apply bind_ok in Hx as (rec & d2 & w2 & Hread & Hx).
  apply (read_ok _ _ _ _ _ Hrd) in Hread as (rd & -> & -> & Hkeys & Hok & Hrec).
  assert (driver_inv c w0 (put_reader rd d)) as Hinv.
  { split_and!; try done. simpl. destruct (d_state d); try done.
    destruct Hi as (h0 & log & ms & ? & ? & ? & ? & Hrk & ?). exists h0, log, ms. split_and!; try done.
    intros ?. eapply reader12_keys; [exact Hkeys|]. by apply Hrk. }
  destruct rec as [rec|]; [|by hm].
  apply bind_ok in Hx as (? & ? & ? & Hg & Hx). apply get_ok in Hg as (-> & -> & ->).
  change (d_state (put_reader rd d)) with (d_state d) in Hx.
  assert (base c (put_reader rd d)) as Hbase by (by split_and!).
  destruct (_ =? content_type.CHANGE_CIPHER_SPEC).
  { destruct (d_state d) as [| | |h cr| |] eqn:Hst; try (by eapply IH).
    case_bool_decide; [|by eapply IH]. clear Hi. destruct Hinv as (_ & _ & _ & Hi). simpl in Hi. rewrite Hst in Hi.
    destruct Hi as (h0 & log & ? & ? & ?). by eapply handle_ccs_ok. }
  destruct (_ =? content_type.ALERT); [by hm|]. destruct (negb _); [by hm|].
  apply bind_ok in Hx as (? & ? & ? & Hg & Hx). apply modify_ok in Hg as (-> & ->).
  assert (base c (put_state DComplete (put_reader rd d))) as Hb0 by exact Hbase.
  assert (is_bytes (pr_payload rec)) as Hp by (by destruct Hrec).
  destruct (d_state d) as [|h ch|h|h cr| |] eqn:Hst; try by hm.
  - destruct Hi as (h0 & log & Hs & Hr & _ & Hu & Ht).
    apply bind_ok in Hx as (v & ? & ? & Hg & Hx). apply lift_ok in Hg as (_ & -> & ->).
    destruct (v =? _); [by eapply begin_tls13_ok|]. destruct (v =? _); [|by hm].
    apply bind_ok in Hx as (o' & d2 & w2 & Hb & Hx).
    pose proof (begin_tls12_ok c w0 ch (pr_payload rec) o' _ _ _ _ Hb0 Hp Hu Ht Hb) as [Hi' Hd].
    destruct o'; hm; [by split|by eapply IH|by split].
  - destruct Hi as (h0 & log & Hs & Hr). apply bind_ok in Hx as (msgs & d2 & w2 & Hre & Hx).
    destruct (reassemble_ok c _ _ _ _ _ _ Hb0 Hp Hre) as (buf & -> & (? & ? & ?) & Hm).
    destruct msgs as [m|]; [|hm; eapply IH; [|exact Hx]; split_and!; try done; simpl; by exists h0, log].
    apply bind_ok in Hx as ([act h1] & d3 & w3 & Hrun & Hx). apply run13_ok in Hrun as [-> Hrun].
    destruct (encrypted13_ok c w0 h0 h log sfuel m act h1 _ _ Hs Hr (Hm _ eq_refl) Hrun) as [[log' Hr'] He].
    destruct act; try by hm.
    + apply bind_ok in Hx as (? & ? & ? & Hg & Hx). apply modify_ok in Hg as (-> & ->).
      eapply IH; [|exact Hx]; split_and!; try done; simpl; by exists h0, log'.
    + destruct (He _ eq_refl) as (alg & aead & hrr & pre & sh & post & psk & full & He').
      by eapply finish_tls13_ok; [|exact Hs|exact He'|exact Hx].
  - destruct Hi as (h0 & log & Hs & Hr & Hu). apply bind_ok in Hx as (msgs & d2 & w2 & Hre & Hx).
    destruct (reassemble_ok c _ _ _ _ _ _ Hb0 Hp Hre) as (buf & -> & (? & ? & ?) & Hm).
    destruct msgs as [m|]; [|hm; eapply IH; [|exact Hx]; split_and!; try done; simpl; by exists h0, log].
    apply bind_ok in Hx as ([act h1] & d3 & w3 & Hrun & Hx). apply run12_ok in Hrun as [-> Hrun].
    destruct (record12_ok h0 m (Hm _ eq_refl) _ _ _ _ _ _ _ _ Hr Hrun) as (log' & Hr' & _ & [->|Hf]).
    + apply bind_ok in Hx as (? & ? & ? & Hg & Hx). apply modify_ok in Hg as (-> & ->).
      eapply IH; [|exact Hx]; split_and!; try done; simpl; by exists h0, log'.
    + pose proof Hf as (f & ms & -> & _). by eapply finish_tls12_full_ok; [|exact Hs|exact Hr'|exact Hf|exact Hx].
Qed.

Lemma progress_ok c (w0 : Wd) sfuel o (d d1 : Driver) (w w1 : Wd) :
  driver_inv c w0 d -> progress sfuel d w = Some (Ok o, d1, w1) -> result_ok c w0 o d1.
Proof.
  intros Hi Hx. unfold progress in Hx.
  destruct (progress_inner sfuel d w) as [[[[o'|e|] d'] w']|] eqn:Hin; [|by repeat case_match|done..].
  simplify_eq. unfold progress_inner in Hin. apply bind_ok in Hin as (? & ? & ? & Hg & Hin). apply get_ok in Hg as (-> & -> & ->).
  destruct (d_state d); try (by eapply progress_loop_ok).
  unfold progress_tls12_wait_finished in Hin. apply bind_ok in Hin as (? & ? & ? & Hg & Hin). apply get_ok in Hg as (-> & -> & ->).
  by eapply wait_finished_ok.
Qed.

(** ** Connections *)

(** The calls of a connection that was started in the world [w0]: bytes of the
    transport are fed, progress is made, a pending alert is taken.  Generator,
    clocks, store and logs are arbitrary at each call. *)
Inductive connection (c : HandshakeConfig (T := T)) (w0 : Wd) : Driver -> Prop :=
| conn_start fuel b d w : start (O := O) fuel (driver_new c) w0 = Some (Ok b, d, w) -> connection c w0 d
| conn_feed data d : connection c w0 d -> is_bytes data -> connection c w0 (feed data d)
| conn_progress sfuel o d d1 w w1 :
    connection c w0 d -> progress sfuel d w = Some (Ok o, d1, w1) -> connection c w0 d1
| conn_alert d : connection c w0 d -> connection c w0 (snd (take_pending_alert d)).

Lemma connection_inv c w0 d : connection c w0 d -> driver_inv c w0 d.
Proof.
  induction 1 as [fuel b d w Hx|data d _ IH Hb|sfuel o d d1 w w1 _ IH Hx|d _ IH].
  - by eapply start_inv.
  - destruct IH as (? & [? ?] & ? & Hi). split_and!; try done. split; [by apply is_bytes_app|done].
  - by apply (progress_ok _ _ _ _ _ _ _ _ IH Hx).
  - done.
Qed.

(** C3. A connection handed to the application is secure.  Whatever bytes the
    transport delivers, a driver that reports the handshake done gives a reader
    and a writer keyed with the secrets of a handshake that started with the
    configured host, policy and trust anchors and is authenticated: for TLS 1.3 the
    traffic secrets of the RFC 8446 key schedule, at sequence number zero; for TLS
    1.2 the key block of a master secret under which the server's Finished was
    checked.  Resumption uses only a ticket the store held for the host and port.
    The one exception is the writer of a resumed TLS 1.2 session, which may have no
    keys. *)
Theorem connection_secured c w0 sfuel b res (d d1 : Driver) (w w1 : Wd) :
  connection c w0 d -> progress sfuel d w = Some (Ok (Done b res), d1, w1) ->
  secured13 c w0 res \/ secured12 c w0 res.
Proof.
  intros Hc Hx. destruct (progress_ok _ _ _ _ _ _ _ _ (connection_inv _ _ _ Hc) Hx) as [_ Hd]. by eapply Hd.
Qed.

(** ** Resumed TLS 1.2 sessions *)

Lemma wait_finished_resumed b res : forall fuel h cr keys (d d1 : Driver) (w w1 : Wd),
  d_state d = DTls12WaitServerFinished h cr keys true -> unkeyed (d_writer d) ->
  wait_finished_loop fuel d w = Some (Ok (Done b res), d1, w1) -> b = [] /\ unkeyed (res_writer res).
Proof.
  induction fuel as [|fuel IH]; intros h cr keys d d1 w w1 Hst Hu Hx; simpl in Hx; [done|].
  apply bind_ok in Hx as (rec & d2 & w2 & Hread & Hx). unfold read in Hread.
  destruct (next_record (d_reader d)) as [o rd]. simplify_eq. destruct rec as [rec|]; [|by hm].
  destruct (_ =? content_type.ALERT); [by hm|].
  apply bind_ok in Hx as (? & ? & ? & Hg & Hx). apply get_ok in Hg as (-> & -> & ->).
  change (d_state (put_reader rd d)) with (d_state d) in Hx. rewrite Hst in Hx. simpl in Hx.
  destruct (_ =? content_type.CHANGE_CIPHER_SPEC); [hm; by eapply IH; [| |exact Hx]|].
  destruct (_ =? content_type.HANDSHAKE); [|by eapply IH; [| |exact Hx]].
  unfold complete_tls12_full, finish in Hx. dm.
  match goal with Hi : emit_tls12_keylog _ _ _ _ = _ |- _ => apply emit_keylog_ok in Hi; subst end.
  match goal with Hd : Done _ _ = Done _ _ |- _ => by injection Hd as <- <- end.
Qed.

(** C12. A resumed TLS 1.2 session whose server Finished arrives in a later call
    than its ChangeCipherSpec is reported done although the client has sent no
    ChangeCipherSpec and no Finished, and its writer has no keys: what the
    application writes goes out in plaintext. *)
Theorem resumed_session_unprotected c w0 sfuel h cr keys ccs b res (d d1 : Driver) (w w1 : Wd) :
  connection c w0 d -> d_state d = DTls12WaitServerFinished h cr keys ccs -> tls12.h_abbreviated h = true ->
  progress sfuel d w = Some (Ok (Done b res), d1, w1) -> b = [] /\ unkeyed (res_writer res).
Proof.
  intros Hc Hst Ha Hx. apply connection_inv in Hc as (_ & _ & _ & Hi). rewrite Hst in Hi.
  destruct Hi as (h0 & log & ms & _ & Hr & _ & _ & _ & [[Hs _]|(_ & -> & _ & Hu)]).
  { apply reach12_inv in Hr. unfold inv12 in Hr. rewrite Hs in Hr. destruct Hr as (_ & ? & _). congruence. }
  unfold progress in Hx. destruct (progress_inner sfuel d w) as [[[[o'|e|] d'] w']|] eqn:Hin; [|by repeat case_match|done..].
  simplify_eq. unfold progress_inner, progress_tls12_wait_finished in Hin.
  apply bind_ok in Hin as (? & ? & ? & Hg & Hin). apply get_ok in Hg as (-> & -> & ->). rewrite Hst in Hin.
  apply bind_ok in Hin as (? & ? & ? & Hg & Hin). apply get_ok in Hg as (-> & -> & ->).
  by eapply wait_finished_resumed.
Qed.
End props.
End tls_driver_props.

(** * What a QUIC handshake guarantees

    The QUIC driver hands its caller the secrets of an authenticated TLS 1.3
    handshake, whatever the CRYPTO stream carries and however it is cut. *)
Import error statem record types extensions kx client_hello server_hello hkdf certchain session_store session_store_props tls13_props tls13_runs tls_driver reassembly tls_driver_props.

Module quic_driver_props.

Section props.
Context {R K D P O E T N : Type}.
Context {SR : SystemRandom R} {AG : Agreement R K D} {CK : Clock R} {H : Hkdf P O} {C : Crypto}.
Context {SG : Signatures} {W : Webpki E T N} {DC : Decompress}.

Abbreviation Hs13 := (tls13.Tls13Handshake (K := K) (D := D) (P := P) (T := T)).
Abbreviation Quic := (QuicHandshakeDriver (K := K) (D := D) (P := P) (T := T)).
Abbreviation Wd := (World (R := R)).
Abbreviation reach13 := (tls13_runs.reach (R := R) (K := K) (D := D) (P := P) (O := O) (E := E) (T := T) (N := N)).

Definition quic_inv (c : QuicHandshakeConfig (T := T)) (w0 : Wd) (d : Quic) : Prop :=
  q_config d = c /\ is_bytes (q_input d) /\
  match q_state d with
  | QStart => False
  | QWaitServerHello h | QTls13Encrypted h => exists h0 log, starts13 (qc_tls c) w0 h0 /\
      tls13.hs_quic_mode h0 = true /\
      tls13.hs_quic_transport_parameters h0 = Some (qc_transport_parameters c) /\ reach13 h0 log h
  | QComplete => True
  end.

(** The secrets of the result are those of an [established] handshake in QUIC mode
    that offered the configured transport parameters. *)
Definition quic_secured (c : QuicHandshakeConfig (T := T)) (w0 : Wd) (b : bytes) (res : QuicHandshakeResult) : Prop :=
  exists (h0 : Hs13) alg aead hrr pre sh post psk full hc,
    starts13 (qc_tls c) w0 h0 /\ tls13.hs_quic_mode h0 = true /\
    tls13.hs_quic_transport_parameters h0 = Some (qc_transport_parameters c) /\
    established (R := R) h0 alg aead hrr pre sh post psk full hc /\
    let ts := tls13.hc_traffic_secrets hc in
    qr_app_secrets res = mkQuicSecrets (tls13.ts_client_app_secret ts) (tls13.ts_server_app_secret ts) alg aead /\
    qr_post_handshake res = Some (post_handshake_of ts) /\
    qr_peer_transport_params res = tls13.hc_peer_quic_transport_params hc /\
    tls13.hc_client_finished hc `suffix_of` b.

Lemma take_next_ok input o rest : is_bytes input -> take_next_handshake_message input = Ok (o, rest) ->
  is_bytes rest /\ forall m, o = Some m -> is_bytes m.
Proof.
  intros Hb Hx. unfold take_next_handshake_message in Hx. destruct (_ <? 4); [by simplify_eq|].
  destruct (tls13.read_u24 input 1) as [n| |]; try done. simpl in Hx. destruct (_ <? _); [by simplify_eq|].
  simplify_eq. split; [|intros ? [= <-]]; unfold drop_z, take_z; auto with width_db.
Qed.

Ltac qm :=
  repeat (progress (hm; repeat match goal with
  | Hx : (_, _) = (_, _) |- _ => injection Hx as ? ?
  | Hx : run13 _ _ _ _ = _ |- _ => apply run13_ok in Hx as [? Hx]
  | Hx : tell _ _ _ = _ |- _ => apply tell_ok in Hx as [? ?]
  end; subst)).

Lemma quic_offer_ok c hs hs1 (d d1 : Quic) (w w1 : Wd) : q_config d = c -> tls13.hs_psk_ticket hs = None ->
  quic_offer_ticket hs d w = Some (Ok hs1, d1, w1) ->
  d1 = d /\ exists ps, hs1 = tls13.set_psk_ticket ps hs /\ forall t, ps = Some t -> stored (qc_tls c) w t.
Proof.
  intros <- Hps Hx. unfold quic_offer_ticket in Hx. hm.
  assert (exists ps, hs = tls13.set_psk_ticket ps hs /\ forall t, ps = Some t -> stored (qc_tls (q_config d)) w t) as Hsame.
  { exists None. split; [|done]. destruct hs; simpl in *. by subst. }
  destruct (_ && _); [|by hm]. hm.
  match goal with Ht : store_take _ _ _ = Some (Ok ?o, _, _) |- _ => destruct o as [t|] end.
  2:{ match goal with Ht : store_take _ _ _ = _ |- _ => apply store_take_state in Ht; subst end. by hm. }
  match goal with Ht : store_take _ _ _ = _ |- _ => apply store_take_ok in Ht as [-> Hin] end.
  destruct (tls_version t); hm; [|by split]. split; [done|]. destruct (alpn_compatible _ _); [|done].
  exists (Some t). split; [done|]. by intros ? [= <-].
Qed.

Lemma quic_start_inv c fuel b (d : Quic) (w0 w : Wd) :
  quic_start (O := O) fuel (quic_new c) w0 = Some (Ok b, d, w) -> quic_inv c w0 d.
Proof.
  intros Hx. unfold quic_start in Hx. hm.
  match goal with Ht : quic_offer_ticket _ _ _ = _ |- _ =>
    apply (quic_offer_ok c) in Ht as (-> & ps & -> & Hps); [|done|apply configured_no_ticket] end. qm.
  split_and!; [done|by constructor|]. simpl.
  pose proof (configured_start (K := K) (D := D) (P := P) (qc_tls c) w0 ps None Hps)
    as (Hf & ? & ? & ? & ? & ?).
  match goal with Hb : tls13.build_client_hello _ _ _ = _ |- _ =>
    eexists _, _; split_and!; [| | |eapply reach_hello; [|exact Hb]]; [| | |exact Hf]; done end.
Qed.

Lemma finish_quic_ok c (w0 : Wd) (h0 : Hs13) alg aead hrr pre sh post psk full hc o (d d1 : Quic) (w w1 : Wd) :
  q_config d = c -> is_bytes (q_input d) -> starts13 (qc_tls c) w0 h0 -> tls13.hs_quic_mode h0 = true ->
  tls13.hs_quic_transport_parameters h0 = Some (qc_transport_parameters c) ->
  established (R := R) h0 alg aead hrr pre sh post psk full hc ->
  finish_quic_tls13 hc d w = Some (Ok o, d1, w1) ->
  quic_inv c w0 d1 /\ forall b res, o = QDone b res -> quic_secured c w0 b res.
Proof.
  intros Hc Hin Hs Hq Htp He Hx. unfold finish_quic_tls13 in Hx. hm.
  match goal with Hm : match _ with _ => _ end d w = Some (_, ?d', _) |- _ =>
    assert (d' = d) as -> by (repeat (case_match; hm); done); clear Hm end.
  split; [by split_and!|]. intros b res [= <- <-].
  exists h0, alg, aead, hrr, pre, sh, post, psk, full, hc. split_and!; try done; try (by eexists).
  destruct (est_secrets _ _ _ _ _ _ _ _ _ _ He) as (? & ? & ? & ? & ? & ? & _ & _ & _ & _ & _ & _ & _ & _ & [<- <- _ _ _]). split_and!; [done..|by eexists].
Qed.

Lemma quic_progress_ok c (w0 : Wd) sfuel o : forall fuel (d d1 : Quic) (w w1 : Wd),
  quic_inv c w0 d -> quic_progress_loop fuel sfuel d w = Some (Ok o, d1, w1) ->
  quic_inv c w0 d1 /\ forall b res, o = QDone b res -> quic_secured c w0 b res.
Proof.
  induction fuel as [|fuel IH]; intros d d1 w w1 (Hc & Hin & Hi) Hx; simpl in Hx; [done|].
  apply bind_ok in Hx as (? & ? & ? & Hg & Hx). apply get_ok in Hg as (-> & -> & ->).
  apply bind_ok in Hx as (? & ? & ? & Hg & Hx). apply modify_ok in Hg as (-> & ->).
  destruct (q_state d) as [|h|h|] eqn:Hst; try by hm.
  - destruct Hi as (h0 & log & Hs & Hq & Htp & Hr).
    apply bind_ok in Hx as ([sh rest] & ? & ? & Hg & Hx). apply lift_ok in Hg as (Ht & -> & ->).
    destruct (take_next_ok _ _ _ Hin Ht) as [Hrest Hm].
    destruct sh as [sh|]; [|hm; split; [|done]; split_and!; try done; simpl; by exists h0, log].
    hm. destruct (negb _); [by hm|]. unfold begin_quic_tls13 in Hx. qm.
    match goal with Hp : tls13.process_handshake_record _ _ _ _ = Some (Ok ?a, _, _) |- _ =>
      destruct (record_reach _ _ _ _ _ _ _ _ _ (Hm _ eq_refl) Hr Hp) as (log' & Hr' & _ & _); destruct a end; hm;
      (split; [|done]); split_and!; try done; simpl; by exists h0, log'.
  - destruct Hi as (h0 & log & Hs & Hq & Htp & Hr).
    apply bind_ok in Hx as ([msgs rest] & ? & ? & Hg & Hx). apply lift_ok in Hg as (Ht & -> & ->).
    destruct (take_complete_bytes _ _ _ Hin Ht) as [Hrest Hm].
    apply bind_ok in Hx as (? & ? & ? & Hg & Hx). apply modify_ok in Hg as (-> & ->).
    destruct msgs as [m|]; [|hm; split; [|done]; split_and!; try done; simpl; by exists h0, log].
    apply bind_ok in Hx as ([act h1] & d3 & w3 & Hrun & Hx). apply run13_ok in Hrun as [-> Hrun].
    destruct (encrypted13_ok _ w0 h0 h log sfuel m act h1 _ _ Hs Hr (Hm _ eq_refl) Hrun) as [[log' Hr'] He].
    destruct act; try by hm.
    + apply bind_ok in Hx as (? & ? & ? & Hg & Hx). apply modify_ok in Hg as (-> & ->).
      eapply IH; [|exact Hx]. split_and!; try done. simpl. by exists h0, log'.
    + destruct (He _ eq_refl) as (alg & aead & hrr & pre & sh & post & psk & full & He').
      by eapply finish_quic_ok; [| |exact Hs|exact Hq|exact Htp|exact He'|exact Hx].
Qed.

(** The calls of a QUIC handshake started in the world [w0]. *)
Inductive quic_run (c : QuicHandshakeConfig (T := T)) (w0 : Wd) : Quic -> Prop :=
| quic_run_start fuel b d w : quic_start (O := O) fuel (quic_new c) w0 = Some (Ok b, d, w) -> quic_run c w0 d
| quic_run_feed data d : quic_run c w0 d -> is_bytes data -> quic_run c w0 (quic_feed data d)
| quic_run_progress sfuel o d d1 w w1 :
    quic_run c w0 d -> quic_progress sfuel d w = Some (Ok o, d1, w1) -> quic_run c w0 d1.

Lemma quic_progress_inv c w0 sfuel o (d d1 : Quic) (w w1 : Wd) : quic_inv c w0 d ->
  quic_progress sfuel d w = Some (Ok o, d1, w1) ->
  quic_inv c w0 d1 /\ forall b res, o = QDone b res -> quic_secured c w0 b res.
Proof.
  intros Hi Hx. unfold quic_progress in Hx. apply bind_ok in Hx as (? & ? & ? & Hg & Hx).
  apply get_ok in Hg as (-> & -> & ->). by eapply quic_progress_ok.
Qed.
Lemma quic_run_inv c w0 d : quic_run c w0 d -> quic_inv c w0 d.
Proof.
  induction 1 as [fuel b d w Hx|data d _ (? & ? & ?) Hb|sfuel o d d1 w w1 _ IH Hx].
  - by eapply quic_start_inv.
  - split_and!; try done. by apply is_bytes_app.
  - by eapply quic_progress_inv.
Qed.

End props.
End quic_driver_props.
