(* ===== verification/TlsDemo.v ===== *)
(** * TLS run on concrete inputs

    Mock servers for the TLS 1.3 handshake, with and without a HelloRetryRequest, for
    the TLS 1.2 handshake, and for the connections of the driver. *)
From S2P Require Import Prelude Synthesis Hpack TlsError StateM TlsCipher TlsRecord TlsChannel TlsProfile TlsExtensions QuicParams TlsKx ClientHello ClientHelloReplay ServerHello ServerHelloProps TlsHkdf CertChain CertChainProps SessionStore SessionStoreProps Tls12Prf Tls13 Tls12 TlsDriver Tls13Props Tls13Runs Tls13Safety Tls12Props TlsDriverProps.
Import error statem types extensions kx client_hello server_hello sh_props hkdf certchain certchain_props session_store session_store_props quic_transport_params tls13 tls13_props tls13_runs tls13_safety.

Module tls13_demo.

Definition demo_webpki : Webpki bytes unit bytes := {|
  end_entity_cert d := inr d; tls_server_roots := [tt]; verify_for_usage _ _ _ _ _ := None;
  server_name n := Some n; valid_for_name _ _ := None; anchor_from_trusted_cert _ := inr tt |}.
(** Decoders that give two bytes. *)
Definition demo_decompress : Decompress := {| zlib_decode _ := inr [1; 2]; brotli_decode _ := inl EmptyString |}.
Lemma demo_decompress_laws : DecompressLaws demo_decompress.
Proof. constructor; intros z d ?; simplify_eq/=. apply (bool_decide_unpack _); by vm_compute. Qed.
#[local] Existing Instances toy_random toy_agreement tick toy_hkdf toy_crypto demo_sigs demo_webpki demo_decompress.

Definition demo_hs : Tls13Handshake (K := Z) (D := Z) (P := Z) (T := unit) := handshake_new demo_profile [97; 46; 98].
Definition demo_hello := build_client_hello (R := Z) 99 demo_hs 5.
Definition state_of {A} (x : option (Outcome TlsError A * Tls13Handshake (K := Z) (D := Z) (P := Z) (T := unit) * Z)) :=
  match x with Some (_, h, _) => h | None => demo_hs end.
Definition frame (t : Z) (body : bytes) : bytes := t :: be24 (len body) ++ body.
Definition demo_sh : bytes :=
  frame handshake_type.SERVER_HELLO
    (encode_server_hello 0x0303 (replicate 32 7) (default [] (hs_session_id (state_of demo_hello))) 0x1301 0
      [(0x002b, [3; 4]); (0x0033, [0; 0x1d; 0; 32] ++ replicate 32 9)]).
Definition demo_keys := process_handshake_record (R := Z) 99 demo_sh (state_of demo_hello) 5.

(** EncryptedExtensions, Certificate, CertificateVerify, and the Finished the
    client expects after them. *)
Definition demo_flight : bytes :=
  frame handshake_type.ENCRYPTED_EXTENSIONS [0; 0] ++
  frame handshake_type.CERTIFICATE
    (let c := encode_cert demo_cert in [0] ++ be24 (len c + 5) ++ be24 (len c) ++ c ++ [0; 0]) ++
  frame handshake_type.CERTIFICATE_VERIFY ([8; 4] ++ be16 140 ++ replicate 140 5).
Definition demo_finished (h : Tls13Handshake (K := Z) (D := Z) (P := Z) (T := unit)) : bytes :=
  let h1 := state_of (process_handshake_record (R := Z) 99 demo_flight h 5) in
  match hs_hkdf_algorithm h1, hs_server_hs_traffic_secret h1, hs_transcript h1 with
  | Some alg, Some s, Some t =>
      match compute_finished_verify_data alg s (current_hash t) with
      | Ok v => frame handshake_type.FINISHED v | _ => []
      end
  | _, _, _ => []
  end.
Definition demo_data : bytes := demo_flight ++ demo_finished (state_of demo_keys).

(** With a HelloRetryRequest for secp256r1. *)
Definition demo_hrr : bytes :=
  frame handshake_type.SERVER_HELLO
    (encode_server_hello 0x0303 HRR_RANDOM (default [] (hs_session_id (state_of demo_hello))) 0x1301 0
      [(0x002b, [3; 4]); (0x0033, [0; 0x17])]).
Definition demo_retry := process_handshake_record (R := Z) 99 demo_hrr (state_of demo_hello) 5.
Definition demo_sh2 : bytes :=
  frame handshake_type.SERVER_HELLO
    (encode_server_hello 0x0303 (replicate 32 7) (default [] (hs_session_id (state_of demo_hello))) 0x1301 0
      [(0x002b, [3; 4]); (0x0033, [0; 0x17; 0; 32] ++ replicate 32 9)]).
Definition demo_keys2 := process_handshake_record (R := Z) 99 demo_sh2 (state_of demo_retry) 5.
Definition demo_data2 : bytes := demo_flight ++ demo_finished (state_of demo_keys2).

Lemma demo_start : tls13_props.fresh demo_hs.
Proof. by split_and!. Qed.

(** The messages and the state after the hello, and after the ServerHello. *)
Definition value_of {A} (d : A) (x : option (Outcome TlsError A * Tls13Handshake (K := Z) (D := Z) (P := Z) (T := unit) * Z)) : A :=
  match x with Some (Ok a, _, _) => a | _ => d end.
Definition rand_of {A} (x : option (Outcome TlsError A * Tls13Handshake (K := Z) (D := Z) (P := Z) (T := unit) * Z)) : Z :=
  match x with Some (_, _, r) => r | None => 0 end.

Lemma demo_reach_hello : reach demo_hs [value_of [] demo_hello] (state_of demo_hello).
Proof.
  apply (reach_hello demo_hs 99 _ _ 5 (rand_of demo_hello)); [exact demo_start|]. by vm_compute.
Qed.

Lemma frame_framed t body : framed t (frame t body) body.
Proof. by do 3 eexists. Qed.

Lemma demo_reach_keys : reach demo_hs
  ([value_of [] demo_hello] ++ [demo_sh]) (state_of demo_keys).
Proof.
  apply (reach_message demo_hs _ (state_of demo_hello) 99 handshake_type.SERVER_HELLO _ (drop 4 demo_sh)
    (value_of ContinueReading demo_keys) _ 5 (rand_of demo_keys) demo_reach_hello); [|by vm_compute].
  by apply frame_framed.
Qed.

Lemma completion_authenticated_witness : exists alg hrr pre sh post,
  certified (R := Z) alg hrr [97; 46; 98] None (pre ++ sh :: post).
Proof.
  assert (exists hc h1 r1, process_handshake_record (R := Z) 99 demo_data (state_of demo_keys) 5 =
    Some (Ok (Complete hc), h1, r1)) as (hc & h1 & r1 & Hd) by (do 3 eexists; by vm_compute).
  destruct (completion_authenticated demo_hs _ 99 demo_data hc _ h1 5 r1 demo_reach_keys
    ltac:(apply (bool_decide_unpack _); by vm_compute) Hd)
    as (alg & hrr & pre & sh & post & ? & ? & ? & ? & ? & ? & _ & _ & _ & _ & _ & _ & _ & [(t & Ht & _)|[Hp|Hc]]);
    [done|done|by exists alg, hrr, pre, sh, post].
Defined.

Lemma demo_reach_retry : reach demo_hs
  ([value_of [] demo_hello] ++ demo_hrr :: sent (value_of ContinueReading demo_retry)) (state_of demo_retry).
Proof.
  apply (reach_message demo_hs _ (state_of demo_hello) 99 handshake_type.SERVER_HELLO _ (drop 4 demo_hrr)
    (value_of ContinueReading demo_retry) _ 5 (rand_of demo_retry) demo_reach_hello); [|by vm_compute].
  by apply frame_framed.
Qed.
Definition demo_log2 : list bytes :=
  ([value_of [] demo_hello] ++ demo_hrr :: sent (value_of ContinueReading demo_retry)) ++ [demo_sh2].
Lemma demo_reach_keys2 : reach demo_hs demo_log2 (state_of demo_keys2).
Proof.
  apply (reach_message demo_hs _ (state_of demo_retry) 99 handshake_type.SERVER_HELLO _ (drop 4 demo_sh2)
    (value_of ContinueReading demo_keys2) _ 5 (rand_of demo_keys2) demo_reach_retry); [|by vm_compute].
  by apply frame_framed.
Qed.

(** After a HelloRetryRequest. *)
Lemma completion_key_schedule_witness : exists hc alg aead hrr pre sh post full psk ecdhe,
  demo_log2 `prefix_of` pre ++ sh :: post /\
  schedule (P := Z) alg aead hrr (pre ++ sh :: post) full psk ecdhe hc.
Proof.
  assert (exists hc h1 r1, process_handshake_record (R := Z) 99 demo_data2 (state_of demo_keys2) 5 =
    Some (Ok (Complete hc), h1, r1)) as (hc & h1 & r1 & Hd) by (do 3 eexists; by vm_compute).
  destruct (completion_key_schedule demo_hs demo_log2 99 demo_data2 hc _ h1 5 r1 demo_reach_keys2
    ltac:(apply (bool_decide_unpack _); by vm_compute) Hd)
    as (alg & aead & hrr & pre & sh & post & ecdhe & psk & hsec & chs & full & payload & vd & Hpre & Hh & _ & _ & _ & _ & _ & _ & Hs & _).
  exists hc, alg, aead, hrr, pre, sh, post, full, psk, ecdhe. exact (conj Hpre Hs).
Defined.


(** A flight that ends in a Finished of one byte. *)
Lemma handshake_record_never_panics_witness : exists o h1 r1,
  process_handshake_record (R := Z) (DC := demo_decompress) 99 (demo_flight ++ [20; 0; 0; 1; 7]) (state_of demo_keys) 5 =
    Some (o, h1, r1) /\ o <> Panic.
Proof.
  apply (handshake_record_never_panics (HL := toy_hkdf_laws) (DL := demo_decompress_laws)
    demo_hs _ _ _ _ _ demo_reach_keys); apply (bool_decide_unpack _); by vm_compute.
Defined.
End tls13_demo.

(** * A TLS 1.2 handshake run on concrete inputs

    The mock server picks ECDHE with AES-128-GCM and signs its key share with the
    key of its certificate. *)
Import error statem tls12_cipher kx server_hello sh_props hkdf certchain certchain_props session_store session_store_props prf tls13_demo tls12 tls12_props.

Module tls12_demo.

(** An RSA that encrypts to the identity. *)
Definition demo_rsa : RsaCrate Z unit unit := {|
  rsa_from_der _ := Some tt; pkcs1_new _ := Some tt; pkcs1_encrypt _ m r := (Some m, r) |}.
#[local] Existing Instances toy_random toy_agreement tick toy_hkdf toy_crypto demo_sigs demo_webpki demo_rsa.

Abbreviation Hs12 := (Tls12Handshake (K := Z) (D := Z) (T := unit)).
Definition hs12 : Hs12 := handshake12_new (replicate 32 1) [97; 46; 98] Strict.

(** The handler for the message [body] of type [t]. *)
Definition demo12_step (t : Z) (body : bytes) (h : Hs12) : option (Outcome TlsError Tls12HandshakeAction * Hs12 * Z) :=
  process_single_message (R := Z) t body (frame t body) h 5.
Definition state12_of {A} (x : option (Outcome TlsError A * Hs12 * Z)) : Hs12 :=
  match x with Some (_, h, _) => h | None => hs12 end.
Definition act12_of (x : option (Outcome TlsError Tls12HandshakeAction * Hs12 * Z)) : Tls12HandshakeAction :=
  match x with Some (Ok a, _, _) => a | _ => ContinueReading end.
Definition rand12_of {A} (x : option (Outcome TlsError A * Hs12 * Z)) : Z :=
  match x with Some (_, _, r) => r | None => 0 end.

(** The bodies of the server's flight. *)
Definition demo12_flight : list (Z * bytes) :=
  [(0x02, encode_server_hello 0x0303 (replicate 32 7) [] 0xc02f 0 [(0x0017, [])]);
   (0x0b, let c := encode_cert demo_cert in tls13.be24 (len c + 3) ++ tls13.be24 (len c) ++ c);
   (0x0c, [3; 0; 0x1d; 32] ++ replicate 32 9 ++ [8; 4] ++ be16 140 ++ replicate 140 5);
   (0x0e, [])].

Fixpoint run12 (msgs : list (Z * bytes)) (log : list bytes) (h : Hs12) : list bytes * Hs12 :=
  match msgs with
  | [] => (log, h)
  | (t, body) :: msgs =>
      let x := demo12_step t body h in
      run12 msgs (log ++ frame t body :: sent12 (act12_of x)) (state12_of x)
  end.
Fixpoint accepted12 (msgs : list (Z * bytes)) (h : Hs12) : bool :=
  match msgs with
  | [] => true
  | (t, body) :: msgs =>
      bool_decide (is_bytes body) &&
      match demo12_step t body h with Some (Ok _, h1, _) => accepted12 msgs h1 | _ => false end
  end.

Lemma run12_reach h0 msgs : forall log h, reach12 (R := Z) h0 log h -> accepted12 msgs h = true ->
  reach12 (R := Z) h0 (run12 msgs log h).1 (run12 msgs log h).2.
Proof.
  induction msgs as [|[t body] msgs IH]; intros log h Hr Ha; simpl in *; [exact Hr|].
  apply andb_prop in Ha as [Hb%bool_decide_eq_true Ha].
  destruct (demo12_step t body h) as [[[[act|e|] h1] r1]|] eqn:Hx; try discriminate Ha.
  apply IH; [|exact Ha]. simpl.
  exact (reach12_message h0 log h t (frame t body) body act h1 5 r1 Hr (frame_framed t body) Hb Hx).
Qed.

Definition demo12_log : list bytes := (run12 demo12_flight [[1; 0; 0; 1; 9]] (feed_client_hello [1; 0; 0; 1; 9] hs12)).1.
Definition demo12_state : Hs12 := notify_server_ccs_received
  (run12 demo12_flight [[1; 0; 0; 1; 9]] (feed_client_hello [1; 0; 0; 1; 9] hs12)).2.

Lemma demo12_reach : reach12 (R := Z) hs12 demo12_log demo12_state.
Proof.
  apply reach12_ccs, run12_reach; [|by vm_compute].
  apply reach12_hello. by split_and!.
Qed.

(** Three blocks of the mock's HMAC, cut at 80 bytes. *)
Lemma prf_rfc5246_witness : exists out,
  prf PrfSha256 [1] "key expansion" [2] 80 = Ok out /\ len out = 80.
Proof.
  destruct (prf_rfc5246 PrfSha256 [1] [2] "key expansion" 80 3 ltac:(lia)) as (out & H1 & H2 & _).
  exists out. exact (conj H1 H2).
Defined.
End tls12_demo.

(** * TLS connections run on concrete inputs

    Mock servers for a TLS 1.3 connection and for a resumed TLS 1.2 session. *)
Import error statem record kx sh_props hkdf certchain certchain_props session_store session_store_props types tls13_demo tls12_demo tls_driver reassembly tls_driver_props quic_driver_props.

Module tls_driver_demo.
#[local] Existing Instances toy_random toy_agreement tick toy_hkdf toy_crypto toy_crypto_laws demo_sigs demo_webpki demo_decompress demo_rsa.

Abbreviation Drv := (HandshakeDriver (K := Z) (D := Z) (P := Z) (T := unit)).
Abbreviation Wld := (World (R := Z)).
Abbreviation Res A := (option (Outcome TlsError A * Drv * Wld)).

Definition demo_cfg (p : TlsProfile) (store : bool) : HandshakeConfig (T := unit) :=
  {| c_profile := p; c_hostname := [97; 46; 98]; c_port := 443; c_verification_policy := Strict;
     c_alps_payload := None; c_session_store := store; c_custom_ca_anchors := None;
     c_keylog_callback := true; c_client_hello_callback := true |}.
Definition world0 (s : InMemorySessionStore) : Wld := mkWorld 5 s [] [].

Definition drv_of {A} (d : Drv) (x : Res A) : Drv := match x with Some (Ok _, d, _) => d | _ => d end.
Definition wld_of {A} (w : Wld) (x : Res A) : Wld := match x with Some (Ok _, _, w) => w | _ => w end.
Definition succeeds {A} (x : Res A) : bool := match x with Some (Ok _, _, _) => true | _ => false end.
Definition plain (ct : Z) (p : bytes) : bytes := [ct; 3; 3] ++ be16 (len p) ++ p.
(** What the mock server writes under the keys the client reads with. *)
Definition sealed (d : Drv) (ct : Z) (p : bytes) : bytes :=
  let w := match rd_aead (d_reader d), rd_tls12_cipher (d_reader d) with
           | Some a, _ => writer_set_keys writer_new a
           | None, Some cph => writer_set_tls12_keys writer_new cph
           | None, None => writer_new
           end in
  match write_record w ct p 0 with (Ok b, _, _) => b | _ => [] end.

(** ** TLS 1.3 *)

Definition c13 := demo_cfg demo_profile false.
Definition w13 := world0 store_new.
Definition s13_0 := start 99 (driver_new c13 : Drv) w13.
Definition d13_0 := feed (plain 22 demo_sh) (drv_of (driver_new c13) s13_0).
Definition s13_1 := progress (O := Z) (N := bytes) 99 d13_0 (wld_of w13 s13_0).
Definition d13_1 := let d := drv_of d13_0 s13_1 in feed (sealed d 22 demo_data) d.
Definition s13_2 := progress 99 d13_1 (wld_of w13 s13_1).

(** ** TLS 1.2, resumed *)

Definition demo_ticket : SessionTicketData :=
  {| ticket := [9; 9]; resumption_psk := []; tls_version := TicketTls12; t_cipher_suite := 0xc02f; lifetime_secs := 100;
     age_add := 0; received_at := 0; t_alpn := None; t_hkdf_algorithm := HkdfSha256; t_aead_algorithm := Aes128Gcm;
     t_master_secret := replicate 48 3; max_early_data_size := 0; peer_transport_parameters := None |}.
Definition c12 := demo_cfg demo_profile true.
Definition w12 := world0 (mkStore {[ host_key c12 := [demo_ticket] ]} 2).
Definition s12_0 := start 99 (driver_new c12 : Drv) w12.
Definition demo_sh12 : bytes :=
  frame 0x02 (encode_server_hello 0x0303 (replicate 32 7) [] 0xc02f 0 []).
Definition d12_0 := feed (plain 22 demo_sh12 ++ plain 20 [1]) (drv_of (driver_new c12) s12_0).
Definition s12_1 := progress (O := Z) (N := bytes) 99 d12_0 (wld_of w12 s12_0).
Definition d12_1 := let d := drv_of d12_0 s12_1 in feed (sealed d 22 (frame 20 (replicate 12 7))) d.
Definition s12_2 := progress 99 d12_1 (wld_of w12 s12_1).

(** ** QUIC *)

Abbreviation Qdrv := (QuicHandshakeDriver (K := Z) (D := Z) (P := Z) (T := unit)).
Definition qcfg : QuicHandshakeConfig (T := unit) := into_quic c13 [1; 1; 7].
Definition qdrv_of {A} (d : Qdrv) (x : option (Outcome TlsError A * Qdrv * Wld)) : Qdrv :=
  match x with Some (Ok _, d, _) => d | _ => d end.
Definition qwld_of {A} (w : Wld) (x : option (Outcome TlsError A * Qdrv * Wld)) : Wld :=
  match x with Some (Ok _, _, w) => w | _ => w end.
Definition q_0 := quic_start 99 (quic_new qcfg : Qdrv) w13.
Definition demo_qsh : bytes :=
  frame handshake_type.SERVER_HELLO
    (encode_server_hello 0x0303 (replicate 32 7) [] 0x1301 0
      [(0x002b, [3; 4]); (0x0033, [0; 0x1d; 0; 32] ++ replicate 32 9)]).
Definition qd_0 := quic_feed demo_qsh (qdrv_of (quic_new qcfg) q_0).
Definition q_1 := quic_progress (O := Z) (N := bytes) 99 qd_0 (qwld_of w13 q_0).
(** The flight, with the server's transport parameters in EncryptedExtensions. *)
Definition demo_qflight : bytes :=
  frame handshake_type.ENCRYPTED_EXTENSIONS ([0; 7; 0; 0x39; 0; 3; 4; 1; 9]) ++
  frame handshake_type.CERTIFICATE
    (let c := encode_cert demo_cert in [0] ++ tls13.be24 (len c + 5) ++ tls13.be24 (len c) ++ c ++ [0; 0]) ++
  frame handshake_type.CERTIFICATE_VERIFY ([8; 4] ++ be16 140 ++ replicate 140 5).
Definition qd_1 := quic_feed (demo_qflight ++ frame handshake_type.FINISHED (replicate 32 7)) (qdrv_of qd_0 q_1).
Definition qdone_of (x : option (Outcome TlsError QuicHandshakeOutput * Qdrv * Wld)) : option (bytes * QuicHandshakeResult) :=
  match x with Some (Ok (QDone b res), _, _) => Some (b, res) | _ => None end.

(** ** Witnesses *)

Lemma start_run c w : succeeds (start (O := Z) 99 (driver_new c : Drv) w) = true ->
  connection (R := Z) (O := Z) (E := bytes) (N := bytes) (PK := unit) (EK := unit) c w
    (drv_of (driver_new c) (start (O := Z) 99 (driver_new c : Drv) w)).
Proof.
  destruct (start (O := Z) 99 (driver_new c : Drv) w) as [[[[b| |] d] w']|] eqn:Hs; try done. intros _.
  exact (conn_start c w 99 b d w' Hs).
Qed.
Lemma progress_run c w0 d w : connection (R := Z) (O := Z) (E := bytes) (N := bytes) (PK := unit) (EK := unit) c w0 d ->
  succeeds (progress 99 d w) = true -> connection (R := Z) (O := Z) (E := bytes) (N := bytes) (PK := unit) (EK := unit) c w0
    (drv_of d (progress 99 d w)).
Proof.
  intros Hc. destruct (progress 99 d w) as [[[[b| |] d'] w']|] eqn:Hs; try done. intros _.
  exact (conn_progress c w0 99 b d d' w w' Hc Hs).
Qed.

Lemma run13_connection : connection (R := Z) (O := Z) (E := bytes) (N := bytes) (PK := unit) (EK := unit) c13 w13 d13_1.
Proof.
  apply conn_feed; [|apply (bool_decide_unpack _); by vm_compute].
  apply progress_run; [|by vm_compute].
  apply conn_feed; [|apply (bool_decide_unpack _); by vm_compute]. apply start_run. by vm_compute.
Qed.
Lemma run12_connection : connection (R := Z) (O := Z) (E := bytes) (N := bytes) (PK := unit) (EK := unit) c12 w12 d12_1.
Proof.
  apply conn_feed; [|apply (bool_decide_unpack _); by vm_compute].
  apply progress_run; [|by vm_compute].
  apply conn_feed; [|apply (bool_decide_unpack _); by vm_compute]. apply start_run. by vm_compute.
Qed.

Definition done_of (x : Res HandshakeOutput) : option (bytes * HandshakeResult) :=
  match x with Some (Ok (Done b res), _, _) => Some (b, res) | _ => None end.
Lemma done_of_run x b res : done_of x = Some (b, res) -> exists d1 w1, x = Some (Ok (Done b res), d1, w1).
Proof. destruct x as [[[[[]| |] d] w]|]; intros Hx; try discriminate Hx. injection Hx as <- <-. by exists d, w. Qed.

Lemma run13_done : exists b res, done_of (progress 99 d13_1 (wld_of w13 s13_1)) = Some (b, res) /\
  res_negotiated_version res = Some 0x0304.
Proof. do 2 eexists. split; by vm_compute. Qed.
(** The record of a request. *)
Definition request_of (res : HandshakeResult) : bytes :=
  match write_record (res_writer res) content_type.APPLICATION_DATA [71; 69; 84] 0 with (Ok b, _, _) => b | _ => [] end.
Lemma run12_done : exists b res, done_of (progress 99 d12_1 (wld_of w12 s12_1)) = Some (b, res).
Proof. do 2 eexists. by vm_compute. Qed.
Lemma run12_request b res : done_of (progress 99 d12_1 (wld_of w12 s12_1)) = Some (b, res) ->
  request_of res = [23; 3; 3; 0; 3; 71; 69; 84].
Proof.
  intros Hd. assert (from_option (fun x => request_of x.2) [] (done_of (progress 99 d12_1 (wld_of w12 s12_1))) =
    [23; 3; 3; 0; 3; 71; 69; 84]) as Hx by (by vm_compute). by rewrite Hd in Hx.
Qed.
Lemma run12_waits : exists h cr keys, d_state d12_1 = DTls12WaitServerFinished h cr keys true /\ tls12.h_abbreviated h = true.
Proof. do 3 eexists. split; by vm_compute. Qed.

(** The TLS 1.3 connection. *)
Lemma connection_secured_witness : exists res,
  secured13 (R := Z) (K := Z) (D := Z) (P := Z) (O := Z) (E := bytes) (N := bytes) c13 w13 res.
Proof.
  destruct run13_done as (b & res & Hd & Hv). apply done_of_run in Hd as (d1 & w1 & Hd). exists res.
  destruct (connection_secured c13 w13 99 b res d13_1 d1 (wld_of w13 s13_1) w1 run13_connection Hd) as [Hs|[Hs _]]; [exact Hs|].
  rewrite Hv in Hs. discriminate Hs.
Defined.

(** The resumed session: the request goes out as it is. *)
Lemma resumed_session_unprotected_witness : exists b res,
  b = ([] : bytes) /\ unkeyed (res_writer res) /\
  request_of res = [23; 3; 3; 0; 3; 71; 69; 84].
Proof.
  destruct run12_done as (b & res & Hd). pose proof (run12_request _ _ Hd) as Hw. apply done_of_run in Hd as (d1 & w1 & Hd).
  destruct run12_waits as (h & cr & keys & Hst & Ha). exists b, res.
  destruct (resumed_session_unprotected c12 w12 99 h cr keys true b res d12_1 d1 (wld_of w12 s12_1) w1 run12_connection Hst Ha Hd) as [H1 H2].
  exact (conj H1 (conj H2 Hw)).
Defined.

(** A Certificate of four bytes of body in two records, the second with a
    CertificateVerify and the head of a Finished. *)
Lemma reassembly_exact_witness : exists pieces buf,
  reassemble_all [] [[11; 0; 0; 4; 1]; [2; 3; 4; 15; 0; 0; 1; 9; 20; 0]] = Ok (pieces, buf) /\ partial buf.
Proof.
  destruct (reassembly_exact [[11; 0; 0; 4; 1]; [2; 3; 4; 15; 0; 0; 1; 9; 20; 0]]) as (pieces & buf & ms & Hx & _ & _ & _ & Hp).
  { apply (bool_decide_unpack _). by vm_compute. }
  exists pieces, buf. exact (conj Hx Hp).
Defined.

Abbreviation qrun := (quic_run (R := Z) (O := Z) (E := bytes) (N := bytes)).
Definition qsucceeds {A} (x : option (Outcome TlsError A * Qdrv * Wld)) : bool :=
  match x with Some (Ok _, _, _) => true | _ => false end.
Lemma qstart_run c w : qsucceeds (quic_start (O := Z) 99 (quic_new c : Qdrv) w) = true ->
  qrun c w (qdrv_of (quic_new c) (quic_start (O := Z) 99 (quic_new c : Qdrv) w)).
Proof.
  destruct (quic_start (O := Z) 99 (quic_new c : Qdrv) w) as [[[[b| |] d] w']|] eqn:Hs; try done. intros _.
  exact (quic_run_start c w 99 b d w' Hs).
Qed.
Lemma qprogress_run c w0 d w : qrun c w0 d -> qsucceeds (quic_progress 99 d w) = true ->
  qrun c w0 (qdrv_of d (quic_progress 99 d w)).
Proof.
  intros Hc. destruct (quic_progress 99 d w) as [[[[b| |] d'] w']|] eqn:Hs; try done. intros _.
  exact (quic_run_progress c w0 99 b d d' w w' Hc Hs).
Qed.
Lemma quic_run_demo : qrun qcfg w13 qd_1.
Proof.
  apply quic_run_feed; [|apply (bool_decide_unpack _); by vm_compute].
  apply qprogress_run; [|by vm_compute].
  apply quic_run_feed; [|apply (bool_decide_unpack _); by vm_compute]. apply qstart_run. by vm_compute.
Qed.
Lemma quic_done : exists b res, qdone_of (quic_progress 99 qd_1 (qwld_of w13 q_1)) = Some (b, res).
Proof. do 2 eexists. by vm_compute. Qed.
Lemma qdone_of_run x b res : qdone_of x = Some (b, res) -> exists d1 w1, x = Some (Ok (QDone b res), d1, w1).
Proof. destruct x as [[[[[]| |] d] w]|]; intros Hx; try discriminate Hx. injection Hx as <- <-. by exists d, w. Qed.

End tls_driver_demo.
